(* ===== verification/_CoqProject ===== *)
-Q . S2P
Prelude.v
OutBuffer.v
CString.v
Bytes.v
Cwalk.v
CwalkSpec.v
CwalkIter.v
CwalkNormalize.v
CwalkRelative.v
Arith64.v
Printf.v
PrintfSpec.v
PageFrame.v
PageFrameSpec.v
Elf.v
ElfSpec.v
Liballoc.v
LiballocInv.v
LiballocMalloc.v
LiballocSearch.v
LiballocFree.v
LiballocSpec.v
KernelHeap.v
PageTable.v
PageTableSpec.v
AddressSpace.v
SegmentHeap.v
SegmentHeapSpec.v
KernelMemory.v
KernelMemorySpec.v
LibcString.v
Cargs.v
CargsSpec.v
LibcConvert.v
Vector.v
HashMap.v
Vfs.v
VfsSpec.v
VfsPaths.v
VfsTheorems.v
Ustar.v
Network.v
NetworkWire.v
NetworkSpec.v
NetworkArp.v
NetworkUdp.v
NetworkDhcp.v
NetworkTheorems.v
Tasking.v
TaskingInv.v
TaskingSpec.v
TaskingSteps.v
TaskingTurns.v
TaskingTheorems.v
Executables.v
ExecutablesSpec.v
Disk.v
DiskTheorems.v
