(* ===== verification/Prelude.v ===== *)
(** * The Fennix kernel: libraries, memory, file system, disks, tasking, programs
    and network

    A library about the code of Fennix (src/): the memory the kernel allocates
    and maps, the texts it formats, the paths it resolves, its file system, its
    scheduler, the programs it loads, its disks, its network stack, and the C
    routines all of them and the programs of user space call.  C and C++ functions are translated to
    functions of the same names; what C leaves undefined or what halts the
    kernel is a value of [fault], so "returns [Ok]" in a theorem means that the
    code does not read or write outside its objects, does not dereference
    NULL, does not fail an assertion, does not panic and ends.

    ** Parts of the program and files of the library

    - [Prelude] (this file): outcomes and their monad, machine integers as [Z]
      with the wrap-around written out, arrays and NUL-terminated strings,
      automation, and the lemmas on lists and integers all files share.
      [OutBuffer] holds what the writers into bounded buffers (paths and
      formatted output) share: the buffer after writing a text at a position.
    - [CString]: src/kernel/libs/String.c.  A [char*] to read is a list of
      bytes and an offset; an object written to is a list of bytes.
    - [Cwalk]: src/kernel/libs/cwalk.c, every function, in both path styles.
      The path style is the argument [path_style]; segments and joined
      segments are records with the fields of the C structures.  [CwalkSpec]
      says what a path means (root and list of segments) and what normalising
      it means; [CwalkIter] shows that the segment iterators enumerate these
      segments; [CwalkNormalize] and [CwalkRelative] hold the theorems, for
      the UNIX style that the kernel sets.
    - [Arith64]: src/kernel/libs/ArithmeticOperations.c, 64-bit arithmetic by
      halves, with its theorems.
    - [Printf]: src/kernel/libs/printf.c for 64-bit targets.  The output
      gadget of the C code is an instance of the class [Sink], so that the
      same formatting code also runs on a sink that collects a text:
      [PrintfSpec] shows that the two agree and reads properties off the text.
    - [PageFrame]: src/kernel/libs/Bitmap.cpp,
      src/kernel/mem/helpers/PageFrameAllocator.cpp and the memory map that
      src/kernel/arch/amd64/boot/Limine.c passes to it.  Its globals are the
      record [PageFrameAllocator].  [PageFrameSpec] has the theorems.
    - [Liballoc]: src/kernel/mem/liballoc/liballoc_1_1.c, the heap the kernel
      selects.  Its globals and the memory it manages are the record [heap]:
      headers in one map per structure, other bytes in a map of bytes.  The
      page allocator is the class [PageSource].  [LiballocInv] holds the
      invariant (the linked lists in memory are lists of blocks and
      allocations that do not overlap) and the class [PageSourceLaws] of what
      the heap relies on; [LiballocMalloc] treats the cases of [malloc],
      [LiballocSearch] its search and [LiballocFree] the release;
      [LiballocSpec] has the theorems on [malloc], [free], [calloc], [realloc]
      and on programs that use them.
    - [KernelHeap]: src/kernel/mem/HeapManager.cpp, and the instance by which the
      page frame allocator satisfies [PageSourceLaws].
    - [PageTable]: src/kernel/mem/VirtualMemoryManager.cpp and the entries and
      indices of src/kernel/mem/helpers/PageDirectoryEntry.cpp and
      PageMapIndexer.cpp.  Physical memory is a map from frames to tables of
      entries; [vmm] is this memory with the page frame allocator.
      [PageTableSpec] defines the walk and the translation that the processor
      makes and proves what mapping does to it; [AddressSpace] relates the
      tables to a finite map of pages under any sequence of operations.
    - [KernelMemory]: src/kernel/mem/PageTableHeapManager.cpp (the address space
      of the kernel), StackHeapManager.cpp, and the functions of
      src/kernel/syscalls/Native.cpp and src/kernel/proc/Binary.cpp that
      request, free and map pages; [KernelMemorySpec] has the theorems.
    - [SegmentHeap]: src/kernel/mem/defaultalloc/defaultalloc.cpp and
      src/kernel/mem/xalloc/Xalloc.cpp, the two other heaps that the kernel can
      be built with: headers in one map, other bytes in another, pages through
      the class [HeapPages], of which [kernel_page] is the kernel's instance.
      [SegmentHeapSpec] takes a heap for a list of segments and has the theorems.
    - [LibcString] and [LibcConvert]: what src/libc/src/string/string.c and
      src/libc/src/FennixStandardLibrary/convert.c have beyond the kernel, and
      the checksum of src/userspace/libs/algo/algo.c.
    - [Cargs]: src/userspace/libs/cargs/cargs.c.  The stream of the help text
      is the class of its printing functions.  [CargsSpec] has a reference
      parser over lists of arguments and the theorems.
    - [Vector]: src/kernel/include/vector.hpp, an array with a size and a
      capacity, with its theorems.
    - [Vfs]: src/kernel/filesystem/FileSystem.cpp and
      src/kernel/include/filesystem.h.  Nodes are in a store, pointers are the
      numbers of their allocations, children are vectors of pointers, and
      [VFSLock] is part of the state.  [VfsSpec] has the invariant of the
      tree and the abstract view of it (which node a list of names leads to),
      [VfsPaths] the searches by path and the paths of nodes, [VfsTheorems]
      the theorems.
    - [Ustar]: src/kernel/filesystem/fs/ustar.cpp, null.cpp and zero.cpp and the
      directories of src/kernel/filesystem/mountpoints, on top of [Vfs].
    - [HashMap]: src/kernel/include/hashmap.hpp, open addressing in twenty slots,
      with its theorems.
    - [Tasking]: src/kernel/proc/Multitasking.cpp with what it calls: tokens
      (security/Security.cpp), critical sections (Critical.cpp), the process
      interface (proc/ProcessAPI.cpp), ports (InterProcessCommunication.cpp),
      StartTasking (Task.cpp) and the native system calls on processes and
      threads.  Control blocks are in a store and pointers are their numbers,
      so that a freed block is one that is gone; the processor, its registers
      and the two globals of the scheduler are the rest of the record
      [machine].  [TaskingInv] has the invariant and the reference scheduler on
      lists, [TaskingSpec] shows that every operation keeps the one and that the
      handler implements the other, [TaskingSteps] has the steps a running
      system makes and what they preserve, [TaskingTurns] counts turns,
      [TaskingTheorems] has the theorems.
    - [Network]: src/kernel/network.  A packet is its bytes, and headers are read
      and written at offsets in the byte order of the processor, so that the
      order on the wire is what the code makes it.  The objects of the stack
      are the record [net]; the card is the list of frames it was given; the
      frames that arrive are batches, one for each sleep of a thread.  The
      contents of fresh memory and the name of the kernel are the class
      [NetHardware].  [NetworkWire] relates stores, byte swaps, addresses and the
      checksum to lists of bytes, [NetworkSpec] has the formats and what sending
      does, [NetworkArp] the cache of addresses and the wait for an answer,
      [NetworkUdp] packets and datagrams, [NetworkDhcp] the configuration of the
      host, [NetworkTheorems] the theorems.
    - [Bytes]: numbers in lists of bytes, as headers of packets, files and disks
      hold them.
    - [Elf]: the headers of src/kernel/include/elf.h and src/kernel/Symbols.cpp,
      the table of the kernel's symbols, which is sorted in the file itself.  A
      pointer into a file is an offset.  [ElfSpec] takes the table for a list of
      records and has the theorem.
    - [Executables]: src/kernel/proc/Binary.cpp, the loaders in
      src/kernel/proc/exec and the loading of drivers in src/kernel/Driver.cpp,
      over the file system, the page tables and the scheduler, in the record
      [system].  The pages of a program are given back as bytes; what fresh
      pages hold is the class [PageContents].  [ExecutablesSpec] has the theorems.
    - [Disk]: src/kernel/drivers/storage/ahci.cpp (drives and transfers),
      src/kernel/drivers/disk.cpp (partition tables and partitions) and the
      detection of file systems in src/kernel/filesystem/fs/fat.cpp, ext2.cpp and
      mountpoints/mountfs.cpp.  The registers of the controller are the class
      [Controller]; a command is the record of what its structures hold.
      [DiskTheorems] has the theorems and a drive to try them on.

    The calls: HeapManager calls liballoc, which calls the page frame allocator
    through the interface; the page tables take their frames from the same
    allocator; the file system calls cwalk, the string functions and Vector,
    and reads files through the operators of their nodes, of which those of
    the archive are modelled; the scheduler keeps its processes and threads in
    vectors and its ports in the hash map; the network stack sends from pages
    of the page frame allocator and keeps handlers and addresses in vectors;
    the loaders read files, request and map pages and start a thread; drives
    become devices and their file systems mount points in the file system;
    the argument parser calls the C library.

    ** What the theorems show

    - Memory: from an empty heap, whatever callers allocate, release and
      write inside what they hold, pointers are aligned and disjoint, nothing
      faults and every search ends ([liballoc_safe]); each of [malloc], [free],
      [calloc] and [realloc] does what it promises and keeps the bytes of other
      allocations; errors (double release, exhaustion, on which [realloc] writes
      through null) are covered.  With the
      page frame allocator below, the pages under live pointers are marked
      ([kernel_heap_pages]).  The bitmap, the searches for pages and the
      reading of the memory map are characterised, with the cases in which
      the code leaves its bitmap or hands out pages it should not.  The default
      heap keeps the same promises for as long as page 0 is mapped
      ([segment_heap_safe]) and writes through null without it
      ([first_malloc_null]); Xalloc can lose its last segment and then never
      returns ([xalloc_never_returns]).
    - Address spaces: [MapMemory] changes the translation of one page only, to
      what was asked for; under all operations the tables stay a tree of
      distinct used frames and refine a finite map ([address_space_refined]);
      the kernel's address space is the intended one, but that its data may
      not be writable ([init_kernelpml_correct]); pages given to programs
      were free and hold no table, but freeing does not unmap them.
    - File system: any sequence of calls with absolute paths and names of up to
      255 characters keeps the tree well formed, without faults and with every
      search ending ([vfs_invariant]); [Create] does nothing when its search finds
      a node, else adds exactly the missing part of a path, or copies a longer name
      past its array ([Create_correct]); under conditions on the names,
      what was created is found by its path and knows its path ([created_found]);
      reading a file of the archive returns its bytes, unless offset and size
      wrap around ([ustar_read_correct]).  Where the searches find what they should
      not, and where [Mount] hangs, are theorems too.
    - Tasking: on each interrupt the handler chooses what the reference scheduler
      chooses ([scheduler_choice]); after any history the control blocks are well
      formed ([scheduler_invariant]), the processor runs a ready thread or idles
      ([scheduler_safe]), an interrupted thread gets back what it had
      ([context_restored]) and every thread has its turn ([round_robin]), as long
      as all threads can run, none is created or ends, and the vectors have the
      spare elements that the handler reads; where it hangs or reads past its
      vectors is stated too.
    - Network: the stack gets a lease from an offer and an acknowledgement among
      frames it ignores ([dhcp_lease]); what is sent has the format
      of the protocols ([datagram_sent], [dhcp_message_fits]); the cache holds
      what was announced last, under reversed addresses ([arp_learns]); waiting
      for an answer ends, for most hosts without one ([resolve_correct]); the checksum is that of the
      Internet protocols but for odd lengths that end in a large byte
      ([checksum_correct]); options are found ([options_found]).
    - Programs: a program of user mode is in memory as its file says, in pages
      that were free and are mapped for it ([elf_loaded]); all others are refused
      ([elf_refused]); the type of a file is that of its contents
      ([binary_type_correct]); the symbols of the kernel are found by address
      ([symbols_found]).
    - Disks: a transfer ends ([transfer_ends]); a partition below 8 GiB gives
      commands for its own sectors only ([partition_isolated]), but for requests of
      no sectors and for those whose end wraps around, and which sector
      a command is for otherwise is known ([transfer_sector]); which boot sectors
      are taken for FAT ([fat_detection]).
    - Vectors refine lists; removal and copies can leave the buffer.  The hash
      map refines a finite map for programs whose searches meet a slot to stop at
      ([hashmap_refines]); others hang or bring back deleted values.
    - Paths: joining and normalising equals the reference definition for all
      paths and buffers (so truncation and termination are right), is
      idempotent, never grows, cannot leave the root, and relative paths lead
      back; basename, dirname and extension partition a path.
    - Formatted output: for every format and arguments the bytes in the
      buffer are the part of one text that fits, and the length is that of
      the whole text; integers print their numerals with the right padding
      and read back.
    - Arithmetic: division, shifts, comparisons and bit counts equal the
      operations on [Z] for all operands.
    - Strings, conversions, checksum: copying, moving, comparing, searching and
      splitting; numerals in all bases and back; CRC-32.
    - Arguments: the loop over the options ends and gives the options and the
      order of arguments of a reference parser ([options_parsed]); the help text
      is aligned.

    ** Bounds and fuel

    Loops that are not structural take fuel, computed from the state: the
    length of the remaining text, the number of headers or blocks in the heap
    ([minor_fuel], [malloc_fuel]: each block is visited at most twice, in two
    steps; [walk_fuel]), two growths of the default heap ([malloc_tries]: after
    one the segment fits), the number of pages of the bitmap ([page_fuel]) or of a range to
    map ([page_steps]), the number of nodes of the file system ([depth_fuel]:
    a child is allocated after its parent, so no walk up or down passes a node
    twice), the number of blocks of an archive, the number of processes and
    threads ([sched_fuel]), the length of a DHCP message (an option takes two
    bytes), the headers of a file.  The two waits of a transfer take the bounds
    of the code, 1000001 and at most 11 * 100000001 + 1 turns, below 1300000000,
    as binary numbers ([loop]).  The theorems show
    that it is enough: running out is the fault [OutOfFuel], and they prove
    [Ok].  Requests to the heap are below 2^31 bytes ([small]), what its 32-bit
    size fields hold; the theorems on [RequestPages] ask that the first and the
    last page of the bitmap are in use ([sealed]), without which the code can
    leave the bitmap; the bitmap has fewer than 2^52 pages, so that addresses
    fit in 64 bits; mapping asks for as many free pages as tables are missing,
    since the allocator panics without them; the file system has fewer
    than 2^50 nodes, names of up to 255 characters, as the array in a node
    holds, and the theorems on creation take absolute paths, as all callers
    give.  The scheduler runs on one processor.  Frames are below 4096 bytes, so
    that one page holds them; the waits of the network stack are the ten
    rounds of the code.  The theorems on loading take files below 2^47 bytes,
    memory of at most 2^35 frames, and page tables for all of it, so that mapping
    a program takes no page.

    ** Not modelled

    Locks other than [VFSLock] and the critical section of the scheduler are not
    modelled: the functions above run under one, so calls are sequential.  The
    flushing of address translations, umemcpy, floating point (atof), the
    random and serial devices and the texts of sysinfo.cpp are left out.  The
    older liballoc and the buddy allocator, from other projects, are not the heap
    that the kernel selects.  Of tasking, the mode without preemption and
    scheduling on several processors are left out; of disks, the set-up of
    ports and the floppy drive; of drivers, their calls of the kernel; of the
    network, the search for cards, their drivers and the destructors of handlers.
    The Linux system calls are stubs.  Boot code, port I/O, the reading of FAT
    and EXT2 files (which are stubs) and the GUI have little logic
    of their own.  The copies of cwalk, printf, liballoc and the arithmetic
    runtime under src/libc and src/userspace are the code modelled here. *)

From Stdlib Require Export ZArith Lia List Bool.
From stdpp Require Export base list numbers strings.

(** ** Outcomes of C code *)

(** Why a piece of C code has no defined result: a read or write outside the
    object, a null dereference, an [assert] that spins forever, a kernel panic,
    behaviour the language leaves undefined, or a loop that needs more steps
    than it was given.  The theorems show when none of them happens. *)
Inductive fault :=
| OutOfBounds
| NullDeref
| AssertFailed
| Panic
| DivByZero
| Undefined
| OutOfFuel.

Inductive res (A : Type) :=
| Ok (a : A)
| Err (e : fault).
Arguments Ok {A} a.
Arguments Err {A} e.

Definition bind {A B} (c : res A) (k : A -> res B) : res B :=
  match c with
  | Ok a => k a
  | Err e => Err e
  end.

Declare Scope c_scope.
Delimit Scope c_scope with c.
Notation "'let*' x := c1 'in' c2" := (bind c1 (fun x => c2))
  (at level 10, x name, c1 at level 200, c2 at level 200) : c_scope.
Notation "'let*' ' p := c1 'in' c2" := (bind c1 (fun x => match x with p => c2 end))
  (at level 10, p pattern, c1 at level 200, c2 at level 200) : c_scope.
Notation "c1 ';;' c2" := (bind c1 (fun _ => c2))
  (at level 100, c2 at level 200, right associativity) : c_scope.
Open Scope c_scope.

(** [assert(x)] of include/assert.h spins forever when [x] is false. *)
Definition assert (b : bool) : res unit :=
  if b then Ok tt else Err AssertFailed.

(** ** Machine integers *)

(** A [w]-bit unsigned integer is the residue of a [Z] modulo [2^w]; a signed
    one is the representative in [-2^(w-1), 2^(w-1)). *)
Definition wrapu (w z : Z) : Z := z mod 2 ^ w.
Definition wraps (w z : Z) : Z := (z + 2 ^ (w - 1)) mod 2 ^ w - 2 ^ (w - 1).
Abbreviation u8 := (wrapu 8).
Abbreviation u16 := (wrapu 16).
Abbreviation u32 := (wrapu 32).
Abbreviation u64 := (wrapu 64).
Abbreviation s8 := (wraps 8).
Abbreviation s16 := (wraps 16).
Abbreviation s32 := (wraps 32).
Abbreviation s64 := (wraps 64).

(** C's truth values. *)
Definition b2z (b : bool) : Z := if b then 1 else 0.

(** ** Generic list functions *)

Fixpoint takeWhile {A} (p : A -> bool) (l : list A) : list A :=
  match l with
  | [] => []
  | x :: l' => if p x then x :: takeWhile p l' else []
  end.

Fixpoint dropWhile {A} (p : A -> bool) (l : list A) : list A :=
  match l with
  | [] => []
  | x :: l' => if p x then dropWhile p l' else l
  end.

(** The [n] elements of [l] from index [i]. *)
Definition slice {A} (i n : nat) (l : list A) : list A := take n (drop i l).

(** [l] with the elements of [w] stored from index [i] on. *)
Definition splice {A} (i : nat) (w l : list A) : list A :=
  take i l ++ w ++ drop (i + length w) l.

(** ** Arrays *)

(** [l[i]] and [l[i] = v], which fault out of range. *)
Definition aget {A} (l : list A) (i : nat) : res A :=
  match l !! i with
  | Some x => Ok x
  | None => Err OutOfBounds
  end.

Definition aset {A} (l : list A) (i : nat) (v : A) : res (list A) :=
  if decide (i < length l)%nat then Ok (<[i:=v]> l) else Err OutOfBounds.

(** A pointer that the code dereferences without a test. *)
Definition nonnull {A} (o : option A) : res A :=
  match o with
  | Some a => Ok a
  | None => Err NullDeref
  end.

(** ** NUL-terminated strings *)

(** A C string object is its characters (unsigned bytes, none of them 0)
    followed by the terminator; a pointer into it is an offset.  A read at
    the terminator gives 0 and a read past it is a fault. *)
Abbreviation cstr := (list Z).

Definition cget (s : cstr) (i : nat) : res Z :=
  if decide (i < length s)%nat then Ok (nth i s 0%Z)
  else if decide (i = length s) then Ok 0%Z
  else Err OutOfBounds.

(** The bytes of a string: no terminator inside. *)
Definition cstr_ok (s : cstr) : Prop := Forall (fun c => 0 < c < 256)%Z s.

(** A plain [char] is signed on the supported targets. *)
Definition schar (c : Z) : Z := if decide (c < 128)%Z then c else (c - 256)%Z.

(** Literals: the bytes of a Rocq string. *)
Definition bytes_of (s : string) : cstr :=
  map (fun a => Z.of_N (Stdlib.Strings.Ascii.N_of_ascii a)) (Stdlib.Strings.String.list_ascii_of_string s).

(** ** Automation *)

Create HintDb fennix.
Create Rewrite HintDb cbind.

(** Rewriting with these turns a bind on a value into its continuation. *)
Lemma bind_Ok {A B} (a : A) (k : A -> res B) : bind (Ok a) k = k a.
Proof. reflexivity. Qed.

Lemma bind_Err {A B} e (k : A -> res B) : bind (Err e) k = Err e.
Proof. reflexivity. Qed.

Lemma bind_assoc {A B C} (c : res A) (k : A -> res B) (k' : B -> res C) :
  bind (bind c k) k' = bind c (fun a => bind (k a) k').
Proof. by destruct c. Qed.

Lemma bind_inv {A B} (c : res A) (k : A -> res B) b :
  bind c k = Ok b -> exists a, c = Ok a /\ k a = Ok b.
Proof. destruct c; naive_solver. Qed.

#[export] Hint Rewrite @bind_Ok @bind_Err : cbind.

(** Split every hypothesis saying that a bind succeeded. *)
Ltac inv_bind :=
  repeat match goal with
    | H : bind _ _ = Ok _ |- _ => apply bind_inv in H as (? & ? & H)
    | H : Ok _ = Ok _ |- _ => injection H as H; subst
    | H : Err _ = Ok _ |- _ => discriminate H
    | H : assert _ = Ok _ |- _ => unfold assert in H
    end.

(** Case analysis on the conditions of the goal, arithmetic ones included. *)
Ltac split_decide :=
  repeat (case_decide || case_bool_decide || case_match); simplify_eq/=.

(** ** Lemmas on machine integers *)

Lemma wrapu_small w z : (0 <= z < 2 ^ w)%Z -> wrapu w z = z.
Proof. apply Z.mod_small. Qed.

Lemma wrapu_range w z : (0 <= w)%Z -> (0 <= wrapu w z < 2 ^ w)%Z.
Proof. intros. apply Z.mod_pos_bound, Z.pow_pos_nonneg; lia. Qed.

Lemma wraps_small w z : (0 < w)%Z -> (- 2 ^ (w - 1) <= z < 2 ^ (w - 1))%Z -> wraps w z = z.
Proof.
  intros Hw Hz. unfold wraps. rewrite Z.mod_small; [lia|].
  replace (2 ^ w)%Z with (2 * 2 ^ (w - 1))%Z; [lia|].
  rewrite <- Z.pow_succ_r by lia. f_equal. lia.
Qed.

Lemma wraps_range w z : (0 < w)%Z -> (- 2 ^ (w - 1) <= wraps w z < 2 ^ (w - 1))%Z.
Proof.
  intros Hw. unfold wraps.
  assert (2 ^ w = 2 * 2 ^ (w - 1))%Z as E
    by (rewrite <- Z.pow_succ_r by lia; f_equal; lia).
  pose proof (Z.mod_pos_bound (z + 2 ^ (w - 1)) (2 ^ w)).
  assert (0 < 2 ^ (w - 1))%Z by (apply Z.pow_pos_nonneg; lia). lia.
Qed.

(** Bits that do not overlap are added. *)
Lemma lor_add k x y : (0 <= k)%Z -> (0 <= x < 2 ^ k)%Z -> Z.lor x (y * 2 ^ k) = (x + y * 2 ^ k)%Z.
Proof.
  intros Hk Hx. assert (Z.land x (y * 2 ^ k) = 0)%Z as Hd.
  { apply Z.bits_inj'. intros n Hn. rewrite Z.land_spec, Z.bits_0.
    destruct (decide (n < k)%Z).
    - by rewrite Z.mul_pow2_bits_low, andb_false_r.
    - assert (Z.testbit x n = false) as ->; [|done]. apply Z.testbit_false; [lia|].
      rewrite Z.div_small; [done|].
      split; [lia|]. apply Z.lt_le_trans with (2 ^ k)%Z; [lia|]. apply Z.pow_le_mono_r; lia. }
  rewrite (Z.add_nocarry_lxor _ _ Hd). symmetry. by apply Z.lxor_lor.
Qed.

Lemma lor_add_r k x y : (0 <= k)%Z -> (0 <= x < 2 ^ k)%Z -> Z.lor (y * 2 ^ k) x = (y * 2 ^ k + x)%Z.
Proof. intros. rewrite Z.lor_comm, lor_add by done. lia. Qed.

(** ** Lemmas on lists *)

Section lists.
Context {A : Type}.
Implicit Types (l k w : list A) (p : A -> bool).

Lemma takeWhile_dropWhile p l : takeWhile p l ++ dropWhile p l = l.
Proof. induction l as [|x l IH]; simpl; [done|]. destruct (p x); simpl; congruence. Qed.

Lemma takeWhile_all p l : Forall (fun x => p x = true) (takeWhile p l).
Proof. induction l as [|x l IH]; simpl; [done|]. destruct (p x) eqn:E; auto. Qed.

Lemma dropWhile_head p l x k : dropWhile p l = x :: k -> p x = false.
Proof. induction l as [|y l IH]; simpl; [done|]. destruct (p y) eqn:E; naive_solver. Qed.

Lemma length_takeWhile_le p l : (length (takeWhile p l) <= length l)%nat.
Proof. rewrite <- (takeWhile_dropWhile p l) at 2. rewrite length_app. lia. Qed.

Lemma drop_takeWhile p l : drop (length (takeWhile p l)) l = dropWhile p l.
Proof. rewrite <- (takeWhile_dropWhile p l) at 2. by rewrite drop_app_length. Qed.

Lemma take_takeWhile p l : take (length (takeWhile p l)) l = takeWhile p l.
Proof. rewrite <- (takeWhile_dropWhile p l) at 2. by rewrite take_app_length. Qed.

Lemma drop_cons_lookup l i x k : drop i l = x :: k -> (i < length l)%nat /\ drop (S i) l = k.
Proof.
  intros H. split.
  - destruct (decide (i < length l)%nat); [done|]. rewrite drop_ge in H by lia. done.
  - replace (S i) with (i + 1)%nat by lia. rewrite <- drop_drop, H. done.
Qed.

Lemma length_splice i w l :
  (i + length w <= length l)%nat -> length (splice i w l) = length l.
Proof.
  intros H. unfold splice. rewrite !length_app, length_take, length_drop. lia.
Qed.

Lemma take_splice i w l :
  (i + length w <= length l)%nat -> take (i + length w) (splice i w l) = take i l ++ w.
Proof.
  intros H. unfold splice. rewrite app_assoc.
  apply take_app_length'. rewrite length_app, length_take. lia.
Qed.

Lemma drop_splice i w l :
  (i + length w <= length l)%nat ->
  drop (i + length w) (splice i w l) = drop (i + length w) l.
Proof.
  intros H. unfold splice. rewrite app_assoc.
  apply drop_app_length'. rewrite length_app, length_take. lia.
Qed.

Lemma splice_nil i l : splice i [] l = l.
Proof. unfold splice. simpl. rewrite Nat.add_0_r. apply take_drop. Qed.
End lists.

(** ** Lemmas on arrays *)

Lemma aget_Ok {A} (l : list A) i x : aget l i = Ok x <-> l !! i = Some x.
Proof. unfold aget. destruct (l !! i); naive_solver. Qed.

Lemma aget_app_r {A} (l k : list A) x i : i = length l -> aget (l ++ x :: k) i = Ok x.
Proof. intros ->. apply aget_Ok. by rewrite lookup_app_r, Nat.sub_diag by lia. Qed.

Lemma aset_Ok {A} (l : list A) i v : (i < length l)%nat -> aset l i v = Ok (<[i:=v]> l).
Proof. intros. unfold aset. by rewrite decide_True. Qed.

Lemma aset_app_r {A} (l k : list A) x v i :
  i = length l -> aset (l ++ x :: k) i v = Ok (l ++ v :: k).
Proof.
  intros ->. rewrite aset_Ok by (rewrite length_app; simpl; lia).
  by rewrite insert_app_r_alt, Nat.sub_diag by lia.
Qed.

Lemma aset_oob {A} (l : list A) i v : (length l <= i)%nat -> aset l i v = Err OutOfBounds.
Proof. intros. unfold aset. by rewrite decide_False by lia. Qed.

Lemma aget_oob {A} (l : list A) i : (length l <= i)%nat -> aget l i = Err OutOfBounds.
Proof. intros. unfold aget. by rewrite lookup_ge_None_2. Qed.

(** ** Lemmas on C strings *)

Lemma cget_drop s i c k : drop i s = c :: k -> cget s i = Ok c.
Proof.
  intros H. destruct (drop_cons_lookup s i c k H) as [Hi _].
  unfold cget. rewrite decide_True by done. f_equal.
  replace i with (i + 0)%nat by lia. rewrite <- nth_skipn.
  change (List.skipn i s) with (drop i s). by rewrite H.
Qed.

Lemma cget_end s : cget s (length s) = Ok 0%Z.
Proof. unfold cget. rewrite decide_False by lia. by rewrite decide_True. Qed.

Lemma cget_nil s i : (i <= length s)%nat -> drop i s = [] -> cget s i = Ok 0%Z.
Proof.
  intros Hi H. assert (i = length s) as ->; [|apply cget_end].
  apply (f_equal length) in H. rewrite length_drop in H. simpl in H. lia.
Qed.

Lemma cstr_ok_drop s i : cstr_ok s -> cstr_ok (drop i s).
Proof. apply Forall_drop. Qed.
