(* ===== verification/OutBuffer.v ===== *)
(** * Output into a bounded buffer

    The path library and the formatting library both write a text of any
    length into a buffer of [n] bytes: what does not fit is dropped, the text is
    NUL-terminated, and its whole length is returned.  This file states what
    the buffer then holds; src/kernel/libs/cwalk.c
    ([cwk_path_terminate_output]) and src/kernel/libs/printf.c
    ([append_termination_with_gadget]) are shown to leave it so. *)

From S2P Require Import Prelude.

Local Open Scope nat_scope.

(** The buffer after the text [t] was written to it, before termination. *)
Definition written (b0 : list Z) (n : nat) (t : cstr) : list Z :=
  take n t ++ drop (length (take n t)) b0.

(** What a buffer of [n] bytes holds after a text was written to it: as much
    of the text as fits before the terminator. *)
Definition output_of (buffer : list Z) (n : nat) (text : cstr) : list Z :=
  let kept := take (n - 1) text in
  kept ++ 0%Z :: drop (S (length kept)) buffer.

(** What the caller sees: nothing is written when the size is 0. *)
Definition final_output (b0 : list Z) (n : nat) (t : cstr) : list Z :=
  if decide (n = 0) then b0 else output_of b0 n t.

Lemma written_short b0 n t : length t <= n -> written b0 n t = t ++ drop (length t) b0.
Proof. intros. unfold written. by rewrite take_ge by lia. Qed.

Lemma length_written b0 n t : n <= length b0 -> length (written b0 n t) = length b0.
Proof.
  intros. unfold written. rewrite length_app, length_drop.
  pose proof (length_take t n). lia.
Qed.

Lemma splice_app {A} (t u d : list A) : splice (length t) u (t ++ d) = t ++ u ++ drop (length u) d.
Proof. unfold splice. by rewrite take_app_length, drop_app_add. Qed.

Lemma written_splice b0 n t v : length t <= n ->
  splice (length t) (take (n - length t) v) (written b0 n t) = written b0 n (t ++ v).
Proof.
  intros Hl. rewrite written_short by done. rewrite splice_app.
  unfold written. rewrite take_app, (take_ge t) by lia.
  rewrite <- app_assoc, drop_drop, length_app. done.
Qed.

Lemma written_full b0 n t v : n <= length t -> written b0 n (t ++ v) = written b0 n t.
Proof. intros. unfold written. by rewrite take_app_le by lia. Qed.

Lemma written_nil b0 n : written b0 n [] = b0.
Proof. unfold written. by rewrite take_nil. Qed.

Lemma written_0 b0 t : written b0 0 t = b0.
Proof. unfold written. by rewrite take_0. Qed.

(** Storing one more character, and the terminator. *)
Lemma written_put b0 n t c : length t < n -> n <= length b0 ->
  aset (written b0 n t) (length t) c = Ok (written b0 n (t ++ [c])).
Proof.
  intros Hlt Hn. rewrite !written_short by (rewrite ?length_app; simpl; lia).
  destruct (drop (length t) b0) as [|x d] eqn:E.
  { apply (f_equal length) in E. rewrite length_drop in E. simpl in E. lia. }
  rewrite aset_app_r by done. rewrite length_app, Nat.add_comm. cbn [length Nat.add].
  destruct (drop_cons_lookup _ _ _ _ E) as [_ ->]. by rewrite <- app_assoc.
Qed.

Lemma terminate_written b0 n t : 0 < n -> n <= length b0 ->
  aset (written b0 n t) (length t `min` (n - 1)) 0%Z = Ok (output_of b0 n t).
Proof.
  intros Hpos Hn. unfold output_of. destruct (decide (length t < n)) as [Ht|Ht].
  - rewrite Nat.min_l, written_short, (take_ge t) by lia.
    destruct (drop (length t) b0) as [|x d] eqn:Ed.
    { apply (f_equal length) in Ed. rewrite length_drop in Ed. simpl in Ed. lia. }
    rewrite aset_app_r by done. by rewrite (proj2 (drop_cons_lookup _ _ _ _ Ed)).
  - rewrite Nat.min_r by lia. unfold written.
    assert (exists x, take n t = take (n - 1) t ++ [x]) as [x Hx].
    { destruct (lookup_lt_is_Some_2 t (n - 1)) as [x Hx]; [lia|]. exists x.
      rewrite <- (take_S_r _ _ _ Hx). f_equal. lia. }
    rewrite Hx, <- app_assoc. cbn [app].
    rewrite aset_app_r by (rewrite length_take; lia).
    by rewrite length_app, Nat.add_1_r.
Qed.
