(* ===== verification/CString.v ===== *)
(** * The kernel's C string and memory routines

    Models src/kernel/libs/String.c.  A buffer that is written is a list of
    bytes, and a string that is only read is its characters before the
    terminator, with a pointer into it given by an offset.  Every read and
    write is checked, so a theorem that a routine returns [Ok] says that it
    stays inside its objects and that its loop ends. *)

From S2P Require Import Prelude.

Local Open Scope nat_scope.

(** ** Definitions *)

(** The loop of [memcpy]: [k] bytes remain, the next has index [i]. *)
Fixpoint memcpy_loop (d c : list Z) (i k : nat) : res (list Z) :=
  match k with
  | O => Ok d
  | S k' =>
      let* x := aget c i in
      let* d' := aset d i x in
      memcpy_loop d' c (S i) k'
  end.

Definition memcpy (dest src : list Z) (n : Z) : res (list Z) :=
  memcpy_loop dest src 0 (Z.to_nat n).

Fixpoint memset_loop (buf : list Z) (data : Z) (i k : nat) : res (list Z) :=
  match k with
  | O => Ok buf
  | S k' =>
      let* buf' := aset buf i (u8 data) in
      memset_loop buf' data (S i) k'
  end.

Definition memset (dest : list Z) (data : Z) (nbytes : Z) : res (list Z) :=
  memset_loop dest data 0 (Z.to_nat nbytes).

(** [memmove] takes two offsets into one object, which may overlap. *)
Fixpoint memmove_up (m : list Z) (dst srcc i k : nat) : res (list Z) :=
  match k with
  | O => Ok m
  | S k' =>
      let* x := aget m (srcc + i) in
      let* m' := aset m (dst + i) x in
      memmove_up m' dst srcc (S i) k'
  end.

Fixpoint memmove_down (m : list Z) (dst srcc i : nat) : res (list Z) :=
  match i with
  | O => Ok m
  | S i' =>
      let* x := aget m (srcc + i') in
      let* m' := aset m (dst + i') x in
      memmove_down m' dst srcc i'
  end.

Definition memmove (m : list Z) (dst srcc : nat) (n : Z) : res (list Z) :=
  if decide (dst < srcc) then memmove_up m dst srcc 0 (Z.to_nat n)
  else memmove_down m dst srcc (Z.to_nat n).

(** [memmove] from a string at [o + i] into another object: with no overlap
    the two directions store the same bytes; this is the upward one. *)
Fixpoint memmove_from (d : list Z) (dst : nat) (s : cstr) (o i k : nat) : res (list Z) :=
  match k with
  | O => Ok d
  | S k' =>
      let* x := cget s (o + i) in
      let* d' := aset d (dst + i) x in
      memmove_from d' dst s o (S i) k'
  end.

Fixpoint memcmp_loop (l r : list Z) (i n : nat) : res Z :=
  match n with
  | O => Ok 0%Z
  | S n' =>
      let* a := aget l i in
      let* b := aget r i in
      if decide (a = b) then memcmp_loop l r (S i) n' else Ok (a - b)%Z
  end.

Definition memcmp (vl vr : list Z) (n : Z) : res Z :=
  memcmp_loop vl vr 0 (Z.to_nat n).

(** [strncmp(s1 + o1, s2 + o2, n)]; [char] is signed. *)
Fixpoint strncmp_loop (s1 : cstr) (o1 : nat) (s2 : cstr) (o2 i n : nat) : res Z :=
  match n with
  | O => Ok 0%Z
  | S n' =>
      let* b1 := cget s1 (o1 + i) in
      let* b2 := cget s2 (o2 + i) in
      let c1 := schar b1 in
      let c2 := schar b2 in
      if decide (c1 = c2) then
        if decide (c1 = 0%Z) then Ok 0%Z else strncmp_loop s1 o1 s2 o2 (S i) n'
      else Ok (c1 - c2)%Z
  end.

Definition strncmp (s1 : cstr) (o1 : nat) (s2 : cstr) (o2 : nat) (n : Z) : res Z :=
  strncmp_loop s1 o1 s2 o2 0 (Z.to_nat n).

Fixpoint strlen_loop (s : cstr) (o i fuel : nat) : res Z :=
  match fuel with
  | O => Err OutOfFuel
  | S f =>
      let* c := cget s (o + i) in
      if decide (c = 0%Z) then Ok (Z.of_nat i) else strlen_loop s o (S i) f
  end.

Definition strlen (s : cstr) (o : nat) : res Z := strlen_loop s o 0 (S (length s)).

(** The destination of [strcat], [strcpy] and [strncpy] is a buffer; [None]
    is a null pointer. *)
Fixpoint find_nul (d : list Z) (start fuel : nat) : res nat :=
  match fuel with
  | O => Err OutOfFuel
  | S f =>
      let* c := aget d start in
      if decide (c = 0%Z) then Ok start else find_nul d (S start) f
  end.

(** Copies the string from [j] to the buffer from [i], with the terminator. *)
Fixpoint copy_string (d : list Z) (i : nat) (s : cstr) (j fuel : nat) : res (list Z) :=
  match fuel with
  | O => Err OutOfFuel
  | S f =>
      let* c := cget s j in
      if decide (c = 0%Z) then aset d i 0%Z
      else let* d' := aset d i c in copy_string d' (S i) s (S j) f
  end.

Definition strcat (destination : option (list Z)) (source : option cstr)
    : res (option (list Z)) :=
  match destination, source with
  | None, None => Ok None
  | None, Some _ => Err NullDeref
  | Some d, source =>
      let* start := find_nul d 0 (S (length d)) in
      match source with
      | None => Err NullDeref
      | Some s =>
          let* d' := copy_string d start s 0 (S (length s)) in Ok (Some d')
      end
  end.

Definition strcpy (destination : option (list Z)) (source : cstr)
    : res (option (list Z)) :=
  match destination with
  | None => Ok None
  | Some d => let* d' := copy_string d 0 source 0 (S (length source)) in Ok (Some d')
  end.

(** [while ( *source && num--)]: the terminator is written after the loop. *)
Fixpoint strncpy_loop (d : list Z) (i : nat) (s : cstr) (j : nat) (num fuel : nat)
    {struct fuel} : res (list Z) :=
  match fuel with
  | O => Err OutOfFuel
  | S f =>
      let* c := cget s j in
      if decide (c = 0%Z) then aset d i 0%Z
      else
        match num with
        | O => aset d i 0%Z
        | S num' =>
            let* d' := aset d i c in strncpy_loop d' (S i) s (S j) num' f
        end
  end.

Definition strncpy (destination : option (list Z)) (source : cstr) (num : Z)
    : res (option (list Z)) :=
  match destination with
  | None => Ok None
  | Some d =>
      let* d' := strncpy_loop d 0 source 0 (Z.to_nat num) (S (length source)) in
      Ok (Some d')
  end.

Fixpoint strcmp_loop (l r : cstr) (i fuel : nat) : res Z :=
  match fuel with
  | O => Err OutOfFuel
  | S f =>
      let* a := cget l i in
      let* b := cget r i in
      if decide (a = b) then
        if decide (a = 0%Z) then Ok (a - b)%Z else strcmp_loop l r (S i) f
      else Ok (a - b)%Z
  end.

Definition strcmp (l r : cstr) : res Z := strcmp_loop l r 0 (S (length l)).

(** [strstr]: [h] is the current [haystack], [a] and [b] the two cursors. *)
Fixpoint strstr_loop (hs nd : cstr) (h a b fuel : nat) : res (option nat) :=
  match fuel with
  | O => Err OutOfFuel
  | S f =>
      let* cb := cget nd b in
      if decide (cb = 0%Z) then Ok (Some h)
      else
        let* ca := cget hs a in
        if decide (ca = 0%Z) then Ok None
        else if decide (ca = cb) then strstr_loop hs nd h (S a) (S b) f
        else strstr_loop hs nd (S h) (S h) 0 f
  end.

Definition strstr (haystack needle : cstr) : res (option nat) :=
  strstr_loop haystack needle 0 0 0
    (S (length haystack) * S (length needle)).

Definition isdigit (c : Z) : bool := (48 <=? c)%Z && (c <=? 57)%Z.

Definition isspace (c : Z) : bool :=
  (c =? 32)%Z || (c =? 9)%Z || (c =? 13)%Z || (c =? 10)%Z || (c =? 12)%Z || (c =? 11)%Z.

Fixpoint isempty_loop (s : cstr) (i fuel : nat) : res Z :=
  match fuel with
  | O => Err OutOfFuel
  | S f =>
      let* c := cget s i in
      if decide (c = 0%Z) then Ok 1%Z
      else if isspace (schar c) then isempty_loop s (S i) f
      else Ok 0%Z
  end.

Definition isempty (str : cstr) : res Z :=
  let* n := strlen str 0 in
  if decide (n = 0%Z) then Ok 1%Z else isempty_loop str 0 (S (length str)).

(** The string in an array of characters. *)
Definition cstring (b : list Z) : res cstr :=
  let w := takeWhile (fun c => negb (c =? 0)%Z) b in
  if decide (length w < length b)%nat then Ok w else Err OutOfBounds.

(** ** Helper lemmas *)

Lemma schar_inj a b : (0 <= a < 256)%Z -> (0 <= b < 256)%Z -> schar a = schar b -> a = b.
Proof. unfold schar. intros. repeat case_decide; lia. Qed.

Lemma schar_0 a : (0 <= a < 256)%Z -> schar a = 0%Z <-> a = 0%Z.
Proof. unfold schar. intros. case_decide; lia. Qed.

(** What a read at [i] sees: the head of the rest of the string, or the
    terminator. *)
Lemma cget_cases s i :
  i <= length s ->
  (exists c k, drop i s = c :: k /\ cget s i = Ok c /\ i < length s) \/
  (drop i s = [] /\ cget s i = Ok 0%Z /\ i = length s).
Proof.
  intros Hi. destruct (drop i s) as [|c k] eqn:E.
  - right. split; [done|]. split; [by apply cget_nil|].
    apply (f_equal length) in E. rewrite length_drop in E. simpl in E. lia.
  - left. exists c, k. split; [done|]. split; [by eapply cget_drop|].
    by apply drop_cons_lookup in E as [? _].
Qed.

Lemma cstr_ok_head s i c k : cstr_ok s -> drop i s = c :: k -> (0 < c < 256)%Z.
Proof. intros Hs E. apply (cstr_ok_drop _ i) in Hs. rewrite E in Hs. by inversion Hs. Qed.

Lemma strlen_loop_spec s o : cstr_ok s -> forall fuel i,
  o + i <= length s -> length s < fuel + o + i ->
  strlen_loop s o i fuel = Ok (Z.of_nat (length s - o)).
Proof.
  intros Hs. induction fuel as [|f IH]; intros i Hi Hf; [lia|]. simpl.
  destruct (cget_cases s (o + i) Hi) as [(c & k & E & -> & Hlt)|(E & -> & Heq)]; simpl.
  - pose proof (cstr_ok_head _ _ _ _ Hs E). rewrite decide_False by lia. apply IH; lia.
  - rewrite ?decide_True by done. f_equal. lia.
Qed.

Lemma strlen_Ok s o : cstr_ok s -> o <= length s ->
  strlen s o = Ok (Z.of_nat (length s - o)).
Proof. intros Hs Ho. apply strlen_loop_spec; [done|lia..]. Qed.

Lemma strncmp_loop_spec s1 o1 s2 o2 : cstr_ok s1 -> cstr_ok s2 -> forall n i,
  o1 + i <= length s1 -> o2 + i <= length s2 ->
  exists z, strncmp_loop s1 o1 s2 o2 i n = Ok z /\
    (z = 0%Z <-> take n (drop (o1 + i) s1) = take n (drop (o2 + i) s2)).
Proof.
  intros H1 H2. induction n as [|n IH]; intros i Hi1 Hi2; [by exists 0%Z|]. simpl.
  destruct (cget_cases s1 (o1 + i) Hi1) as [(c & k & E1 & -> & L1)|(E1 & -> & L1)];
  destruct (cget_cases s2 (o2 + i) Hi2) as [(c' & k' & E2 & -> & L2)|(E2 & -> & L2)];
  simpl; rewrite E1, E2; simpl.
  - pose proof (cstr_ok_head _ _ _ _ H1 E1). pose proof (cstr_ok_head _ _ _ _ H2 E2).
    case_decide as D.
    2:{ eexists. split; [done|]. split; [lia|]. intros [= -> _]. done. }
    assert (c = c') as -> by (by apply schar_inj; try lia).
      case_decide as D2; [rewrite schar_0 in D2; lia|].
      destruct (IH (S i)) as (z & -> & Hz); [lia..|]. exists z. split; [done|].
      rewrite Hz, !Nat.add_succ_r, (proj2 (drop_cons_lookup _ _ _ _ E1)),
        (proj2 (drop_cons_lookup _ _ _ _ E2)).
      split; [by intros ->|by intros [= ->]].
  - pose proof (cstr_ok_head _ _ _ _ H1 E1).
    assert (schar c <> 0)%Z by (rewrite schar_0; lia).
    rewrite decide_False by (by rewrite (proj2 (schar_0 0 ltac:(lia)))).
    eexists. split; [done|]. rewrite (proj2 (schar_0 0 ltac:(lia))) by done.
    split; [lia|done].
  - pose proof (cstr_ok_head _ _ _ _ H2 E2).
    assert (schar c' <> 0)%Z by (rewrite schar_0; lia).
    rewrite decide_False by (rewrite (proj2 (schar_0 0 ltac:(lia))) by done; congruence).
    eexists. split; [done|]. rewrite (proj2 (schar_0 0 ltac:(lia))) by done.
    split; [lia|done].
  - exists 0%Z. done.
Qed.

Lemma strncmp_Ok s1 o1 s2 o2 n : cstr_ok s1 -> cstr_ok s2 ->
  o1 <= length s1 -> o2 <= length s2 ->
  exists z, strncmp s1 o1 s2 o2 n = Ok z /\
    (z = 0%Z <-> take (Z.to_nat n) (drop o1 s1) = take (Z.to_nat n) (drop o2 s2)).
Proof.
  intros H1 H2 L1 L2.
  destruct (strncmp_loop_spec s1 o1 s2 o2 H1 H2 (Z.to_nat n) 0) as (z & E & Hz); [lia..|].
  rewrite !Nat.add_0_r in Hz. eauto.
Qed.

(** Writing a string after [pre] in a buffer that has room for it. *)
Lemma copy_string_spec s : cstr_ok s -> forall fuel j pre suf,
  j <= length s -> length s < fuel + j -> length s - j < length suf ->
  copy_string (pre ++ suf) (length pre) s j fuel
    = Ok (pre ++ drop j s ++ 0%Z :: drop (S (length s - j)) suf).
Proof.
  intros Hs. induction fuel as [|f IH]; intros j pre suf Hj Hf Hr; [lia|]. simpl.
  destruct suf as [|x suf]; [simpl in Hr; lia|].
  destruct (cget_cases s j Hj) as [(c & k & E & -> & Hlt)|(E & -> & Heq)]; simpl.
  - pose proof (cstr_ok_head _ _ _ _ Hs E). rewrite decide_False by lia.
    rewrite aset_app_r by done. simpl.
    replace (pre ++ c :: suf) with ((pre ++ [c]) ++ suf) by (by rewrite <- app_assoc).
    replace (S (length pre)) with (length (pre ++ [c])) by (rewrite length_app; simpl; lia).
    simpl in Hr. rewrite IH by lia. rewrite E, (proj2 (drop_cons_lookup _ _ _ _ E)).
    rewrite <- app_assoc. simpl. do 5 f_equal.
    replace (length s - j) with (S (length s - S j)) by lia. done.
  - rewrite ?decide_True by done. rewrite aset_app_r by done. rewrite E. simpl.
    by replace (length s - j) with 0 by lia.
Qed.

(** [memmove] byte by byte: bytes of the source range as they were. *)
Lemma memmove_up_lookup dst src : forall k m i,
  dst < src -> src + i + k <= length m ->
  exists m', memmove_up m dst src i k = Ok m' /\ length m' = length m /\
    forall j, m' !! j = if decide (dst + i <= j < dst + i + k)
                        then m !! (src + (j - dst)) else m !! j.
Proof.
  induction k as [|k IH]; intros m i Hlt Hlen; simpl.
  { exists m. split_and!; [done..|]. intros j. by rewrite decide_False by lia. }
  destruct (lookup_lt_is_Some_2 m (src + i)) as [x Hx]; [lia|].
  unfold aget. rewrite Hx. simpl. rewrite aset_Ok by lia. simpl.
  destruct (IH (<[dst + i:=x]> m) (S i)) as (m' & -> & Hl & Hm);
    [lia|rewrite length_insert; lia|].
  exists m'. split_and!; [done|by rewrite Hl, length_insert|].
  intros j. rewrite Hm. repeat case_decide; try lia.
  - by rewrite list_lookup_insert_ne by lia.
  - assert (j = dst + i) as -> by lia. rewrite list_lookup_insert_eq by lia.
    by replace (src + (dst + i - dst)) with (src + i) by lia.
  - by rewrite list_lookup_insert_ne by lia.
Qed.

Lemma memmove_down_lookup dst src : forall k m,
  src <= dst -> dst + k <= length m ->
  exists m', memmove_down m dst src k = Ok m' /\ length m' = length m /\
    forall j, m' !! j = if decide (dst <= j < dst + k)
                        then m !! (src + (j - dst)) else m !! j.
Proof.
  induction k as [|k IH]; intros m Hle Hlen; simpl.
  { exists m. split_and!; [done..|]. intros j. by rewrite decide_False by lia. }
  destruct (lookup_lt_is_Some_2 m (src + k)) as [x Hx]; [lia|].
  unfold aget. rewrite Hx. simpl. rewrite aset_Ok by lia. simpl.
  destruct (IH (<[dst + k:=x]> m)) as (m' & -> & Hl & Hm);
    [lia|rewrite length_insert; lia|].
  exists m'. split_and!; [done|by rewrite Hl, length_insert|].
  intros j. rewrite Hm. repeat case_decide; try lia.
  - by rewrite list_lookup_insert_ne by lia.
  - assert (j = dst + k) as -> by lia. rewrite list_lookup_insert_eq by lia.
    by replace (src + (dst + k - dst)) with (src + k) by lia.
  - by rewrite list_lookup_insert_ne by lia.
Qed.

Lemma memcpy_loop_lookup c : forall k d i,
  i + k <= length c -> i + k <= length d ->
  exists d', memcpy_loop d c i k = Ok d' /\ length d' = length d /\
    forall j, d' !! j = if decide (i <= j < i + k) then c !! j else d !! j.
Proof.
  induction k as [|k IH]; intros d i Hc Hd; simpl.
  { exists d. split_and!; [done..|]. intros j. by rewrite decide_False by lia. }
  destruct (lookup_lt_is_Some_2 c i) as [x Hx]; [lia|].
  unfold aget. rewrite Hx. simpl. rewrite aset_Ok by lia. simpl.
  destruct (IH (<[i:=x]> d) (S i)) as (m' & -> & Hl & Hm);
    [lia|rewrite length_insert; lia|].
  exists m'. split_and!; [done|by rewrite Hl, length_insert|].
  intros j. rewrite Hm. repeat case_decide; try lia; try done.
  - assert (j = i) as -> by lia. by rewrite list_lookup_insert_eq by lia.
  - by rewrite list_lookup_insert_ne by lia.
Qed.

(** The buffer [strncpy] leaves: at most [num] characters, then a NUL. *)
Lemma strncpy_loop_spec s : cstr_ok s -> forall fuel j num pre suf,
  j <= length s -> length s < fuel + j -> num `min` (length s - j) < length suf ->
  strncpy_loop (pre ++ suf) (length pre) s j num fuel
    = Ok (pre ++ take num (drop j s) ++ 0%Z :: drop (S (num `min` (length s - j))) suf).
Proof.
  intros Hs. induction fuel as [|f IH]; intros j num pre suf Hj Hf Hr; [lia|]. simpl.
  destruct suf as [|x suf]; [simpl in Hr; lia|].
  destruct (cget_cases s j Hj) as [(c & k & E & -> & Hlt)|(E & -> & Heq)]; simpl.
  - pose proof (cstr_ok_head _ _ _ _ Hs E). rewrite decide_False by lia.
    destruct num as [|num]; simpl; rewrite aset_app_r by done; [done|]. simpl.
    replace (pre ++ c :: suf) with ((pre ++ [c]) ++ suf) by (by rewrite <- app_assoc).
    replace (S (length pre)) with (length (pre ++ [c])) by (rewrite length_app; simpl; lia).
    cbn [length] in Hr. rewrite IH by lia. rewrite E, (proj2 (drop_cons_lookup _ _ _ _ E)).
    rewrite <- app_assoc. simpl. do 5 f_equal.
    replace (length s - j) with (S (length s - S j)) by lia. done.
  - rewrite ?decide_True by done. rewrite aset_app_r by done. rewrite E, take_nil. simpl.
    by replace (num `min` (length s - j)) with 0 by lia.
Qed.

(** An occurrence of [nd] at [h] agrees with what has been matched so far. *)
Definition matches_at (hs nd : cstr) (h : nat) : Prop :=
  take (length nd) (drop h hs) = nd.

Lemma matches_at_lookup hs nd h b x :
  matches_at hs nd h -> nd !! b = Some x -> hs !! (h + b) = Some x.
Proof.
  unfold matches_at. intros H Hb.
  assert (b < length nd) by (by eapply lookup_lt_Some).
  rewrite <- H in Hb. rewrite lookup_take in Hb. case_decide; [|done].
  by rewrite lookup_drop in Hb.
Qed.

Lemma drop_head_lookup {A} (l : list A) i x k : drop i l = x :: k -> l !! i = Some x.
Proof. intros E. by rewrite <- (Nat.add_0_r i), <- lookup_drop, E. Qed.

Lemma matches_at_prefix hs nd h b :
  b = length nd -> h + b <= length hs ->
  (forall i, i < b -> hs !! (h + i) = nd !! i) -> matches_at hs nd h.
Proof.
  intros -> Hl Hm. unfold matches_at. apply list_eq. intros i.
  rewrite lookup_take. case_decide as Hi.
  - rewrite lookup_drop. by apply Hm.
  - by rewrite lookup_ge_None_2 by lia.
Qed.

Lemma strstr_loop_spec hs nd : cstr_ok hs -> cstr_ok nd -> forall fuel h b,
  h + b <= length hs -> b <= length nd ->
  (forall i, i < b -> hs !! (h + i) = nd !! i) ->
  (forall i, i < h -> ~ matches_at hs nd i) ->
  (length hs - h) * S (length nd) + (length nd - b) < fuel ->
  exists r, strstr_loop hs nd h (h + b) b fuel = Ok r /\
    match r with
    | Some i => matches_at hs nd i /\ forall j, j < i -> ~ matches_at hs nd j
    | None => forall j, ~ matches_at hs nd j
    end.
Proof.
  intros Hh Hn. induction fuel as [|f IH]; intros h b Hhb Hb Hm Hpre Hf; [nia|]. simpl.
  destruct (cget_cases nd b Hb) as [(cb & kb & Eb & -> & Lb)|(Eb & -> & Lb)]; simpl.
  2:{ rewrite ?decide_True by done. exists (Some h). split; [done|].
      split; [by eapply matches_at_prefix|done]. }
  pose proof (cstr_ok_head _ _ _ _ Hn Eb). rewrite decide_False by lia.
  destruct (cget_cases hs (h + b) Hhb) as [(ca & ka & Ea & -> & La)|(Ea & -> & La)]; simpl.
  - pose proof (cstr_ok_head _ _ _ _ Hh Ea). rewrite decide_False by lia.
    apply drop_head_lookup in Ea, Eb. case_decide as Hc.
    + replace (S (h + b)) with (h + S b) by lia. apply IH; [lia|lia| |done|nia].
      intros i Hi. destruct (decide (i = b)) as [->|]; [|apply Hm; lia].
      by rewrite Ea, Eb, Hc.
    + specialize (IH (S h) 0). rewrite Nat.add_0_r in IH. apply IH; [lia|lia|lia| |nia].
      intros i Hi Hmi. destruct (decide (i = h)) as [->|]; [|apply (Hpre i); [lia|done]].
      pose proof (matches_at_lookup _ _ _ _ _ Hmi Eb). congruence.
  - rewrite ?decide_True by done. exists None. split; [done|].
    intros j Hj. destruct (decide (j < h)); [by apply (Hpre j)|].
    apply (f_equal length) in Hj. rewrite length_take, length_drop in Hj. lia.
Qed.

Lemma takeWhile_app_stop {A} (p : A -> bool) l x k :
  Forall (fun y => p y = true) l -> p x = false -> takeWhile p (l ++ x :: k) = l.
Proof. intros Hl Hx. induction Hl as [|y l Hy _ IH]; simpl; [by rewrite Hx|]. by rewrite Hy, IH. Qed.

Lemma cstring_ok w k : cstr_ok w -> cstring (w ++ 0%Z :: k) = Ok w.
Proof.
  intros Hw. unfold cstring. rewrite takeWhile_app_stop; [|by eapply Forall_impl; [exact Hw|]; intros c Hc; simpl in *; destruct (Z.eqb_spec c 0); [lia|]|done].
  rewrite decide_True; [done|]. rewrite length_app. simpl. lia.
Qed.

Lemma memcpy_ok d s n : (Z.to_nat n <= length s)%nat -> (Z.to_nat n <= length d)%nat ->
  memcpy d s n = Ok (take (Z.to_nat n) s ++ drop (Z.to_nat n) d).
Proof.
  intros Hs Hd. unfold memcpy. set (k := Z.to_nat n) in *.
  assert (forall k i d, (i + k <= length s)%nat -> (k <= length d)%nat ->
    memcpy_loop (take i s ++ d) s i k = Ok (take (i + k) s ++ drop k d)) as Hgen.
  { clear. induction k as [|k IH]; intros i d Hi Hd; simpl; [by rewrite Nat.add_0_r, drop_0|].
    destruct (lookup_lt_is_Some_2 s i ltac:(lia)) as [x Hx]. rewrite (proj2 (aget_Ok s i x) Hx). simpl.
    destruct d as [|y d]; [simpl in Hd; lia|]. rewrite aset_app_r by (rewrite length_take; lia). simpl in *.
    replace (take i s ++ x :: d) with (take (S i) s ++ d) by (by rewrite (take_S_r _ _ _ Hx), <- app_assoc).
    rewrite IH by lia. by replace (i + S k)%nat with (S i + k)%nat by lia. }
  specialize (Hgen k 0%nat d). rewrite take_0 in Hgen. simpl in Hgen. by rewrite Hgen by lia.
Qed.

Lemma memcpy_loop_oob c : forall k i d, (i <= length c)%nat -> (length c < i + k)%nat ->
  memcpy_loop d c i k = Err OutOfBounds.
Proof.
  induction k as [|k IH]; intros i d Hi Hk; [lia|]. cbn [memcpy_loop].
  destruct (decide (i < length c)%nat) as [Hlt|Hge].
  - destruct (lookup_lt_is_Some_2 c i Hlt) as [x Hx]. rewrite (proj2 (aget_Ok c i x) Hx). cbn [bind].
    destruct (decide (i < length d)%nat); [|by rewrite aset_oob by lia].
    rewrite aset_Ok by done. cbn [bind]. apply IH; lia.
  - by rewrite aget_oob by lia.
Qed.

(** ** Properties *)

(** [memmove] copies [n] bytes inside one object as if through a
    temporary: whichever way the two ranges overlap, the destination range
    ends with the bytes the source range held before, and every other byte is
    unchanged.  It never leaves the object. *)
Theorem memmove_correct m dst src n :
  (0 <= n)%Z -> dst + Z.to_nat n <= length m -> src + Z.to_nat n <= length m ->
  exists m', memmove m dst src n = Ok m' /\ length m' = length m /\
    forall j, m' !! j = if decide (dst <= j < dst + Z.to_nat n)
                        then m !! (src + (j - dst)) else m !! j.
Proof.
  intros Hn Hd Hs. unfold memmove. case_decide.
  - destruct (memmove_up_lookup dst src (Z.to_nat n) m 0) as (m' & E & Hl & Hm); [lia..|].
    exists m'. split_and!; [done..|]. intros j. rewrite Hm. by rewrite !Nat.add_0_r.
  - destruct (memmove_down_lookup dst src (Z.to_nat n) m) as (m' & E & Hl & Hm); [lia..|].
    by exists m'.
Qed.

Lemma memmove_correct_witness :
  exists m', memmove [1;2;3;4;5]%Z 1 0 3%Z = Ok m' /\ length m' = 5 /\
    forall j, m' !! j = if decide (1 <= j < 1 + 3)
                        then [1;2;3;4;5]%Z !! (0 + (j - 1)) else [1;2;3;4;5]%Z !! j.
Proof. apply (memmove_correct [1;2;3;4;5]%Z 1 0 3%Z); [lia|simpl; lia..]. Defined.

(** [strstr] ends on every pair of strings and returns the first place
    where the needle occurs in the haystack, or null when there is none. *)
Theorem strstr_correct hs nd :
  cstr_ok hs -> cstr_ok nd ->
  exists r, strstr hs nd = Ok r /\
    match r with
    | Some i => matches_at hs nd i /\ forall j, j < i -> ~ matches_at hs nd j
    | None => forall j, ~ matches_at hs nd j
    end.
Proof.
  intros Hh Hn. unfold strstr.
  apply (strstr_loop_spec hs nd Hh Hn _ 0 0); [lia|lia|lia|lia|nia].
Qed.

Lemma strstr_correct_witness :
  exists r, strstr (bytes_of "aab") (bytes_of "ab") = Ok r /\
    match r with
    | Some i => matches_at (bytes_of "aab") (bytes_of "ab") i /\
                forall j, j < i -> ~ matches_at (bytes_of "aab") (bytes_of "ab") j
    | None => forall j, ~ matches_at (bytes_of "aab") (bytes_of "ab") j
    end.
Proof.
  apply (strstr_correct (bytes_of "aab") (bytes_of "ab"));
    repeat constructor; vm_compute; done.
Defined.

(** A copy of a string that does not fit leaves the buffer. *)
Lemma copy_string_oob d s fuel : cstr_ok s -> length d <= length s -> length s < fuel ->
  copy_string d 0 s 0 fuel = Err OutOfBounds.
Proof.
  intros Hs Hd Hf. assert (forall fuel j d', j <= length d' -> length d' <= length s -> length s < fuel + j ->
    copy_string d' j s j fuel = Err OutOfBounds) as Hgen; [|apply Hgen; lia].
  clear d fuel Hd Hf. induction fuel as [|f IH]; intros j d' Hj Hd Hf; [lia|]. simpl.
  destruct (cget_cases s j ltac:(lia)) as [(c & k & E & -> & Hlt)|(E & -> & Heq)]; simpl.
  - pose proof (cstr_ok_head _ _ _ _ Hs E). rewrite decide_False by lia.
    destruct (decide (j = length d')); [by rewrite aset_oob by lia|].
    rewrite aset_Ok by lia. simpl. apply IH; rewrite ?length_insert; lia.
  - rewrite ?decide_True by done. apply aset_oob. lia.
Qed.

(** [strcpy] followed by a read-back returns the string that was copied:
    with room for the terminator, the buffer starts with the source and a NUL,
    the rest is untouched, and without room for the terminator the copy
    leaves the buffer. *)
Theorem strcpy_correct d s :
  cstr_ok s ->
  (length s < length d ->
   strcpy (Some d) s = Ok (Some (s ++ 0%Z :: drop (S (length s)) d))) /\
  (length d <= length s -> strcpy (Some d) s = Err OutOfBounds).
Proof.
  intros Hs. unfold strcpy. split; intros Hl.
  - rewrite (copy_string_spec s Hs _ 0 [] d) by lia. simpl.
    by rewrite drop_0, Nat.sub_0_r.
  - by rewrite copy_string_oob by (done || lia).
Qed.

Lemma strcpy_correct_witness :
  (1 < 3 -> strcpy (Some [7;8;9]%Z) [65]%Z = Ok (Some [65;0;9]%Z)) /\
  (3 <= 1 -> strcpy (Some [7;8;9]%Z) [65]%Z = Err OutOfBounds).
Proof. apply (strcpy_correct [7;8;9]%Z [65]%Z). repeat constructor; lia. Defined.

(** [strncpy] writes the terminator after the characters it copies: with a
    source of at least [num] characters it stores [num + 1] bytes, so a
    destination of exactly [num] bytes, which the C library's [strncpy]
    accepts, is overrun by one byte; with one more byte it holds the first
    [num] characters and a NUL. *)
Theorem strncpy_overruns d s (num : nat) :
  cstr_ok s -> num <= length s ->
  (length d = num -> strncpy (Some d) s (Z.of_nat num) = Err OutOfBounds) /\
  (num < length d ->
   strncpy (Some d) s (Z.of_nat num)
     = Ok (Some (take num s ++ 0%Z :: drop (S num) d))).
Proof.
  intros Hs Hn. unfold strncpy. rewrite Nat2Z.id. split; intros Hd.
  - assert (forall fuel j k d', j + k = num -> length s < fuel + j -> length d' = num ->
      strncpy_loop d' j s j k fuel = Err OutOfBounds) as Hgen.
    { induction fuel as [|f IH]; intros j k d' Hk Hf Hd'; [lia|]. simpl.
      destruct (cget_cases s j) as [(c & r & E & -> & Hlt)|(E & -> & Heq)]; [lia| |]; simpl.
      - pose proof (cstr_ok_head _ _ _ _ Hs E). rewrite decide_False by lia.
        destruct k as [|k]; [apply aset_oob; lia|].
        rewrite aset_Ok by lia. simpl. apply IH; rewrite ?length_insert; lia.
      - rewrite ?decide_True by done. apply aset_oob. lia. }
    by rewrite Hgen by lia.
  - rewrite (strncpy_loop_spec s Hs _ 0 num [] d) by lia. simpl.
    rewrite drop_0, Nat.sub_0_r. by replace (num `min` length s) with num by lia.
Qed.

Lemma strncpy_overruns_witness :
  (2 = 2 -> strncpy (Some [1;1]%Z) [65;66;67]%Z 2 = Err OutOfBounds) /\
  (2 < 2 -> strncpy (Some [1;1]%Z) [65;66;67]%Z 2
              = Ok (Some (take 2 [65;66;67]%Z ++ 0%Z :: drop 3 [1;1]%Z))).
Proof.
  apply (strncpy_overruns [1;1]%Z [65;66;67]%Z 2); [repeat constructor; lia|simpl; lia].
Defined.
