(* ===== verification/Bytes.v ===== *)
(** * Objects as bytes

    Numbers in memory, least significant byte first as the processor has them,
    for the code that reads and writes structures of other formats: packets
    and files. *)

From S2P Require Import Prelude CString.

Local Open Scope Z_scope.

(** ** Memory *)

(** [n] bytes at an offset. *)
Fixpoint load (n : nat) (b : list Z) (off : nat) : res Z :=
  match n with
  | O => Ok 0
  | S n' => let* x := aget b off in let* r := load n' b (S off) in Ok (x + 256 * r)
  end.

Fixpoint store (n : nat) (b : list Z) (off : nat) (v : Z) : res (list Z) :=
  match n with
  | O => Ok b
  | S n' => let* b := aset b off (v mod 256) in store n' b (S off) (v / 256)
  end.

(** [memcpy(b + off, src, n)]. *)
Definition memcpy_to (b : list Z) (off : nat) (src : list Z) (n : Z) : res (list Z) :=
  let* d := memcpy (drop off b) src n in Ok (take off b ++ d).

(** ** Loads and stores *)

(** A number as [n] bytes, least significant first, and back. *)
Fixpoint le (n : nat) (v : Z) : list Z :=
  match n with
  | O => []
  | S n' => v mod 256 :: le n' (v / 256)
  end.

Definition le_value (l : list Z) : Z := foldr (fun x r => x + 256 * r) 0 l.

(** Most significant byte first, as protocols have it. *)
Definition be (n : nat) (v : Z) : list Z := rev (le n v).

Definition bytes_ok (l : list Z) : Prop := Forall (fun x => 0 <= x < 256) l.

(** Lists of elements that are bytes. *)
Ltac bytes := repeat (apply Forall_cons; split; [lia|]); try apply Forall_nil_2.

Lemma length_le n v : length (le n v) = n.
Proof. revert v. induction n as [|n IH]; intros v; simpl; [done|]. by rewrite IH. Qed.

Lemma length_be n v : length (be n v) = n.
Proof. unfold be. by rewrite length_rev, length_le. Qed.

Lemma le_bytes n v : bytes_ok (le n v).
Proof. revert v. induction n as [|n IH]; intros v; simpl; constructor; [apply Z.mod_pos_bound; lia|apply IH]. Qed.

Lemma be_bytes n v : bytes_ok (be n v).
Proof. apply List.Forall_rev, le_bytes. Qed.

Lemma le_value_le n v : le_value (le n v) = v mod 256 ^ Z.of_nat n.
Proof.
  revert v. induction n as [|n IH]; intros v; [simpl; by rewrite Z.mod_1_r|]. cbn [le le_value foldr].
  change (foldr _ 0 (le n (v / 256))) with (le_value (le n (v / 256))). rewrite IH, Nat2Z.inj_succ, Z.pow_succ_r by lia.
  rewrite Z.rem_mul_r by lia. lia.
Qed.

Lemma le_value_range l : bytes_ok l -> 0 <= le_value l < 256 ^ Z.of_nat (length l).
Proof.
  induction 1 as [|x l Hx _ IH]; [simpl; lia|]. cbn [le_value foldr length]. change (foldr _ 0 l) with (le_value l).
  rewrite Nat2Z.inj_succ, Z.pow_succ_r by lia. lia.
Qed.

Lemma le_le_value l n : bytes_ok l -> length l = n -> le n (le_value l) = l.
Proof.
  intros Hl <-. induction Hl as [|x l Hx Hl IH]; [done|]. cbn [length le le_value foldr]. change (foldr _ 0 l) with (le_value l).
  rewrite (Z.mul_comm 256), Z.mod_add, Z.div_add, Z.mod_small, Z.div_small by lia. by rewrite Z.add_0_l, IH.
Qed.

Lemma wire_store_ok n : forall b off v, (off + n <= length b)%nat ->
  store n b off v = Ok (take off b ++ le n v ++ drop (off + n) b).
Proof.
  induction n as [|n IH]; intros b off v Hb; cbn [store le app].
  - by rewrite Nat.add_0_r, take_drop.
  - rewrite aset_Ok by lia. cbn [bind]. rewrite IH by (rewrite length_insert; lia).
    destruct (lookup_lt_is_Some_2 b off ltac:(lia)) as [y Hy]. rewrite (take_S_r _ _ (v mod 256)) by (by rewrite list_lookup_insert_eq by lia).
    rewrite take_insert_ge, drop_insert_lt, <- app_assoc by lia. by rewrite Nat.add_succ_r.
Qed.

Lemma wire_load_ok n : forall b off, (off + n <= length b)%nat -> load n b off = Ok (le_value (take n (drop off b))).
Proof.
  induction n as [|n IH]; intros b off Hb; cbn [load]; [done|].
  destruct (lookup_lt_is_Some_2 b off ltac:(lia)) as [y Hy]. rewrite (proj2 (aget_Ok _ _ _) Hy). cbn [bind].
  rewrite IH by lia. cbn [bind]. by rewrite (drop_S _ _ _ Hy).
Qed.

Lemma wire_load_oob n b off : (length b <= off)%nat -> (0 < n)%nat -> load n b off = Err OutOfBounds.
Proof. intros Hb Hn. destruct n; [lia|]. cbn [load]. by rewrite aget_oob. Qed.

Lemma memcpy_to_ok b off src n : (Z.to_nat n <= length src)%nat -> (off + Z.to_nat n <= length b)%nat ->
  memcpy_to b off src n = Ok (take off b ++ take (Z.to_nat n) src ++ drop (off + Z.to_nat n) b).
Proof.
  intros Hs Hb. unfold memcpy_to. rewrite memcpy_ok by (rewrite ?length_drop; lia). cbn [bind]. by rewrite drop_drop.
Qed.

Lemma memset_ok d x n : (Z.to_nat n <= length d)%nat -> memset d x n = Ok (replicate (Z.to_nat n) (u8 x) ++ drop (Z.to_nat n) d).
Proof.
  unfold memset. set (k := Z.to_nat n). clearbody k.
  assert (forall k i l, (i + k <= length l)%nat -> memset_loop l x i k = Ok (take i l ++ replicate k (u8 x) ++ drop (i + k) l)) as H.
  { clear. induction k as [|k IH]; intros i l H; cbn [memset_loop replicate app].
    - by rewrite Nat.add_0_r, take_drop.
    - rewrite aset_Ok by lia. cbn [bind]. rewrite IH by (rewrite length_insert; lia).
      rewrite (take_S_r _ _ (u8 x)) by (by rewrite list_lookup_insert_eq by lia).
      by rewrite take_insert_ge, drop_insert_lt, <- app_assoc, Nat.add_succ_r by lia. }
  intros Hk. by rewrite H.
Qed.
