(* ===== verification/Cwalk.v ===== *)
(** * The path library: definitions

    Models src/kernel/libs/cwalk.c, the path library behind the kernel's
    virtual file system.  A path is the string object its pointer points to,
    and every other pointer into it ([segments], [begin], [end], the local
    [c]) is an offset; the output buffer is a separate object.  The global
    [path_style] is the Section variable.  Loops take as fuel the length of
    the string (or the lengths of all the paths) plus one, which the theorems
    of CwalkIter show to be enough. *)

From S2P Require Import Prelude CString.

Local Open Scope nat_scope.

Inductive cwk_path_style := CWK_STYLE_WINDOWS | CWK_STYLE_UNIX.

Inductive cwk_segment_type := CWK_NORMAL | CWK_CURRENT | CWK_BACK.

#[export] Instance cwk_path_style_eq_dec : EqDecision cwk_path_style.
Proof. solve_decision. Defined.

#[export] Instance cwk_segment_type_eq_dec : EqDecision cwk_segment_type.
Proof. solve_decision. Defined.

Record cwk_segment := mk_segment {
  sg_path : cstr;
  sg_segments : nat;
  sg_begin : nat;
  sg_end : nat;
  sg_size : nat
}.

(** [paths] is the NULL-terminated array, without its terminator. *)
Record cwk_segment_joined := mk_joined {
  sj_segment : cwk_segment;
  sj_paths : list cstr;
  sj_path_index : nat
}.

(** [paths[i]]: [None] is the terminating NULL. *)
Definition pget (paths : list cstr) (i : nat) : res (option cstr) :=
  if decide (i < length paths) then Ok (paths !! i)
  else if decide (i = length paths) then Ok None
  else Err OutOfBounds.

Definition separators (style : cwk_path_style) : cstr :=
  match style with
  | CWK_STYLE_WINDOWS => [92; 47]%Z
  | CWK_STYLE_UNIX => [47]%Z
  end.

(** The first separator is the one that is written. *)
Definition dot : Z := 46%Z.

(** ** Output *)

Definition cwk_path_output_sized (buffer : list Z) (buffer_size position : Z)
    (str : cstr) (o : nat) (len : Z) : res (list Z * Z) :=
  let amount_written :=
    if decide (buffer_size > u64 (position + len))%Z then len
    else if decide (buffer_size > position)%Z then (buffer_size - position)%Z
    else 0%Z in
  if decide (amount_written > 0)%Z then
    let* b := memmove_from buffer (Z.to_nat position) str o 0 (Z.to_nat amount_written) in
    Ok (b, len)
  else Ok (buffer, len).

Definition cwk_path_output_current (buffer : list Z) (buffer_size position : Z)
    : res (list Z * Z) :=
  cwk_path_output_sized buffer buffer_size position [dot] 0 1.

Definition cwk_path_output_back (buffer : list Z) (buffer_size position : Z)
    : res (list Z * Z) :=
  cwk_path_output_sized buffer buffer_size position [dot; dot] 0 2.

Definition cwk_path_output_separator (path_style : cwk_path_style) (buffer : list Z)
    (buffer_size position : Z) : res (list Z * Z) :=
  cwk_path_output_sized buffer buffer_size position (separators path_style) 0 1.

Definition cwk_path_output_dot (buffer : list Z) (buffer_size position : Z)
    : res (list Z * Z) :=
  cwk_path_output_sized buffer buffer_size position [dot] 0 1.

Definition cwk_path_output (buffer : list Z) (buffer_size position : Z)
    (str : cstr) (o : nat) : res (list Z * Z) :=
  let* len := strlen str o in
  cwk_path_output_sized buffer buffer_size position str o len.

Definition cwk_path_terminate_output (buffer : list Z) (buffer_size pos : Z)
    : res (list Z) :=
  if decide (buffer_size > 0)%Z then
    if decide (pos >= buffer_size)%Z then aset buffer (Z.to_nat (buffer_size - 1)) 0%Z
    else aset buffer (Z.to_nat pos) 0%Z
  else Ok buffer.

Section style.
Variable path_style : cwk_path_style.

(** ** Scanning *)

Definition cwk_path_is_separator (s : cstr) (c : nat) : res bool :=
  let* ch := cget s c in
  Ok (existsb (Z.eqb ch) (separators path_style)).

(** Under the Windows style the comparison uses the [tolower] macro of
    ctype.h on [*first++]: the macro evaluates its argument three times
    without sequencing the increments, so entering the loop body is undefined
    behaviour. *)
Definition cwk_path_is_string_equal (first : cstr) (o1 : nat) (second : cstr) (o2 : nat)
    (first_size second_size : nat) : res bool :=
  if decide (first_size = second_size) then
    match path_style with
    | CWK_STYLE_UNIX =>
        let* r := strncmp first o1 second o2 (Z.of_nat first_size) in
        Ok (bool_decide (r = 0%Z))
    | CWK_STYLE_WINDOWS =>
        let* c1 := cget first o1 in
        if decide (c1 = 0%Z) then Ok true
        else
          let* c2 := cget second o2 in
          if decide (c2 = 0%Z) then Ok true
          else if decide (first_size = 0) then Ok true
          else Err Undefined
    end
  else Ok false.

Fixpoint find_next_stop_loop (s : cstr) (c fuel : nat) : res nat :=
  match fuel with
  | O => Err OutOfFuel
  | S f =>
      let* ch := cget s c in
      if decide (ch = 0%Z) then Ok c
      else
        let* sep := cwk_path_is_separator s c in
        if sep then Ok c else find_next_stop_loop s (S c) f
  end.

Definition cwk_path_find_next_stop (s : cstr) (c : nat) : res nat :=
  find_next_stop_loop s c (S (length s)).

Fixpoint find_previous_stop_loop (s : cstr) (begin c : nat) : res nat :=
  if decide (begin < c) then
    let* sep := cwk_path_is_separator s c in
    if sep then Ok c
    else
      match c with
      | O => Ok c
      | S c' => find_previous_stop_loop s begin c'
      end
  else Ok c.

Definition cwk_path_find_previous_stop (s : cstr) (begin c : nat) : res nat :=
  let* c' := find_previous_stop_loop s begin c in
  let* sep := cwk_path_is_separator s c' in
  if sep then Ok (S c') else Ok c'.

(** ** Segments *)

(** [while (cwk_path_is_separator(segments)) { ++segments; ... }]: [None] when
    the string ends there. *)
Fixpoint skip_separators (s : cstr) (i fuel : nat) : res (option nat) :=
  match fuel with
  | O => Err OutOfFuel
  | S f =>
      let* sep := cwk_path_is_separator s i in
      if sep then
        let* ch := cget s (S i) in
        if decide (ch = 0%Z) then Ok None else skip_separators s (S i) f
      else Ok (Some i)
  end.

Definition cwk_path_get_first_segment_without_root (path : cstr) (segments : nat)
    : res (bool * cwk_segment) :=
  let segment := mk_segment path segments segments segments 0 in
  let* ch := cget path segments in
  if decide (ch = 0%Z) then Ok (false, segment)
  else
    let* r := skip_separators path segments (S (length path)) in
    match r with
    | None => Ok (false, segment)
    | Some b =>
        let* e := cwk_path_find_next_stop path b in
        Ok (true, mk_segment path segments b e (e - b))
    end.

(** [do { ++c; } while (cwk_path_is_separator(c))] *)
Fixpoint skip_separators_from (s : cstr) (c fuel : nat) : res nat :=
  match fuel with
  | O => Err OutOfFuel
  | S f =>
      let* sep := cwk_path_is_separator s (S c) in
      if sep then skip_separators_from s (S c) f else Ok (S c)
  end.

Definition cwk_path_get_next_segment (segment : cwk_segment) : res (bool * cwk_segment) :=
  let s := sg_path segment in
  let c := sg_begin segment + sg_size segment in
  let* ch := cget s c in
  if decide (ch = 0%Z) then Ok (false, segment)
  else
    let* sep := cwk_path_is_separator s c in
    let* _ := assert sep in
    let* c := skip_separators_from s c (S (length s)) in
    let* ch := cget s c in
    if decide (ch = 0%Z) then Ok (false, segment)
    else
      let* e := cwk_path_find_next_stop s c in
      Ok (true, mk_segment s (sg_segments segment) c e (e - c)).

(** [do { --c; if (c < segments) return false; } while (is_separator(c))] *)
Fixpoint skip_separators_back (s : cstr) (segments c : nat) : res (option nat) :=
  match c with
  | O => Ok None
  | S c' =>
      if decide (c' < segments) then Ok None
      else
        let* sep := cwk_path_is_separator s c' in
        if sep then skip_separators_back s segments c' else Ok (Some c')
  end.

Definition cwk_path_get_previous_segment (segment : cwk_segment)
    : res (bool * cwk_segment) :=
  let s := sg_path segment in
  let c := sg_begin segment in
  if decide (c <= sg_segments segment) then Ok (false, segment)
  else
    let* r := skip_separators_back s (sg_segments segment) c in
    match r with
    | None => Ok (false, segment)
    | Some c =>
        let* b := cwk_path_find_previous_stop s (sg_segments segment) c in
        Ok (true, mk_segment s (sg_segments segment) b (S c) (S c - b))
    end.

Definition cwk_path_get_segment_type (segment : cwk_segment) : res cwk_segment_type :=
  let* r1 := strncmp (sg_path segment) (sg_begin segment) [dot] 0
               (Z.of_nat (sg_size segment)) in
  if decide (r1 = 0%Z) then Ok CWK_CURRENT
  else
    let* r2 := strncmp (sg_path segment) (sg_begin segment) [dot; dot] 0
                 (Z.of_nat (sg_size segment)) in
    if decide (r2 = 0%Z) then Ok CWK_BACK else Ok CWK_NORMAL.

(** ** Roots *)

Fixpoint skip_separators_at (s : cstr) (c fuel : nat) : res nat :=
  match fuel with
  | O => Err OutOfFuel
  | S f =>
      let* sep := cwk_path_is_separator s c in
      if sep then skip_separators_at s (S c) f else Ok c
  end.

Definition cwk_path_get_root_windows (path : cstr) : res nat :=
  let* c0 := cget path 0 in
  if decide (c0 = 0%Z) then Ok 0
  else
    let* sep0 := cwk_path_is_separator path 0 in
    if sep0 then
      let* sep1 := cwk_path_is_separator path 1 in
      if negb sep1 then Ok 1
      else
        let* c2 := cget path 2 in
        let q := bool_decide (c2 = 63%Z) || bool_decide (c2 = dot) in
        let c := if q then 3 else 2 in
        let* sep3 := if q then cwk_path_is_separator path 3 else Ok false in
        if sep3 then Ok 4
        else
          let* c := cwk_path_find_next_stop path c in
          let* c := skip_separators_at path c (S (length path)) in
          let* c := cwk_path_find_next_stop path c in
          let* sep := cwk_path_is_separator path c in
          Ok (if sep then S c else c)
    else
      let* c1 := cget path 1 in
      if decide (c1 = 58%Z) then
        let* sep2 := cwk_path_is_separator path 2 in
        Ok (if sep2 then 3 else 2)
      else Ok 0.

Definition cwk_path_get_root_unix (path : cstr) : res nat :=
  let* sep := cwk_path_is_separator path 0 in
  Ok (if sep then 1 else 0).

Definition cwk_path_get_root (path : cstr) : res nat :=
  match path_style with
  | CWK_STYLE_WINDOWS => cwk_path_get_root_windows path
  | CWK_STYLE_UNIX => cwk_path_get_root_unix path
  end.

Definition cwk_path_is_root_absolute (path : cstr) (len : nat) : res bool :=
  match len with
  | O => Ok false
  | S n => cwk_path_is_separator path n
  end.

Definition cwk_path_is_absolute (path : cstr) : res bool :=
  let* len := cwk_path_get_root path in
  cwk_path_is_root_absolute path len.

Definition cwk_path_is_relative (path : cstr) : res bool :=
  let* a := cwk_path_is_absolute path in Ok (negb a).

Definition cwk_path_get_first_segment (path : cstr) : res (bool * cwk_segment) :=
  let* len := cwk_path_get_root path in
  cwk_path_get_first_segment_without_root path len.

(** [while (cwk_path_get_next_segment(segment)) {}] *)
Fixpoint last_segment_loop (segment : cwk_segment) (fuel : nat) : res cwk_segment :=
  match fuel with
  | O => Err OutOfFuel
  | S f =>
      let* '(r, seg') := cwk_path_get_next_segment segment in
      if (r : bool) then last_segment_loop seg' f else Ok seg'
  end.

Definition cwk_path_get_last_segment_without_root (path : cstr)
    : res (bool * cwk_segment) :=
  let* '(r, seg) := cwk_path_get_first_segment_without_root path 0 in
  if (r : bool) then
    let* seg' := last_segment_loop seg (S (length path)) in Ok (true, seg')
  else Ok (false, seg).

Definition cwk_path_get_last_segment (path : cstr) : res (bool * cwk_segment) :=
  let* '(r, seg) := cwk_path_get_first_segment path in
  if (r : bool) then
    let* seg' := last_segment_loop seg (S (length path)) in Ok (true, seg')
  else Ok (false, seg).

(** ** Joined paths *)

Fixpoint first_segment_joined_loop (sj : cwk_segment_joined) (fuel : nat)
    : res (bool * cwk_segment_joined) :=
  match fuel with
  | O => Err OutOfFuel
  | S f =>
      let* p := pget (sj_paths sj) (sj_path_index sj) in
      match p with
      | None => Ok (false, sj)
      | Some path =>
          let* '(r, seg) := cwk_path_get_first_segment path in
          if (r : bool) then Ok (true, mk_joined seg (sj_paths sj) (sj_path_index sj))
          else first_segment_joined_loop
                 (mk_joined seg (sj_paths sj) (S (sj_path_index sj))) f
      end
  end.

Definition cwk_path_get_first_segment_joined (paths : list cstr)
    : res (bool * cwk_segment_joined) :=
  first_segment_joined_loop (mk_joined (mk_segment [] 0 0 0 0) paths 0)
    (S (length paths)).

Fixpoint next_segment_joined_loop (sj : cwk_segment_joined) (fuel : nat)
    : res (bool * cwk_segment_joined) :=
  match fuel with
  | O => Err OutOfFuel
  | S f =>
      let i := S (sj_path_index sj) in
      let* p := pget (sj_paths sj) i in
      match p with
      | None => Ok (false, mk_joined (sj_segment sj) (sj_paths sj) i)
      | Some path =>
          let* '(r, seg) := cwk_path_get_first_segment_without_root path 0 in
          let sj' := mk_joined seg (sj_paths sj) i in
          if (r : bool) then Ok (true, sj') else next_segment_joined_loop sj' f
      end
  end.

Definition cwk_path_get_next_segment_joined (sj : cwk_segment_joined)
    : res (bool * cwk_segment_joined) :=
  let* p := pget (sj_paths sj) (sj_path_index sj) in
  match p with
  | None => Ok (false, sj)
  | Some _ =>
      let* '(r, seg) := cwk_path_get_next_segment (sj_segment sj) in
      let sj := mk_joined seg (sj_paths sj) (sj_path_index sj) in
      if (r : bool) then Ok (true, sj)
      else next_segment_joined_loop sj (S (length (sj_paths sj)))
  end.

Fixpoint previous_segment_joined_loop (sj : cwk_segment_joined) (i : nat)
    : res (bool * cwk_segment_joined) :=
  match i with
  | O => Ok (false, sj)
  | S i' =>
      let* p := pget (sj_paths sj) i' in
      let* path := nonnull p in
      let* '(r, seg) :=
        match i' with
        | O => cwk_path_get_last_segment path
        | S _ => cwk_path_get_last_segment_without_root path
        end in
      let sj' := mk_joined seg (sj_paths sj) i' in
      if (r : bool) then Ok (true, sj') else previous_segment_joined_loop sj' i'
  end.

Definition cwk_path_get_previous_segment_joined (sj : cwk_segment_joined)
    : res (bool * cwk_segment_joined) :=
  let* p := pget (sj_paths sj) 0 in
  match p with
  | None => Ok (false, sj)
  | Some _ =>
      let* '(r, seg) := cwk_path_get_previous_segment (sj_segment sj) in
      let sj := mk_joined seg (sj_paths sj) (sj_path_index sj) in
      if (r : bool) then Ok (true, sj)
      else previous_segment_joined_loop sj (sj_path_index sj)
  end.

(** An upper bound on the segments of all the paths. *)
Definition joined_fuel (sj : cwk_segment_joined) : nat :=
  S (sum_list (length <$> sj_paths sj)).

Fixpoint back_will_be_removed_loop (sj : cwk_segment_joined) (counter : Z) (fuel : nat)
    : res bool :=
  match fuel with
  | O => Err OutOfFuel
  | S f =>
      let* '(r, sj) := cwk_path_get_previous_segment_joined sj in
      if (r : bool) then
        let* type := cwk_path_get_segment_type (sj_segment sj) in
        match type with
        | CWK_NORMAL =>
            if decide (counter + 1 > 0)%Z then Ok true
            else back_will_be_removed_loop sj (counter + 1) f
        | CWK_BACK => back_will_be_removed_loop sj (counter - 1) f
        | CWK_CURRENT => back_will_be_removed_loop sj counter f
        end
      else Ok false
  end.

Definition cwk_path_segment_back_will_be_removed (sj : cwk_segment_joined) : res bool :=
  back_will_be_removed_loop sj 0 (joined_fuel sj).

Fixpoint normal_will_be_removed_loop (sj : cwk_segment_joined) (counter : Z) (fuel : nat)
    : res bool :=
  match fuel with
  | O => Err OutOfFuel
  | S f =>
      let* '(r, sj) := cwk_path_get_next_segment_joined sj in
      if (r : bool) then
        let* type := cwk_path_get_segment_type (sj_segment sj) in
        match type with
        | CWK_NORMAL => normal_will_be_removed_loop sj (counter + 1) f
        | CWK_BACK =>
            if decide (counter - 1 < 0)%Z then Ok true
            else normal_will_be_removed_loop sj (counter - 1) f
        | CWK_CURRENT => normal_will_be_removed_loop sj counter f
        end
      else Ok false
  end.

Definition cwk_path_segment_normal_will_be_removed (sj : cwk_segment_joined) : res bool :=
  normal_will_be_removed_loop sj 0 (joined_fuel sj).

Definition cwk_path_segment_will_be_removed (sj : cwk_segment_joined) (absolute : bool)
    : res bool :=
  let* type := cwk_path_get_segment_type (sj_segment sj) in
  match type with
  | CWK_CURRENT => Ok true
  | CWK_BACK => if absolute then Ok true else cwk_path_segment_back_will_be_removed sj
  | CWK_NORMAL => cwk_path_segment_normal_will_be_removed sj
  end.

Fixpoint skip_invisible_loop (sj : cwk_segment_joined) (absolute : bool) (fuel : nat)
    : res (bool * cwk_segment_joined) :=
  match fuel with
  | O => Err OutOfFuel
  | S f =>
      let* removed := cwk_path_segment_will_be_removed sj absolute in
      if (removed : bool) then
        let* '(r, sj') := cwk_path_get_next_segment_joined sj in
        if (r : bool) then skip_invisible_loop sj' absolute f else Ok (false, sj')
      else Ok (true, sj)
  end.

Definition cwk_path_segment_joined_skip_invisible (sj : cwk_segment_joined)
    (absolute : bool) : res (bool * cwk_segment_joined) :=
  skip_invisible_loop sj absolute (S (joined_fuel sj)).

(** ** Normalisation *)

(** The [do ... while] of [cwk_path_join_and_normalize_multiple]: the buffer,
    [pos] and [has_segment_output] after the loop. *)
Fixpoint normalize_loop (sj : cwk_segment_joined) (absolute : bool)
    (buffer : list Z) (buffer_size pos : Z) (has_segment_output : bool) (fuel : nat)
    : res (list Z * Z * bool) :=
  match fuel with
  | O => Err OutOfFuel
  | S f =>
      let* removed := cwk_path_segment_will_be_removed sj absolute in
      let* '(buffer, pos, has) :=
        if (removed : bool) then Ok (buffer, pos, has_segment_output)
        else
          let* '(buffer, pos) :=
            if has_segment_output then
              let* '(b, n) := cwk_path_output_separator path_style buffer buffer_size pos in
              Ok (b, u64 (pos + n))
            else Ok (buffer, pos) in
          let seg := sj_segment sj in
          let* '(b, n) := cwk_path_output_sized buffer buffer_size pos
                            (sg_path seg) (sg_begin seg) (Z.of_nat (sg_size seg)) in
          Ok (b, u64 (pos + n), true) in
      let* '(r, sj') := cwk_path_get_next_segment_joined sj in
      if (r : bool) then normalize_loop sj' absolute buffer buffer_size pos has f
      else Ok (buffer, pos, has)
  end.

Definition cwk_path_join_and_normalize_multiple (paths : list cstr)
    (buffer : list Z) (buffer_size : Z) : res (list Z * Z) :=
  let* p0 := pget paths 0 in
  let* path0 := nonnull p0 in
  let* root := cwk_path_get_root path0 in
  let pos := Z.of_nat root in
  let* absolute := cwk_path_is_root_absolute path0 root in
  let* '(buffer, _) := cwk_path_output_sized buffer buffer_size 0 path0 0 pos in
  let* '(r, sj) := cwk_path_get_first_segment_joined paths in
  let* '(buffer, pos) :=
    if (r : bool) then
      let* '(buffer, pos, has) :=
        normalize_loop sj absolute buffer buffer_size pos false (joined_fuel sj) in
      if negb has && bool_decide (pos = 0%Z) then
        let* _ := assert (negb absolute) in
        let* '(b, n) := cwk_path_output_current buffer buffer_size pos in
        Ok (b, u64 (pos + n))
      else Ok (buffer, pos)
    else Ok (buffer, pos) in
  let* buffer := cwk_path_terminate_output buffer buffer_size pos in
  Ok (buffer, pos).

Definition cwk_path_get_absolute (base path : cstr) (buffer : list Z) (buffer_size : Z)
    : res (list Z * Z) :=
  let* base_abs := cwk_path_is_absolute base in
  let root :=
    if (base_abs : bool) then []
    else match path_style with
         | CWK_STYLE_WINDOWS => [[92]%Z]
         | CWK_STYLE_UNIX => [[47]%Z]
         end in
  let* path_abs := cwk_path_is_absolute path in
  let paths := if (path_abs : bool) then root ++ [path] else root ++ [base; path] in
  cwk_path_join_and_normalize_multiple paths buffer buffer_size.

Definition cwk_path_join (path_a path_b : cstr) (buffer : list Z) (buffer_size : Z)
    : res (list Z * Z) :=
  cwk_path_join_and_normalize_multiple [path_a; path_b] buffer buffer_size.

Definition cwk_path_join_multiple (paths : list cstr) (buffer : list Z) (buffer_size : Z)
    : res (list Z * Z) :=
  cwk_path_join_and_normalize_multiple paths buffer buffer_size.

Definition cwk_path_normalize (path : cstr) (buffer : list Z) (buffer_size : Z)
    : res (list Z * Z) :=
  cwk_path_join_and_normalize_multiple [path] buffer buffer_size.

(** ** Relative paths *)

Fixpoint skip_until_diverge_loop (bsj osj : cwk_segment_joined) (absolute : bool) (fuel : nat)
    : res (cwk_segment_joined * cwk_segment_joined * bool * bool) :=
  match fuel with
  | O => Err OutOfFuel
  | S f =>
      let* '(ba, bsj) := cwk_path_segment_joined_skip_invisible bsj absolute in
      let* '(oa, osj) := cwk_path_segment_joined_skip_invisible osj absolute in
      if negb ba || negb oa then Ok (bsj, osj, ba, oa)
      else
        let b := sj_segment bsj in
        let o := sj_segment osj in
        let* eq := cwk_path_is_string_equal (sg_path b) (sg_begin b) (sg_path o) (sg_begin o)
                     (sg_size b) (sg_size o) in
        if negb eq then Ok (bsj, osj, ba, oa)
        else
          let* '(ba, bsj) := cwk_path_get_next_segment_joined bsj in
          let* '(oa, osj) := cwk_path_get_next_segment_joined osj in
          if ba && oa then skip_until_diverge_loop bsj osj absolute f
          else Ok (bsj, osj, ba, oa)
  end.

Definition cwk_path_skip_segments_until_diverge (bsj osj : cwk_segment_joined)
    (absolute : bool) : res (cwk_segment_joined * cwk_segment_joined * bool * bool) :=
  skip_until_diverge_loop bsj osj absolute (joined_fuel bsj).

(** The loop that writes one "../" per remaining segment of the base. *)
Fixpoint relative_back_loop (bsj : cwk_segment_joined) (absolute : bool)
    (buffer : list Z) (buffer_size pos : Z) (has_output : bool) (fuel : nat)
    : res (list Z * Z * bool) :=
  match fuel with
  | O => Err OutOfFuel
  | S f =>
      let* '(vis, bsj) := cwk_path_segment_joined_skip_invisible bsj absolute in
      if negb vis then Ok (buffer, pos, has_output)
      else
        let* '(buffer, n) := cwk_path_output_back buffer buffer_size pos in
        let pos := u64 (pos + n) in
        let* '(buffer, n) := cwk_path_output_separator path_style buffer buffer_size pos in
        let pos := u64 (pos + n) in
        let* '(r, bsj) := cwk_path_get_next_segment_joined bsj in
        if (r : bool) then relative_back_loop bsj absolute buffer buffer_size pos true f
        else Ok (buffer, pos, true)
  end.

(** The loop that writes the remaining segments of the other path. *)
Fixpoint relative_forward_loop (osj : cwk_segment_joined) (absolute : bool)
    (buffer : list Z) (buffer_size pos : Z) (has_output : bool) (fuel : nat)
    : res (list Z * Z * bool) :=
  match fuel with
  | O => Err OutOfFuel
  | S f =>
      let* '(vis, osj) := cwk_path_segment_joined_skip_invisible osj absolute in
      if negb vis then Ok (buffer, pos, has_output)
      else
        let seg := sj_segment osj in
        let* '(buffer, n) := cwk_path_output_sized buffer buffer_size pos
                               (sg_path seg) (sg_begin seg) (Z.of_nat (sg_size seg)) in
        let pos := u64 (pos + n) in
        let* '(buffer, n) := cwk_path_output_separator path_style buffer buffer_size pos in
        let pos := u64 (pos + n) in
        let* '(r, osj) := cwk_path_get_next_segment_joined osj in
        if (r : bool) then relative_forward_loop osj absolute buffer buffer_size pos true f
        else Ok (buffer, pos, true)
  end.

Definition cwk_path_get_relative (base_directory path : cstr)
    (buffer : list Z) (buffer_size : Z) : res (list Z * Z) :=
  let* base_root := cwk_path_get_root base_directory in
  let* path_root := cwk_path_get_root path in
  let* same :=
    if decide (base_root = path_root) then
      cwk_path_is_string_equal base_directory 0 path 0 base_root path_root
    else Ok false in
  if negb same then
    let* b := cwk_path_terminate_output buffer buffer_size 0 in Ok (b, 0%Z)
  else
    let* absolute := cwk_path_is_root_absolute base_directory base_root in
    let* '(_, bsj) := cwk_path_get_first_segment_joined [base_directory] in
    let* '(_, osj) := cwk_path_get_first_segment_joined [path] in
    let* '(bsj, osj, base_available, other_available) :=
      cwk_path_skip_segments_until_diverge bsj osj absolute in
    let* '(buffer, pos, has_output) :=
      if (base_available : bool) then
        relative_back_loop bsj absolute buffer buffer_size 0 false (joined_fuel bsj)
      else Ok (buffer, 0%Z, false) in
    let* '(buffer, pos, has_output) :=
      if (other_available : bool) then
        relative_forward_loop osj absolute buffer buffer_size pos has_output
          (joined_fuel osj)
      else Ok (buffer, pos, has_output) in
    let* '(buffer, pos) :=
      if (has_output : bool) then Ok (buffer, u64 (pos - 1))
      else
        let* '(b, n) := cwk_path_output_current buffer buffer_size pos in
        Ok (b, u64 (pos + n)) in
    let* buffer := cwk_path_terminate_output buffer buffer_size pos in
    Ok (buffer, pos).

(** [end] is an offset into [path_base]. *)
Fixpoint intersection_loop (base other : cwk_segment_joined) (absolute : bool)
    (end_ : nat) (fuel : nat) : res nat :=
  match fuel with
  | O => Err OutOfFuel
  | S f =>
      let* '(vb, base) := cwk_path_segment_joined_skip_invisible base absolute in
      if negb vb then Ok end_
      else
        let* '(vo, other) := cwk_path_segment_joined_skip_invisible other absolute in
        if negb vo then Ok end_
        else
          let b := sj_segment base in
          let o := sj_segment other in
          let* eq := cwk_path_is_string_equal (sg_path b) (sg_begin b)
                       (sg_path o) (sg_begin o) (sg_size b) (sg_size o) in
          if negb eq then Ok end_
          else
            let end_ := sg_end b in
            let* '(rb, base) := cwk_path_get_next_segment_joined base in
            if negb rb then Ok end_
            else
              let* '(ro, other) := cwk_path_get_next_segment_joined other in
              if negb ro then Ok end_
              else intersection_loop base other absolute end_ f
  end.

Definition cwk_path_get_intersection (path_base path_other : cstr) : res nat :=
  let* base_root := cwk_path_get_root path_base in
  let* other_root := cwk_path_get_root path_other in
  let* same := cwk_path_is_string_equal path_base 0 path_other 0 base_root other_root in
  if negb same then Ok 0
  else
    let* '(rb, base) := cwk_path_get_first_segment_joined [path_base] in
    if negb rb then Ok base_root
    else
      let* '(ro, other) := cwk_path_get_first_segment_joined [path_other] in
      if negb ro then Ok base_root
      else
        let* absolute := cwk_path_is_root_absolute path_base base_root in
        intersection_loop base other absolute base_root (joined_fuel base).

(** ** Parts of a path *)

Definition cwk_path_change_root (path new_root : cstr) (buffer : list Z) (buffer_size : Z)
    : res (list Z * Z) :=
  let* root_length := cwk_path_get_root path in
  let* new_root_length := strlen new_root 0 in
  let* path_length := strlen path 0 in
  let tail_length := u64 (path_length - Z.of_nat root_length) in
  let* '(buffer, _) := cwk_path_output_sized buffer buffer_size new_root_length
                         path root_length tail_length in
  let* '(buffer, _) := cwk_path_output_sized buffer buffer_size 0
                         new_root 0 new_root_length in
  let new_path_size := u64 (tail_length + new_root_length) in
  let* buffer := cwk_path_terminate_output buffer buffer_size new_path_size in
  Ok (buffer, new_path_size).

(** The basename as an offset and a length; [None] is the null pointer. *)
Definition cwk_path_get_basename (path : cstr) : res (option (nat * nat)) :=
  let* '(r, segment) := cwk_path_get_last_segment path in
  if (r : bool) then Ok (Some (sg_begin segment, sg_size segment)) else Ok None.

Definition cwk_path_get_dirname (path : cstr) : res nat :=
  let* '(r, segment) := cwk_path_get_last_segment path in
  if (r : bool) then Ok (sg_begin segment) else Ok 0.

(** [for (c = end; c >= begin; --c) if ( *c == '.') ...] *)
Fixpoint find_extension_loop (s : cstr) (begin c : nat) : res (option nat) :=
  let* ch := cget s c in
  if decide (ch = dot) then Ok (Some c)
  else
    match c with
    | O => Ok None
    | S c' => if decide (begin <= c') then find_extension_loop s begin c' else Ok None
    end.

(** [length_ptr] says whether the caller passed a non-null [length]: the code
    stores through it without a test. *)
Definition cwk_path_get_extension (path : cstr) (length_ptr : bool)
    : res (option (nat * nat)) :=
  let* '(r, segment) := cwk_path_get_last_segment path in
  if (r : bool) then
    let* e := find_extension_loop path (sg_begin segment) (sg_end segment) in
    match e with
    | None => Ok None
    | Some c => if length_ptr then Ok (Some (c, sg_end segment - c)) else Err NullDeref
    end
  else Ok None.

Definition cwk_path_has_extension (path : cstr) : res bool :=
  let* e := cwk_path_get_extension path true in
  Ok (bool_decide (is_Some e)).

(** [while (is_separator(value)) ++value;], the scan for the terminator and
    the trimming of the separators at the end: the offset and the size. *)
Fixpoint trim_end_loop (s : cstr) (o n : nat) : res nat :=
  match n with
  | O => Ok 0
  | S n' =>
      let* sep := cwk_path_is_separator s (o + n') in
      if sep then trim_end_loop s o n' else Ok n
  end.

Definition trim_separators (value : cstr) : res (nat * nat) :=
  let* o := skip_separators_at value 0 (S (length value)) in
  let* n := strlen value o in
  let* size := trim_end_loop value o (Z.to_nat n) in
  Ok (o, size).

Definition cwk_path_change_segment (segment : cwk_segment) (value : cstr)
    (buffer : list Z) (buffer_size : Z) : res (list Z * Z) :=
  let s := sg_path segment in
  let* '(buffer, pos) := cwk_path_output_sized buffer buffer_size 0 s 0
                           (Z.of_nat (sg_begin segment)) in
  let* '(o, value_size) := trim_separators value in
  let* tail_size := strlen s (sg_end segment) in
  let* '(buffer, _) := cwk_path_output_sized buffer buffer_size
                         (u64 (pos + Z.of_nat value_size)) s (sg_end segment) tail_size in
  let* '(buffer, n) := cwk_path_output_sized buffer buffer_size pos
                         value o (Z.of_nat value_size) in
  let pos := u64 (u64 (pos + n) + tail_size) in
  let* buffer := cwk_path_terminate_output buffer buffer_size pos in
  Ok (buffer, pos).

Definition cwk_path_change_basename (path new_basename : cstr)
    (buffer : list Z) (buffer_size : Z) : res (list Z * Z) :=
  let* '(r, segment) := cwk_path_get_last_segment path in
  if (r : bool) then cwk_path_change_segment segment new_basename buffer buffer_size
  else
    let* root_size := cwk_path_get_root path in
    let* '(buffer, pos) := cwk_path_output_sized buffer buffer_size 0 path 0
                             (Z.of_nat root_size) in
    let* '(o, size) := trim_separators new_basename in
    let* '(buffer, n) := cwk_path_output_sized buffer buffer_size pos
                           new_basename o (Z.of_nat size) in
    let pos := u64 (pos + n) in
    let* buffer := cwk_path_terminate_output buffer buffer_size pos in
    Ok (buffer, pos).

(** [for (c = begin; c < end; ++c) if ( *c == '.') old_extension = c;] *)
Fixpoint last_dot_loop (s : cstr) (c k old_extension : nat) : res nat :=
  match k with
  | O => Ok old_extension
  | S k' =>
      let* ch := cget s c in
      last_dot_loop s (S c) k' (if decide (ch = dot) then c else old_extension)
  end.

Definition cwk_path_change_extension (path new_extension : cstr)
    (buffer : list Z) (buffer_size : Z) : res (list Z * Z) :=
  let* '(r, segment) := cwk_path_get_last_segment path in
  if (r : bool) then
    let* old_extension := last_dot_loop path (sg_begin segment)
      (sg_end segment - sg_begin segment) (sg_end segment) in
    let* '(buffer, pos) := cwk_path_output_sized buffer buffer_size 0 (sg_path segment) 0
                             (Z.of_nat old_extension) in
    let* ch := cget new_extension 0 in
    let o := if decide (ch = dot) then 1 else 0 in
    let* n := strlen new_extension o in
    let new_extension_size := u64 (n + 1) in
    let* '(buffer, trail_size) := cwk_path_output buffer buffer_size
      (u64 (pos + new_extension_size)) (sg_path segment) (sg_end segment) in
    let* '(buffer, n) := cwk_path_output_dot buffer buffer_size pos in
    let pos := u64 (pos + n) in
    let* '(buffer, n) := cwk_path_output buffer buffer_size pos new_extension o in
    let pos := u64 (u64 (pos + n) + trail_size) in
    let* buffer := cwk_path_terminate_output buffer buffer_size pos in
    Ok (buffer, pos)
  else
    let* root_size := cwk_path_get_root path in
    let* '(buffer, pos) := cwk_path_output_sized buffer buffer_size 0 path 0
                             (Z.of_nat root_size) in
    let* ch := cget new_extension 0 in
    let* '(buffer, pos) :=
      if decide (ch = dot) then Ok (buffer, pos)
      else
        let* '(b, n) := cwk_path_output_dot buffer buffer_size pos in
        Ok (b, u64 (pos + n)) in
    let* '(buffer, n) := cwk_path_output buffer buffer_size pos new_extension 0 in
    let pos := u64 (pos + n) in
    let* buffer := cwk_path_terminate_output buffer buffer_size pos in
    Ok (buffer, pos).

(** [for (c = path; *c; ++c)]: the first slash decides. *)
Fixpoint guess_style_slash (s : cstr) (c fuel : nat) : res (option cwk_path_style) :=
  match fuel with
  | O => Err OutOfFuel
  | S f =>
      let* ch := cget s c in
      if decide (ch = 0%Z) then Ok None
      else if decide (ch = 47%Z) then Ok (Some CWK_STYLE_UNIX)
      else if decide (ch = 92%Z) then Ok (Some CWK_STYLE_WINDOWS)
      else guess_style_slash s (S c) f
  end.

Fixpoint contains_dot_loop (s : cstr) (c fuel : nat) : res bool :=
  match fuel with
  | O => Err OutOfFuel
  | S f =>
      let* ch := cget s c in
      if decide (ch = 0%Z) then Ok false
      else if decide (ch = dot) then Ok true
      else contains_dot_loop s (S c) f
  end.

Definition cwk_path_guess_style (path : cstr) : res cwk_path_style :=
  let* root_length := cwk_path_get_root_windows path in
  if decide (1 < root_length) then Ok CWK_STYLE_WINDOWS
  else
    let* slash := guess_style_slash path 0 (S (length path)) in
    match slash with
    | Some st => Ok st
    | None =>
        let* '(r, segment) := cwk_path_get_last_segment path in
        if (r : bool) then
          let* ch := cget path (sg_begin segment) in
          if decide (ch = dot) then Ok CWK_STYLE_UNIX
          else
            let* d := contains_dot_loop path (sg_begin segment) (S (length path)) in
            Ok (if (d : bool) then CWK_STYLE_WINDOWS else CWK_STYLE_UNIX)
        else Ok CWK_STYLE_UNIX
    end.

(** The new value of the global. *)
Definition cwk_path_set_style (style : cwk_path_style) : res cwk_path_style :=
  let* _ := assert (bool_decide (style = CWK_STYLE_UNIX) ||
                    bool_decide (style = CWK_STYLE_WINDOWS)) in
  Ok style.

Definition cwk_path_get_style : cwk_path_style := path_style.

End style.

(** ** Examples *)

Definition normalize_string (p : string) : res (list Z * Z) :=
  cwk_path_normalize CWK_STYLE_UNIX (bytes_of p) (replicate 32 1%Z) 32.

Example normalize_1 :
  (let* '(b, n) := normalize_string "/var/../home/./x//y/.." in Ok (take (Z.to_nat n) b, n))
  = Ok (bytes_of "/home/x", 7%Z).
Proof. vm_compute. reflexivity. Qed.

Example normalize_2 :
  (let* '(b, n) := normalize_string "a/../../b" in Ok (take (Z.to_nat n) b, n))
  = Ok (bytes_of "../b", 4%Z).
Proof. vm_compute. reflexivity. Qed.

Example relative_1 :
  (let* '(b, n) := cwk_path_get_relative CWK_STYLE_UNIX (bytes_of "/a/b/c") (bytes_of "/a/x/./y")
                     (replicate 32 1%Z) 32 in Ok (take (Z.to_nat n) b, n))
  = Ok (bytes_of "../../x/y", 9%Z).
Proof. vm_compute. reflexivity. Qed.

Example change_extension_1 :
  (let* '(b, n) := cwk_path_change_extension CWK_STYLE_UNIX (bytes_of "/a/b.tar/") (bytes_of ".gz")
                     (replicate 32 1%Z) 32 in Ok (take (Z.to_nat n) b, n))
  = Ok (bytes_of "/a/b.gz/", 8%Z).
Proof. vm_compute. reflexivity. Qed.

Example root_windows_1 :
  cwk_path_get_root CWK_STYLE_WINDOWS (bytes_of "\\server\share\x") = Ok 15.
Proof. vm_compute. reflexivity. Qed.
