(* ===== verification/CwalkSpec.v ===== *)
(** * What the path library promises

    An abstract path is the list of its segments.  [resolve] is the usual
    one-pass reading of a path with a stack: "." is skipped, ".." drops the
    last name, or is kept when there is none and the path is relative.  The
    code decides instead, for each segment by itself, whether it will
    disappear, by scanning the segments before or after it with a counter
    ([rm_normal], [rm_back]); [visible_resolve] shows that the two agree. *)

From S2P Require Import Prelude CString Cwalk.

Local Open Scope nat_scope.

(** ** Segments of a string (UNIX style) *)

Definition issep (c : Z) : bool := (c =? 47)%Z.
Definition nosep (c : Z) : bool := negb (issep c).

(** The pieces between separators, empty ones included. *)
Fixpoint fields (l : cstr) : list cstr :=
  match l with
  | [] => [[]]
  | c :: l' =>
      if issep c then [] :: fields l'
      else match fields l' with
           | f :: fs => (c :: f) :: fs
           | [] => [[c]]
           end
  end.

Definition words (l : cstr) : list cstr := filter (fun w => w <> []) (fields l).

(** ** Kinds of segments *)

Definition kind (w : cstr) : cwk_segment_type :=
  if decide (w = [dot]) then CWK_CURRENT
  else if decide (w = [dot; dot]) then CWK_BACK
  else CWK_NORMAL.

(** ** The stack reading *)

(** The stack is listed from the bottom; [pop] drops the last name, if the
    top of the stack is one. *)
Definition pop (st : list cstr) : option (list cstr) :=
  match last st with
  | Some w => if decide (kind w = CWK_NORMAL) then Some (take (length st - 1) st) else None
  | None => None
  end.

Definition push (absolute : bool) (st : list cstr) (w : cstr) : list cstr :=
  match kind w with
  | CWK_NORMAL => st ++ [w]
  | CWK_CURRENT => st
  | CWK_BACK =>
      match pop st with
      | Some st' => st'
      | None => if absolute then st else st ++ [w]
      end
  end.

Definition resolve (absolute : bool) (ws : list cstr) : list cstr :=
  foldl (push absolute) [] ws.

(** ** The code's criterion *)

(** [rm_normal n A]: with [n] names opened since, does a later ".." of [A]
    drop the name in question?  [rm_back n R]: with [n] pending ".." , do the
    segments before, nearest first, hold a name that this ".." drops? *)
Fixpoint rm_normal (n : nat) (A : list cstr) : bool :=
  match A with
  | [] => false
  | a :: A' =>
      match kind a with
      | CWK_NORMAL => rm_normal (S n) A'
      | CWK_BACK => match n with O => true | S n' => rm_normal n' A' end
      | CWK_CURRENT => rm_normal n A'
      end
  end.

Fixpoint rm_back (n : nat) (R : list cstr) : bool :=
  match R with
  | [] => false
  | a :: R' =>
      match kind a with
      | CWK_NORMAL => match n with O => true | S n' => rm_back n' R' end
      | CWK_BACK => rm_back (S n) R'
      | CWK_CURRENT => rm_back n R'
      end
  end.

Definition removed (absolute : bool) (B : list cstr) (w : cstr) (A : list cstr) : bool :=
  match kind w with
  | CWK_CURRENT => true
  | CWK_BACK => if absolute then true else rm_back 0 (reverse B)
  | CWK_NORMAL => rm_normal 0 A
  end.

(** The segments that stay, of those from [C] on, after [B]. *)
Fixpoint visible (absolute : bool) (B C : list cstr) : list cstr :=
  match C with
  | [] => []
  | w :: A =>
      let rest := visible absolute (B ++ [w]) A in
      if removed absolute B w A then rest else w :: rest
  end.

(** ** The text of a path *)

Fixpoint intercalate (ws : list cstr) : cstr :=
  match ws with
  | [] => []
  | [w] => w
  | w :: ws' => w ++ 47%Z :: intercalate ws'
  end.

Definition is_abs (s : cstr) : bool :=
  match s with
  | c :: _ => issep c
  | [] => false
  end.

(** The whole segment list of joined paths. *)
Definition all_words (paths : list cstr) : list cstr := concat (words <$> paths).

(** The normalised text: the root, then the resolved segments; a path whose
    segments all disappear is "." when it has no root, and a path without any
    segment is its root. *)
Definition normal_text (absolute : bool) (ws : list cstr) : cstr :=
  let root := if absolute then [47%Z] else [] in
  match ws with
  | [] => root
  | _ =>
      match resolve absolute ws, absolute with
      | [], false => [dot]
      | out, _ => root ++ intercalate out
      end
  end.

Definition normal_join (paths : list cstr) : cstr :=
  normal_text (match paths with p :: _ => is_abs p | [] => false end) (all_words paths).

(** ** Lemmas: fields and words *)

Lemma fields_cons l : exists f fs, fields l = f :: fs.
Proof.
  destruct l as [|c l]; simpl; [eauto|]. destruct (issep c); [eauto|].
  destruct (fields l); eauto.
Qed.

Lemma fields_app l1 c l2 : issep c = true -> fields (l1 ++ c :: l2) = fields l1 ++ fields l2.
Proof.
  intros Hc. induction l1 as [|x l1 IH]; simpl; [by rewrite Hc|].
  destruct (issep x); [by rewrite IH|]. rewrite IH.
  by destruct (fields_cons l1) as (f & fs & ->).
Qed.

Lemma fields_nosep w : Forall (fun c => nosep c = true) w -> fields w = [w].
Proof.
  unfold nosep. induction 1 as [|c w Hc _ IH]; simpl; [done|].
  rewrite negb_true_iff in Hc. by rewrite Hc, IH.
Qed.

Lemma words_app l1 c l2 : issep c = true -> words (l1 ++ c :: l2) = words l1 ++ words l2.
Proof. intros. unfold words. by rewrite fields_app, filter_app. Qed.

Lemma words_nil : words [] = [].
Proof. reflexivity. Qed.

Lemma words_sep c l : issep c = true -> words (c :: l) = words l.
Proof. intros H. exact (words_app [] c l H). Qed.

Lemma words_seps k l : Forall (fun c => issep c = true) k -> words (k ++ l) = words l.
Proof. induction 1; simpl; [done|]. by rewrite words_sep. Qed.

Lemma words_seps_r k l : Forall (fun c => issep c = true) k -> words (l ++ k) = words l.
Proof.
  intros Hk. destruct k as [|c k]; [by rewrite app_nil_r|].
  apply Forall_cons in Hk as [Hc Hk]. rewrite words_app by done.
  rewrite <- (app_nil_r k), words_seps by done. by rewrite words_nil, app_nil_r.
Qed.

Lemma words_all_seps k : Forall (fun c => issep c = true) k -> words k = [].
Proof. intros Hk. rewrite <- (app_nil_r k). by rewrite words_seps. Qed.

Lemma words_word w : w <> [] -> Forall (fun c => nosep c = true) w -> words w = [w].
Proof. intros Hne Hw. unfold words. rewrite fields_nosep by done. by rewrite filter_cons_True. Qed.

(** A text that a separator, or nothing, follows. *)
Definition bounded_l (l : cstr) : Prop := l = [] \/ exists l' c, l = l' ++ [c] /\ issep c = true.
Definition bounded_r (r : cstr) : Prop := r = [] \/ exists c r', r = c :: r' /\ issep c = true.

Lemma words_word_r w r : w <> [] -> Forall (fun c => nosep c = true) w -> bounded_r r ->
  words (w ++ r) = w :: words r.
Proof.
  intros Hne Hw [->|(c & r' & -> & Hc)].
  - by rewrite app_nil_r, words_word.
  - by rewrite words_app, words_word, (words_sep c r').
Qed.

Lemma words_word_l l w : w <> [] -> Forall (fun c => nosep c = true) w -> bounded_l l ->
  words (l ++ w) = words l ++ [w].
Proof.
  intros Hne Hw [->|(l' & c & -> & Hc)]; [by rewrite words_word|].
  rewrite <- app_assoc. simpl.
  by rewrite !words_app, (words_word w), words_nil, app_nil_r by done.
Qed.

Lemma all_words_app p1 p2 : all_words (p1 ++ p2) = all_words p1 ++ all_words p2.
Proof. unfold all_words. by rewrite fmap_app, concat_app. Qed.

Lemma all_words_cons p ps : all_words (p :: ps) = words p ++ all_words ps.
Proof. done. Qed.

Lemma words_no_empty l : Forall (fun w => w <> []) (words l).
Proof. unfold words. apply Forall_forall. intros w Hw%list_elem_of_filter. naive_solver. Qed.

(** ** Lemmas: the stack and the criterion *)

(** The names on top of a stack, and how many there are. *)
Definition is_name (w : cstr) : bool :=
  match kind w with
  | CWK_NORMAL => true
  | _ => false
  end.

Definition names (st : list cstr) : nat := length (takeWhile is_name (reverse st)).

Lemma is_name_true w : kind w = CWK_NORMAL -> is_name w = true.
Proof. unfold is_name. by intros ->. Qed.

Lemma is_name_false w : kind w <> CWK_NORMAL -> is_name w = false.
Proof. unfold is_name. by destruct (kind w). Qed.

(** [prune st A]: the stack without the names that [A] drops; the name at
    height [i] from the top is dropped when [rm_normal i A]. *)
Fixpoint prune_rev (i : nat) (rst : list cstr) (A : list cstr) : list cstr :=
  match rst with
  | [] => []
  | w :: rst' =>
      match kind w with
      | CWK_NORMAL => (if rm_normal i A then [] else [w]) ++ prune_rev (S i) rst' A
      | _ => rst
      end
  end.

Lemma prune_rev_nil rst : forall i, prune_rev i rst [] = rst.
Proof. induction rst as [|w rst IH]; intros i; simpl; [done|]. rewrite IH. by destruct (kind w). Qed.

Lemma prune_rev_current a A rst : kind a = CWK_CURRENT -> forall i,
  prune_rev i rst (a :: A) = prune_rev i rst A.
Proof. intros Ha. induction rst as [|w rst IH]; intros i; simpl; [done|]. by rewrite IH, Ha. Qed.

Lemma prune_rev_normal a A rst : kind a = CWK_NORMAL -> forall i,
  prune_rev i rst (a :: A) = prune_rev (S i) rst A.
Proof. intros Ha. induction rst as [|w rst IH]; intros i; simpl; [done|]. by rewrite IH, Ha. Qed.

Lemma prune_rev_back a A rst : kind a = CWK_BACK -> forall i,
  prune_rev (S i) rst (a :: A) = prune_rev i rst A.
Proof. intros Ha. induction rst as [|w rst IH]; intros i; simpl; [done|]. by rewrite IH, Ha. Qed.

Lemma prune_rev_back_top a A rst : kind a = CWK_BACK ->
  prune_rev 0 rst (a :: A)
    = match rst with
      | w :: rst' => if decide (kind w = CWK_NORMAL) then prune_rev 0 rst' A else rst
      | [] => []
      end.
Proof.
  intros Ha. destruct rst as [|w rst]; simpl; [done|]. rewrite Ha.
  destruct (kind w) eqn:E; simpl; try done. by rewrite prune_rev_back.
Qed.

Lemma pop_reverse st :
  pop st = match reverse st with
           | w :: rst => if decide (kind w = CWK_NORMAL) then Some (reverse rst) else None
           | [] => None
           end.
Proof.
  unfold pop. destruct st as [|w st _] using rev_ind; [done|].
  rewrite last_snoc, reverse_snoc. case_decide; [|done].
  f_equal. rewrite length_app, reverse_involutive. simpl.
  replace (length st + 1 - 1) with (length st) by lia. by rewrite take_app_length.
Qed.

(** Resolved lists: only "..", and none of them in an absolute path, below
    the names, and never ".". *)
Definition resolved (absolute : bool) (st : list cstr) : Prop :=
  exists bs ns, st = bs ++ ns /\
    Forall (fun w => kind w = CWK_BACK) bs /\ Forall (fun w => kind w = CWK_NORMAL) ns /\
    (absolute = true -> bs = []).

Lemma push_resolved absolute st w : resolved absolute st -> resolved absolute (push absolute st w).
Proof.
  intros (bs & ns & -> & Hb & Hn & Ha). unfold push.
  destruct (kind w) eqn:E.
  - exists bs, (ns ++ [w]). rewrite app_assoc. split_and!; try done.
    apply Forall_app; auto.
  - by exists bs, ns.
  - rewrite pop_reverse. destruct ns as [|n ns _] using rev_ind.
    + rewrite app_nil_r. destruct bs as [|b bs _] using rev_ind; simpl.
      * destruct absolute; [by exists [], []|]. exists [w], []. split_and!; [done..|auto|done|done].
      * rewrite reverse_snoc. apply Forall_app in Hb as [Hb Hb1].
        inversion Hb1 as [|? ? Hbk]; subst. rewrite decide_False by congruence.
        destruct absolute; [by destruct bs; discriminate (Ha eq_refl)|].
        exists ((bs ++ [b]) ++ [w]), []. rewrite app_nil_r.
        split_and!; [done| |done|done]. rewrite !Forall_app. auto.
    + rewrite app_assoc, reverse_snoc. apply Forall_app in Hn as [Hn Hn1].
      inversion Hn1; subst. rewrite decide_True by done. rewrite reverse_involutive.
      by exists bs, ns.
Qed.

Lemma foldl_push_resolved absolute ws st :
  resolved absolute st -> resolved absolute (foldl (push absolute) st ws).
Proof. revert st. induction ws as [|w ws IH]; intros st H; simpl; [done|]. by apply IH, push_resolved. Qed.

Lemma resolve_resolved absolute ws : resolved absolute (resolve absolute ws).
Proof. apply foldl_push_resolved. by exists [], []. Qed.

Lemma resolve_snoc absolute ws w :
  resolve absolute (ws ++ [w]) = push absolute (resolve absolute ws) w.
Proof. unfold resolve. by rewrite foldl_app. Qed.

Lemma resolve_app absolute ws ws' :
  resolve absolute (ws ++ ws') = foldl (push absolute) (resolve absolute ws) ws'.
Proof. unfold resolve. by rewrite foldl_app. Qed.

(** In a relative path, the scan backwards finds a name to drop exactly when
    the stack has more names than there are pending "..". *)
Lemma rm_back_names ws : forall n, rm_back n (reverse ws) = bool_decide (n < names (resolve false ws)).
Proof.
  unfold names. induction ws as [|w ws IH] using rev_ind; intros n; [done|].
  rewrite reverse_snoc, resolve_snoc. simpl. unfold push.
  destruct (kind w) eqn:E.
  - rewrite reverse_snoc. simpl. rewrite is_name_true by done. simpl.
    destruct n as [|n]; [by rewrite bool_decide_eq_true_2 by lia|].
    rewrite IH. apply bool_decide_ext. lia.
  - apply IH.
  - rewrite IH, pop_reverse.
    destruct (reverse (resolve false ws)) as [|x r] eqn:Er; simpl.
    { rewrite reverse_snoc, Er. simpl. by rewrite is_name_false by congruence. }
    destruct (decide (kind x = CWK_NORMAL)) as [Hx|Hx].
    + rewrite reverse_involutive, is_name_true by done. simpl.
      apply bool_decide_ext. lia.
    + rewrite is_name_false by done. simpl.
      rewrite reverse_snoc, Er. simpl. rewrite is_name_false by congruence. done.
Qed.

(** What stays of [C], after [B] and before [A]. *)
Fixpoint kept (absolute : bool) (B C A : list cstr) : list cstr :=
  match C with
  | [] => []
  | w :: C' =>
      (if removed absolute B w (C' ++ A) then [] else [w]) ++ kept absolute (B ++ [w]) C' A
  end.

Lemma visible_kept absolute C : forall B, visible absolute B C = kept absolute B C [].
Proof.
  induction C as [|w C IH]; intros B; simpl; [done|].
  rewrite IH, app_nil_r. by destruct (removed absolute B w C).
Qed.

Lemma kept_snoc absolute x A C : forall B,
  kept absolute B (C ++ [x]) A
    = kept absolute B C (x :: A) ++ (if removed absolute (B ++ C) x A then [] else [x]).
Proof.
  induction C as [|w C IH]; intros B; simpl; [by rewrite !app_nil_r|].
  rewrite IH, <- !app_assoc. done.
Qed.

Lemma names_0 st : names st = 0 <-> pop st = None.
Proof.
  unfold names. rewrite pop_reverse. destruct (reverse st) as [|w r]; simpl; [done|].
  case_decide; [rewrite is_name_true by done|rewrite is_name_false by done];
    simpl; naive_solver.
Qed.

Lemma removed_back absolute B w A : kind w = CWK_BACK ->
  removed absolute B w A = absolute || bool_decide (pop (resolve false B) <> None).
Proof.
  intros E. unfold removed. rewrite E. destruct absolute; [done|]. simpl.
  rewrite rm_back_names. apply bool_decide_ext. rewrite <- names_0. lia.
Qed.

(** The segments of [C] that stay before [A] are the stack of [C] without the
    names that [A] drops. *)
Lemma kept_prune absolute C : forall A,
  kept absolute [] C A = reverse (prune_rev 0 (reverse (resolve absolute C)) A).
Proof.
  induction C as [|x C IH] using rev_ind; intros A; [done|].
  rewrite kept_snoc, IH, resolve_snoc. simpl. unfold push.
  destruct (kind x) eqn:E.
  - rewrite prune_rev_normal, reverse_snoc by done. simpl. rewrite E, reverse_app.
    unfold removed. rewrite E. by destruct (rm_normal 0 A).
  - rewrite prune_rev_current by done. unfold removed. by rewrite E, app_nil_r.
  - rewrite prune_rev_back_top, removed_back by done.
    destruct absolute; simpl; rewrite pop_reverse.
    + rewrite app_nil_r. destruct (reverse (resolve true C)) as [|w r] eqn:Er; simpl.
      { by rewrite ?Er. }
      case_decide as D; [by rewrite reverse_involutive|]. rewrite ?Er. simpl.
      by destruct (kind w).
    + destruct (reverse (resolve false C)) as [|w r] eqn:Er; simpl.
      { rewrite reverse_snoc, Er. simpl. by rewrite E. }
      case_decide as D.
      { rewrite bool_decide_eq_true_2, app_nil_r by done. by rewrite reverse_involutive. }
      rewrite bool_decide_eq_false_2 by naive_solver.
      rewrite reverse_snoc, Er. simpl. by rewrite E, <- reverse_cons.
Qed.

(** The code's per-segment criterion keeps exactly the resolved path. *)
Lemma visible_resolve absolute ws : visible absolute [] ws = resolve absolute ws.
Proof. by rewrite visible_kept, kept_prune, prune_rev_nil, reverse_involutive. Qed.
