(* ===== verification/CwalkIter.v ===== *)
(** * The segment iterators of the path library

    The iterators of src/kernel/libs/cwalk.c, in the UNIX style the kernel
    sets, walk the words of the paths: forwards, backwards and across the
    paths of a join.  [seg_at] says where a segment sits in its path, and
    [joined_at] lists the segments before and after it in the whole join. *)

From S2P Require Import Prelude CString Cwalk CwalkSpec.

Local Open Scope nat_scope.

Abbreviation UNIX := CWK_STYLE_UNIX.

(** The segment is [w], between [l] and [r] in the text it iterates over. *)
Record seg_at (seg : cwk_segment) (l w r : cstr) : Prop := {
  sa_text : drop (sg_segments seg) (sg_path seg) = l ++ w ++ r;
  sa_root : sg_segments seg <= length (sg_path seg);
  sa_begin : sg_begin seg = sg_segments seg + length l;
  sa_end : sg_end seg = sg_begin seg + length w;
  sa_size : sg_size seg = length w;
  sa_word : w <> [];
  sa_nosep : Forall (fun c => nosep c = true) w;
  sa_left : bounded_l l;
  sa_right : bounded_r r
}.

(** ** Reading *)

Lemma issep_0 : issep 0 = false.
Proof. reflexivity. Qed.

Lemma is_separator_drop s i c k : drop i s = c :: k ->
  cwk_path_is_separator UNIX s i = Ok (issep c).
Proof.
  intros E. unfold cwk_path_is_separator. rewrite (cget_drop _ _ _ _ E). simpl.
  by rewrite orb_false_r.
Qed.

Lemma is_separator_end s : cwk_path_is_separator UNIX s (length s) = Ok false.
Proof. unfold cwk_path_is_separator. by rewrite cget_end. Qed.

Lemma drop_app_shift {A} (s l r : list A) i : drop i s = l ++ r -> drop (i + length l) s = r.
Proof. intros E. rewrite <- drop_drop, E. by rewrite drop_app_length. Qed.

Lemma drop_nil_end {A} (s : list A) i : i <= length s -> drop i s = [] -> i = length s.
Proof. intros Hi H. apply (f_equal length) in H. rewrite length_drop in H. simpl in H. lia. Qed.

Lemma drop_app_len {A} (s l r : list A) i : i <= length s -> drop i s = l ++ r -> i + length l <= length s.
Proof.
  intros Hi E. apply (f_equal length) in E. rewrite length_drop, length_app in E. lia.
Qed.

(** ** Scanning forwards *)

Lemma find_next_stop_spec s : cstr_ok s -> forall fuel i w r,
  i <= length s -> drop i s = w ++ r -> Forall (fun c => nosep c = true) w -> bounded_r r ->
  length w < fuel -> find_next_stop_loop UNIX s i fuel = Ok (i + length w).
Proof.
  intros Hs. induction fuel as [|f IH]; intros i w r Hi E Hw Hr Hf; [lia|]. simpl.
  destruct w as [|c w].
  - rewrite Nat.add_0_r. simpl in E. destruct Hr as [->|(c & r' & -> & Hc)].
    + rewrite (cget_nil _ _ Hi E). simpl. done.
    + pose proof (cstr_ok_head _ _ _ _ Hs E).
      rewrite (cget_drop _ _ _ _ E), (is_separator_drop _ _ _ _ E), Hc. simpl.
      by rewrite decide_False by lia.
  - cbn [app] in E.
    pose proof (cstr_ok_head _ _ _ _ Hs E). apply Forall_cons in Hw as [Hc Hw].
    unfold nosep in Hc. rewrite negb_true_iff in Hc.
    rewrite (cget_drop _ _ _ _ E), (is_separator_drop _ _ _ _ E), Hc. simpl.
    rewrite decide_False by lia. destruct (drop_cons_lookup _ _ _ _ E) as [Hlt E'].
    rewrite (IH (S i) w r); simpl in *; try done; try lia. f_equal. lia.
Qed.

Lemma find_next_stop_Ok s i w r : cstr_ok s ->
  i <= length s -> drop i s = w ++ r -> Forall (fun c => nosep c = true) w -> bounded_r r ->
  cwk_path_find_next_stop UNIX s i = Ok (i + length w).
Proof.
  intros Hs Hi E Hw Hr. eapply find_next_stop_spec; try done.
  pose proof (drop_app_len _ _ _ _ Hi E). lia.
Qed.

(** The separators at the front of a text, the word after them and the rest. *)
Lemma split_text (l : cstr) : exists k w r,
  l = k ++ w ++ r /\ Forall (fun c => issep c = true) k /\
  Forall (fun c => nosep c = true) w /\ bounded_r r /\ (w = [] -> r = []).
Proof.
  exists (takeWhile issep l), (takeWhile nosep (dropWhile issep l)),
    (dropWhile nosep (dropWhile issep l)).
  rewrite !takeWhile_dropWhile. split_and!; auto using takeWhile_all.
  - unfold bounded_r. destruct (dropWhile nosep (dropWhile issep l)) as [|c r] eqn:E; [by left|].
    right. exists c, r. split; [done|]. apply dropWhile_head in E.
    unfold nosep in E. by rewrite negb_false_iff in E.
  - destruct (dropWhile issep l) as [|c r] eqn:E; [done|].
    apply dropWhile_head in E. simpl. unfold nosep. by rewrite E.
Qed.

Lemma skip_separators_spec s : cstr_ok s -> forall fuel i k t,
  i <= length s -> drop i s = k ++ t -> Forall (fun c => issep c = true) k ->
  (forall c t', t = c :: t' -> issep c = false) -> length k < fuel -> k ++ t <> [] ->
  skip_separators UNIX s i fuel
    = Ok (match t with [] => None | _ => Some (i + length k) end).
Proof.
  intros Hs. induction fuel as [|f IH]; intros i k t Hi E Hk Ht Hf Hne; [lia|]. simpl.
  destruct k as [|c k].
  - destruct t as [|c t]; [done|]. simpl in E.
    rewrite (is_separator_drop _ _ _ _ E), (Ht c t) by done. simpl. by rewrite Nat.add_0_r.
  - cbn [app] in E. apply Forall_cons in Hk as [Hc Hk].
    rewrite (is_separator_drop _ _ _ _ E), Hc. simpl.
    destruct (drop_cons_lookup _ _ _ _ E) as [Hlt E'].
    destruct (cget_cases s (S i)) as [(d & u & E2 & -> & L)|(E2 & -> & L)]; [lia| |]; simpl.
    + pose proof (cstr_ok_head _ _ _ _ Hs E2). rewrite decide_False by lia.
      rewrite (IH (S i) k t Hlt E' Hk Ht); [|simpl in Hf; lia|rewrite <- E'; congruence].
      by rewrite <- Nat.add_succ_comm.
    + rewrite E2 in E'. symmetry in E'. apply app_eq_nil in E' as [-> ->]. done.
Qed.

Lemma skip_separators_from_spec s : forall fuel i k t,
  S i <= length s -> drop (S i) s = k ++ t -> Forall (fun c => issep c = true) k ->
  (forall c t', t = c :: t' -> issep c = false) -> length k < fuel ->
  skip_separators_from UNIX s i fuel = Ok (S i + length k).
Proof.
  induction fuel as [|f IH]; intros i k t Hi E Hk Ht Hf; [lia|]. cbn [skip_separators_from].
  destruct k as [|c k].
  - rewrite Nat.add_0_r. destruct t as [|c t].
    + by rewrite (drop_nil_end _ _ Hi E), is_separator_end.
    + rewrite (is_separator_drop _ _ _ _ E), (Ht c t) by done. done.
  - cbn [app] in E. apply Forall_cons in Hk as [Hc Hk].
    rewrite (is_separator_drop _ _ _ _ E), Hc. simpl.
    destruct (drop_cons_lookup _ _ _ _ E) as [Hlt E'].
    rewrite (IH (S i) k t); simpl in *; try done; try lia. f_equal. lia.
Qed.

Lemma nosep_head w r : Forall (fun c => nosep c = true) w -> (w = [] -> r = []) ->
  forall c t', w ++ r = c :: t' -> issep c = false.
Proof.
  intros Hw He c t' E. destruct w as [|d w]; [rewrite He in E by done; done|].
  injection E as -> _. apply Forall_cons in Hw as [Hc _]. unfold nosep in Hc.
  by rewrite negb_true_iff in Hc.
Qed.

(** ** First, next and previous segment *)

Lemma first_segment_spec s st : cstr_ok s -> st <= length s ->
  match words (drop st s) with
  | [] => exists seg, cwk_path_get_first_segment_without_root UNIX s st = Ok (false, seg) /\
            sg_size seg = 0 /\ sg_path seg = s /\ sg_begin seg = st
  | w :: A => exists seg l r,
      cwk_path_get_first_segment_without_root UNIX s st = Ok (true, seg) /\
      sg_path seg = s /\ sg_segments seg = st /\ seg_at seg l w r /\
      words l = [] /\ words r = A
  end.
Proof.
  intros Hs Hst. destruct (split_text (drop st s)) as (k & w & r & E & Hk & Hw & Hr & He).
  unfold cwk_path_get_first_segment_without_root.
  destruct (cget_cases s st Hst) as [(c & t & Ec & -> & L)|(Ec & -> & L)]; cbn [bind].
  2:{ rewrite Ec. simpl. eexists. split; [done|]. done. }
  pose proof (cstr_ok_head _ _ _ _ Hs Ec). rewrite decide_False by lia.
  rewrite (skip_separators_spec s Hs (S (length s)) st k (w ++ r));
    [|done..|by apply nosep_head|pose proof (drop_app_len _ _ _ _ Hst E); lia|by rewrite <- E, Ec].
  cbn [bind]. rewrite E, words_seps by done.
  destruct w as [|d w]; [rewrite He by done; simpl; by eexists|].
  rewrite (words_word_r (d :: w) r) by done. cbn [app].
  assert (st + length k <= length s) as Hl by by eapply drop_app_len.
  pose proof (drop_app_shift _ _ _ _ E) as E'.
  rewrite (find_next_stop_Ok s _ (d :: w) r Hs Hl E' Hw Hr). cbn [bind].
  eexists _, k, r. split; [done|]. split_and!; try done.
  - split; simpl; try done; try lia.
    destruct k as [|b k _] using rev_ind; [by left|]. right.
    apply Forall_app in Hk as [_ Hb]. inversion Hb. eauto.
  - by apply words_all_seps.
Qed.

Lemma next_segment_spec seg l w r : cstr_ok (sg_path seg) -> seg_at seg l w r ->
  match words r with
  | [] => cwk_path_get_next_segment UNIX seg = Ok (false, seg)
  | w' :: A => exists seg' l' r',
      cwk_path_get_next_segment UNIX seg = Ok (true, seg') /\
      sg_path seg' = sg_path seg /\ sg_segments seg' = sg_segments seg /\
      seg_at seg' l' w' r' /\ words l' = words l ++ [w] /\ words r' = A
  end.
Proof.
  intros Hs [Et Hrt Hb Hend Hsz Hne Hns Hl Hr].
  unfold cwk_path_get_next_segment. rewrite Hsz, Hb.
  assert (drop (sg_segments seg + length l + length w) (sg_path seg) = r) as Er.
  { rewrite <- Nat.add_assoc, <- length_app. apply drop_app_shift. by rewrite <- app_assoc. }
  assert (sg_segments seg + length l + length w <= length (sg_path seg)) as Hlen.
  { rewrite app_assoc in Et. pose proof (drop_app_len _ _ _ _ Hrt Et) as H.
    rewrite length_app in H. lia. }
  set (e := sg_segments seg + length l + length w) in *.
  destruct Hr as [->|(c & r0 & -> & Hc)].
  { by rewrite (cget_nil _ _ Hlen Er). }
  pose proof (cstr_ok_head _ _ _ _ Hs Er).
  rewrite (cget_drop _ _ _ _ Er), (is_separator_drop _ _ _ _ Er), Hc. cbn [bind assert].
  rewrite decide_False by lia. destruct (drop_cons_lookup _ _ _ _ Er) as [He1 E0].
  destruct (split_text r0) as (k & w' & r' & -> & Hk & Hw' & Hr' & He).
  rewrite (skip_separators_from_spec _ _ e k (w' ++ r')); [|done..|by apply nosep_head|].
  2:{ pose proof (drop_app_len _ _ _ _ He1 E0). lia. }
  cbn [bind]. pose proof (drop_app_shift _ _ _ _ E0) as E1.
  pose proof (drop_app_len _ _ _ _ He1 E0) as Hl1.
  rewrite words_sep, words_seps by done.
  destruct w' as [|d w'].
  { rewrite He in E1 |- * by done. by rewrite (cget_nil _ _ Hl1 E1). }
  pose proof (cstr_ok_head _ _ _ _ Hs E1).
  rewrite (cget_drop _ _ _ _ E1). cbn [bind]. rewrite decide_False by lia.
  rewrite (find_next_stop_Ok _ _ (d :: w') r' Hs Hl1 E1 Hw' Hr'). cbn [bind].
  rewrite (words_word_r (d :: w') r') by done.
  eexists _, (l ++ w ++ c :: k), r'. split; [done|]. split_and!; try done.
  - split; cbn [sg_path sg_segments sg_begin sg_end sg_size]; try done; try lia.
    + by rewrite Et, <- !app_assoc.
    + rewrite !length_app. simpl. lia.
    + right. destruct k as [|b k _] using rev_ind.
      * exists (l ++ w), c. by rewrite <- app_assoc.
      * exists (l ++ w ++ c :: k), b. rewrite <- !app_assoc. split; [done|].
        apply Forall_app in Hk as [_ Hb']. by inversion Hb'.
  - rewrite app_assoc, words_app by done.
    rewrite (words_all_seps k), app_nil_r by done. by apply words_word_l.
Qed.

(** The separators at the end of a text, the word before them and the rest. *)
Lemma split_text_back (l : cstr) : exists l' w k,
  l = l' ++ w ++ k /\ Forall (fun c => issep c = true) k /\
  Forall (fun c => nosep c = true) w /\ bounded_l l' /\ (w = [] -> l' = []).
Proof.
  destruct (split_text (reverse l)) as (k & w & r & E & Hk & Hw & Hr & He).
  exists (reverse r), (reverse w), (reverse k). split_and!.
  - rewrite <- (reverse_involutive l), E, !reverse_app. by rewrite <- app_assoc.
  - by apply Forall_reverse.
  - by apply Forall_reverse.
  - destruct Hr as [->|(c & r' & -> & Hc)]; [by left|]. right.
    exists (reverse r'), c. by rewrite reverse_cons.
  - intros H. apply (f_equal reverse) in H. rewrite reverse_involutive in H.
    by rewrite (He H).
Qed.

Lemma drop_app_point {A} (s l r : list A) i : i <= length s -> drop i s = l ++ r ->
  forall l1 c l2, l = l1 ++ c :: l2 -> drop (i + length l1) s = c :: l2 ++ r.
Proof.
  intros Hi E l1 c l2 ->. rewrite <- drop_drop, E, <- app_assoc. by rewrite drop_app_length.
Qed.

Lemma skip_separators_back_spec s st t : forall k l,
  st <= length s -> drop st s = l ++ k ++ t -> Forall (fun c => issep c = true) k ->
  (forall l' c, l = l' ++ [c] -> issep c = false) ->
  skip_separators_back UNIX s st (st + length l + length k)
    = Ok (match l with [] => None | _ => Some (st + length l - 1) end).
Proof.
  intros k l Hst. revert t. induction k as [|c k IH] using rev_ind; intros t E Hk Hl.
  - rewrite Nat.add_0_r. destruct l as [|c l _] using rev_ind.
    + rewrite Nat.add_0_r. destruct st as [|st']; [done|]. simpl. by rewrite decide_True by lia.
    + rewrite length_app. cbn [length]. replace (st + (length l + 1)) with (S (st + length l)) by lia.
      simpl. rewrite decide_False by lia.
      simpl in E. rewrite (is_separator_drop _ _ c t).
      2:{ rewrite <- app_assoc in E. by apply drop_app_shift. }
      rewrite (Hl l c) by done. simpl. destruct (l ++ [c]) eqn:E2; [by destruct l|].
      f_equal. f_equal. lia.
  - rewrite length_app. cbn [length].
    replace (st + length l + (length k + 1)) with (S (st + length l + length k)) by lia.
    cbn [skip_separators_back]. rewrite decide_False by lia.
    apply Forall_app in Hk as [Hk Hc]. inversion Hc as [|? ? Hc1]; subst.
    rewrite (is_separator_drop _ _ c t).
    2:{ rewrite <- Nat.add_assoc, <- length_app. apply drop_app_shift.
        rewrite E. by rewrite <- !app_assoc. }
    rewrite Hc1. cbn [bind]. apply (IH (c :: t)); [|done..].
    rewrite E. by rewrite <- !app_assoc.
Qed.

(** Walking back inside a word stops at its first character, or at the
    separator before it. *)
Lemma find_previous_stop_loop_spec s st t w l :
  st <= length s -> drop st s = l ++ w ++ t ->
  Forall (fun c => nosep c = true) w -> bounded_l l -> forall n, n < length w ->
  find_previous_stop_loop UNIX s st (st + length l + n)
    = Ok (st + length l - (match l with [] => 0 | _ => 1 end)).
Proof.
  intros Hst E Hw Hl. induction n as [|n IH]; intros Hn.
  - rewrite Nat.add_0_r. destruct Hl as [->|(l' & c & -> & Hc)].
    + rewrite Nat.add_0_r, Nat.sub_0_r. destruct st; simpl; [done|].
      by rewrite decide_False by lia.
    + destruct w as [|d w]; [simpl in Hn; lia|]. apply Forall_cons in Hw as [Hd _].
      pose proof (drop_app_shift _ _ _ _ E) as Ed. rewrite length_app in *. cbn [length] in *.
      replace (st + (length l' + 1)) with (S (st + length l')) in * by lia.
      cbn [find_previous_stop_loop]. rewrite decide_True by lia.
      rewrite (is_separator_drop _ _ d (w ++ t)) by done.
      unfold nosep in Hd. rewrite negb_true_iff in Hd. rewrite Hd. cbn [bind].
      assert (cwk_path_is_separator UNIX s (st + length l') = Ok true) as Hs1.
      { erewrite is_separator_drop; [by rewrite Hc|].
        rewrite <- app_assoc in E. by apply drop_app_shift in E. }
      destruct (l' ++ [c]) eqn:E2; [by destruct l'|].
      replace (S (st + length l') - 1) with (st + length l') by lia.
      destruct (st + length l') as [|m] eqn:Em; cbn [find_previous_stop_loop];
        (case_decide; [|done]); by rewrite Hs1.
  - destruct (lookup_lt_is_Some_2 w (S n) Hn) as [d Hd].
    assert (nosep d = true) as Hd' by (by eapply Forall_lookup_1 in Hw).
    rewrite Nat.add_succ_r. cbn [find_previous_stop_loop]. rewrite decide_True by lia.
    erewrite is_separator_drop.
    2:{ replace (S (st + length l + n)) with (st + (length l + S n)) by lia.
        rewrite <- drop_drop, E, drop_app_add.
        rewrite drop_app_le by lia. by rewrite (drop_S _ _ _ Hd). }
    unfold nosep in Hd'. rewrite negb_true_iff in Hd'. rewrite Hd'. cbn [bind].
    apply IH. lia.
Qed.

Lemma find_previous_stop_spec s st t w l :
  st <= length s -> drop st s = l ++ w ++ t -> w <> [] ->
  Forall (fun c => nosep c = true) w -> bounded_l l ->
  cwk_path_find_previous_stop UNIX s st (st + length l + length w - 1) = Ok (st + length l).
Proof.
  intros Hst E Hne Hw Hl. unfold cwk_path_find_previous_stop.
  assert (0 < length w) by (destruct w; simpl; [done|lia]).
  replace (st + length l + length w - 1) with (st + length l + (length w - 1)) by lia.
  rewrite (find_previous_stop_loop_spec s st t w) by (done || lia).
  cbn [bind]. destruct Hl as [->|(l' & c & -> & Hc)].
  - rewrite Nat.sub_0_r, Nat.add_0_r. destruct w as [|d w]; [done|].
    apply Forall_cons in Hw as [Hd _]. unfold nosep in Hd. rewrite negb_true_iff in Hd.
    simpl in E. by rewrite (is_separator_drop _ _ _ _ E), Hd.
  - destruct (l' ++ [c]) eqn:E2; [by destruct l'|]. rewrite <- E2 in *.
    erewrite is_separator_drop.
    2:{ rewrite <- app_assoc in E. rewrite length_app. cbn [length].
        replace (st + (length l' + 1) - 1) with (st + length l') by lia.
        by apply drop_app_shift in E. }
    rewrite Hc. cbn [bind]. f_equal. rewrite length_app. simpl. lia.
Qed.

Lemma previous_segment_spec seg l w r : seg_at seg l w r ->
  match reverse (words l) with
  | [] => cwk_path_get_previous_segment UNIX seg = Ok (false, seg)
  | w' :: R => exists seg' l' r',
      cwk_path_get_previous_segment UNIX seg = Ok (true, seg') /\
      sg_path seg' = sg_path seg /\ sg_segments seg' = sg_segments seg /\
      seg_at seg' l' w' r' /\ words l' = reverse R /\ words r' = w :: words r
  end.
Proof.
  intros [Et Hrt Hb Hend Hsz Hne Hns Hl Hr].
  unfold cwk_path_get_previous_segment. rewrite Hb.
  destruct (split_text_back l) as (l' & w1 & k & -> & Hk & Hw1 & Hl' & He).
  rewrite (app_assoc l'), words_seps_r by done.
  assert (forall l0 c, l' ++ w1 = l0 ++ [c] -> issep c = false) as Hlast.
  { intros l0 c E. destruct w1 as [|d w1 _] using rev_ind; [by rewrite He in E by done; destruct l0|].
    rewrite app_assoc in E. apply app_inj_tail in E as [_ <-].
    apply Forall_app in Hw1 as [_ Hd]. inversion Hd as [|? ? Hd1]; subst.
    unfold nosep in Hd1. by rewrite negb_true_iff in Hd1. }
  assert (drop (sg_segments seg) (sg_path seg) = (l' ++ w1) ++ k ++ w ++ r) as Et'
    by (by rewrite Et, <- !app_assoc).
  pose proof (skip_separators_back_spec _ _ _ k (l' ++ w1) Hrt Et' Hk Hlast) as Hskip.
  rewrite (length_app _ k), Nat.add_assoc, Hskip.
  destruct w1 as [|d w1].
  { rewrite He by done. change (words ([] ++ [])) with (@nil cstr). simpl. by case_decide. }
  rewrite words_word_l, reverse_snoc by done.
  rewrite decide_False by (rewrite length_app; simpl; lia).
  destruct (l' ++ d :: w1) eqn:E2; [by destruct l'|]. rewrite <- E2 in *. cbn [bind].
  rewrite length_app, Nat.add_assoc.
  rewrite (find_previous_stop_spec _ _ (k ++ w ++ r) (d :: w1) l') by
    (done || by rewrite Et', <- app_assoc).
  cbn [bind]. eexists _, l', (k ++ w ++ r). split; [done|]. split_and!; try done.
  - split; cbn [sg_path sg_segments sg_begin sg_end sg_size]; try done; try (simpl; lia).
    + by rewrite Et', <- app_assoc.
    + destruct k as [|c k]; [|right; apply Forall_cons in Hk as [? _]; eauto].
      exfalso. rewrite app_nil_r in Hl. destruct Hl as [Hl|(l0 & c & Hl & Hc)].
      * by rewrite E2 in Hl.
      * by rewrite (Hlast l0 c Hl) in Hc.
  - by rewrite reverse_involutive.
  - rewrite words_seps by done. by apply words_word_r.
Qed.

(** ** Last segment and root *)

Lemma length_words l : length (words l) <= length l.
Proof.
  unfold words. induction l as [|c l IH]; [done|]. cbn [fields length].
  destruct (issep c); [rewrite filter_cons_False by auto; lia|].
  destruct (fields_cons l) as (f & fs & E). rewrite E in *.
  rewrite filter_cons_True by done. cbn [length].
  destruct f; [rewrite filter_cons_False in IH by auto|rewrite filter_cons_True in IH by done];
    cbn [length] in *; lia.
Qed.

Lemma last_segment_spec fuel : forall seg l w r,
  cstr_ok (sg_path seg) -> seg_at seg l w r -> length (words r) < fuel ->
  exists seg' l' w' r', last_segment_loop UNIX seg fuel = Ok seg' /\
    sg_path seg' = sg_path seg /\ sg_segments seg' = sg_segments seg /\
    seg_at seg' l' w' r' /\ words r' = [] /\ words l' ++ [w'] = words l ++ w :: words r.
Proof.
  induction fuel as [|f IH]; intros seg l w r Hs Hat Hf; [lia|]. cbn [last_segment_loop].
  pose proof (next_segment_spec _ _ _ _ Hs Hat) as Hn.
  destruct (words r) as [|w1 A] eqn:Er.
  - rewrite Hn. cbn [bind]. by exists seg, l, w, r.
  - destruct Hn as (seg1 & l1 & r1 & -> & Hp & Hsg & Hat1 & Hl1 & Hr1). cbn [bind].
    destruct (IH seg1 l1 w1 r1) as (seg' & l' & w' & r' & -> & Hp' & Hs' & Hat' & Hr' & Hl').
    + by rewrite Hp.
    + done.
    + rewrite Hr1. simpl in Hf. lia.
    + exists seg', l', w', r'. split_and!; try done; try congruence.
      rewrite Hl', Hl1, Hr1, <- app_assoc. done.
Qed.

Lemma seg_at_words_r seg l w r : seg_at seg l w r -> length (words r) < S (length (sg_path seg)).
Proof.
  intros Hat. pose proof (length_words r). pose proof (sa_text _ _ _ _ Hat) as E.
  apply (f_equal length) in E. rewrite length_drop, !length_app in E. lia.
Qed.

Lemma get_root_unix s : cwk_path_get_root UNIX s = Ok (if is_abs s then 1 else 0).
Proof.
  unfold cwk_path_get_root, cwk_path_get_root_unix. destruct s as [|c s]; [done|].
  by rewrite (is_separator_drop (c :: s) 0 c s).
Qed.

Lemma words_root s : words (drop (if is_abs s then 1 else 0) s) = words s.
Proof. destruct s as [|c s]; [done|]. simpl. destruct (issep c) eqn:E; [by rewrite words_sep|done]. Qed.

Lemma root_le s : (if is_abs s then 1 else 0) <= length s.
Proof. destruct s as [|c s]; simpl; [lia|]. destruct (issep c); lia. Qed.

Lemma is_root_absolute_unix s :
  cwk_path_is_root_absolute UNIX s (if is_abs s then 1 else 0) = Ok (is_abs s).
Proof.
  destruct s as [|c s]; [done|]. simpl. destruct (issep c) eqn:E; [|done]. simpl.
  by rewrite (is_separator_drop (c :: s) 0 c s), E.
Qed.

Lemma is_absolute_unix s : cwk_path_is_absolute UNIX s = Ok (is_abs s).
Proof. unfold cwk_path_is_absolute. rewrite get_root_unix. cbn [bind]. apply is_root_absolute_unix. Qed.

(** ** Joined paths *)

Lemma words_around l w r : w <> [] -> Forall (fun c => nosep c = true) w ->
  bounded_l l -> bounded_r r -> words (l ++ w ++ r) = words l ++ w :: words r.
Proof.
  intros Hne Hw [->|(l' & c & -> & Hc)] Hr; [exact (words_word_r w r Hne Hw Hr)|].
  rewrite <- app_assoc. simpl. rewrite words_app by done.
  rewrite words_word_r by done. f_equal. symmetry.
  rewrite (words_app l' c []) by done. by rewrite app_nil_r.
Qed.

(** In the join of [paths], [B] are the segments before the current one, [w],
    and [A] those after it. *)
Record joined_at (paths : list cstr) (sj : cwk_segment_joined)
    (B : list cstr) (w : cstr) (A : list cstr) : Prop := {
  ja_paths : sj_paths sj = paths;
  ja_seg : exists p l r,
    paths !! sj_path_index sj = Some p /\ sg_path (sj_segment sj) = p /\
    Forall (fun c => issep c = true) (take (sg_segments (sj_segment sj)) p) /\
    seg_at (sj_segment sj) l w r /\
    B = all_words (take (sj_path_index sj) paths) ++ words l /\
    A = words r ++ all_words (drop (S (sj_path_index sj)) paths)
}.

(** The iterator is past the last path. *)
Definition joined_done (paths : list cstr) (sj : cwk_segment_joined) : Prop :=
  sj_paths sj = paths /\ sj_path_index sj = length paths.

Section joined.
Variable paths : list cstr.
Hypothesis Hpaths : Forall cstr_ok paths.

Lemma pget_lt i p : paths !! i = Some p -> pget paths i = Ok (Some p).
Proof.
  intros H. unfold pget. rewrite decide_True by (by eapply lookup_lt_Some). by rewrite H.
Qed.

Lemma pget_end : pget paths (length paths) = Ok None.
Proof. unfold pget. rewrite decide_False by lia. by rewrite decide_True. Qed.

Lemma all_words_take_S i p : paths !! i = Some p ->
  all_words (take (S i) paths) = all_words (take i paths) ++ words p.
Proof.
  intros H. rewrite (take_S_r _ _ _ H), all_words_app. f_equal. apply app_nil_r.
Qed.

Lemma all_words_drop i p : paths !! i = Some p ->
  all_words (drop i paths) = words p ++ all_words (drop (S i) paths).
Proof. intros H. by rewrite (drop_S _ _ _ H), all_words_cons. Qed.

Lemma path_ok i p : paths !! i = Some p -> cstr_ok p.
Proof. intros. by eapply Forall_lookup_1 in Hpaths. Qed.

(** All the words of the path of the current segment. *)
Lemma seg_at_path seg l w r p : seg_at seg l w r -> sg_path seg = p ->
  Forall (fun c => issep c = true) (take (sg_segments seg) p) ->
  words p = words l ++ w :: words r.
Proof.
  intros [Et Hrt _ _ _ Hne Hns Hl Hr] <- Hsep.
  rewrite <- (take_drop (sg_segments seg) (sg_path seg)) at 1.
  rewrite words_seps, Et by done. by apply words_around.
Qed.

Lemma next_joined_loop_spec fuel : forall sj,
  sj_paths sj = paths -> sj_path_index sj < length paths ->
  length paths - sj_path_index sj <= fuel ->
  match all_words (drop (S (sj_path_index sj)) paths) with
  | [] => exists sj', next_segment_joined_loop UNIX sj fuel = Ok (false, sj') /\
            joined_done paths sj'
  | a :: A => exists sj', next_segment_joined_loop UNIX sj fuel = Ok (true, sj') /\
      joined_at paths sj' (all_words (take (S (sj_path_index sj)) paths)) a A
  end.
Proof.
  induction fuel as [|f IH]; intros sj Hp Hi Hf; [lia|]. cbn [next_segment_joined_loop].
  rewrite Hp. destruct (decide (S (sj_path_index sj) = length paths)) as [He|Hne].
  { rewrite He, pget_end, drop_ge by lia. cbn [bind all_words]. simpl. eauto using eq_refl.
    eexists. split; [done|]. by split. }
  destruct (lookup_lt_is_Some_2 paths (S (sj_path_index sj))) as [p Hpi]; [lia|].
  rewrite (pget_lt _ _ Hpi), (all_words_drop _ _ Hpi). cbn [bind].
  pose proof (first_segment_spec p 0 (path_ok _ _ Hpi) ltac:(lia)) as Hfs.
  rewrite drop_0 in Hfs. destruct (words p) as [|w A] eqn:Ew.
  - destruct Hfs as (seg & -> & _). cbn [bind app].
    specialize (IH (mk_joined seg paths (S (sj_path_index sj)))).
    cbn [sj_paths sj_path_index] in IH. rewrite (all_words_take_S _ _ Hpi), Ew, app_nil_r in IH.
    apply IH; [done|lia..].
  - destruct Hfs as (seg & l & r & -> & Hsp & Hss & Hat & Hl & Hr). cbn [bind app].
    eexists. split; [done|]. split; [done|]. cbn [sj_segment sj_path_index].
    exists p, l, r. rewrite Hss, Hl, Hr, app_nil_r. by split_and!.
Qed.

Lemma next_joined_spec sj B w A : joined_at paths sj B w A ->
  match A with
  | [] => exists sj', cwk_path_get_next_segment_joined UNIX sj = Ok (false, sj') /\
            joined_done paths sj'
  | a :: A' => exists sj', cwk_path_get_next_segment_joined UNIX sj = Ok (true, sj') /\
      joined_at paths sj' (B ++ [w]) a A'
  end.
Proof.
  intros [Hp (p & l & r & Hpi & Hsp & Hsep & Hat & -> & ->)].
  unfold cwk_path_get_next_segment_joined. rewrite Hp, (pget_lt _ _ Hpi). cbn [bind].
  assert (cstr_ok (sg_path (sj_segment sj))) as Hok by (rewrite Hsp; by eapply path_ok).
  pose proof (next_segment_spec _ _ _ _ Hok Hat) as Hn.
  destruct (words r) as [|w' A'] eqn:Er.
  - rewrite Hn. cbn [bind app].
    pose proof (next_joined_loop_spec (S (length paths))
      (mk_joined (sj_segment sj) paths (sj_path_index sj))) as Hloop.
    cbn [sj_paths sj_path_index] in Hloop.
    specialize (Hloop eq_refl (lookup_lt_Some _ _ _ Hpi) ltac:(lia)).
    rewrite (all_words_take_S _ _ Hpi), (seg_at_path _ _ _ _ _ Hat Hsp Hsep), Er in Hloop.
    by rewrite <- app_assoc.
  - destruct Hn as (seg' & l' & r' & -> & Hp' & Hs' & Hat' & Hl' & Hr'). cbn [bind app].
    eexists. split; [done|]. split; [done|]. cbn [sj_segment sj_path_index].
    exists p, l', r'. rewrite Hs', Hp', Hl', Hr'. split_and!; try done.
    by rewrite app_assoc.
Qed.

(** The last segment of one of the paths, with or without its root. *)
Lemma last_segment_of p st : cstr_ok p -> st <= length p ->
  Forall (fun c => issep c = true) (take st p) ->
  match reverse (words p) with
  | [] => exists seg, cwk_path_get_first_segment_without_root UNIX p st = Ok (false, seg)
  | w :: R => exists seg0 seg l r,
      cwk_path_get_first_segment_without_root UNIX p st = Ok (true, seg0) /\
      last_segment_loop UNIX seg0 (S (length p)) = Ok seg /\
      sg_path seg = p /\ sg_segments seg = st /\
      seg_at seg l w r /\ words r = [] /\ words l = reverse R
  end.
Proof.
  intros Hok Hst Hsep. pose proof (first_segment_spec p st Hok Hst) as Hf.
  assert (words (drop st p) = words p) as Hw
    by (rewrite <- (take_drop st p) at 2; by rewrite words_seps).
  rewrite Hw in Hf. destruct (words p) as [|w0 A0] eqn:Ew.
  { destruct Hf as (seg & -> & _). by exists seg. }
  destruct Hf as (seg0 & l0 & r0 & -> & Hp0 & Hs0 & Hat0 & Hl0 & Hr0).
  pose proof (seg_at_words_r _ _ _ _ Hat0) as Hfuel.
  destruct (last_segment_spec (S (length p)) seg0 l0 w0 r0)
    as (seg & l & w & r & Hlast & Hp & Hs & Hat & Hr & Hl); [by rewrite Hp0|done|by rewrite Hp0 in Hfuel|].
  rewrite Hl0, Hr0 in Hl. simpl in Hl. rewrite <- Hl, reverse_snoc.
  exists seg0, seg, l, r. split_and!; try done; try congruence.
  by rewrite reverse_involutive.
Qed.

Lemma previous_joined_loop_spec i : forall sj,
  sj_paths sj = paths -> i <= length paths ->
  match reverse (all_words (take i paths)) with
  | [] => exists sj', previous_segment_joined_loop UNIX sj i = Ok (false, sj')
  | w :: R => exists sj', previous_segment_joined_loop UNIX sj i = Ok (true, sj') /\
      joined_at paths sj' (reverse R) w (all_words (drop i paths))
  end.
Proof.
  induction i as [|i IH]; intros sj Hp Hi; cbn [previous_segment_joined_loop].
  { rewrite take_0. by exists sj. }
  destruct (lookup_lt_is_Some_2 paths i) as [p Hpi]; [lia|].
  rewrite Hp, (pget_lt _ _ Hpi). cbn [bind nonnull].
  rewrite (all_words_take_S _ _ Hpi), reverse_app.
  set (st := match i with O => if is_abs p then 1 else 0 | S _ => 0 end).
  assert (Forall (fun c => issep c = true) (take st p)) as Hsep.
  { subst st. destruct i; [|by rewrite take_0]. destruct p as [|c p]; [done|].
    simpl. destruct (issep c) eqn:E; simpl; auto. }
  assert (st <= length p) as Hst by (subst st; destruct i; [apply root_le|lia]).
  pose proof (last_segment_of p st (path_ok _ _ Hpi) Hst Hsep) as Hlast.
  assert ((match i with O => cwk_path_get_last_segment UNIX p
           | S _ => cwk_path_get_last_segment_without_root UNIX p end)
          = (let* '(r, seg) := cwk_path_get_first_segment_without_root UNIX p st in
             if (r : bool) then
               let* seg' := last_segment_loop UNIX seg (S (length p)) in Ok (true, seg')
             else Ok (false, seg))) as ->.
  { subst st. destruct i; [|done].
    unfold cwk_path_get_last_segment, cwk_path_get_first_segment. by rewrite get_root_unix. }
  rewrite (all_words_drop _ _ Hpi) in IH.
  destruct (reverse (words p)) as [|w R] eqn:Erev.
  - assert (words p = []) as Ew by (by apply (f_equal reverse) in Erev; rewrite reverse_involutive in Erev).
    destruct Hlast as (seg & ->). cbn [bind app]. rewrite Ew in IH.
    exact (IH (mk_joined seg paths i) eq_refl ltac:(lia)).
  - destruct Hlast as (seg0 & seg & l & r & -> & Hl0 & Hpath & Hss & Hat & Hr & Hl).
    cbn [bind app]. rewrite Hl0. cbn [bind].
    eexists. split; [done|]. split; [done|]. cbn [sj_segment sj_path_index].
    exists p, l, r. rewrite Hss, Hpath, Hr. split_and!; try done.
    by rewrite reverse_app, reverse_involutive, Hl.
Qed.

Lemma previous_joined_spec sj B w A : joined_at paths sj B w A ->
  match reverse B with
  | [] => exists sj', cwk_path_get_previous_segment_joined UNIX sj = Ok (false, sj')
  | b :: R => exists sj', cwk_path_get_previous_segment_joined UNIX sj = Ok (true, sj') /\
      joined_at paths sj' (reverse R) b (w :: A)
  end.
Proof.
  intros [Hp (p & l & r & Hpi & Hsp & Hsep & Hat & -> & ->)].
  unfold cwk_path_get_previous_segment_joined. rewrite Hp.
  destruct (lookup_lt_is_Some_2 paths 0) as [p0 Hp0].
  { pose proof (lookup_lt_Some _ _ _ Hpi). lia. }
  rewrite (pget_lt _ _ Hp0). cbn [bind].
  pose proof (previous_segment_spec _ _ _ _ Hat) as Hn. rewrite reverse_app.
  destruct (reverse (words l)) as [|w' R] eqn:Er.
  - rewrite Hn. cbn [bind app sj_path_index].
    assert (words l = []) as El by (by apply (f_equal reverse) in Er; rewrite reverse_involutive in Er).
    pose proof (previous_joined_loop_spec (sj_path_index sj)
      (mk_joined (sj_segment sj) paths (sj_path_index sj)) eq_refl) as Hloop.
    specialize (Hloop ltac:(pose proof (lookup_lt_Some _ _ _ Hpi); lia)).
    rewrite (all_words_drop _ _ Hpi), (seg_at_path _ _ _ _ _ Hat Hsp Hsep), El in Hloop.
    exact Hloop.
  - destruct Hn as (seg' & l' & r' & -> & Hp' & Hs' & Hat' & Hl' & Hr'). cbn [bind app].
    eexists. split; [done|]. split; [done|]. cbn [sj_segment sj_path_index].
    exists p, l', r'. rewrite Hs', Hp', Hl', Hr'. split_and!; try done.
    by rewrite reverse_app, reverse_involutive.
Qed.

Lemma first_joined_loop_spec fuel : forall sj,
  sj_paths sj = paths -> sj_path_index sj <= length paths ->
  all_words (take (sj_path_index sj) paths) = [] -> sg_size (sj_segment sj) = 0 ->
  length paths - sj_path_index sj < fuel ->
  match all_words (drop (sj_path_index sj) paths) with
  | [] => exists sj', first_segment_joined_loop UNIX sj fuel = Ok (false, sj') /\
            joined_done paths sj' /\ sg_size (sj_segment sj') = 0
  | w :: A => exists sj', first_segment_joined_loop UNIX sj fuel = Ok (true, sj') /\
      joined_at paths sj' [] w A
  end.
Proof.
  induction fuel as [|f IH]; intros sj Hp Hi Ht Hsz Hf; [lia|]. cbn [first_segment_joined_loop].
  rewrite Hp. destruct (decide (sj_path_index sj = length paths)) as [He|Hne].
  { rewrite He, pget_end, drop_ge by lia. cbn [bind].
    exists sj. by split_and!. }
  destruct (lookup_lt_is_Some_2 paths (sj_path_index sj)) as [p Hpi]; [lia|].
  rewrite (pget_lt _ _ Hpi), (all_words_drop _ _ Hpi). cbn [bind].
  unfold cwk_path_get_first_segment. rewrite get_root_unix. cbn [bind].
  pose proof (first_segment_spec p _ (path_ok _ _ Hpi) (root_le p)) as Hfs.
  rewrite words_root in Hfs. destruct (words p) as [|w A] eqn:Ew.
  - destruct Hfs as (seg & -> & Hs0 & _). cbn [bind app].
    apply (IH (mk_joined seg paths (S (sj_path_index sj)))); cbn [sj_paths sj_path_index];
      try done; try lia.
    by rewrite (all_words_take_S _ _ Hpi), Ht, Ew.
  - destruct Hfs as (seg & l & r & -> & Hsp & Hss & Hat & Hl & Hr). cbn [bind app].
    eexists. split; [done|]. split; [done|]. cbn [sj_segment sj_path_index].
    exists p, l, r. rewrite Hss, Hl, Hr, Ht. split_and!; try done.
    destruct p as [|c p]; [done|]. simpl. destruct (issep c) eqn:E; simpl; auto.
Qed.

Lemma first_joined_spec :
  match all_words paths with
  | [] => exists sj', cwk_path_get_first_segment_joined UNIX paths = Ok (false, sj') /\
            joined_done paths sj' /\ sg_size (sj_segment sj') = 0
  | w :: A => exists sj', cwk_path_get_first_segment_joined UNIX paths = Ok (true, sj') /\
      joined_at paths sj' [] w A
  end.
Proof.
  unfold cwk_path_get_first_segment_joined.
  pose proof (first_joined_loop_spec (S (length paths))
    (mk_joined (mk_segment [] 0 0 0 0) paths 0)) as H.
  cbn [sj_paths sj_path_index sj_segment sg_size] in H. rewrite drop_0 in H.
  apply H; (done || lia).
Qed.

(** ** Kinds of segments *)

Lemma seg_at_slice seg l w r : seg_at seg l w r ->
  take (length w) (drop (sg_begin seg) (sg_path seg)) = w /\ sg_begin seg <= length (sg_path seg).
Proof.
  intros [Et Hrt Hb _ _ _ _ _ _]. rewrite Hb. split.
  - rewrite (drop_app_shift _ _ _ _ Et). by rewrite take_app_length.
  - pose proof (drop_app_len _ _ _ _ Hrt Et). lia.
Qed.

Lemma dot_ok : cstr_ok [dot] /\ cstr_ok [dot; dot].
Proof. split; repeat constructor. Qed.

Lemma segment_type_spec seg l w r : cstr_ok (sg_path seg) -> seg_at seg l w r ->
  cwk_path_get_segment_type seg = Ok (kind w).
Proof.
  intros Hok Hat. destruct (seg_at_slice _ _ _ _ Hat) as [Hw Hb].
  unfold cwk_path_get_segment_type. rewrite (sa_size _ _ _ _ Hat).
  destruct (strncmp_Ok (sg_path seg) (sg_begin seg) [dot] 0 (Z.of_nat (length w)))
    as (z1 & -> & Hz1); [done|apply dot_ok|done|simpl; lia|].
  destruct (strncmp_Ok (sg_path seg) (sg_begin seg) [dot; dot] 0 (Z.of_nat (length w)))
    as (z2 & -> & Hz2); [done|apply dot_ok|done|simpl; lia|].
  rewrite Nat2Z.id, Hw, drop_0 in Hz1, Hz2. cbn [bind]. unfold kind.
  pose proof (sa_word _ _ _ _ Hat) as Hne.
  destruct w as [|a w]; [done|]. cbn [length take] in Hz1, Hz2. rewrite take_nil in Hz1.
  case_decide as D1.
  { rewrite decide_True; [done|]. by apply Hz1. }
  rewrite (decide_False (P := a :: w = [dot])) by tauto.
  case_decide as D2.
  - apply Hz2 in D2. destruct w as [|b w]; [exfalso; naive_solver|].
    cbn [length take] in D2. rewrite take_nil in D2. by rewrite decide_True.
  - rewrite decide_False; [done|]. intros E. apply D2, Hz2. injection E as -> ->. done.
Qed.

Lemma joined_type sj B w A : joined_at paths sj B w A ->
  cwk_path_get_segment_type (sj_segment sj) = Ok (kind w).
Proof.
  intros [_ (p & l & r & Hpi & Hsp & _ & Hat & _)].
  eapply segment_type_spec; [|done]. rewrite Hsp. by eapply path_ok.
Qed.

Lemma joined_all sj B w A : joined_at paths sj B w A -> B ++ w :: A = all_words paths.
Proof.
  intros [_ (p & l & r & Hpi & Hsp & Hsep & Hat & -> & ->)].
  rewrite <- (take_drop (sj_path_index sj) paths) at 3.
  rewrite all_words_app, (all_words_drop _ _ Hpi), (seg_at_path _ _ _ _ _ Hat Hsp Hsep).
  rewrite <- !app_assoc. done.
Qed.

Lemma length_all_words : length (all_words paths) <= sum_list (length <$> paths).
Proof.
  clear. induction paths as [|p ps IH]; [done|].
  rewrite all_words_cons, length_app. simpl. pose proof (length_words p).
  change (list_fmap cstr nat length ps) with (length <$> ps). lia.
Qed.

Lemma joined_fuel_enough sj B w A : joined_at paths sj B w A ->
  length B + S (length A) < joined_fuel sj.
Proof.
  intros Hat. unfold joined_fuel. rewrite (ja_paths _ _ _ _ _ Hat).
  pose proof length_all_words as H. rewrite <- (joined_all _ _ _ _ Hat), length_app in H.
  simpl in H. lia.
Qed.

(** ** The removal criterion *)

Lemma back_loop_spec fuel : forall sj B w A n,
  joined_at paths sj B w A -> length B < fuel ->
  back_will_be_removed_loop UNIX sj (- Z.of_nat n) fuel = Ok (rm_back n (reverse B)).
Proof.
  induction fuel as [|f IH]; intros sj B w A n Hat Hf; [lia|].
  cbn [back_will_be_removed_loop].
  pose proof (previous_joined_spec _ _ _ _ Hat) as Hp.
  destruct (reverse B) as [|b R] eqn:Er.
  { destruct Hp as (sj' & ->). done. }
  destruct Hp as (sj' & -> & Hat'). cbn [bind]. rewrite (joined_type _ _ _ _ Hat').
  assert (length (reverse R) < f) as Hl.
  { apply (f_equal length) in Er. rewrite length_reverse in Er |- *. simpl in Er. lia. }
  cbn [bind rm_back]. destruct (kind b).
  - destruct n as [|n].
    + by rewrite decide_True by lia.
    + rewrite decide_False by lia. replace (- Z.of_nat (S n) + 1)%Z with (- Z.of_nat n)%Z by lia.
      rewrite (IH _ _ _ _ _ Hat' Hl). by rewrite reverse_involutive.
  - rewrite (IH _ _ _ _ _ Hat' Hl). by rewrite reverse_involutive.
  - replace (- Z.of_nat n - 1)%Z with (- Z.of_nat (S n))%Z by lia.
    rewrite (IH _ _ _ _ _ Hat' Hl). by rewrite reverse_involutive.
Qed.

Lemma normal_loop_spec fuel : forall sj B w A n,
  joined_at paths sj B w A -> length A < fuel ->
  normal_will_be_removed_loop UNIX sj (Z.of_nat n) fuel = Ok (rm_normal n A).
Proof.
  induction fuel as [|f IH]; intros sj B w A n Hat Hf; [lia|].
  cbn [normal_will_be_removed_loop].
  pose proof (next_joined_spec _ _ _ _ Hat) as Hp.
  destruct A as [|a A].
  { destruct Hp as (sj' & -> & _). done. }
  destruct Hp as (sj' & -> & Hat'). cbn [bind]. rewrite (joined_type _ _ _ _ Hat').
  simpl in Hf. cbn [bind rm_normal]. destruct (kind a).
  - replace (Z.of_nat n + 1)%Z with (Z.of_nat (S n)) by lia. apply (IH _ _ _ _ _ Hat'). lia.
  - apply (IH _ _ _ _ _ Hat'). lia.
  - destruct n as [|n].
    + by rewrite decide_True by lia.
    + rewrite decide_False by lia. replace (Z.of_nat (S n) - 1)%Z with (Z.of_nat n) by lia.
      apply (IH _ _ _ _ _ Hat'). lia.
Qed.

Lemma will_be_removed_spec sj B w A absolute : joined_at paths sj B w A ->
  cwk_path_segment_will_be_removed UNIX sj absolute = Ok (removed absolute B w A).
Proof.
  intros Hat. unfold cwk_path_segment_will_be_removed, removed.
  rewrite (joined_type _ _ _ _ Hat). cbn [bind].
  pose proof (joined_fuel_enough _ _ _ _ Hat).
  destruct (kind w); [|done|destruct absolute; [done|]].
  - apply (normal_loop_spec _ _ _ _ _ 0 Hat). lia.
  - apply (back_loop_spec _ _ _ _ _ 0 Hat). lia.
Qed.
End joined.
