(* ===== verification/CwalkNormalize.v ===== *)
(** * Normalisation of paths

    The refinement of [normal_join] by [cwk_path_join_and_normalize_multiple]
    (src/kernel/libs/cwalk.c): for any paths and any buffer the code writes
    the normalised text, cut to the buffer, and returns its whole length.
    From it follow the properties of the public functions built on it. *)

From S2P Require Import Prelude OutBuffer CString Cwalk CwalkSpec CwalkIter.

Local Open Scope nat_scope.

(** ** Writing to the buffer *)

Lemma splice_cons {A} j (x : A) v d : j < length d ->
  splice j (x :: v) d = splice (S j) v (<[j:=x]> d).
Proof.
  intros Hj. unfold splice. rewrite (take_S_r (<[j:=x]> d) j x).
  2:{ by apply list_lookup_insert_eq. }
  rewrite take_insert_ge by lia. rewrite <- app_assoc. cbn [length app].
  rewrite drop_insert_lt by lia. by rewrite Nat.add_succ_r.
Qed.

Lemma memmove_from_spec s dst o : forall k i d,
  dst + i + k <= length d -> o + i + k <= length s ->
  memmove_from d dst s o i k = Ok (splice (dst + i) (slice (o + i) k s) d).
Proof.
  induction k as [|k IH]; intros i d Hd Hs; simpl.
  { unfold slice. by rewrite take_0, splice_nil. }
  destruct (lookup_lt_is_Some_2 s (o + i)) as [x Hx]; [lia|].
  pose proof (drop_S _ _ _ Hx) as Ed. rewrite (cget_drop _ _ _ _ Ed). cbn [bind].
  rewrite aset_Ok by lia. cbn [bind].
  rewrite IH by (rewrite ?length_insert; lia). f_equal.
  unfold slice. rewrite Ed. cbn [take]. rewrite splice_cons by lia.
  by rewrite !Nat.add_succ_r.
Qed.

(** One output call appends its piece. *)
Lemma output_sized_spec b0 n t s o (k : nat) v :
  n <= length b0 -> o + k <= length s -> slice o k s = v ->
  (Z.of_nat (length (t ++ v)) < 2 ^ 64)%Z ->
  cwk_path_output_sized (written b0 n t) (Z.of_nat n) (Z.of_nat (length t)) s o (Z.of_nat k)
    = Ok (written b0 n (t ++ v), Z.of_nat (length v)).
Proof.
  intros Hn Hs Hv H64. unfold cwk_path_output_sized.
  assert (length v = k) as Hk by (rewrite <- Hv; unfold slice; rewrite length_take, length_drop; lia).
  rewrite length_app in H64. rewrite wrapu_small by lia.
  assert (forall m, length t + m <= n -> m <= k ->
    memmove_from (written b0 n t) (length t) s o 0 m
      = Ok (splice (length t) (take m v) (written b0 n t))) as Hmove.
  { intros m Hm Hmk. rewrite memmove_from_spec by (rewrite ?length_written; lia).
    rewrite !Nat.add_0_r. do 2 f_equal. rewrite <- Hv. unfold slice.
    by rewrite take_take, Nat.min_l by lia. }
  rewrite Nat2Z.id. repeat case_decide; try lia.
  - rewrite Nat2Z.id, Hmove by lia. cbn [bind]. rewrite <- written_splice by lia.
    by rewrite !(take_ge v), Hk by lia.
  - replace (Z.to_nat (Z.of_nat n - Z.of_nat (length t))) with (n - length t) by lia.
    rewrite Hmove by lia. cbn [bind]. by rewrite written_splice, Hk by lia.
  - assert (v = []) as -> by (destruct v; simpl in *; [done|lia]). by rewrite app_nil_r, <- Hk.
  - by rewrite written_full, Hk by lia.
Qed.

Lemma terminate_spec b0 n t : n <= length b0 ->
  cwk_path_terminate_output (written b0 n t) (Z.of_nat n) (Z.of_nat (length t))
    = Ok (final_output b0 n t).
Proof.
  intros Hn. unfold cwk_path_terminate_output, final_output.
  destruct (decide (n = 0)) as [->|Hne].
  { rewrite decide_False by lia. by rewrite written_0. }
  rewrite decide_True by lia. rewrite <- (terminate_written b0 n t) by lia.
  case_decide; f_equal; lia.
Qed.

(** ** The normalisation loop *)

(** The text of segments that follow another one. *)
Definition tail_text (ws : list cstr) : cstr := concat ((fun w => 47%Z :: w) <$> ws).

(** The text the loop adds for the visible segments [ws]. *)
Definition emit (has : bool) (ws : list cstr) : cstr :=
  match ws with
  | [] => []
  | w :: ws' => (if has then [47%Z] else []) ++ w ++ tail_text ws'
  end.

Lemma intercalate_emit ws : intercalate ws = emit false ws.
Proof.
  induction ws as [|w ws IH]; [done|]. cbn [intercalate emit app].
  destruct ws as [|w' ws]; [by rewrite app_nil_r|]. f_equal.
  rewrite IH. done.
Qed.

Lemma emit_cons has w ws : emit has (w :: ws) = (if has then [47%Z] else []) ++ w ++ emit true ws.
Proof. destruct ws; cbn; by rewrite ?app_nil_r. Qed.

Lemma seg_output b0 n t seg l w r : seg_at seg l w r -> n <= length b0 ->
  (Z.of_nat (length (t ++ w)) < 2 ^ 64)%Z ->
  cwk_path_output_sized (written b0 n t) (Z.of_nat n) (Z.of_nat (length t))
    (sg_path seg) (sg_begin seg) (Z.of_nat (sg_size seg))
  = Ok (written b0 n (t ++ w), Z.of_nat (length w)).
Proof.
  intros Hat Hn H64. rewrite (sa_size _ _ _ _ Hat).
  destruct (seg_at_slice _ _ _ _ Hat) as [Hw Hb].
  apply output_sized_spec; try done.
  apply (f_equal length) in Hw. rewrite length_take, length_drop in Hw. lia.
Qed.

Lemma sep_output b0 n t : n <= length b0 ->
  (Z.of_nat (length (t ++ [47%Z])) < 2 ^ 64)%Z ->
  cwk_path_output_separator UNIX (written b0 n t) (Z.of_nat n) (Z.of_nat (length t))
  = Ok (written b0 n (t ++ [47%Z]), 1%Z).
Proof.
  intros Hn H64. unfold cwk_path_output_separator.
  exact (output_sized_spec b0 n t [47%Z] 0 1 [47%Z] Hn ltac:(simpl; lia) eq_refl H64).
Qed.

Lemma pos_add (t v : cstr) : (Z.of_nat (length (t ++ v)) < 2 ^ 64)%Z ->
  u64 (Z.of_nat (length t) + Z.of_nat (length v)) = Z.of_nat (length (t ++ v)).
Proof. rewrite length_app. intros. rewrite wrapu_small; lia. Qed.

Section normalize.
Variable paths : list cstr.
Hypothesis Hpaths : Forall cstr_ok paths.
Variable b0 : list Z.
Variable n : nat.
Hypothesis Hn : n <= length b0.

Lemma normalize_loop_spec absolute fuel : forall sj B w A t has,
  joined_at paths sj B w A -> length A < fuel ->
  (Z.of_nat (length (t ++ emit has (visible absolute B (w :: A)))) < 2 ^ 64)%Z ->
  let V := visible absolute B (w :: A) in
  normalize_loop UNIX sj absolute (written b0 n t) (Z.of_nat n) (Z.of_nat (length t)) has fuel
    = Ok (written b0 n (t ++ emit has V), Z.of_nat (length (t ++ emit has V)),
          has || negb (bool_decide (V = []))).
Proof.
  induction fuel as [|f IH]; intros sj B w A t has Hat Hf H64 V; [lia|].
  cbn [normalize_loop]. rewrite (will_be_removed_spec paths Hpaths _ _ _ _ _ Hat). cbn [bind].
  pose proof (next_joined_spec paths Hpaths _ _ _ _ Hat) as Hnext.
  subst V. cbn [visible] in *. destruct (removed absolute B w A); cbn [bind].
  - destruct A as [|a A].
    { destruct Hnext as (sj' & -> & _). cbn [bind]. simpl. by rewrite app_nil_r, orb_false_r. }
    destruct Hnext as (sj' & -> & Hat'). cbn [bind].
    apply (IH _ _ _ _ _ _ Hat'); [simpl in Hf; lia|done].
  - rewrite emit_cons in *. set (V := visible absolute (B ++ [w]) A) in *.
    destruct (ja_seg _ _ _ _ _ Hat) as (p & l & r & _ & _ & _ & Hseg & _).
    set (t1 := t ++ (if has then [47%Z] else [])).
    assert ((if has then
               let* '(b, m) := cwk_path_output_separator UNIX (written b0 n t)
                                 (Z.of_nat n) (Z.of_nat (length t)) in
               Ok (b, u64 (Z.of_nat (length t) + m))
             else Ok (written b0 n t, Z.of_nat (length t)))
            = Ok (written b0 n t1, Z.of_nat (length t1))) as ->.
    { subst t1. rewrite !length_app in H64. destruct has; [|by rewrite app_nil_r].
      rewrite sep_output by (rewrite ?length_app; simpl in *; lia). cbn [bind].
      by rewrite <- (pos_add t [47%Z]) by (rewrite length_app; simpl in *; lia). }
    cbn [bind].
    replace (t ++ (if has then [47%Z] else []) ++ w ++ emit true V)
      with ((t1 ++ w) ++ emit true V) in * by (subst t1; by rewrite <- !app_assoc).
    assert (Z.of_nat (length (t1 ++ w)) < 2 ^ 64)%Z as H64' by (rewrite length_app in H64; lia).
    rewrite (seg_output _ _ _ _ _ _ _ Hseg Hn H64'). cbn [bind]. rewrite pos_add by done.
    destruct A as [|a A].
    { destruct Hnext as (sj' & -> & _). cbn [bind]. subst V. cbn [visible emit].
      rewrite app_nil_r. by rewrite orb_true_r. }
    destruct Hnext as (sj' & -> & Hat'). cbn [bind].
    rewrite (IH _ _ _ _ _ _ Hat'); [|simpl in Hf; lia|done].
    rewrite (bool_decide_eq_false_2 (w :: V = [])) by done. by rewrite orb_true_r.
Qed.

(** The code computes the normalised text of the join. *)
Lemma join_and_normalize_spec : paths <> [] ->
  (Z.of_nat (length (normal_join paths)) < 2 ^ 64)%Z ->
  cwk_path_join_and_normalize_multiple UNIX paths b0 (Z.of_nat n)
    = Ok (final_output b0 n (normal_join paths), Z.of_nat (length (normal_join paths))).
Proof.
  intros Hne H64. unfold cwk_path_join_and_normalize_multiple.
  assert (exists p0 ps, paths = p0 :: ps) as (p0 & ps & Eps)
    by (clear -Hne; destruct paths; [done|eauto]).
  assert (paths !! 0 = Some p0) as Hp0 by (by rewrite Eps).
  rewrite (pget_lt _ _ _ Hp0). cbn [bind nonnull].
  rewrite get_root_unix. cbn [bind]. rewrite is_root_absolute_unix. cbn [bind].
  assert (normal_join paths = normal_text (is_abs p0) (all_words paths)) as Ejoin
    by (unfold normal_join; by rewrite Eps).
  rewrite Ejoin in *. clear Ejoin.
  set (root := if is_abs p0 then [47%Z] else []).
  assert (cwk_path_output_sized b0 (Z.of_nat n) 0 p0 0 (Z.of_nat (if is_abs p0 then 1 else 0))
          = Ok (written b0 n root, Z.of_nat (length root))) as ->.
  { rewrite <- (written_nil b0 n) at 1.
    apply (output_sized_spec b0 n [] p0 0); try done; [apply root_le| |].
    - unfold slice, root. destruct p0 as [|c p0]; [done|]. simpl.
      destruct (issep c) eqn:E; [|done]. simpl. unfold issep in E. f_equal. lia.
    - unfold root. by destruct (is_abs p0). }
  cbn [bind].
  replace (Z.of_nat (if is_abs p0 then 1 else 0)) with (Z.of_nat (length root))
    by (unfold root; by destruct (is_abs p0)).
  pose proof (first_joined_spec paths Hpaths) as Hfirst. unfold normal_text in *.
  destruct (all_words paths) as [|w A] eqn:Ew.
  { destruct Hfirst as (sj & -> & _). cbn [bind]. fold root.
    by rewrite terminate_spec by done. }
  destruct Hfirst as (sj & -> & Hat). cbn [bind]. fold root in H64 |- *.
  rewrite <- visible_resolve in *. set (V := visible (is_abs p0) [] (w :: A)) in *.
  assert (Z.of_nat (length (root ++ emit false V)) < 2 ^ 64)%Z as HV.
  { rewrite <- intercalate_emit. clearbody V. subst root.
    destruct V, (is_abs p0); simpl in *; lia. }
  rewrite (normalize_loop_spec (is_abs p0) _ _ _ _ _ root false Hat);
    [|pose proof (joined_fuel_enough _ _ _ _ _ Hat); lia|done].
  fold V. cbn [bind orb]. rewrite negb_involutive, <- intercalate_emit.
  destruct (bool_decide (V = [])) eqn:EV; [apply bool_decide_eq_true in EV|apply bool_decide_eq_false in EV];
    cbn [andb].
  - rewrite EV. cbn [intercalate]. rewrite app_nil_r.
    destruct (is_abs p0) eqn:Eabs; subst root.
    { rewrite bool_decide_eq_false_2 by (simpl; lia). cbn [bind].
      by rewrite terminate_spec by done. }
    rewrite bool_decide_eq_true_2 by done. cbn [assert negb bind].
    unfold cwk_path_output_current.
    rewrite (output_sized_spec b0 n [] [dot] 0 1 [dot] Hn ltac:(simpl; lia) eq_refl
      ltac:(simpl; lia) : cwk_path_output_sized _ _ _ _ _ 1 = _).
    cbn [bind app]. rewrite (pos_add [] [dot]) by (simpl; lia). cbn [app].
    by rewrite (terminate_spec b0 n [dot]) by done.
  - cbn [bind]. destruct V as [|v V']; [done|].
    rewrite terminate_spec by done. by destruct (is_abs p0).
Qed.
End normalize.

(** ** Resolved paths as texts *)

(** A list of proper segments: what [words] returns. *)
Definition segments_ok (ws : list cstr) : Prop :=
  Forall (fun w => w <> [] /\ Forall (fun c => nosep c = true) w) ws.

Lemma fields_all_nosep l : Forall (fun w => Forall (fun c => nosep c = true) w) (fields l).
Proof.
  induction l as [|c l IH]; simpl; [auto|]. destruct (issep c) eqn:E; [auto|].
  destruct (fields_cons l) as (f & fs & Ef). rewrite Ef in *.
  apply Forall_cons in IH as [Hf Hfs]. repeat constructor; try done.
  unfold nosep. by rewrite E.
Qed.

Lemma words_segments_ok l : segments_ok (words l).
Proof.
  apply Forall_forall. intros w Hw. unfold words in Hw.
  apply list_elem_of_filter in Hw as [Hne Hin]. split; [done|].
  pose proof (fields_all_nosep l) as H. rewrite Forall_forall in H. by apply H.
Qed.

Lemma all_words_segments_ok paths : segments_ok (all_words paths).
Proof.
  induction paths as [|p ps IH]; [constructor|]. rewrite all_words_cons.
  apply Forall_app. split; [apply words_segments_ok|done].
Qed.

Lemma words_tail_text ws : segments_ok ws -> words (tail_text ws) = ws.
Proof.
  induction 1 as [|w ws [Hne Hns] _ IH]; [done|].
  cbn [tail_text fmap list_fmap concat]. change (47%Z :: w ++ tail_text ws) with ([] ++ 47%Z :: (w ++ tail_text ws)).
  fold (tail_text ws) in *. cbn [app]. rewrite words_sep by done.
  rewrite words_word_r; [by rewrite IH|done|done|].
  destruct ws as [|w' ws]; [by left|right]. cbn. eauto.
Qed.

Lemma words_intercalate ws : segments_ok ws -> words (intercalate ws) = ws.
Proof.
  intros H. rewrite intercalate_emit. destruct H as [|w ws [Hne Hns] Hws]; [done|].
  cbn [emit app]. rewrite words_word_r; [by rewrite words_tail_text|done|done|].
  destruct ws as [|w' ws]; [by left|right]. cbn. eauto.
Qed.

Lemma push_sublist absolute st ws w : st `sublist_of` ws -> push absolute st w `sublist_of` ws ++ [w].
Proof.
  intros H. unfold push. destruct (kind w).
  - by apply sublist_app.
  - by apply sublist_inserts_r.
  - rewrite pop_reverse. destruct (reverse st) as [|x r] eqn:E.
    { destruct absolute; [by apply sublist_inserts_r|by apply sublist_app]. }
    case_decide; [|destruct absolute; [by apply sublist_inserts_r|by apply sublist_app]].
    apply sublist_inserts_r. etrans; [|exact H].
    rewrite <- (reverse_involutive st), E, reverse_cons. by apply sublist_inserts_r.
Qed.

Lemma resolve_sublist absolute ws : resolve absolute ws `sublist_of` ws.
Proof.
  induction ws as [|w ws IH] using rev_ind; [done|]. rewrite resolve_snoc. by apply push_sublist.
Qed.

Lemma resolve_segments_ok absolute ws : segments_ok ws -> segments_ok (resolve absolute ws).
Proof.
  unfold segments_ok. rewrite !Forall_forall. intros H w Hw. apply H.
  by apply (sublist_subseteq _ _ (resolve_sublist absolute ws)).
Qed.

(** A resolved list is its own resolution. *)
Lemma foldl_push_normals absolute ns : forall st,
  Forall (fun w => kind w = CWK_NORMAL) ns -> foldl (push absolute) st ns = st ++ ns.
Proof.
  induction ns as [|n ns IH]; intros st H; simpl; [by rewrite app_nil_r|].
  apply Forall_cons in H as [Hn H]. rewrite IH by done. unfold push. rewrite Hn.
  by rewrite <- app_assoc.
Qed.

Lemma foldl_push_backs bs : forall st, Forall (fun w => kind w = CWK_BACK) st ->
  Forall (fun w => kind w = CWK_BACK) bs -> foldl (push false) st bs = st ++ bs.
Proof.
  induction bs as [|b bs IH]; intros st Hst H; simpl; [by rewrite app_nil_r|].
  apply Forall_cons in H as [Hb H].
  assert (push false st b = st ++ [b]) as ->.
  { unfold push. rewrite Hb, pop_reverse. destruct (reverse st) as [|x r] eqn:E; [done|].
    rewrite decide_False; [done|]. assert (x ∈ st) as Hx.
    { rewrite <- (reverse_involutive st), E, reverse_cons.
      apply list_elem_of_In, in_or_app. right. by left. }
    rewrite Forall_forall in Hst. rewrite (Hst x Hx). done. }
  rewrite IH; [by rewrite <- app_assoc| |done]. rewrite Forall_app. auto.
Qed.

Lemma resolve_fix absolute st : resolved absolute st -> resolve absolute st = st.
Proof.
  intros (bs & ns & -> & Hb & Hn & Ha). rewrite resolve_app. unfold resolve.
  assert (foldl (push absolute) [] bs = bs) as ->.
  { destruct absolute; [by rewrite Ha|]. by apply (foldl_push_backs bs []). }
  by apply foldl_push_normals.
Qed.

Lemma words_normal_text absolute ws : segments_ok ws ->
  words (normal_text absolute ws) =
    match ws with
    | [] => []
    | _ => match resolve absolute ws, absolute with
           | [], false => [[dot]]
           | out, _ => out
           end
    end.
Proof.
  intros Hok. unfold normal_text. destruct ws as [|w ws]; [by destruct absolute|].
  pose proof (resolve_segments_ok absolute _ Hok) as Hr.
  destruct (resolve absolute (w :: ws)) as [|v V]; destruct absolute; try done.
  - cbn [app]. rewrite words_sep by done. by apply words_intercalate.
  - by apply words_intercalate.
Qed.

Lemma is_abs_normal_text absolute ws : segments_ok ws -> is_abs (normal_text absolute ws) = absolute.
Proof.
  intros Hok. unfold normal_text. destruct ws as [|w ws]; [by destruct absolute|].
  pose proof (resolve_segments_ok absolute _ Hok) as Hr.
  destruct (resolve absolute (w :: ws)) as [|v V]; destruct absolute; try done.
  apply Forall_cons in Hr as [[Hne Hns] _]. cbn [app].
  destruct v as [|c v]; [done|]. apply Forall_cons in Hns as [Hc _].
  unfold nosep in Hc. rewrite negb_true_iff in Hc. destruct V; simpl; by rewrite Hc.
Qed.

Lemma normal_text_idem absolute ws : segments_ok ws ->
  normal_text absolute (words (normal_text absolute ws)) = normal_text absolute ws.
Proof.
  intros Hok. rewrite words_normal_text by done. destruct ws as [|w ws]; [done|].
  pose proof (resolve_fix _ _ (resolve_resolved absolute (w :: ws))) as Hfix.
  unfold normal_text at 2. destruct (resolve absolute (w :: ws)) as [|v V] eqn:E.
  - by destruct absolute.
  - unfold normal_text. by rewrite Hfix.
Qed.

Lemma normal_join_idem paths : paths <> [] -> normal_join [normal_join paths] = normal_join paths.
Proof.
  intros Hne. destruct paths as [|p ps]; [done|]. unfold normal_join at 1.
  unfold all_words. cbn. rewrite app_nil_r.
  unfold normal_join. rewrite is_abs_normal_text by apply all_words_segments_ok.
  apply normal_text_idem, all_words_segments_ok.
Qed.

(** ** Lengths *)

Definition cost (ws : list cstr) : nat := sum_list ((fun w => S (length w)) <$> ws).

Lemma cost_app ws ws' : cost (ws ++ ws') = cost ws + cost ws'.
Proof. unfold cost. by rewrite fmap_app, sum_list_with_app. Qed.

Lemma cost_cons w ws : cost (w :: ws) = S (length w) + cost ws.
Proof. done. Qed.

Lemma cost_sublist ws ws' : ws `sublist_of` ws' -> cost ws <= cost ws'.
Proof. induction 1; rewrite ?cost_cons; lia. Qed.

Lemma length_intercalate ws : length (intercalate ws) = cost ws - 1.
Proof.
  induction ws as [|w ws IH]; [done|]. cbn [intercalate]. rewrite cost_cons.
  destruct ws as [|w' ws]; [unfold cost; simpl; lia|].
  rewrite length_app. cbn [length]. rewrite IH, cost_cons. lia.
Qed.

Lemma cost_fields l : cost (fields l) = S (length l).
Proof.
  induction l as [|c l IH]; [done|]. cbn [fields length]. destruct (issep c).
  - rewrite cost_cons, IH. done.
  - destruct (fields_cons l) as (f & fs & E). rewrite E in *. rewrite cost_cons in *. simpl in *. lia.
Qed.

Lemma cost_words l : cost (words l) <= S (length l).
Proof. rewrite <- cost_fields. apply cost_sublist, sublist_filter. Qed.

Lemma length_normal_text s : length (normal_text (is_abs s) (words s)) <= length s.
Proof.
  unfold normal_text.
  assert (cost (words s) + (if is_abs s then 1 else 0) <= S (length s)) as Hc.
  { destruct s as [|c s]; [simpl; lia|]. cbn [is_abs]. destruct (issep c) eqn:E.
    - rewrite words_sep by done. pose proof (cost_words s). simpl. lia.
    - pose proof (cost_words (c :: s)). lia. }
  pose proof (cost_sublist _ _ (resolve_sublist (is_abs s) (words s))) as Hs.
  destruct (words s) as [|w ws] eqn:E.
  { destruct (is_abs s) eqn:Ea; simpl; [|lia]. destruct s; [done|simpl; lia]. }
  destruct (resolve (is_abs s) (w :: ws)) as [|v V] eqn:Er.
  - rewrite cost_cons in Hc. assert (w <> []) as Hw.
    { pose proof (words_no_empty s) as Hne. rewrite E in Hne. by inversion Hne. }
    destruct w; [done|]. cbn [length] in Hc. destruct (is_abs s); simpl; lia.
  - assert (length ((if is_abs s then [47%Z] else []) ++ intercalate (v :: V)) <= length s).
    { rewrite length_app, length_intercalate. rewrite (cost_cons v V) in *. destruct (is_abs s); cbn [length]; lia. }
    by destruct (is_abs s).
Qed.

Lemma normal_join_1 s : normal_join [s] = normal_text (is_abs s) (words s).
Proof. unfold normal_join, all_words. cbn. by rewrite app_nil_r. Qed.

Lemma length_normal_join paths :
  length (normal_join paths) <= 2 + length paths + sum_list (length <$> paths).
Proof.
  unfold normal_join. generalize (match paths with p :: _ => is_abs p | [] => false end).
  intros a. unfold normal_text.
  assert (cost (all_words paths) <= length paths + sum_list (length <$> paths)) as Hc.
  { induction paths as [|p ps IH]; [done|]. rewrite all_words_cons, cost_app.
    pose proof (cost_words p). cbn.
    change (list_fmap cstr nat length ps) with (length <$> ps). lia. }
  destruct (all_words paths) as [|w ws] eqn:E; [destruct a; simpl; lia|].
  pose proof (cost_sublist _ _ (resolve_sublist a (w :: ws))) as Hs.
  destruct (resolve a (w :: ws)) as [|v V]; destruct a; rewrite ?length_app, ?length_intercalate;
    cbn [length]; try lia.
Qed.

(** The characters of a normalised text come from the path, or are the
    separator or the dot. *)
Lemma words_forall (P : Z -> Prop) l : Forall P l -> Forall (Forall P) (words l).
Proof.
  intros Hl. apply Forall_forall. intros w Hw. unfold words in Hw.
  apply list_elem_of_filter in Hw as [_ Hw]. revert w Hw. apply Forall_forall.
  induction Hl as [|c l Hc _ IH]; simpl; [auto|]. destruct (issep c); [auto|].
  destruct (fields_cons l) as (f & fs & E). rewrite E in *. apply Forall_cons in IH as [? ?]. auto.
Qed.

Lemma intercalate_forall (P : Z -> Prop) ws : P 47%Z -> Forall (Forall P) ws -> Forall P (intercalate ws).
Proof.
  intros H47. induction 1 as [|w ws Hw _ IH]; simpl; [auto|].
  destruct ws; [done|]. apply Forall_app. auto.
Qed.

Lemma normal_text_ok absolute ws : Forall cstr_ok ws -> cstr_ok (normal_text absolute ws).
Proof.
  intros Hws. unfold normal_text.
  assert (Forall cstr_ok (resolve absolute ws)) as Hr.
  { rewrite Forall_forall in *. intros w Hw. apply Hws.
    by apply (sublist_subseteq _ _ (resolve_sublist absolute ws)). }
  assert (cstr_ok (intercalate (resolve absolute ws))) as Hi by (by apply intercalate_forall).
  destruct ws as [|w ws]; [destruct absolute; repeat constructor; done|].
  destruct (resolve absolute (w :: ws)), absolute; try apply Forall_app; repeat constructor; done.
Qed.

Lemma normal_join_ok paths : Forall cstr_ok paths -> cstr_ok (normal_join paths).
Proof.
  intros H. apply normal_text_ok. clear -H. induction H as [|p ps Hp _ IH]; [constructor|].
  rewrite all_words_cons. apply Forall_app. split; [by apply words_forall|done].
Qed.

(** ** Properties *)

(** C17 Joining and normalising any paths is correct in the UNIX style: for
    every list of paths and every buffer the code terminates, stays inside its
    objects, leaves in the buffer the normalised text of the join (cut to the
    buffer and NUL-terminated; nothing is written for size 0) and returns the
    length of the whole text. *)
Theorem join_multiple_correct paths buffer n :
  Forall cstr_ok paths -> paths <> [] -> n <= length buffer ->
  (Z.of_nat (length (normal_join paths)) < 2 ^ 64)%Z ->
  cwk_path_join_multiple UNIX paths buffer (Z.of_nat n)
    = Ok (final_output buffer n (normal_join paths), Z.of_nat (length (normal_join paths))).
Proof. intros. by apply join_and_normalize_spec. Qed.

Lemma join_multiple_correct_witness :
  cwk_path_join_multiple UNIX [bytes_of "/a/../b"; bytes_of "./c"] (replicate 8 7%Z) (Z.of_nat 8)
    = Ok (final_output (replicate 8 7%Z) 8 (normal_join [bytes_of "/a/../b"; bytes_of "./c"]),
          Z.of_nat (length (normal_join [bytes_of "/a/../b"; bytes_of "./c"]))).
Proof.
  apply (join_multiple_correct [bytes_of "/a/../b"; bytes_of "./c"] (replicate 8 7%Z) 8).
  - repeat constructor; vm_compute; done.
  - done.
  - vm_compute. lia.
  - vm_compute. done.
Defined.

(** Normalisation is idempotent: normalising a path gives a text whose
    normalisation is that same text, whatever the buffers of the two calls. *)
Theorem normalize_idempotent path buffer n buffer' n' :
  cstr_ok path -> (Z.of_nat (length path) < 2 ^ 64)%Z ->
  n <= length buffer -> n' <= length buffer' ->
  exists t,
    cwk_path_normalize UNIX path buffer (Z.of_nat n)
      = Ok (final_output buffer n t, Z.of_nat (length t)) /\
    cwk_path_normalize UNIX t buffer' (Z.of_nat n')
      = Ok (final_output buffer' n' t, Z.of_nat (length t)).
Proof.
  intros Hok H64 Hn Hn'. exists (normal_join [path]).
  assert (Z.of_nat (length (normal_join [path])) < 2 ^ 64)%Z as Hl.
  { rewrite normal_join_1. pose proof (length_normal_text path). lia. }
  split; [apply join_and_normalize_spec; auto|]. unfold cwk_path_normalize.
  rewrite join_and_normalize_spec; rewrite ?normal_join_idem; auto using normal_join_ok.
Qed.

Lemma normalize_idempotent_witness :
  exists t,
    cwk_path_normalize UNIX (bytes_of "a//b/..") (replicate 8 7%Z) (Z.of_nat 8)
      = Ok (final_output (replicate 8 7%Z) 8 t, Z.of_nat (length t)) /\
    cwk_path_normalize UNIX t (replicate 8 7%Z) (Z.of_nat 8)
      = Ok (final_output (replicate 8 7%Z) 8 t, Z.of_nat (length t)).
Proof.
  apply (normalize_idempotent (bytes_of "a//b/..") (replicate 8 7%Z) 8 (replicate 8 7%Z) 8);
    [repeat constructor; vm_compute; done|vm_compute; done|vm_compute; lia|vm_compute; lia].
Defined.

(** The normalised path is never longer than the path: a buffer one byte
    longer than the path, as the file system allocates, holds the whole result
    and its terminator, and the path written is the text returned. *)
Theorem normalize_fits path buffer :
  cstr_ok path -> length buffer = S (length path) ->
  (Z.of_nat (length path) < 2 ^ 63)%Z ->
  exists t rest,
    cwk_path_normalize UNIX path buffer (Z.of_nat (S (length path)))
      = Ok (t ++ 0%Z :: rest, Z.of_nat (length t)) /\
    t = normal_text (is_abs path) (words path) /\ length t <= length path.
Proof.
  intros Hok Hb H64. pose proof (length_normal_text path) as Hl.
  unfold cwk_path_normalize. rewrite join_and_normalize_spec.
  2: auto.
  2: lia.
  2: done.
  2: rewrite normal_join_1; lia.
  rewrite normal_join_1. unfold final_output. rewrite decide_False by lia. unfold output_of.
  rewrite take_ge by lia. eauto.
Qed.

Lemma normalize_fits_witness :
  exists t rest,
    cwk_path_normalize UNIX (bytes_of "/x/../y") (replicate 8 7%Z) (Z.of_nat 8)
      = Ok (t ++ 0%Z :: rest, Z.of_nat (length t)) /\
    t = normal_text (is_abs (bytes_of "/x/../y")) (words (bytes_of "/x/../y")) /\
    length t <= 7.
Proof.
  apply (normalize_fits (bytes_of "/x/../y") (replicate 8 7%Z));
    [repeat constructor; vm_compute; done|reflexivity|vm_compute; done].
Defined.

(** Access through an absolute path cannot escape the root: whatever the
    base and the path given, [cwk_path_get_absolute] produces a text that
    starts with a separator and all of whose segments are names, neither "."
    nor "..". *)
Theorem get_absolute_contained base path buffer n :
  cstr_ok base -> cstr_ok path -> n <= length buffer ->
  (Z.of_nat (length base + length path) < 2 ^ 62)%Z ->
  exists t,
    cwk_path_get_absolute UNIX base path buffer (Z.of_nat n)
      = Ok (final_output buffer n t, Z.of_nat (length t)) /\
    is_abs t = true /\ Forall (fun w => kind w = CWK_NORMAL) (words t).
Proof.
  intros Hb Hp Hn H64. unfold cwk_path_get_absolute.
  rewrite !is_absolute_unix. cbn [bind].
  set (paths := if is_abs path then _ else _).
  assert (Forall cstr_ok paths) as Hok.
  { subst paths. destruct (is_abs path), (is_abs base); repeat constructor; done. }
  assert (exists ws, normal_join paths = normal_text true ws /\ segments_ok ws) as (ws & Hj & Hws).
  { exists (all_words paths). split; [|apply all_words_segments_ok].
    unfold normal_join. subst paths.
    destruct (is_abs path) eqn:E1, (is_abs base) eqn:E2; cbn [app]; by rewrite ?E1, ?E2. }
  exists (normal_join paths). split; [|split].
  - apply join_and_normalize_spec; try done.
    { subst paths. by destruct (is_abs path), (is_abs base). }
    pose proof (length_normal_join paths) as Hl.
    assert (sum_list (length <$> paths) <= 1 + length base + length path /\ length paths <= 3) as [? ?].
    { subst paths. destruct (is_abs path), (is_abs base); cbn; lia. }
    lia.
  - rewrite Hj. by apply is_abs_normal_text.
  - rewrite Hj, words_normal_text by done.
    destruct (resolve_resolved true ws) as (bs & ns & E & _ & Hns & Hbs).
    rewrite Hbs in E by done. cbn [app] in E. rewrite E.
    destruct ws; [constructor|]. by destruct ns.
Qed.

Lemma get_absolute_contained_witness :
  exists t,
    cwk_path_get_absolute UNIX (bytes_of "/home") (bytes_of "../../etc") (replicate 9 7%Z) (Z.of_nat 9)
      = Ok (final_output (replicate 9 7%Z) 9 t, Z.of_nat (length t)) /\
    is_abs t = true /\ Forall (fun w => kind w = CWK_NORMAL) (words t).
Proof.
  apply (get_absolute_contained (bytes_of "/home") (bytes_of "../../etc") (replicate 9 7%Z) 9);
    [repeat constructor; vm_compute; done..|vm_compute; lia|vm_compute; done].
Defined.
