(* ===== verification/CwalkRelative.v ===== *)
(** * Relative paths, basenames and extensions

    [cwk_path_get_relative] and the accessors of src/kernel/libs/cwalk.c in
    the UNIX style.  The main result is the round trip: joining a base
    directory with the relative path computed from it leads to the target. *)

From S2P Require Import Prelude OutBuffer CString Cwalk CwalkSpec CwalkIter CwalkNormalize.

Local Open Scope nat_scope.

(** The parts of two lists after their common prefix. *)
Fixpoint strip_common (vb vo : list cstr) : list cstr * list cstr :=
  match vb, vo with
  | b :: vb', o :: vo' => if decide (b = o) then strip_common vb' vo' else (vb, vo)
  | _, _ => (vb, vo)
  end.

(** The relative path: one ".." for each segment left of the base, then the
    segments left of the target. *)
Definition relative_segments (vb vo : list cstr) : list cstr :=
  replicate (length (strip_common vb vo).1) [dot; dot] ++ (strip_common vb vo).2.

Definition relative_text (vb vo : list cstr) : cstr :=
  match relative_segments vb vo with
  | [] => [dot]
  | ws => intercalate ws
  end.

(** ** Visible segments *)

Section visible.
Variable paths : list cstr.
Hypothesis Hpaths : Forall cstr_ok paths.
Variable absolute : bool.

(** The iterator stands on a segment from which the segments [V] remain
    visible, or on the empty segment of a path that has none; with [false] it
    has none left. *)
Definition remaining (available : bool) (sj : cwk_segment_joined) (V : list cstr) : Prop :=
  if available then
    (exists B w A, joined_at paths sj B w A /\ visible absolute B (w :: A) = V) \/
    (joined_done paths sj /\ sg_size (sj_segment sj) = 0 /\ V = [])
  else V = [].

(** It stands on the first of them. *)
Definition on_visible (sj : cwk_segment_joined) (v : cstr) (V : list cstr) : Prop :=
  exists B A, joined_at paths sj B v A /\ removed absolute B v A = false /\
    visible absolute (B ++ [v]) A = V.

Lemma skip_invisible_spec fuel : forall sj B w A,
  joined_at paths sj B w A -> length A < fuel ->
  match visible absolute B (w :: A) with
  | [] => exists sj', skip_invisible_loop UNIX sj absolute fuel = Ok (false, sj')
  | v :: V => exists sj', skip_invisible_loop UNIX sj absolute fuel = Ok (true, sj') /\
      on_visible sj' v V /\ sj_paths sj' = paths
  end.
Proof.
  induction fuel as [|f IH]; intros sj B w A Hat Hf; [lia|]. cbn [skip_invisible_loop visible].
  rewrite (will_be_removed_spec paths Hpaths _ _ _ _ _ Hat). cbn [bind].
  destruct (removed absolute B w A) eqn:Er.
  - pose proof (next_joined_spec paths Hpaths _ _ _ _ Hat) as Hn. destruct A as [|a A].
    { destruct Hn as (sj' & -> & _). cbn. eauto. }
    destruct Hn as (sj' & -> & Hat'). cbn [bind]. apply IH; [done|simpl in Hf; lia].
  - exists sj. split; [done|]. split; [by exists B, A|]. by destruct Hat.
Qed.

Lemma skip_done sj : joined_done paths sj -> sg_size (sj_segment sj) = 0 ->
  exists sj', cwk_path_segment_joined_skip_invisible UNIX sj absolute = Ok (false, sj').
Proof.
  intros [Hp Hi] Hs. exists sj. unfold cwk_path_segment_joined_skip_invisible.
  cbn [skip_invisible_loop]. unfold cwk_path_segment_will_be_removed, cwk_path_get_segment_type.
  rewrite Hs. cbn. unfold cwk_path_get_next_segment_joined. by rewrite Hp, Hi, pget_end.
Qed.

Lemma skip_remaining sj V : remaining true sj V ->
  match V with
  | [] => exists sj', cwk_path_segment_joined_skip_invisible UNIX sj absolute = Ok (false, sj')
  | v :: V' => exists sj', cwk_path_segment_joined_skip_invisible UNIX sj absolute = Ok (true, sj') /\
      on_visible sj' v V' /\ joined_fuel sj' = joined_fuel sj
  end.
Proof.
  intros [(B & w & A & Hat & <-)|(Hd & Hs & ->)]; [|eauto using skip_done].
  unfold cwk_path_segment_joined_skip_invisible.
  pose proof (joined_fuel_enough _ _ _ _ _ Hat) as Hfuel.
  pose proof (skip_invisible_spec (S (joined_fuel sj)) _ _ _ _ Hat ltac:(lia)) as Hs.
  destruct (visible absolute B (w :: A)); [done|].
  destruct Hs as (sj' & E & Hon & Hp). exists sj'. split_and!; try done.
  unfold joined_fuel. by rewrite Hp, (ja_paths _ _ _ _ _ Hat).
Qed.

Lemma next_on_visible sj v V : on_visible sj v V ->
  exists r sj', cwk_path_get_next_segment_joined UNIX sj = Ok (r, sj') /\
    remaining r sj' V /\ joined_fuel sj' = joined_fuel sj.
Proof.
  intros (B & A & Hat & _ & HV). pose proof (next_joined_spec paths Hpaths _ _ _ _ Hat) as Hn.
  destruct A as [|a A].
  - destruct Hn as (sj' & -> & Hd & _). exists false, sj'. split_and!; [done..|].
    unfold joined_fuel. by rewrite Hd, (ja_paths _ _ _ _ _ Hat).
  - destruct Hn as (sj' & -> & Hat'). exists true, sj'. split_and!; [done| |].
    + left. by exists (B ++ [v]), a, A.
    + unfold joined_fuel. by rewrite (ja_paths _ _ _ _ _ Hat'), (ja_paths _ _ _ _ _ Hat).
Qed.

Lemma on_visible_remaining sj v V : on_visible sj v V -> remaining true sj (v :: V).
Proof.
  intros (B & A & Hat & Hr & HV). left. exists B, v, A. split; [done|].
  cbn [visible]. by rewrite Hr, HV.
Qed.

Lemma on_visible_seg sj v V : on_visible sj v V ->
  exists l r, seg_at (sj_segment sj) l v r /\ cstr_ok (sg_path (sj_segment sj)).
Proof.
  intros (B & A & [_ (p & l & r & Hpi & Hsp & _ & Hat & _)] & _).
  exists l, r. split; [done|]. rewrite Hsp. by eapply path_ok.
Qed.

Lemma remaining_fuel sj V : remaining true sj V -> length V < joined_fuel sj.
Proof.
  intros [(B & w & A & Hat & <-)|(_ & _ & ->)]; [|unfold joined_fuel; simpl; lia].
  pose proof (joined_fuel_enough _ _ _ _ _ Hat) as Hf.
  assert (forall C B', length (visible absolute B' C) <= length C) as Hv.
  { induction C as [|c C IH]; intros B'; simpl; [done|].
    specialize (IH (B' ++ [c])). destruct (removed absolute B' c C); simpl; lia. }
  specialize (Hv (w :: A) B). simpl in *. lia.
Qed.
End visible.

(** ** Comparing segments *)

Lemma string_equal_spec seg1 l1 v1 r1 seg2 l2 v2 r2 :
  cstr_ok (sg_path seg1) -> cstr_ok (sg_path seg2) ->
  seg_at seg1 l1 v1 r1 -> seg_at seg2 l2 v2 r2 ->
  cwk_path_is_string_equal UNIX (sg_path seg1) (sg_begin seg1) (sg_path seg2) (sg_begin seg2)
    (sg_size seg1) (sg_size seg2) = Ok (bool_decide (v1 = v2)).
Proof.
  intros H1 H2 A1 A2. unfold cwk_path_is_string_equal.
  rewrite (sa_size _ _ _ _ A1), (sa_size _ _ _ _ A2).
  destruct (seg_at_slice _ _ _ _ A1) as [S1 B1], (seg_at_slice _ _ _ _ A2) as [S2 B2].
  case_decide as Hl.
  - destruct (strncmp_Ok _ _ _ _ (Z.of_nat (length v1)) H1 H2 B1 B2) as (z & -> & Hz).
    cbn [bind]. f_equal. apply bool_decide_ext. rewrite Hz, Nat2Z.id, S1, Hl. by rewrite S2.
  - rewrite bool_decide_eq_false_2; [done|]. by intros ->.
Qed.

(** ** Walking two paths together *)

Section diverge.
Variables pb po : list cstr.
Hypothesis Hpb : Forall cstr_ok pb.
Hypothesis Hpo : Forall cstr_ok po.
Variable absolute : bool.

Lemma diverge_loop_spec fuel : forall bsj osj vb vo,
  remaining pb absolute true bsj vb -> remaining po absolute true osj vo ->
  length vb < fuel ->
  exists bsj' osj' ba oa,
    skip_until_diverge_loop UNIX bsj osj absolute fuel = Ok (bsj', osj', ba, oa) /\
    remaining pb absolute ba bsj' (strip_common vb vo).1 /\
    remaining po absolute oa osj' (strip_common vb vo).2.
Proof.
  induction fuel as [|f IH]; intros bsj osj vb vo Hb Ho Hf; [lia|].
  cbn [skip_until_diverge_loop].
  pose proof (skip_remaining pb Hpb absolute _ _ Hb) as Sb.
  pose proof (skip_remaining po Hpo absolute _ _ Ho) as So.
  destruct vb as [|b vb]; [destruct Sb as (bsj1 & ->)|destruct Sb as (bsj1 & -> & Ob & _)]; cbn [bind];
  (destruct vo as [|o vo]; [destruct So as (osj1 & ->)|destruct So as (osj1 & -> & Oo & _)]; cbn [bind negb orb]);
  [do 4 eexists; split; [done|]; cbn; done
  |do 4 eexists; split; [done|]; split; [done|by apply on_visible_remaining]
  |do 4 eexists; split; [done|]; split; [by apply on_visible_remaining|done]|].
  destruct (on_visible_seg pb Hpb absolute _ _ _ Ob) as (l1 & r1 & A1 & K1).
  destruct (on_visible_seg po Hpo absolute _ _ _ Oo) as (l2 & r2 & A2 & K2).
  rewrite (string_equal_spec _ _ _ _ _ _ _ _ K1 K2 A1 A2). cbn [bind strip_common].
  destruct (decide (b = o)) as [->|Hne].
  2:{ rewrite bool_decide_eq_false_2 by done. cbn [negb].
      do 4 eexists. split; [done|]. split; by apply on_visible_remaining. }
  rewrite bool_decide_eq_true_2 by done. cbn [negb].
  destruct (next_on_visible pb Hpb absolute _ _ _ Ob) as (rb & bsj2 & -> & Rb & _). cbn [bind].
  destruct (next_on_visible po Hpo absolute _ _ _ Oo) as (ro & osj2 & -> & Ro & _). cbn [bind].
  destruct rb, ro; cbn [andb].
  - apply IH; [done|done|simpl in Hf; lia].
  - cbn in Ro. subst vo. do 4 eexists. split; [done|]. by destruct vb.
  - cbn in Rb. subst vb. do 4 eexists. by split.
  - cbn in Rb, Ro. subst. do 4 eexists. by split.
Qed.
End diverge.

(** ** Writing the relative path *)

(** Segments, each followed by a separator. *)
Definition slashed (ws : list cstr) : cstr := concat ((fun w => w ++ [47%Z]) <$> ws).

Lemma slashed_cons w ws : slashed (w :: ws) = (w ++ [47%Z]) ++ slashed ws.
Proof. done. Qed.

Lemma slashed_app ws ws' : slashed (ws ++ ws') = slashed ws ++ slashed ws'.
Proof. unfold slashed. by rewrite fmap_app, concat_app. Qed.

Lemma slashed_intercalate ws : ws <> [] -> slashed ws = intercalate ws ++ [47%Z].
Proof.
  induction ws as [|w ws IH]; [done|]. intros _. rewrite slashed_cons. cbn [intercalate].
  destruct ws as [|w' ws]; [by rewrite app_nil_r|].
  rewrite IH by done. by rewrite <- !app_assoc.
Qed.

Section relative.
Variable paths : list cstr.
Hypothesis Hpaths : Forall cstr_ok paths.
Variable absolute : bool.
Variable b0 : list Z.
Variable n : nat.
Hypothesis Hn : n <= length b0.

Lemma back_output t : (Z.of_nat (length (t ++ [dot; dot])) < 2 ^ 64)%Z ->
  cwk_path_output_back (written b0 n t) (Z.of_nat n) (Z.of_nat (length t))
    = Ok (written b0 n (t ++ [dot; dot]), Z.of_nat (length [dot; dot])).
Proof.
  intros H64. unfold cwk_path_output_back.
  exact (output_sized_spec b0 n t [dot; dot] 0 2 [dot; dot] Hn ltac:(simpl; lia) eq_refl H64).
Qed.

Lemma pos_add_sep (t : cstr) : (Z.of_nat (length (t ++ [47%Z])) < 2 ^ 64)%Z ->
  u64 (Z.of_nat (length t) + 1) = Z.of_nat (length (t ++ [47%Z])).
Proof. exact (pos_add t [47%Z]). Qed.

Lemma relative_back_spec fuel : forall sj V t has,
  remaining paths absolute true sj V -> length V < fuel ->
  let t' := t ++ slashed (replicate (length V) [dot; dot]) in
  (Z.of_nat (length t') < 2 ^ 64)%Z ->
  relative_back_loop UNIX sj absolute (written b0 n t) (Z.of_nat n) (Z.of_nat (length t)) has fuel
    = Ok (written b0 n t', Z.of_nat (length t'), has || negb (bool_decide (V = []))).
Proof.
  induction fuel as [|f IH]; intros sj V t has Hr Hf t' H64; [lia|]. cbn [relative_back_loop].
  pose proof (skip_remaining paths Hpaths absolute _ _ Hr) as Hs. destruct V as [|v V].
  { destruct Hs as (sj' & ->). cbn. subst t'. cbn. by rewrite app_nil_r, orb_false_r. }
  destruct Hs as (sj1 & -> & Hon & _). cbn [bind negb].
  subst t'. cbn [length replicate] in *. rewrite slashed_cons in *.
  rewrite !app_assoc in H64. rewrite length_app in H64.
  assert (forall k : nat, k <= length ((t ++ [dot; dot]) ++ [47%Z]) -> (Z.of_nat k < 2 ^ 64)%Z) as Hk by (intros; lia).
  rewrite back_output by (apply Hk; rewrite (length_app (t ++ _)); lia). cbn [bind].
  rewrite pos_add by (apply Hk; rewrite (length_app (t ++ _)); lia).
  rewrite sep_output by (done || by apply Hk). cbn [bind].
  rewrite pos_add_sep by (by apply Hk).
  destruct (next_on_visible paths Hpaths absolute _ _ _ Hon) as (r & sj2 & -> & Hrem & _). cbn [bind].
  destruct r.
  - rewrite (IH sj2 V _ true Hrem); [|simpl in Hf; lia|rewrite length_app; lia].
    rewrite orb_true_r. by rewrite !app_assoc.
  - cbn in Hrem. subst V. cbn [length replicate]. rewrite orb_true_r. unfold slashed. cbn. by rewrite ?app_nil_r, <- !app_assoc.
Qed.

Lemma relative_forward_spec fuel : forall sj V t has,
  remaining paths absolute true sj V -> length V < fuel ->
  let t' := t ++ slashed V in
  (Z.of_nat (length t') < 2 ^ 64)%Z ->
  relative_forward_loop UNIX sj absolute (written b0 n t) (Z.of_nat n) (Z.of_nat (length t)) has fuel
    = Ok (written b0 n t', Z.of_nat (length t'), has || negb (bool_decide (V = []))).
Proof.
  induction fuel as [|f IH]; intros sj V t has Hr Hf t' H64; [lia|]. cbn [relative_forward_loop].
  pose proof (skip_remaining paths Hpaths absolute _ _ Hr) as Hs. destruct V as [|v V].
  { destruct Hs as (sj' & ->). cbn. subst t'. cbn. by rewrite app_nil_r, orb_false_r. }
  destruct Hs as (sj1 & -> & Hon & _). cbn [bind negb].
  subst t'. rewrite slashed_cons in *. rewrite !app_assoc in H64. rewrite length_app in H64.
  assert (forall k : nat, k <= length ((t ++ v) ++ [47%Z]) -> (Z.of_nat k < 2 ^ 64)%Z) as Hk by (intros; lia).
  destruct (on_visible_seg paths Hpaths absolute _ _ _ Hon) as (l & r0 & Hseg & _).
  rewrite (seg_output _ _ _ _ _ _ _ Hseg Hn) by (apply Hk; rewrite (length_app (t ++ _)); lia).
  cbn [bind]. rewrite pos_add by (apply Hk; rewrite (length_app (t ++ _)); lia).
  rewrite sep_output by (done || by apply Hk). cbn [bind].
  rewrite pos_add_sep by (by apply Hk).
  destruct (next_on_visible paths Hpaths absolute _ _ _ Hon) as (r & sj2 & -> & Hrem & _). cbn [bind].
  destruct r.
  - rewrite (IH sj2 V _ true Hrem); [|simpl in Hf; lia|rewrite length_app; lia].
    rewrite orb_true_r. by rewrite !app_assoc.
  - cbn in Hrem. subst V. cbn [length replicate]. rewrite orb_true_r. unfold slashed. cbn. by rewrite ?app_nil_r, <- !app_assoc.
Qed.
End relative.

(** Dropping the last separator before terminating. *)
Lemma terminate_dropped b0 n t c : n <= length b0 ->
  cwk_path_terminate_output (written b0 n (t ++ [c])) (Z.of_nat n) (Z.of_nat (length t))
    = Ok (final_output b0 n t).
Proof.
  intros Hn. destruct (decide (n <= length t)) as [Hle|Hlt].
  { rewrite written_full by done. by apply terminate_spec. }
  unfold cwk_path_terminate_output, final_output, output_of.
  rewrite decide_True by lia. rewrite !decide_False by lia.
  rewrite Nat2Z.id, written_short by (rewrite length_app; simpl; lia).
  rewrite (take_ge t) by lia. rewrite <- app_assoc, length_app, Nat.add_1_r. cbn [app].
  by rewrite aset_app_r.
Qed.

(** The iterator at the start of one path. *)
Lemma first_remaining s absolute : cstr_ok s ->
  exists r sj, cwk_path_get_first_segment_joined UNIX [s] = Ok (r, sj) /\
    remaining [s] absolute true sj (resolve absolute (words s)).
Proof.
  intros Hs. pose proof (first_joined_spec [s] ltac:(auto)) as Hf.
  rewrite all_words_cons in Hf. change (all_words []) with (@nil cstr) in Hf.
  rewrite app_nil_r in Hf.
  destruct (words s) as [|w A] eqn:E; destruct Hf as (sj & -> & Hf).
  - exists false, sj. split; [done|]. right. by destruct Hf.
  - exists true, sj. split; [done|]. left. exists [], w, A. by rewrite visible_resolve.
Qed.

Lemma same_root base path : cstr_ok base -> cstr_ok path ->
  cwk_path_is_string_equal UNIX base 0 path 0 (if is_abs base then 1 else 0)
    (if is_abs path then 1 else 0) = Ok (bool_decide (is_abs base = is_abs path)).
Proof.
  intros Hb Hp. unfold cwk_path_is_string_equal.
  destruct (is_abs base) eqn:Eb, (is_abs path) eqn:Ep; cbn [decide]; try done.
  destruct (strncmp_Ok base 0 path 0 (Z.of_nat 1) Hb Hp) as (z & E & Hz); [lia..|].
  destruct base as [|c base]; [done|]. destruct path as [|d path]; [done|].
  cbn [is_abs] in *. unfold issep in *. rewrite Z.eqb_eq in *. subst.
  rewrite decide_True by done.
  rewrite E. cbn [bind]. f_equal. rewrite !bool_decide_eq_true_2; [done..|by apply Hz].
Qed.

Lemma strip_common_length vb vo :
  length (strip_common vb vo).1 <= length vb /\ cost (strip_common vb vo).2 <= cost vo.
Proof.
  revert vo. induction vb as [|b vb IH]; intros [|o vo]; cbn [strip_common fst snd length]; try lia.
  case_decide; [|cbn [fst snd length]; lia]. specialize (IH vo). rewrite cost_cons. lia.
Qed.

(** The length of the relative text with its last separator. *)
Lemma length_slashed ws : length (slashed ws) = cost ws.
Proof.
  induction ws as [|w ws IH]; [done|]. rewrite slashed_cons, cost_cons, !length_app, IH. simpl. lia.
Qed.

(** The two output loops. *)
Lemma relative_output pb po absolute b0 n bsj osj ba oa vb vo :
  Forall cstr_ok pb -> Forall cstr_ok po -> n <= length b0 ->
  remaining pb absolute ba bsj vb -> remaining po absolute oa osj vo ->
  let t := slashed (replicate (length vb) [dot; dot] ++ vo) in
  (Z.of_nat (length t) < 2 ^ 64)%Z ->
  (let* '(buffer, pos, has_output) :=
     if (ba : bool) then relative_back_loop UNIX bsj absolute b0 (Z.of_nat n) 0 false (joined_fuel bsj)
     else Ok (b0, 0%Z, false) in
   if (oa : bool) then
     relative_forward_loop UNIX osj absolute buffer (Z.of_nat n) pos has_output (joined_fuel osj)
   else Ok (buffer, pos, has_output))
  = Ok (written b0 n t, Z.of_nat (length t), negb (bool_decide (t = []))).
Proof.
  intros Hpb Hpo Hn Hb Ho t H64. subst t. rewrite slashed_app in *.
  set (t1 := slashed (replicate (length vb) [dot; dot])) in *.
  assert ((if ba then relative_back_loop UNIX bsj absolute b0 (Z.of_nat n) 0 false (joined_fuel bsj)
           else Ok (b0, 0%Z, false))
          = Ok (written b0 n t1, Z.of_nat (length t1), negb (bool_decide (vb = [])))) as ->.
  { destruct ba; [|cbn in Hb; subst vb t1; by rewrite written_nil].
    pose proof (relative_back_spec pb Hpb absolute b0 n Hn (joined_fuel bsj) bsj vb [] false Hb) as H.
    rewrite written_nil in H. apply H; [by eapply remaining_fuel|]. cbn [app].
    fold t1. rewrite length_app in H64. lia. }
  cbn [bind].
  assert (negb (bool_decide (t1 ++ slashed vo = []))
          = negb (bool_decide (vb = [])) || negb (bool_decide (vo = []))) as ->.
  { subst t1. destruct vb; [|done]. cbn. destruct vo as [|v vo]; [done|].
    rewrite slashed_cons, <- app_assoc. by destruct v. }
  destruct oa.
  - apply (relative_forward_spec po Hpo); [done|done|by eapply remaining_fuel|done].
  - cbn in Ho. subst vo. cbn. by rewrite app_nil_r, orb_false_r.
Qed.

Lemma get_relative_spec base path b0 n : cstr_ok base -> cstr_ok path -> n <= length b0 ->
  (3 * Z.of_nat (length base) + Z.of_nat (length path) < 2 ^ 63)%Z ->
  let a := is_abs base in
  let t := if decide (is_abs base = is_abs path)
           then relative_text (resolve a (words base)) (resolve a (words path)) else [] in
  cwk_path_get_relative UNIX base path b0 (Z.of_nat n) = Ok (final_output b0 n t, Z.of_nat (length t)).
Proof.
  intros Hb Hp Hn H64 a t. unfold cwk_path_get_relative. rewrite !get_root_unix. cbn [bind].
  assert ((if decide ((if is_abs base then 1 else 0) = (if is_abs path then 1 else 0)) then
             cwk_path_is_string_equal UNIX base 0 path 0 (if is_abs base then 1 else 0)
               (if is_abs path then 1 else 0) else Ok false)
          = Ok (bool_decide (is_abs base = is_abs path))) as ->.
  { rewrite same_root by done. by destruct (is_abs base), (is_abs path). }
  cbn [bind]. subst t. destruct (decide (is_abs base = is_abs path)) as [Hr|Hr];
    [rewrite bool_decide_eq_true_2 by done|rewrite bool_decide_eq_false_2 by done]; cbn [negb].
  2:{ change 0%Z with (Z.of_nat (length (@nil Z))) at 1.
      rewrite <- (written_nil b0 n) at 1. by rewrite terminate_spec. }
  rewrite is_root_absolute_unix. cbn [bind]. fold a.
  destruct (first_remaining base a Hb) as (r1 & bsj & -> & Rb). cbn [bind].
  destruct (first_remaining path a Hp) as (r2 & osj & -> & Ro). cbn [bind].
  set (vb := resolve a (words base)) in *. set (vo := resolve a (words path)) in *.
  destruct (diverge_loop_spec [base] [path] ltac:(auto) ltac:(auto) a (joined_fuel bsj) _ _ _ _ Rb Ro)
    as (bsj' & osj' & ba & oa & E & Rb' & Ro'); [by eapply remaining_fuel|].
  unfold cwk_path_skip_segments_until_diverge. rewrite E. cbn [bind].
  set (rs := relative_segments vb vo).
  assert (cost rs <= 3 * length base + S (length path)) as Hcost.
  { subst rs. unfold relative_segments. rewrite cost_app.
    destruct (strip_common_length vb vo) as [L1 L2].
    pose proof (cost_sublist _ _ (resolve_sublist a (words path))). pose proof (cost_words path).
    pose proof (sublist_length _ _ (resolve_sublist a (words base))). pose proof (length_words base).
    assert (forall k, cost (replicate k [dot; dot]) = 3 * k) as ->
      by (clear; induction k as [|k IH]; [done|cbn [replicate]; rewrite cost_cons, IH; simpl; lia]).
    subst vb vo. lia. }
  pose proof (relative_output [base] [path] a b0 n _ _ _ _ _ _ ltac:(auto) ltac:(auto) Hn Rb' Ro') as Hout.
  fold (relative_segments vb vo) in Hout. fold rs in Hout. cbv zeta in Hout.
  rewrite length_slashed in Hout. specialize (Hout ltac:(lia)).
  apply bind_inv in Hout as ([[b1 p1] h1] & -> & Hout). cbn [bind]. rewrite Hout. cbn [bind].
  clear Hout. unfold relative_text. fold rs. destruct rs as [|w ws].
  - cbn [slashed fmap list_fmap concat cost sum_list]. rewrite bool_decide_eq_true_2 by done. cbn [negb].
    unfold cwk_path_output_current.
    rewrite (output_sized_spec b0 n [] [dot] 0 1 [dot] Hn ltac:(simpl; lia) eq_refl
      ltac:(simpl; lia) : cwk_path_output_sized _ _ (Z.of_nat 0) _ _ 1 = _). cbn [bind].
    change (u64 (Z.of_nat 0 + Z.of_nat (length [dot]))) with (Z.of_nat (length [dot])).
    cbn [app]. by rewrite (terminate_spec b0 n [dot]).
  - rewrite slashed_intercalate in * by done. rewrite bool_decide_eq_false_2.
    2:{ by intros []%app_nil. }
    cbn [negb bind]. rewrite wrapu_small by (rewrite cost_cons in *; lia).
    replace (Z.of_nat (cost (w :: ws)) - 1)%Z with (Z.of_nat (length (intercalate (w :: ws))))
      by (rewrite length_intercalate, cost_cons; lia).
    by rewrite terminate_dropped.
Qed.

(** ** Following the relative path *)

Lemma strip_common_prefix vb vo : exists c,
  vb = c ++ (strip_common vb vo).1 /\ vo = c ++ (strip_common vb vo).2.
Proof.
  revert vo. induction vb as [|b vb IH]; intros [|o vo]; cbn [strip_common];
    try (by exists []).
  case_decide as Hbo; [|by exists []]. subst o.
  destruct (IH vo) as (c & E1 & E2). exists (b :: c). cbn [app]. by rewrite <- E1, <- E2.
Qed.

Lemma kind_back : kind [dot; dot] = CWK_BACK.
Proof. reflexivity. Qed.

(** As many ".." as there are names on top drop them. *)
Lemma foldl_push_back_names absolute c : forall ns,
  Forall (fun w => kind w = CWK_NORMAL) ns ->
  foldl (push absolute) (c ++ ns) (replicate (length ns) [dot; dot]) = c.
Proof.
  induction ns as [|x ns IH] using rev_ind; intros Hns; [by rewrite app_nil_r|].
  apply Forall_app in Hns as [Hns Hx]. rewrite length_app, Nat.add_comm. cbn [length Nat.add].
  cbn [replicate foldl]. assert (push absolute (c ++ ns ++ [x]) [dot; dot] = c ++ ns) as ->.
  { unfold push. rewrite kind_back, pop_reverse, app_assoc, reverse_snoc.
    inversion Hx. case_decide; [by rewrite reverse_involutive|done]. }
  by apply IH.
Qed.

Lemma foldl_push_relative vb vo : resolved true vb -> resolved true vo ->
  foldl (push true) vb (relative_segments vb vo) = vo.
Proof.
  intros (bs & ns & -> & _ & Hns & Hbs) (bs' & ns' & -> & _ & Hns' & Hbs').
  rewrite (Hbs eq_refl), (Hbs' eq_refl) in *. cbn [app] in *. unfold relative_segments.
  destruct (strip_common_prefix ns ns') as (c & E1 & E2). rewrite foldl_app.
  rewrite E1 in Hns. apply Forall_app in Hns as [_ Hns].
  rewrite E2 in Hns'. apply Forall_app in Hns' as [_ Hns'].
  rewrite E1 at 1. rewrite foldl_push_back_names by done.
  rewrite foldl_push_normals by done. by rewrite <- E2.
Qed.

Lemma relative_segments_ok vb vo : segments_ok vo -> segments_ok (relative_segments vb vo).
Proof.
  intros Hvo. unfold relative_segments. apply Forall_app. split.
  - apply Forall_replicate. split; [done|]. repeat constructor.
  - destruct (strip_common_prefix vb vo) as (c & _ & E). rewrite E in Hvo.
    by apply Forall_app in Hvo as [_ ?].
Qed.

Lemma normal_text_true ws : normal_text true ws = 47%Z :: intercalate (resolve true ws).
Proof. unfold normal_text. destruct ws as [|w ws]; [done|]. by destruct (resolve true (w :: ws)). Qed.

Lemma relative_text_resolves vb vo : resolved true vb -> resolved true vo -> segments_ok vo ->
  foldl (push true) vb (words (relative_text vb vo)) = vo.
Proof.
  intros Hb Ho Hok. pose proof (foldl_push_relative vb vo Hb Ho) as H.
  pose proof (relative_segments_ok vb vo Hok) as Hs. unfold relative_text.
  destruct (relative_segments vb vo) as [|w ws]; [exact H|]. by rewrite words_intercalate.
Qed.

Lemma relative_text_ok vb vo : Forall cstr_ok vo -> cstr_ok (relative_text vb vo).
Proof.
  intros Hvo. unfold relative_text.
  assert (Forall cstr_ok (relative_segments vb vo)) as H.
  { apply Forall_app. split; [apply Forall_replicate, dot_ok|].
    destruct (strip_common_prefix vb vo) as (c & _ & E). rewrite E in Hvo.
    by apply Forall_app in Hvo as [_ ?]. }
  destruct (relative_segments vb vo); [apply dot_ok|]. by apply intercalate_forall.
Qed.

(** ** Properties *)

(** C36 The relative path leads from the base to the target: for absolute
    paths [base] and [path], joining [base] with the text that
    [cwk_path_get_relative] produces normalises to the same text as [path]
    itself, whatever the buffers. *)
Theorem get_relative_roundtrip base path b0 n b1 m :
  cstr_ok base -> cstr_ok path -> is_abs base = true -> is_abs path = true ->
  n <= length b0 -> m <= length b1 ->
  (3 * Z.of_nat (length base) + Z.of_nat (length path) < 2 ^ 62)%Z ->
  exists r,
    cwk_path_get_relative UNIX base path b0 (Z.of_nat n)
      = Ok (final_output b0 n r, Z.of_nat (length r)) /\
    cwk_path_join UNIX base r b1 (Z.of_nat m) = cwk_path_normalize UNIX path b1 (Z.of_nat m).
Proof.
  intros Hb Hp Ab Ap Hn Hm H64.
  set (vb := resolve true (words base)). set (vo := resolve true (words path)).
  exists (relative_text vb vo).
  pose proof (get_relative_spec base path b0 n Hb Hp Hn ltac:(lia)) as Hrel. cbv zeta in Hrel.
  rewrite Ab, Ap in Hrel. rewrite decide_True in Hrel by done. split; [exact Hrel|].
  assert (Forall cstr_ok vo) as Hvo.
  { pose proof (words_forall _ path Hp) as Hw. rewrite Forall_forall in Hw |- *. intros w ?.
    apply Hw. by apply (sublist_subseteq _ _ (resolve_sublist true (words path))). }
  assert (normal_join [base; relative_text vb vo] = normal_join [path]) as E.
  { unfold normal_join. rewrite Ab, Ap, !normal_text_true, !all_words_cons.
    change (all_words []) with (@nil cstr). rewrite !app_nil_r. do 2 f_equal.
    rewrite resolve_app. apply relative_text_resolves; try apply resolve_resolved.
    apply resolve_segments_ok, words_segments_ok. }
  assert (Z.of_nat (length (normal_join [path])) < 2 ^ 64)%Z as Hl.
  { rewrite normal_join_1. pose proof (length_normal_text path). lia. }
  unfold cwk_path_join, cwk_path_normalize. rewrite !join_and_normalize_spec; rewrite ?E; auto.
  repeat constructor; [done|by apply relative_text_ok].
Qed.

Lemma get_relative_roundtrip_witness :
  exists r,
    cwk_path_get_relative UNIX (bytes_of "/a/b/c") (bytes_of "/a/./x") (replicate 4 7%Z) (Z.of_nat 4)
      = Ok (final_output (replicate 4 7%Z) 4 r, Z.of_nat (length r)) /\
    cwk_path_join UNIX (bytes_of "/a/b/c") r (replicate 9 7%Z) (Z.of_nat 9)
      = cwk_path_normalize UNIX (bytes_of "/a/./x") (replicate 9 7%Z) (Z.of_nat 9).
Proof.
  apply (get_relative_roundtrip (bytes_of "/a/b/c") (bytes_of "/a/./x") (replicate 4 7%Z) 4
    (replicate 9 7%Z) 9);
    [repeat constructor; vm_compute; done..|reflexivity|reflexivity|vm_compute; lia|vm_compute; lia
    |vm_compute; done].
Defined.

(** ** The last segment *)

Lemma words_nil_seps l : words l = [] -> Forall (fun c => issep c = true) l.
Proof.
  intros H. assert (Forall (fun w => w = []) (fields l)) as Hf.
  { apply Forall_forall. intros w Hw. destruct (decide (w = [])) as [|Hne]; [done|].
    assert (w ∈ words l) as Hin by (by apply list_elem_of_filter). rewrite H in Hin.
    by apply not_elem_of_nil in Hin. }
  clear H. induction l as [|c l IH]; [done|]. cbn [fields] in Hf.
  destruct (issep c) eqn:E; [apply Forall_cons in Hf as [_ Hf]; auto|].
  destruct (fields l); apply Forall_cons in Hf as [? _]; done.
Qed.

Lemma get_last_segment_unix path : cstr_ok path ->
  match reverse (words path) with
  | [] => exists seg, cwk_path_get_last_segment UNIX path = Ok (false, seg)
  | w :: R => exists seg l r,
      cwk_path_get_last_segment UNIX path = Ok (true, seg) /\
      path = l ++ w ++ r /\ sg_begin seg = length l /\ sg_size seg = length w /\
      sg_end seg = length (l ++ w) /\ Forall (fun c => nosep c = true) w /\ w <> [] /\
      Forall (fun c => issep c = true) r /\ bounded_r r /\ words l = reverse R
  end.
Proof.
  intros Hok. set (st := if is_abs path then 1 else 0).
  assert (Forall (fun c => issep c = true) (take st path)) as Hsep.
  { subst st. destruct path as [|c p]; [done|]. simpl. destruct (issep c) eqn:E; simpl; auto. }
  pose proof (last_segment_of path st Hok (root_le path) Hsep) as H.
  unfold cwk_path_get_last_segment, cwk_path_get_first_segment. rewrite get_root_unix. cbn [bind].
  fold st. destruct (reverse (words path)) as [|w R].
  { destruct H as (seg & ->). by exists seg. }
  destruct H as (seg0 & seg & l & r & -> & Hlast & Hp & Hs & Hat & Hr & Hl).
  cbn [bind]. rewrite Hlast. cbn [bind].
  exists seg, (take st path ++ l), r. destruct Hat as [Ht Hrt Hb He Hsz Hw Hns Hbl Hbr].
  rewrite Hp, Hs in *. split_and!; try done.
  - rewrite <- (take_drop st path) at 1. by rewrite Ht, <- app_assoc.
  - rewrite length_app, length_take. lia.
  - rewrite !length_app, length_take. lia.
  - by apply words_nil_seps.
  - by rewrite words_seps.
Qed.

Lemma lookup_split {A} (l : list A) i x : l !! i = Some x ->
  exists l1 l2, l = l1 ++ x :: l2 /\ length l1 = i.
Proof. intros H. exists (take i l), (drop (S i) l). split; [by rewrite take_drop_middle|].
  apply lookup_lt_Some in H. rewrite length_take. lia. Qed.

(** [find_extension_loop] returns the last dot at or before [c], from [begin] on. *)
Lemma find_extension_spec s begin : cstr_ok s -> forall c, begin <= c <= length s ->
  exists e, find_extension_loop s begin c = Ok e /\
    match e with
    | Some i => begin <= i <= c /\ s !! i = Some dot /\ forall j, i < j <= c -> s !! j <> Some dot
    | None => forall j, begin <= j <= c -> s !! j <> Some dot
    end.
Proof.
  intros Hok.
  assert (forall c, c <= length s -> exists ch, cget s c = Ok ch /\ (ch = dot <-> s !! c = Some dot)) as Hg.
  { intros c Hc. unfold cget. destruct (decide (c < length s)).
    - destruct (lookup_lt_is_Some_2 s c) as [x Hx]; [done|]. exists x.
      rewrite (nth_lookup_Some _ _ _ _ Hx). rewrite Hx. split; [done|]. naive_solver.
    - rewrite decide_True by lia. exists 0%Z. rewrite lookup_ge_None_2 by lia. done. }
  induction c as [|c IH]; intros Hc; cbn [find_extension_loop];
    destruct (Hg _ (proj2 Hc)) as (ch & -> & Hch); cbn [bind]; case_decide as Hd.
  - exists (Some 0). split; [done|]. split_and!; [lia..|tauto|]. intros; lia.
  - exists None. split; [done|]. intros j Hj. replace j with 0 by lia. tauto.
  - exists (Some (S c)). split; [done|]. split_and!; [lia..|tauto|]. intros; lia.
  - case_decide as Hle.
    2:{ exists None. split; [done|]. intros j Hj. replace j with (S c) by lia. tauto. }
    destruct IH as (e & -> & He); [lia|]. exists e. split; [done|]. destruct e as [i|].
    + destruct He as (Hi & Hdot & Hno). split_and!; [lia..|done|]. intros j Hj.
      destruct (decide (j = S c)) as [->|]; [tauto|]. apply Hno. lia.
    + intros j Hj. destruct (decide (j = S c)) as [->|]; [tauto|]. apply He. lia.
Qed.

(** Basename and directory name split a path: a path with a segment is the
    directory name (as many characters as [cwk_path_get_dirname] returns),
    then the basename, which is its last segment, then only separators; a
    path without one has no basename and an empty directory name. *)
Theorem basename_dirname path : cstr_ok path ->
  match last (words path) with
  | None => cwk_path_get_basename UNIX path = Ok None /\ cwk_path_get_dirname UNIX path = Ok 0
  | Some w => exists dir seps,
      path = dir ++ w ++ seps /\ Forall (fun c => issep c = true) seps /\
      cwk_path_get_basename UNIX path = Ok (Some (length dir, length w)) /\
      cwk_path_get_dirname UNIX path = Ok (length dir)
  end.
Proof.
  intros Hok. pose proof (get_last_segment_unix path Hok) as H.
  unfold cwk_path_get_basename, cwk_path_get_dirname.
  rewrite <- (reverse_involutive (words path)).
  destruct (reverse (words path)) as [|w R].
  { destruct H as (seg & ->). done. }
  rewrite reverse_cons, last_snoc.
  destruct H as (seg & l & r & -> & E & Hb & Hs & _ & _ & _ & Hr & _). cbn [bind].
  exists l, r. by rewrite Hb, Hs.
Qed.

Lemma basename_dirname_witness :
  exists dir seps,
    bytes_of "/usr/lib//" = dir ++ bytes_of "lib" ++ seps /\ Forall (fun c => issep c = true) seps /\
    cwk_path_get_basename UNIX (bytes_of "/usr/lib//") = Ok (Some (length dir, 3)) /\
    cwk_path_get_dirname UNIX (bytes_of "/usr/lib//") = Ok (length dir).
Proof. apply (basename_dirname (bytes_of "/usr/lib//")). repeat constructor; vm_compute; done. Defined.

(** The extension is what follows the last dot of the basename: when
    [cwk_path_get_extension] finds one, it is the end of the last segment from
    its last dot on (the dot included), inside the segment; when it finds
    none, the segment has no dot.  A caller that passes no place for the
    length makes the code store through the null pointer exactly when there
    is an extension. *)
Theorem get_extension_correct path l w seps : cstr_ok path -> path = l ++ w ++ seps ->
  cwk_path_get_basename UNIX path = Ok (Some (length l, length w)) ->
  (dot ∉ w /\ forall p, cwk_path_get_extension UNIX path p = Ok None) \/
  (exists w1 w2, w = w1 ++ dot :: w2 /\ dot ∉ w2 /\
     cwk_path_get_extension UNIX path true = Ok (Some (length (l ++ w1), S (length w2))) /\
     cwk_path_get_extension UNIX path false = Err NullDeref).
Proof.
  intros Hok E Hb. unfold cwk_path_get_basename, cwk_path_get_extension in *.
  pose proof (get_last_segment_unix path Hok) as H. destruct (reverse (words path)) as [|w' R].
  { destruct H as (seg & Hseg). by rewrite Hseg in Hb. }
  destruct H as (seg & l' & r & Hseg & E' & Hb' & Hs' & He' & Hns & Hne & Hr & Hbr & _).
  rewrite Hseg in *. cbn [bind] in *. injection Hb as Hl Hw.
  rewrite E in E'. apply app_inj_1 in E' as [<- E']; [|congruence].
  apply app_inj_1 in E' as [<- <-]; [|congruence].
  destruct (find_extension_spec path (sg_begin seg) Hok (sg_end seg)) as (e & He & Hspec).
  { rewrite He', Hb', E, !length_app. lia. }
  assert (forall j, j < length w -> path !! (length l + j) = w !! j) as Hlook.
  { intros j Hj. rewrite E, lookup_app_r, lookup_app_l by lia. f_equal. lia. }
  rewrite He. rewrite He', Hb', length_app in *. cbn [bind]. destruct e as [i|].
  - right. destruct Hspec as (Hi & Hdot & Hno).
    assert (i < length l + length w) as Hlt.
    { destruct (decide (i = length l + length w)) as [->|]; [|lia].
      rewrite E, app_assoc, lookup_app_r, length_app, Nat.sub_diag in Hdot by (rewrite length_app; lia).
      destruct Hbr as [->|(c & r' & -> & Hc)]; [done|]. injection Hdot as ->. done. }
    replace i with (length l + (i - length l)) in Hdot by lia. rewrite Hlook in Hdot by lia.
    apply lookup_split in Hdot as (w1 & w2 & -> & Hw1).
    exists w1, w2. split; [done|]. rewrite !length_app in *. cbn [length] in *. split_and!; [|repeat f_equal; lia|done].
    intros (j & Hj)%list_elem_of_lookup.
    pose proof (lookup_lt_Some _ _ _ Hj).
    apply (Hno (length l + (length w1 + S j))); [lia|]. rewrite Hlook by lia.
    rewrite lookup_app_r by lia. by replace (length w1 + S j - length w1) with (S j) by lia.
  - left. split; [|done]. intros (j & Hj)%list_elem_of_lookup.
    pose proof (lookup_lt_Some _ _ _ Hj). apply (Hspec (length l + j)); [lia|]. by rewrite Hlook.
Qed.

Lemma get_extension_correct_witness :
  cwk_path_get_basename UNIX (bytes_of "/a.b/c.d.e") = Ok (Some (5, 5)) /\
  ((dot ∉ bytes_of "c.d.e" /\ forall p, cwk_path_get_extension UNIX (bytes_of "/a.b/c.d.e") p = Ok None) \/
  (exists w1 w2, bytes_of "c.d.e" = w1 ++ dot :: w2 /\ dot ∉ w2 /\
     cwk_path_get_extension UNIX (bytes_of "/a.b/c.d.e") true = Ok (Some (length (bytes_of "/a.b/" ++ w1), S (length w2))) /\
     cwk_path_get_extension UNIX (bytes_of "/a.b/c.d.e") false = Err NullDeref)).
Proof.
  split; [vm_compute; reflexivity|].
  apply (get_extension_correct (bytes_of "/a.b/c.d.e") (bytes_of "/a.b/") (bytes_of "c.d.e") []);
    [repeat constructor; vm_compute; done|reflexivity|vm_compute; reflexivity].
Defined.
