(* ===== verification/Arith64.v ===== *)
(** * 64-bit arithmetic for 32-bit kernels

    src/kernel/libs/ArithmeticOperations.c: the routines the compiler calls on
    i386 for 64-bit shifts, divisions and bit counts.  Values of a [w]-bit type
    are integers in the type's range; shifts by an amount outside the type's
    width and signed overflow are undefined. *)

From S2P Require Import Prelude.

Local Open Scope Z_scope.

(** ** Operators on machine words *)

(** [a << n] and [a >> n] on an unsigned type of [w] bits. *)
Definition shl (w a n : Z) : res Z :=
  if decide (0 <= n < w) then Ok (wrapu w (Z.shiftl a n)) else Err Undefined.

Definition shr (w a n : Z) : res Z :=
  if decide (0 <= n < w) then Ok (Z.shiftr a n) else Err Undefined.

(** C's [!x]. *)
Definition lnot (x : Z) : Z := b2z (bool_decide (x = 0)).

(** ** The word union *)

Record arith64_word := mk_word { lo : Z; hi : Z }.

Definition word_of (a : Z) : arith64_word :=
  mk_word (u32 a) (u32 (Z.shiftr a 32)).

Definition word_u64 (w : arith64_word) : Z := lo w + Z.shiftl (hi w) 32.
Definition word_s64 (w : arith64_word) : Z := s64 (word_u64 w).

Definition arith64_hi (n : Z) : Z := hi (word_of n).
Definition arith64_lo (n : Z) : Z := lo (word_of n).

(** ** Signs *)

(** [arith64_neg(a, b)] with a signed [a]: the addition overflows when it
    negates the least value. *)
Definition arith64_neg (a b : Z) : res Z :=
  let r := Z.lxor a (b2z (bool_decide (0 <= b)) - 1) + b2z (bool_decide (b < 0)) in
  if decide (- 2 ^ 63 <= r < 2 ^ 63) then Ok r else Err Undefined.

(** The same with an unsigned [a]: the mask is converted to the unsigned type. *)
Definition arith64_neg_u (a b : Z) : Z :=
  u64 (Z.lxor a (u64 (b2z (bool_decide (0 <= b)) - 1)) + b2z (bool_decide (b < 0))).

Definition arith64_abs (a : Z) : res Z := arith64_neg a a.

Definition __absvdi2 (a : Z) : res Z := arith64_abs a.

(** ** Shifts *)

Definition __ashldi3 (a b : Z) : res Z :=
  let w := word_of a in
  let b := Z.land b 63 in
  if decide (32 <= b) then
    let* h := shl 32 (lo w) (b - 32) in
    Ok (word_s64 (mk_word 0 h))
  else if decide (b = 0) then Ok (word_s64 w)
  else
    let* h1 := shr 32 (lo w) (32 - b) in
    let* h2 := shl 32 (hi w) b in
    let* l := shl 32 (lo w) b in
    Ok (word_s64 (mk_word l (Z.lor h1 h2))).

(** [w.s32.hi >> n] is an arithmetic shift; its result is stored as 32 bits. *)
Definition sar32 (x n : Z) : res Z :=
  if decide (0 <= n < 32) then Ok (u32 (Z.shiftr (s32 x) n)) else Err Undefined.

Definition __ashrdi3 (a b : Z) : res Z :=
  let w := word_of a in
  let b := Z.land b 63 in
  if decide (32 <= b) then
    let* l := sar32 (hi w) (b - 32) in
    let* h := sar32 (hi w) 31 in
    Ok (word_s64 (mk_word l h))
  else if decide (b = 0) then Ok (word_s64 w)
  else
    let* l1 := shl 32 (hi w) (32 - b) in
    let* l2 := shr 32 (lo w) b in
    let* h := sar32 (hi w) b in
    Ok (word_s64 (mk_word (Z.lor l1 l2) h)).

Definition __lshrdi3 (a b : Z) : res Z :=
  let w := word_of a in
  let b := Z.land b 63 in
  if decide (32 <= b) then
    let* l := shr 32 (hi w) (b - 32) in
    Ok (word_u64 (mk_word l 0))
  else if decide (b = 0) then Ok (word_u64 w)
  else
    let* l1 := shl 32 (hi w) (32 - b) in
    let* l2 := shr 32 (lo w) b in
    let* h := shr 32 (hi w) b in
    Ok (word_u64 (mk_word (Z.lor l1 l2) h)).

(** ** Leading and trailing zeros *)

(** One step: [b = !(a & mask) << k; n += b; a <<= b;] *)
Definition clz_step (w : Z) (mask k : Z) (s : Z * Z) : Z * Z :=
  let '(a, n) := s in
  let b := Z.shiftl (lnot (Z.land a mask)) k in
  (wrapu w (Z.shiftl a b), n + b).

Definition __clzsi2 (a : Z) : Z :=
  let '(a, n) :=
    clz_step 32 0xc0000000 1 (clz_step 32 0xf0000000 2
      (clz_step 32 0xff000000 3 (clz_step 32 0xffff0000 4 (a, 0)))) in
  n + lnot (Z.land a 0x80000000).

Definition __clzdi2 (a : Z) : Z :=
  let '(a, n) :=
    clz_step 64 0xc000000000000000 1 (clz_step 64 0xf000000000000000 2
      (clz_step 64 0xff00000000000000 3 (clz_step 64 0xffff000000000000 4
        (clz_step 64 0xffffffff00000000 5 (a, 0))))) in
  n + lnot (Z.land a 0x8000000000000000).

(** One step: [b = !(a & mask) << k; n += b; a >>= b;] *)
Definition ctz_step (mask k : Z) (s : Z * Z) : Z * Z :=
  let '(a, n) := s in
  let b := Z.shiftl (lnot (Z.land a mask)) k in
  (Z.shiftr a b, n + b).

Definition __ctzsi2 (a : Z) : Z :=
  let '(a, n) :=
    ctz_step 0x3 1 (ctz_step 0xf 2 (ctz_step 0xff 3 (ctz_step 0xffff 4 (a, 0)))) in
  n + lnot (Z.land a 1).

Definition __ctzdi2 (a : Z) : Z :=
  let '(a, n) :=
    ctz_step 0x3 1 (ctz_step 0xf 2 (ctz_step 0xff 3 (ctz_step 0xffff 4
      (ctz_step 0xffffffff 5 (a, 0))))) in
  n + lnot (Z.land a 1).

Definition __ffsdi2 (a : Z) : Z :=
  if decide (a = 0) then 0 else __ctzdi2 a + 1.

(** ** Division *)

(** The sign of [b - rem - 1] read as a signed number, as a mask. *)
Definition wrap_mask (b rem : Z) : Z := u64 (Z.shiftr (s64 (b - rem - 1)) 63).

(** [while (bits-- > 0)] *)
Fixpoint divmod_loop (bits : nat) (a b rem wrap : Z) : Z * Z * Z :=
  match bits with
  | O => (a, rem, wrap)
  | S bits' =>
      let rem := Z.lor (u64 (Z.shiftl rem 1)) (Z.shiftr a 63) in
      let a := Z.lor (u64 (Z.shiftl a 1)) (Z.land wrap 1) in
      let wrap := wrap_mask b rem in
      let rem := u64 (rem - Z.land b wrap) in
      divmod_loop bits' a b rem wrap
  end.

(** The quotient, and the remainder stored when [c] is not null. *)
Definition __divmoddi4 (a b : Z) (c : bool) : res (Z * option Z) :=
  let store r := if c then Some r else None in
  if decide (a < b) then Ok (0, store a)
  else if decide (arith64_hi b = 0 /\ b = 0) then Err DivByZero
  else if decide (arith64_hi b = 0 /\ b = 1) then Ok (a, store 0)
  else if decide (arith64_hi b = 0 /\ arith64_hi a = 0) then
    Ok (arith64_lo a / arith64_lo b, store (arith64_lo a mod arith64_lo b))
  else
    let bits := s8 (__clzdi2 b - __clzdi2 a + 1) in
    let* rem := shr 64 a bits in
    let* a := shl 64 a (64 - bits) in
    let '(a, rem, wrap) := divmod_loop (Z.to_nat bits) a b rem 0 in
    Ok (Z.lor (u64 (Z.shiftl a 1)) (Z.land wrap 1), store rem).

Definition __divdi3 (a b : Z) : res Z :=
  let* x := arith64_abs a in
  let* y := arith64_abs b in
  let* '(q, _) := __divmoddi4 (u64 x) (u64 y) false in
  Ok (s64 (arith64_neg_u q (Z.lxor a b))).

(** The remainder the callee stored. *)
Definition stored (r : option Z) : res Z :=
  match r with
  | Some z => Ok z
  | None => Err Undefined
  end.

Definition __moddi3 (a b : Z) : res Z :=
  let* x := arith64_abs a in
  let* y := arith64_abs b in
  let* '(_, c) := __divmoddi4 (u64 x) (u64 y) true in
  let* r := stored c in
  Ok (s64 (arith64_neg_u r a)).

Definition __udivdi3 (a b : Z) : res Z :=
  let* '(q, _) := __divmoddi4 a b false in Ok q.

Definition __umoddi3 (a b : Z) : res Z :=
  let* '(_, c) := __divmoddi4 a b true in stored c.

(** ** Bits set *)

Definition __popcountsi2 (a : Z) : Z :=
  let a := u32 (a - Z.land (Z.shiftr a 1) 0x55555555) in
  let a := u32 (Z.land (Z.shiftr a 2) 0x33333333 + Z.land a 0x33333333) in
  let a := Z.land (u32 (a + Z.shiftr a 4)) 0x0F0F0F0F in
  let a := u32 (a + Z.shiftr a 16) in
  Z.land (u32 (a + Z.shiftr a 8)) 63.

Definition __popcountdi2 (a : Z) : Z :=
  let a := u64 (a - Z.land (Z.shiftr a 1) 0x5555555555555555) in
  let a := u64 (Z.land (Z.shiftr a 2) 0x3333333333333333 + Z.land a 0x3333333333333333) in
  let a := Z.land (u64 (a + Z.shiftr a 4)) 0x0F0F0F0F0F0F0F0F in
  let a := u64 (a + Z.shiftr a 32) in
  let a := u64 (a + Z.shiftr a 16) in
  Z.land (u64 (a + Z.shiftr a 8)) 127.

Example udiv_1 : __udivdi3 (2 ^ 64 - 1) 10000000019 = Ok 1844674403.
Proof. vm_compute. reflexivity. Qed.
Example udiv_2 : __udivdi3 (2 ^ 64 - 1) (2 ^ 63 + 5) = Ok 1.
Proof. vm_compute. reflexivity. Qed.
Example popcount_1 : __popcountdi2 (2 ^ 64 - 1) = 64.
Proof. vm_compute. reflexivity. Qed.
Example popcount_2 : __popcountsi2 (2 ^ 32 - 1) = 32.
Proof. vm_compute. reflexivity. Qed.
Example ashr_1 : __ashrdi3 (-5000000000000) 33 = Ok (-5000000000000 / 2 ^ 33).
Proof. vm_compute. reflexivity. Qed.
Example ashl_1 : __ashldi3 (-5) 33 = Ok (-5 * 2 ^ 33).
Proof. vm_compute. reflexivity. Qed.
Example clz_1 : __clzdi2 1 = 63 /\ __ctzdi2 (2 ^ 40) = 40 /\ __clzsi2 5 = 29 /\ __ctzsi2 40 = 3.
Proof. vm_compute. auto. Qed.
Example div_1 : __divdi3 (-7) 2 = Ok (-3) /\ __moddi3 (-7) 2 = Ok (-1) /\ __moddi3 7 0 = Err DivByZero.
Proof. vm_compute. auto. Qed.

(** ** Lemmas: words and bit operations *)

Lemma land_63 b : Z.land b 63 = b mod 64.
Proof. exact (Z.land_ones b 6 ltac:(lia)). Qed.

Lemma word_range a : 0 <= lo (word_of a) < 2 ^ 32 /\ 0 <= hi (word_of a) < 2 ^ 32.
Proof. split; apply wrapu_range; lia. Qed.

Lemma word_value a : lo (word_of a) + hi (word_of a) * 2 ^ 32 = u64 a.
Proof.
  cbn [word_of lo hi]. unfold wrapu. rewrite Z.shiftr_div_pow2 by lia.
  change (2 ^ 64) with (2 ^ 32 * 2 ^ 32). rewrite Z.rem_mul_r by lia. lia.
Qed.

Lemma wraps_mod w x y : 0 < w -> wrapu w x = wrapu w y -> wraps w x = wraps w y.
Proof.
  unfold wrapu, wraps. intros Hw H. f_equal.
  rewrite <- (Z.add_mod_idemp_l x), <- (Z.add_mod_idemp_l y) by (apply Z.pow_nonzero; lia).
  by rewrite H.
Qed.

Lemma wrapu_idem w x : 0 <= w -> wrapu w (wrapu w x) = wrapu w x.
Proof. intros. apply Z.mod_mod, Z.pow_nonzero; lia. Qed.

Lemma wraps_wrapu w x : 0 < w -> wraps w (wrapu w x) = wraps w x.
Proof. intros. apply wraps_mod; [done|]. apply wrapu_idem. lia. Qed.

Lemma wrapu_wraps w x : 0 < w -> wrapu w (wraps w x) = wrapu w x.
Proof.
  intros. unfold wrapu, wraps. rewrite Zminus_mod, Z.mod_mod, <- Zminus_mod by (apply Z.pow_nonzero; lia).
  f_equal. lia.
Qed.

Lemma shl_Ok w a n : 0 <= n < w -> shl w a n = Ok (wrapu w (a * 2 ^ n)).
Proof. intros. unfold shl. rewrite decide_True by done. by rewrite Z.shiftl_mul_pow2 by lia. Qed.

Lemma shr_Ok w a n : 0 <= n < w -> shr w a n = Ok (a / 2 ^ n).
Proof. intros. unfold shr. rewrite decide_True by done. by rewrite Z.shiftr_div_pow2 by lia. Qed.

Lemma sar32_Ok x n : 0 <= n < 32 -> sar32 x n = Ok (u32 (s32 x / 2 ^ n)).
Proof. intros. unfold sar32. rewrite decide_True by done. by rewrite Z.shiftr_div_pow2 by lia. Qed.

Lemma pow_split b : 0 <= b <= 32 -> 2 ^ (32 - b) * 2 ^ b = 2 ^ 32.
Proof. intros. rewrite <- Z.pow_add_r by lia. f_equal. lia. Qed.

(** [(x * 2^b) mod 2^32] keeps the low [32 - b] bits of [x]. *)
Lemma shl_part x b : 0 <= b <= 32 -> wrapu 32 (x * 2 ^ b) = (x mod 2 ^ (32 - b)) * 2 ^ b.
Proof.
  intros. unfold wrapu. rewrite <- (pow_split b) by lia.
  apply Z.mul_mod_distr_r; apply Z.pow_nonzero; lia.
Qed.

(** ** Shifts are multiplication and division by powers of two *)

Lemma ashl_value a b : 0 <= b < 64 ->
  (let w := word_of a in
   if decide (32 <= b) then word_u64 (mk_word 0 (wrapu 32 (lo w * 2 ^ (b - 32))))
   else word_u64 (mk_word (wrapu 32 (lo w * 2 ^ b)) (Z.lor (lo w / 2 ^ (32 - b)) (wrapu 32 (hi w * 2 ^ b)))))
  = u64 (a * 2 ^ b).
Proof.
  intros Hb. cbv zeta. destruct (word_range a) as [Hl Hh]. pose proof (word_value a) as Hv.
  set (l := lo (word_of a)) in *. set (h := hi (word_of a)) in *.
  assert (u64 (a * 2 ^ b) = u64 ((l + h * 2 ^ 32) * 2 ^ b)) as ->.
  { rewrite Hv. unfold wrapu. by rewrite Z.mul_mod_idemp_l by lia. }
  unfold word_u64. cbn [lo hi].
  change (u64 ((l + h * 2 ^ 32) * 2 ^ b)) with (((l + h * 2 ^ 32) * 2 ^ b) mod 2 ^ 64). case_decide.
  - replace ((l + h * 2 ^ 32) * 2 ^ b) with (l * 2 ^ (b - 32) * 2 ^ 32 + h * 2 ^ (b - 32) * 2 ^ 64).
    2:{ replace (2 ^ b) with (2 ^ (b - 32) * 2 ^ 32) by (rewrite <- Z.pow_add_r by lia; f_equal; lia).
        change (2 ^ 64) with (2 ^ 32 * 2 ^ 32). ring. }
    rewrite Z.mod_add, Z.shiftl_mul_pow2 by lia. unfold wrapu. change (2 ^ 64) with (2 ^ 32 * 2 ^ 32).
    rewrite Z.mul_mod_distr_r by lia. lia.
  - rewrite !shl_part by lia. pose proof (pow_split b ltac:(lia)) as Hp.
    set (P := 2 ^ (32 - b)) in *. set (B := 2 ^ b) in *.
    assert (0 < P) by (apply Z.pow_pos_nonneg; lia). assert (0 < B) by (apply Z.pow_pos_nonneg; lia).
    pose proof (Z.div_mod l P ltac:(lia)) as El. pose proof (Z.mod_pos_bound l P ltac:(lia)).
    pose proof (Z.div_mod h P ltac:(lia)) as Eh. pose proof (Z.mod_pos_bound h P ltac:(lia)).
    assert (0 <= l / P < B).
    { split; [apply Z.div_pos; lia|]. apply Z.div_lt_upper_bound; lia. }
    subst B. rewrite lor_add by lia. set (B := 2 ^ b) in *.
    assert (forall x, 0 <= x < P -> 0 <= x * B <= 2 ^ 32 - B) as Hx by (intros; nia).
    pose proof (Hx (l mod P) ltac:(lia)). pose proof (Hx (h mod P) ltac:(lia)).
    rewrite Z.shiftl_mul_pow2 by lia. apply Z.mod_unique with (h / P); [left; lia|].
    change (2 ^ 64) with (2 ^ 32 * 2 ^ 32). rewrite <- Hp. rewrite El at 1. rewrite Eh at 1. ring.
Qed.

Lemma shr_value h l b : 0 <= l < 2 ^ 32 -> 0 <= h < 2 ^ 32 -> 0 < b < 32 ->
  Z.lor (wrapu 32 (h * 2 ^ (32 - b))) (l / 2 ^ b) + (h / 2 ^ b) * 2 ^ 32
    = (l + h * 2 ^ 32) / 2 ^ b.
Proof.
  intros Hl Hh Hb. rewrite shl_part by lia. replace (32 - (32 - b)) with b by lia.
  pose proof (pow_split b ltac:(lia)) as Hp.
  assert (0 < 2 ^ b) by (apply Z.pow_pos_nonneg; lia).
  assert (0 < 2 ^ (32 - b)) by (apply Z.pow_pos_nonneg; lia).
  rewrite lor_add_r; [|lia|split; [apply Z.div_pos; lia|apply Z.div_lt_upper_bound; lia]].
  set (P := 2 ^ (32 - b)) in *. set (B := 2 ^ b) in *.
  replace (l + h * 2 ^ 32) with (l + (h * P) * B) by (rewrite <- Hp; ring).
  rewrite Z.div_add by lia. pose proof (Z.div_mod h B ltac:(lia)). rewrite <- Hp. nia.
Qed.

Lemma sar_value h n : 0 <= h < 2 ^ 32 -> 0 <= n < 32 ->
  s32 (u32 (s32 h / 2 ^ n)) = s32 h / 2 ^ n.
Proof.
  intros Hh Hn. rewrite wraps_wrapu by lia. apply wraps_small; [lia|].
  pose proof (wraps_range 32 h ltac:(lia)) as Hr. change (32 - 1) with 31 in *.
  assert (0 < 2 ^ n) by (apply Z.pow_pos_nonneg; lia). split.
  - apply Z.div_le_lower_bound; [lia|]. nia.
  - apply Z.div_lt_upper_bound; [lia|]. nia.
Qed.

(** A word whose high half is read signed is the signed value. *)
Lemma word_s64_value l h : 0 <= l < 2 ^ 32 -> word_s64 (mk_word l h) = l + s32 h * 2 ^ 32.
Proof.
  intros Hl. unfold word_s64, word_u64. cbn [lo hi]. rewrite Z.shiftl_mul_pow2 by lia.
  pose proof (wraps_range 32 h ltac:(lia)). change (32 - 1) with 31 in *.
  rewrite <- (wraps_small 64 (l + s32 h * 2 ^ 32)) by (change (64 - 1) with 63; lia).
  apply wraps_mod; [lia|]. unfold wrapu, wraps. change (2 ^ 64) with (2 ^ 32 * 2 ^ 32).
  replace (l + h * 2 ^ 32) with (l + (h + 2 ^ (32 - 1)) * 2 ^ 32 - 2 ^ (32 - 1) * 2 ^ 32) by lia.
  pose proof (Z.div_mod (h + 2 ^ (32 - 1)) (2 ^ 32) ltac:(lia)) as E.
  set (q := (h + 2 ^ (32 - 1)) / 2 ^ 32) in *. set (r := (h + 2 ^ (32 - 1)) mod 2 ^ 32) in *.
  rewrite E. replace (l + (2 ^ 32 * q + r) * 2 ^ 32 - 2 ^ (32 - 1) * 2 ^ 32)
    with (l + (r - 2 ^ (32 - 1)) * 2 ^ 32 + q * (2 ^ 32 * 2 ^ 32)) by ring.
  apply Z.mod_add. lia.
Qed.

Lemma s64_word a : - 2 ^ 63 <= a < 2 ^ 63 -> a = lo (word_of a) + s32 (hi (word_of a)) * 2 ^ 32.
Proof.
  intros Ha. destruct (word_range a) as [Hl _]. rewrite <- word_s64_value by done.
  unfold word_s64, word_u64. cbn [lo hi]. rewrite Z.shiftl_mul_pow2 by lia.
  rewrite word_value, wraps_wrapu by lia. symmetry. apply wraps_small; [lia|].
  by change (64 - 1) with 63.
Qed.

Lemma sshr_value h l b : 0 <= l < 2 ^ 32 -> 0 <= h < 2 ^ 32 -> 0 < b < 32 ->
  Z.lor (wrapu 32 (h * 2 ^ (32 - b))) (l / 2 ^ b) + (s32 h / 2 ^ b) * 2 ^ 32
    = (l + s32 h * 2 ^ 32) / 2 ^ b /\
  0 <= Z.lor (wrapu 32 (h * 2 ^ (32 - b))) (l / 2 ^ b) < 2 ^ 32.
Proof.
  intros Hl Hh Hb. pose proof (pow_split b ltac:(lia)) as Hp.
  assert (0 < 2 ^ b) by (apply Z.pow_pos_nonneg; lia).
  assert (0 < 2 ^ (32 - b)) by (apply Z.pow_pos_nonneg; lia).
  rewrite shl_part by lia. replace (32 - (32 - b)) with b by lia.
  assert (h mod 2 ^ b = s32 h mod 2 ^ b) as ->.
  { unfold wraps. rewrite <- Hp at 1. set (P := 2 ^ (32 - b)) in *. set (B := 2 ^ b) in *.
    rewrite (Z.mul_comm P B). rewrite Z.rem_mul_r by lia.
    replace (2 ^ (32 - 1)) with (B * 2 ^ (31 - b)).
    2:{ subst B. rewrite <- Z.pow_add_r by lia. f_equal. lia. }
    set (Q := 2 ^ (31 - b)). rewrite (Z.mul_comm B Q) at 1. rewrite Z.mod_add by lia.
    replace (h mod B + B * (((h + B * Q) / B) mod P) - B * Q)
      with (h mod B + ((((h + B * Q) / B) mod P) - Q) * B) by ring.
    rewrite Z.mod_add, Z.mod_mod by lia. done. }
  assert (0 <= l / 2 ^ b < 2 ^ (32 - b)).
  { split; [apply Z.div_pos; lia|apply Z.div_lt_upper_bound; lia]. }
  rewrite lor_add_r by lia. set (P := 2 ^ (32 - b)) in *. set (B := 2 ^ b) in *.
  pose proof (Z.mod_pos_bound (s32 h) B ltac:(lia)).
  split; [|nia].
  replace (l + s32 h * 2 ^ 32) with (l + (s32 h * P) * B) by (rewrite <- Hp; ring).
  rewrite Z.div_add by lia. pose proof (Z.div_mod (s32 h) B ltac:(lia)). rewrite <- Hp. nia.
Qed.

Lemma ashldi3_spec a b : __ashldi3 a b = Ok (s64 (a * 2 ^ (b mod 64))).
Proof.
  unfold __ashldi3. rewrite land_63. pose proof (Z.mod_pos_bound b 64 ltac:(lia)) as Hb.
  set (b' := b mod 64) in *. pose proof (ashl_value a b' Hb) as Hv. cbv zeta in Hv.
  rewrite <- (wraps_wrapu 64 (a * _)), <- Hv by lia. case_decide.
  - by rewrite shl_Ok by lia.
  - destruct (decide (b' = 0)) as [E|].
    + unfold word_s64. rewrite Hv, E, Z.mul_1_r. unfold word_u64.
      by rewrite Z.shiftl_mul_pow2, word_value by lia.
    + by rewrite shr_Ok, !shl_Ok by lia.
Qed.

Lemma lshrdi3_spec a b : 0 <= a < 2 ^ 64 -> __lshrdi3 a b = Ok (a / 2 ^ (b mod 64)).
Proof.
  intros Ha. unfold __lshrdi3. rewrite land_63. pose proof (Z.mod_pos_bound b 64 ltac:(lia)) as Hb.
  set (b' := b mod 64) in *. destruct (word_range a) as [Hl Hh]. pose proof (word_value a) as Hv.
  rewrite wrapu_small in Hv by done. case_decide; [|destruct (decide (b' = 0)) as [E|]].
  - rewrite shr_Ok by lia. cbn [bind]. f_equal. unfold word_u64. cbn [lo hi].
    rewrite <- Hv at 2. replace (2 ^ b') with (2 ^ 32 * 2 ^ (b' - 32)).
    2:{ rewrite <- Z.pow_add_r by lia. f_equal. lia. }
    rewrite <- Z.div_div by (lia || apply Z.pow_pos_nonneg; lia).
    rewrite (Z.div_add (lo _)), (Z.div_small (lo _)) by lia. by rewrite Z.add_0_r.
  - rewrite E, Z.div_1_r. unfold word_u64. by rewrite Z.shiftl_mul_pow2, Hv by lia.
  - rewrite shl_Ok, !shr_Ok by lia. cbn [bind]. f_equal. unfold word_u64. cbn [lo hi].
    rewrite Z.shiftl_mul_pow2, shr_value, Hv by lia. done.
Qed.

Lemma ashrdi3_spec a b : - 2 ^ 63 <= a < 2 ^ 63 -> __ashrdi3 a b = Ok (a / 2 ^ (b mod 64)).
Proof.
  intros Ha. unfold __ashrdi3. rewrite land_63. pose proof (Z.mod_pos_bound b 64 ltac:(lia)) as Hb.
  set (b' := b mod 64) in *. destruct (word_range a) as [Hl Hh].
  pose proof (s64_word a Ha) as Hv. case_decide; [|destruct (decide (b' = 0)) as [E|]].
  - rewrite !sar32_Ok by lia. cbn [bind]. f_equal.
    rewrite word_s64_value by (apply wrapu_range; lia). rewrite sar_value by lia.
    set (h := s32 (hi (word_of a))) in *.
    pose proof (wraps_range 32 (hi (word_of a)) ltac:(lia)) as Hr. fold h in Hr.
    change (32 - 1) with 31 in Hr. replace (a / 2 ^ b') with (h / 2 ^ (b' - 32)).
    2:{ rewrite Hv. replace (2 ^ b') with (2 ^ 32 * 2 ^ (b' - 32)).
        2:{ rewrite <- Z.pow_add_r by lia. f_equal. lia. }
        rewrite <- Z.div_div by (lia || apply Z.pow_pos_nonneg; lia). f_equal.
        rewrite (Z.div_add (lo _)), (Z.div_small (lo _)) by lia. lia. }
    assert (0 < 2 ^ (b' - 32)) by (apply Z.pow_pos_nonneg; lia). unfold wrapu.
    set (B := 2 ^ (b' - 32)) in *. pose proof (Z.div_mod h B ltac:(lia)).
    pose proof (Z.mod_pos_bound h B ltac:(lia)). destruct (decide (0 <= h)).
    + rewrite (Z.div_small h (2 ^ 31)) by lia.
      assert (0 <= h / B <= h) by (split; [apply Z.div_pos|apply Z.div_le_upper_bound]; nia).
      rewrite Z.mod_small by lia. lia.
    + assert (h / 2 ^ 31 = -1) as -> by (symmetry; apply Z.div_unique with (h + 2 ^ 31); lia).
      assert (- 2 ^ 31 <= h / B <= -1) by nia.
      rewrite <- (Z.mod_add _ 1), Z.mod_small by lia. lia.
  - rewrite E, Z.div_1_r. f_equal. rewrite Hv at 2. destruct (word_of a) as [l h].
    by apply word_s64_value.
  - rewrite shl_Ok, shr_Ok, sar32_Ok by lia. cbn [bind]. f_equal.
    destruct (sshr_value (hi (word_of a)) (lo (word_of a)) b' Hl Hh ltac:(lia)) as [Hs Hr].
    rewrite word_s64_value by done. rewrite sar_value by lia. by rewrite Hs, <- Hv.
Qed.

(** ** Counting zeros *)

Lemma land_high w k a : 0 <= k <= w -> 0 <= a < 2 ^ w ->
  Z.land a (Z.ones k * 2 ^ (w - k)) = 0 <-> a < 2 ^ (w - k).
Proof.
  intros Hk Ha. assert (0 < 2 ^ (w - k)) by (apply Z.pow_pos_nonneg; lia).
  assert (2 ^ w = 2 ^ k * 2 ^ (w - k)) as Hp by (rewrite <- Z.pow_add_r by lia; f_equal; lia).
  assert (Z.land a (Z.ones k * 2 ^ (w - k)) = a / 2 ^ (w - k) * 2 ^ (w - k)) as ->.
  { rewrite <- !Z.shiftl_mul_pow2, <- Z.shiftr_div_pow2 by lia. apply Z.bits_inj'. intros n Hn.
    rewrite Z.land_spec. destruct (decide (n < w - k)).
    - by rewrite !Z.shiftl_spec_low, andb_false_r by lia.
    - rewrite !Z.shiftl_spec, Z.shiftr_spec by lia. replace (n - (w - k) + (w - k)) with n by lia.
      rewrite Z.testbit_ones_nonneg by lia.
      destruct (Z.ltb_spec (n - (w - k)) k); [apply andb_true_r|].
      rewrite andb_false_r. symmetry. apply Z.testbit_false; [lia|]. rewrite Z.div_small; [done|].
      split; [lia|]. apply Z.lt_le_trans with (2 ^ w); [lia|]. apply Z.pow_le_mono_r; lia. }
  pose proof (Z.div_mod a (2 ^ (w - k)) ltac:(lia)). pose proof (Z.mod_pos_bound a (2 ^ (w - k)) ltac:(lia)).
  split; intros Hx; [|rewrite Z.div_small; lia].
  apply Z.mul_eq_0 in Hx as [Hq|]; [|lia]. rewrite Hq in *. lia.
Qed.

(** The count so far plus the zeros left is unchanged by a step, which halves
    the zeros that may be left. *)
Lemma clz_step_spec w j a n :
  let k := 2 ^ j in 0 <= j -> k < w -> 0 < a < 2 ^ w -> w - 1 - Z.log2 a < 2 * k ->
  exists a', clz_step w (Z.ones k * 2 ^ (w - k)) j (a, n) = (a', n + (w - 1 - Z.log2 a) - (w - 1 - Z.log2 a')) /\
    0 < a' < 2 ^ w /\ w - 1 - Z.log2 a' < k.
Proof.
  intros k Hj Hk Ha Hl. unfold clz_step, lnot.
  assert (0 < k) by (apply Z.pow_pos_nonneg; lia).
  pose proof (land_high w k a ltac:(lia) ltac:(lia)) as Hm. case_bool_decide as Hz.
  - apply Hm in Hz. cbn [b2z]. rewrite Z.shiftl_1_l. fold k. rewrite Z.shiftl_mul_pow2 by lia.
    assert (a * 2 ^ k < 2 ^ w) as Hlt.
    { replace w with ((w - k) + k) by lia. rewrite Z.pow_add_r by lia.
      apply Z.mul_lt_mono_pos_r; [apply Z.pow_pos_nonneg; lia|lia]. }
    assert (0 < a * 2 ^ k) by (apply Z.mul_pos_pos; [lia|apply Z.pow_pos_nonneg; lia]).
    rewrite wrapu_small by lia. exists (a * 2 ^ k).
    rewrite Z.log2_mul_pow2 by lia. split_and!; [f_equal; lia|lia..].
  - cbn [b2z]. rewrite Z.shiftl_0_l, Z.shiftl_0_r, wrapu_small by lia. exists a.
    split_and!; [f_equal; lia|lia..|]. destruct (decide (a < 2 ^ (w - k))); [tauto|].
    assert (w - k <= Z.log2 a) by (apply Z.log2_le_pow2; lia). lia.
Qed.

Lemma clz_last w a : 0 < w -> 0 < a < 2 ^ w -> w - 1 - Z.log2 a < 2 ->
  lnot (Z.land a (Z.ones 1 * 2 ^ (w - 1))) = w - 1 - Z.log2 a.
Proof.
  intros Hw Ha Hl. pose proof (land_high w 1 a ltac:(lia) ltac:(lia)) as Hm. unfold lnot.
  assert (Z.log2 a < w) by (apply Z.log2_lt_pow2; lia). case_bool_decide as Hz; cbn [b2z].
  - apply Hm, Z.log2_lt_pow2 in Hz; lia.
  - destruct (decide (a < 2 ^ (w - 1))); [tauto|].
    assert (w - 1 <= Z.log2 a) by (apply Z.log2_le_pow2; lia). lia.
Qed.

(** One more step of the leading-zero count. *)
Ltac clz_next w j :=
  match goal with
  | |- context [clz_step w ?m j (?a, ?n)] =>
      let a' := fresh "a" in let E := fresh "E" in
      destruct (clz_step_spec w j a n) as (a' & E & ? & ?); [lia..|];
      change (Z.ones (2 ^ j) * 2 ^ (w - 2 ^ j)) with m in E; rewrite E; clear E
  end.

Lemma clzdi2_spec a : 0 < a < 2 ^ 64 -> __clzdi2 a = 63 - Z.log2 a.
Proof.
  intros Ha. unfold __clzdi2. pose proof (Z.log2_nonneg a).
  clz_next 64 5. clz_next 64 4. clz_next 64 3. clz_next 64 2. clz_next 64 1.
  change 0x8000000000000000 with (Z.ones 1 * 2 ^ (64 - 1)). rewrite clz_last by lia. lia.
Qed.

Lemma clzsi2_spec a : 0 < a < 2 ^ 32 -> __clzsi2 a = 31 - Z.log2 a.
Proof.
  intros Ha. unfold __clzsi2. pose proof (Z.log2_nonneg a).
  clz_next 32 4. clz_next 32 3. clz_next 32 2. clz_next 32 1.
  change 0x80000000 with (Z.ones 1 * 2 ^ (32 - 1)). rewrite clz_last by lia. lia.
Qed.

(** [n] trailing zeros. *)
Definition trailing (a n : Z) : Prop := 0 <= n /\ exists q, a = q * 2 ^ n /\ q mod 2 = 1.

(** A step moves the trailing zeros it finds from the word to the count. *)
Lemma ctz_step_spec j a n :
  let k := 2 ^ j in 0 <= j -> 0 < a -> a mod 2 ^ (2 * k) <> 0 ->
  exists a' d, ctz_step (Z.ones k) j (a, n) = (a', n + d) /\ 0 <= d /\ a = a' * 2 ^ d /\
    0 < a' /\ a' mod 2 ^ k <> 0.
Proof.
  intros k Hj Ha Hm. unfold ctz_step, lnot. assert (0 < k) by (apply Z.pow_pos_nonneg; lia).
  assert (0 < 2 ^ k) by (apply Z.pow_pos_nonneg; lia).
  rewrite Z.land_ones by lia. case_bool_decide as Hz; cbn [b2z].
  - rewrite Z.shiftl_1_l. fold k. rewrite Z.shiftr_div_pow2 by lia. exists (a / 2 ^ k), k.
    pose proof (Z.div_mod a (2 ^ k) ltac:(lia)) as E. rewrite Hz, Z.add_0_r in E.
    split_and!; [done|lia|lia|nia|]. intros Hx. apply Hm.
    replace (2 * k) with (k + k) by lia. rewrite Z.pow_add_r, Z.rem_mul_r by lia. lia.
  - rewrite Z.shiftl_0_l, Z.shiftr_0_r. exists a, 0. rewrite Z.pow_0_r. split_and!; (done || lia).
Qed.

Ltac ctz_next j :=
  match goal with
  | |- context [ctz_step ?m j (?a, ?n)] =>
      let a' := fresh "a" in let d := fresh "d" in let E := fresh "E" in
      destruct (ctz_step_spec j a n) as (a' & d & E & ? & ? & ? & ?); [lia|lia|assumption|];
      change (Z.ones (2 ^ j)) with m in E; rewrite E; clear E
  end.

Lemma ctz_last a : a mod 2 ^ 2 <> 0 -> exists q, a = q * 2 ^ lnot (Z.land a 1) /\ q mod 2 = 1.
Proof.
  intros Ha. change 1 with (Z.ones 1) at 1. rewrite Z.land_ones by lia. unfold lnot.
  change (2 ^ 1) with 2. case_bool_decide as Hz; cbn [b2z].
  - exists (a / 2). change (2 ^ 2) with (2 * 2) in Ha. rewrite Z.rem_mul_r in Ha by lia.
    change (2 ^ 1) with 2. pose proof (Z.mod_pos_bound (a / 2) 2 ltac:(lia)).
    pose proof (Z.div_mod a 2 ltac:(lia)). lia.
  - exists a. rewrite Z.pow_0_r. pose proof (Z.mod_pos_bound a 2 ltac:(lia)). lia.
Qed.

Lemma lnot_nonneg x : 0 <= lnot x.
Proof. unfold lnot. by case_bool_decide. Qed.

Lemma ctzdi2_spec a : 0 < a < 2 ^ 64 -> trailing a (__ctzdi2 a).
Proof.
  intros Ha. unfold __ctzdi2. assert (a mod 2 ^ (2 * 2 ^ 5) <> 0) by (rewrite Z.mod_small; lia).
  ctz_next 5. ctz_next 4. ctz_next 3. ctz_next 2. ctz_next 1.
  destruct (ctz_last a4 ltac:(assumption)) as (q & Eq & Hq).
  pose proof (lnot_nonneg (Z.land a4 1)).
  set (e := lnot (Z.land a4 1)) in *. clearbody e. split; [lia|]. exists q.
  rewrite !Z.pow_add_r, Z.pow_0_r by lia. split; [|done].
  subst. ring.
Qed.

Lemma ctzsi2_spec a : 0 < a < 2 ^ 32 -> trailing a (__ctzsi2 a).
Proof.
  intros Ha. unfold __ctzsi2. assert (a mod 2 ^ (2 * 2 ^ 4) <> 0) by (rewrite Z.mod_small; lia).
  ctz_next 4. ctz_next 3. ctz_next 2. ctz_next 1.
  destruct (ctz_last a3 ltac:(assumption)) as (q & Eq & Hq).
  pose proof (lnot_nonneg (Z.land a3 1)).
  set (e := lnot (Z.land a3 1)) in *. clearbody e. split; [lia|]. exists q.
  rewrite !Z.pow_add_r, Z.pow_0_r by lia. split; [|done].
  subst. ring.
Qed.

(** ** Long division *)

Lemma wrap_mask_spec b rem : - 2 ^ 63 <= b - rem - 1 < 2 ^ 63 ->
  wrap_mask b rem = if decide (rem < b) then 0 else 2 ^ 64 - 1.
Proof.
  intros H. unfold wrap_mask. rewrite wraps_small by (change (64 - 1) with 63; lia).
  rewrite Z.shiftr_div_pow2 by lia. case_decide.
  - by rewrite Z.div_small by lia.
  - replace ((b - rem - 1) / 2 ^ 63) with (-1); [done|].
    apply Z.div_unique with (b - rem - 1 + 2 ^ 63); lia.
Qed.

(** Long division of [A] by [b] with [i] bits of [A] still to come: the
    remainder and the quotient are those of the bits read so far; the word
    [a] holds the bits to come and the quotient but its last bit, which
    [wrap] holds. *)
Record div_state (A b i a rem wrap : Z) : Prop := {
  ds_rem : rem = (A / 2 ^ i) mod b;
  ds_a : a = (A mod 2 ^ i) * 2 ^ (64 - i) + (A / 2 ^ i / b) / 2;
  ds_wrap : Z.land wrap 1 = (A / 2 ^ i / b) mod 2;
  ds_small : 0 <= A / 2 ^ i / b < 2 ^ (63 - i)
}.

Lemma lor_bit x c : 0 <= c < 2 -> Z.lor (2 * x) c = 2 * x + c.
Proof.
  intros. replace (2 * x) with (x * 2 ^ 1) by (change (2 ^ 1) with 2; lia).
  by apply lor_add_r.
Qed.

Lemma land_all x : 0 <= x < 2 ^ 64 -> Z.land x (2 ^ 64 - 1) = x.
Proof.
  intros. change (2 ^ 64 - 1) with (Z.ones 64). rewrite Z.land_ones by lia. by apply Z.mod_small.
Qed.

Lemma div_digit A i : 0 <= i ->
  A / 2 ^ i = 2 * (A / 2 ^ (i + 1)) + (A / 2 ^ i) mod 2 /\
  A mod 2 ^ (i + 1) = (A / 2 ^ i) mod 2 * 2 ^ i + A mod 2 ^ i.
Proof.
  intros Hi. assert (0 < 2 ^ i) by (apply Z.pow_pos_nonneg; lia).
  rewrite Z.pow_add_r, Z.pow_1_r by lia. split.
  - rewrite <- Z.div_div by lia. apply Z.div_mod. lia.
  - rewrite Z.rem_mul_r by lia. lia.
Qed.

(** The word after a step. *)
Lemma div_shift A i Q : 0 <= i <= 62 -> 0 <= Q < 2 ^ (62 - i) ->
  let a := (A mod 2 ^ (i + 1)) * 2 ^ (64 - (i + 1)) + Q / 2 in
  Z.shiftr a 63 = (A / 2 ^ i) mod 2 /\
  Z.lor (u64 (Z.shiftl a 1)) (Q mod 2) = (A mod 2 ^ i) * 2 ^ (64 - i) + Q.
Proof.
  intros Hi HQ a. destruct (div_digit A i ltac:(lia)) as [_ Hd].
  set (t := (A / 2 ^ i) mod 2) in *. set (m := A mod 2 ^ i) in *.
  assert (0 <= t < 2) by (apply Z.mod_pos_bound; lia).
  assert (0 <= m < 2 ^ i) by (apply Z.mod_pos_bound, Z.pow_pos_nonneg; lia).
  assert (2 ^ i * 2 ^ (63 - i) = 2 ^ 63) as Hp by (rewrite <- Z.pow_add_r by lia; f_equal; lia).
  assert (2 ^ (64 - i) = 2 * 2 ^ (63 - i)) as Hp' by (rewrite <- Z.pow_succ_r by lia; f_equal; lia).
  assert (2 ^ (63 - i) = 2 * 2 ^ (62 - i)) as Hp'' by (rewrite <- Z.pow_succ_r by lia; f_equal; lia).
  pose proof (Z.div_mod Q 2 ltac:(lia)) as EQ. pose proof (Z.mod_pos_bound Q 2 ltac:(lia)).
  assert (a = t * 2 ^ 63 + (m * 2 ^ (63 - i) + Q / 2)) as Ea.
  { subst a. rewrite Hd. replace (64 - (i + 1)) with (63 - i) by lia. rewrite <- Hp. ring. }
  set (P := 2 ^ (63 - i)) in *. set (I := 2 ^ i) in *. assert (0 < P) by (subst P; apply Z.pow_pos_nonneg; lia).
  assert (0 <= m * P + Q / 2 < 2 ^ 63) as Hlow.
  { assert (m * P <= 2 ^ 63 - P) by nia. split; nia. }
  clearbody a. split.
  - rewrite Z.shiftr_div_pow2, Ea by lia. symmetry. apply Z.div_unique with (m * P + Q / 2); [left; exact Hlow|ring].
  - rewrite Z.shiftl_mul_pow2 by lia. rewrite Ea, Hp'. unfold wrapu.
    replace ((t * 2 ^ 63 + (m * P + Q / 2)) * 2 ^ 1) with (2 * (m * P + Q / 2) + t * 2 ^ 64)
      by (change (2 ^ 64) with (2 * 2 ^ 63); change (2 ^ 1) with 2; ring).
    rewrite Z.mod_add, Z.mod_small by lia. rewrite lor_bit by lia. lia.
Qed.

Lemma div_step A b i a rem wrap : 0 < b < 2 ^ 64 -> 0 <= i <= 62 -> 0 <= A / 2 ^ (i + 1) / b < 2 ^ (62 - i) ->
  div_state A b (i + 1) a rem wrap ->
  0 <= 2 * rem + 1 < 2 ^ 64 -> - 2 ^ 63 <= b - (2 * rem + (A / 2 ^ i) mod 2) - 1 < 2 ^ 63 ->
  let rem1 := Z.lor (u64 (Z.shiftl rem 1)) (Z.shiftr a 63) in
  let wrap' := wrap_mask b rem1 in
  div_state A b i (Z.lor (u64 (Z.shiftl a 1)) (Z.land wrap 1)) (u64 (rem1 - Z.land b wrap')) wrap'.
Proof.
  intros Hb Hi Hsm [Er Ea Ew Hs] Hrem Hsign rem1 wrap'.
  destruct (div_shift A i _ Hi Hsm) as [Htop Hlow]. rewrite <- Ea in Htop, Hlow.
  destruct (div_digit A i ltac:(lia)) as [Hd _].
  assert (0 <= (A / 2 ^ i) mod 2 < 2) as Ht by (apply Z.mod_pos_bound; lia).
  set (X := A / 2 ^ (i + 1)) in *. set (t := (A / 2 ^ i) mod 2) in *.
  assert (rem1 = 2 * rem + t) as E1.
  { subst rem1. rewrite Htop, Z.shiftl_mul_pow2 by lia. change (2 ^ 1) with 2.
    rewrite wrapu_small by lia. rewrite Z.mul_comm. by apply lor_bit. }
  pose proof (Z.div_mod X b ltac:(lia)) as EX. rewrite <- Er in EX.
  assert (0 <= rem < b) as Hr by (rewrite Er; apply Z.mod_pos_bound; lia).
  assert (2 ^ (63 - i) = 2 * 2 ^ (62 - i)) as Hp by (rewrite <- Z.pow_succ_r by lia; f_equal; lia).
  set (Q := X / b) in *. subst wrap'. rewrite wrap_mask_spec, E1 by (by rewrite E1).
  case_decide.
  - assert (A / 2 ^ i / b = 2 * Q) as EQ.
    { symmetry. apply Z.div_unique with (2 * rem + t); [lia|]. rewrite Hd, EX. ring. }
    split; rewrite ?Z.land_0_r, ?EQ.
    + rewrite Z.sub_0_r, wrapu_small by lia.
      apply Z.mod_unique with (2 * Q); [lia|]. rewrite Hd, EX. ring.
    + rewrite Ew, Hlow. f_equal. rewrite (Z.mul_comm 2 Q). by rewrite Z.div_mul.
    + rewrite Z.mul_comm, Z.mod_mul by lia. done.
    + lia.
  - assert (A / 2 ^ i / b = 2 * Q + 1) as EQ.
    { symmetry. apply Z.div_unique with (2 * rem + t - b); [lia|]. rewrite Hd, EX. ring. }
    rewrite land_all by lia. split; rewrite ?EQ.
    + rewrite wrapu_small by lia.
      apply Z.mod_unique with (2 * Q + 1); [lia|]. rewrite Hd, EX. ring.
    + rewrite Ew, Hlow. f_equal. apply Z.div_unique with 1; lia.
    + change (Z.land (2 ^ 64 - 1) 1) with 1. apply Z.mod_unique with Q; lia.
    + lia.
Qed.

Lemma divmod_loop_spec A b : 0 < b <= 2 ^ 63 -> forall n a rem wrap,
  (n <= 63)%nat -> A / 2 ^ Z.of_nat n / b < 2 ^ (63 - Z.of_nat n) ->
  div_state A b (Z.of_nat n) a rem wrap ->
  exists a' rem' wrap', divmod_loop n a b rem wrap = (a', rem', wrap') /\
    div_state A b 0 a' rem' wrap'.
Proof.
  intros Hb. induction n as [|n IH]; intros a rem wrap Hn Hq Hst; cbn [divmod_loop]; [by eauto|].
  replace (Z.of_nat (S n)) with (Z.of_nat n + 1) in * by lia.
  pose proof (ds_small _ _ _ _ _ _ Hst) as Hs.
  assert (0 <= rem < b) by (rewrite (ds_rem _ _ _ _ _ _ Hst); apply Z.mod_pos_bound; lia).
  assert (0 <= (A / 2 ^ Z.of_nat n) mod 2 < 2) by (apply Z.mod_pos_bound; lia).
  replace (63 - (Z.of_nat n + 1)) with (62 - Z.of_nat n) in * by lia.
  pose proof (div_step A b (Z.of_nat n) a rem wrap ltac:(lia) ltac:(lia) Hs Hst ltac:(lia) ltac:(lia)) as Hst'.
  apply IH; [lia| |exact Hst']. apply (ds_small _ _ _ _ _ _ Hst').
Qed.

Lemma divmoddi4_spec a b c : 0 <= a < 2 ^ 64 -> 0 < b < 2 ^ 64 ->
  __divmoddi4 a b c = Ok (a / b, if c then Some (a mod b) else None).
Proof.
  intros Ha Hb. unfold __divmoddi4.
  assert (forall x, 0 <= x < 2 ^ 64 -> arith64_hi x = 0 -> x < 2 ^ 32 /\ arith64_lo x = x) as Hhi.
  { intros x Hx E. pose proof (word_value x) as Hv. unfold arith64_hi, arith64_lo in *.
    rewrite E, wrapu_small in Hv by done. pose proof (word_range x). lia. }
  case_decide as D0; [by rewrite Z.div_small, Z.mod_small by lia|].
  case_decide as D1; [lia|].
  case_decide as D2; [destruct D2 as [_ ->]; by rewrite Z.div_1_r, Z.mod_1_r|].
  case_decide as D3.
  { destruct D3 as [Hbb Haa]. by rewrite (proj2 (Hhi b ltac:(lia) Hbb)), (proj2 (Hhi a ltac:(lia) Haa)). }
  rewrite !clzdi2_spec by lia.
  assert (2 <= b) as Hb2.
  { destruct (decide (b = 1)) as [->|]; [|lia]. exfalso. by apply D2. }
  pose proof (Z.log2_le_mono b a ltac:(lia)) as Hlog.
  pose proof (Z.log2_spec a ltac:(lia)) as La. pose proof (Z.log2_spec b ltac:(lia)) as Lb.
  assert (1 <= Z.log2 b) by (apply Z.log2_le_pow2; lia).
  assert (Z.log2 a < 64) by (apply Z.log2_lt_pow2; lia).
  set (n := Z.log2 a - Z.log2 b + 1).
  replace (s8 (63 - Z.log2 b - (63 - Z.log2 a) + 1)) with n
    by (rewrite wraps_small; subst n; [lia|lia|change (8 - 1) with 7; lia]).
  rewrite shr_Ok, shl_Ok by lia. cbn [bind].
  assert (0 <= a / 2 ^ n < b) as Hinit.
  { split; [apply Z.div_pos; [lia|apply Z.pow_pos_nonneg; lia]|].
    apply Z.lt_le_trans with (2 ^ Z.log2 b); [|lia].
    apply Z.div_lt_upper_bound; [apply Z.pow_pos_nonneg; lia|].
    rewrite <- Z.pow_add_r by lia. replace (n + Z.log2 b) with (Z.succ (Z.log2 a)) by lia. lia. }
  assert (div_state a b n (u64 (a * 2 ^ (64 - n))) (a / 2 ^ n) 0) as Hst.
  { assert (a / 2 ^ n / b = 0) as E0 by (apply Z.div_small; lia).
    split; rewrite ?E0; [by rewrite Z.mod_small| |done|split; [lia|apply Z.pow_pos_nonneg; lia]].
    change (0 / 2) with 0. rewrite Z.add_0_r. unfold wrapu.
    replace (2 ^ 64) with (2 ^ n * 2 ^ (64 - n)) by (rewrite <- Z.pow_add_r by lia; f_equal; lia).
    apply Z.mul_mod_distr_r; apply Z.pow_nonzero; lia. }
  assert (exists a' rem' wrap', divmod_loop (Z.to_nat n) (u64 (a * 2 ^ (64 - n))) b (a / 2 ^ n) 0
    = (a', rem', wrap') /\ div_state a b 0 a' rem' wrap') as (a' & rem' & wrap' & -> & Hfin).
  { destruct (decide (b <= 2 ^ 63)).
    - apply (divmod_loop_spec a); [lia|lia| |]; rewrite Z2Nat.id by lia; [|exact Hst].
      apply (ds_small _ _ _ _ _ _ Hst).
    - assert (n = 1) as E1.
      { assert (63 <= Z.log2 b) by (apply Z.log2_le_pow2; lia). lia. }
      rewrite E1 in *. cbn [Z.to_nat Pos.to_nat Pos.iter_op divmod_loop]. do 3 eexists. split; [done|].
      pose proof (Z.div_mod a 2 ltac:(lia)). pose proof (Z.mod_pos_bound a 2 ltac:(lia)).
      change (2 ^ 1) with 2 in *. pose proof (ds_small _ _ _ _ _ _ Hst) as Hs.
      change (2 ^ (63 - 1)) with (2 ^ 62) in Hs. change (2 ^ 1) with 2 in Hs.
      apply (div_step a b 0); [lia|lia|exact Hs|exact Hst|lia|].
      rewrite Z.pow_0_r, Z.div_1_r. lia. }
  destruct Hfin as [-> -> Hw Hq]. rewrite Z.pow_0_r, Z.div_1_r, Z.mod_1_r in *.
  rewrite Hw. cbn [Z.mul Z.add]. rewrite Z.shiftl_mul_pow2 by lia. change (2 ^ 1) with 2.
  pose proof (Z.div_mod (a / b) 2 ltac:(lia)). pose proof (Z.mod_pos_bound (a / b) 2 ltac:(lia)).
  change (2 ^ (63 - 0)) with (2 ^ 63) in Hq.
  rewrite wrapu_small by lia. rewrite Z.mul_comm, lor_bit by lia. do 2 f_equal. lia.
Qed.

Lemma divmoddi4_zero a c : 0 <= a -> __divmoddi4 a 0 c = Err DivByZero.
Proof. intros. unfold __divmoddi4. rewrite decide_False by lia. by rewrite decide_True. Qed.

(** ** Signed division *)

Lemma arith64_abs_spec a : - 2 ^ 63 <= a < 2 ^ 63 ->
  arith64_abs a = if decide (a = - 2 ^ 63) then Err Undefined else Ok (Z.abs a).
Proof.
  intros Ha. unfold arith64_abs, arith64_neg. destruct (decide (0 <= a)).
  - rewrite bool_decide_eq_true_2, bool_decide_eq_false_2 by lia. cbn [b2z Z.sub Z.add Z.opp].
    rewrite Z.lxor_0_r, !Z.add_0_r. rewrite decide_True, decide_False by lia. f_equal. lia.
  - rewrite bool_decide_eq_false_2, bool_decide_eq_true_2 by lia. cbn [b2z].
    change (0 - 1) with (-1). rewrite Z.lxor_m1_r. unfold Z.lnot.
    case_decide; case_decide; try lia; [f_equal; lia|done].
Qed.

Lemma lxor_ones q : 0 <= q < 2 ^ 64 -> Z.lxor q (2 ^ 64 - 1) = 2 ^ 64 - 1 - q.
Proof.
  intros Hq. change (2 ^ 64 - 1) with (Z.ones 64). rewrite <- (Z.mod_small q (2 ^ 64)) at 1 by done.
  rewrite <- Z.land_ones by lia.
  assert (Z.lxor (Z.land q (Z.ones 64)) (Z.ones 64) = Z.land (Z.lnot q) (Z.ones 64)) as ->.
  { apply Z.bits_inj'. intros n Hn. rewrite Z.lxor_spec, !Z.land_spec, Z.lnot_spec by done.
    destruct (Z.testbit q n), (Z.testbit (Z.ones 64) n); done. }
  rewrite Z.land_ones by lia. unfold Z.lnot. change (Z.ones 64) with (2 ^ 64 - 1).
  rewrite <- (Z.mod_add _ 1) by lia. rewrite Z.mod_small; lia.
Qed.

Lemma arith64_neg_u_spec q s : 0 <= q < 2 ^ 63 ->
  s64 (arith64_neg_u q s) = if decide (0 <= s) then q else - q.
Proof.
  intros Hq. unfold arith64_neg_u. rewrite wraps_wrapu by lia. case_decide.
  - rewrite bool_decide_eq_true_2, bool_decide_eq_false_2 by lia.
    change (u64 (b2z true - 1)) with 0. rewrite Z.lxor_0_r. cbn [b2z]. rewrite Z.add_0_r.
    apply wraps_small; [lia|]. change (64 - 1) with 63. lia.
  - rewrite bool_decide_eq_false_2, bool_decide_eq_true_2 by lia.
    change (u64 (b2z false - 1)) with (2 ^ 64 - 1). rewrite lxor_ones by lia. cbn [b2z].
    rewrite <- (wraps_small 64 (- q)) by (change (64 - 1) with 63; lia).
    apply wraps_mod; [lia|]. unfold wrapu.
    replace (2 ^ 64 - 1 - q + 1) with (- q + 1 * 2 ^ 64) by lia. by apply Z.mod_add.
Qed.

(** The operands of a signed division that the code accepts. *)
Definition negatable (a : Z) : Prop := - 2 ^ 63 < a < 2 ^ 63.

Lemma abs_div_bounds a b : negatable a -> b <> 0 ->
  0 <= Z.abs a / Z.abs b < 2 ^ 63 /\ 0 <= Z.abs a mod Z.abs b < 2 ^ 63.
Proof.
  unfold negatable. intros Ha Hb.
  assert (0 <= Z.abs a / Z.abs b <= Z.abs a).
  { split; [apply Z.div_pos; lia|]. apply Z.div_le_upper_bound; nia. }
  pose proof (Z.mod_pos_bound (Z.abs a) (Z.abs b) ltac:(lia)).
  pose proof (Z.mod_le (Z.abs a) (Z.abs b) ltac:(lia) ltac:(lia)). lia.
Qed.

Lemma signed_divmod a b c : negatable a -> negatable b ->
  (let* x := arith64_abs a in let* y := arith64_abs b in __divmoddi4 (u64 x) (u64 y) c)
  = if decide (b = 0) then Err DivByZero
    else Ok (Z.abs a / Z.abs b, if c then Some (Z.abs a mod Z.abs b) else None).
Proof.
  unfold negatable. intros Ha Hb. rewrite !arith64_abs_spec by lia.
  rewrite !decide_False by lia. cbn [bind]. rewrite !wrapu_small by lia. case_decide as D.
  - subst b. apply divmoddi4_zero. lia.
  - by rewrite divmoddi4_spec by lia.
Qed.

Lemma divdi3_spec a b : negatable a -> negatable b ->
  __divdi3 a b = if decide (b = 0) then Err DivByZero else Ok (Z.quot a b).
Proof.
  intros Ha Hb. unfold __divdi3.
  pose proof (signed_divmod a b false Ha Hb) as H. unfold negatable in *.
  rewrite !arith64_abs_spec in * by lia. rewrite !decide_False in * by lia. cbn [bind] in *.
  rewrite H. case_decide as D; [done|]. cbn [bind]. f_equal.
  destruct (abs_div_bounds a b Ha D) as [Hq _]. rewrite arith64_neg_u_spec by done.
  rewrite Z.quot_div by done. destruct (decide (0 <= Z.lxor a b)) as [Hs|Hs];
    rewrite Z.lxor_nonneg in Hs.
  - destruct (decide (a = 0)) as [->|]; [by rewrite Z.div_0_l by lia|].
    assert (Z.sgn a * Z.sgn b = 1) as -> by lia. lia.
  - destruct (decide (a = 0)) as [->|]; [by rewrite Z.div_0_l by lia|].
    assert (Z.sgn a * Z.sgn b = -1) as -> by lia. lia.
Qed.

Lemma moddi3_spec a b : negatable a -> negatable b ->
  __moddi3 a b = if decide (b = 0) then Err DivByZero else Ok (Z.rem a b).
Proof.
  intros Ha Hb. unfold __moddi3.
  pose proof (signed_divmod a b true Ha Hb) as H. unfold negatable in *.
  rewrite !arith64_abs_spec in * by lia. rewrite !decide_False in * by lia. cbn [bind] in *.
  rewrite H. case_decide as D; [done|]. cbn [bind stored]. f_equal.
  destruct (abs_div_bounds a b Ha D) as [_ Hr]. rewrite arith64_neg_u_spec by done.
  rewrite Z.rem_mod by done. destruct (decide (0 <= a)).
  - destruct (decide (a = 0)) as [->|]; [by rewrite Zmod_0_l|].
    assert (Z.sgn a = 1) as -> by lia. lia.
  - assert (Z.sgn a = -1) as -> by lia. lia.
Qed.

(** ** Bits set *)

(** The sum of the [n] lowest digits of [a] in base [B]; in base 2, the number
    of bits set. *)
Fixpoint digsum (B : Z) (n : nat) (a : Z) : Z :=
  match n with
  | O => 0
  | S n' => a mod B + digsum B n' (a / B)
  end.

(** The number whose [n] digits in base [B] are all [v]. *)
Fixpoint rep (B v : Z) (n : nat) : Z :=
  match n with
  | O => 0
  | S n' => v + B * rep B v n'
  end.

(** [n] digits in base [B], none above [m]. *)
Fixpoint digits_le (B m : Z) (n : nat) (a : Z) : Prop :=
  match n with
  | O => a = 0
  | S n' => 0 <= a mod B <= m /\ digits_le B m n' (a / B)
  end.

Lemma digits_split B a : 0 < B -> exists d q, a = d + B * q /\ 0 <= d < B /\ a mod B = d /\ a / B = q.
Proof.
  intros. exists (a mod B), (a / B). pose proof (Z.mod_pos_bound a B ltac:(lia)).
  pose proof (Z.div_mod a B ltac:(lia)). lia.
Qed.

Lemma digit_mod B d q : 0 <= d < B -> (d + B * q) mod B = d.
Proof. intros. symmetry. apply Z.mod_unique with q; lia. Qed.

Lemma digit_div B d q : 0 <= d < B -> (d + B * q) / B = q.
Proof. intros. symmetry. apply Z.div_unique with d; lia. Qed.

Lemma land_digit k d q v m : 0 <= k -> 0 <= d < 2 ^ k -> 0 <= v < 2 ^ k ->
  Z.land (d + 2 ^ k * q) (v + 2 ^ k * m) = Z.land d v + 2 ^ k * Z.land q m.
Proof.
  intros Hk Hd Hv. assert (0 < 2 ^ k) by lia.
  rewrite (Z.div_mod (Z.land (d + 2 ^ k * q) (v + 2 ^ k * m)) (2 ^ k)) by lia.
  rewrite Z.add_comm. f_equal.
  - rewrite <- Z.land_ones by lia.
    rewrite <- (Z.land_diag (Z.ones k)), <- Z.land_assoc, (Z.land_assoc (v + _)), (Z.land_comm (Z.land (v + _) _)),
      Z.land_assoc, !Z.land_ones by lia. by rewrite !digit_mod by lia.
  - f_equal. rewrite <- Z.shiftr_div_pow2, Z.shiftr_land, !Z.shiftr_div_pow2 by lia.
    by rewrite !digit_div by lia.
Qed.

(** Arithmetic with divisions by constants. *)
Ltac divlia := Z.div_mod_to_equations; lia.

Lemma double_S n : (2 * S n = S (S (2 * n)))%nat.
Proof. lia. Qed.

Lemma pop_step1 n : forall a, 0 <= a < 4 ^ Z.of_nat n ->
  let s := a - Z.land (Z.shiftr a 1) (rep 4 1 n) in
  0 <= s <= a /\ digits_le 4 2 n s /\ digsum 4 n s = digsum 2 (2 * n) a.
Proof.
  induction n as [|n IH]; intros a Ha s.
  { assert (a = 0) as -> by (simpl in Ha; lia). done. }
  destruct (digits_split 4 a) as (d & q & Ea & Hd & _ & _); [lia|].
  rewrite Nat2Z.inj_succ, Z.pow_succ_r in Ha by lia.
  specialize (IH q ltac:(lia)). cbv zeta in IH. rewrite Z.shiftr_div_pow2 in IH by lia.
  change (2 ^ 1) with 2 in IH.
  assert (s = (d - d / 2) + 4 * (q - Z.land (q / 2) (rep 4 1 n))) as ->.
  { subst s. rewrite Z.shiftr_div_pow2 by lia. change (2 ^ 1) with 2. cbn [rep].
    replace (a / 2) with ((d / 2 + 2 * (q mod 2)) + 2 ^ 2 * (q / 2)) by (change (2 ^ 2) with 4; divlia).
    change 4 with (2 ^ 2). rewrite land_digit by (change (2 ^ 2) with 4; divlia).
    change 1 with (Z.ones 1). rewrite Z.land_ones by lia.
    replace ((d / 2 + 2 * (q mod 2)) mod 2 ^ 1) with (d / 2) by (change (2 ^ 1) with 2; divlia).
    rewrite Ea. change (2 ^ 2) with 4. lia. }
  destruct IH as (Hb & Hdig & Hsum). cbn [digits_le digsum].
  rewrite digit_mod, digit_div by divlia. split_and!; [divlia..|done|].
  rewrite Hsum, double_S. cbn [digsum]. rewrite Z.div_div by lia. change (2 * 2) with 4.
  replace (a / 4) with q by divlia. divlia.
Qed.

Lemma pop_step2 n : forall a, digits_le 4 2 (2 * n) a ->
  let s := Z.land (Z.shiftr a 2) (rep 16 3 n) + Z.land a (rep 16 3 n) in
  digits_le 16 4 n s /\ digsum 16 n s = digsum 4 (2 * n) a.
Proof.
  induction n as [|n IH]; intros a Ha s; [simpl in Ha; by subst a|].
  rewrite double_S in *. cbn [digits_le digsum] in *. destruct Ha as (H0 & H1 & Ha).
  rewrite Z.div_div in * by lia. change (4 * 4) with 16 in *. specialize (IH _ Ha). cbv zeta in IH.
  destruct (digits_split 16 a) as (d & q & Ea & Hd & _ & Eq); [lia|]. rewrite Eq in *.
  rewrite Z.shiftr_div_pow2 in IH by lia. change (2 ^ 2) with 4 in IH.
  assert (s = (d / 4 + d mod 4) + 16 * (Z.land (q / 4) (rep 16 3 n) + Z.land q (rep 16 3 n))) as ->.
  { subst s. rewrite Z.shiftr_div_pow2 by lia. change (2 ^ 2) with 4. cbn [rep].
    replace (a / 4) with ((d / 4 + 4 * (q mod 4)) + 2 ^ 4 * (q / 4)) by (change (2 ^ 4) with 16; divlia).
    rewrite Ea at 1. change 16 with (2 ^ 4). rewrite !land_digit by (change (2 ^ 4) with 16; divlia).
    change 3 with (Z.ones 2). rewrite !Z.land_ones by lia. change (2 ^ 2) with 4. change (2 ^ 4) with 16.
    replace ((d / 4 + 4 * (q mod 4)) mod 4) with (d / 4) by divlia. lia. }
  rewrite digit_mod, digit_div by divlia. destruct IH as [Hdig Hsum].
  split_and!; [divlia..|done|]. rewrite Hsum. divlia.
Qed.

Lemma digits_le_head B m n a : 0 < B -> 0 <= m -> digits_le B m n a -> 0 <= a mod B <= m.
Proof. destruct n; simpl; [intros ? ? ->; by rewrite Zmod_0_l|tauto]. Qed.

Lemma pop_step3 n : forall a, digits_le 16 4 (2 * n) a ->
  let s := Z.land (a + Z.shiftr a 4) (rep 256 15 n) in
  digits_le 256 8 n s /\ digsum 256 n s = digsum 16 (2 * n) a.
Proof.
  induction n as [|n IH]; intros a Ha s; [simpl in Ha; by subst a|].
  rewrite double_S in *. cbn [digits_le digsum] in *. destruct Ha as (H0 & H1 & Ha).
  rewrite Z.div_div in * by lia. change (16 * 16) with 256 in *.
  pose proof (digits_le_head 16 4 _ _ ltac:(lia) ltac:(lia) Ha) as Hq.
  specialize (IH _ Ha). cbv zeta in IH.
  destruct (digits_split 256 a) as (d & q & Ea & Hd & _ & Eq); [lia|]. rewrite Eq in *.
  rewrite Z.shiftr_div_pow2 in IH by lia. change (2 ^ 4) with 16 in IH.
  assert (s = (d / 16 + d mod 16) + 256 * Z.land (q + q / 16) (rep 256 15 n)) as ->.
  { subst s. rewrite Z.shiftr_div_pow2 by lia. change (2 ^ 4) with 16. cbn [rep].
    replace (a + a / 16) with ((d / 16 + d mod 16 + 16 * (d / 16 + q mod 16)) + 2 ^ 8 * (q + q / 16))
      by (change (2 ^ 8) with 256; divlia).
    change 256 with (2 ^ 8). rewrite !land_digit by (change (2 ^ 8) with 256; divlia).
    change 15 with (Z.ones 4). rewrite !Z.land_ones by lia. change (2 ^ 8) with 256.
    change (2 ^ 4) with 16.
    replace ((d / 16 + d mod 16 + 16 * (d / 16 + q mod 16)) mod 16) with (d / 16 + d mod 16) by divlia.
    done. }
  rewrite digit_mod, digit_div by divlia. destruct IH as [Hdig Hsum].
  split_and!; [divlia..|done|]. rewrite Hsum. divlia.
Qed.

(** The top digit apart. *)
Lemma digits_cons n a : digits_le 256 8 (S n) a ->
  exists c q, a = c + 256 * q /\ 0 <= c <= 8 /\ digits_le 256 8 n q /\ digsum 256 (S n) a = c + digsum 256 n q.
Proof.
  cbn [digits_le digsum]. intros [H0 Ha]. exists (a mod 256), (a / 256).
  pose proof (Z.div_mod a 256 ltac:(lia)). split_and!; (done || lia).
Qed.

(** Adding the halves of a word: the shift is the upper half. *)
Lemma half_sum k l h : 0 <= l < 2 ^ k -> 0 <= k -> Z.shiftr (l + 2 ^ k * h) k = h.
Proof. intros. rewrite Z.shiftr_div_pow2 by lia. by apply digit_div. Qed.

Lemma pop_sum32 s : digits_le 256 8 4 s ->
  let a := u32 (s + Z.shiftr s 16) in
  Z.land (u32 (a + Z.shiftr a 8)) 63 = digsum 256 4 s.
Proof.
  intros H a. destruct (digits_cons _ _ H) as (c0 & s0 & E0 & B0 & H0 & ->). clear H.
  destruct (digits_cons _ _ H0) as (c1 & h & -> & B1 & H1 & ->). clear H0.
  destruct (digits_cons _ _ H1) as (c2 & s2 & Eh & B2 & H2 & ->). clear H1.
  destruct (digits_cons _ _ H2) as (c3 & s3 & -> & B3 & H3 & ->). clear H2.
  cbn in H3. subst s3. cbn [digsum].
  assert (a = (c0 + c2) + 2 ^ 8 * (c1 + c3 + 256 * h)) as ->.
  { subst a. replace s with ((c0 + 256 * c1) + 2 ^ 16 * h) by lia.
    rewrite half_sum, wrapu_small by lia. lia. }
  rewrite half_sum by lia. rewrite wrapu_small by lia.
  change 63 with (Z.ones 6). rewrite Z.land_ones by lia. symmetry.
  apply Z.mod_unique with (4 * (c1 + c3 + 256 * h) + 4 * h); lia.
Qed.

Lemma pop_sum64 s : digits_le 256 8 8 s ->
  let a1 := u64 (s + Z.shiftr s 32) in
  let a2 := u64 (a1 + Z.shiftr a1 16) in
  Z.land (u64 (a2 + Z.shiftr a2 8)) 127 = digsum 256 8 s.
Proof.
  intros H a1 a2. destruct (digits_cons _ _ H) as (c0 & s0 & E0 & B0 & H0 & ->). clear H.
  destruct (digits_cons _ _ H0) as (c1 & s1 & -> & B1 & H1 & ->). clear H0.
  destruct (digits_cons _ _ H1) as (c2 & s2 & -> & B2 & H2 & ->). clear H1.
  destruct (digits_cons _ _ H2) as (c3 & h & -> & B3 & H3 & ->). clear H2.
  destruct (digits_cons _ _ H3) as (c4 & s4 & Eh & B4 & H4 & ->). clear H3.
  destruct (digits_cons _ _ H4) as (c5 & s5 & -> & B5 & H5 & ->). clear H4.
  destruct (digits_cons _ _ H5) as (c6 & s6 & -> & B6 & H6 & ->). clear H5.
  destruct (digits_cons _ _ H6) as (c7 & s7 & -> & B7 & H7 & ->). clear H6.
  cbn in H7. subst s7. cbn [digsum].
  assert (a1 = (c0 + c4 + 256 * (c1 + c5)) + 2 ^ 16 * (c2 + c6 + 256 * (c3 + c7) + 2 ^ 16 * h)) as E1.
  { subst a1. replace s with ((c0 + 256 * (c1 + 256 * (c2 + 256 * c3))) + 2 ^ 32 * h) by lia.
    rewrite half_sum, wrapu_small by lia. lia. }
  set (m := c2 + c6 + 256 * (c3 + c7) + 2 ^ 16 * h + h).
  assert (a2 = (c0 + c4 + c2 + c6) + 2 ^ 8 * (c1 + c5 + c3 + c7 + 256 * m)) as ->.
  { subst a2. rewrite E1. rewrite half_sum, wrapu_small by lia. lia. }
  rewrite half_sum by lia. rewrite wrapu_small by lia.
  change 127 with (Z.ones 7). rewrite Z.land_ones by lia. symmetry.
  apply Z.mod_unique with (2 * (c1 + c5 + c3 + c7 + 256 * m) + 2 * m); lia.
Qed.

Lemma digits_le_rep B m n : 1 < B -> forall a, digits_le B m n a -> 0 <= a <= rep B m n.
Proof.
  intros HB. induction n as [|n IH]; intros a; cbn [digits_le rep]; [intros ->; lia|].
  intros [H0 Ha]. apply IH in Ha. pose proof (Z.div_mod a B ltac:(lia)). nia.
Qed.

Lemma shiftr_le a k : 0 <= a -> 0 <= k -> 0 <= Z.shiftr a k <= a.
Proof.
  intros. rewrite Z.shiftr_div_pow2 by lia. assert (0 < 2 ^ k) by lia.
  split; [apply Z.div_pos; lia|]. apply Z.div_le_upper_bound; nia.
Qed.

Lemma popcountsi2_spec a : 0 <= a < 2 ^ 32 -> __popcountsi2 a = digsum 2 32 a.
Proof.
  intros Ha. destruct (pop_step1 16 a Ha) as (B1 & D1 & E1). change 32%nat with (2 * 16)%nat. rewrite <- E1.
  change (rep 4 1 16) with 0x55555555 in *. unfold __popcountsi2.
  set (s1 := a - _) in *. rewrite (wrapu_small 32 s1) by lia.
  destruct (pop_step2 8 s1 D1) as (D2 & E2). change 16%nat with (2 * 8)%nat. rewrite <- E2. change (rep 16 3 8) with 0x33333333 in *.
  set (s2 := Z.land _ _ + _) in *. pose proof (digits_le_rep 16 4 _ ltac:(lia) _ D2) as B2.
  change (rep 16 4 8) with 0x44444444 in B2. rewrite (wrapu_small 32 s2) by lia.
  destruct (pop_step3 4 s2 D2) as (D3 & E3). change 8%nat with (2 * 4)%nat. rewrite <- E3. change (rep 256 15 4) with 0x0F0F0F0F in *.
  pose proof (shiftr_le s2 4 ltac:(lia) ltac:(lia)). rewrite (wrapu_small 32 (s2 + _)) by lia.
  by apply pop_sum32.
Qed.

Lemma popcountdi2_spec a : 0 <= a < 2 ^ 64 -> __popcountdi2 a = digsum 2 64 a.
Proof.
  intros Ha. destruct (pop_step1 32 a Ha) as (B1 & D1 & E1). change 64%nat with (2 * 32)%nat. rewrite <- E1.
  change (rep 4 1 32) with 0x5555555555555555 in *. unfold __popcountdi2.
  set (s1 := a - _) in *. rewrite (wrapu_small 64 s1) by lia.
  destruct (pop_step2 16 s1 D1) as (D2 & E2). change 32%nat with (2 * 16)%nat. rewrite <- E2. change (rep 16 3 16) with 0x3333333333333333 in *.
  set (s2 := Z.land _ _ + _) in *. pose proof (digits_le_rep 16 4 _ ltac:(lia) _ D2) as B2.
  change (rep 16 4 16) with 0x4444444444444444 in B2. rewrite (wrapu_small 64 s2) by lia.
  destruct (pop_step3 8 s2 D2) as (D3 & E3). change 16%nat with (2 * 8)%nat. rewrite <- E3. change (rep 256 15 8) with 0x0F0F0F0F0F0F0F0F in *.
  pose proof (shiftr_le s2 4 ltac:(lia) ltac:(lia)). rewrite (wrapu_small 64 (s2 + _)) by lia.
  by apply pop_sum64.
Qed.

(** ** Properties *)

(** C34 64-bit unsigned division is right on 32-bit machines: for all 64-bit
    operands and a divisor other than 0, the long division of
    [__divmoddi4] terminates without an undefined shift and gives the quotient
    and, when a place for it is passed, the remainder; division by 0 raises
    the processor's exception. *)
Theorem udivmod_correct a b c : 0 <= a < 2 ^ 64 -> 0 <= b < 2 ^ 64 ->
  __divmoddi4 a b c =
    (if decide (b = 0) then Err DivByZero
     else Ok (a / b, if c then Some (a mod b) else None)) /\
  __udivdi3 a b = (if decide (b = 0) then Err DivByZero else Ok (a / b)) /\
  __umoddi3 a b = (if decide (b = 0) then Err DivByZero else Ok (a mod b)).
Proof.
  intros Ha Hb. unfold __udivdi3, __umoddi3. case_decide as D.
  - subst b. by rewrite !divmoddi4_zero by lia.
  - by rewrite !divmoddi4_spec by lia.
Qed.

Lemma udivmod_correct_witness :
  __divmoddi4 (2 ^ 64 - 1) (2 ^ 40 + 7) true =
    Ok ((2 ^ 64 - 1) / (2 ^ 40 + 7), Some ((2 ^ 64 - 1) mod (2 ^ 40 + 7))) /\
  __udivdi3 (2 ^ 64 - 1) (2 ^ 40 + 7) = Ok ((2 ^ 64 - 1) / (2 ^ 40 + 7)) /\
  __umoddi3 (2 ^ 64 - 1) (2 ^ 40 + 7) = Ok ((2 ^ 64 - 1) mod (2 ^ 40 + 7)).
Proof. apply (udivmod_correct (2 ^ 64 - 1) (2 ^ 40 + 7) true); lia. Defined.

(** Signed division truncates towards zero and the remainder has the sign
    of the dividend, for all operands but the least 64-bit number, whose
    absolute value overflows (signed overflow, undefined in C). *)
Theorem sdivmod_correct a b : - 2 ^ 63 <= a < 2 ^ 63 -> - 2 ^ 63 <= b < 2 ^ 63 ->
  (__divdi3 a b, __moddi3 a b) =
    if decide (a = - 2 ^ 63 \/ b = - 2 ^ 63) then (Err Undefined, Err Undefined)
    else if decide (b = 0) then (Err DivByZero, Err DivByZero)
    else (Ok (Z.quot a b), Ok (Z.rem a b)).
Proof.
  intros Ha Hb. case_decide as D.
  - unfold __divdi3, __moddi3. rewrite !arith64_abs_spec by done.
    destruct (decide (a = - 2 ^ 63)); [done|]. rewrite decide_True by tauto. done.
  - rewrite divdi3_spec, moddi3_spec by (unfold negatable; lia). by case_decide.
Qed.

Lemma sdivmod_correct_witness :
  (__divdi3 (-7) 2, __moddi3 (-7) 2) =
    if decide (-7 = - 2 ^ 63 \/ 2 = - 2 ^ 63) then (Err Undefined, Err Undefined)
    else if decide (2 = 0) then (Err DivByZero, Err DivByZero)
    else (Ok (-3), Ok (-1)).
Proof. apply (sdivmod_correct (-7) 2); lia. Defined.

(** The shifts of 64-bit values by halves of 32 bits are multiplication
    and floor division by a power of two: the count is taken modulo 64, a
    left shift wraps around, a right shift keeps the sign for signed values,
    and no 32-bit shift is by 32 bits or more. *)
Theorem shifts_correct a b :
  __ashldi3 a b = Ok (s64 (a * 2 ^ (b mod 64))) /\
  (- 2 ^ 63 <= a < 2 ^ 63 -> __ashrdi3 a b = Ok (a / 2 ^ (b mod 64))) /\
  (0 <= a < 2 ^ 64 -> __lshrdi3 a b = Ok (a / 2 ^ (b mod 64))).
Proof. auto using ashldi3_spec, ashrdi3_spec, lshrdi3_spec. Qed.

Lemma shifts_correct_witness :
  __ashldi3 (-9) 35 = Ok (s64 (-9 * 2 ^ (35 mod 64))) /\ __ashrdi3 (-9) 35 = Ok (-9 / 2 ^ (35 mod 64)).
Proof.
  split; [apply (shifts_correct (-9) 35)|].
  apply (shifts_correct (-9) 35). lia.
Defined.

(** The bit counts are right: for non-zero words, the leading zeros are
    the distance of the highest set bit from the top, the trailing zeros and
    [__ffsdi2] give the lowest set bit; the sideways additions count the bits
    set in every word. *)
Theorem bit_counts_correct a :
  (0 < a < 2 ^ 32 -> __clzsi2 a = 31 - Z.log2 a /\ trailing a (__ctzsi2 a)) /\
  (0 < a < 2 ^ 64 -> __clzdi2 a = 63 - Z.log2 a /\ trailing a (__ctzdi2 a) /\
                     trailing a (__ffsdi2 a - 1)) /\
  (0 <= a < 2 ^ 32 -> __popcountsi2 a = digsum 2 32 a) /\
  (0 <= a < 2 ^ 64 -> __popcountdi2 a = digsum 2 64 a).
Proof.
  split_and!; auto using popcountsi2_spec, popcountdi2_spec.
  - auto using clzsi2_spec, ctzsi2_spec.
  - intros Ha. unfold __ffsdi2. rewrite decide_False by lia.
    replace (__ctzdi2 a + 1 - 1) with (__ctzdi2 a) by lia.
    auto using clzdi2_spec, ctzdi2_spec.
Qed.

Lemma bit_counts_correct_witness :
  __clzdi2 40 = 63 - Z.log2 40 /\ trailing 40 (__ctzdi2 40) /\ __popcountdi2 40 = digsum 2 64 40.
Proof.
  destruct (bit_counts_correct 40) as (_ & H1 & _ & H2).
  destruct H1 as (? & ? & _); [lia|]. split_and!; [assumption..|]. apply H2. lia.
Defined.
