(* ===== verification/Printf.v ===== *)
(** * Formatted output

    src/kernel/libs/printf.c for the 64-bit targets (int has 32 bits; long,
    long long, pointers and size_t have 64).  The file writes every character
    through a gadget; the functions below are written once for any sink of
    characters, and the gadget of the code is one instance.  The kernel's copy
    of this library computes "floating point" on unsigned long, so all of it is
    integer arithmetic. *)

From S2P Require Import Prelude.

Local Open Scope Z_scope.

(** ** Sinks *)

(** What the formatting code uses of its output: write a character, and read
    how many were written. *)
Class Sink (G : Type) := {
  putchar_via : G -> Z -> res G;
  sink_pos : G -> Z
}.

(** ** The gadget *)

(** [g_function] says whether the gadget holds a function, in which case
    [g_sent] lists the characters passed to it; [g_buffer] is the buffer, if
    any.  A character is its byte. *)
Record output_gadget_t := mk_gadget {
  g_function : bool;
  g_sent : list Z;
  g_buffer : option (list Z);
  g_pos : Z;
  g_max_chars : Z
}.

Definition PRINTF_MAX_POSSIBLE_BUFFER_SIZE : Z := 2 ^ 31 - 1.

Definition putchar_via_gadget (g : output_gadget_t) (c : Z) : res output_gadget_t :=
  let write_pos := g_pos g in
  let g := mk_gadget (g_function g) (g_sent g) (g_buffer g) (u32 (g_pos g + 1)) (g_max_chars g) in
  if decide (g_max_chars g <= write_pos) then Ok g
  else if g_function g then
    Ok (mk_gadget true (g_sent g ++ [c]) (g_buffer g) (g_pos g) (g_max_chars g))
  else
    match g_buffer g with
    | None => Err NullDeref
    | Some b =>
        let* b := aset b (Z.to_nat write_pos) c in
        Ok (mk_gadget false (g_sent g) (Some b) (g_pos g) (g_max_chars g))
    end.

#[export] Instance gadget_sink : Sink output_gadget_t := {
  putchar_via := putchar_via_gadget;
  sink_pos := g_pos
}.

Definition append_termination_with_gadget (g : output_gadget_t) : res output_gadget_t :=
  if g_function g || bool_decide (g_max_chars g = 0) then Ok g
  else
    match g_buffer g with
    | None => Ok g
    | Some b =>
        let null_char_pos :=
          if decide (g_pos g < g_max_chars g) then g_pos g else u32 (g_max_chars g - 1) in
        let* b := aset b (Z.to_nat null_char_pos) 0 in
        Ok (mk_gadget (g_function g) (g_sent g) (Some b) (g_pos g) (g_max_chars g))
    end.

Definition discarding_gadget : output_gadget_t := mk_gadget false [] None 0 0.

Definition buffer_gadget (buffer : option (list Z)) (buffer_size : Z) : output_gadget_t :=
  let usable_buffer_size :=
    if decide (PRINTF_MAX_POSSIBLE_BUFFER_SIZE < buffer_size) then PRINTF_MAX_POSSIBLE_BUFFER_SIZE
    else u32 buffer_size in
  match buffer with
  | None => discarding_gadget
  | Some b => mk_gadget false [] (Some b) 0 usable_buffer_size
  end.

Definition function_gadget : output_gadget_t :=
  mk_gadget true [] None 0 PRINTF_MAX_POSSIBLE_BUFFER_SIZE.

(** [putchar_wrapper] hands its character to [putchar_]: the gadget's log is
    the sequence of characters put. *)
Definition extern_putchar_gadget : output_gadget_t := function_gadget.

(** ** Flags *)

Definition FLAGS_ZEROPAD := 1.
Definition FLAGS_LEFT := 2.
Definition FLAGS_PLUS := 4.
Definition FLAGS_SPACE := 8.
Definition FLAGS_HASH := 16.
Definition FLAGS_UPPERCASE := 32.
Definition FLAGS_CHAR := 64.
Definition FLAGS_SHORT := 128.
Definition FLAGS_LONG := 512.
Definition FLAGS_LONG_LONG := 1024.
Definition FLAGS_PRECISION := 2048.
Definition FLAGS_ADAPT_EXP := 4096.
Definition FLAGS_POINTER := 8192.
Definition FLAGS_SIGNED := 16384.

(** [flags & m] as a condition, [flags | m] and [flags & ~m]. *)
Definition has (flags m : Z) : bool := negb (Z.land flags m =? 0).
Definition add (flags m : Z) : Z := Z.lor flags m.
Definition drp (flags m : Z) : Z := Z.ldiff flags m.

Definition BASE_BINARY := 2.
Definition BASE_OCTAL := 8.
Definition BASE_DECIMAL := 10.
Definition BASE_HEX := 16.

Definition PRINTF_INTEGER_BUFFER_SIZE : nat := 32.
Definition PRINTF_DECIMAL_BUFFER_SIZE : nat := 32.

(** Characters. *)
Abbreviation ch_space := 32.
Abbreviation ch_0 := 48.
Abbreviation ch_minus := 45.
Abbreviation ch_plus := 43.
Abbreviation ch_percent := 37.

(** ** Parsing numbers *)

Fixpoint strnlen_loop (str : cstr) (s : nat) (maxsize : Z) (fuel : nat) : res nat :=
  match fuel with
  | O => Err OutOfFuel
  | S f =>
      let* c := cget str s in
      if decide (c = 0) then Ok s
      else if decide (maxsize = 0) then Ok s
      else strnlen_loop str (S s) (maxsize - 1) f
  end.

Definition strnlen_s_ (str : cstr) (maxsize : Z) : res Z :=
  let* n := strnlen_loop str 0 maxsize (S (length str)) in
  Ok (u32 (Z.of_nat n)).

Definition is_digit_ (ch : Z) : bool := bool_decide (48 <= ch /\ ch <= 57).

Fixpoint atou_loop (str : cstr) (p : nat) (i : Z) (fuel : nat) : res (Z * nat) :=
  match fuel with
  | O => Err OutOfFuel
  | S f =>
      let* c := cget str p in
      if is_digit_ c then atou_loop str (S p) (u32 (u32 (i * 10) + (c - ch_0))) f
      else Ok (i, p)
  end.

Definition atou_ (str : cstr) (p : nat) : res (Z * nat) := atou_loop str p 0 (S (length str)).

(** ** Output of numbers *)

Section sink.
Context {G : Type} `{Sink G}.

(** The same character [n] times. *)
Fixpoint put_n (output : G) (c : Z) (n : nat) : res G :=
  match n with
  | O => Ok output
  | S n' => let* output := putchar_via output c in put_n output c n'
  end.

(** [while (output->pos - start_pos < width) putchar(' ');] *)
Fixpoint pad_to (output : G) (start_pos width : Z) (fuel : nat) : res G :=
  if decide (u32 (sink_pos output - start_pos) < width) then
    match fuel with
    | O => Err OutOfFuel
    | S f => let* output := putchar_via output ch_space in pad_to output start_pos width f
    end
  else Ok output.

(** [while (len) putchar(buf[--len]);] *)
Fixpoint put_rev (output : G) (buf : list Z) (len : nat) : res G :=
  match len with
  | O => Ok output
  | S len' =>
      let* c := aget buf len' in
      let* output := putchar_via output c in
      put_rev output buf len'
  end.

Definition out_rev_ (output : G) (buf : list Z) (len : nat) (width flags : Z) : res G :=
  let start_pos := sink_pos output in
  let* output :=
    if negb (has flags FLAGS_LEFT) && negb (has flags FLAGS_ZEROPAD) then
      put_n output ch_space (Z.to_nat (width - Z.of_nat len))
    else Ok output in
  let* output := put_rev output buf len in
  if has flags FLAGS_LEFT then pad_to output start_pos width (Z.to_nat width) else Ok output.

(** [buf[len++] = c;] *)
Definition push (s : list Z * nat) (c : Z) : res (list Z * nat) :=
  let '(buf, len) := s in
  let* buf := aset buf len c in
  Ok (buf, S len).

(** [while ((len < limit) && (len < SIZE)) buf[len++] = '0';] *)
Fixpoint fill_zeros (s : list Z * nat) (limit : Z) (size fuel : nat) : res (list Z * nat) :=
  if decide (Z.of_nat s.2 < limit /\ (s.2 < size)%nat) then
    match fuel with
    | O => Err OutOfFuel
    | S f => let* s := push s ch_0 in fill_zeros s limit size f
    end
  else Ok s.

(** The sign, written last. *)
Definition push_sign (s : list Z * nat) (negative : bool) (flags : Z) (size : nat)
    : res (list Z * nat) :=
  if decide (s.2 < size)%nat then
    if negative then push s ch_minus
    else if has flags FLAGS_PLUS then push s ch_plus
    else if has flags FLAGS_SPACE then push s ch_space
    else Ok s
  else Ok s.

(** The "0x", "0X", "0b" or "0" of the alternative form, which may take back
    padding zeros. *)
Definition push_prefix (s : list Z * nat) (unpadded_len : nat) (base precision width flags : Z)
    : res (list Z * nat) :=
  let size := PRINTF_INTEGER_BUFFER_SIZE in
  let '(buf, len) := s in
  let len :=
    if negb (has flags FLAGS_PRECISION) && bool_decide (0 < len)%nat &&
       (bool_decide (Z.of_nat len = precision) || bool_decide (Z.of_nat len = width)) then
      let len := if decide (unpadded_len < len)%nat then (len - 1)%nat else len in
      if decide ((0 < len)%nat /\ (base = BASE_HEX \/ base = BASE_BINARY) /\ (unpadded_len < len)%nat)
      then (len - 1)%nat else len
    else len in
  let* s :=
    if decide (base = BASE_HEX /\ has flags FLAGS_UPPERCASE = false /\ (len < size)%nat) then
      push (buf, len) 120
    else if decide (base = BASE_HEX /\ has flags FLAGS_UPPERCASE = true /\ (len < size)%nat) then
      push (buf, len) 88
    else if decide (base = BASE_BINARY /\ (len < size)%nat) then push (buf, len) 98
    else Ok (buf, len) in
  if decide (s.2 < size)%nat then push s ch_0 else Ok s.

(** The part of [print_integer_finalization] that fills the buffer; the width
    and flags change on the way. *)
Definition finalization_buffer (buf : list Z) (len : nat) (negative : bool)
    (base precision width flags : Z) : res (list Z * nat * Z * Z) :=
  let size := PRINTF_INTEGER_BUFFER_SIZE in
  let unpadded_len := len in
  let* '(s, width) :=
    if has flags FLAGS_LEFT then Ok ((buf, len), width)
    else
      let width :=
        if bool_decide (width <> 0) && has flags FLAGS_ZEROPAD &&
           (negative || has flags (add FLAGS_PLUS FLAGS_SPACE)) then width - 1 else width in
      let* s := if has flags FLAGS_ZEROPAD then fill_zeros (buf, len) width size size
                else Ok (buf, len) in
      Ok (s, width) in
  let* s := fill_zeros s precision size size in
  let flags := if decide (base = BASE_OCTAL /\ (unpadded_len < s.2)%nat) then drp flags FLAGS_HASH
               else flags in
  let* s := if has flags (add FLAGS_HASH FLAGS_POINTER)
            then push_prefix s unpadded_len base precision width flags else Ok s in
  let* '(buf, len) := push_sign s negative flags size in
  Ok (buf, len, width, flags).

Definition print_integer_finalization (output : G) (buf : list Z) (len : nat) (negative : bool)
    (base precision width flags : Z) : res G :=
  let* '(buf, len, width, flags) :=
    finalization_buffer buf len negative base precision width flags in
  out_rev_ output buf len width flags.

Definition digit_char (digit flags : Z) : Z :=
  if decide (digit < 10) then u8 (ch_0 + digit)
  else u8 ((if has flags FLAGS_UPPERCASE then 65 else 97) + digit - 10).

(** [do { ... } while (value && (len < SIZE));] *)
Fixpoint digits_loop (value base flags : Z) (s : list Z * nat) (fuel : nat) : res (list Z * nat) :=
  match fuel with
  | O => Err OutOfFuel
  | S f =>
      let* s := push s (digit_char (value mod base) flags) in
      let value := value / base in
      if decide (value <> 0 /\ (s.2 < PRINTF_INTEGER_BUFFER_SIZE)%nat)
      then digits_loop value base flags s f
      else Ok s
  end.

(** The buffer is not initialised: its contents are a parameter. *)
Definition print_integer (junk : list Z) (output : G) (value : Z) (negative : bool)
    (base precision width flags : Z) : res G :=
  let* '(buf, len, flags) :=
    if decide (value = 0) then
      if negb (has flags FLAGS_PRECISION) then
        let* '(buf, len) := push (junk, O) ch_0 in
        Ok (buf, len, drp flags FLAGS_HASH)
      else if decide (base = BASE_HEX) then Ok (junk, O, drp flags FLAGS_HASH)
      else Ok (junk, O, flags)
    else
      let* '(buf, len) := digits_loop value base flags (junk, O) PRINTF_INTEGER_BUFFER_SIZE in
      Ok (buf, len, flags) in
  print_integer_finalization output buf len negative base precision width flags.

(** ** "Floating point" on unsigned long *)

(** C's arithmetic on signed types, undefined when the result does not fit. *)
Definition fit (w z : Z) : res Z :=
  if decide (- 2 ^ (w - 1) <= z < 2 ^ (w - 1)) then Ok z else Err Undefined.

Definition divu (a b : Z) : res Z := if decide (b = 0) then Err DivByZero else Ok (a / b).

(** [ABS_FOR_PRINTING] negates as long long. *)
Definition ABS_FOR_PRINTING (x : Z) : res Z :=
  if decide (0 < x) then Ok x else fit 64 (- x).

(** [get_bit_access] reads the same 64 bits. *)
Definition get_bit_access (x : Z) : Z := x.

Definition get_sign_bit (x : Z) : Z := Z.shiftr (get_bit_access x) 63.

Definition DOUBLE_BASE_EXPONENT := 1023.
Definition DOUBLE_STORED_MANTISSA_BITS := 52.
Definition DOUBLE_MAX_SUBNORMAL_EXPONENT_OF_10 := -308.
Definition DBL_MAX_10_EXP := 308.

Definition get_exp2 (x : Z) : Z :=
  Z.land (Z.shiftr x DOUBLE_STORED_MANTISSA_BITS) 0x7FF - DOUBLE_BASE_EXPONENT.

Definition PRINTF_ABS (x : Z) : res Z := if decide (0 < x) then Ok x else fit 32 (- x).

Record double_components := mk_components {
  integral : Z;
  fractional : Z;
  is_negative : bool
}.

Definition NUM_DECIMAL_DIGITS_IN_INT64_T : nat := 18.
Definition PRINTF_MAX_PRECOMPUTED_POWER_OF_10 := 18.
Definition PRINTF_MAX_SUPPORTED_PRECISION := 17.

Definition powers_of_10 : list Z :=
  map (fun k => 10 ^ Z.of_nat k) (seq 0 NUM_DECIMAL_DIGITS_IN_INT64_T).

Definition power_of_10 (i : Z) : res Z :=
  if decide (i < 0) then Err OutOfBounds
  else match powers_of_10 !! Z.to_nat i with Some p => Ok p | None => Err OutOfBounds end.

(** [-x] on unsigned long. *)
Definition negu (x : Z) : Z := u64 (- x).

Definition get_components (number precision : Z) : res double_components :=
  let negative := bool_decide (get_sign_bit number <> 0) in
  let abs_number := if negative then negu number else number in
  let integral := s64 abs_number in
  let* p := power_of_10 precision in
  let remainder := u64 (u64 (abs_number - u64 integral) * p) in
  let fractional := s64 remainder in
  let remainder := u64 (remainder - u64 fractional) in
  let* '(integral, fractional) :=
    if decide (1 < remainder) then
      let* fractional := fit 64 (fractional + 1) in
      if decide (p <= u64 fractional) then
        let* integral := fit 64 (integral + 1) in Ok (integral, 0)
      else Ok (integral, fractional)
    else if decide (remainder = 1 /\ (fractional = 0 \/ Z.odd fractional = true)) then
      let* fractional := fit 64 (fractional + 1) in Ok (integral, fractional)
    else Ok (integral, fractional) in
  let* integral :=
    if decide (precision = 0) then
      let remainder := u64 (abs_number - u64 integral) in
      if decide ((~ remainder < 1 \/ 1 < remainder) /\ Z.odd integral = true)
      then fit 64 (integral + 1) else Ok integral
    else Ok integral in
  Ok (mk_components integral fractional negative).

Record scaling_factor := mk_scaling { raw_factor : Z; multiply : bool }.

Definition apply_scaling (num : Z) (normalization : scaling_factor) : res Z :=
  if multiply normalization then Ok (u64 (num * raw_factor normalization))
  else divu num (raw_factor normalization).

Definition unapply_scaling (normalized : Z) (normalization : scaling_factor) : res Z :=
  if multiply normalization then divu normalized (raw_factor normalization)
  else Ok (u64 (normalized * raw_factor normalization)).

Definition update_normalization (sf : scaling_factor) (extra_multiplicative_factor : Z)
    : res scaling_factor :=
  if multiply sf then Ok (mk_scaling (u64 (raw_factor sf * extra_multiplicative_factor)) true)
  else
    let factor_exp2 := get_exp2 (get_bit_access (raw_factor sf)) in
    let extra_factor_exp2 := get_exp2 (get_bit_access extra_multiplicative_factor) in
    let* a := PRINTF_ABS factor_exp2 in
    let* b := PRINTF_ABS extra_factor_exp2 in
    if decide (b < a) then
      let* r := divu (raw_factor sf) extra_multiplicative_factor in Ok (mk_scaling r false)
    else
      let* r := divu extra_multiplicative_factor (raw_factor sf) in Ok (mk_scaling r true).

Definition get_normalized_components (negative : bool) (precision non_normalized : Z)
    (normalization : scaling_factor) (floored_exp10 : Z) : res double_components :=
  let* scaled := apply_scaling non_normalized normalization in
  let* m := fit 32 (- floored_exp10) in
  let* d := fit 32 (m + s32 precision) in
  if decide (DBL_MAX_10_EXP - 1 <= d) then
    get_components (if negative then negu scaled else scaled) precision
  else
    let integral := s64 scaled in
    let* u := unapply_scaling (u64 integral) normalization in
    let remainder := u64 (non_normalized - u) in
    let* prec_power_of_10 := power_of_10 precision in
    let* account_for_precision := update_normalization normalization prec_power_of_10 in
    let* scaled_remainder := apply_scaling remainder account_for_precision in
    let rounding_threshold := 0 in
    let fractional := s64 scaled_remainder in
    let scaled_remainder := u64 (scaled_remainder - u64 fractional) in
    let* fractional := fit 64 (fractional + b2z (bool_decide (rounding_threshold <= scaled_remainder))) in
    let fractional := if decide (scaled_remainder = rounding_threshold)
                      then Z.land fractional (Z.lnot 1) else fractional in
    if decide (prec_power_of_10 <= u64 fractional) then
      let* integral := fit 64 (integral + 1) in Ok (mk_components integral 0 negative)
    else Ok (mk_components integral fractional negative).

(** [while (true)]: drop the trailing zeros of the fraction. *)
Fixpoint strip_zeros (fractional count : Z) (fuel : nat) : res (Z * Z) :=
  match fuel with
  | O => Err OutOfFuel
  | S f =>
      if decide (Z.rem fractional 10 = 0)
      then strip_zeros (Z.quot fractional 10) (u32 (count - 1)) f
      else Ok (fractional, count)
  end.

(** The digits of the fraction, last first. *)
Fixpoint fraction_loop (s : list Z * nat) (fractional count : Z) (fuel : nat)
    : res (list Z * nat * Z) :=
  if decide (s.2 < PRINTF_DECIMAL_BUFFER_SIZE)%nat then
    match fuel with
    | O => Err OutOfFuel
    | S f =>
        let count := u32 (count - 1) in
        let* s := push s (u8 (ch_0 + Z.rem fractional 10)) in
        let fractional := Z.quot fractional 10 in
        if decide (fractional = 0) then Ok (s, count)
        else fraction_loop s fractional count f
    end
  else Ok (s, count).

Fixpoint extra_zeros (s : list Z * nat) (count : Z) (fuel : nat) : res (list Z * nat) :=
  if decide ((s.2 < PRINTF_DECIMAL_BUFFER_SIZE)%nat /\ 0 < count) then
    match fuel with
    | O => Err OutOfFuel
    | S f => let* s := push s ch_0 in extra_zeros s (count - 1) f
    end
  else Ok s.

Fixpoint integral_loop (s : list Z * nat) (integral : Z) (fuel : nat) : res (list Z * nat) :=
  if decide (s.2 < PRINTF_DECIMAL_BUFFER_SIZE)%nat then
    match fuel with
    | O => Err OutOfFuel
    | S f =>
        let* s := push s (u8 (ch_0 + Z.rem integral 10)) in
        let integral := Z.quot integral 10 in
        if decide (integral = 0) then Ok s else integral_loop s integral f
    end
  else Ok s.

Definition push_dot (s : list Z * nat) : res (list Z * nat) :=
  if decide (s.2 < PRINTF_DECIMAL_BUFFER_SIZE)%nat then push s 46 else Ok s.

Definition print_broken_up_decimal (number_ : double_components) (output : G)
    (precision width flags : Z) (buf : list Z) (len : nat) : res G :=
  let size := PRINTF_DECIMAL_BUFFER_SIZE in
  let s := (buf, len) in
  let* s :=
    if decide (precision = 0) then
      if has flags FLAGS_HASH then push_dot s else Ok s
    else
      let* '(fr, count) :=
        if has flags FLAGS_ADAPT_EXP && negb (has flags FLAGS_HASH) &&
           bool_decide (0 < fractional number_)
        then strip_zeros (fractional number_) precision 64
        else Ok (fractional number_, precision) in
      if bool_decide (0 < fr) || negb (has flags FLAGS_ADAPT_EXP) || has flags FLAGS_HASH then
        let* '(s, count) := fraction_loop s fr count (S size) in
        let* s := extra_zeros s count (S size) in
        push_dot s
      else Ok s in
  let* s := integral_loop s (integral number_) (S size) in
  let* '(s, width) :=
    if negb (has flags FLAGS_LEFT) && has flags FLAGS_ZEROPAD then
      let width :=
        if bool_decide (width <> 0) &&
           (is_negative number_ || has flags (add FLAGS_PLUS FLAGS_SPACE)) then width - 1 else width in
      let* s := fill_zeros s width size size in
      Ok (s, width)
    else Ok (s, width) in
  let* '(buf, len) := push_sign s (is_negative number_) flags size in
  out_rev_ output buf len width flags.

Definition print_decimal_number (output : G) (number precision width flags : Z)
    (buf : list Z) (len : nat) : res G :=
  let* value_ := get_components number precision in
  print_broken_up_decimal value_ output precision width flags buf len.

(** [x >= 0] always holds for an unsigned [x]. *)
Definition bastardized_floor (x : Z) : Z := s32 x.

Definition log10_of_positive (positive_number : Z) : res Z :=
  let dwba := get_bit_access positive_number in
  let exp2 := get_exp2 dwba in
  let dwba := Z.lor (Z.land dwba (2 ^ 52 - 1)) (Z.shiftl DOUBLE_BASE_EXPONENT 52) in
  let z := u64 (dwba - 1) in
  Ok (u64 (0 + z * 0 - u64 (z * z) * 0 + u64 (z * z * z) * 0 + exp2 * 0)).

(** 1e-308 converted to unsigned long is 0. *)
Definition pow10_of_int (floored_exp10 : Z) : res Z :=
  if decide (floored_exp10 = DOUBLE_MAX_SUBNORMAL_EXPONENT_OF_10) then Ok 0
  else
    let* e3 := fit 32 (floored_exp10 * 3) in
    let* e := fit 32 (e3 + 1) in
    let exp2 := bastardized_floor (u64 e) in
    let* e2 := fit 32 (floored_exp10 * 2) in
    let* d := fit 32 (e2 - exp2 * 1) in
    let z := u64 d in
    let z2 := u64 (z * z) in
    let F := u64 (Z.shiftl (u64 (u64 exp2 + DOUBLE_BASE_EXPONENT)) DOUBLE_STORED_MANTISSA_BITS) in
    let* q1 := divu z2 14 in
    let* q2 := divu z2 (u64 (10 + q1)) in
    let* q3 := divu z2 (u64 (6 + q2)) in
    let* q4 := divu (u64 (2 * z)) (u64 (u64 (2 - z) + q3)) in
    Ok (u64 (F * u64 (1 + q4))).

(** The decimal exponent, the normalisation factor and whether the exponent is
    in the table; the last two are not set for 0. *)
Definition decimal_exponent (abs_number : Z) : res (Z * Z * bool) :=
  if decide (abs_number = 0) then Ok (0, 0, false)
  else
    let* exp10 := log10_of_positive abs_number in
    let floored_exp10 := bastardized_floor exp10 in
    let* p10 := pow10_of_int floored_exp10 in
    let* '(floored_exp10, p10) :=
      if decide (abs_number < p10) then
        let* e := fit 32 (floored_exp10 - 1) in Ok (e, p10 / 10)
      else Ok (floored_exp10, p10) in
    let* a := PRINTF_ABS floored_exp10 in
    let covered := bool_decide (a < PRINTF_MAX_PRECOMPUTED_POWER_OF_10) in
    let* raw := if covered then power_of_10 a else Ok p10 in
    Ok (floored_exp10, raw, covered).

(** "%g": how the precision is counted, and whether there is an exponent. *)
Definition adapt_precision (precision flags floored_exp10 : Z) : res (Z * Z * bool) :=
  if has flags FLAGS_ADAPT_EXP then
    let required_significant_digits := if decide (precision = 0) then 1 else s32 precision in
    let fall_back := bool_decide (-4 <= floored_exp10 /\ floored_exp10 < required_significant_digits) in
    let* p1 := fit 32 (s32 precision - 1) in
    let* precision_ := if fall_back then fit 32 (p1 - floored_exp10) else Ok p1 in
    Ok (if decide (0 < precision_) then precision_ else 0, add flags FLAGS_PRECISION, fall_back)
  else Ok (precision, flags, false).

Definition print_exponential_number (junk : list Z) (output : G) (number precision width flags : Z)
    (buf : list Z) (len : nat) : res G :=
  let negative := bool_decide (get_sign_bit number <> 0) in
  let abs_number := if negative then negu number else number in
  let* '(floored_exp10, raw, covered) := decimal_exponent abs_number in
  let* '(precision, flags, fall_back) := adapt_precision precision flags floored_exp10 in
  let normalization := mk_scaling raw (bool_decide (floored_exp10 < 0) && covered) in
  let* parts :=
    if fall_back || bool_decide (floored_exp10 = 0) then
      get_components (if negative then negu abs_number else abs_number) precision
    else get_normalized_components negative precision abs_number normalization floored_exp10 in
  let* '(floored_exp10, precision, parts) :=
    if fall_back then
      if has flags FLAGS_ADAPT_EXP && bool_decide (-1 <= floored_exp10) then
        let* p := power_of_10 (floored_exp10 + 1) in
        if decide (u64 (integral parts) = p) then
          Ok (floored_exp10 + 1, u32 (precision - 1), parts)
        else Ok (floored_exp10, precision, parts)
      else Ok (floored_exp10, precision, parts)
    else if decide (10 <= integral parts) then
      let* e := fit 32 (floored_exp10 + 1) in
      Ok (e, precision, mk_components 1 0 (is_negative parts))
    else Ok (floored_exp10, precision, parts) in
  let* a := PRINTF_ABS floored_exp10 in
  let exp10_part_width := if fall_back then 0 else if decide (a < 100) then 4 else 5 in
  let decimal_part_width :=
    if has flags FLAGS_LEFT && bool_decide (exp10_part_width <> 0) then 0
    else if decide (exp10_part_width < width) then width - exp10_part_width else 0 in
  let printed_exponential_start_pos := sink_pos output in
  let* output := print_broken_up_decimal parts output precision decimal_part_width flags buf len in
  if fall_back then Ok output
  else
    let* output := putchar_via output (if has flags FLAGS_UPPERCASE then 69 else 101) in
    let* v := ABS_FOR_PRINTING floored_exp10 in
    let* output := print_integer junk output v (bool_decide (floored_exp10 < 0)) 10 0
                     (exp10_part_width - 1) (add FLAGS_ZEROPAD FLAGS_PLUS) in
    if has flags FLAGS_LEFT then
      pad_to output printed_exponential_start_pos width (Z.to_nat width)
    else Ok output.

(** The digits that do not fit the fraction. *)
Fixpoint limit_precision (s : list Z * nat) (precision : Z) (fuel : nat)
    : res (list Z * nat * Z) :=
  if decide ((s.2 < PRINTF_DECIMAL_BUFFER_SIZE)%nat /\ PRINTF_MAX_SUPPORTED_PRECISION < precision) then
    match fuel with
    | O => Err OutOfFuel
    | S f => let* s := push s ch_0 in limit_precision s (precision - 1) f
    end
  else Ok (s, precision).

(** The value is unsigned long, and so are the bounds it is compared with. *)
Definition print_floating_point (junk : list Z) (output : G) (value precision width flags : Z)
    (prefer_exponential : bool) : res G :=
  if negb (bool_decide (value = value)) then
    out_rev_ output (bytes_of "nan") 3 width flags
  else if decide (value < u64 (-10000)) then
    out_rev_ output (bytes_of "fni-") 4 width flags
  else if decide (10000 < value) then
    if has flags FLAGS_PLUS then out_rev_ output (bytes_of "fni+") 4 width flags
    else out_rev_ output (bytes_of "fni") 3 width flags
  else if negb prefer_exponential && bool_decide (1000000 < value \/ value < u64 (-1000000)) then
    print_exponential_number junk output value precision width flags junk 0
  else
    let precision := if has flags FLAGS_PRECISION then precision else 6 in
    let* '(s, precision) := limit_precision (junk, O) precision (S PRINTF_DECIMAL_BUFFER_SIZE) in
    let '(buf, len) := s in
    if prefer_exponential then
      print_exponential_number junk output value precision width flags buf len
    else print_decimal_number output value precision width flags buf len.

(** ** Directives *)

(** The variable arguments, by the classes of types the code fetches: int,
    the 64-bit integers, strings (null or not), pointers, and the places "%n"
    writes to.  Fetching an argument of another class is undefined. *)
Inductive va_arg :=
| AInt (z : Z)
| ALong (z : Z)
| AStr (p : option cstr)
| APtr (z : Z)
| ADest.

Definition va_int (args : list va_arg) : res (Z * list va_arg) :=
  match args with
  | AInt z :: args => Ok (z, args)
  | _ => Err Undefined
  end.

Definition va_long (args : list va_arg) : res (Z * list va_arg) :=
  match args with
  | ALong z :: args => Ok (z, args)
  | _ => Err Undefined
  end.

Definition va_str (args : list va_arg) : res (option cstr * list va_arg) :=
  match args with
  | AStr p :: args => Ok (p, args)
  | _ => Err Undefined
  end.

Definition va_ptr (args : list va_arg) : res (Z * list va_arg) :=
  match args with
  | APtr z :: args => Ok (z, args)
  | _ => Err Undefined
  end.

Definition va_dest (args : list va_arg) : res (list va_arg) :=
  match args with
  | ADest :: args => Ok args
  | _ => Err Undefined
  end.

Definition flag_of (c : Z) : option Z :=
  if decide (c = ch_0) then Some FLAGS_ZEROPAD
  else if decide (c = ch_minus) then Some FLAGS_LEFT
  else if decide (c = ch_plus) then Some FLAGS_PLUS
  else if decide (c = ch_space) then Some FLAGS_SPACE
  else if decide (c = 35) then Some FLAGS_HASH
  else None.

Fixpoint parse_flags_loop (format : cstr) (i : nat) (flags : Z) (fuel : nat) : res (Z * nat) :=
  match fuel with
  | O => Err OutOfFuel
  | S f =>
      let* c := cget format i in
      match flag_of c with
      | Some m => parse_flags_loop format (S i) (add flags m) f
      | None => Ok (flags, i)
      end
  end.

Definition parse_flags (format : cstr) (i : nat) : res (Z * nat) :=
  parse_flags_loop format i 0 (S (length format)).

(** The width field: the width, the flags, the position, the arguments. *)
Definition parse_width (format : cstr) (i : nat) (flags : Z) (args : list va_arg)
    : res (Z * Z * nat * list va_arg) :=
  let* c := cget format i in
  if is_digit_ c then
    let* '(width, i) := atou_ format i in Ok (width, flags, i, args)
  else if decide (c = 42) then
    let* '(z, args) := va_int args in
    let w := s32 z in
    if decide (w < 0) then
      let* m := fit 32 (- w) in
      Ok (u32 m, add flags FLAGS_LEFT, S i, args)
    else Ok (u32 w, flags, S i, args)
  else Ok (0, flags, i, args).

Definition parse_precision (format : cstr) (i : nat) (flags : Z) (args : list va_arg)
    : res (Z * Z * nat * list va_arg) :=
  let* c := cget format i in
  if decide (c = 46) then
    let flags := add flags FLAGS_PRECISION in
    let i := S i in
    let* c := cget format i in
    if is_digit_ c then
      let* '(precision, i) := atou_ format i in Ok (precision, flags, i, args)
    else if decide (c = 42) then
      let* '(z, args) := va_int args in
      let precision_ := s32 z in
      Ok (if decide (0 < precision_) then u32 precision_ else 0, flags, S i, args)
    else Ok (0, flags, i, args)
  else Ok (0, flags, i, args).

Definition parse_length (format : cstr) (i : nat) (flags : Z) : res (Z * nat) :=
  let* c := cget format i in
  if decide (c = 108) then
    let flags := add flags FLAGS_LONG in
    let* c := cget format (S i) in
    if decide (c = 108) then Ok (add flags FLAGS_LONG_LONG, S (S i)) else Ok (flags, S i)
  else if decide (c = 104) then
    let flags := add flags FLAGS_SHORT in
    let* c := cget format (S i) in
    if decide (c = 104) then Ok (add flags FLAGS_CHAR, S (S i)) else Ok (flags, S i)
  else if decide (c = 116 \/ c = 106 \/ c = 122) then Ok (add flags FLAGS_LONG, S i)
  else Ok (flags, i).

(** The base and the flags of an integer specifier. *)
Definition integer_base (c flags : Z) : Z * Z :=
  let flags := if decide (c = 100 \/ c = 105) then add flags FLAGS_SIGNED else flags in
  let '(base, flags) :=
    if decide (c = 120 \/ c = 88) then (BASE_HEX, flags)
    else if decide (c = 111) then (BASE_OCTAL, flags)
    else if decide (c = 98) then (BASE_BINARY, flags)
    else (BASE_DECIMAL, drp flags FLAGS_HASH) in
  let flags := if decide (c = 88) then add flags FLAGS_UPPERCASE else flags in
  let flags := if has flags FLAGS_PRECISION then drp flags FLAGS_ZEROPAD else flags in
  (base, flags).

(** d, i, u, x, X, o, b *)
Definition print_integer_specifier (junk : list Z) (output : G) (c flags width precision : Z)
    (args : list va_arg) : res (G * list va_arg) :=
  let '(base, flags) := integer_base c flags in
  if has flags FLAGS_SIGNED then
    let* '(value, args) :=
      if has flags FLAGS_LONG_LONG || has flags FLAGS_LONG then
        let* '(z, args) := va_long args in Ok (s64 z, args)
      else
        let* '(z, args) := va_int args in
        Ok (if has flags FLAGS_CHAR then s8 z else if has flags FLAGS_SHORT then s16 z else s32 z, args) in
    let* v := ABS_FOR_PRINTING value in
    let* output := print_integer junk output v (bool_decide (value < 0)) base precision width flags in
    Ok (output, args)
  else
    let flags := drp flags (add FLAGS_PLUS FLAGS_SPACE) in
    let* '(value, args) :=
      if has flags FLAGS_LONG_LONG || has flags FLAGS_LONG then
        let* '(z, args) := va_long args in Ok (u64 z, args)
      else
        let* '(z, args) := va_int args in
        Ok (if has flags FLAGS_CHAR then u8 z else if has flags FLAGS_SHORT then u16 z else u32 z, args) in
    let* output := print_integer junk output value false base precision width flags in
    Ok (output, args).

(** c *)
Definition print_char_specifier (output : G) (flags width : Z) (args : list va_arg)
    : res (G * list va_arg) :=
  let n := Z.to_nat (width - 1) in
  let* output := if has flags FLAGS_LEFT then Ok output else put_n output ch_space n in
  let* '(z, args) := va_int args in
  let* output := putchar_via output (u8 z) in
  let* output := if has flags FLAGS_LEFT then put_n output ch_space n else Ok output in
  Ok (output, args).

(** [while (( *p != 0) && (!(flags & FLAGS_PRECISION) || precision)) ...] *)
Fixpoint put_str (output : G) (p : cstr) (i : nat) (limited : bool) (precision : Z) (fuel : nat)
    : res G :=
  match fuel with
  | O => Err OutOfFuel
  | S f =>
      let* c := cget p i in
      if decide (c = 0) then Ok output
      else if limited && bool_decide (precision = 0) then Ok output
      else
        let* output := putchar_via output c in
        put_str output p (S i) limited (u32 (precision - 1)) f
  end.

(** s *)
Definition print_string_specifier (output : G) (flags width precision : Z) (args : list va_arg)
    : res (G * list va_arg) :=
  let* '(p, args) := va_str args in
  match p with
  | None =>
      let* output := out_rev_ output (bytes_of ")llun(") 6 width flags in Ok (output, args)
  | Some p =>
      let* l := strnlen_s_ p (if decide (precision = 0) then PRINTF_MAX_POSSIBLE_BUFFER_SIZE else precision) in
      let limited := has flags FLAGS_PRECISION in
      let l := if limited then (if decide (l < precision) then l else precision) else l in
      let n := Z.to_nat (width - l) in
      let* output := if has flags FLAGS_LEFT then Ok output else put_n output ch_space n in
      let* output := put_str output p 0 limited precision (S (length p)) in
      let* output := if has flags FLAGS_LEFT then put_n output ch_space n else Ok output in
      Ok (output, args)
  end.

(** p *)
Definition print_pointer_specifier (junk : list Z) (output : G) (flags precision : Z)
    (args : list va_arg) : res (G * list va_arg) :=
  let width := 18 in
  let flags := add flags (add FLAGS_ZEROPAD FLAGS_POINTER) in
  let* '(z, args) := va_ptr args in
  let value := u64 z in
  let* output :=
    if decide (value = 0) then out_rev_ output (bytes_of ")lin(") 5 width flags
    else print_integer junk output value false BASE_HEX precision width flags in
  Ok (output, args).

(** n: the value stored through the argument. *)
Definition writeback_value (flags pos : Z) : Z :=
  if has flags FLAGS_CHAR then s8 pos
  else if has flags FLAGS_SHORT then s16 pos
  else if has flags FLAGS_LONG then pos
  else if has flags FLAGS_LONG_LONG then pos
  else s32 pos.

(** The specifier [c]: the output, the arguments left and the values written
    back. *)
Definition print_specifier (junk : list Z) (output : G) (c flags width precision : Z)
    (args : list va_arg) (wb : list Z) : res (G * list va_arg * list Z) :=
  if decide (c = 100 \/ c = 105 \/ c = 117 \/ c = 120 \/ c = 88 \/ c = 111 \/ c = 98) then
    let* '(output, args) := print_integer_specifier junk output c flags width precision args in
    Ok (output, args, wb)
  else if decide (c = 102 \/ c = 70) then
    let flags := if decide (c = 70) then add flags FLAGS_UPPERCASE else flags in
    let* '(z, args) := va_long args in
    let* output := print_floating_point junk output (u64 z) precision width flags false in
    Ok (output, args, wb)
  else if decide (c = 101 \/ c = 69 \/ c = 103 \/ c = 71) then
    let flags := if decide (c = 103 \/ c = 71) then add flags FLAGS_ADAPT_EXP else flags in
    let flags := if decide (c = 69 \/ c = 71) then add flags FLAGS_UPPERCASE else flags in
    let* '(z, args) := va_long args in
    let* output := print_floating_point junk output (u64 z) precision width flags true in
    Ok (output, args, wb)
  else if decide (c = 99) then
    let* '(output, args) := print_char_specifier output flags width args in Ok (output, args, wb)
  else if decide (c = 115) then
    let* '(output, args) := print_string_specifier output flags width precision args in
    Ok (output, args, wb)
  else if decide (c = 112) then
    let* '(output, args) := print_pointer_specifier junk output flags precision args in
    Ok (output, args, wb)
  else if decide (c = ch_percent) then
    let* output := putchar_via output ch_percent in Ok (output, args, wb)
  else if decide (c = 110) then
    let* args := va_dest args in
    Ok (output, args, wb ++ [writeback_value flags (sink_pos output)])
  else
    let* output := putchar_via output c in Ok (output, args, wb).

(** [while ( *format)] *)
Fixpoint format_loop (junk : list Z) (output : G) (format : cstr) (i : nat) (args : list va_arg)
    (wb : list Z) (fuel : nat) : res (G * list Z) :=
  match fuel with
  | O => Err OutOfFuel
  | S f =>
      let* c := cget format i in
      if decide (c = 0) then Ok (output, wb)
      else if decide (c = ch_percent) then
        let* '(flags, i) := parse_flags format (S i) in
        let* '(width, flags, i, args) := parse_width format i flags args in
        let* '(precision, flags, i, args) := parse_precision format i flags args in
        let* '(flags, i) := parse_length format i flags in
        let* c := cget format i in
        let* '(output, args, wb) := print_specifier junk output c flags width precision args wb in
        format_loop junk output format (S i) args wb f
      else
        let* output := putchar_via output c in
        format_loop junk output format (S i) args wb f
  end.

End sink.

(** ** The functions of the library *)

(** The gadget after the call, the values written back and the result. *)
Definition _vsnprintf (junk : list Z) (output : output_gadget_t) (format : cstr)
    (args : list va_arg) : res (output_gadget_t * list Z * Z) :=
  let* '(output, wb) := format_loop junk output format 0 args [] (S (length format)) in
  let* output := append_termination_with_gadget output in
  Ok (output, wb, s32 (g_pos output)).

Definition vprintf_ (junk : list Z) (format : cstr) (args : list va_arg)
    : res (output_gadget_t * list Z * Z) :=
  _vsnprintf junk extern_putchar_gadget format args.

Definition vsnprintf_ (junk : list Z) (s : option (list Z)) (n : Z) (format : cstr)
    (args : list va_arg) : res (output_gadget_t * list Z * Z) :=
  _vsnprintf junk (buffer_gadget s n) format args.

Definition vsprintf_ (junk : list Z) (s : option (list Z)) (format : cstr) (args : list va_arg)
    : res (output_gadget_t * list Z * Z) :=
  vsnprintf_ junk s PRINTF_MAX_POSSIBLE_BUFFER_SIZE format args.

Definition vfctprintf (junk : list Z) (format : cstr) (args : list va_arg)
    : res (output_gadget_t * list Z * Z) :=
  _vsnprintf junk function_gadget format args.

(** The variadic functions pass their arguments on. *)
Definition printf_ := vprintf_.
Definition sprintf_ := vsprintf_.
Definition snprintf_ := vsnprintf_.
Definition fctprintf := vfctprintf.

(** ** Examples *)

Definition snprintf_text (n : nat) (format : string) (args : list va_arg) : res (list Z * list Z * Z) :=
  let* '(g, wb, r) := snprintf_ (replicate 32 170) (Some (replicate n 255)) (Z.of_nat n)
                        (bytes_of format) args in
  match g_buffer g with Some b => Ok (b, wb, r) | None => Err NullDeref end.

Example snprintf_1 :
  snprintf_text 8 "%d%%" [AInt (-42)] = Ok (bytes_of "-42%" ++ [0; 255; 255; 255], [], 4).
Proof. vm_compute. reflexivity. Qed.

Example snprintf_2 :
  snprintf_text 5 "%#x %s" [AInt 255; AStr (Some (bytes_of "abc"))] = Ok (bytes_of "0xff" ++ [0], [], 8).
Proof. vm_compute. reflexivity. Qed.

Example snprintf_3 :
  snprintf_text 32 "%-6s|%05d|%+.3ld|%n%p" [AStr (Some (bytes_of "ab")); AInt 7; ALong 5; ADest; APtr 4096]
  = Ok (bytes_of "ab    |00007|+005|0x0000000000" ++ [48; 0], [18], 36).
Proof. vm_compute. reflexivity. Qed.

Example snprintf_4 : snprintf_text 8 "%f %e" [ALong 0; ALong 5] = Ok (bytes_of "-inf -i" ++ [0], [], 9).
Proof. vm_compute. reflexivity. Qed.

(** A format that ends inside a directive makes the loop run past its end. *)
Example snprintf_5 : snprintf_text 8 "50%" [] = Err OutOfBounds.
Proof. vm_compute. reflexivity. Qed.
