(* ===== verification/PrintfSpec.v ===== *)
(** * What formatted output promises

    The reference meaning of a format is the text it produces: the same
    formatting code over a sink that only accumulates characters
    ([text_sink]).  The gadget of src/kernel/libs/printf.c refines it: whatever
    the buffer, it holds the part of the text that fits, terminated, and the
    result counts the whole text.  The last part is about the numbers: the
    digits written are those of the value in the base asked for. *)

From S2P Require Import Prelude OutBuffer Printf.

Local Open Scope Z_scope.

(** ** The reference sink *)

(** A text as long as the position counter can count. *)
#[export] Instance text_sink : Sink (list Z) := {
  putchar_via t c := if decide (Z.of_nat (length t) + 1 < 2 ^ 32) then Ok (t ++ [c]) else Err Undefined;
  sink_pos t := Z.of_nat (length t)
}.

(** The text of a format, and the values "%n" stores. *)
Definition format_text (junk : list Z) (format : cstr) (args : list va_arg) : res (list Z * list Z) :=
  format_loop (G := list Z) junk [] format 0 args [] (S (length format)).

(** ** Simulation *)

(** What the second computation returns, the first returns too, up to [P]. *)
Definition refines {A B} (P : A -> B -> Prop) (c1 : res A) (c2 : res B) : Prop :=
  forall b, c2 = Ok b -> exists a, c1 = Ok a /\ P a b.

Lemma refines_Ok {A B} (P : A -> B -> Prop) a b : P a b -> refines P (Ok a) (Ok b).
Proof. intros HP b' [= <-]. eauto. Qed.

Lemma refines_Err {A B} (P : A -> B -> Prop) c e : refines P c (Err e).
Proof. intros b [=]. Qed.

Lemma refines_bind {A B A' B'} (P : A -> B -> Prop) (Q : A' -> B' -> Prop) c1 c2 k1 k2 :
  refines P c1 c2 -> (forall a b, P a b -> refines Q (k1 a) (k2 b)) ->
  refines Q (bind c1 k1) (bind c2 k2).
Proof.
  intros Hc Hk b Hb. apply bind_inv in Hb as (b0 & E & Hb).
  destruct (Hc _ E) as (a0 & -> & HP). exact (Hk _ _ HP _ Hb).
Qed.

Lemma refines_same {A A' B'} (Q : A' -> B' -> Prop) (c : res A) k1 k2 :
  (forall a, c = Ok a -> refines Q (k1 a) (k2 a)) -> refines Q (bind c k1) (bind c k2).
Proof. intros Hk b Hb. destruct c as [a|e]; [|done]. exact (Hk a eq_refl b Hb). Qed.

(** Related results, with equal second components. *)
Definition paired {A B X} (P : A -> B -> Prop) (a : A * X) (b : B * X) : Prop :=
  P a.1 b.1 /\ a.2 = b.2.

Section simulation.
Context {G1 G2 : Type} `{Sink G1} `{Sink G2}.
Variable R : G1 -> G2 -> Prop.

(** The two sinks write in step and agree on the position. *)
Hypothesis R_put : forall g t c, R g t -> refines R (putchar_via g c) (putchar_via t c).
Hypothesis R_pos : forall g t, R g t -> sink_pos g = sink_pos t.

Lemma put_n_refines n : forall g t c, R g t -> refines R (put_n g c n) (put_n t c n).
Proof.
  induction n as [|n IH]; intros g t c HR; cbn [put_n]; [by apply refines_Ok|].
  eapply refines_bind; eauto.
Qed.

Lemma pad_to_refines fuel : forall g t st w, R g t -> refines R (pad_to g st w fuel) (pad_to t st w fuel).
Proof.
  induction fuel as [|f IH]; intros g t st w HR; cbn [pad_to]; rewrite (R_pos _ _ HR);
    case_decide; try (by apply refines_Ok); try apply refines_Err.
  eapply refines_bind; eauto.
Qed.

Lemma put_rev_refines buf n : forall g t, R g t -> refines R (put_rev g buf n) (put_rev t buf n).
Proof.
  induction n as [|n IH]; intros g t HR; cbn [put_rev]; [by apply refines_Ok|].
  apply refines_same. intros c _. eapply refines_bind; eauto.
Qed.

Lemma put_str_refines p l fuel : forall g t i k, R g t ->
  refines R (put_str g p i l k fuel) (put_str t p i l k fuel).
Proof.
  induction fuel as [|f IH]; intros g t i k HR; cbn [put_str]; [apply refines_Err|].
  apply refines_same. intros c _. case_decide; [by apply refines_Ok|].
  destruct (l && _); [by apply refines_Ok|]. eapply refines_bind; eauto.
Qed.

Hint Resolve put_n_refines pad_to_refines put_rev_refines put_str_refines R_put refines_Ok refines_Err : sim.

(** Follow the structure of the two computations: the parts that do not write
    are the same, the parts that write are related by a lemma. *)
Ltac sim_step :=
  match goal with
  | |- refines _ (bind ?c _) (bind ?c _) => apply refines_same; intros ? _
  | |- refines _ (bind _ _) (bind _ _) => apply (refines_bind R); [|intros ? ? ?]
  | |- refines _ (let '(_, _) := ?p in _) _ => destruct p
  | |- refines _ (match ?x with _ => _ end) (match ?x with _ => _ end) => destruct x
  end.
Ltac sim := cbv zeta; repeat (sim_step; cbv zeta beta); eauto with sim.

Lemma out_rev_refines g t buf len w fl : R g t -> refines R (out_rev_ g buf len w fl) (out_rev_ t buf len w fl).
Proof. intros HR. unfold out_rev_. rewrite (R_pos _ _ HR). sim. Qed.
Hint Resolve out_rev_refines : sim.

Lemma print_integer_refines junk g t v neg b p w fl : R g t ->
  refines R (print_integer junk g v neg b p w fl) (print_integer junk t v neg b p w fl).
Proof. intros HR. unfold print_integer, print_integer_finalization. sim. Qed.
Hint Resolve print_integer_refines : sim.

Lemma broken_up_refines num g t p w fl buf len : R g t ->
  refines R (print_broken_up_decimal num g p w fl buf len) (print_broken_up_decimal num t p w fl buf len).
Proof. intros HR. unfold print_broken_up_decimal. sim. Qed.
Hint Resolve broken_up_refines : sim.

Lemma exponential_refines junk g t v p w fl buf len : R g t ->
  refines R (print_exponential_number junk g v p w fl buf len)
    (print_exponential_number junk t v p w fl buf len).
Proof. intros HR. unfold print_exponential_number. rewrite (R_pos _ _ HR). sim. Qed.
Hint Resolve exponential_refines : sim.

Lemma floating_point_refines junk g t v p w fl e : R g t ->
  refines R (print_floating_point junk g v p w fl e) (print_floating_point junk t v p w fl e).
Proof. intros HR. unfold print_floating_point, print_decimal_number. sim. Qed.
Hint Resolve floating_point_refines : sim.

(** A specifier returns its output with the arguments left. *)
Lemma ret_refines {X} c1 c2 (x : X) : refines R c1 c2 ->
  refines (paired R) (let* g := c1 in Ok (g, x)) (let* t := c2 in Ok (t, x)).
Proof. intros Hc. eapply refines_bind; [exact Hc|]. intros g t HR. by apply refines_Ok. Qed.

Lemma integer_specifier_refines junk g t c fl w p args : R g t ->
  refines (paired R) (print_integer_specifier junk g c fl w p args)
    (print_integer_specifier junk t c fl w p args).
Proof.
  intros HR. unfold print_integer_specifier. destruct (integer_base c fl) as [b fl'].
  destruct (has fl' FLAGS_SIGNED); apply refines_same; intros [v args'] _;
    [apply refines_same; intros a _|]; apply ret_refines; auto with sim.
Qed.

Lemma char_specifier_refines g t fl w args : R g t ->
  refines (paired R) (print_char_specifier g fl w args) (print_char_specifier t fl w args).
Proof. intros HR. unfold print_char_specifier. cbv zeta. repeat (sim_step; cbv zeta beta); auto with sim; by apply refines_Ok. Qed.

Lemma string_specifier_refines g t fl w p args : R g t ->
  refines (paired R) (print_string_specifier g fl w p args) (print_string_specifier t fl w p args).
Proof.
  intros HR. unfold print_string_specifier. apply refines_same. intros [[s|] args'] _.
  - apply refines_same. intros l _. cbv zeta. repeat (sim_step; cbv zeta beta); auto with sim; by apply refines_Ok.
  - apply ret_refines. auto with sim.
Qed.

Lemma pointer_specifier_refines junk g t fl p args : R g t ->
  refines (paired R) (print_pointer_specifier junk g fl p args) (print_pointer_specifier junk t fl p args).
Proof.
  intros HR. unfold print_pointer_specifier. cbv zeta. apply refines_same. intros [z args'] _.
  apply ret_refines. case_decide; auto with sim.
Qed.

Lemma repack_refines {X Y} (c1 : res (G1 * X)) (c2 : res (G2 * X)) (y : Y) : refines (paired R) c1 c2 ->
  refines (paired (paired R)) (let* '(g, x) := c1 in Ok (g, x, y)) (let* '(t, x) := c2 in Ok (t, x, y)).
Proof.
  intros Hc. eapply refines_bind; [exact Hc|]. intros [g x] [t x'] [HR E]. cbn in *. subst.
  by apply refines_Ok.
Qed.

Lemma ret3_refines {X Y} c1 c2 (x : X) (y : Y) : refines R c1 c2 ->
  refines (paired (paired R)) (let* g := c1 in Ok (g, x, y)) (let* t := c2 in Ok (t, x, y)).
Proof. intros Hc. eapply refines_bind; [exact Hc|]. intros g t HR. by apply refines_Ok. Qed.

Hint Resolve integer_specifier_refines char_specifier_refines string_specifier_refines
  pointer_specifier_refines repack_refines ret3_refines : sim.

Lemma specifier_refines junk g t c fl w p args wb : R g t ->
  refines (paired (paired R)) (print_specifier junk g c fl w p args wb)
    (print_specifier junk t c fl w p args wb).
Proof.
  intros HR. unfold print_specifier. cbv zeta.
  repeat (case_decide; [try (apply refines_same; intros [? ?] _); auto with sim|]); auto with sim.
  apply refines_same. intros args' _. rewrite (R_pos _ _ HR). by apply refines_Ok.
Qed.

Lemma format_loop_refines junk format fuel : forall g t i args wb, R g t ->
  refines (paired R) (format_loop junk g format i args wb fuel) (format_loop junk t format i args wb fuel).
Proof.
  induction fuel as [|f IH]; intros g t i args wb HR; cbn [format_loop]; [apply refines_Err|].
  apply refines_same. intros c _. case_decide; [by apply refines_Ok|]. case_decide.
  - do 5 (apply refines_same; intros; repeat case_match).
    eapply refines_bind; [by apply specifier_refines|].
    intros x y [[HR1 E1] E2]. destruct x as [[? ?] ?], y as [[? ?] ?]. cbn in HR1, E1, E2. subst. by apply IH.
  - eapply refines_bind; [by apply R_put|]. eauto.
Qed.
End simulation.

(** ** The gadget refines the text *)

(** The gadget with a buffer after the text [t]: the buffer [b0] of which [n]
    bytes may be written holds as much of the text as fits. *)
Definition buffer_at (b0 : list Z) (n : nat) (g : output_gadget_t) (t : list Z) : Prop :=
  g = mk_gadget false [] (Some (written b0 n t)) (Z.of_nat (length t)) (Z.of_nat n) /\
  Z.of_nat (length t) < 2 ^ 32.

(** The gadget without a buffer, and the gadget with a function. *)
Definition discard_at (g : output_gadget_t) (t : list Z) : Prop :=
  g = mk_gadget false [] None (Z.of_nat (length t)) 0 /\ Z.of_nat (length t) < 2 ^ 32.

Definition function_at (g : output_gadget_t) (t : list Z) : Prop :=
  g = mk_gadget true (take (Z.to_nat PRINTF_MAX_POSSIBLE_BUFFER_SIZE) t) None
        (Z.of_nat (length t)) PRINTF_MAX_POSSIBLE_BUFFER_SIZE /\
  Z.of_nat (length t) < 2 ^ 32.

Lemma text_put t c t' : putchar_via t c = Ok t' -> t' = t ++ [c] /\ Z.of_nat (length t) + 1 < 2 ^ 32.
Proof. cbn. case_decide; naive_solver. Qed.

Lemma length_snoc {A} (t : list A) c : Z.of_nat (length (t ++ [c])) = Z.of_nat (length t) + 1.
Proof. rewrite length_app. simpl. lia. Qed.

Lemma buffer_put b0 n : (n <= length b0)%nat -> Z.of_nat n < 2 ^ 32 ->
  forall g t c, buffer_at b0 n g t -> refines (buffer_at b0 n) (putchar_via g c) (putchar_via t c).
Proof.
  intros Hn H32 g t c [-> Ht] t' [-> Hl]%text_put. cbn [putchar_via gadget_sink].
  unfold putchar_via_gadget. cbn [g_pos g_function g_sent g_buffer g_max_chars].
  rewrite (wrapu_small 32) by lia. unfold buffer_at. rewrite length_snoc. case_decide as Hc.
  - eexists. split; [done|]. split; [|lia]. by rewrite written_full by lia.
  - rewrite Nat2Z.id, written_put by lia. cbn [bind]. eexists. split; [done|]. split; [done|lia].
Qed.

Lemma discard_put g t c : discard_at g t -> refines discard_at (putchar_via g c) (putchar_via t c).
Proof.
  intros [-> Ht] t' [-> Hl]%text_put. cbn [putchar_via gadget_sink].
  unfold putchar_via_gadget, discard_at. cbn [g_pos g_function g_sent g_buffer g_max_chars].
  rewrite decide_True by lia. rewrite (wrapu_small 32), length_snoc by lia.
  eexists. split; [done|]. split; [done|lia].
Qed.

Lemma function_put g t c : function_at g t -> refines function_at (putchar_via g c) (putchar_via t c).
Proof.
  intros [-> Ht] t' [-> Hl]%text_put. cbn [putchar_via gadget_sink].
  unfold putchar_via_gadget, function_at. cbn [g_pos g_function g_sent g_buffer g_max_chars].
  rewrite (wrapu_small 32), length_snoc by lia.
  assert (0 <= PRINTF_MAX_POSSIBLE_BUFFER_SIZE) by done. case_decide as Hc; eexists;
    (split; [done|]); (split; [|lia]); f_equal.
  - by rewrite take_app_le by lia.
  - rewrite !take_ge by (rewrite ?length_app; simpl; lia). done.
Qed.

Lemma buffer_finish b0 n g t : (n <= length b0)%nat -> Z.of_nat n < 2 ^ 32 -> buffer_at b0 n g t ->
  append_termination_with_gadget g
    = Ok (mk_gadget false [] (Some (final_output b0 n t)) (Z.of_nat (length t)) (Z.of_nat n)).
Proof.
  intros Hn H32 [-> Ht]. unfold append_termination_with_gadget, final_output.
  cbn [g_pos g_function g_sent g_buffer g_max_chars orb].
  destruct (decide (n = 0%nat)) as [->|Hne].
  { by rewrite bool_decide_eq_true_2, written_0 by done. }
  rewrite bool_decide_eq_false_2 by lia.
  replace (Z.to_nat _) with (length t `min` (n - 1))%nat.
  2:{ case_decide; [|rewrite wrapu_small by lia]; lia. }
  by rewrite terminate_written by lia.
Qed.

(** ** Text of numbers *)

(** What [out_rev_] writes: the characters in reverse, padded to the width on
    one side, or not at all when zero padding was asked for. *)
Definition rev_text (cs : list Z) (width flags : Z) : list Z :=
  let pad := replicate (Z.to_nat (width - Z.of_nat (length cs))) ch_space in
  if has flags FLAGS_LEFT then reverse cs ++ pad
  else if has flags FLAGS_ZEROPAD then reverse cs
  else pad ++ reverse cs.

Lemma text_put_Ok (t : list Z) c : Z.of_nat (length t) + 1 < 2 ^ 32 -> putchar_via t c = Ok (t ++ [c]).
Proof. intros. cbn. by rewrite decide_True. Qed.

Lemma put_n_text n : forall (t : list Z) c, Z.of_nat (length t + n) < 2 ^ 32 ->
  put_n t c n = Ok (t ++ replicate n c).
Proof.
  induction n as [|n IH]; intros t c Hl; cbn [put_n replicate]; [by rewrite app_nil_r|].
  rewrite text_put_Ok by lia. cbn [bind]. rewrite IH by (rewrite length_app; simpl; lia).
  by rewrite <- app_assoc.
Qed.

Lemma put_rev_text buf len : (len <= length buf)%nat -> forall t : list Z,
  Z.of_nat (length t + len) < 2 ^ 32 -> put_rev t buf len = Ok (t ++ reverse (take len buf)).
Proof.
  induction len as [|len IH]; intros Hb t Hl; cbn [put_rev]; [by rewrite app_nil_r|].
  destruct (lookup_lt_is_Some_2 buf len) as [c Hc]; [lia|].
  rewrite (proj2 (aget_Ok _ _ _) Hc). cbn [bind]. rewrite text_put_Ok by lia. cbn [bind].
  rewrite IH by (rewrite ?length_app; simpl; lia). rewrite (take_S_r _ _ _ Hc), reverse_snoc.
  by rewrite <- app_assoc.
Qed.

Lemma pad_to_text fuel : forall (t : list Z) (st : nat) w,
  (st <= length t)%nat -> 0 <= w -> Z.of_nat st + w < 2 ^ 32 -> Z.of_nat (length t) < 2 ^ 32 ->
  Z.to_nat (w - Z.of_nat (length t - st)) = fuel ->
  forall f', (fuel <= f')%nat ->
  pad_to t (Z.of_nat st) w f' = Ok (t ++ replicate fuel ch_space).
Proof.
  induction fuel as [|fuel IH]; intros t st w Hst Hw Hb Ht Hf f' Hle.
  - destruct f'; cbn [pad_to sink_pos text_sink]; rewrite wrapu_small by lia;
      rewrite decide_False by lia; by rewrite app_nil_r.
  - destruct f' as [|f']; [lia|]. cbn [pad_to sink_pos text_sink]. rewrite wrapu_small by lia.
    rewrite decide_True by lia. rewrite text_put_Ok by lia. cbn [bind replicate].
    rewrite (IH (t ++ [ch_space])) by (rewrite ?length_app; simpl; lia). by rewrite <- app_assoc.
Qed.

Lemma out_rev_text (t buf : list Z) len w fl : (len <= length buf)%nat -> 0 <= w ->
  Z.of_nat (length t) + Z.max (Z.of_nat len) w < 2 ^ 32 ->
  out_rev_ t buf len w fl = Ok (t ++ rev_text (take len buf) w fl).
Proof.
  intros Hlen Hw Hb. unfold out_rev_, rev_text. rewrite length_take, Nat.min_l by lia.
  cbv zeta. destruct (has fl FLAGS_LEFT); cbn [negb andb].
  - cbn [bind]. rewrite put_rev_text by lia. cbn [bind sink_pos text_sink].
    rewrite (pad_to_text (Z.to_nat (w - Z.of_nat len)));
      rewrite ?length_app, ?length_reverse, ?length_take; try lia. by rewrite <- app_assoc.
  - destruct (has fl FLAGS_ZEROPAD); cbn [negb bind].
    + by rewrite put_rev_text by lia.
    + rewrite put_n_text by lia. cbn [bind]. rewrite put_rev_text; [|done|].
      * by rewrite <- app_assoc.
      * rewrite length_app, length_replicate. lia.
Qed.

(** *** Digits *)

(** The number that digits, least first, denote. *)
Fixpoint eval (base : Z) (ds : list Z) : Z :=
  match ds with
  | [] => 0
  | d :: ds' => d + base * eval base ds'
  end.

(** Buffers: the first [len] bytes are [cs]. *)
Definition holds (s : list Z * nat) (cs : list Z) : Prop :=
  length s.1 = PRINTF_INTEGER_BUFFER_SIZE /\ s.2 = length cs /\ take s.2 s.1 = cs.

Lemma push_holds s cs c : holds s cs -> (length cs < PRINTF_INTEGER_BUFFER_SIZE)%nat ->
  exists s', push s c = Ok s' /\ holds s' (cs ++ [c]).
Proof.
  destruct s as [buf len]. intros (Hl & Hlen & Ht) Hlt. cbn [fst snd] in *.
  unfold push. rewrite aset_Ok by lia. cbn [bind]. eexists. split; [done|].
  split_and!; cbn [fst snd]; [by rewrite length_insert|rewrite length_app; simpl; lia|].
  rewrite (take_S_r _ _ c) by (apply list_lookup_insert_eq; lia).
  by rewrite take_insert_ge, Ht by lia.
Qed.

Lemma digits_loop_spec base flags : 2 <= base -> forall fuel s cs value,
  holds s cs -> 0 < value -> (length cs + fuel = PRINTF_INTEGER_BUFFER_SIZE)%nat -> (0 < fuel)%nat ->
  exists s' ds,
    digits_loop value base flags s fuel = Ok s' /\
    holds s' (cs ++ map (fun d => digit_char d flags) ds) /\
    Forall (fun d => 0 <= d < base) ds /\
    eval base ds = value mod base ^ Z.of_nat fuel /\
    (value < base ^ Z.of_nat fuel -> exists ds' d, ds = ds' ++ [d] /\ 0 < d).
Proof.
  intros Hbase. induction fuel as [|fuel IH]; intros s cs value Hs Hv Hf Hpos; [lia|].
  cbn [digits_loop]. destruct (push_holds s cs (digit_char (value mod base) flags) Hs) as (s1 & -> & Hs1).
  { lia. }
  cbn [bind]. pose proof (Z.mod_pos_bound value base ltac:(lia)) as Hd.
  pose proof (Z.div_mod value base ltac:(lia)) as Edm.
  assert (0 < base ^ Z.of_nat fuel) by (apply Z.pow_pos_nonneg; lia).
  assert (value mod base ^ Z.of_nat (S fuel)
    = value mod base + base * ((value / base) mod base ^ Z.of_nat fuel)) as Emod.
  { rewrite Nat2Z.inj_succ, Z.pow_succ_r by lia. apply Z.rem_mul_r; lia. }
  assert (s1.2 = S (length cs)) as Hlen1.
  { destruct Hs1 as (_ & -> & _). rewrite length_app. simpl. lia. }
  assert (0 <= value / base) by (apply Z.div_pos; lia).
  case_decide as Hc.
  - destruct (IH s1 (cs ++ [digit_char (value mod base) flags]) (value / base) Hs1)
      as (s' & ds & -> & Hh & Hall & He & Hlast);
      [lia|rewrite length_app; simpl; lia|unfold PRINTF_INTEGER_BUFFER_SIZE in *; lia|].
    exists s', (value mod base :: ds). split_and!; [done| |by constructor| |].
    + rewrite <- app_assoc in Hh. exact Hh.
    + cbn [eval]. by rewrite He, Emod.
    + rewrite Nat2Z.inj_succ, Z.pow_succ_r by lia. intros Hlt.
      destruct Hlast as (ds' & d & -> & Hdp); [by apply Z.div_lt_upper_bound; lia|].
      by exists (value mod base :: ds'), d.
  - exists s1, [value mod base]. split_and!; [done|done|by apply Forall_singleton| |].
    + cbn [eval]. rewrite Emod. apply not_and_l in Hc as [Hc|Hc].
      * assert (value / base = 0) as -> by lia. rewrite Zmod_0_l. lia.
      * assert (fuel = 0%nat) as -> by (unfold PRINTF_INTEGER_BUFFER_SIZE in *; lia).
        rewrite Z.mod_1_r. lia.
    + intros Hlt. exists [], (value mod base). split; [done|].
      apply not_and_l in Hc as [Hc|Hc].
      * assert (value / base = 0) by lia. lia.
      * assert (fuel = 0%nat) as -> by (unfold PRINTF_INTEGER_BUFFER_SIZE in *; lia).
        change (Z.of_nat 1) with 1 in Hlt. rewrite Z.pow_1_r in Hlt. rewrite Z.mod_small by lia. lia.
Qed.

(** The digits of a value, as characters, most significant first; "0" for 0. *)
Definition numeral (base flags value : Z) (cs : list Z) : Prop :=
  exists ds, cs = reverse (map (fun d => digit_char d flags) ds) /\
    Forall (fun d => 0 <= d < base) ds /\ eval base ds = value /\
    ((value = 0 /\ ds = [0]) \/ exists ds' d, ds = ds' ++ [d] /\ 0 < d).

Definition sign_text (negative : bool) (flags : Z) : list Z :=
  if negative then [ch_minus]
  else if has flags FLAGS_PLUS then [ch_plus]
  else if has flags FLAGS_SPACE then [ch_space]
  else [].

(** The flags that change the digits. *)
Definition plain (flags : Z) : Prop :=
  has flags FLAGS_ZEROPAD = false /\ has flags FLAGS_HASH = false /\
  has flags FLAGS_POINTER = false /\ has flags FLAGS_PRECISION = false.

Lemma has_add flags a b : has flags (add a b) = has flags a || has flags b.
Proof.
  unfold has, add. rewrite Z.land_lor_distr_r.
  destruct (Z.eqb_spec (Z.land flags a) 0) as [E|E]; [by rewrite E, Z.lor_0_l|].
  cbn [negb orb]. destruct (Z.eqb_spec (Z.lor (Z.land flags a) (Z.land flags b)) 0) as [E'|]; [|done].
  by apply Z.lor_eq_0_iff in E' as [? _].
Qed.

Lemma drp_same flags m : has flags m = false -> drp flags m = flags.
Proof.
  unfold has, drp. rewrite negb_false_iff, Z.eqb_eq. intros E.
  apply Z.bits_inj'. intros n Hn. rewrite Z.ldiff_spec.
  pose proof (f_equal (fun z => Z.testbit z n) E) as Eb. cbn beta in Eb.
  rewrite Z.land_spec, Z.bits_0 in Eb. by destruct (Z.testbit flags n), (Z.testbit m n).
Qed.

Lemma finalization_plain buf len cs negative base width flags :
  holds (buf, len) cs -> plain flags -> (length cs < PRINTF_INTEGER_BUFFER_SIZE)%nat ->
  exists s, finalization_buffer buf len negative base 0 width flags = Ok (s.1, s.2, width, flags) /\
    holds s (cs ++ sign_text negative flags).
Proof.
  intros Hh (Hz & Hx & Hp & Hr) Hlt. unfold finalization_buffer.
  cbv zeta. rewrite Hz, andb_false_r. cbn [andb bind].
  set (s0 := if has flags FLAGS_LEFT then _ else _).
  assert (s0 = Ok (buf, len, width)) as -> by (subst s0; by destruct (has flags FLAGS_LEFT)).
  cbn [bind]. unfold PRINTF_INTEGER_BUFFER_SIZE at 1 2. cbn [fill_zeros].
  rewrite decide_False by (cbn [snd]; lia). cbn [bind snd].
  rewrite decide_False by lia. rewrite has_add, Hx, Hp. cbn [orb bind]. unfold push_sign.
  assert (len = length cs) as Elen by (by destruct Hh as (_ & ? & _)).
  rewrite decide_True by (cbn [snd]; lia). unfold sign_text.
  assert (forall c, exists s, (let* '(b, l) := push (buf, len) c in Ok (b, l, width, flags))
    = Ok (s.1, s.2, width, flags) /\ holds s (cs ++ [c])) as Hpush.
  { intros c. destruct (push_holds _ _ c Hh Hlt) as ([b l] & E & Hs). exists (b, l). by rewrite E. }
  destruct negative; [apply Hpush|]. destruct (has flags FLAGS_PLUS); [apply Hpush|].
  destruct (has flags FLAGS_SPACE); [apply Hpush|]. exists (buf, len). by rewrite app_nil_r.
Qed.

Lemma digit_count base value ds : 2 <= base -> Forall (fun d => 0 <= d < base) ds -> 0 <= value ->
  eval base ds = value -> (exists ds' d, ds = ds' ++ [d] /\ 0 < d) ->
  base ^ (Z.of_nat (length ds) - 1) <= value.
Proof.
  intros Hb Hall Hv <- (ds' & d & -> & Hd). apply Forall_app in Hall as [Hall _]. clear Hv.
  rewrite length_app. cbn [length]. replace (Z.of_nat (length ds' + 1) - 1) with (Z.of_nat (length ds')) by lia.
  induction Hall as [|x ds' Hx _ IH]; cbn [length app eval]; [simpl; lia|].
  rewrite Nat2Z.inj_succ, Z.pow_succ_r by lia. nia.
Qed.

(** Printing an integer with plain flags writes its sign and its numeral,
    padded to the width. *)
Lemma print_integer_text junk (t : list Z) value negative base width flags :
  length junk = PRINTF_INTEGER_BUFFER_SIZE -> 8 <= base <= 16 -> 0 <= value < 2 ^ 64 ->
  plain flags -> 0 <= width -> Z.of_nat (length t) + Z.max 32 width < 2 ^ 32 ->
  exists cs, numeral base flags value cs /\
    print_integer junk t value negative base 0 width flags
      = Ok (t ++ rev_text (reverse cs ++ sign_text negative flags) width flags).
Proof.
  intros Hj Hb Hv Hp Hw Hl. unfold print_integer, print_integer_finalization.
  assert (holds (junk, 0%nat) []) as H0 by done.
  assert (exists buf len cs,
    (if decide (value = 0) then
       if negb (has flags FLAGS_PRECISION) then
         let* '(buf, len) := push (junk, O) ch_0 in Ok (buf, len, drp flags FLAGS_HASH)
       else if decide (base = BASE_HEX) then Ok (junk, O, drp flags FLAGS_HASH) else Ok (junk, O, flags)
     else let* '(buf, len) := digits_loop value base flags (junk, O) PRINTF_INTEGER_BUFFER_SIZE in
          Ok (buf, len, flags)) = Ok (buf, len, flags) /\
    holds (buf, len) (reverse cs) /\ numeral base flags value cs /\
    (length cs < PRINTF_INTEGER_BUFFER_SIZE)%nat) as (buf & len & cs & -> & Hh & Hn & Hlt).
  { destruct Hp as (_ & Hx & _ & Hr). destruct (decide (value = 0)) as [->|Hne].
    - rewrite Hr. cbn [negb]. destruct (push_holds _ _ ch_0 H0) as ([buf len] & -> & Hh).
      { unfold PRINTF_INTEGER_BUFFER_SIZE. simpl. lia. }
      cbn [bind]. rewrite drp_same by done. exists buf, len, [ch_0]. split_and!; try done.
      + exists [0]. split_and!; [done|apply Forall_singleton; lia|cbn [eval]; lia|by left].
      + unfold PRINTF_INTEGER_BUFFER_SIZE. simpl. lia.
    - destruct (digits_loop_spec base flags ltac:(lia) PRINTF_INTEGER_BUFFER_SIZE (junk, 0%nat) [] value H0)
        as ([buf len] & ds & -> & Hh & Hall & He & Hlast);
        [lia|done|unfold PRINTF_INTEGER_BUFFER_SIZE; lia|].
      cbn [bind app] in *.
      assert (value < base ^ Z.of_nat PRINTF_INTEGER_BUFFER_SIZE) as Hbig.
      { apply Z.lt_le_trans with (8 ^ 32); [lia|]. apply (Z.pow_le_mono_l 8 base 32). lia. }
      specialize (Hlast Hbig). rewrite Z.mod_small in He by lia.
      exists buf, len, (reverse (map (fun d => digit_char d flags) ds)). split_and!; [done| | |].
      + by rewrite reverse_involutive.
      + exists ds. split_and!; [done..|by right].
      + rewrite length_reverse, length_map.
        pose proof (digit_count base value ds ltac:(lia) Hall ltac:(lia) He Hlast) as Hc.
        destruct (decide (length ds < PRINTF_INTEGER_BUFFER_SIZE)%nat); [done|].
        assert (8 ^ 31 <= base ^ 31) by (apply Z.pow_le_mono_l; lia).
        assert (base ^ 31 <= base ^ (Z.of_nat (length ds) - 1)).
        { apply Z.pow_le_mono_r; [lia|]. unfold PRINTF_INTEGER_BUFFER_SIZE in *. lia. }
        lia. }
  cbn [bind]. exists cs. split; [done|].
  destruct (finalization_plain buf len (reverse cs) negative base width flags Hh Hp)
    as ([b l] & -> & Hs & Hll & Ht); [by rewrite length_reverse|].
  cbn [bind fst snd] in *. assert (l <= 32)%nat.
  { rewrite Hll, length_app, length_reverse. unfold sign_text, PRINTF_INTEGER_BUFFER_SIZE in *.
    repeat case_match; simpl; lia. }
  rewrite out_rev_text; [by rewrite Ht|unfold PRINTF_INTEGER_BUFFER_SIZE in *; lia|lia|lia].
Qed.

(** ** Parsing a numeral back *)

Lemma atou_loop_spec s : forall cs i acc fuel rest,
  drop i s = cs ++ rest -> Forall (fun c => is_digit_ c = true) cs ->
  (i <= length s)%nat -> match rest with c :: _ => is_digit_ c = false | [] => True end ->
  (length cs < fuel)%nat ->
  atou_loop s i acc fuel
    = Ok (foldl (fun a c => u32 (u32 (a * 10) + (c - ch_0))) acc cs, (i + length cs)%nat).
Proof.
  induction cs as [|c cs IH]; intros i acc fuel rest Hd Hall Hi Hrest Hf;
    (destruct fuel as [|fuel]; [simpl in Hf; lia|]); cbn [atou_loop].
  - cbn [app] in Hd. rewrite Nat.add_0_r. destruct rest as [|c rest].
    + rewrite (cget_nil s i) by done. done.
    + rewrite (cget_drop s i c rest) by done. cbn [bind]. by rewrite Hrest.
  - apply Forall_cons in Hall as [Hc Hall]. cbn [app] in Hd. rewrite (cget_drop _ _ _ _ Hd). cbn [bind].
    rewrite Hc. destruct (drop_cons_lookup _ _ _ _ Hd) as [Hlt Hd'].
    rewrite (IH (S i) _ fuel rest) by (done || simpl in Hf; lia). cbn [foldl length].
    by rewrite Nat.add_succ_r.
Qed.

Lemma atou_eval fl ds : Forall (fun d => 0 <= d < 10) ds -> eval 10 ds < 2 ^ 32 ->
  foldl (fun a c => u32 (u32 (a * 10) + (c - ch_0))) 0 (reverse (map (fun d => digit_char d fl) ds))
    = eval 10 ds /\ 0 <= eval 10 ds.
Proof.
  induction 1 as [|d ds Hd Hall IH]; intros Hlt; [done|]. cbn [map eval] in *.
  assert (0 <= eval 10 ds) as Hnn.
  { clear -Hall. induction Hall; cbn [eval]; lia. }
  destruct (IH ltac:(lia)) as [E _]. rewrite reverse_cons, foldl_snoc, E. split; [|lia].
  unfold digit_char. rewrite decide_True by lia. rewrite !wrapu_small by (rewrite ?wrapu_small; lia). lia.
Qed.

Lemma numeral_digits fl value cs : numeral 10 fl value cs -> Forall (fun c => is_digit_ c = true) cs.
Proof.
  intros (ds & -> & Hall & _). apply Forall_reverse. induction Hall as [|d ds Hd _ IH]; [done|].
  constructor; [|done]. unfold digit_char, is_digit_. rewrite decide_True, wrapu_small by lia.
  apply bool_decide_eq_true. lia.
Qed.

(** ** The buffer after formatting *)

Lemma vsnprintf_buffer junk buffer (n : nat) format args t wb :
  format_text junk format args = Ok (t, wb) ->
  (n <= length buffer)%nat ->
  let m := Z.min (Z.of_nat n) PRINTF_MAX_POSSIBLE_BUFFER_SIZE in
  vsnprintf_ junk (Some buffer) (Z.of_nat n) format args
    = Ok (mk_gadget false [] (Some (final_output buffer (Z.to_nat m) t)) (Z.of_nat (length t)) m,
          wb, s32 (Z.of_nat (length t))).
Proof.
  intros Ht Hn m.
  assert (buffer_gadget (Some buffer) (Z.of_nat n)
          = mk_gadget false [] (Some buffer) 0 (Z.of_nat (Z.to_nat m))) as Eg.
  { unfold buffer_gadget. subst m. unfold PRINTF_MAX_POSSIBLE_BUFFER_SIZE.
    case_decide; rewrite ?wrapu_small by lia; f_equal; lia. }
  unfold vsnprintf_, _vsnprintf. rewrite Eg.
  assert (Z.to_nat m <= length buffer)%nat as Hm by lia.
  assert (Z.of_nat (Z.to_nat m) < 2 ^ 32) as H32 by (unfold PRINTF_MAX_POSSIBLE_BUFFER_SIZE in *; lia).
  destruct (format_loop_refines (buffer_at buffer (Z.to_nat m)) (buffer_put _ _ Hm H32)
    ltac:(intros g t' [-> _]; done) junk format (S (length format))
    (mk_gadget false [] (Some buffer) 0 (Z.of_nat (Z.to_nat m))) [] 0%nat args []
    ltac:(split; [by rewrite written_nil|done]) _ Ht) as ([g wb'] & -> & HR & Ew).
  cbn [fst snd] in *. subst wb'. cbn [bind]. rewrite (buffer_finish _ _ _ _ Hm H32 HR). cbn [bind].
  by rewrite Z2Nat.id by (unfold PRINTF_MAX_POSSIBLE_BUFFER_SIZE in *; lia).
Qed.

(** ** One integer directive *)

(** The text of [v] in decimal in a field of [w] characters; a negative width
    pads on the right. *)
Definition field (w : Z) (body : list Z) : list Z :=
  let pad := replicate (Z.to_nat (Z.abs w - Z.of_nat (length body))) ch_space in
  if decide (w < 0) then body ++ pad else pad ++ body.

Lemma field_rev_text w body fl :
  has fl FLAGS_ZEROPAD = false -> has fl FLAGS_LEFT = bool_decide (w < 0) ->
  rev_text (reverse body) (Z.abs w) fl = field w body.
Proof.
  intros Hz Hl. unfold rev_text, field. rewrite Hz, Hl, reverse_involutive, length_reverse.
  case_bool_decide; case_decide; done.
Qed.

(** One directive of the format loop. *)
Lemma format_loop_directive junk (g : list Z) format i args wb f
    fl1 i1 w fl2 i2 args2 p fl3 i3 args3 fl4 i4 c :
  cget format i = Ok ch_percent -> parse_flags format (S i) = Ok (fl1, i1) ->
  parse_width format i1 fl1 args = Ok (w, fl2, i2, args2) ->
  parse_precision format i2 fl2 args2 = Ok (p, fl3, i3, args3) ->
  parse_length format i3 fl3 = Ok (fl4, i4) -> cget format i4 = Ok c ->
  format_loop junk g format i args wb (S f)
    = let* '(g, args, wb) := print_specifier junk g c fl4 w p args3 wb in
      format_loop junk g format (S i4) args wb f.
Proof.
  intros E0 E1 E2 E3 E4 E5. cbn [format_loop]. rewrite E0. cbn [bind].
  rewrite decide_False, decide_True by done. rewrite E1. cbn [bind]. rewrite E2. cbn [bind].
  rewrite E3. cbn [bind]. rewrite E4. cbn [bind]. by rewrite E5.
Qed.

Lemma format_loop_end junk (g : list Z) format i args wb f : cget format i = Ok 0 ->
  format_loop junk g format i args wb (S f) = Ok (g, wb).
Proof. intros E. cbn [format_loop]. by rewrite E. Qed.

Lemma parse_star format i fl w args : cget format i = Ok 42 -> - 2 ^ 31 < w < 2 ^ 31 ->
  parse_width format i fl (AInt w :: args)
    = Ok (Z.abs w, if decide (w < 0) then add fl FLAGS_LEFT else fl, S i, args).
Proof.
  intros E Hw. unfold parse_width. rewrite E. cbn [bind]. change (is_digit_ 42) with false. cbn [va_int bind].
  rewrite decide_True by done. rewrite (wraps_small 32 w) by lia.
  case_decide; [unfold fit; rewrite decide_True by lia; cbn [bind]|];
    rewrite wrapu_small by lia; repeat f_equal; lia.
Qed.

Lemma format_star_ld junk w v : length junk = PRINTF_INTEGER_BUFFER_SIZE ->
  - 2 ^ 31 < w < 2 ^ 31 -> - 2 ^ 63 < v < 2 ^ 63 ->
  exists fl cs, numeral 10 fl (Z.abs v) cs /\
    format_text junk (bytes_of "%*ld") [AInt w; ALong v]
      = Ok (field w ((if decide (v < 0) then [ch_minus] else []) ++ cs), []).
Proof.
  intros Hj Hw Hv.
  set (fl := if decide (w < 0) then 16898 else 16896).
  assert (plain fl /\ has fl FLAGS_LEFT = bool_decide (w < 0)) as [Hp Hleft].
  { subst fl. case_decide; [rewrite bool_decide_eq_true_2 by done|rewrite bool_decide_eq_false_2 by done];
      by split_and!. }
  destruct (print_integer_text junk [] (Z.abs v) (bool_decide (v < 0)) 10 (Z.abs w) fl)
    as (cs & Hn & Hprint); try done; try lia.
  { cbn [length]. lia. }
  exists fl, cs. split; [done|].
  unfold format_text. change (length (bytes_of "%*ld")) with 4%nat.
  set (fl2 := if decide (w < 0) then FLAGS_LEFT else 0).
  rewrite (format_loop_directive junk [] (bytes_of "%*ld") 0 _ [] 4 0 1 (Z.abs w) fl2 2 [ALong v]
    0 fl2 2 [ALong v] (add fl2 FLAGS_LONG) 3 100);
    [|reflexivity|reflexivity|by apply (parse_star _ 1 0)|reflexivity|reflexivity|reflexivity].
  unfold print_specifier. rewrite decide_True by tauto. unfold print_integer_specifier.
  assert (integer_base 100 (add fl2 FLAGS_LONG) = (10, fl)) as ->
    by (subst fl2 fl; by case_decide).
  assert (has fl FLAGS_SIGNED = true /\ has fl FLAGS_LONG = true) as [-> ->]
    by (subst fl; by case_decide).
  rewrite orb_true_r. cbn [va_long bind]. rewrite (wraps_small 64 v) by lia.
  assert (ABS_FOR_PRINTING v = Ok (Z.abs v)) as ->.
  { unfold ABS_FOR_PRINTING, fit. repeat case_decide; try lia; f_equal; lia. }
  cbn [bind]. rewrite Hprint. cbn [bind app]. rewrite format_loop_end by reflexivity.
  do 2 f_equal. rewrite <- (field_rev_text w _ fl) by (done || apply Hp). f_equal.
  rewrite reverse_app. f_equal. unfold sign_text.
  assert (has fl FLAGS_PLUS = false /\ has fl FLAGS_SPACE = false) as [-> ->]
    by (subst fl; by case_decide).
  by destruct (decide (v < 0)); [rewrite bool_decide_eq_true_2|rewrite bool_decide_eq_false_2].
Qed.

Lemma format_u junk v : length junk = PRINTF_INTEGER_BUFFER_SIZE -> 0 <= v < 2 ^ 32 ->
  exists cs, numeral 10 0 v cs /\ format_text junk (bytes_of "%u") [AInt v] = Ok (cs, []).
Proof.
  intros Hj Hv. destruct (print_integer_text junk [] v false 10 0 0) as (cs & Hn & Hprint);
    try done; try lia. exists cs. split; [done|].
  unfold format_text. change (length (bytes_of "%u")) with 2%nat.
  rewrite (format_loop_directive junk [] (bytes_of "%u") 0 _ [] 2 0 1 0 0 1 [AInt v]
    0 0 1 [AInt v] 0 1 117) by reflexivity.
  unfold print_specifier. rewrite decide_True by tauto. unfold print_integer_specifier.
  change (integer_base 117 0) with (10, 0). cbn [bind va_int].
  change (has 0 FLAGS_SIGNED) with false.
  change (drp 0 (add FLAGS_PLUS FLAGS_SPACE)) with 0.
  change (has 0 FLAGS_LONG_LONG || has 0 FLAGS_LONG) with false.
  change (has 0 FLAGS_CHAR) with false. change (has 0 FLAGS_SHORT) with false.
  cbv iota. cbn [bind]. rewrite wrapu_small by lia. rewrite Hprint. cbn [bind].
  rewrite format_loop_end by reflexivity. cbn [app]. unfold rev_text, sign_text.
  change (has 0 FLAGS_PLUS) with false. change (has 0 FLAGS_SPACE) with false.
  change (has 0 FLAGS_LEFT) with false. change (has 0 FLAGS_ZEROPAD) with false. cbv iota.
  rewrite app_nil_r, reverse_involutive, length_reverse.
  replace (Z.to_nat (0 - Z.of_nat (length cs))) with 0%nat by lia. done.
Qed.

(** A format without directives. *)
Lemma format_literal junk format fuel : forall (t : list Z) i,
  Forall (fun c => c <> 0 /\ c <> ch_percent) (drop i format) -> (i <= length format)%nat ->
  Z.of_nat (length t + length (drop i format)) < 2 ^ 32 -> (length (drop i format) < fuel)%nat ->
  format_loop junk t format i [] [] fuel = Ok (t ++ drop i format, []).
Proof.
  induction fuel as [|fuel IH]; intros t i Hall Hi Hl Hf; [lia|]. cbn [format_loop].
  destruct (drop i format) as [|c rest] eqn:Ed.
  { rewrite (cget_nil format i) by done. cbn. by rewrite app_nil_r. }
  rewrite (cget_drop _ _ _ _ Ed). cbn [bind]. apply Forall_cons in Hall as [[Hc Hp] Hall].
  rewrite !decide_False by done. cbn [length] in Hl, Hf. rewrite text_put_Ok by lia. cbn [bind].
  destruct (drop_cons_lookup _ _ _ _ Ed) as [Hlt Ed'].
  rewrite IH; rewrite ?Ed'; [|done|lia|rewrite length_app; simpl; lia|lia].
  by rewrite <- app_assoc.
Qed.

(** ** Properties *)


(** C18 Formatting into a buffer refines the reference text: when the text of
    the format and its arguments is defined, then for every buffer and every
    size not above the buffer's (or above the code's limit), [vsnprintf_]
    writes exactly the part of the text that fits before the terminator,
    touches nothing else, and returns the length of the whole text. *)
Theorem vsnprintf_refines junk buffer (n : nat) format args t wb :
  format_text junk format args = Ok (t, wb) ->
  (n <= length buffer)%nat ->
  let m := Z.min (Z.of_nat n) PRINTF_MAX_POSSIBLE_BUFFER_SIZE in
  vsnprintf_ junk (Some buffer) (Z.of_nat n) format args
    = Ok (mk_gadget false [] (Some (final_output buffer (Z.to_nat m) t)) (Z.of_nat (length t)) m,
          wb, s32 (Z.of_nat (length t))).
Proof. exact (vsnprintf_buffer junk buffer n format args t wb). Qed.

Lemma vsnprintf_refines_witness :
  format_text (replicate 32 0) (bytes_of "%d!") [AInt 42] = Ok (bytes_of "42!", []) /\
  vsnprintf_ (replicate 32 0) (Some (replicate 3 7)) (Z.of_nat 3) (bytes_of "%d!") [AInt 42]
    = Ok (mk_gadget false [] (Some (final_output (replicate 3 7) 3 (bytes_of "42!"))) 3 3, [], 3).
Proof.
  split; [vm_compute; reflexivity|].
  apply (vsnprintf_refines (replicate 32 0) (replicate 3 7) 3 (bytes_of "%d!") [AInt 42] (bytes_of "42!") []);
    [vm_compute; reflexivity|simpl; lia].
Defined.

(** Without a buffer nothing is written and the result is the length the
    text would have; with an output function, the function receives the
    characters of the text in order, up to the code's limit. *)
Theorem vprintf_refines junk n format args t wb :
  format_text junk format args = Ok (t, wb) ->
  vsnprintf_ junk None n format args
    = Ok (mk_gadget false [] None (Z.of_nat (length t)) 0, wb, s32 (Z.of_nat (length t))) /\
  vprintf_ junk format args
    = Ok (mk_gadget true (take (Z.to_nat PRINTF_MAX_POSSIBLE_BUFFER_SIZE) t) None
            (Z.of_nat (length t)) PRINTF_MAX_POSSIBLE_BUFFER_SIZE,
          wb, s32 (Z.of_nat (length t))).
Proof.
  intros Ht. unfold vsnprintf_, vprintf_, _vsnprintf. split.
  - change (buffer_gadget None n) with discarding_gadget.
    destruct (format_loop_refines discard_at discard_put ltac:(intros g t' [-> _]; done)
      junk format (S (length format)) discarding_gadget [] 0%nat args [] ltac:(done) _ Ht)
      as ([g wb'] & -> & [E _] & Ew). cbn [fst snd] in *. by subst.
  - destruct (format_loop_refines function_at function_put ltac:(intros g t' [-> _]; done)
      junk format (S (length format)) extern_putchar_gadget [] 0%nat args []
      ltac:(split; [by rewrite take_nil|done]) _ Ht)
      as ([g wb'] & -> & [E _] & Ew). cbn [fst snd] in *. by subst.
Qed.

Lemma vprintf_refines_witness :
  vsnprintf_ (replicate 32 0) None 0 (bytes_of "a%c") [AInt 98]
    = Ok (mk_gadget false [] None 2 0, [], 2) /\
  vprintf_ (replicate 32 0) (bytes_of "a%c") [AInt 98]
    = Ok (mk_gadget true (take (Z.to_nat PRINTF_MAX_POSSIBLE_BUFFER_SIZE) (bytes_of "ab")) None 2
            PRINTF_MAX_POSSIBLE_BUFFER_SIZE, [], 2).
Proof.
  apply (vprintf_refines (replicate 32 0) 0 (bytes_of "a%c") [AInt 98] (bytes_of "ab") []).
  vm_compute. reflexivity.
Defined.

(** Decimal output is right: for every value of long but the least, and
    every field width of either sign, "%*ld" writes into any buffer the field
    that holds the minus sign of a negative value and the decimal numeral of
    its absolute value, without leading zeros and padded with spaces, and
    returns the length of the field. *)
Theorem snprintf_decimal junk w v : length junk = PRINTF_INTEGER_BUFFER_SIZE ->
  - 2 ^ 31 < w < 2 ^ 31 -> - 2 ^ 63 < v < 2 ^ 63 ->
  exists flags cs, numeral 10 flags (Z.abs v) cs /\
    let t := field w ((if decide (v < 0) then [ch_minus] else []) ++ cs) in
    forall buffer n, (n <= length buffer)%nat -> Z.of_nat n <= PRINTF_MAX_POSSIBLE_BUFFER_SIZE ->
    snprintf_ junk (Some buffer) (Z.of_nat n) (bytes_of "%*ld") [AInt w; ALong v]
      = Ok (mk_gadget false [] (Some (final_output buffer n t)) (Z.of_nat (length t)) (Z.of_nat n),
            [], s32 (Z.of_nat (length t))).
Proof.
  intros Hj Hw Hv. destruct (format_star_ld junk w v Hj Hw Hv) as (fl & cs & Hn & Ht).
  exists fl, cs. split; [done|]. intros t buffer n Hb Hmax.
  unfold snprintf_. rewrite (vsnprintf_buffer _ _ _ _ _ _ _ Ht Hb).
  rewrite Z.min_l by lia. by rewrite Nat2Z.id.
Qed.

Lemma snprintf_decimal_witness :
  exists flags cs, numeral 10 flags 305 cs /\
    let t := field (-8) ([ch_minus] ++ cs) in
    forall buffer n, (n <= length buffer)%nat -> Z.of_nat n <= PRINTF_MAX_POSSIBLE_BUFFER_SIZE ->
    snprintf_ (replicate 32 0) (Some buffer) (Z.of_nat n) (bytes_of "%*ld") [AInt (-8); ALong (-305)]
      = Ok (mk_gadget false [] (Some (final_output buffer n t)) (Z.of_nat (length t)) (Z.of_nat n),
            [], s32 (Z.of_nat (length t))).
Proof. apply (snprintf_decimal (replicate 32 0) (-8) (-305)); [reflexivity|lia|lia]. Defined.

(** Printing and parsing unsigned numbers are inverse: the text that "%u"
    writes for any unsigned int is read back by [atou_] as that number, up to
    its end. *)
Theorem unsigned_roundtrip junk v : length junk = PRINTF_INTEGER_BUFFER_SIZE -> 0 <= v < 2 ^ 32 ->
  exists t, vsnprintf_ junk None 0 (bytes_of "%u") [AInt v]
      = Ok (mk_gadget false [] None (Z.of_nat (length t)) 0, [], s32 (Z.of_nat (length t))) /\
    format_text junk (bytes_of "%u") [AInt v] = Ok (t, []) /\
    atou_ t 0 = Ok (v, length t).
Proof.
  intros Hj Hv. destruct (format_u junk v Hj Hv) as (cs & Hn & Ht). exists cs. split_and!; [|done|].
  - destruct (format_loop_refines discard_at discard_put ltac:(intros g t' [-> _]; done)
      junk (bytes_of "%u") 3 discarding_gadget [] 0%nat [AInt v] [] ltac:(done) _ Ht)
      as ([g wb'] & E & [Eg _] & Ew). cbn [fst snd] in Eg, Ew. subst.
    unfold vsnprintf_, _vsnprintf. change (buffer_gadget None 0) with discarding_gadget.
    change (S (length (bytes_of "%u"))) with 3%nat. by rewrite E.
  - unfold atou_. pose proof (numeral_digits _ _ _ Hn) as Hd.
    rewrite (atou_loop_spec cs cs 0 0 (S (length cs)) []); [|by rewrite app_nil_r|done|lia|done|lia].
    destruct Hn as (ds & -> & Hall & He & _). rewrite (proj1 (atou_eval 0 ds Hall ltac:(lia))), He. done.
Qed.

Lemma unsigned_roundtrip_witness :
  exists t, vsnprintf_ (replicate 32 0) None 0 (bytes_of "%u") [AInt 4294967295]
      = Ok (mk_gadget false [] None (Z.of_nat (length t)) 0, [], s32 (Z.of_nat (length t))) /\
    format_text (replicate 32 0) (bytes_of "%u") [AInt 4294967295] = Ok (t, []) /\
    atou_ t 0 = Ok (4294967295, length t).
Proof. apply (unsigned_roundtrip (replicate 32 0) 4294967295); [reflexivity|lia]. Defined.

(** The digits of a number in any base from 2 to 16 are those of its value
    modulo base^32, the size of the buffer: every 64-bit value in octal,
    decimal and hexadecimal, but only the low 32 bits in binary. *)
Theorem digits_correct junk value base flags :
  length junk = PRINTF_INTEGER_BUFFER_SIZE -> 2 <= base <= 16 -> 0 < value < 2 ^ 64 ->
  exists buf len ds,
    digits_loop value base flags (junk, 0%nat) PRINTF_INTEGER_BUFFER_SIZE = Ok (buf, len) /\
    take len buf = map (fun d => digit_char d flags) ds /\ Forall (fun d => 0 <= d < base) ds /\
    eval base ds = value mod base ^ 32 /\
    (4 <= base -> eval base ds = value /\ exists ds' d, ds = ds' ++ [d] /\ 0 < d).
Proof.
  intros Hj Hb Hv. destruct (digits_loop_spec base flags ltac:(lia) PRINTF_INTEGER_BUFFER_SIZE (junk, 0%nat) [] value)
    as ([buf len] & ds & E & (_ & _ & Ht) & Hall & He & Hlast);
    [done|lia|done|unfold PRINTF_INTEGER_BUFFER_SIZE; lia|].
  change (Z.of_nat PRINTF_INTEGER_BUFFER_SIZE) with 32 in *.
  exists buf, len, ds. split_and!; try done. intros H4.
  assert (4 ^ 32 <= base ^ 32) by (apply Z.pow_le_mono_l; lia).
  split; [|apply Hlast; lia]. rewrite He. apply Z.mod_small. lia.
Qed.

Lemma digits_correct_witness :
  exists buf len ds,
    digits_loop 48879 16 0 (replicate 32 0, 0%nat) PRINTF_INTEGER_BUFFER_SIZE = Ok (buf, len) /\
    take len buf = map (fun d => digit_char d 0) ds /\ Forall (fun d => 0 <= d < 16) ds /\
    eval 16 ds = 48879 mod 16 ^ 32 /\
    (4 <= 16 -> eval 16 ds = 48879 /\ exists ds' d, ds = ds' ++ [d] /\ 0 < d).
Proof. apply (digits_correct (replicate 32 0) 48879 16 0); [reflexivity|lia|lia]. Defined.

(** A format without directives is copied: its text is written to the
    buffer as far as it fits. *)
Theorem snprintf_literal junk format buffer n :
  Forall (fun c => c <> 0 /\ c <> ch_percent) format -> Z.of_nat (length format) < 2 ^ 31 ->
  (n <= length buffer)%nat -> Z.of_nat n <= PRINTF_MAX_POSSIBLE_BUFFER_SIZE ->
  snprintf_ junk (Some buffer) (Z.of_nat n) format []
    = Ok (mk_gadget false [] (Some (final_output buffer n format)) (Z.of_nat (length format)) (Z.of_nat n),
          [], Z.of_nat (length format)).
Proof.
  intros Hf Hl Hb Hmax.
  assert (format_text junk format [] = Ok (format, [])) as Ht.
  { unfold format_text. rewrite format_literal; rewrite ?drop_0; cbn [length]; try done; lia. }
  unfold snprintf_. rewrite (vsnprintf_buffer _ _ _ _ _ _ _ Ht Hb). rewrite Z.min_l by lia.
  rewrite Nat2Z.id, wraps_small; [done|lia|]. change (32 - 1) with 31. lia.
Qed.

Lemma snprintf_literal_witness :
  snprintf_ (replicate 32 0) (Some (replicate 4 9)) (Z.of_nat 4) (bytes_of "hello") []
    = Ok (mk_gadget false [] (Some (final_output (replicate 4 9) 4 (bytes_of "hello"))) 5 4, [], 5).
Proof.
  apply (snprintf_literal (replicate 32 0) (bytes_of "hello") (replicate 4 9) 4);
    [vm_compute; repeat (apply Forall_cons; split; [split; discriminate|]); apply Forall_nil; exact I
    |vm_compute; done|simpl; lia|vm_compute; done].
Defined.

(** "Floating point" output never prints a number: because values and
    bounds are unsigned, every value below 2^64 - 10000 is printed as "-inf"
    and every other one as "inf" or "+inf"; the code for digits and exponents
    is not reached, whatever the precision. *)
Theorem floating_point_infinite {G} `{Sink G} junk (output : G) value precision width flags e :
  0 <= value < 2 ^ 64 ->
  print_floating_point junk output value precision width flags e =
    if decide (value < 2 ^ 64 - 10000) then out_rev_ output (reverse (bytes_of "-inf")) 4 width flags
    else if has flags FLAGS_PLUS then out_rev_ output (reverse (bytes_of "+inf")) 4 width flags
    else out_rev_ output (reverse (bytes_of "inf")) 3 width flags.
Proof.
  intros Hv. unfold print_floating_point. rewrite bool_decide_eq_true_2 by done. cbn [negb].
  change (u64 (-10000)) with (2 ^ 64 - 10000). case_decide; [done|].
  rewrite decide_True by lia. done.
Qed.

Lemma floating_point_infinite_witness :
  print_floating_point (replicate 32 0) (@nil Z) 3 2 0 0 false
    = out_rev_ (@nil Z) (reverse (bytes_of "-inf")) 4 0 0.
Proof. apply (floating_point_infinite (replicate 32 0) (@nil Z) 3 2 0 0 false). lia. Defined.
