(* ===== verification/PageFrame.v ===== *)
(** * Physical pages

    src/kernel/libs/Bitmap.cpp, src/kernel/mem/helpers/PageFrameAllocator.cpp
    and the memory map that src/kernel/arch/amd64/boot/Limine.c hands to it: one
    bit per page of 4096 bytes, set when the page is in use or reserved, and a
    hint where to look for the next free page.  A physical address is its
    number; the functions run under the allocator's lock, so one at a time. *)

From S2P Require Import Prelude.

Local Open Scope Z_scope.

(** ** Bitmap *)

Record Bitmap := mk_bitmap {
  bm_Size : Z;
  bm_At : Z;
  bm_Buffer : list Z
}.

(** The bit of page [index], most significant bit first. *)
Definition bitIndexer (index : Z) : Z := Z.shiftr 128 (index mod 8).

Definition Get (bm : Bitmap) (index : Z) : res bool :=
  if decide (u64 (bm_Size bm * 8) < index) then Ok false
  else
    let* b := aget (bm_Buffer bm) (Z.to_nat (index / 8)) in
    Ok (bool_decide (0 < Z.land b (bitIndexer index))).

Definition SetBit (bm : Bitmap) (index : Z) (value : bool) : res (Bitmap * bool) :=
  if decide (u64 (bm_Size bm * 8) < index) then Ok (bm, false)
  else
    let* b := aget (bm_Buffer bm) (Z.to_nat (index / 8)) in
    let b := u8 (Z.land b (Z.lnot (bitIndexer index))) in
    let b := if value then u8 (Z.lor b (bitIndexer index)) else b in
    let* buf := aset (bm_Buffer bm) (Z.to_nat (index / 8)) b in
    Ok (mk_bitmap (bm_Size bm) (bm_At bm) buf, true).

(** ** The allocator *)

(** The globals and the bitmap.  [panic] halts the machine. *)

Record PageFrameAllocator := mk_pfa {
  PageBitmap : Bitmap;
  TotalMemory : Z;
  FreeMemory : Z;
  ReservedMemory : Z;
  UsedMemory : Z;
  PageBitmapIndex : Z;
  Initialized : bool
}.

Definition set_bitmap (s : PageFrameAllocator) bm := mk_pfa bm (TotalMemory s) (FreeMemory s)
  (ReservedMemory s) (UsedMemory s) (PageBitmapIndex s) (Initialized s).
Definition set_index (s : PageFrameAllocator) i := mk_pfa (PageBitmap s) (TotalMemory s) (FreeMemory s)
  (ReservedMemory s) (UsedMemory s) (u64 i) (Initialized s).
Definition add_memory (s : PageFrameAllocator) free reserved used := mk_pfa (PageBitmap s) (TotalMemory s)
  (u64 (FreeMemory s + free)) (u64 (ReservedMemory s + reserved)) (u64 (UsedMemory s + used))
  (PageBitmapIndex s) (Initialized s).

(** The hint moves down to a page that becomes free. *)
Definition lower_index (s : PageFrameAllocator) (Index : Z) : PageFrameAllocator :=
  if decide (Index < PageBitmapIndex s) then set_index s Index else s.

Definition FreePage (s : PageFrameAllocator) (Address : Z) : res PageFrameAllocator :=
  let Index := Address / 4096 in
  let* b := Get (PageBitmap s) Index in
  if (b : bool) then
    let* '(bm, ok) := SetBit (PageBitmap s) Index false in
    let s := set_bitmap s bm in
    Ok (if (ok : bool) then lower_index (add_memory s 4096 0 (-4096)) Index else s)
  else Ok s.

Definition LockPage (s : PageFrameAllocator) (Address : Z) : res PageFrameAllocator :=
  let Index := Address / 4096 in
  let* b := Get (PageBitmap s) Index in
  if (b : bool) then Ok s
  else
    let* '(bm, ok) := SetBit (PageBitmap s) Index true in
    let s := set_bitmap s bm in
    Ok (if (ok : bool) then add_memory s (-4096) 0 4096 else s).

Definition ReservePage (s : PageFrameAllocator) (Address : Z) : res PageFrameAllocator :=
  let Index := Address / 4096 in
  let* b := Get (PageBitmap s) Index in
  if (b : bool) then Ok s
  else
    let* '(bm, ok) := SetBit (PageBitmap s) Index true in
    let s := set_bitmap s bm in
    Ok (if (ok : bool) then add_memory s (-4096) 4096 0 else s).

(** No test for a page that is free already. *)
Definition UnreservePage (s : PageFrameAllocator) (Address : Z) : res PageFrameAllocator :=
  let Index := Address / 4096 in
  let* '(bm, ok) := SetBit (PageBitmap s) Index false in
  let s := set_bitmap s bm in
  Ok (if (ok : bool) then lower_index (add_memory s 4096 (-4096) 0) Index else s).

(** [for (t = 0; t < PageCount; t++) op(Address + t * 4096)] *)
Fixpoint each_page (op : PageFrameAllocator -> Z -> res PageFrameAllocator) (s : PageFrameAllocator)
    (Address t : Z) (n : nat) : res PageFrameAllocator :=
  match n with
  | O => Ok s
  | S n' => let* s := op s (u64 (Address + t * 4096)) in each_page op s Address (t + 1) n'
  end.

Definition FreePages s (Address PageCount : Z) := each_page FreePage s Address 0 (Z.to_nat PageCount).
Definition LockPages s (Address PageCount : Z) := each_page LockPage s Address 0 (Z.to_nat PageCount).
Definition ReservePages s (Address PageCount : Z) := each_page ReservePage s Address 0 (Z.to_nat PageCount).
Definition UnreservePages s (Address PageCount : Z) := each_page UnreservePage s Address 0 (Z.to_nat PageCount).

(** The number of pages of the bitmap bounds every search. *)
Definition page_limit (s : PageFrameAllocator) : Z := u64 (bm_Size (PageBitmap s) * 8).
Definition page_fuel (s : PageFrameAllocator) : nat := S (Z.to_nat (page_limit s)).

(** One page: the hint walks over the used pages; without a free one the kernel
    panics. *)
Fixpoint request_page_loop (s : PageFrameAllocator) (fuel : nat) : res (PageFrameAllocator * Z) :=
  if decide (PageBitmapIndex s < page_limit s) then
    match fuel with
    | O => Err OutOfFuel
    | S f =>
        let* b := Get (PageBitmap s) (PageBitmapIndex s) in
        if (b : bool) then request_page_loop (set_index s (PageBitmapIndex s + 1)) f
        else
          let* s := LockPage s (u64 (PageBitmapIndex s * 4096)) in
          Ok (s, u64 (PageBitmapIndex s * 4096))
    end
  else Err Panic.

Definition RequestPage (s : PageFrameAllocator) : res (PageFrameAllocator * Z) :=
  request_page_loop s (page_fuel s).

(** [PageCount] pages from [Index] are free. *)
Fixpoint range_free (bm : Bitmap) (Index i : Z) (n : nat) : res bool :=
  match n with
  | O => Ok true
  | S n' =>
      let* b := Get bm (u64 (Index + i)) in
      if (b : bool) then Ok false else range_free bm Index (i + 1) n'
  end.

(** The inner loop: after a range that does not fit, the search goes on behind
    it ([Index += PageCount] and the increment of the loop). *)
Fixpoint find_range (s : PageFrameAllocator) (Index PageCount : Z) (fuel : nat) : res (option Z) :=
  if decide (Index < page_limit s) then
    match fuel with
    | O => Err OutOfFuel
    | S f =>
        let* b := Get (PageBitmap s) Index in
        if (b : bool) then find_range s (u64 (Index + 1)) PageCount f
        else
          let* free := range_free (PageBitmap s) Index 0 (Z.to_nat PageCount) in
          if (free : bool) then Ok (Some Index)
          else find_range s (u64 (u64 (Index + PageCount) + 1)) PageCount f
    end
  else Ok None.

(** The outer loop moves the hint; NULL when there is no range. *)
Fixpoint request_pages_loop (s : PageFrameAllocator) (PageCount : Z) (fuel : nat)
    : res (PageFrameAllocator * Z) :=
  if decide (PageBitmapIndex s < page_limit s) then
    match fuel with
    | O => Err OutOfFuel
    | S f =>
        let* b := Get (PageBitmap s) (PageBitmapIndex s) in
        if (b : bool) then request_pages_loop (set_index s (PageBitmapIndex s + 1)) PageCount f
        else
          let* r := find_range s (PageBitmapIndex s) PageCount (page_fuel s) in
          match r with
          | Some Index =>
              let* s := LockPages s (u64 (Index * 4096)) PageCount in
              Ok (s, u64 (Index * 4096))
          | None => request_pages_loop (set_index s (PageBitmapIndex s + 1)) PageCount f
          end
    end
  else Ok (s, 0).

Definition RequestPages (s : PageFrameAllocator) (PageCount : Z) : res (PageFrameAllocator * Z) :=
  request_pages_loop s PageCount (page_fuel s).

(** ** The memory map *)

Inductive MemType :=
| GBP_Error | GBP_Free | GBP_Reserved | GBP_Unusable | GBP_ACPIReclaimable | GBP_ACPIMemoryNVS
| GBP_Framebuffer | GBP_Kernel | GBP_Unknown.

#[global] Instance MemType_eq_dec : EqDecision MemType.
Proof. solve_decision. Defined.

Record GBPMemoryMapEntry := mk_entry {
  e_PhysicalAddress : Z;
  e_VirtualAddress : Z;
  e_Pages : Z;
  e_Type : MemType;
  e_Size : Z;
  e_Length : Z
}.

(** The entries of the boot loader: base, length and type. *)
Inductive limine_type :=
| LIMINE_MEMMAP_USABLE | LIMINE_MEMMAP_RESERVED | LIMINE_MEMMAP_ACPI_RECLAIMABLE | LIMINE_MEMMAP_ACPI_NVS
| LIMINE_MEMMAP_BAD_MEMORY | LIMINE_MEMMAP_BOOTLOADER_RECLAIMABLE | LIMINE_MEMMAP_KERNEL_AND_MODULES
| LIMINE_MEMMAP_FRAMEBUFFER | LIMINE_MEMMAP_OTHER.

Record limine_memmap_entry := mk_limine {
  lm_base : Z;
  lm_length : Z;
  lm_type : limine_type
}.

Definition entry_type (t : limine_type) : MemType :=
  match t with
  | LIMINE_MEMMAP_RESERVED => GBP_Reserved
  | LIMINE_MEMMAP_USABLE => GBP_Free
  | LIMINE_MEMMAP_BAD_MEMORY => GBP_Unusable
  | LIMINE_MEMMAP_ACPI_RECLAIMABLE => GBP_ACPIReclaimable
  | LIMINE_MEMMAP_ACPI_NVS => GBP_ACPIMemoryNVS
  | LIMINE_MEMMAP_BOOTLOADER_RECLAIMABLE => GBP_Unknown
  | LIMINE_MEMMAP_KERNEL_AND_MODULES => GBP_Kernel
  | LIMINE_MEMMAP_FRAMEBUFFER => GBP_Framebuffer
  | LIMINE_MEMMAP_OTHER => GBP_Unknown
  end.

Definition PHYSICAL_TO_VIRTUAL (addr : Z) : Z := u64 (addr + 0xFFFFFFFF80000000).

Definition convert_entry (entry : limine_memmap_entry) : GBPMemoryMapEntry :=
  let MemmapPages := u64 (lm_length entry / 4096 + 1) in
  mk_entry (lm_base entry) (PHYSICAL_TO_VIRTUAL (lm_base entry)) MemmapPages (entry_type (lm_type entry)) (u64 (MemmapPages * 4096)) (lm_length entry).

Definition memory_size (entries : list limine_memmap_entry) : Z :=
  foldl (fun n e => u64 (n + lm_length e)) 0 entries.

Definition is_free (e : GBPMemoryMapEntry) : bool := bool_decide (e_Type e = GBP_Free).

(** The largest free segment: the first of the largest ones. *)
Definition largest_free (entries : list GBPMemoryMapEntry) : Z * Z :=
  foldl (fun '(at_, size) e =>
           if is_free e then if decide (size < e_Size e) then (e_PhysicalAddress e, e_Size e) else (at_, size)
           else (at_, size)) (0, 0) entries.

Definition InitBitmap (s : PageFrameAllocator) (BitmapSize BufferAddress : Z) : PageFrameAllocator :=
  set_bitmap s (mk_bitmap BitmapSize BufferAddress (replicate (Z.to_nat BitmapSize) 0)).

(** [ALIGN_UP(x, 0x1000)] *)
Definition ALIGN_UP (x : Z) : Z := Z.land (u64 (x + 0xFFF)) (u64 (Z.lnot 0xFFF)).

Fixpoint unreserve_entries (s : PageFrameAllocator) (entries : list GBPMemoryMapEntry) : res PageFrameAllocator :=
  match entries with
  | [] => Ok s
  | e :: entries' =>
      let* s := if is_free e then UnreservePages s (e_PhysicalAddress e) (e_Pages e) else Ok s in
      unreserve_entries s entries'
  end.

Definition ReadMemoryMap (s : PageFrameAllocator) (entries : list GBPMemoryMapEntry) (MemorySize : Z)
    : res PageFrameAllocator :=
  if Initialized s then Err Panic
  else
    let LargestFreeMemorySegment := (largest_free entries).1 in
    let s := mk_pfa (PageBitmap s) MemorySize MemorySize (ReservedMemory s) (UsedMemory s) (PageBitmapIndex s) true in
    let s := InitBitmap s (ALIGN_UP (MemorySize / 0x1000 / 8)) LargestFreeMemorySegment in
    let* s := ReservePages s 0 (u64 (MemorySize / 4096 + 1)) in
    let* s := unreserve_entries s entries in
    let* s := ReservePages s 0 0x100 in
    LockPages s (bm_At (PageBitmap s)) (u64 (bm_Size (PageBitmap s) / 4096 + 1)).

(** ** Examples *)

Definition empty_pfa : PageFrameAllocator := mk_pfa (mk_bitmap 0 0 []) 0 0 0 0 0 false.

(** Two MiB: the kernel's page at 1 MiB, the rest above it free. *)
Definition small_map : list limine_memmap_entry :=
  [mk_limine 0 0x100000 LIMINE_MEMMAP_RESERVED;
   mk_limine 0x100000 0x8000 LIMINE_MEMMAP_USABLE;
   mk_limine 0x108000 0x4000 LIMINE_MEMMAP_KERNEL_AND_MODULES;
   mk_limine 0x10c000 0xf4000 LIMINE_MEMMAP_USABLE].

Definition boot (m : list limine_memmap_entry) : res PageFrameAllocator :=
  ReadMemoryMap empty_pfa (convert_entry <$> m) (memory_size m).

(** The first pages handed out, and one page too many made free: the page after
    each usable region, here the first page of the kernel. *)
Example boot_1 :
  (let* s := boot small_map in
   let* '(s, p) := RequestPage s in
   let* '(s, q) := RequestPages s 3 in
   let* kernel := Get (PageBitmap s) 0x108 in
   Ok (p, q, bm_Size (PageBitmap s), kernel))
  = Ok (0x100000, 0x101000, 4096, false).
Proof. vm_compute. reflexivity. Qed.
