(* ===== verification/PageFrameSpec.v ===== *)
(** * Correctness of the page frame allocator

    The bitmap of src/kernel/libs/Bitmap.cpp as a function from pages to
    booleans, what each operation of
    src/kernel/mem/helpers/PageFrameAllocator.cpp does to it, and what the
    searches find. *)

From S2P Require Import Prelude PageFrame.

Local Open Scope Z_scope.

(** ** The bitmap as a function *)

Definition bit (bm : Bitmap) (i : Z) : bool :=
  Z.testbit (nth (Z.to_nat (i / 8)) (bm_Buffer bm) 0) (7 - i mod 8).

Record bm_ok (bm : Bitmap) : Prop := {
  bk_size : 0 <= bm_Size bm < 2 ^ 49;
  bk_len : Z.of_nat (length (bm_Buffer bm)) = bm_Size bm;
  bk_bytes : Forall (fun b => 0 <= b < 256) (bm_Buffer bm)
}.

Lemma bm_limit bm : bm_ok bm -> u64 (bm_Size bm * 8) = bm_Size bm * 8.
Proof. intros [Hs _ _]. apply wrapu_small. lia. Qed.

Lemma bitIndexer_pow i : 0 <= i -> bitIndexer i = 2 ^ (7 - i mod 8).
Proof.
  intros Hi. unfold bitIndexer. pose proof (Z.mod_pos_bound i 8 ltac:(lia)).
  change 128 with (2 ^ 7). rewrite Z.shiftr_div_pow2 by lia. rewrite <- Z.pow_sub_r by lia. done.
Qed.

Lemma land_pow2 b k : 0 <= k -> bool_decide (0 < Z.land b (2 ^ k)) = Z.testbit b k.
Proof.
  intros Hk. destruct (Z.testbit b k) eqn:E.
  - apply bool_decide_eq_true. assert (Z.land b (2 ^ k) = 2 ^ k) as ->; [|apply Z.pow_pos_nonneg; lia].
    apply Z.bits_inj'. intros n Hn. rewrite Z.land_spec, Z.pow2_bits_eqb by done.
    destruct (Z.eqb_spec k n) as [<-|]; [by rewrite E|by rewrite andb_false_r].
  - apply bool_decide_eq_false. assert (Z.land b (2 ^ k) = 0) as ->; [|lia].
    apply Z.bits_inj'. intros n Hn. rewrite Z.land_spec, Z.pow2_bits_eqb, Z.bits_0 by done.
    destruct (Z.eqb_spec k n) as [<-|]; [by rewrite E|by rewrite andb_false_r].
Qed.

Lemma byte_lookup bm i : bm_ok bm -> 0 <= i < bm_Size bm * 8 ->
  exists b, aget (bm_Buffer bm) (Z.to_nat (i / 8)) = Ok b /\ nth (Z.to_nat (i / 8)) (bm_Buffer bm) 0 = b /\ 0 <= b < 256.
Proof.
  intros [Hs Hl Hb] Hi. assert (Z.to_nat (i / 8) < length (bm_Buffer bm))%nat as Hlt.
  { pose proof (Z.div_lt_upper_bound i 8 (bm_Size bm)). pose proof (Z.div_pos i 8). lia. }
  destruct (lookup_lt_is_Some_2 _ _ Hlt) as [b E]. exists b. split; [by apply aget_Ok|]. split; [by apply nth_lookup_Some|].
  exact (Forall_lookup_1 _ _ _ _ Hb E).
Qed.

Lemma Get_ok bm i : bm_ok bm -> 0 <= i < bm_Size bm * 8 -> Get bm i = Ok (bit bm i).
Proof.
  intros Hok Hi. unfold Get. rewrite (bm_limit _ Hok), decide_False by lia.
  destruct (byte_lookup _ _ Hok Hi) as (b & -> & Eb & _). cbn [bind]. unfold bit. rewrite Eb.
  pose proof (Z.mod_pos_bound i 8 ltac:(lia)).
  rewrite bitIndexer_pow, land_pow2 by lia. done.
Qed.

(** The byte that [SetBit] writes. *)
Definition set_byte (b i : Z) (v : bool) : Z :=
  let b := u8 (Z.land b (Z.lnot (bitIndexer i))) in if v then u8 (Z.lor b (bitIndexer i)) else b.

Lemma set_byte_bit b i v k : 0 <= i -> 0 <= k < 8 ->
  Z.testbit (set_byte b i v) k = if decide (k = 7 - i mod 8) then v else Z.testbit b k.
Proof.
  intros Hi Hk. unfold set_byte. pose proof (Z.mod_pos_bound i 8 ltac:(lia)). rewrite bitIndexer_pow by done.
  assert (Z.testbit (u8 (Z.land b (Z.lnot (2 ^ (7 - i mod 8))))) k
    = if decide (k = 7 - i mod 8) then false else Z.testbit b k) as Hland.
  { unfold wrapu. rewrite Z.mod_pow2_bits_low by lia. rewrite Z.land_spec, Z.lnot_spec, Z.pow2_bits_eqb by lia.
    case_decide as E; [subst; by rewrite Z.eqb_refl, andb_false_r|].
    rewrite (proj2 (Z.eqb_neq _ _)) by lia. by rewrite andb_true_r. }
  destruct v; [|exact Hland]. unfold wrapu at 1. rewrite Z.mod_pow2_bits_low by lia. fold (wrapu 8).
  rewrite Z.lor_spec, Z.pow2_bits_eqb by lia. rewrite Hland. case_decide as E.
  - subst. by rewrite Z.eqb_refl.
  - rewrite (proj2 (Z.eqb_neq _ _)) by lia. by rewrite orb_false_r.
Qed.

Lemma SetBit_ok bm i v : bm_ok bm -> 0 <= i < bm_Size bm * 8 ->
  exists bm', SetBit bm i v = Ok (bm', true) /\ bm_ok bm' /\ bm_Size bm' = bm_Size bm /\ bm_At bm' = bm_At bm /\
    forall j, 0 <= j < bm_Size bm * 8 -> bit bm' j = if decide (j = i) then v else bit bm j.
Proof.
  intros Hok Hi. unfold SetBit. rewrite (bm_limit _ Hok), decide_False by lia.
  destruct (byte_lookup _ _ Hok Hi) as (b & E & Eb & Hb). rewrite E. cbn [bind]. fold (set_byte b i v).
  apply aget_Ok in E. pose proof (lookup_lt_Some _ _ _ E) as Hlt. rewrite (aset_Ok _ _ _ Hlt). cbn [bind].
  eexists. split_and!; [reflexivity| |done|done|].
  - destruct Hok as [Hs Hl Hbs]. split; cbn; [done|by rewrite length_insert|]. apply Forall_insert; [done|].
    unfold set_byte. destruct v; apply wrapu_range; lia.
  - intros j Hj. unfold bit. cbn [bm_Buffer]. pose proof (Z.mod_pos_bound j 8 ltac:(lia)).
    pose proof (Z.mod_pos_bound i 8 ltac:(lia)). pose proof (Z.div_pos j 8). pose proof (Z.div_pos i 8).
    destruct (decide (j / 8 = i / 8)) as [Ed|Ed].
    + rewrite Ed. erewrite (nth_lookup_Some (<[_:=_]> _)) by (apply list_lookup_insert_eq; exact Hlt).
      rewrite set_byte_bit by lia. rewrite Eb. pose proof (Z.div_mod j 8 ltac:(lia)). pose proof (Z.div_mod i 8 ltac:(lia)).
      destruct (decide (j = i)) as [->|Hne]; [by rewrite decide_True|]. by rewrite decide_False by lia.
    + rewrite (decide_False (P := j = i)) by congruence. rewrite !nth_lookup, list_lookup_insert_ne by lia. done.
Qed.

(** The bits just past the end. *)
Lemma Get_past bm : bm_ok bm -> Get bm (bm_Size bm * 8) = Err OutOfBounds.
Proof.
  intros Hok. unfold Get. rewrite (bm_limit _ Hok), decide_False by lia. rewrite Z.div_mul by lia.
  rewrite aget_oob; [done|]. destruct Hok as [_ Hl _]. lia.
Qed.

Lemma Get_far bm i : bm_ok bm -> bm_Size bm * 8 < i -> Get bm i = Ok false.
Proof. intros Hok Hi. unfold Get. by rewrite (bm_limit _ Hok), decide_True by lia. Qed.

(** ** Pages *)

Definition pages (s : PageFrameAllocator) : Z := bm_Size (PageBitmap s) * 8.
Definition in_use (s : PageFrameAllocator) (i : Z) : bool := bit (PageBitmap s) i.

Record pfa_ok (s : PageFrameAllocator) : Prop := {
  po_bm : bm_ok (PageBitmap s);
  po_index : 0 <= PageBitmapIndex s <= pages s
}.

(** The bytes counted as free, reserved and used. *)
Definition accounted (s : PageFrameAllocator) : Z := u64 (FreeMemory s + ReservedMemory s + UsedMemory s).

(** [s'] is [s] with the [n] pages from [lo] marked [v]. *)
Record marked (s s' : PageFrameAllocator) (lo n : Z) (v : bool) : Prop := {
  mk_ok : pfa_ok s';
  mk_pages : pages s' = pages s;
  mk_at : bm_At (PageBitmap s') = bm_At (PageBitmap s);
  mk_bits : forall j, 0 <= j < pages s -> in_use s' j = if decide (lo <= j < lo + n) then v else in_use s j;
  mk_total : TotalMemory s' = TotalMemory s /\ accounted s' = accounted s
}.

Lemma marked_none s lo v : pfa_ok s -> marked s s lo 0 v.
Proof. intros Hs. split; try done. intros j Hj. by rewrite decide_False by lia. Qed.

Lemma marked_same s lo v : pfa_ok s -> in_use s lo = v -> marked s s lo 1 v.
Proof.
  intros Hs Hu. split; try done. intros j Hj. case_decide; [|done]. assert (j = lo) as -> by lia. done.
Qed.

Lemma marked_app s s1 s2 lo n m v : marked s s1 lo n v -> marked s1 s2 (lo + n) m v -> 0 <= n -> 0 <= m ->
  marked s s2 lo (n + m) v.
Proof.
  intros [A1 A2 A3 A4 A5] [B1 B2 B3 B4 B5] Hn Hm. split; [done|congruence|congruence| |].
  - intros j Hj. rewrite B4 by (rewrite A2; done). rewrite A4 by done.
    repeat case_decide; (done || lia).
  - destruct A5, B5. split; congruence.
Qed.

Lemma page_index i : i * 4096 / 4096 = i.
Proof. by rewrite Z.div_mul. Qed.

Lemma pages_bound s : pfa_ok s -> 0 <= pages s < 2 ^ 52.
Proof. intros [[Hs _ _] _]. unfold pages. lia. Qed.

(** The address of a page of the bitmap. *)
Lemma page_address s i : pfa_ok s -> 0 <= i < pages s -> u64 (i * 4096) = i * 4096.
Proof. intros Hs Hi. pose proof (pages_bound s Hs). apply wrapu_small. lia. Qed.

Lemma accounted_add s f r u : f + r + u = 0 -> accounted (add_memory s f r u) = accounted s.
Proof.
  intros E. unfold accounted. cbn. unfold wrapu.
  rewrite Zplus_mod_idemp_r, <- (Zplus_mod_idemp_l (_ + _)), <- Zplus_mod, Zplus_mod_idemp_l.
  f_equal. lia.
Qed.

(** One page: set its bit, and the counters. *)
Lemma set_page s i v f r u bm : pfa_ok s -> 0 <= i < pages s -> f + r + u = 0 ->
  SetBit (PageBitmap s) i v = Ok (bm, true) -> marked s (add_memory (set_bitmap s bm) f r u) i 1 v.
Proof.
  intros Hs Hi E Hset. pose proof Hs as [Hb Hx]. destruct (SetBit_ok _ i v Hb Hi) as (bm' & E' & Hok & Esz & Eat & Hbits).
  rewrite Hset in E'. injection E' as <-. split.
  - split; [done|]. unfold pages in *. cbn. by rewrite Esz.
  - unfold pages. cbn. by rewrite Esz.
  - done.
  - intros j Hj. unfold in_use. cbn. rewrite Hbits by done. repeat case_decide; (done || lia).
  - split; [done|]. by rewrite accounted_add.
Qed.

Lemma lower_marked s s' i lo n v : marked s s' lo n v -> 0 <= i < pages s -> marked s (lower_index s' i) lo n v.
Proof.
  intros [A1 A2 A3 A4 A5] Hi. unfold lower_index. case_decide; [|done]. destruct A1 as [B1 B2].
  pose proof (pages_bound s' ltac:(done)). split; try done. split; [done|]. cbn. unfold pages in *. cbn.
  rewrite wrapu_small; lia.
Qed.

Lemma LockPage_ok s i : pfa_ok s -> 0 <= i < pages s ->
  exists s', LockPage s (i * 4096) = Ok s' /\ marked s s' i 1 true /\ PageBitmapIndex s' = PageBitmapIndex s.
Proof.
  intros Hs Hi. unfold LockPage. rewrite page_index, (Get_ok _ _ (po_bm _ Hs) Hi). cbn [bind].
  destruct (bit (PageBitmap s) i) eqn:E; [exists s; split_and!; [done|by apply marked_same|done]|].
  destruct (SetBit_ok _ i true (po_bm _ Hs) Hi) as (bm & Eset & _). rewrite Eset. cbn [bind].
  eexists. split_and!; [reflexivity|by apply set_page|done].
Qed.

Lemma ReservePage_ok s i : pfa_ok s -> 0 <= i < pages s ->
  exists s', ReservePage s (i * 4096) = Ok s' /\ marked s s' i 1 true /\ PageBitmapIndex s' = PageBitmapIndex s.
Proof.
  intros Hs Hi. unfold ReservePage. rewrite page_index, (Get_ok _ _ (po_bm _ Hs) Hi). cbn [bind].
  destruct (bit (PageBitmap s) i) eqn:E; [exists s; split_and!; [done|by apply marked_same|done]|].
  destruct (SetBit_ok _ i true (po_bm _ Hs) Hi) as (bm & Eset & _). rewrite Eset. cbn [bind].
  eexists. split_and!; [reflexivity|by apply set_page|done].
Qed.

Lemma FreePage_ok s i : pfa_ok s -> 0 <= i < pages s ->
  exists s', FreePage s (i * 4096) = Ok s' /\ marked s s' i 1 false /\
    PageBitmapIndex s' = if in_use s i then Z.min (PageBitmapIndex s) i else PageBitmapIndex s.
Proof.
  intros Hs Hi. unfold FreePage. rewrite page_index, (Get_ok _ _ (po_bm _ Hs) Hi). cbn [bind].
  unfold in_use. destruct (bit (PageBitmap s) i) eqn:E; [|exists s; split_and!; [done|by apply marked_same|done]].
  destruct (SetBit_ok _ i false (po_bm _ Hs) Hi) as (bm & Eset & _). rewrite Eset. cbn [bind].
  pose proof (pages_bound s Hs). eexists. split_and!; [reflexivity|apply lower_marked; [by apply set_page|done]|].
  unfold lower_index. cbn. case_decide; cbn; [rewrite wrapu_small by lia; lia|lia].
Qed.

Lemma UnreservePage_ok s i : pfa_ok s -> 0 <= i < pages s ->
  exists s', UnreservePage s (i * 4096) = Ok s' /\ marked s s' i 1 false /\
    PageBitmapIndex s' = Z.min (PageBitmapIndex s) i.
Proof.
  intros Hs Hi. unfold UnreservePage. rewrite page_index.
  destruct (SetBit_ok _ i false (po_bm _ Hs) Hi) as (bm & Eset & _). rewrite Eset. cbn [bind].
  pose proof (pages_bound s Hs). eexists. split_and!; [reflexivity|apply lower_marked; [by apply set_page|done]|].
  unfold lower_index. cbn. case_decide; cbn; [rewrite wrapu_small by lia; lia|lia].
Qed.

(** ** Runs of pages *)

Section each.
Context (op : PageFrameAllocator -> Z -> res PageFrameAllocator) (v : bool)
  (R : PageFrameAllocator -> PageFrameAllocator -> Prop).
Context `{!Reflexive R, !Transitive R}.
Hypothesis op_ok : forall s i, pfa_ok s -> 0 <= i < pages s ->
  exists s', op s (i * 4096) = Ok s' /\ marked s s' i 1 v /\ R s s'.

Lemma each_page_ok n : forall s a t, pfa_ok s -> 0 <= a -> 0 <= t -> a + t + Z.of_nat n <= pages s ->
  exists s', each_page op s (a * 4096) t n = Ok s' /\ marked s s' (a + t) (Z.of_nat n) v /\ R s s'.
Proof.
  induction n as [|n IH]; intros s a t Hs Ha Ht Hn.
  - exists s. split_and!; [done|by apply marked_none|done].
  - cbn [each_page]. replace (a * 4096 + t * 4096) with ((a + t) * 4096) by lia.
    rewrite (page_address s) by (done || lia).
    destruct (op_ok s (a + t) Hs ltac:(lia)) as (s1 & -> & H1 & HR1). cbn [bind].
    pose proof (mk_pages _ _ _ _ _ H1) as Ep.
    destruct (IH s1 a (t + 1) (mk_ok _ _ _ _ _ H1) Ha ltac:(lia) ltac:(lia)) as (s2 & -> & H2 & HR2).
    exists s2. split_and!; [done| |by transitivity s1].
    replace (Z.of_nat (S n)) with (1 + Z.of_nat n) by lia. eapply marked_app; [exact H1| |lia|lia].
    by replace (a + t + 1) with (a + (t + 1)) by lia.
Qed.
End each.

(** All pages below the hint are in use. *)
Definition hint_ok (s : PageFrameAllocator) : Prop := forall j, 0 <= j < PageBitmapIndex s -> in_use s j = true.

Definition hint_kept (s s' : PageFrameAllocator) : Prop :=
  PageBitmapIndex s' <= PageBitmapIndex s /\ (hint_ok s -> hint_ok s').

#[local] Instance hint_kept_refl : Reflexive hint_kept.
Proof. intros s. split; [lia|done]. Qed.

#[local] Instance hint_kept_trans : Transitive hint_kept.
Proof. intros s1 s2 s3 [A1 A2] [B1 B2]. split; [lia|auto]. Qed.

Definition same_index (s s' : PageFrameAllocator) : Prop := PageBitmapIndex s' = PageBitmapIndex s.

#[local] Instance same_index_refl : Reflexive same_index.
Proof. done. Qed.

#[local] Instance same_index_trans : Transitive same_index.
Proof. unfold same_index. intros s1 s2 s3 A B. congruence. Qed.

(** The hint stays right when it moves down to a page made free, or when pages
    are taken. *)
Lemma freed_hint s s' i : pfa_ok s -> marked s s' i 1 false ->
  PageBitmapIndex s' = Z.min (PageBitmapIndex s) i \/ (PageBitmapIndex s' = PageBitmapIndex s /\ in_use s i = false) ->
  0 <= i < pages s -> hint_kept s s'.
Proof.
  intros Hs Hm Hx Hi. pose proof (po_index _ Hs). split; [lia|]. intros Hh j Hj. rewrite (mk_bits _ _ _ _ _ Hm) by lia.
  destruct Hx as [Hx|[Hx Hf]].
  - rewrite decide_False by lia. apply Hh. lia.
  - case_decide as E; [|apply Hh; lia]. rewrite <- Hf. replace i with j by lia. apply Hh. lia.
Qed.

Lemma taken_hint s s' lo n : pfa_ok s -> marked s s' lo n true -> PageBitmapIndex s' = PageBitmapIndex s -> hint_kept s s'.
Proof.
  intros Hs Hm Hx. pose proof (po_index _ Hs). split; [lia|]. intros Hh j Hj. rewrite (mk_bits _ _ _ _ _ Hm) by lia.
  case_decide; [done|]. apply Hh. lia.
Qed.

Lemma FreePages_ok s a n : pfa_ok s -> 0 <= a -> 0 <= n -> a + n <= pages s ->
  exists s', FreePages s (a * 4096) n = Ok s' /\ marked s s' a n false /\ hint_kept s s'.
Proof.
  intros Hs Ha Hn Hp. unfold FreePages.
  destruct (each_page_ok FreePage false hint_kept) with (n := Z.to_nat n) (s := s) (a := a) (t := 0)
    as (s' & E & Hm & Hh); [|done|lia|lia|lia|].
  - intros s0 i Hs0 Hi. destruct (FreePage_ok s0 i Hs0 Hi) as (s1 & E & Hm & Hx). exists s1. split_and!; [done|done|].
    eapply freed_hint; [done|exact Hm| |done]. destruct (in_use s0 i); [by left|by right].
  - exists s'. rewrite Z.add_0_r, Z2Nat.id in Hm by lia. done.
Qed.

Lemma UnreservePages_ok s a n : pfa_ok s -> 0 <= a -> 0 <= n -> a + n <= pages s ->
  exists s', UnreservePages s (a * 4096) n = Ok s' /\ marked s s' a n false /\ hint_kept s s'.
Proof.
  intros Hs Ha Hn Hp. unfold UnreservePages.
  destruct (each_page_ok UnreservePage false hint_kept) with (n := Z.to_nat n) (s := s) (a := a) (t := 0)
    as (s' & E & Hm & Hh); [|done|lia|lia|lia|].
  - intros s0 i Hs0 Hi. destruct (UnreservePage_ok s0 i Hs0 Hi) as (s1 & E & Hm & Hx). exists s1. split_and!; [done|done|].
    eapply freed_hint; [done|exact Hm| |done]. by left.
  - exists s'. rewrite Z.add_0_r, Z2Nat.id in Hm by lia. done.
Qed.

Lemma LockPages_ok s a n : pfa_ok s -> 0 <= a -> 0 <= n -> a + n <= pages s ->
  exists s', LockPages s (a * 4096) n = Ok s' /\ marked s s' a n true /\ PageBitmapIndex s' = PageBitmapIndex s.
Proof.
  intros Hs Ha Hn Hp. unfold LockPages.
  destruct (each_page_ok LockPage true same_index) with (n := Z.to_nat n) (s := s) (a := a) (t := 0)
    as (s' & E & Hm & Hh); [exact LockPage_ok|done|lia|lia|lia|].
  exists s'. rewrite Z.add_0_r, Z2Nat.id in Hm by lia. done.
Qed.

Lemma ReservePages_ok s a n : pfa_ok s -> 0 <= a -> 0 <= n -> a + n <= pages s ->
  exists s', ReservePages s (a * 4096) n = Ok s' /\ marked s s' a n true /\ PageBitmapIndex s' = PageBitmapIndex s.
Proof.
  intros Hs Ha Hn Hp. unfold ReservePages.
  destruct (each_page_ok ReservePage true same_index) with (n := Z.to_nat n) (s := s) (a := a) (t := 0)
    as (s' & E & Hm & Hh); [exact ReservePage_ok|done|lia|lia|lia|].
  exists s'. rewrite Z.add_0_r, Z2Nat.id in Hm by lia. done.
Qed.

(** ** The searches *)

Lemma page_limit_ok s : pfa_ok s -> page_limit s = pages s.
Proof. intros [Hb _]. apply (bm_limit _ Hb). Qed.

(** The next step of the hint. *)
Lemma advance_ok s : pfa_ok s -> PageBitmapIndex s < pages s ->
  pfa_ok (set_index s (PageBitmapIndex s + 1)) /\ PageBitmapIndex (set_index s (PageBitmapIndex s + 1)) = PageBitmapIndex s + 1.
Proof.
  intros Hs Hi. pose proof (pages_bound s Hs). destruct Hs as [Hb Hx]. cbn. unfold pages in *.
  rewrite wrapu_small by lia. split; [|done]. split; [done|]. cbn. unfold pages. cbn. rewrite wrapu_small; lia.
Qed.

Lemma marked_index s k s' lo n v : marked (set_index s k) s' lo n v -> marked s s' lo n v.
Proof. intros [A1 A2 A3 A4 A5]. by split. Qed.

Lemma request_page_ok fuel : forall s, pfa_ok s -> (Z.to_nat (pages s - PageBitmapIndex s) < fuel)%nat ->
  (exists i s', PageBitmapIndex s <= i < pages s /\ in_use s i = false /\
     (forall j, PageBitmapIndex s <= j < i -> in_use s j = true) /\
     request_page_loop s fuel = Ok (s', i * 4096) /\ marked s s' i 1 true /\ PageBitmapIndex s' = i) \/
  ((forall j, PageBitmapIndex s <= j < pages s -> in_use s j = true) /\ request_page_loop s fuel = Err Panic).
Proof.
  induction fuel as [|f IH]; intros s Hs Hf; [lia|]. cbn [request_page_loop]. rewrite (page_limit_ok s Hs).
  pose proof (po_index _ Hs) as Hx. case_decide as Hlt.
  - rewrite (Get_ok _ _ (po_bm _ Hs)) by (unfold pages in *; lia). cbn [bind]. fold (in_use s (PageBitmapIndex s)).
    destruct (in_use s (PageBitmapIndex s)) eqn:Eu.
    + destruct (advance_ok s Hs Hlt) as [Hs' Ex]. set (s1 := set_index s (PageBitmapIndex s + 1)) in *.
      change (pages s) with (pages s1) in *.
      assert (forall j, PageBitmapIndex s <= j -> PageBitmapIndex s1 <= j \/ j = PageBitmapIndex s) as Hj by (intros; lia).
      destruct (IH s1 Hs' ltac:(lia)) as [(i & s' & Hi & Hfree & Hall & -> & Hm & Ei)|[Hall ->]].
      * left. exists i, s'. split_and!; try done; try lia; [|by eapply marked_index].
        intros j Hji. destruct (Hj j ltac:(lia)) as [?| ->]; [apply Hall; lia|done].
      * right. split; [|done]. intros j Hji. destruct (Hj j ltac:(lia)) as [?| ->]; [apply Hall; lia|done].
    + left. rewrite (page_address s) by (done || lia).
      destruct (LockPage_ok s (PageBitmapIndex s) Hs ltac:(lia)) as (s' & -> & Hm & Ei). cbn [bind].
      exists (PageBitmapIndex s), s'. rewrite Ei, (page_address s) by (done || lia).
      split_and!; try done; try lia.
  - right. split; [|done]. intros j Hj. lia.
Qed.

Lemma RequestPage_spec s : pfa_ok s -> hint_ok s ->
  (exists i s', RequestPage s = Ok (s', i * 4096) /\ 0 <= i < pages s /\ in_use s i = false /\
     (forall j, 0 <= j < i -> in_use s j = true) /\ marked s s' i 1 true /\ hint_ok s') \/
  ((forall j, 0 <= j < pages s -> in_use s j = true) /\ RequestPage s = Err Panic).
Proof.
  intros Hs Hh. pose proof (po_index _ Hs) as Hx. unfold RequestPage.
  destruct (request_page_ok (page_fuel s) s Hs) as [(i & s' & Hi & Hf & Hall & E & Hm & Ei)|[Hall E]].
  { unfold page_fuel. rewrite (page_limit_ok s Hs). lia. }
  - left. assert (forall j, 0 <= j < i -> in_use s j = true) as Hlow.
    { intros j Hj. destruct (decide (j < PageBitmapIndex s)); [apply Hh; lia|apply Hall; lia]. }
    exists i, s'. split_and!; try done; try lia. intros j Hj. rewrite Ei in Hj.
    rewrite (mk_bits _ _ _ _ _ Hm) by lia. case_decide; [done|]. apply Hlow. lia.
  - right. split; [|done]. intros j Hj. destruct (decide (j < PageBitmapIndex s)); [apply Hh; lia|apply Hall; lia].
Qed.

(** [n] pages from [k] are free and inside the bitmap. *)
Definition free_run (s : PageFrameAllocator) (k n : Z) : Prop :=
  0 <= k /\ k + n <= pages s /\ forall j, k <= j < k + n -> in_use s j = false.

(** The first and the last page are in use: no run reaches the end. *)
Definition sealed (s : PageFrameAllocator) : Prop :=
  0 < pages s /\ in_use s 0 = true /\ in_use s (pages s - 1) = true.

Lemma range_free_ok s Index n : pfa_ok s -> sealed s -> forall i, 0 <= i -> 0 <= Index -> Index + i < pages s ->
  exists r, range_free (PageBitmap s) Index i n = Ok r /\
    if r : bool then free_run s (Index + i) (Z.of_nat n)
    else ~ free_run s (Index + i) (Z.of_nat n).
Proof.
  intros Hs (Hp & _ & Hlast). pose proof (pages_bound s Hs).
  induction n as [|n IH]; intros i Hi HI Hlt; cbn [range_free].
  - exists true. split; [done|]. split_and!; lia.
  - rewrite wrapu_small by lia. rewrite (Get_ok _ _ (po_bm _ Hs)) by (unfold pages in *; lia). cbn [bind].
    fold (in_use s (Index + i)). destruct (in_use s (Index + i)) eqn:Eu.
    + exists false. split; [done|]. intros (_ & _ & Hfree). rewrite Hfree in Eu by lia. done.
    + assert (Index + i <> pages s - 1) by (intros E; rewrite E in Eu; congruence).
      destruct (IH (i + 1) ltac:(lia) HI ltac:(lia)) as (r & -> & Hr). exists r. split; [done|]. destruct r.
      * destruct Hr as (_ & Hend & Hfree). split_and!; [lia|lia|]. intros j Hj.
        destruct (decide (j = Index + i)) as [->|]; [done|]. apply Hfree. lia.
      * intros (_ & Hend & Hfree). apply Hr. split_and!; [lia|lia|]. intros j Hj. apply Hfree. lia.
Qed.

Lemma find_range_ok s n fuel : pfa_ok s -> sealed s -> 0 < n < 2 ^ 63 -> forall Index, 0 <= Index < 2 ^ 64 ->
  (Z.to_nat (pages s - Index) < fuel)%nat ->
  exists r, find_range s Index n fuel = Ok r /\
    match r with
    | Some k => Index <= k < pages s /\ free_run s k n
    | None => ~ free_run s Index n
    end.
Proof.
  intros Hs Hsl Hn. pose proof (pages_bound s Hs).
  induction fuel as [|f IH]; intros Index HI Hf; [lia|]. cbn [find_range]. rewrite (page_limit_ok s Hs).
  case_decide as Hlt; [|exists None; split; [done|]; intros (_ & ? & _); lia].
  rewrite (Get_ok _ _ (po_bm _ Hs)) by (unfold pages in *; lia). cbn [bind]. fold (in_use s Index).
  destruct (in_use s Index) eqn:Eu.
  - rewrite wrapu_small by lia. destruct (IH (Index + 1) ltac:(lia) ltac:(lia)) as (r & -> & Hr).
    exists r. split; [done|]. destruct r as [k|]; [destruct Hr; split; [lia|done]|].
    intros (_ & _ & Hfree). rewrite Hfree in Eu by lia. done.
  - destruct (range_free_ok s Index (Z.to_nat n) Hs Hsl 0 ltac:(lia) ltac:(lia) ltac:(lia)) as (r & -> & Hr).
    cbn [bind]. rewrite Z.add_0_r, Z2Nat.id in Hr by lia. destruct r; [exists (Some Index); split; [done|]; split; [lia|done]|].
    rewrite (wrapu_small 64 (Index + n)), wrapu_small by lia.
    destruct (decide (Index + n + 1 < pages s)) as [Hin|Hout].
    + destruct (IH (Index + n + 1) ltac:(lia) ltac:(lia)) as (r & -> & Hr').
      exists r. split; [done|]. destruct r as [k|]; [destruct Hr'; split; [lia|done]|done].
    + exists None. split; [|done]. destruct f; [lia|]. cbn [find_range].
      rewrite (page_limit_ok s Hs), decide_False by lia. done.
Qed.

Lemma request_pages_ok n fuel : 0 < n < 2 ^ 63 -> forall s, pfa_ok s -> sealed s ->
  (Z.to_nat (pages s - PageBitmapIndex s) < fuel)%nat ->
  (exists k s', PageBitmapIndex s <= k /\ 0 < k /\ free_run s k n /\
     request_pages_loop s n fuel = Ok (s', k * 4096) /\ marked s s' k n true) \/
  ((forall k, PageBitmapIndex s <= k -> ~ free_run s k n) /\
   exists s', request_pages_loop s n fuel = Ok (s', 0) /\ marked s s' 0 0 true /\ PageBitmapIndex s' = pages s).
Proof.
  intros Hn. induction fuel as [|f IH]; intros s Hs Hsl Hf; [lia|]. cbn [request_pages_loop]. rewrite (page_limit_ok s Hs).
  pose proof (po_index _ Hs) as Hx. pose proof (pages_bound s Hs). case_decide as Hlt.
  - assert (~ free_run s (PageBitmapIndex s) n ->
      let s1 := set_index s (PageBitmapIndex s + 1) in
      (exists k s', PageBitmapIndex s <= k /\ 0 < k /\ free_run s k n /\
         request_pages_loop s1 n f = Ok (s', k * 4096) /\ marked s s' k n true) \/
      ((forall k, PageBitmapIndex s <= k -> ~ free_run s k n) /\
       exists s', request_pages_loop s1 n f = Ok (s', 0) /\ marked s s' 0 0 true /\ PageBitmapIndex s' = pages s)) as Hnext.
    { intros Hno s1. destruct (advance_ok s Hs Hlt) as [Hs1 Ex]. fold s1 in Hs1, Ex.
      destruct (IH s1 Hs1 Hsl ltac:(change (pages s1) with (pages s); lia))
        as [(k & s' & Hk & Hk0 & Hr & E & Hm)|(Hall & s' & E & Hm & Ei)].
      - left. exists k, s'. split_and!; try done; [lia|by eapply marked_index].
      - right. split.
        + intros k Hk. destruct (decide (k = PageBitmapIndex s)) as [->|]; [done|]. apply Hall. lia.
        + exists s'. split_and!; [done|by eapply marked_index|done]. }
    rewrite (Get_ok _ _ (po_bm _ Hs)) by (unfold pages in *; lia). cbn [bind]. fold (in_use s (PageBitmapIndex s)).
    destruct (in_use s (PageBitmapIndex s)) eqn:Eu.
    + apply Hnext. intros (_ & _ & Hfree). rewrite Hfree in Eu by lia. done.
    + destruct (find_range_ok s n (page_fuel s) Hs Hsl Hn (PageBitmapIndex s) ltac:(lia)) as (r & -> & Hr).
      { unfold page_fuel. rewrite (page_limit_ok s Hs). lia. }
      cbn [bind]. destruct r as [k|]; [|by apply Hnext]. destruct Hr as [Hk Hrun]. pose proof Hrun as (Hk0 & Hkn & Hfree).
      left. assert (k <> 0) by (intros ->; destruct Hsl as (_ & H0 & _); rewrite Hfree in H0 by lia; done).
      rewrite (page_address s) by (done || lia).
      destruct (LockPages_ok s k n Hs Hk0 ltac:(lia) Hkn) as (s' & -> & Hm & _). cbn [bind].
      exists k, s'. split_and!; try done; lia.
  - right. split; [intros k Hk (_ & ? & _); lia|]. exists s. split_and!; [done|by apply marked_none|lia].
Qed.

(** ** Boot *)

(** What the free entries of the memory map cover. *)
Definition covers (e : GBPMemoryMapEntry) (i : Z) : bool :=
  is_free e && bool_decide (e_PhysicalAddress e / 4096 <= i < e_PhysicalAddress e / 4096 + e_Pages e).

Definition covered (entries : list GBPMemoryMapEntry) (i : Z) : bool := existsb (fun e => covers e i) entries.

(** A free entry starts on a page and ends inside the bitmap. *)
Definition entry_ok (limit : Z) (e : GBPMemoryMapEntry) : Prop :=
  is_free e = true -> 0 <= e_PhysicalAddress e /\ e_PhysicalAddress e mod 4096 = 0 /\ 0 <= e_Pages e /\
    e_PhysicalAddress e / 4096 + e_Pages e <= limit.

Lemma aligned_page a : a mod 4096 = 0 -> a = a / 4096 * 4096.
Proof. intros E. pose proof (Z.div_mod a 4096 ltac:(lia)). lia. Qed.

Lemma unreserve_entries_ok entries : forall s, pfa_ok s -> Forall (entry_ok (pages s)) entries ->
  exists s', unreserve_entries s entries = Ok s' /\ pfa_ok s' /\ pages s' = pages s /\
    bm_At (PageBitmap s') = bm_At (PageBitmap s) /\ hint_kept s s' /\
    TotalMemory s' = TotalMemory s /\ accounted s' = accounted s /\
    forall i, 0 <= i < pages s -> in_use s' i = in_use s i && negb (covered entries i).
Proof.
  induction entries as [|e entries IH]; intros s Hs He; cbn [unreserve_entries covered existsb].
  - exists s. split_and!; try done. intros i _. by rewrite andb_true_r.
  - apply Forall_cons in He as [He Hes].
    assert (exists s1, (if is_free e then UnreservePages s (e_PhysicalAddress e) (e_Pages e) else Ok s) = Ok s1 /\
      marked s s1 (e_PhysicalAddress e / 4096) (if is_free e then e_Pages e else 0) false /\ hint_kept s s1)
      as (s1 & -> & Hm & Hh).
    { destruct (is_free e) eqn:Ef; [|exists s; split_and!; [done|by apply marked_none|done]].
      destruct (He Ef) as (Ha & Hal & Hn & Hend).
      destruct (UnreservePages_ok s (e_PhysicalAddress e / 4096) (e_Pages e) Hs ltac:(by apply Z.div_pos) Hn Hend) as (s1 & E & Hm).
      rewrite <- (aligned_page _ Hal) in E. by exists s1. }
    cbn [bind]. destruct Hm as [A1 A2 A3 A4 [A5 A6]].
    destruct (IH s1 A1) as (s' & -> & B1 & B2 & B3 & B4 & B5 & B6 & B7); [by rewrite A2|].
    exists s'. split_and!; try done; try congruence; [by transitivity s1|].
    intros i Hi. rewrite B7 by lia. rewrite A4 by done. fold (covered entries i). unfold covers.
    destruct (is_free e); cbn [andb orb]; [|by rewrite decide_False by lia].
    case_decide; [rewrite bool_decide_true by done|rewrite bool_decide_false by done]; cbn; [by rewrite andb_false_r|done].
Qed.

(** The size of the bitmap in pages. *)
Definition bitmap_pages (MemorySize : Z) : Z := ALIGN_UP (MemorySize / 4096 / 8) * 8.

Lemma ALIGN_UP_spec x : 0 <= x < 2 ^ 63 -> x <= ALIGN_UP x < x + 4096 /\ ALIGN_UP x mod 4096 = 0.
Proof.
  intros Hx. unfold ALIGN_UP. rewrite (wrapu_small 64 (x + 0xFFF)) by lia.
  assert (Z.land (x + 0xFFF) (u64 (Z.lnot 0xFFF)) = (x + 0xFFF) / 4096 * 4096) as ->.
  { apply Z.bits_inj'. intros n Hn. rewrite Z.land_spec. change 4096 with (2 ^ 12) at 2.
    unfold wrapu. destruct (decide (n < 12)) as [H12|H12].
    - rewrite Z.mul_pow2_bits_low by lia. rewrite Z.mod_pow2_bits_low by lia.
      rewrite Z.lnot_spec by lia. change 0xFFF with (Z.ones 12). rewrite Z.ones_spec_low by lia. apply andb_false_r.
    - rewrite Z.mul_pow2_bits by lia. change 4096 with (2 ^ 12). rewrite Z.div_pow2_bits by lia.
      replace (n - 12 + 12) with n by lia. destruct (decide (n < 64)).
      + rewrite Z.mod_pow2_bits_low by lia. rewrite Z.lnot_spec by lia. change 0xFFF with (Z.ones 12).
        rewrite Z.ones_spec_high by lia. apply andb_true_r.
      + rewrite Z.mod_pow2_bits_high by lia. rewrite andb_false_r. symmetry. apply (Z.testbit_false _ _ Hn).
        rewrite Z.div_small; [done|]. split; [lia|]. apply Z.lt_le_trans with (2 ^ 64); [lia|].
        apply Z.pow_le_mono_r; lia. }
  pose proof (Z.div_mod (x + 0xFFF) 4096 ltac:(lia)). pose proof (Z.mod_pos_bound (x + 0xFFF) 4096 ltac:(lia)).
  split; [lia|]. by apply Z.mod_mul.
Qed.

(** The state before the map is read: a bitmap of zeros. *)
Lemma InitBitmap_ok s size at_ : 0 <= size < 2 ^ 49 -> PageBitmapIndex s = 0 ->
  pfa_ok (InitBitmap s size at_) /\ pages (InitBitmap s size at_) = size * 8 /\
  forall i, in_use (InitBitmap s size at_) i = false.
Proof.
  intros Hs Hx. split_and!; [|done|].
  - split; [split; cbn|cbn; unfold pages; cbn; lia].
    + lia.
    + rewrite length_replicate. lia.
    + apply Forall_replicate. lia.
  - intros i. unfold in_use, bit. cbn. rewrite nth_lookup.
    destruct (replicate (Z.to_nat size) 0 !! Z.to_nat (i / 8)) as [b|] eqn:E; cbn; [|apply Z.testbit_0_l].
    apply lookup_replicate in E as [-> _]. apply Z.testbit_0_l.
Qed.

Lemma each_page_app op n : forall s a t m s1, each_page op s a t n = Ok s1 ->
  each_page op s a t (n + m) = each_page op s1 a (t + Z.of_nat n) m.
Proof.
  induction n as [|n IH]; intros s a t m s1; cbn [each_page Nat.add].
  - intros [= ->]. by rewrite Z.add_0_r.
  - intros E. inv_bind. match goal with H1 : op s _ = Ok _ |- _ => rewrite H1 end. cbn [bind].
    erewrite IH by eassumption. f_equal. lia.
Qed.

(** ** Properties *)

(** The bitmap inside its size: a bit that is set reads back and no other
    bit changes.  Past it nothing happens, but the index just past the end,
    which the test [index > Size * 8] lets through, is an access outside the
    buffer. *)
Theorem bitmap_correct bm i v : bm_ok bm -> 0 <= i ->
  (i < bm_Size bm * 8 -> exists bm', SetBit bm i v = Ok (bm', true) /\ bm_ok bm' /\
     forall j, 0 <= j < bm_Size bm * 8 -> Get bm' j = if decide (j = i) then Ok v else Get bm j) /\
  (i = bm_Size bm * 8 -> Get bm i = Err OutOfBounds /\ SetBit bm i v = Err OutOfBounds) /\
  (bm_Size bm * 8 < i -> Get bm i = Ok false /\ SetBit bm i v = Ok (bm, false)).
Proof.
  intros Hok Hi. split_and!.
  - intros Hlt. destruct (SetBit_ok bm i v Hok ltac:(lia)) as (bm' & E & Hok' & Es & _ & Hb). exists bm'.
    split_and!; [done|done|]. intros j Hj. rewrite (Get_ok bm') by (done || lia). rewrite (Get_ok bm) by (done || lia).
    rewrite Hb by done. by case_decide.
  - intros ->. split; [by apply Get_past|]. unfold SetBit. rewrite (bm_limit _ Hok), decide_False by lia.
    rewrite Z.div_mul by lia. rewrite aget_oob; [done|]. destruct Hok as [_ Hl _]. lia.
  - intros Hgt. split; [by apply Get_far|]. unfold SetBit. by rewrite (bm_limit _ Hok), decide_True by lia.
Qed.

(** [RequestPage], while the pages below the hint are in use, returns the
    lowest free page and marks only that one, and keeps the hint right; it
    panics exactly when every page is in use. *)
Theorem RequestPage_correct s : pfa_ok s -> hint_ok s ->
  (exists i s', RequestPage s = Ok (s', i * 4096) /\ 0 <= i < pages s /\ in_use s i = false /\
     (forall j, 0 <= j < i -> in_use s j = true) /\ marked s s' i 1 true /\ hint_ok s') \/
  ((forall j, 0 <= j < pages s -> in_use s j = true) /\ RequestPage s = Err Panic).
Proof. apply RequestPage_spec. Qed.

(** C37 [RequestPages] with the first and the last page in use never leaves the
    bitmap and ends: it returns a run of free pages at or after the hint and
    marks exactly these, or NULL, with all marks as before, when there is no
    such run. *)
Theorem RequestPages_correct s n : pfa_ok s -> sealed s -> 0 < n < 2 ^ 63 ->
  (exists k s', RequestPages s n = Ok (s', k * 4096) /\ 0 < k /\ PageBitmapIndex s <= k /\ free_run s k n /\
     marked s s' k n true) \/
  ((forall k, PageBitmapIndex s <= k -> ~ free_run s k n) /\
   exists s', RequestPages s n = Ok (s', 0) /\ marked s s' 0 0 true).
Proof.
  intros Hs Hsl Hn. pose proof (po_index _ Hs) as Hx. unfold RequestPages.
  destruct (request_pages_ok n (page_fuel s) Hn s Hs Hsl) as [(k & s' & Hk & Hk0 & Hr & E & Hm)|(Hall & s' & E & Hm & _)].
  { unfold page_fuel. rewrite (page_limit_ok s Hs). lia. }
  - left. exists k, s'. by split_and!.
  - right. split; [done|]. by exists s'.
Qed.

(** Pages requested and freed: the bitmap and the memory accounted for are
    those of before. *)
Theorem pages_roundtrip s n s' a : pfa_ok s -> sealed s -> 0 < n < 2 ^ 63 -> RequestPages s n = Ok (s', a) -> a <> 0 ->
  exists s'', FreePages s' a n = Ok s'' /\ pfa_ok s'' /\ accounted s'' = accounted s /\
    forall i, 0 <= i < pages s -> in_use s'' i = in_use s i.
Proof.
  intros Hs Hsl Hn E Ha. pose proof (po_index _ Hs) as Hx. unfold RequestPages in E.
  destruct (request_pages_ok n (page_fuel s) Hn s Hs Hsl) as [(k & s1 & Hk & Hk0 & Hr & E1 & Hm)|(_ & s1 & E1 & _)].
  { unfold page_fuel. rewrite (page_limit_ok s Hs). lia. }
  2:{ rewrite E in E1. injection E1 as -> ->. done. }
  rewrite E in E1. injection E1 as -> ->. destruct Hm as [A1 A2 A3 A4 [A5 A6]]. destruct Hr as (Hk1 & Hkn & Hfree).
  destruct (FreePages_ok s1 k n A1 Hk1 ltac:(lia) ltac:(lia)) as (s2 & E2 & [B1 B2 B3 B4 [B5 B6]] & _).
  exists s2. split_and!; [done|done|congruence|]. intros i Hi. rewrite B4 by lia. rewrite A4 by done.
  case_decide; [|done]. symmetry. apply Hfree. lia.
Qed.

(** A request for several pages that fails leaves the hint at the end: the
    next request for a single page panics, whatever pages are free. *)
Theorem failed_request_hides s n s' : pfa_ok s -> sealed s -> 0 < n < 2 ^ 63 -> RequestPages s n = Ok (s', 0) ->
  RequestPage s' = Err Panic /\ forall i, 0 <= i < pages s -> in_use s' i = in_use s i.
Proof.
  intros Hs Hsl Hn E. pose proof (po_index _ Hs) as Hx. unfold RequestPages in E.
  destruct (request_pages_ok n (page_fuel s) Hn s Hs Hsl) as [(k & s1 & Hk & Hk0 & Hr & E1 & Hm)|(_ & s1 & E1 & Hm & Ei)].
  { unfold page_fuel. rewrite (page_limit_ok s Hs). lia. }
  { rewrite E in E1. injection E1 as -> Ek. lia. }
  rewrite E in E1. injection E1 as ->. split.
  - unfold RequestPage, page_fuel. cbn [request_page_loop]. rewrite (page_limit_ok s1 (mk_ok _ _ _ _ _ Hm)).
    rewrite (mk_pages _ _ _ _ _ Hm), decide_False by lia. done.
  - intros i Hi. rewrite (mk_bits _ _ _ _ _ Hm) by done. by rewrite decide_False by lia.
Qed.

(** After the memory map is read, a page is free exactly when it is above
    1 MiB, not part of the bitmap, and covered by a free entry or beyond the
    memory: pages past the end of the memory are handed out as well. *)
Theorem ReadMemoryMap_correct s entries MemorySize :
  let limit := bitmap_pages MemorySize in
  let at_ := (largest_free entries).1 in
  let size := ALIGN_UP (MemorySize / 4096 / 8) in
  Initialized s = false -> PageBitmapIndex s = 0 -> 0 <= MemorySize < 2 ^ 60 -> MemorySize / 4096 + 1 <= limit ->
  0x100 <= limit -> at_ mod 4096 = 0 -> 0 <= at_ -> at_ / 4096 + size / 4096 + 1 <= limit ->
  Forall (entry_ok limit) entries ->
  exists s', ReadMemoryMap s entries MemorySize = Ok s' /\ pfa_ok s' /\ pages s' = limit /\ TotalMemory s' = MemorySize /\
    forall i, 0 <= i < limit ->
      in_use s' i = bool_decide (i < 0x100) || bool_decide (at_ / 4096 <= i < at_ / 4096 + size / 4096 + 1) ||
                  (bool_decide (i < MemorySize / 4096 + 1) && negb (covered entries i)).
Proof.
  intros limit at_ size Hin Hx Hms Hlim H100 Hal Hat Hbm He. unfold ReadMemoryMap. rewrite Hin. fold at_.
  change (0x1000) with 4096. fold size.
  assert (0 <= MemorySize / 4096 / 8 < 2 ^ 45) as Hd.
  { split; [repeat apply Z.div_pos; lia|]. repeat (apply Z.div_lt_upper_bound; [lia|]). lia. }
  destruct (ALIGN_UP_spec (MemorySize / 4096 / 8) ltac:(lia)) as [Hal1 _]. fold size in Hal1.
  set (s0 := mk_pfa _ _ _ _ _ _ _).
  destruct (InitBitmap_ok s0 size at_ ltac:(lia) Hx) as (K0 & P0 & U0). fold limit in P0.
  set (s1 := InitBitmap s0 size at_) in *. change (size * 8) with limit in P0.
  pose proof (Z.div_pos MemorySize 4096 ltac:(lia) ltac:(lia)).
  rewrite (wrapu_small 64 (MemorySize / 4096 + 1)) by (pose proof (pages_bound s1 K0); lia).
  destruct (ReservePages_ok s1 0 (MemorySize / 4096 + 1) K0 ltac:(lia) ltac:(lia) ltac:(lia)) as (s2 & E2 & [A1 A2 A3 A4 [A5 A6]] & _).
  rewrite Z.mul_0_l in E2. rewrite E2. cbn [bind].
  destruct (unreserve_entries_ok entries s2 A1) as (s3 & E3 & B1 & B2 & B3 & _ & B5 & B6 & B7); [by rewrite A2, P0|].
  rewrite E3. cbn [bind].
  destruct (ReservePages_ok s3 0 0x100 B1 ltac:(lia) ltac:(lia) ltac:(lia)) as (s4 & E4 & [C1 C2 C3 C4 [C5 C6]] & _).
  rewrite Z.mul_0_l in E4. rewrite E4. cbn [bind].
  assert (bm_At (PageBitmap s4) = at_) as -> by (rewrite C3, B3, A3; done).
  assert (bm_Size (PageBitmap s4) = size) as ->.
  { assert (pages s4 = size * 8) as Ep by (rewrite C2, B2, A2; exact P0). unfold pages in Ep. lia. }
  pose proof (Z.div_pos at_ 4096 Hat ltac:(lia)). pose proof (Z.div_pos size 4096 ltac:(lia) ltac:(lia)).
  rewrite (wrapu_small 64) by (pose proof (pages_bound s1 K0); lia).
  destruct (LockPages_ok s4 (at_ / 4096) (size / 4096 + 1) C1 ltac:(lia) ltac:(lia) ltac:(lia)) as (s5 & E5 & [D1 D2 D3 D4 [D5 D6]] & _).
  rewrite <- (aligned_page _ Hal) in E5. exists s5. split_and!; [done|done|lia|by rewrite D5, C5, B5, A5|].
  intros i Hi. rewrite D4, C4, B7, A4, U0 by lia.
  assert (forall lo n (b : bool), (if decide (lo <= i < lo + n) then true else b) = bool_decide (lo <= i < lo + n) || b) as Hor
    by (intros; by case_decide; [rewrite bool_decide_true|rewrite bool_decide_false]).
  rewrite !Hor, orb_false_r, <- Z.add_assoc.
  rewrite (bool_decide_ext (0 <= i < 0 + 256) (i < 0x100)), (bool_decide_ext (0 <= i < 0 + (MemorySize / 4096 + 1)) (i < MemorySize / 4096 + 1)) by lia.
  by rewrite orb_assoc, (orb_comm (bool_decide (at_ / 4096 <= i < _))).
Qed.

(** When the memory is a multiple of 128 MiB the bitmap has one bit less
    than the pages that are reserved first: reading the memory map accesses
    the byte after the bitmap. *)
Theorem ReadMemoryMap_overrun s entries m : Initialized s = false -> PageBitmapIndex s = 0 -> 0 < m < 2 ^ 30 ->
  ReadMemoryMap s entries (m * 2 ^ 27) = Err OutOfBounds.
Proof.
  intros Hin Hx Hm. unfold ReadMemoryMap. rewrite Hin. change 0x1000 with 4096.
  replace (m * 2 ^ 27 / 4096) with (m * 4096 * 8) by (apply Z.div_unique_exact; lia).
  rewrite Z.div_mul by lia.
  destruct (ALIGN_UP_spec (m * 4096) ltac:(lia)) as [Hal Hal'].
  assert (ALIGN_UP (m * 4096) = m * 4096) as ->.
  { pose proof (Z.div_mod (ALIGN_UP (m * 4096)) 4096 ltac:(lia)). nia. }
  set (s0 := mk_pfa _ _ _ _ _ _ _).
  destruct (InitBitmap_ok s0 (m * 4096) (largest_free entries).1 ltac:(lia) Hx) as (K0 & P0 & _).
  set (s1 := InitBitmap _ _ _) in *. rewrite (wrapu_small 64) by lia. unfold ReservePages.
  replace (Z.to_nat (m * 4096 * 8 + 1)) with (Z.to_nat (m * 4096 * 8) + 1)%nat by lia.
  destruct (ReservePages_ok s1 0 (m * 4096 * 8) K0 ltac:(lia) ltac:(lia) ltac:(lia)) as (s2 & E2 & Hmk & _).
  unfold ReservePages in E2. rewrite Z.mul_0_l in E2. rewrite (each_page_app _ _ _ _ _ 1 _ E2).
  cbn [each_page]. rewrite wrapu_small by lia. unfold ReservePage.
  replace ((0 + (0 + Z.of_nat (Z.to_nat (m * 4096 * 8))) * 4096) / 4096) with (pages s2).
  - unfold pages. rewrite Get_past; [done|]. apply (po_bm _ (mk_ok _ _ _ _ _ Hmk)).
  - rewrite (mk_pages _ _ _ _ _ Hmk), P0, Z.add_0_l, Z.add_0_l, Z2Nat.id by lia. by rewrite Z.div_mul.
Qed.

(** ** Witnesses *)

(** Sixteen pages, of which 0, 2 and 15 are in use. *)
Definition sample_pfa : PageFrameAllocator :=
  mk_pfa (mk_bitmap 2 0 [0xA0; 0x01]) 0x10000 (13 * 4096) (3 * 4096) 0 0 true.

Lemma sample_pfa_ok : pfa_ok sample_pfa /\ hint_ok sample_pfa /\ sealed sample_pfa.
Proof.
  split_and!; [split; [split|]; cbn; try done; try lia|intros j Hj; cbn in Hj; lia|by vm_compute].
  repeat constructor; lia.
Qed.

Lemma bitmap_correct_witness : exists bm', SetBit (PageBitmap sample_pfa) 5 true = Ok (bm', true) /\ Get bm' 5 = Ok true.
Proof.
  destruct sample_pfa_ok as [Hs _]. destruct (bitmap_correct (PageBitmap sample_pfa) 5 true (po_bm _ Hs) ltac:(lia)) as (Hin & _).
  destruct (Hin ltac:(cbn; lia)) as (bm' & E & _ & Hb). exists bm'. split; [exact E|]. rewrite Hb by (cbn; lia). done.
Defined.

Lemma RequestPage_correct_witness : exists i s', RequestPage sample_pfa = Ok (s', i * 4096) /\ in_use sample_pfa i = false.
Proof.
  destruct sample_pfa_ok as (Hs & Hh & _). destruct (RequestPage_correct sample_pfa Hs Hh) as [(i & s' & E & _ & Hu & _)|[_ E]].
  - exists i, s'. exact (conj E Hu).
  - vm_compute in E. discriminate E.
Defined.

Lemma RequestPages_correct_witness : exists k s', RequestPages sample_pfa 3 = Ok (s', k * 4096) /\ free_run sample_pfa k 3.
Proof.
  destruct sample_pfa_ok as (Hs & _ & Hsl).
  destruct (RequestPages_correct sample_pfa 3 Hs Hsl ltac:(lia)) as [(k & s' & E & _ & _ & Hr & _)|(_ & s' & E & _)].
  - exists k, s'. exact (conj E Hr).
  - vm_compute in E. discriminate E.
Defined.

Lemma pages_roundtrip_witness : exists s' s'', RequestPages sample_pfa 3 = Ok (s', 0x5000) /\
  FreePages s' 0x5000 3 = Ok s'' /\ in_use s'' 4 = in_use sample_pfa 4.
Proof.
  destruct sample_pfa_ok as (Hs & _ & Hsl).
  assert (exists s', RequestPages sample_pfa 3 = Ok (s', 0x5000)) as [s' E] by (eexists; vm_compute; reflexivity).
  destruct (pages_roundtrip sample_pfa 3 s' 0x5000 Hs Hsl ltac:(lia) E ltac:(lia)) as (s'' & E' & _ & _ & Hu).
  exists s', s''. split_and!; [exact E|exact E'|]. apply Hu. unfold pages. cbn. lia.
Defined.

Lemma failed_request_hides_witness : exists s', RequestPages sample_pfa 20 = Ok (s', 0) /\ RequestPage s' = Err Panic /\
  in_use sample_pfa 1 = false.
Proof.
  destruct sample_pfa_ok as (Hs & _ & Hsl).
  assert (exists s', RequestPages sample_pfa 20 = Ok (s', 0)) as [s' E] by (eexists; vm_compute; reflexivity).
  destruct (failed_request_hides sample_pfa 20 s' Hs Hsl ltac:(lia) E) as (Hp & _).
  exists s'. split_and!; [exact E|exact Hp|reflexivity].
Defined.

Lemma ReadMemoryMap_correct_witness : exists s', ReadMemoryMap empty_pfa (convert_entry <$> small_map) 0x200000 = Ok s' /\
  in_use s' 0x300 = false.
Proof.
  destruct (ReadMemoryMap_correct empty_pfa (convert_entry <$> small_map) 0x200000) as (s' & E & _ & _ & _ & Hu);
    [reflexivity|reflexivity|lia|vm_compute; congruence|vm_compute; congruence|reflexivity
    |vm_compute; congruence|vm_compute; congruence| |].
  - repeat (apply Forall_cons; split; [intros _; vm_compute; split_and!; congruence|]). constructor.
  - exists s'. split; [exact E|]. rewrite Hu by (vm_compute; split; congruence). vm_compute. reflexivity.
Defined.

Lemma ReadMemoryMap_overrun_witness : ReadMemoryMap empty_pfa [] (32 * 2 ^ 27) = Err OutOfBounds.
Proof. apply ReadMemoryMap_overrun; [reflexivity|reflexivity|lia]. Defined.
