(* ===== verification/Elf.v ===== *)
(** * ELF files and the symbols of the kernel

    The headers of src/kernel/include/elf.h as offsets into the bytes of a file,
    and src/kernel/Symbols.cpp: the table of the kernel's functions, which the
    constructor sorts in the file itself, and the search for the function that
    an address belongs to.  A pointer into the file is its offset. *)

From S2P Require Import Prelude CString Bytes PageFrame.

Local Open Scope Z_scope.

(** ** Fields and records of a file *)

(** The [n]-byte member at [k] of a structure at offset [o]. *)
Definition field (n : nat) (b : list Z) (o k : Z) : res Z :=
  if decide (0 <= o + k <= Z.of_nat (length b)) then load n b (Z.to_nat (o + k)) else Err OutOfBounds.

(** The bytes of a structure, and an assignment to one. *)
Definition get_bytes (n : nat) (b : list Z) (o : Z) : res (list Z) :=
  if decide (0 <= o /\ o + Z.of_nat n <= Z.of_nat (length b)) then Ok (slice (Z.to_nat o) n b) else Err OutOfBounds.

Definition put_bytes (b : list Z) (o : Z) (w : list Z) : res (list Z) :=
  if decide (0 <= o /\ o + Z.of_nat (length w) <= Z.of_nat (length b)) then Ok (splice (Z.to_nat o) w b) else Err OutOfBounds.

(** [Elf64_Ehdr], at the start of the file. *)
Definition e_ident (b : list Z) (i : Z) : res Z := field 1 b 0 i.
Definition e_type (b : list Z) : res Z := field 2 b 0 16.
Definition e_entry (b : list Z) : res Z := field 8 b 0 24.
Definition e_phoff (b : list Z) : res Z := field 8 b 0 32.
Definition e_shoff (b : list Z) : res Z := field 8 b 0 40.
Definition e_phnum (b : list Z) : res Z := field 2 b 0 56.
Definition e_shentsize (b : list Z) : res Z := field 2 b 0 58.
Definition e_shnum (b : list Z) : res Z := field 2 b 0 60.
Definition e_shstrndx (b : list Z) : res Z := field 2 b 0 62.

Definition EI_CLASS : Z := 4.
Definition ELFCLASS32 : Z := 1.
Definition ELFCLASS64 : Z := 2.
Definition ELFMAG : list Z := [0x7F; 69; 76; 70].
Definition ET_REL : Z := 1.
Definition ET_EXEC : Z := 2.
Definition ET_DYN : Z := 3.

(** [Elf64_Shdr], of 64 bytes, at offset [o]. *)
Definition sizeof_Shdr : Z := 64.
Definition sh_name (b : list Z) (o : Z) : res Z := field 4 b o 0.
Definition sh_type (b : list Z) (o : Z) : res Z := field 4 b o 4.
Definition sh_offset (b : list Z) (o : Z) : res Z := field 8 b o 24.
Definition sh_size (b : list Z) (o : Z) : res Z := field 8 b o 32.
Definition SHT_SYMTAB : Z := 2.
Definition SHT_STRTAB : Z := 3.

(** [Elf64_Sym], of 24 bytes. *)
Definition sizeof_Sym : Z := 24.
Definition st_name (b : list Z) (o : Z) : res Z := field 4 b o 0.
Definition st_value (b : list Z) (o : Z) : res Z := field 8 b o 8.

(** [Elf64_Phdr], of 56 bytes. *)
Definition sizeof_Phdr : Z := 56.
Definition p_type (b : list Z) (o : Z) : res Z := field 4 b o 0.
Definition p_offset (b : list Z) (o : Z) : res Z := field 8 b o 8.
Definition p_vaddr (b : list Z) (o : Z) : res Z := field 8 b o 16.
Definition p_filesz (b : list Z) (o : Z) : res Z := field 8 b o 32.
Definition p_memsz (b : list Z) (o : Z) : res Z := field 8 b o 40.
Definition PT_LOAD : Z := 1.

(** ** The table of symbols *)

(** The name is a pointer into the string table. *)
Record SymbolTable := mk_Symbol { Address : Z; FunctionName : Z }.

(** The globals: [SymTable], with its pages, and [TotalEntries]. *)
Record Symbols := mk_Symbols {
  SymTable : option (Z * list SymbolTable);
  TotalEntries : Z
}.

(** The locals of the constructor: [ElfSymbols], [strtab] and the global
    [TotalEntries]. *)
Record tables := mk_tables {
  ElfSymbols : option Z;
  strtab : option Z;
  entries : Z
}.

(** The loop over the sections, [n] of them from [i] on. *)
Fixpoint find_tables (f : list Z) (shoff shstrndx i : Z) (n : nat) (t : tables) : res tables :=
  match n with
  | O => Ok t
  | S n =>
      let section := shoff + sizeof_Shdr * i in
      let* type := sh_type f section in
      let* t :=
        if decide (type = SHT_SYMTAB) then
          let* offset := sh_offset f section in
          let* size := sh_size f section in
          Ok (mk_tables (Some offset) (strtab t) (size / sizeof_Sym))
        else if decide (type = SHT_STRTAB) then
          if decide (shstrndx = i) then Ok t
          else let* offset := sh_offset f section in Ok (mk_tables (ElfSymbols t) (Some offset) (entries t))
        else Ok t in
      find_tables f shoff shstrndx (i + 1) n t
  end.

(** [ElfSymbols[i]] *)
Definition symbol (sym i : Z) : Z := sym + sizeof_Sym * i.

Fixpoint find_minimum (f : list Z) (sym total Index MinimumIndex : Z) (fuel : nat) : res Z :=
  if decide (Index < total) then
    match fuel with
    | O => Err OutOfFuel
    | S fuel =>
        let* a := st_value f (symbol sym Index) in
        let* b := st_value f (symbol sym MinimumIndex) in
        find_minimum f sym total (u64 (Index + 1)) (if decide (a < b) then Index else MinimumIndex) fuel
    end
  else Ok MinimumIndex.

(** [tmp = s[m]; s[m] = s[i]; s[i] = tmp] *)
Definition swap_symbols (f : list Z) (sym m i : Z) : res (list Z) :=
  let* tmp := get_bytes 24 f (symbol sym m) in
  let* x := get_bytes 24 f (symbol sym i) in
  let* f := put_bytes f (symbol sym m) x in
  put_bytes f (symbol sym i) tmp.

Fixpoint sort_symbols (f : list Z) (sym total i : Z) (fuel : nat) : res (list Z) :=
  if decide (i < u64 (total - 1)) then
    match fuel with
    | O => Err OutOfFuel
    | S fuel =>
        let* m := find_minimum f sym total (u64 (i + 1)) i (S (length f)) in
        let* f := swap_symbols f sym m i in
        sort_symbols f sym total (u64 (i + 1)) fuel
    end
  else Ok f.

(** [while (ElfSymbols[0].st_value == 0)]: the first symbol left and the count. *)
Fixpoint skip_zeros (f : list Z) (sym total : Z) (fuel : nat) : res (Z * Z) :=
  let* v := st_value f (symbol sym 0) in
  if decide (v = 0) then
    match fuel with
    | O => Err OutOfFuel
    | S fuel => skip_zeros f (sym + sizeof_Sym) (u64 (total - 1)) fuel
    end
  else Ok (sym, total).

(** The last loop, for the entries from [i] on. *)
Fixpoint fill_table (f : list Z) (sym str i : Z) (n : nat) : res (list SymbolTable) :=
  match n with
  | O => Ok []
  | S n =>
      let* v := st_value f (symbol sym i) in
      let* nm := st_name f (symbol sym i) in
      let* t := fill_table f sym str (i + 1) n in
      Ok (mk_Symbol v (str + nm) :: t)
  end.

(** [(TotalEntries * sizeof(SymbolTable)) / PAGE_SIZE + 1] *)
Definition table_pages (total : Z) : Z := u64 (u64 (total * 16) / 4096 + 1).

(** Both tables are there: the part of the constructor that makes [SymTable]. *)
Definition build_table (alloc : PageFrameAllocator) (f : list Z) (sym str total : Z) : res (PageFrameAllocator * list Z * Symbols) :=
  let* f := sort_symbols f sym total 0 (S (length f)) in
  let* '(sym, total) := skip_zeros f sym total (S (length f)) in
  let* '(alloc, table) := RequestPages alloc (table_pages total) in
  let* l := fill_table f sym str 0 (Z.to_nat total) in
  if decide (table = 0) then Err NullDeref
  else Ok (alloc, f, mk_Symbols (Some (table, l)) total).

(** The constructor: the allocator, the file after sorting, and the table. *)
Definition Symbols_new (alloc : PageFrameAllocator) (f : list Z) : res (PageFrameAllocator * list Z * Symbols) :=
  let* shoff := e_shoff f in
  let* shnum := e_shnum f in
  let* shstrndx := e_shstrndx f in
  let* t := find_tables f shoff shstrndx 0 (Z.to_nat shnum) (mk_tables None None 0) in
  match ElfSymbols t, strtab t with
  | Some sym, Some str => build_table alloc f sym str (entries t)
  | _, _ => Ok (alloc, f, mk_Symbols None (entries t))
  end.

Definition Symbols_delete (alloc : PageFrameAllocator) (s : Symbols) : res PageFrameAllocator :=
  FreePages alloc (match SymTable s with Some (table, _) => table | None => 0 end) (table_pages (TotalEntries s)).

(** [Result] starts as address 0 with the name "<unknown>", here [None]. *)
Fixpoint search_symbols (l : list SymbolTable) (n : nat) (Address_ : Z) (Result : Z * option Z) : res (option Z) :=
  match n with
  | O => Ok (snd Result)
  | S n =>
      match l with
      | [] => Err OutOfBounds
      | s :: l =>
          search_symbols l n Address_
            (if decide (Address s <= Address_ /\ fst Result < Address s) then (Address s, Some (FunctionName s)) else Result)
      end
  end.

Definition GetSymbolFromAddress (s : Symbols) (Address_ : Z) : res (option Z) :=
  match SymTable s with
  | Some (_, l) => search_symbols l (Z.to_nat (TotalEntries s)) Address_ (0, None)
  | None => if decide (TotalEntries s = 0) then Ok None else Err NullDeref
  end.
