(* ===== verification/ElfSpec.v ===== *)
(** * The symbols of the kernel are found

    The entries of the symbol table as chunks of the file, the selection sort
    on them, and the theorem on the search. *)

From stdpp Require Import sorting.
From S2P Require Import Prelude CString Bytes PageFrame PageFrameSpec Elf.

Local Open Scope Z_scope.

(** ** Fields *)

Lemma field_ok n b o k : 0 <= o + k -> o + k + Z.of_nat n <= Z.of_nat (length b) ->
  field n b o k = Ok (le_value (slice (Z.to_nat (o + k)) n b)).
Proof. intros H0 H. unfold field. rewrite decide_True by lia. rewrite wire_load_ok by lia. done. Qed.

Lemma slice_slice {A} i n j m (l : list A) : (i + n <= m)%nat -> slice i n (slice j m l) = slice (j + i) n l.
Proof. intros H. unfold slice. rewrite <- drop_drop, skipn_firstn_comm, take_take. f_equal; lia. Qed.

Lemma slice_bytes i n b : bytes_ok b -> bytes_ok (slice i n b).
Proof. intros H. apply Forall_take, Forall_drop, H. Qed.

(** ** The table in the file *)

Section chunks.
Context (pre post : list Z).

(** The file with the entries [cs], of 24 bytes each. *)
Definition with_symbols (cs : list (list Z)) : list Z := pre ++ concat cs ++ post.
Definition chunks_ok (cs : list (list Z)) : Prop := Forall (fun c => length c = 24%nat) cs.
Definition place (i : nat) : Z := symbol (Z.of_nat (length pre)) (Z.of_nat i).

Definition value (c : list Z) : Z := le_value (slice 8 8 c).
Definition name (c : list Z) : Z := le_value (slice 0 4 c).

Lemma place_nat i : Z.to_nat (place i) = (length pre + 24 * i)%nat.
Proof. unfold place, symbol, sizeof_Sym. lia. Qed.

Lemma length_chunks cs : chunks_ok cs -> length (concat cs) = (24 * length cs)%nat.
Proof. induction 1 as [|c cs Hc _ IH]; [done|]. cbn. rewrite length_app. lia. Qed.

Lemma chunks_split cs i c : chunks_ok cs -> cs !! i = Some c ->
  exists l1 l2, with_symbols cs = l1 ++ c ++ l2 /\ length l1 = (length pre + 24 * i)%nat /\ length c = 24%nat /\
    forall w, with_symbols (<[i := w]> cs) = l1 ++ w ++ l2.
Proof.
  intros Hcs Hc. exists (pre ++ concat (take i cs)), (concat (drop (S i) cs) ++ post). pose proof (lookup_lt_Some _ _ _ Hc) as Hi.
  split_and!.
  - unfold with_symbols. rewrite <- (take_drop_middle cs i c) at 1 by done. rewrite concat_app. cbn. by rewrite <- !app_assoc.
  - rewrite length_app, length_chunks, length_take by (by apply Forall_take). lia.
  - by eapply (Forall_lookup_1 _ _ _ _ Hcs).
  - intros w. unfold with_symbols. rewrite insert_take_drop by done. rewrite concat_app. cbn. by rewrite <- !app_assoc.
Qed.

Lemma get_chunk cs i c : chunks_ok cs -> cs !! i = Some c -> get_bytes 24 (with_symbols cs) (place i) = Ok c.
Proof.
  intros Hcs Hc. destruct (chunks_split cs i c Hcs Hc) as (l1 & l2 & E & H1 & H2 & _).
  unfold get_bytes. rewrite E, place_nat, decide_True by (rewrite !length_app; unfold place, symbol, sizeof_Sym; lia).
  unfold slice. by rewrite drop_app_length', take_app_length' by lia.
Qed.

Lemma put_chunk cs i w : chunks_ok cs -> (i < length cs)%nat -> length w = 24%nat ->
  put_bytes (with_symbols cs) (place i) w = Ok (with_symbols (<[i := w]> cs)).
Proof.
  intros Hcs Hi Hw. destruct (lookup_lt_is_Some_2 cs i Hi) as [c Hc].
  destruct (chunks_split cs i c Hcs Hc) as (l1 & l2 & E & H1 & H2 & E').
  unfold put_bytes. rewrite (E' w), E, place_nat, decide_True by (rewrite !length_app; unfold place, symbol, sizeof_Sym; lia).
  unfold splice. rewrite take_app_length' by lia. do 3 f_equal. rewrite app_assoc, drop_app_length' by (rewrite length_app; lia). done.
Qed.

Lemma chunk_field cs i c n k : chunks_ok cs -> cs !! i = Some c -> (k + n <= 24)%nat ->
  field n (with_symbols cs) (place i) (Z.of_nat k) = Ok (le_value (slice k n c)).
Proof.
  intros Hcs Hc Hk. destruct (chunks_split cs i c Hcs Hc) as (l1 & l2 & E & H1 & H2 & _).
  rewrite field_ok by (rewrite ?E, ?length_app; unfold place, symbol, sizeof_Sym; lia). do 2 f_equal.
  replace (Z.to_nat (place i + Z.of_nat k)) with (length l1 + k)%nat by (unfold place, symbol, sizeof_Sym; lia).
  rewrite E. unfold slice. rewrite <- drop_drop, drop_app_length, drop_app_le, take_app_le by (rewrite ?length_drop; lia). done.
Qed.

Lemma st_value_ok cs i c : chunks_ok cs -> cs !! i = Some c -> st_value (with_symbols cs) (place i) = Ok (value c).
Proof. intros Hcs Hc. unfold st_value. change 8 with (Z.of_nat 8). apply (chunk_field cs i c 8 8); (done || lia). Qed.

Lemma st_name_ok cs i c : chunks_ok cs -> cs !! i = Some c -> st_name (with_symbols cs) (place i) = Ok (name c).
Proof. intros Hcs Hc. unfold st_name. change 0 with (Z.of_nat 0). apply (chunk_field cs i c 4 0); (done || lia). Qed.

(** ** Sorting *)

(** The first [i] entries are in order and not above the others. *)
Definition ordered (i : nat) (cs : list (list Z)) : Prop :=
  forall j k x y, cs !! j = Some x -> cs !! k = Some y -> (j < i)%nat -> (j < k)%nat -> value x <= value y.

Lemma swap_symbols_ok cs m i a b : chunks_ok cs -> cs !! m = Some a -> cs !! i = Some b ->
  swap_symbols (with_symbols cs) (Z.of_nat (length pre)) (Z.of_nat m) (Z.of_nat i) = Ok (with_symbols (<[i := a]> (<[m := b]> cs))).
Proof.
  intros Hcs Ha Hb. unfold swap_symbols. change (symbol _ (Z.of_nat m)) with (place m). change (symbol _ (Z.of_nat i)) with (place i).
  rewrite (get_chunk cs m a), (get_chunk cs i b) by done. cbn [bind]. pose proof (Forall_lookup_1 _ _ _ _ Hcs Ha) as La.
  pose proof (Forall_lookup_1 _ _ _ _ Hcs Hb) as Lb. cbn in La, Lb. pose proof (lookup_lt_Some _ _ _ Ha). pose proof (lookup_lt_Some _ _ _ Hb).
  rewrite put_chunk by done. cbn [bind]. rewrite put_chunk; [done| |by rewrite length_insert|done]. by apply Forall_insert.
Qed.

Lemma find_minimum_ok cs fuel : chunks_ok cs -> Z.of_nat (length cs) < 2 ^ 64 -> forall Index m (c : list Z),
  (m < Index <= length cs)%nat -> (length cs - Index < fuel)%nat -> cs !! m = Some c ->
  exists m' c', find_minimum (with_symbols cs) (Z.of_nat (length pre)) (Z.of_nat (length cs)) (Z.of_nat Index) (Z.of_nat m) fuel = Ok (Z.of_nat m') /\
    cs !! m' = Some c' /\ (m' = m \/ (Index <= m')%nat) /\ value c' <= value c /\
    forall k y, (Index <= k)%nat -> cs !! k = Some y -> value c' <= value y.
Proof.
  intros Hcs HZ. induction fuel as [|fuel IH]; intros Index m c Hm Hf Hc; [lia|]. cbn [find_minimum].
  destruct (decide (Index = length cs)) as [->|Hne].
  { rewrite decide_False by lia. exists m, c. split_and!; [done|done|by left|lia|]. intros k y Hk Hy. apply lookup_lt_Some in Hy. lia. }
  rewrite decide_True by lia. destruct (lookup_lt_is_Some_2 cs Index ltac:(lia)) as [d Hd].
  change (symbol _ (Z.of_nat Index)) with (place Index). change (symbol _ (Z.of_nat m)) with (place m).
  rewrite (st_value_ok cs Index d), (st_value_ok cs m c) by done. cbn [bind]. rewrite wrapu_small by lia.
  replace (Z.of_nat Index + 1) with (Z.of_nat (S Index)) by lia.
  assert (exists m1 c1, (if decide (value d < value c) then Z.of_nat Index else Z.of_nat m) = Z.of_nat m1 /\ cs !! m1 = Some c1 /\
    (m1 = m \/ m1 = Index) /\ value c1 <= value c /\ value c1 <= value d) as (m1 & c1 & -> & Hc1 & H1 & H2 & H3).
  { case_decide; [exists Index, d|exists m, c]; split_and!; (done || lia || auto). }
  destruct (IH (S Index) m1 c1) as (m' & c' & E & Hc' & H4 & H5 & H6); [lia|lia|done|].
  exists m', c'. split_and!; [done|done|lia|lia|]. intros k y Hk Hy.
  destruct (decide (k = Index)) as [->|]; [|apply (H6 k); [lia|done]]. assert (y = d) as -> by congruence. lia.
Qed.

Lemma ordered_step cs i m a b : ordered i cs -> cs !! i = Some b -> cs !! m = Some a -> (i <= m)%nat ->
  (forall k y, (i <= k)%nat -> cs !! k = Some y -> value a <= value y) -> ordered (S i) (<[i := a]> (<[m := b]> cs)).
Proof.
  intros Ho Hb Ha Him Hmin. pose proof (lookup_lt_Some _ _ _ Ha) as Lm.
  assert (forall n z, <[i := a]> (<[m := b]> cs) !! n = Some z -> exists n', cs !! n' = Some z /\
    ((n < i)%nat -> n' = n) /\ ((i <= n)%nat -> (i <= n')%nat) /\ (n = i -> z = a)) as Hl.
  { intros n z. destruct (decide (n = i)) as [->|Hn].
    - rewrite list_lookup_insert_eq by (rewrite length_insert; lia). intros [= <-]. exists m. split_and!; (done || lia).
    - rewrite list_lookup_insert_ne by done. destruct (decide (n = m)) as [->|Hm].
      + rewrite list_lookup_insert_eq by done. intros [= <-]. exists i. split_and!; (done || lia).
      + rewrite list_lookup_insert_ne by done. intros Hz. exists n. split_and!; (done || lia). }
  intros j k x y (j' & Hj' & J1 & J2 & J3)%Hl (k' & Hk' & K1 & K2 & K3)%Hl Hji Hjk.
  destruct (decide (j = i)) as [->|].
  - rewrite J3 by done. apply (Hmin k'); [lia|done].
  - rewrite (J1 ltac:(lia)) in Hj'. apply (Ho j k' x y); (done || lia).
Qed.

Lemma sort_ok fuel : forall cs i, chunks_ok cs -> Z.of_nat (length cs) < 2 ^ 64 -> (i < length cs)%nat -> (length cs - i <= fuel)%nat -> ordered i cs ->
  exists cs', sort_symbols (with_symbols cs) (Z.of_nat (length pre)) (Z.of_nat (length cs)) (Z.of_nat i) fuel = Ok (with_symbols cs') /\
    cs' ≡ₚ cs /\ chunks_ok cs' /\ ordered (length cs') cs'.
Proof.
  induction fuel as [|fuel IH]; intros cs i Hcs HZ Hi Hf Ho; [lia|]. cbn [sort_symbols]. rewrite (wrapu_small 64 (_ - 1)) by lia. case_decide as Hlt.
  - rewrite wrapu_small by lia. replace (Z.of_nat i + 1) with (Z.of_nat (S i)) by lia.
    destruct (lookup_lt_is_Some_2 cs i Hi) as [b Hb].
    destruct (find_minimum_ok cs (S (length (with_symbols cs))) Hcs HZ (S i) i b) as (m & a & -> & Ha & Hm & Hab & Hmin); [lia| |done|].
    { unfold with_symbols. rewrite !length_app, length_chunks by done. lia. }
    cbn [bind]. rewrite (swap_symbols_ok cs m i a b) by done. cbn [bind].
    pose proof (Permutation_insert_swap cs m i a b Ha Hb) as Hp.
    replace (length cs) with (length (<[i:=a]> (<[m:=b]> cs))) by (by rewrite !length_insert).
    destruct (IH (<[i := a]> (<[m := b]> cs)) (S i)) as (cs' & E & Hp' & Hc' & Ho').
    + unfold chunks_ok. by rewrite Hp.
    + by rewrite !length_insert.
    + rewrite !length_insert. lia.
    + rewrite !length_insert. lia.
    + apply ordered_step; [done|done|done|lia|]. intros k y Hk Hy. destruct (decide (k = i)) as [->|]; [|apply (Hmin k); [lia|done]].
      assert (y = b) as -> by congruence. lia.
    + exists cs'. split_and!; [done|by rewrite Hp'|done|done].
  - exists cs. split_and!; [done|done|done|]. intros j k x y Hx Hy Hj Hjk. apply (Ho j k x y); try done.
    apply lookup_lt_Some in Hy. lia.
Qed.

(** ** The table *)

Lemma skip_ok cs fuel : chunks_ok cs -> forall i, (i <= length cs)%nat -> Z.of_nat (length cs) < 2 ^ 64 -> (length cs - i <= fuel)%nat ->
  (exists k c, (i <= k)%nat /\ cs !! k = Some c /\ value c <> 0) ->
  exists k, skip_zeros (with_symbols cs) (place i) (Z.of_nat (length cs - i)) fuel = Ok (place k, Z.of_nat (length cs - k)) /\
    (i <= k < length cs)%nat /\ (forall j c, (i <= j < k)%nat -> cs !! j = Some c -> value c = 0) /\
    (exists c, cs !! k = Some c /\ value c <> 0).
Proof.
  intros Hcs. induction fuel as [|fuel IH]; intros i Hi HZ Hf (k & c & Hk & Hc & Hv); pose proof (lookup_lt_Some _ _ _ Hc); [lia|].
  destruct (lookup_lt_is_Some_2 cs i ltac:(lia)) as [d Hd]. cbn [skip_zeros].
  replace (symbol (place i) 0) with (place i) by (unfold symbol; lia). rewrite (st_value_ok cs i d) by done. cbn [bind]. case_decide as Hz.
  - destruct (decide (k = i)) as [->|]; [congruence|]. rewrite wrapu_small by lia.
    replace (place i + sizeof_Sym) with (place (S i)) by (unfold place, symbol; lia).
    replace (Z.of_nat (length cs - i) - 1) with (Z.of_nat (length cs - S i)) by lia.
    destruct (IH (S i)) as (k' & E & Hk' & Hall & Hc'); [lia|done|lia|exists k, c; split_and!; [lia|done|done]|].
    exists k'. split_and!; [done|lia|lia| |done]. intros j x Hj Hx. destruct (decide (j = i)) as [->|]; [congruence|].
    apply (Hall j); [lia|done].
  - exists i. split_and!; [done|lia|lia| |by exists d]. intros j x Hj. lia.
Qed.

(** What an entry becomes in the table. *)
Definition symbol_of (str : Z) (c : list Z) : SymbolTable := mk_Symbol (value c) (str + name c).

Lemma fill_ok cs str n : chunks_ok cs -> forall k i, (k + i + n = length cs)%nat ->
  fill_table (with_symbols cs) (place k) str (Z.of_nat i) n = Ok (symbol_of str <$> drop (k + i) cs).
Proof.
  intros Hcs. induction n as [|n IH]; intros k i Hn; cbn [fill_table].
  - by rewrite drop_ge by lia.
  - destruct (lookup_lt_is_Some_2 cs (k + i) ltac:(lia)) as [c Hc].
    replace (symbol (place k) (Z.of_nat i)) with (place (k + i)) by (unfold place, symbol; lia).
    rewrite (st_value_ok _ _ c), (st_name_ok _ _ c) by done. cbn [bind]. replace (Z.of_nat i + 1) with (Z.of_nat (S i)) by lia.
    rewrite IH by lia. cbn [bind]. rewrite (drop_S _ _ _ Hc). by rewrite Nat.add_succ_r.
Qed.
End chunks.

(** The entries of a table of [n] symbols at offset [sym]. *)
Definition symtab (f : list Z) (sym n : nat) : list (list Z) := (fun i => slice (sym + 24 * i) 24 f) <$> seq 0 n.

Lemma slice_add {A} i n m (l : list A) : slice i (n + m) l = slice i n l ++ slice (i + n) m l.
Proof.
  unfold slice. rewrite <- drop_drop. generalize (drop i l). intros k. destruct (decide (n <= length k)%nat).
  - rewrite <- (take_drop n k) at 1. rewrite take_app_ge by (rewrite length_take; lia). rewrite length_take. do 2 f_equal. lia.
  - rewrite !take_ge, drop_ge, take_nil, app_nil_r by lia. done.
Qed.

Lemma concat_symtab f n : forall sym, concat (symtab f sym n) = slice sym (24 * n) f.
Proof.
  induction n as [|n IH]; intros sym; [done|]. unfold symtab in *. replace (24 * S n)%nat with (24 + 24 * n)%nat by lia.
  rewrite slice_add, <- IH. cbn [seq fmap list_fmap concat]. rewrite Nat.mul_0_r, Nat.add_0_r. f_equal. f_equal.
  rewrite <- (fmap_S_seq 0 n), <- list_fmap_compose. apply list_fmap_ext. intros i x _. cbn. f_equal. lia.
Qed.

Lemma symtab_file f sym n : (sym + 24 * n <= length f)%nat ->
  with_symbols (take sym f) (drop (sym + 24 * n) f) (symtab f sym n) = f.
Proof.
  intros H. unfold with_symbols. rewrite concat_symtab. unfold slice. rewrite <- drop_drop, take_drop. apply take_drop.
Qed.

Lemma symtab_ok f sym n : (sym + 24 * n <= length f)%nat -> chunks_ok (symtab f sym n).
Proof.
  intros H. apply Forall_forall. intros c (i & -> & Hi)%list_elem_of_fmap. apply elem_of_seq in Hi. unfold slice.
  rewrite length_take, length_drop. lia.
Qed.

Lemma symtab_value f sym n c : bytes_ok f -> c ∈ symtab f sym n -> 0 <= value c.
Proof.
  intros Hf (i & -> & Hi)%list_elem_of_fmap. unfold value. apply le_value_range. by apply slice_bytes, slice_bytes.
Qed.

(** ** The sections *)

(** A section is not the symbol table or is the one at [sym] with [n] entries,
    and is not a table of strings, or that of the names of sections, or the one at [str]. *)
Definition section_ok (f : list Z) (shoff shstrndx sym str : Z) (n : nat) (i : Z) : Prop :=
  exists type, sh_type f (shoff + 64 * i) = Ok type /\
    (type = SHT_SYMTAB -> sh_offset f (shoff + 64 * i) = Ok sym /\
       exists size, sh_size f (shoff + 64 * i) = Ok size /\ size / 24 = Z.of_nat n) /\
    (type = SHT_STRTAB -> i = shstrndx \/ sh_offset f (shoff + 64 * i) = Ok str).

(** The file of a kernel with [n] symbols at [sym] and their names at [str]. *)
Record kernel_file (f : list Z) (shoff shnum shstrndx sym str : Z) (n : nat) : Prop := {
  kf_bytes : bytes_ok f;
  kf_shoff : e_shoff f = Ok shoff;
  kf_shnum : e_shnum f = Ok shnum;
  kf_shstrndx : e_shstrndx f = Ok shstrndx;
  kf_sections i : 0 <= i < shnum -> section_ok f shoff shstrndx sym str n i;
  kf_symtab : exists i, 0 <= i < shnum /\ sh_type f (shoff + 64 * i) = Ok SHT_SYMTAB;
  kf_strtab : exists i, 0 <= i < shnum /\ i <> shstrndx /\ sh_type f (shoff + 64 * i) = Ok SHT_STRTAB;
  kf_table : 0 <= sym /\ sym + 24 * Z.of_nat n <= Z.of_nat (length f);
  kf_size : Z.of_nat (length f) < 2 ^ 63
}.

Section sections.
Context (f : list Z) (shoff shstrndx sym str : Z) (n : nat).

Definition found_symtab (t : tables) : Prop := ElfSymbols t = Some sym /\ entries t = Z.of_nat n.
Definition found_strtab (t : tables) : Prop := strtab t = Some str.

Lemma find_tables_ok k : forall i t, (forall j, i <= j < i + Z.of_nat k -> section_ok f shoff shstrndx sym str n j) ->
  exists t', find_tables f shoff shstrndx i k t = Ok t' /\
    (found_symtab t \/ (exists j, i <= j < i + Z.of_nat k /\ sh_type f (shoff + 64 * j) = Ok SHT_SYMTAB) -> found_symtab t') /\
    (found_strtab t \/ (exists j, i <= j < i + Z.of_nat k /\ j <> shstrndx /\ sh_type f (shoff + 64 * j) = Ok SHT_STRTAB) -> found_strtab t').
Proof.
  induction k as [|k IH]; intros i t Hs; cbn [find_tables].
  - exists t. split; [done|]. split; (intros [?|(j & Hj & _)]; [done|lia]).
  - destruct (Hs i ltac:(lia)) as (type & Et & Hsym & Hstr). unfold sizeof_Shdr. rewrite Et. cbn [bind].
    assert (forall j, i + 1 <= j < i + 1 + Z.of_nat k -> section_ok f shoff shstrndx sym str n j) as Hs' by (intros; apply Hs; lia).
    assert (forall (P : Z -> Prop), (exists j, i <= j < i + Z.of_nat (S k) /\ P j) -> P i \/ exists j, i + 1 <= j < i + 1 + Z.of_nat k /\ P j) as Hex.
    { intros P (j & Hj & HP). destruct (decide (j = i)) as [->|]; [by left|right; exists j; split; [lia|done]]. }
    assert (exists t1, (if decide (type = SHT_SYMTAB) then
        let* offset := sh_offset f (shoff + 64 * i) in let* size := sh_size f (shoff + 64 * i) in Ok (mk_tables (Some offset) (strtab t) (size / sizeof_Sym))
      else if decide (type = SHT_STRTAB) then if decide (shstrndx = i) then Ok t
        else let* offset := sh_offset f (shoff + 64 * i) in Ok (mk_tables (ElfSymbols t) (Some offset) (entries t))
      else Ok t) = Ok t1 /\ (found_symtab t \/ type = SHT_SYMTAB -> found_symtab t1) /\
      (found_strtab t \/ (i <> shstrndx /\ type = SHT_STRTAB) -> found_strtab t1)) as (t1 & -> & T1 & T2).
    { case_decide as D1; [|case_decide as D2; [case_decide as D3|]].
      - destruct (Hsym D1) as (-> & size & -> & Hn). eexists. split; [reflexivity|]. split; [intros _; by split|].
        intros [?|[_ ?]]; [done|]. rewrite D1 in *. done.
      - exists t. split; [done|]. split; [intros [?|?]; done|]. intros [?|[? _]]; congruence.
      - destruct (Hstr D2) as [?| ->]; [congruence|]. eexists. split; [reflexivity|]. split; [intros [?|?]; done|]. done.
      - exists t. split; [done|]. split; (intros [?|?]; [done|tauto]). }
    cbn [bind]. destruct (IH (i + 1) t1 Hs') as (t' & E & H1 & H2). exists t'. split; [done|]. split.
    + intros H. apply H1. destruct H as [H|H]; [auto|]. apply (Hex (fun j => sh_type f (shoff + 64 * j) = Ok SHT_SYMTAB)) in H as [H|H]; [|by right].
      left. apply T1. right. congruence.
    + intros H. apply H2. destruct H as [H|H]; [auto|].
      apply (Hex (fun j => j <> shstrndx /\ sh_type f (shoff + 64 * j) = Ok SHT_STRTAB)) in H as [[Hi H]|H]; [|by right].
      left. apply T2. right. split; congruence.
Qed.
End sections.

(** ** The search *)

(** The name of a symbol of greatest value among those that are not zero and
    not above [a]; [None] when there is none. *)
Definition nearest (cs : list (list Z)) (str a : Z) (r : option Z) : Prop :=
  match r with
  | None => forall c, c ∈ cs -> value c = 0 \/ a < value c
  | Some p => exists c, c ∈ cs /\ p = str + name c /\ 0 < value c <= a /\ forall c', c' ∈ cs -> value c' <= a -> value c' <= value c
  end.

Lemma search_symbols_ok a : forall l m r, exists r', search_symbols l (length l) a (m, r) = Ok r' /\
  ((r' = r /\ forall s, s ∈ l -> Address s <= a -> Address s <= m) \/
   exists s, s ∈ l /\ r' = Some (FunctionName s) /\ m < Address s <= a /\ forall s', s' ∈ l -> Address s' <= a -> Address s' <= Address s).
Proof.
  induction l as [|s l IH]; intros m r; cbn [search_symbols length].
  - exists r. split; [done|]. left. split; [done|]. intros s Hs. by apply not_elem_of_nil in Hs.
  - case_decide as Hd; cbn [fst] in Hd.
    + destruct (IH (Address s) (Some (FunctionName s))) as (r' & -> & H). exists r'. split; [done|]. right.
      destruct H as [[-> H]|(s1 & Hs1 & -> & H1 & H2)].
      * exists s. split_and!; [left|done|lia|lia|]. intros s' [->|Hs']%elem_of_cons Ha; [lia|by apply H].
      * exists s1. split_and!; [by right|done|lia|lia|]. intros s' [->|Hs']%elem_of_cons Ha; [lia|by apply H2].
    + destruct (IH m r) as (r' & -> & H). exists r'. split; [done|]. destruct H as [[-> H]|(s1 & Hs1 & -> & H1 & H2)].
      * left. split; [done|]. intros s' [->|Hs']%elem_of_cons Ha; [lia|by apply H].
      * right. exists s1. split_and!; [by right|done|lia|lia|]. intros s' [->|Hs']%elem_of_cons Ha; [lia|by apply H2].
Qed.

Lemma nearest_ok cs l str a r : Forall (fun c => 0 <= value c) cs -> l ≡ₚ symbol_of str <$> filter (fun c => value c <> 0) cs ->
  search_symbols l (length l) a (0, None) = Ok r -> nearest cs str a r.
Proof.
  intros Hcs Hl E. destruct (search_symbols_ok a l 0 None) as (r' & E' & H). rewrite E in E'. injection E' as <-.
  rewrite Forall_forall in Hcs.
  assert (forall s, s ∈ l <-> exists c, s = symbol_of str c /\ c ∈ cs /\ value c <> 0) as Hin.
  { intros s. rewrite Hl, list_elem_of_fmap. setoid_rewrite list_elem_of_filter. naive_solver. }
  destruct H as [[-> H]|(s & Hs & -> & H1 & H2)]; cbn [nearest].
  - intros c Hc. destruct (decide (value c = 0)); [by left|]. right. specialize (Hcs c Hc).
    destruct (decide (value c <= a)) as [Hle|]; [|lia]. specialize (H (symbol_of str c) ltac:(apply Hin; eauto) Hle). cbn in H. lia.
  - apply Hin in Hs as (c & -> & Hc & Hv). cbn in *. exists c. split_and!; [done|done|lia|lia|]. intros c' Hc' Hle.
    destruct (decide (value c' = 0)); [lia|]. by apply (H2 (symbol_of str c')); [apply Hin; eauto|].
Qed.

(** Sorted entries without the zeros in front. *)
Lemma drop_zeros cs k : Forall (fun c => 0 <= value c) cs -> ordered (length cs) cs ->
  (forall j c, (j < k)%nat -> cs !! j = Some c -> value c = 0) -> (exists c, cs !! k = Some c /\ value c <> 0) ->
  filter (fun c => value c <> 0) cs = drop k cs.
Proof.
  intros Hcs Ho Hz (c0 & Hc0 & Hv). rewrite <- (take_drop k cs) at 1. rewrite filter_app.
  assert (filter (fun c => value c <> 0) (take k cs) = []) as ->.
  { destruct (filter _ (take k cs)) as [|x l] eqn:E; [done|].
    assert (x ∈ filter (fun c => value c <> 0) (take k cs)) as Hx by (rewrite E; left).
    apply list_elem_of_filter in Hx as [Hx (j & Hj)%list_elem_of_lookup]. apply lookup_take_Some in Hj as [Hj Hjk].
    by destruct (Hx (Hz j x Hjk Hj)). }
  cbn [app]. assert (Forall (fun c => value c <> 0) (drop k cs)) as H.
  { apply Forall_forall. intros x (j & Hj)%list_elem_of_lookup. rewrite lookup_drop in Hj. destruct j as [|j].
    - rewrite Nat.add_0_r in Hj. congruence.
    - pose proof (lookup_lt_Some _ _ _ Hj). specialize (Ho k (k + S j)%nat c0 x Hc0 Hj ltac:(lia) ltac:(lia)).
      pose proof (proj1 (Forall_lookup _ _) Hcs k c0 Hc0) as H0. cbn in H0. lia. }
  clear -H. induction H as [|x l Hx _ IH]; [done|]. rewrite filter_cons_True by done. by rewrite IH.
Qed.

(** [l] is in the order of the addresses. *)
Definition by_address (l : list SymbolTable) : Prop :=
  forall j k x y, l !! j = Some x -> l !! k = Some y -> (j < k)%nat -> Address x <= Address y.

Lemma ordered_table cs str k : ordered (length cs) cs -> by_address (symbol_of str <$> drop k cs).
Proof.
  intros Ho i j x y Hx Hy Hij. apply list_lookup_fmap_Some in Hx as (c & -> & Hc), Hy as (d & -> & Hd).
  rewrite lookup_drop in Hc, Hd. cbn. pose proof (lookup_lt_Some _ _ _ Hc). apply (Ho (k + i)%nat (k + j)%nat); (done || lia).
Qed.

(** Sorting, skipping the zeros and filling the table. *)
Lemma build_ok alloc f sym n str alloc' table : bytes_ok f -> (sym + 24 * n <= length f)%nat -> Z.of_nat (length f) < 2 ^ 63 ->
  let nonzero := filter (fun c => value c <> 0) (symtab f sym n) in
  nonzero <> [] -> RequestPages alloc (table_pages (Z.of_nat (length nonzero))) = Ok (alloc', table) -> table <> 0 ->
  exists f' l, build_table alloc f (Z.of_nat sym) str (Z.of_nat n) = Ok (alloc', f', mk_Symbols (Some (table, l)) (Z.of_nat (length l))) /\
    l ≡ₚ symbol_of str <$> nonzero /\ by_address l /\ take sym f' = take sym f /\ drop (sym + 24 * n) f' = drop (sym + 24 * n) f.
Proof.
  intros Hb Hsn Hsz nonzero Hnz Hreq Htab. set (cs := symtab f sym n) in *.
  assert (length cs = n) as Hlen by (unfold cs, symtab; by rewrite length_fmap, length_seq).
  pose proof (symtab_ok f sym n Hsn) as Hcs. fold cs in Hcs.
  assert (0 < n)%nat as Hn by (destruct n; [done|lia]).
  unfold build_table. set (pre := take sym f). set (post := drop (sym + 24 * n) f).
  assert (f = with_symbols pre post cs) as Ef by (symmetry; by apply symtab_file).
  assert (length pre = sym) as Hpre by (unfold pre; rewrite length_take; lia).
  destruct (sort_ok pre post (S (length f)) cs 0) as (cs' & E & Hp & Hcs' & Ho); [done|lia|lia|lia|intros j k x y; lia|].
  rewrite Hpre, Hlen, <- Ef in E. change (Z.of_nat 0) with 0 in E. rewrite E. cbn [bind]. clear E. assert (length cs' = n) as Hlen' by (by rewrite Hp).
  assert (Forall (fun c => 0 <= value c) cs') as Hpos by (rewrite Hp; apply Forall_forall; intros c; by apply symtab_value).
  assert (exists k c, (0 <= k)%nat /\ cs' !! k = Some c /\ value c <> 0) as Hex.
  { destruct nonzero as [|c l] eqn:Ec; [done|]. assert (c ∈ nonzero) as Hc by (rewrite Ec; left). unfold nonzero in Hc.
    rewrite list_elem_of_filter in Hc. rewrite <- Hp in Hc. destruct Hc as [Hc (k & Hk)%list_elem_of_lookup]. exists k, c. split_and!; [lia|done|done]. }
  destruct (skip_ok pre post cs' (S (length (with_symbols pre post cs'))) Hcs' 0) as (k & E & Hk & Hz & Hfirst);
    [lia|lia| |done|].
  { unfold with_symbols. rewrite !length_app, (length_chunks cs') by done. lia. }
  replace (place pre 0) with (Z.of_nat sym) in E by (unfold place, symbol; lia). rewrite Nat.sub_0_r, Hlen' in E. rewrite E. cbn [bind]. clear E.
  pose proof (drop_zeros cs' k Hpos Ho (fun j c Hj => Hz j c ltac:(lia)) Hfirst) as Hdrop.
  assert (length nonzero = n - k)%nat as Hln by (unfold nonzero; rewrite <- Hp, Hdrop, length_drop; lia).
  rewrite Hln in Hreq. rewrite Hreq. cbn [bind].
  pose proof (fill_ok pre post cs' str (Z.to_nat (Z.of_nat (n - k))) Hcs' k 0 ltac:(lia)) as E. change (Z.of_nat 0) with 0 in E.
  rewrite E. cbn [bind]. rewrite decide_False by done.
  rewrite Nat.add_0_r. eexists _, (symbol_of str <$> drop k cs'). rewrite length_fmap, length_drop, Hlen'. split; [reflexivity|]. split_and!.
  - unfold nonzero. by rewrite <- Hp, Hdrop.
  - by apply ordered_table.
  - unfold with_symbols. by rewrite take_app_length' by done.
  - unfold with_symbols. rewrite app_assoc, drop_app_length'; [done|]. rewrite length_app, (length_chunks cs') by done. lia.
Qed.

(** C23 The constructor, on a kernel file some symbol of which is not zero, and when
    there are pages for the table, ends without leaving the file and the table: the table has
    the symbols that are not zero in the order of their addresses, the file is
    changed in its symbol table only, and every search finds a symbol of greatest address
    that is not above the one given, or reports that there is none. *)
Theorem symbols_found alloc f shoff shnum shstrndx sym str n alloc' table :
  kernel_file f shoff shnum shstrndx sym str n ->
  let cs := symtab f (Z.to_nat sym) n in
  let nonzero := filter (fun c => value c <> 0) cs in
  nonzero <> [] -> RequestPages alloc (table_pages (Z.of_nat (length nonzero))) = Ok (alloc', table) -> table <> 0 ->
  exists f' l, Symbols_new alloc f = Ok (alloc', f', mk_Symbols (Some (table, l)) (Z.of_nat (length l))) /\
    l ≡ₚ symbol_of str <$> nonzero /\ by_address l /\
    take (Z.to_nat sym) f' = take (Z.to_nat sym) f /\ drop (Z.to_nat sym + 24 * n) f' = drop (Z.to_nat sym + 24 * n) f /\
    forall a, exists r, GetSymbolFromAddress (mk_Symbols (Some (table, l)) (Z.of_nat (length l))) a = Ok r /\ nearest cs str a r.
Proof.
  intros [Hb H1 H2 H3 Hs (i1 & Hi1 & Ei1) (i2 & Hi2 & Hne & Ei2) [Ht0 Ht] Hsz] cs nonzero Hnz Hreq Htab.
  unfold Symbols_new. rewrite H1, H2, H3. cbn [bind].
  destruct (find_tables_ok f shoff shstrndx sym str n (Z.to_nat shnum) 0 (mk_tables None None 0)) as (t & -> & T1 & T2);
    [intros j Hj; apply Hs; lia|]. cbn [bind].
  destruct T1 as [-> ->]; [right; exists i1; split; [lia|done]|]. rewrite (T2 ltac:(right; exists i2; split_and!; [lia|lia|done|done])).
  destruct (build_ok alloc f (Z.to_nat sym) n str alloc' table) as (f' & l & E & Hl & Ho & Hpre & Hpost); try done; [lia|].
  rewrite Z2Nat.id in E by lia. exists f', l. split_and!; try done. intros a. cbn [GetSymbolFromAddress SymTable TotalEntries].
  rewrite Nat2Z.id. destruct (search_symbols_ok a l 0 None) as (r & E' & _). exists r. split; [done|].
  eapply nearest_ok; [|exact Hl|exact E']. apply Forall_forall. intros c. by apply symtab_value.
Qed.

(** ** Examples *)

(** A section of a type, at an offset, of a size. *)
Definition section (type offset size : Z) : list Z :=
  le 4 0 ++ le 4 type ++ le 16 0 ++ le 8 offset ++ le 8 size ++ le 24 0.

Definition symbol_entry (name value : Z) : list Z := le 4 name ++ le 4 0 ++ le 8 value ++ le 8 0.

Definition elf_header (shoff shnum shstrndx : Z) : list Z :=
  ELFMAG ++ le 36 2 ++ le 8 shoff ++ le 12 0 ++ le 2 shnum ++ le 2 shstrndx.

(** Three sections, and a symbol table with entries at 0x30, 0, 0x10 and 0x20. *)
Definition sample_file (values : list Z) : list Z :=
  elf_header 64 3 2 ++ section SHT_SYMTAB 256 (24 * Z.of_nat (length values)) ++ section SHT_STRTAB 400 20 ++ section SHT_STRTAB 420 0 ++
  concat ((fun v => symbol_entry (v / 16) v) <$> values) ++ replicate 100 0.

Definition sample_symbols : list Z := sample_file [0x30; 0; 0x10; 0x20].

Lemma sample_kernel_file : kernel_file sample_symbols 64 3 2 256 400 4.
Proof.
  split; try (vm_compute; reflexivity).
  - unfold bytes_ok. apply (bool_decide_unpack _). vm_compute. exact I.
  - intros i Hi. assert (i = 0 \/ i = 1 \/ i = 2) as [->|[->| ->]] by lia; eexists; (split; [vm_compute; reflexivity|]); split; intros H;
      try discriminate H; [split; [vm_compute; reflexivity|eexists; split; vm_compute; reflexivity]|right; vm_compute; reflexivity|by left].
  - exists 0. split; [lia|vm_compute; reflexivity].
  - exists 1. split_and!; [lia|lia|lia|vm_compute; reflexivity].
  - split; [lia|vm_compute; discriminate].
Qed.

Lemma symbols_found_witness : exists alloc' f' l, Symbols_new sample_pfa sample_symbols = Ok (alloc', f', mk_Symbols (Some (0x1000, l)) (Z.of_nat (length l))) /\
  by_address l.
Proof.
  destruct (RequestPages sample_pfa (table_pages 3)) as [[alloc' table]|] eqn:E; [|vm_compute in E; discriminate E].
  assert (table = 0x1000) as -> by (revert E; vm_compute; congruence).
  destruct (symbols_found sample_pfa sample_symbols 64 3 2 256 400 4 alloc' 0x1000) as (f' & l & E' & _ & Hl & _).
  - exact sample_kernel_file.
  - vm_compute. discriminate.
  - exact E.
  - lia.
  - exists alloc', f', l. exact (conj E' Hl).
Defined.

Definition found (f : list Z) (a : Z) : res (option Z) :=
  let* '(_, _, s) := Symbols_new sample_pfa f in GetSymbolFromAddress s a.

(** The name of the symbol at 0x20 is at 2 in the string table. *)
Example found_1 : found sample_symbols 0x2F = Ok (Some 402).
Proof. vm_compute. reflexivity. Qed.
Example found_2 : found sample_symbols 0x0F = Ok None.
Proof. vm_compute. reflexivity. Qed.

(** When all symbols are zero, the search for the first other one leaves the
    table; what it finds after it depends on the file. *)
Example all_zero : found (sample_file [0; 0]) 0x20 = Err OutOfBounds.
Proof. vm_compute. reflexivity. Qed.
