(* ===== verification/Liballoc.v ===== *)
(** * The kernel heap

    src/kernel/mem/liballoc/liballoc_1_1.c on the 64-bit targets: large blocks
    of pages ("majors") are taken from the page allocator and cut into
    allocations ("minors"); both carry headers that form doubly linked lists.
    A pointer is its address and 0 is NULL; the headers live in one map per
    structure, the other bytes in a map of bytes.  The functions run under the
    allocator's lock, so one at a time. *)

From stdpp Require Import gmap.
From S2P Require Import Prelude.

Local Open Scope Z_scope.

(** ** Data *)

Record liballoc_major := mk_major {
  maj_prev : Z;
  maj_next : Z;
  maj_pages : Z;
  maj_size : Z;
  maj_usage : Z;
  maj_first : Z
}.

Record liballoc_minor := mk_minor {
  min_prev : Z;
  min_next : Z;
  min_block : Z;
  min_magic : Z;
  min_size : Z;
  min_req_size : Z
}.

Definition ALIGNMENT := 16.
Definition ALIGN_INFO := 16.
Definition LIBALLOC_MAGIC := 0xc001c0de.
Definition LIBALLOC_DEAD := 0xdeaddead.
Definition sizeof_major := 40.
Definition sizeof_minor := 40.
Definition l_pageSize := 4096.
Definition l_pageCount := 16.

(** What the heap asks of the page allocator: some consecutive pages, or
    nothing, and taking them back. *)
Class PageSource (P : Type) := {
  RequestPages : P -> Z -> option Z * P;
  FreePages : P -> Z -> Z -> P
}.

Section heap.
Context {P : Type} `{PageSource P}.

(** The globals and the memory. *)
Record heap := mk_heap {
  h_pages : P;
  h_majors : gmap Z liballoc_major;
  h_minors : gmap Z liballoc_minor;
  h_bytes : gmap Z Z;
  l_memRoot : Z;
  l_bestBet : Z;
  l_allocated : Z;
  l_inuse : Z;
  l_warningCount : Z;
  l_errorCount : Z;
  l_possibleOverruns : Z
}.

Definition set_majors (h : heap) m := mk_heap (h_pages h) m (h_minors h) (h_bytes h) (l_memRoot h)
  (l_bestBet h) (l_allocated h) (l_inuse h) (l_warningCount h) (l_errorCount h) (l_possibleOverruns h).
Definition set_minors (h : heap) m := mk_heap (h_pages h) (h_majors h) m (h_bytes h) (l_memRoot h)
  (l_bestBet h) (l_allocated h) (l_inuse h) (l_warningCount h) (l_errorCount h) (l_possibleOverruns h).
Definition set_bytes (h : heap) b := mk_heap (h_pages h) (h_majors h) (h_minors h) b (l_memRoot h)
  (l_bestBet h) (l_allocated h) (l_inuse h) (l_warningCount h) (l_errorCount h) (l_possibleOverruns h).
Definition set_pages (h : heap) p := mk_heap p (h_majors h) (h_minors h) (h_bytes h) (l_memRoot h)
  (l_bestBet h) (l_allocated h) (l_inuse h) (l_warningCount h) (l_errorCount h) (l_possibleOverruns h).
Definition set_memRoot (h : heap) r := mk_heap (h_pages h) (h_majors h) (h_minors h) (h_bytes h) r
  (l_bestBet h) (l_allocated h) (l_inuse h) (l_warningCount h) (l_errorCount h) (l_possibleOverruns h).
Definition set_bestBet (h : heap) r := mk_heap (h_pages h) (h_majors h) (h_minors h) (h_bytes h)
  (l_memRoot h) r (l_allocated h) (l_inuse h) (l_warningCount h) (l_errorCount h) (l_possibleOverruns h).
Definition set_allocated (h : heap) z := mk_heap (h_pages h) (h_majors h) (h_minors h) (h_bytes h)
  (l_memRoot h) (l_bestBet h) (u64 z) (l_inuse h) (l_warningCount h) (l_errorCount h) (l_possibleOverruns h).
Definition set_inuse (h : heap) z := mk_heap (h_pages h) (h_majors h) (h_minors h) (h_bytes h)
  (l_memRoot h) (l_bestBet h) (l_allocated h) (u64 z) (l_warningCount h) (l_errorCount h) (l_possibleOverruns h).
Definition warned (h : heap) := mk_heap (h_pages h) (h_majors h) (h_minors h) (h_bytes h)
  (l_memRoot h) (l_bestBet h) (l_allocated h) (l_inuse h) (l_warningCount h + 1) (l_errorCount h) (l_possibleOverruns h).
Definition errored (h : heap) (overrun : bool) := mk_heap (h_pages h) (h_majors h) (h_minors h) (h_bytes h)
  (l_memRoot h) (l_bestBet h) (l_allocated h) (l_inuse h) (l_warningCount h) (l_errorCount h + 1)
  (l_possibleOverruns h + b2z overrun).

(** ** Memory accesses *)

(** A header read or written through a pointer must be there. *)
Definition getM (h : heap) (a : Z) : res liballoc_major :=
  match h_majors h !! a with
  | Some m => Ok m
  | None => Err (if decide (a = 0) then NullDeref else Undefined)
  end.

Definition getm (h : heap) (a : Z) : res liballoc_minor :=
  match h_minors h !! a with
  | Some m => Ok m
  | None => Err (if decide (a = 0) then NullDeref else Undefined)
  end.

Definition modM (h : heap) (a : Z) (f : liballoc_major -> liballoc_major) : res heap :=
  let* m := getM h a in Ok (set_majors h (<[a := f m]> (h_majors h))).

Definition modm (h : heap) (a : Z) (f : liballoc_minor -> liballoc_minor) : res heap :=
  let* m := getm h a in Ok (set_minors h (<[a := f m]> (h_minors h))).

Definition maj_set_prev v (m : liballoc_major) := mk_major v (maj_next m) (maj_pages m) (maj_size m) (maj_usage m) (maj_first m).
Definition maj_set_next v (m : liballoc_major) := mk_major (maj_prev m) v (maj_pages m) (maj_size m) (maj_usage m) (maj_first m).
Definition maj_set_usage v (m : liballoc_major) := mk_major (maj_prev m) (maj_next m) (maj_pages m) (maj_size m) (u32 v) (maj_first m).
Definition maj_set_first v (m : liballoc_major) := mk_major (maj_prev m) (maj_next m) (maj_pages m) (maj_size m) (maj_usage m) v.
Definition min_set_prev v (m : liballoc_minor) := mk_minor v (min_next m) (min_block m) (min_magic m) (min_size m) (min_req_size m).
Definition min_set_next v (m : liballoc_minor) := mk_minor (min_prev m) v (min_block m) (min_magic m) (min_size m) (min_req_size m).
Definition min_set_magic v (m : liballoc_minor) := mk_minor (min_prev m) (min_next m) (min_block m) v (min_size m) (min_req_size m).
Definition min_set_req_size v (m : liballoc_minor) := mk_minor (min_prev m) (min_next m) (min_block m) (min_magic m) (min_size m) (u32 v).

(** Some block of pages holds all the bytes from [a] to [a + n - 1]. *)
Definition in_heap (h : heap) (a n : Z) : bool :=
  bool_decide (map_Exists (fun m M => m <= a /\ a + n <= m + maj_size M) (h_majors h)).

(** A new header at [a] with [size] bytes after it: what earlier headers there
    held is lost. *)
Definition put_minor (h : heap) (a : Z) (m : liballoc_minor) : res heap :=
  if in_heap h a sizeof_minor then
    let kept := filter (fun kv => ~ (a < kv.1 + sizeof_minor /\ kv.1 < a + sizeof_minor + min_size m))
                  (h_minors h) in
    Ok (set_minors h (<[a := m]> kept))
  else Err OutOfBounds.

Definition load_byte (h : heap) (a : Z) : res Z :=
  if in_heap h a 1 then
    match h_bytes h !! a with
    | Some b => Ok b
    | None => Err Undefined
    end
  else Err (if decide (a = 0) then NullDeref else OutOfBounds).

Definition store_byte (h : heap) (a v : Z) : res heap :=
  if in_heap h a 1 then Ok (set_bytes h (<[a := u8 v]> (h_bytes h)))
  else Err (if decide (a = 0) then NullDeref else OutOfBounds).

(** [for (i = 0; i < n; i++) ((char * )s)[i] = c;] with a 32-bit [i]. *)
Fixpoint memset_loop (h : heap) (s c i n : Z) (fuel : nat) : res heap :=
  if decide (i < n) then
    match fuel with
    | O => Err OutOfFuel
    | S f => let* h := store_byte h (s + i) c in memset_loop h s c (u32 (i + 1)) n f
    end
  else Ok h.

Definition liballoc_memset (h : heap) (s c n : Z) : res heap :=
  memset_loop h s c 0 n (Z.to_nat n).

(** The copy of [n] bytes, in words of four bytes and then single bytes. *)
Fixpoint copy_word (h : heap) (dst src : Z) (k : nat) : res (list Z) :=
  match k with
  | O => Ok []
  | S k' => let* b := load_byte h src in let* w := copy_word h dst (src + 1) k' in Ok (b :: w)
  end.

Fixpoint store_word (h : heap) (dst : Z) (w : list Z) : res heap :=
  match w with
  | [] => Ok h
  | b :: w' => let* h := store_byte h dst b in store_word h (dst + 1) w'
  end.

Fixpoint memcpy_loop (h : heap) (dst src n : Z) (fuel : nat) : res heap :=
  if decide (n <= 0) then Ok h
  else
    match fuel with
    | O => Err OutOfFuel
    | S f =>
        let k := if decide (4 <= n) then 4%nat else 1%nat in
        let* w := copy_word h dst src k in
        let* h := store_word h dst w in
        memcpy_loop h (dst + Z.of_nat k) (src + Z.of_nat k) (n - Z.of_nat k) f
    end.

Definition liballoc_memcpy (h : heap) (s1 s2 n : Z) : res heap :=
  memcpy_loop h s1 s2 n (Z.to_nat n).

(** ** Alignment *)

(** [ALIGN(ptr)]: the pointer, with the distance in the byte 16 before it. *)
Definition ALIGN (h : heap) (ptr : Z) : res (heap * Z) :=
  let ptr := u64 (ptr + ALIGN_INFO) in
  let diff := Z.land ptr (ALIGNMENT - 1) in
  let diff' := if decide (diff = 0) then 0 else ALIGNMENT - diff in
  let ptr := u64 (ptr + diff') in
  let* h := store_byte h (u64 (ptr - ALIGN_INFO)) (diff' + ALIGN_INFO) in
  Ok (h, ptr).

(** [UNALIGN(ptr)]: the byte is a signed char converted to 64 bits. *)
Definition UNALIGN (h : heap) (ptr : Z) : res Z :=
  let* b := load_byte h (u64 (ptr - ALIGN_INFO)) in
  let diff := u64 (s8 b) in
  if decide (diff < ALIGNMENT + ALIGN_INFO) then Ok (u64 (ptr - diff)) else Ok ptr.

(** ** Blocks of pages *)

Definition allocate_new_page (h : heap) (size : Z) : res (heap * Z) :=
  let st := u32 (u32 (u32 size + sizeof_major) + sizeof_minor) in
  let st := if decide (st mod l_pageSize = 0) then st / l_pageSize else st / l_pageSize + 1 in
  let st := if decide (st < l_pageCount) then l_pageCount else st in
  let '(r, pages) := RequestPages (h_pages h) st in
  let h := set_pages h pages in
  match r with
  | None => Ok (warned h, 0)
  | Some maj =>
      let size := u32 (st * l_pageSize) in
      let h := set_majors h (<[maj := mk_major 0 0 st size sizeof_major 0]> (h_majors h)) in
      Ok (set_allocated h (l_allocated h + size), maj)
  end.

(** The block without pages: its headers and bytes are gone. *)
Definition drop_block (h : heap) (maj : Z) (M : liballoc_major) : heap :=
  let outside (a : Z) := ~ (maj <= a /\ a < maj + maj_size M) in
  let h := set_majors h (delete maj (h_majors h)) in
  let h := set_minors h (filter (fun kv => outside kv.1) (h_minors h)) in
  let h := set_bytes h (filter (fun kv => outside kv.1) (h_bytes h)) in
  set_pages h (FreePages (h_pages h) maj (maj_pages M)).

(** ** Allocation *)

(** What every case of [malloc] does once the header's place [a] is found. *)
Definition account (h : heap) (maj a size : Z) : res (heap * Z) :=
  let* M := getM h maj in
  let* h := modM h maj (maj_set_usage (maj_usage M + size + sizeof_minor)) in
  let h := set_inuse h (l_inuse h + size) in
  ALIGN h (u64 (a + sizeof_minor)).

(** CASE 2: a new block. *)
Definition case2 (h : heap) (maj size req_size : Z) : res (heap * Z) :=
  let a := u64 (maj + sizeof_major) in
  let* h := modM h maj (maj_set_first a) in
  let* h := put_minor h a (mk_minor 0 0 maj LIBALLOC_MAGIC (u32 size) (u32 req_size)) in
  account h maj a size.

(** CASE 3: space before the first minor. *)
Definition case3 (h : heap) (maj first size req_size : Z) : res (heap * Z) :=
  let a := u64 (maj + sizeof_major) in
  let* h := modm h first (min_set_prev a) in
  let* h := put_minor h a (mk_minor 0 first maj LIBALLOC_MAGIC (u32 size) (u32 req_size)) in
  let* h := modM h maj (maj_set_first a) in
  account h maj a size.

(** CASE 4.1 and 4.2: space after the minor [min]. *)
Definition case4_end (h : heap) (maj min : Z) (m : liballoc_minor) (size req_size : Z) : res (heap * Z) :=
  let a := u64 (min + sizeof_minor + min_size m) in
  let* h := modm h min (min_set_next a) in
  let* h := put_minor h a (mk_minor min 0 maj LIBALLOC_MAGIC (u32 size) (u32 req_size)) in
  account h maj a size.

Definition case4_between (h : heap) (maj min : Z) (m : liballoc_minor) (size req_size : Z)
    : res (heap * Z) :=
  let a := u64 (min + sizeof_minor + min_size m) in
  let* h := put_minor h a (mk_minor min (min_next m) maj LIBALLOC_MAGIC (u32 size) (u32 req_size)) in
  let* h := modm h (min_next m) (min_set_prev a) in
  let* h := modm h min (min_set_next a) in
  account h maj a size.

(** CASE 4: the loop over the minors; [None] when no gap is large enough. *)
Fixpoint case4 (h : heap) (maj : Z) (M : liballoc_major) (min size req_size : Z) (fuel : nat)
    : res (option (heap * Z)) :=
  if decide (min = 0) then Ok None
  else
    match fuel with
    | O => Err OutOfFuel
    | S f =>
        let* m := getm h min in
        if decide (min_next m = 0) then
          let diff := u64 (maj + maj_size M - min - sizeof_minor - min_size m) in
          if decide (u64 (size + sizeof_minor) <= diff) then
            let* r := case4_end h maj min m size req_size in Ok (Some r)
          else Ok None
        else
          let diff := u64 (min_next m - min - sizeof_minor - min_size m) in
          if decide (u64 (size + sizeof_minor) <= diff) then
            let* r := case4_between h maj min m size req_size in Ok (Some r)
          else case4 h maj M (min_next m) size req_size f
    end.

(** How many headers a walk may meet. *)
Definition minor_fuel (h : heap) : nat := S (size (h_minors h)).

(** The cases in a block with enough free bytes; [None] when they are not in
    one piece. *)
Definition place (h : heap) (maj size req_size : Z) : res (option (heap * Z)) :=
  let* M := getM h maj in
  if decide (maj_first M = 0) then
    let* r := case2 h maj size req_size in Ok (Some r)
  else if decide (u64 (size + sizeof_minor) <= u64 (maj_first M - maj - sizeof_major)) then
    let* r := case3 h maj (maj_first M) size req_size in Ok (Some r)
  else case4 h maj M (maj_first M) size req_size (minor_fuel h).

(** A new block after [maj]; 0 when there are no pages. *)
Definition append_page (h : heap) (maj size : Z) : res (heap * Z) :=
  let* '(h, new) := allocate_new_page h size in
  let* h := modM h maj (maj_set_next new) in
  if decide (new = 0) then Ok (h, 0)
  else
    let* h := modM h new (maj_set_prev maj) in Ok (h, new).

(** [while (maj != NULL)] *)
Fixpoint malloc_loop (h : heap) (maj : Z) (startedBet : bool) (bestSize size req_size : Z) (fuel : nat)
    : res (heap * Z) :=
  if decide (maj = 0) then Ok (h, 0)
  else
    match fuel with
    | O => Err OutOfFuel
    | S f =>
        let* M := getM h maj in
        let diff := u32 (maj_size M - maj_usage M) in
        let '(h, bestSize) :=
          if decide (bestSize < diff) then (set_bestBet h maj, diff) else (h, bestSize) in
        if decide (diff < u64 (size + sizeof_minor)) then
          (* CASE 1 *)
          if decide (maj_next M = 0) then
            if startedBet then malloc_loop h (l_memRoot h) false bestSize size req_size f
            else
              let* '(h, new) := append_page h maj size in
              if decide (new = 0) then Ok (h, 0)
              else
                let* r := place h new size req_size in
                match r with
                | Some r => Ok r
                | None => malloc_full h new startedBet bestSize size req_size f
                end
          else malloc_loop h (maj_next M) startedBet bestSize size req_size f
        else
          let* r := place h maj size req_size in
          match r with
          | Some r => Ok r
          | None => malloc_full h maj startedBet bestSize size req_size f
          end
    end
(* CASE 5 *)
with malloc_full (h : heap) (maj : Z) (startedBet : bool) (bestSize size req_size : Z) (fuel : nat)
    : res (heap * Z) :=
  match fuel with
  | O => Err OutOfFuel
  | S f =>
      let* M := getM h maj in
      if decide (maj_next M = 0) then
        if startedBet then malloc_loop h (l_memRoot h) false bestSize size req_size f
        else
          let* '(h, new) := append_page h maj size in
          malloc_loop h new startedBet bestSize size req_size f
      else malloc_loop h (maj_next M) startedBet bestSize size req_size f
  end.

(** Every block may be visited twice, once from the best bet and once from the
    root, in two steps each. *)
Definition malloc_fuel (h : heap) : nat := (4 * size (h_majors h) + 8)%nat.

(** The part of [malloc] after the test for size 0. *)
Definition malloc_sized (h : heap) (size req_size : Z) : res (heap * Z) :=
  let* '(h, root) :=
    if decide (l_memRoot h = 0) then
      let* '(h, new) := allocate_new_page h size in Ok (set_memRoot h new, new)
    else Ok (h, l_memRoot h) in
  if decide (root = 0) then Ok (h, 0)
  else
    let* '(maj, startedBet, bestSize) :=
      if decide (l_bestBet h = 0) then Ok (root, false, 0)
      else
        let* B := getM h (l_bestBet h) in
        let bestSize := u32 (maj_size B - maj_usage B) in
        if decide (u64 (size + sizeof_minor) < bestSize) then Ok (l_bestBet h, true, bestSize)
        else Ok (root, false, bestSize) in
    malloc_loop h maj startedBet bestSize size req_size (malloc_fuel h).

(** [malloc]: a size that wraps to 0 becomes a request for one byte. *)
Definition malloc (h : heap) (req_size : Z) : res (heap * Z) :=
  let size := u64 (req_size + (ALIGNMENT + ALIGN_INFO)) in
  if decide (size = 0) then malloc_sized (warned h) (u64 (1 + (ALIGNMENT + ALIGN_INFO))) 1
  else malloc_sized h size req_size.

(** ** Release *)

(** A wrong magic number that looks like an overrun of 1 to 3 bytes. *)
Definition possible_overrun (magic : Z) : bool :=
  bool_decide (Z.land magic 0xFFFFFF = Z.land LIBALLOC_MAGIC 0xFFFFFF \/
               Z.land magic 0xFFFF = Z.land LIBALLOC_MAGIC 0xFFFF \/
               Z.land magic 0xFF = Z.land LIBALLOC_MAGIC 0xFF).

(** Take the minor out of the list of its block. *)
Definition unlink_minor (h : heap) (min maj : Z) (m : liballoc_minor) : res heap :=
  let* h := if decide (min_next m = 0) then Ok h else modm h (min_next m) (min_set_prev (min_prev m)) in
  let* h := if decide (min_prev m = 0) then Ok h else modm h (min_prev m) (min_set_next (min_next m)) in
  if decide (min_prev m = 0) then modM h maj (maj_set_first (min_next m)) else Ok h.

(** Take an unused block out of the list and give its pages back. *)
Definition release_block (h : heap) (maj : Z) (M : liballoc_major) : res heap :=
  let h := if decide (l_memRoot h = maj) then set_memRoot h (maj_next M) else h in
  let h := if decide (l_bestBet h = maj) then set_bestBet h 0 else h in
  let* h := if decide (maj_prev M = 0) then Ok h else modM h (maj_prev M) (maj_set_next (maj_next M)) in
  let* h := if decide (maj_next M = 0) then Ok h else modM h (maj_next M) (maj_set_prev (maj_prev M)) in
  let h := set_allocated h (l_allocated h - maj_size M) in
  Ok (drop_block h maj M).

(** Remember the block if it is now the best. *)
Definition update_best (h : heap) (maj : Z) (M : liballoc_major) : res heap :=
  if decide (l_bestBet h = 0) then Ok h
  else
    let* B := getM h (l_bestBet h) in
    let bestSize := s32 (u32 (maj_size B - maj_usage B)) in
    let majSize := s32 (u32 (maj_size M - maj_usage M)) in
    Ok (if decide (bestSize < majSize) then set_bestBet h maj else h).

Definition free (h : heap) (ptr : Z) : res heap :=
  if decide (ptr = 0) then Ok (warned h)
  else
    let* ptr := UNALIGN h ptr in
    let min := u64 (ptr - sizeof_minor) in
    let* m := getm h min in
    if decide (min_magic m = LIBALLOC_MAGIC) then
      let maj := min_block m in
      let h := set_inuse h (l_inuse h - min_size m) in
      let* M := getM h maj in
      let* h := modM h maj (maj_set_usage (maj_usage M - (min_size m + sizeof_minor))) in
      let* h := modm h min (min_set_magic LIBALLOC_DEAD) in
      let* h := unlink_minor h min maj m in
      let* M := getM h maj in
      if decide (maj_first M = 0) then release_block h maj M else update_best h maj M
    else Ok (errored h (possible_overrun (min_magic m))).

(** ** calloc and realloc *)

(** [real_size] is an int: the product is cut to 32 bits and sign-extended. *)
Definition calloc (h : heap) (nobj size : Z) : res (heap * Z) :=
  let real_size := s32 (nobj * size) in
  let* '(h, p) := malloc h (u64 real_size) in
  let* h := liballoc_memset h p 0 (u64 real_size) in
  Ok (h, p).

Definition realloc (h : heap) (p size : Z) : res (heap * Z) :=
  if decide (size = 0) then let* h := free h p in Ok (h, 0)
  else if decide (p = 0) then malloc h size
  else
    let* ptr := UNALIGN h p in
    let min := u64 (ptr - sizeof_minor) in
    let* m := getm h min in
    if decide (min_magic m = LIBALLOC_MAGIC) then
      let real_size := min_req_size m in
      if decide (size <= real_size) then
        let* h := modm h min (min_set_req_size size) in Ok (h, p)
      else
        let* '(h, new) := malloc h size in
        let* h := liballoc_memcpy h new p real_size in
        let* h := free h p in
        Ok (h, new)
    else Ok (errored h (possible_overrun (min_magic m)), 0).

End heap.

(** ** Examples *)

(** Pages handed out one after the other. *)
#[local] Instance bump_pages : PageSource Z := {
  RequestPages p n := (Some p, p + n * l_pageSize);
  FreePages p _ _ := p
}.

Definition empty_heap {P} (pages : P) : heap := mk_heap pages ∅ ∅ ∅ 0 0 0 0 0 0 0.

(** Two allocations, the first of them released and its place used again. *)
Example malloc_1 :
  (let* '(h, p) := malloc (empty_heap 0x100000) 100 in
   let* '(h, q) := malloc h 50 in
   let* h := free h p in
   let* '(h, r) := malloc h 60 in
   let* h := free h q in
   let* h := free h r in
   Ok (p, q, r, l_inuse h, size (h_majors h), l_memRoot h))
  = Ok (0x100060, 0x100110, 0x100060, 0, O, 0).
Proof. vm_compute. reflexivity. Qed.

(** A block released twice is noticed. *)
Example free_twice :
  (let* '(h, p) := malloc (empty_heap 0x100000) 100 in
   let* '(h, q) := malloc h 50 in
   let* h := free h p in
   let* h := free h p in
   Ok (l_errorCount h, l_inuse h))
  = Ok (1, 82).
Proof. vm_compute. reflexivity. Qed.

(** A request of 2^32 bytes: the sizes in the headers have 32 bits, so the
    pointer returned has sixteen pages behind it. *)
Example malloc_truncated :
  (let* '(h, p) := malloc (empty_heap 0x100000) (2 ^ 32) in
   let* M := getM h 0x110000 in Ok (p, maj_size M))
  = Ok (0x110060, 65536).
Proof. vm_compute. reflexivity. Qed.
