(* ===== verification/LiballocInv.v ===== *)
(** * The invariant of the kernel heap

    The lists of src/kernel/mem/liballoc/liballoc_1_1.c as lists: a heap is a
    list of blocks of pages, a block holds a list of allocations in the order
    of their addresses.  [heap_inv] says that the headers in memory are
    exactly these lists, that the blocks do not overlap and that the
    allocations of a block do not overlap and fit in it. *)

From stdpp Require Import gmap.
From S2P Require Import Prelude Liballoc.

Local Open Scope Z_scope.

(** ** Doubly linked lists in a map *)

Section dll.
Context {X V : Type} (key : X -> Z) (entry : Z -> Z -> X -> V).
Implicit Types (m : gmap Z V) (l : list X).

(** The address of the first node, or [nxt]; of the last one, or [prev]. *)
Definition first_of l (nxt : Z) : Z :=
  match l with
  | [] => nxt
  | x :: _ => key x
  end.

Fixpoint last_of l (prev : Z) : Z :=
  match l with
  | [] => prev
  | x :: l' => last_of l' (key x)
  end.

(** The nodes of [l] are in the map, linked, between [prev] and [nxt]. *)
Fixpoint dll m (prev : Z) l (nxt : Z) : Prop :=
  match l with
  | [] => True
  | x :: l' => m !! key x = Some (entry prev (first_of l' nxt) x) /\ dll m (key x) l' nxt
  end.

Lemma first_of_app l1 l2 nxt : first_of (l1 ++ l2) nxt = first_of l1 (first_of l2 nxt).
Proof. by destruct l1. Qed.

Lemma last_of_app l1 : forall l2 prev, last_of (l1 ++ l2) prev = last_of l2 (last_of l1 prev).
Proof. induction l1 as [|x l1 IH]; intros; simpl; [done|]. apply IH. Qed.

Lemma dll_app m l1 : forall prev l2 nxt,
  dll m prev (l1 ++ l2) nxt <-> dll m prev l1 (first_of l2 nxt) /\ dll m (last_of l1 prev) l2 nxt.
Proof.
  induction l1 as [|x l1 IH]; intros prev l2 nxt; simpl; [tauto|].
  rewrite IH, first_of_app. tauto.
Qed.

(** Maps that agree on the nodes hold the same list. *)
Lemma dll_frame m m' l : (forall x, x ∈ l -> m' !! key x = m !! key x) ->
  forall prev nxt, dll m prev l nxt -> dll m' prev l nxt.
Proof.
  induction l as [|x l IH]; intros Hm prev nxt; simpl; [done|]. intros [Hx Hl]. split.
  - rewrite Hm; [done|]. by left.
  - apply IH; [|done]. intros y Hy. apply Hm. by right.
Qed.

Lemma dll_middle m prev l1 x l2 nxt : dll m prev (l1 ++ x :: l2) nxt ->
  m !! key x = Some (entry (last_of l1 prev) (first_of l2 nxt) x).
Proof. rewrite dll_app. simpl. tauto. Qed.

(** Another value for a node. *)
Lemma dll_replace m prev l1 x x' l2 nxt : key x' = key x -> NoDup (key <$> (l1 ++ x :: l2)) ->
  dll m prev (l1 ++ x :: l2) nxt ->
  dll (<[key x := entry (last_of l1 prev) (first_of l2 nxt) x']> m) prev (l1 ++ x' :: l2) nxt.
Proof.
  intros Hk Hnd. rewrite !dll_app. cbn [dll first_of]. rewrite Hk. intros (H1 & Hx & H2).
  rewrite fmap_app, fmap_cons in Hnd. apply NoDup_app in Hnd as (_ & Hd1 & Hd2).
  apply NoDup_cons in Hd2 as [Hd2 _]. split_and!.
  - eapply dll_frame; [|exact H1]. intros y Hy. apply lookup_insert_ne. intros E.
    apply (Hd1 (key y)); [by apply list_elem_of_fmap_2|]. rewrite <- E. by left.
  - apply lookup_insert_eq.
  - eapply dll_frame; [|exact H2]. intros y Hy. apply lookup_insert_ne. intros E.
    apply Hd2. rewrite E. by apply list_elem_of_fmap_2.
Qed.

(** A new node after [l1] and before [l2]: its neighbours point to it and the
    other nodes are as before. *)
Lemma dll_insert m m' prev l1 x l2 nxt :
  dll m prev (l1 ++ l2) nxt ->
  m' !! key x = Some (entry (last_of l1 prev) (first_of l2 nxt) x) ->
  (forall l1' y, l1 = l1' ++ [y] -> m' !! key y = Some (entry (last_of l1' prev) (key x) y) /\
     forall z, z ∈ l1' -> m' !! key z = m !! key z) ->
  (forall y l2', l2 = y :: l2' -> m' !! key y = Some (entry (key x) (first_of l2' nxt) y) /\
     forall z, z ∈ l2' -> m' !! key z = m !! key z) ->
  dll m' prev (l1 ++ x :: l2) nxt.
Proof.
  intros Hl Hx Hp Hn. apply dll_app in Hl as [H1 H2]. apply dll_app. cbn [dll first_of].
  split_and!; [|done|].
  - destruct l1 as [|y l1' _] using rev_ind; [done|]. destruct (Hp l1' y eq_refl) as [Hy Hf].
    apply dll_app in H1 as [H1 _]. apply dll_app. cbn [dll first_of] in *.
    split; [|done]. eapply dll_frame; [exact Hf|exact H1].
  - destruct l2 as [|w l2]; [done|]. cbn [dll] in *. destruct H2 as [_ H2].
    destruct (Hn w l2 eq_refl) as [Hw Hf]. split; [done|]. eapply dll_frame; [exact Hf|exact H2].
Qed.

(** A node taken out. *)
Lemma dll_remove m m' prev l1 x l2 nxt :
  dll m prev (l1 ++ x :: l2) nxt ->
  (forall l1' y, l1 = l1' ++ [y] -> m' !! key y = Some (entry (last_of l1' prev) (first_of l2 nxt) y) /\
     forall z, z ∈ l1' -> m' !! key z = m !! key z) ->
  (forall y l2', l2 = y :: l2' -> m' !! key y = Some (entry (last_of l1 prev) (first_of l2' nxt) y) /\
     forall z, z ∈ l2' -> m' !! key z = m !! key z) ->
  dll m' prev (l1 ++ l2) nxt.
Proof.
  intros Hl Hp Hn. apply dll_app in Hl as [H1 [_ H2]]. apply dll_app. split.
  - destruct l1 as [|y l1' _] using rev_ind; [done|]. destruct (Hp l1' y eq_refl) as [Hy Hf].
    apply dll_app in H1 as [H1 _]. apply dll_app. cbn [dll first_of] in *.
    split; [|done]. eapply dll_frame; [exact Hf|exact H1].
  - destruct l2 as [|w l2]; [done|]. cbn [dll] in *. destruct H2 as [_ H2].
    destruct (Hn w l2 eq_refl) as [Hw Hf]. split; [done|]. eapply dll_frame; [exact Hf|exact H2].
Qed.
End dll.

(** ** Allocations and blocks *)

(** An allocation: the address of its header, the bytes after the header and
    the bytes asked for. *)
Record alloc := mk_alloc { al_at : Z; al_size : Z; al_req : Z }.

(** The first byte after it, and the pointer the user has: aligned, at least 16
    bytes after the header. *)
Definition al_end (a : alloc) : Z := al_at a + sizeof_minor + al_size a.

Definition align_up (q : Z) : Z := if decide (q mod ALIGNMENT = 0) then q else q + (ALIGNMENT - q mod ALIGNMENT).
Definition al_ptr (a : alloc) : Z := align_up (al_at a + sizeof_minor + ALIGN_INFO).

Record block := mk_block { bl_at : Z; bl_pages : Z; bl_allocs : list alloc }.

Definition bl_size (b : block) : Z := bl_pages b * l_pageSize.
Definition bl_end (b : block) : Z := bl_at b + bl_size b.

(** The bytes in use. *)
Definition used (l : list alloc) : Z := foldr (fun a n => sizeof_minor + al_size a + n) 0 l.

Definition minor_of (blk prev nxt : Z) (a : alloc) : liballoc_minor :=
  mk_minor prev nxt blk LIBALLOC_MAGIC (al_size a) (al_req a).

Definition major_of (prev nxt : Z) (b : block) : liballoc_major :=
  mk_major prev nxt (bl_pages b) (bl_size b) (sizeof_major + used (bl_allocs b))
    (first_of al_at (bl_allocs b) 0).

(** Allocations in order, between two addresses. *)
Fixpoint layout (lo : Z) (l : list alloc) (hi : Z) : Prop :=
  match l with
  | [] => lo <= hi
  | a :: l' => lo <= al_at a /\ 0 <= al_req a /\ al_req a + 32 <= al_size a /\ layout (al_end a) l' hi
  end.

Fixpoint end_of (lo : Z) (l : list alloc) : Z :=
  match l with
  | [] => lo
  | a :: l' => end_of (al_end a) l'
  end.

Definition start_of (l : list alloc) (hi : Z) : Z :=
  match l with
  | [] => hi
  | a :: _ => al_at a
  end.

(** ** Lemmas: layouts *)

Lemma layout_le l : forall lo hi, layout lo l hi -> lo <= hi.
Proof.
  induction l as [|a l IH]; intros lo hi; simpl; [done|]. intros (? & ? & ? & Hl).
  apply IH in Hl. unfold al_end, sizeof_minor in *. lia.
Qed.

Lemma layout_bounds l : forall lo hi a, layout lo l hi -> a ∈ l ->
  lo <= al_at a /\ al_end a <= hi /\ 0 <= al_req a /\ al_req a + 32 <= al_size a.
Proof.
  induction l as [|x l IH]; intros lo hi a Hl Ha; [by apply not_elem_of_nil in Ha|].
  simpl in Hl. destruct Hl as (Hlo & Hr & Hs & Hl). apply elem_of_cons in Ha as [->|Ha].
  - apply layout_le in Hl. auto.
  - destruct (IH _ _ _ Hl Ha) as (? & ? & ? & ?). unfold al_end, sizeof_minor in *. split_and!; lia.
Qed.

Lemma layout_app l1 : forall lo l2 hi, layout lo (l1 ++ l2) hi ->
  layout lo l1 (start_of l2 hi) /\ layout (end_of lo l1) l2 hi.
Proof.
  induction l1 as [|x l1 IH]; intros lo l2 hi; simpl.
  - intros Hl. split; [|done]. destruct l2; simpl in *; [done|tauto].
  - intros (? & ? & ? & Hl). apply IH in Hl. tauto.
Qed.

Lemma layout_before lo l1 l2 hi a : layout lo (l1 ++ l2) hi -> a ∈ l1 -> al_end a <= end_of lo l1.
Proof.
  revert lo. induction l1 as [|x l1 IH]; intros lo Hl Ha; [by apply not_elem_of_nil in Ha|].
  simpl in *. destruct Hl as (? & ? & ? & Hl). apply elem_of_cons in Ha as [->|Ha].
  - clear IH. apply layout_app in Hl as [Hl _]. revert Hl. generalize (al_end x). clear.
    induction l1 as [|y l1 IH]; intros e; simpl; [lia|]. intros (? & ? & ? & Hl). apply IH in Hl.
    unfold al_end, sizeof_minor in *. lia.
  - by apply IH.
Qed.

Lemma layout_after lo l1 l2 hi a : layout lo (l1 ++ l2) hi -> a ∈ l2 -> start_of l2 hi <= al_at a.
Proof.
  intros Hl Ha. apply layout_app in Hl as [_ Hl]. destruct l2 as [|x l2]; [by apply not_elem_of_nil in Ha|].
  simpl in *. apply elem_of_cons in Ha as [->|Ha]; [done|]. destruct Hl as (? & ? & ? & Hl).
  destruct (layout_bounds _ _ _ _ Hl Ha). unfold al_end, sizeof_minor in *. lia.
Qed.

(** Allocations before and after one of the list. *)
Lemma layout_order lo l1 y l2 hi z : layout lo (l1 ++ y :: l2) hi ->
  (z ∈ l1 -> al_end z <= al_at y /\ al_at z < al_at y) /\ (z ∈ l2 -> al_end y <= al_at z /\ al_at y < al_at z).
Proof.
  intros Hl. apply layout_app in Hl as [Hl1 Hl2]. cbn [layout start_of] in *.
  destruct Hl2 as (_ & ? & ? & Hl2). split; intros Hz.
  - destruct (layout_bounds _ _ _ _ Hl1 Hz) as (_ & ? & ? & ?). unfold al_end, sizeof_minor in *. lia.
  - destruct (layout_bounds _ _ _ _ Hl2 Hz) as (? & _ & ? & ?). unfold al_end, sizeof_minor in *. lia.
Qed.

Lemma layout_insert l1 : forall lo x l2 hi, layout lo (l1 ++ l2) hi ->
  end_of lo l1 <= al_at x -> al_end x <= start_of l2 hi -> 0 <= al_req x -> al_req x + 32 <= al_size x ->
  layout lo (l1 ++ x :: l2) hi.
Proof.
  induction l1 as [|y l1 IH]; intros lo x l2 hi Hl He Hs Hr Hz; simpl in *.
  - split_and!; try done. destruct l2; simpl in *; [done|]. naive_solver.
  - destruct Hl as (? & ? & ? & Hl). split_and!; try done. by apply IH.
Qed.

Lemma layout_mono l lo lo' hi : lo' <= lo -> layout lo l hi -> layout lo' l hi.
Proof. destruct l; simpl; [lia|]. intros ? (? & ? & ? & ?). split_and!; (done || lia). Qed.

Lemma layout_remove l1 : forall lo x l2 hi, layout lo (l1 ++ x :: l2) hi -> layout lo (l1 ++ l2) hi.
Proof.
  induction l1 as [|y l1 IH]; intros lo x l2 hi; simpl.
  - intros (? & ? & ? & Hl). eapply layout_mono; [|exact Hl]. unfold al_end, sizeof_minor in *. lia.
  - intros (? & ? & ? & Hl). split_and!; try done. by eapply IH.
Qed.

Lemma used_cons a l : used (a :: l) = sizeof_minor + al_size a + used l.
Proof. done. Qed.

Lemma used_app l1 l2 : used (l1 ++ l2) = used l1 + used l2.
Proof. induction l1 as [|a l1 IH]; simpl; [done|]. rewrite IH. lia. Qed.

Lemma layout_used l : forall lo hi, layout lo l hi -> 0 <= used l <= hi - lo.
Proof.
  induction l as [|a l IH]; intros lo hi; simpl; [lia|]. intros (? & ? & ? & Hl).
  apply IH in Hl. unfold al_end, sizeof_minor in *. lia.
Qed.

Lemma end_of_snoc lo l y : end_of lo (l ++ [y]) = al_end y.
Proof. revert lo. induction l as [|x l IH]; intros lo; simpl; [done|]. apply IH. Qed.

(** The pointer of an allocation is aligned and inside it, and so are the
    bytes asked for. *)
Lemma align_up_spec q : 0 <= q -> align_up q mod 16 = 0 /\ q <= align_up q < q + 16.
Proof.
  intros Hq. unfold align_up, ALIGNMENT. case_decide as E; [lia|].
  pose proof (Z.mod_pos_bound q 16 ltac:(lia)). split; [|lia].
  pose proof (Z.div_mod q 16 ltac:(lia)). apply Z.mod_divide; [lia|]. exists (q / 16 + 1). lia.
Qed.

Lemma al_ptr_spec a : 0 <= al_at a ->
  al_ptr a mod 16 = 0 /\ al_at a + 56 <= al_ptr a < al_at a + 72.
Proof.
  intros Ha. unfold al_ptr, sizeof_minor, ALIGN_INFO.
  destruct (align_up_spec (al_at a + 40 + 16)); lia.
Qed.

(** A block whose headers, alignment bytes and layout are right. *)
Record block_ok (mn : gmap Z liballoc_minor) (by_ : gmap Z Z) (b : block) : Prop := {
  bo_minors : dll al_at (minor_of (bl_at b)) mn 0 (bl_allocs b) 0;
  bo_bytes : forall a, a ∈ bl_allocs b ->
    by_ !! (al_ptr a - ALIGN_INFO) = Some (al_ptr a - (al_at a + sizeof_minor));
  bo_layout : layout (bl_at b + sizeof_major) (bl_allocs b) (bl_end b);
  bo_at : 0 < bl_at b;
  bo_end : bl_end b <= 2 ^ 64;
  bo_pages : 0 < bl_pages b;
  bo_size : bl_size b < 2 ^ 32
}.

Definition apart (b c : block) : Prop := bl_end b <= bl_at c \/ bl_end c <= bl_at b.

Fixpoint separated (bs : list block) : Prop :=
  match bs with
  | [] => True
  | b :: bs' => Forall (apart b) bs' /\ separated bs'
  end.

Definition live (bs : list block) : list alloc := concat (bl_allocs <$> bs).

Lemma apart_sym b c : apart b c -> apart c b.
Proof. unfold apart. tauto. Qed.

Lemma separated_middle b B1 : forall B2,
  separated (B1 ++ b :: B2) <-> separated (B1 ++ B2) /\ Forall (apart b) (B1 ++ B2).
Proof.
  induction B1 as [|c B1 IH]; intros B2; simpl; [tauto|].
  rewrite IH, !Forall_cons, !Forall_app, !Forall_cons. pose proof (apart_sym b c). pose proof (apart_sym c b). tauto.
Qed.

(** A block keeps its place when its allocations change. *)
Lemma separated_replace b b' B1 B2 : bl_at b' = bl_at b -> bl_pages b' = bl_pages b ->
  separated (B1 ++ b :: B2) -> separated (B1 ++ b' :: B2).
Proof.
  intros Ea Ep. rewrite !separated_middle. intros [Hs Hf]. split; [done|].
  eapply Forall_impl; [exact Hf|]. intros c. unfold apart, bl_end, bl_size. by rewrite Ea, Ep.
Qed.

Lemma live_app B1 B2 : live (B1 ++ B2) = live B1 ++ live B2.
Proof. unfold live. by rewrite fmap_app, concat_app. Qed.

Lemma live_cons b B : live (b :: B) = bl_allocs b ++ live B.
Proof. done. Qed.

Lemma sum_sizes_perm l l' : l ≡ₚ l' ->
  foldr (fun a n => al_size a + n) 0 l = foldr (fun a n => al_size a + n) 0 l'.
Proof. induction 1; simpl; lia. Qed.

(** What the heap relies on of the page allocator, in the states it calls
    valid: pages handed out are unused, and stay handed out until they are
    freed. *)
Class PageSourceLaws (P : Type) `{PageSource P} := {
  valid : P -> Prop;
  owned : P -> Z -> Z -> Prop;
  request_fresh : forall p n a p', valid p -> 0 < n < 2 ^ 20 -> RequestPages p n = (Some a, p') ->
    valid p' /\ 0 < a /\ a + n * l_pageSize <= 2 ^ 64 /\ owned p' a n /\
    forall a' n', 0 < n' -> owned p a' n' -> owned p' a' n' /\
      (a + n * l_pageSize <= a' \/ a' + n' * l_pageSize <= a);
  request_none : forall p n p', valid p -> 0 < n < 2 ^ 20 -> RequestPages p n = (None, p') ->
    valid p' /\ forall a' n', owned p a' n' -> owned p' a' n';
  free_valid : forall p a n, valid p -> owned p a n -> valid (FreePages p a n);
  free_others : forall p a n a' n', valid p -> owned p a n -> owned p a' n' ->
    (a + n * l_pageSize <= a' \/ a' + n' * l_pageSize <= a) -> owned (FreePages p a n) a' n'
}.

Section inv.
Context {P : Type} `{PageSourceLaws P}.

Record heap_inv (h : heap (P := P)) (bs : list block) : Prop := {
  hi_majors : dll bl_at major_of (h_majors h) 0 bs 0;
  hi_only : forall a, is_Some (h_majors h !! a) -> a ∈ (bl_at <$> bs);
  hi_blocks : Forall (block_ok (h_minors h) (h_bytes h)) bs;
  hi_apart : separated bs;
  hi_owned : Forall (fun b => owned (h_pages h) (bl_at b) (bl_pages b)) bs;
  hi_root : l_memRoot h = first_of bl_at bs 0;
  hi_bet : l_bestBet h = 0 \/ l_bestBet h ∈ (bl_at <$> bs);
  hi_inuse : l_inuse h = u64 (foldr (fun a n => al_size a + n) 0 (live bs));
  hi_allocated : l_allocated h = u64 (foldr (fun b n => bl_size b + n) 0 bs);
  hi_pages : valid (h_pages h)
}.

Lemma inv_major h B1 b B2 : heap_inv h (B1 ++ b :: B2) ->
  h_majors h !! bl_at b = Some (major_of (last_of bl_at B1 0) (first_of bl_at B2 0) b).
Proof. intros Hi. eapply dll_middle, hi_majors, Hi. Qed.

Lemma inv_block h B1 b B2 : heap_inv h (B1 ++ b :: B2) -> block_ok (h_minors h) (h_bytes h) b.
Proof. intros Hi. pose proof (hi_blocks _ _ Hi) as Hf. by apply Forall_app in Hf as [_ [? _]%Forall_cons]. Qed.

Lemma inv_other h B1 b B2 c : heap_inv h (B1 ++ b :: B2) -> c ∈ B1 ++ B2 ->
  apart b c /\ block_ok (h_minors h) (h_bytes h) c.
Proof.
  intros Hi Hc. split.
  - pose proof (hi_apart _ _ Hi) as Hs. apply separated_middle in Hs as [_ Hs].
    rewrite Forall_forall in Hs. by apply Hs.
  - pose proof (hi_blocks _ _ Hi) as Hf. rewrite Forall_forall in Hf. apply Hf.
    rewrite elem_of_app in Hc. rewrite elem_of_app, elem_of_cons. tauto.
Qed.

Lemma separated_nodup mn by_ bs : Forall (block_ok mn by_) bs -> separated bs -> NoDup (bl_at <$> bs).
Proof.
  induction 1 as [|b bs Hb Hbs IH]; simpl; [by constructor|]. intros [Hf Hs].
  apply NoDup_cons. split; [|by apply IH]. intros (c & Ec & Hc)%list_elem_of_fmap.
  rewrite Forall_forall in Hf, Hbs. specialize (Hf c Hc). specialize (Hbs c Hc).
  pose proof (bo_pages _ _ _ Hb). pose proof (bo_pages _ _ _ Hbs).
  unfold apart, bl_end, bl_size, l_pageSize in *. lia.
Qed.

Lemma inv_nodup h bs : heap_inv h bs -> NoDup (bl_at <$> bs).
Proof. intros Hi. eapply separated_nodup; [apply (hi_blocks _ _ Hi)|apply (hi_apart _ _ Hi)]. Qed.

Lemma inv_in_heap h B1 b B2 a n : heap_inv h (B1 ++ b :: B2) ->
  bl_at b <= a -> a + n <= bl_end b -> in_heap h a n = true.
Proof.
  intros Hi Ha Hn. unfold in_heap. apply bool_decide_eq_true. exists (bl_at b), (major_of (last_of bl_at B1 0) (first_of bl_at B2 0) b).
  split; [by apply inv_major|]. simpl. done.
Qed.

(** The bytes of an allocation lie in its block; two allocations of different
    blocks do not meet. *)
Lemma alloc_in_block mn by_ b a : block_ok mn by_ b -> a ∈ bl_allocs b ->
  bl_at b + 40 <= al_at a /\ al_end a <= bl_end b /\ 0 <= al_req a /\ al_req a + 32 <= al_size a.
Proof. intros Hb Ha. exact (layout_bounds _ _ _ _ (bo_layout _ _ _ Hb) Ha). Qed.

(** Allocations whose bytes do not meet have different alignment bytes. *)
Lemma align_byte_ne x z : 0 <= al_at x -> 0 <= al_at z -> 32 <= al_size x -> 32 <= al_size z ->
  al_end x <= al_at z \/ al_end z <= al_at x ->
  al_ptr x - ALIGN_INFO <> al_ptr z - ALIGN_INFO.
Proof.
  intros Hx Hz Sx Sz Hd. destruct (al_ptr_spec x Hx), (al_ptr_spec z Hz).
  unfold al_end, sizeof_minor, ALIGN_INFO in *. lia.
Qed.

(** A heap in which one block has other allocations. *)
Lemma replace_inv h h' B1 b b' B2 :
  heap_inv h (B1 ++ b :: B2) -> bl_at b' = bl_at b -> bl_pages b' = bl_pages b ->
  h_majors h' = <[bl_at b := major_of (last_of bl_at B1 0) (first_of bl_at B2 0) b']> (h_majors h) ->
  block_ok (h_minors h') (h_bytes h') b' ->
  (forall c z, c ∈ B1 ++ B2 -> z ∈ bl_allocs c -> h_minors h' !! al_at z = h_minors h !! al_at z /\
     h_bytes h' !! (al_ptr z - ALIGN_INFO) = h_bytes h !! (al_ptr z - ALIGN_INFO)) ->
  h_pages h' = h_pages h -> l_memRoot h' = l_memRoot h -> l_bestBet h' = l_bestBet h ->
  l_allocated h' = l_allocated h ->
  l_inuse h' = u64 (foldr (fun a n => al_size a + n) 0 (live (B1 ++ b' :: B2))) ->
  heap_inv h' (B1 ++ b' :: B2).
Proof.
  intros Hi Ea Epgs Emaj Hb' Hoth Epg Eroot Ebet Eall Euse.
  assert (forall c, c ∈ B1 ++ B2 -> block_ok (h_minors h') (h_bytes h') c) as Hc.
  { intros c Hc. destruct (inv_other _ _ _ _ _ Hi Hc) as [_ [Cm Cb Cl Ca Ce Cp Cs]]. split; try done.
    - eapply dll_frame; [|exact Cm]. intros z Hz. by eapply Hoth.
    - intros z Hz. rewrite (proj2 (Hoth c z Hc Hz)). by apply Cb. }
  split.
  - rewrite Emaj. apply dll_replace; [done|apply (inv_nodup _ _ Hi)|apply (hi_majors _ _ Hi)].
  - intros k [v Hk]. rewrite Emaj in Hk.
    assert (k ∈ bl_at <$> (B1 ++ b :: B2)) as Hin.
    { destruct (decide (k = bl_at b)) as [->|Hne].
      - rewrite fmap_app, fmap_cons. apply elem_of_app. right. by left.
      - rewrite lookup_insert_ne in Hk by done. apply (hi_only _ _ Hi). by exists v. }
    rewrite fmap_app, fmap_cons in *. by rewrite Ea.
  - apply Forall_forall. intros c Hin. rewrite elem_of_app, elem_of_cons in Hin.
    destruct Hin as [Hin|[->|Hin]]; [apply Hc, elem_of_app; by left|done|apply Hc, elem_of_app; by right].
  - by eapply (separated_replace b); [| |apply (hi_apart _ _ Hi)].
  - rewrite Epg. pose proof (hi_owned _ _ Hi) as Ho. apply Forall_app in Ho as [Ho1 [Hob Ho2]%Forall_cons].
    apply Forall_app. split; [done|]. apply Forall_cons. by rewrite Ea, Epgs.
  - rewrite Eroot, (hi_root _ _ Hi). destruct B1; cbn; congruence.
  - rewrite Ebet. pose proof (hi_bet _ _ Hi) as Hbet. rewrite !fmap_app, !fmap_cons in *. by rewrite Ea.
  - done.
  - rewrite Eall, (hi_allocated _ _ Hi). f_equal. rewrite !foldr_app. cbn. unfold bl_size. by rewrite Epgs.
  - rewrite Epg. apply (hi_pages _ _ Hi).
Qed.

Lemma live_insert B1 b b' B2 l1 x l2 : bl_allocs b = l1 ++ l2 -> bl_allocs b' = l1 ++ x :: l2 ->
  live (B1 ++ b' :: B2) ≡ₚ x :: live (B1 ++ b :: B2).
Proof.
  intros E E'. rewrite !live_app, !live_cons, E, E', <- !app_assoc. cbn [app].
  rewrite (app_assoc (live B1) l1 (x :: _)), (app_assoc (live B1) l1 (l2 ++ _)). symmetry. apply Permutation_middle.
Qed.

(** The heap after a new allocation [x] between [l1] and [l2] in a block. *)
Lemma install_inv h h' B1 b B2 l1 x l2 :
  heap_inv h (B1 ++ b :: B2) -> bl_allocs b = l1 ++ l2 ->
  end_of (bl_at b + sizeof_major) l1 <= al_at x -> al_end x <= start_of l2 (bl_end b) ->
  0 <= al_req x -> al_req x + 32 <= al_size x ->
  let b' := mk_block (bl_at b) (bl_pages b) (l1 ++ x :: l2) in
  h_majors h' = <[bl_at b := major_of (last_of bl_at B1 0) (first_of bl_at B2 0) b']> (h_majors h) ->
  dll al_at (minor_of (bl_at b)) (h_minors h') 0 (l1 ++ x :: l2) 0 ->
  (forall c z, c ∈ B1 ++ B2 -> z ∈ bl_allocs c -> h_minors h' !! al_at z = h_minors h !! al_at z) ->
  h_bytes h' = <[al_ptr x - ALIGN_INFO := al_ptr x - (al_at x + sizeof_minor)]> (h_bytes h) ->
  h_pages h' = h_pages h -> l_memRoot h' = l_memRoot h -> l_bestBet h' = l_bestBet h ->
  l_allocated h' = l_allocated h -> l_inuse h' = u64 (l_inuse h + al_size x) ->
  heap_inv h' (B1 ++ b' :: B2).
Proof.
  intros Hi Hl Hlo Hhi Hr Hs b' Emaj Hmin Hoth Eby Epg Eroot Ebet Eall Euse.
  pose proof (inv_block _ _ _ _ Hi) as Hb.
  assert (layout (bl_at b + sizeof_major) (l1 ++ l2) (bl_end b)) as Hlay
    by (rewrite <- Hl; apply (bo_layout _ _ _ Hb)).
  assert (forall z, z ∈ l1 ++ l2 -> al_end x <= al_at z \/ al_end z <= al_at x) as Hsame.
  { intros z [Hz|Hz]%elem_of_app.
    - right. pose proof (layout_before _ _ _ _ _ Hlay Hz). lia.
    - left. pose proof (layout_after _ _ _ _ _ Hlay Hz). lia. }
  assert (bl_at b + 40 <= al_at x /\ al_end x <= bl_end b) as [Hx1 Hx2].
  { pose proof (layout_insert l1 _ x l2 _ Hlay Hlo Hhi Hr Hs) as Hn.
    assert (x ∈ l1 ++ x :: l2) as Hin by (apply elem_of_app; right; by left).
    destruct (layout_bounds _ _ _ _ Hn Hin) as (? & ? & _). unfold sizeof_major in *. lia. }
  pose proof (bo_at _ _ _ Hb) as Hpos.
  assert (forall z, z ∈ l1 ++ l2 -> 0 <= al_at z /\ 32 <= al_size z) as Hzs.
  { intros z Hz. destruct (layout_bounds _ _ _ _ Hlay Hz) as (? & ? & ? & ?).
    unfold sizeof_major in *. lia. }
  eapply (replace_inv h h' B1 b b' B2); try done.
  - split; cbn [bl_allocs bl_at bl_pages b']; try apply Hb; [done| |by apply layout_insert].
    intros z Hz. rewrite Eby. apply elem_of_app in Hz. rewrite elem_of_cons in Hz.
    destruct Hz as [Hz|[->|Hz]]; [|by apply lookup_insert_eq|].
    all: assert (z ∈ l1 ++ l2) as Hin by (apply elem_of_app; tauto);
      destruct (Hzs z Hin); rewrite lookup_insert_ne;
      [apply (bo_bytes _ _ _ Hb); by rewrite Hl|apply align_byte_ne; try lia; by apply Hsame].
  - intros c z Hc Hz. split; [by eapply Hoth|]. destruct (inv_other _ _ _ _ _ Hi Hc) as [Hap Hcok].
    pose proof (bo_at _ _ _ Hcok). destruct (layout_bounds _ _ _ _ (bo_layout _ _ _ Hcok) Hz) as (Z1 & Z2 & Z3 & Z4).
    rewrite Eby, lookup_insert_ne; [done|]. apply align_byte_ne; unfold sizeof_major, apart in *; lia.
  - rewrite Euse, (hi_inuse _ _ Hi). unfold wrapu. rewrite Z.add_mod_idemp_l by done. f_equal.
    rewrite (sum_sizes_perm _ _ (live_insert B1 b b' B2 l1 x l2 Hl eq_refl)). cbn [foldr]. lia.
Qed.
End inv.
