(* ===== verification/LiballocMalloc.v ===== *)
(** * Allocation in the kernel heap

    Every case of [malloc] (src/kernel/mem/liballoc/liballoc_1_1.c) puts the
    new header into a gap of its block and keeps the invariant; the search
    ends, and fails only when the page allocator has no pages. *)

From stdpp Require Import gmap.
From S2P Require Import Prelude Liballoc LiballocInv.

Local Open Scope Z_scope.

Section malloc.
Context {P : Type} `{PageSourceLaws P}.
Implicit Types (h : heap (P := P)) (B : list block).

(** ** Accesses *)

Lemma kept_lookup (m : gmap Z liballoc_minor) a size z : z + sizeof_minor <= a \/ a + sizeof_minor + size <= z ->
  filter (fun kv : Z * liballoc_minor =>
            ~ (a < kv.1 + sizeof_minor /\ kv.1 < a + sizeof_minor + size)) m !! z = m !! z.
Proof.
  intros Hz. rewrite map_lookup_filter. destruct (m !! z) as [v|]; [|done]. cbn [option_bind mbind fst].
  rewrite option_guard_True; [done|]. cbn [fst]. lia.
Qed.

Lemma getM_Ok h a M : h_majors h !! a = Some M -> getM h a = Ok M.
Proof. intros E. unfold getM. by rewrite E. Qed.

Lemma getm_Ok h a m : h_minors h !! a = Some m -> getm h a = Ok m.
Proof. intros E. unfold getm. by rewrite E. Qed.

Lemma modM_Ok h a f M : h_majors h !! a = Some M ->
  modM h a f = Ok (set_majors h (<[a := f M]> (h_majors h))).
Proof. intros E. unfold modM. by rewrite (getM_Ok _ _ _ E). Qed.

Lemma modm_Ok h a f m : h_minors h !! a = Some m ->
  modm h a f = Ok (set_minors h (<[a := f m]> (h_minors h))).
Proof. intros E. unfold modm. by rewrite (getm_Ok _ _ _ E). Qed.

(** Only the sizes of the blocks matter for what is inside the heap. *)
Lemma in_heap_ext h h' a n : in_heap h a n = true ->
  (forall k M, h_majors h !! k = Some M -> exists M', h_majors h' !! k = Some M' /\ maj_size M' = maj_size M) ->
  in_heap h' a n = true.
Proof.
  unfold in_heap. rewrite !bool_decide_eq_true. intros (k & M & Hk & Ha & Hn) Hext.
  destruct (Hext k M Hk) as (M' & Hk' & Es). exists k, M'. by rewrite Es.
Qed.

Lemma in_heap_insert h h' k M M' a n : h_majors h !! k = Some M -> maj_size M' = maj_size M ->
  h_majors h' = <[k := M']> (h_majors h) -> in_heap h a n = true -> in_heap h' a n = true.
Proof.
  intros Hk Es Eh Hin. eapply in_heap_ext; [exact Hin|]. intros k' M0 Hk'. rewrite Eh.
  destruct (decide (k' = k)) as [->|Hne].
  - exists M'. rewrite lookup_insert_eq. split; [done|]. congruence.
  - exists M0. by rewrite lookup_insert_ne.
Qed.

(** ** Alignment *)

Lemma align_diff q : 0 <= q ->
  align_up q = q + (if decide (Z.land q 15 = 0) then 0 else 16 - Z.land q 15).
Proof.
  intros Hq. unfold align_up, ALIGNMENT. change 15 with (Z.ones 4). rewrite Z.land_ones by lia.
  change (2 ^ 4) with 16. case_decide; lia.
Qed.

Lemma ALIGN_spec h x : 0 <= al_at x -> al_at x + 72 <= 2 ^ 64 ->
  in_heap h (al_ptr x - ALIGN_INFO) 1 = true ->
  ALIGN h (al_at x + sizeof_minor)
    = Ok (set_bytes h (<[al_ptr x - ALIGN_INFO := al_ptr x - (al_at x + sizeof_minor)]> (h_bytes h)), al_ptr x).
Proof.
  intros Hx H64 Hin. destruct (al_ptr_spec x Hx) as [_ Hp]. unfold ALIGN, ALIGN_INFO, ALIGNMENT, sizeof_minor in *.
  change (16 - 1) with 15. rewrite (wrapu_small 64 (al_at x + 40 + 16)) by lia.
  set (d := if decide (Z.land (al_at x + 40 + 16) 15 = 0) then 0 else 16 - Z.land (al_at x + 40 + 16) 15).
  assert (al_ptr x = al_at x + 40 + 16 + d) as Ep by (unfold al_ptr; apply align_diff; lia).
  rewrite <- Ep. rewrite (wrapu_small 64 (al_ptr x)) by lia. rewrite wrapu_small by lia.
  unfold store_byte. rewrite Hin. cbn [bind]. rewrite wrapu_small by lia.
  repeat f_equal. lia.
Qed.

(** ** Finishing an allocation *)

(** A request that the 32-bit fields can hold. *)
Definition small (req : Z) : Prop := 0 <= req < 2 ^ 31.

(** Where [x] goes in the block [b], between [l1] and [l2]. *)
Record gap (b : block) (l1 : list alloc) (x : alloc) (l2 : list alloc) : Prop := {
  gp_allocs : bl_allocs b = l1 ++ l2;
  gp_lo : end_of (bl_at b + sizeof_major) l1 <= al_at x;
  gp_hi : al_end x <= start_of l2 (bl_end b);
  gp_req : small (al_req x);
  gp_size : al_size x = al_req x + 32
}.

Definition with_alloc (b : block) (l1 : list alloc) (x : alloc) (l2 : list alloc) : block :=
  mk_block (bl_at b) (bl_pages b) (l1 ++ x :: l2).

Lemma gap_bounds h B1 b B2 l1 x l2 : heap_inv h (B1 ++ b :: B2) -> gap b l1 x l2 ->
  bl_at b + 40 <= al_at x /\ al_end x <= bl_end b /\ 0 < bl_at b /\ bl_end b <= 2 ^ 64 /\ bl_size b < 2 ^ 32.
Proof.
  intros Hi [Ea Hlo Hhi Hr Hs]. pose proof (inv_block _ _ _ _ Hi) as Hb.
  pose proof (bo_layout _ _ _ Hb) as Hl. rewrite Ea in Hl. unfold small in Hr.
  pose proof (layout_insert l1 _ x l2 _ Hl Hlo Hhi ltac:(lia) ltac:(lia)) as Hn.
  assert (x ∈ l1 ++ x :: l2) as Hin by (apply elem_of_app; right; by left).
  destruct (layout_bounds _ _ _ _ Hn Hin) as (? & ? & _).
  pose proof (bo_at _ _ _ Hb). pose proof (bo_end _ _ _ Hb). pose proof (bo_size _ _ _ Hb).
  unfold sizeof_major in *. lia.
Qed.

Lemma gap_live h B1 b B2 l1 x l2 c z : heap_inv h (B1 ++ b :: B2) -> gap b l1 x l2 ->
  c ∈ B1 ++ b :: B2 -> z ∈ bl_allocs c ->
  (al_end x <= al_at z \/ al_end z <= al_at x) /\ al_at z + sizeof_minor <= al_end z.
Proof.
  intros Hi Hg Hc Hz. destruct (gap_bounds _ _ _ _ _ _ _ Hi Hg) as (Hx1 & Hx2 & _).
  rewrite elem_of_app, elem_of_cons in Hc.
  assert (c = b \/ c ∈ B1 ++ B2) as [->|Hc'] by (rewrite elem_of_app; tauto).
  - pose proof (inv_block _ _ _ _ Hi) as Hb. pose proof (bo_layout _ _ _ Hb) as Hl.
    destruct (layout_bounds _ _ _ _ Hl Hz) as (_ & _ & ? & ?).
    split; [|unfold al_end; lia]. destruct Hg as [Ea Hlo Hhi _ _]. rewrite Ea in *.
    apply elem_of_app in Hz as [Hz|Hz].
    + right. pose proof (layout_before _ _ _ _ _ Hl Hz). lia.
    + left. pose proof (layout_after _ _ _ _ _ Hl Hz). lia.
  - destruct (inv_other _ _ _ _ _ Hi Hc') as [Hap Hcok].
    destruct (alloc_in_block _ _ _ _ Hcok Hz) as (? & ? & ? & ?).
    split; [unfold apart in Hap; lia|unfold al_end; lia].
Qed.

(** The headers of other allocations survive the new header. *)
Lemma gap_kept h B1 b B2 l1 x l2 c z (mn : gmap Z liballoc_minor) : heap_inv h (B1 ++ b :: B2) -> gap b l1 x l2 ->
  c ∈ B1 ++ b :: B2 -> z ∈ bl_allocs c ->
  filter (fun kv : Z * liballoc_minor =>
            ~ (al_at x < kv.1 + sizeof_minor /\ kv.1 < al_at x + sizeof_minor + al_size x))
    mn !! al_at z = mn !! al_at z /\ al_at z <> al_at x.
Proof.
  intros Hi Hg Hc Hz. destruct (gap_live _ _ _ _ _ _ _ _ _ Hi Hg Hc Hz) as [Hd Hz'].
  destruct Hg as [_ _ _ Hr Hs]. unfold small, al_end, sizeof_minor in *.
  split; [apply kept_lookup; unfold sizeof_minor; lia|lia].
Qed.

(** The heap after the allocation: the invariant, and only the alignment byte
    written. *)
Definition installed h h' B1 b B2 l1 x l2 : Prop :=
  heap_inv h' (B1 ++ with_alloc b l1 x l2 :: B2) /\
  h_bytes h' = <[al_ptr x - ALIGN_INFO := al_ptr x - (al_at x + sizeof_minor)]> (h_bytes h).

Lemma finish_spec h h1 B1 b B2 l1 x l2 :
  heap_inv h (B1 ++ b :: B2) -> gap b l1 x l2 ->
  h_majors h1 = <[bl_at b := mk_major (last_of bl_at B1 0) (first_of bl_at B2 0) (bl_pages b) (bl_size b)
                    (sizeof_major + used (bl_allocs b)) (first_of al_at (l1 ++ x :: l2) 0)]> (h_majors h) ->
  dll al_at (minor_of (bl_at b)) (h_minors h1) 0 (l1 ++ x :: l2) 0 ->
  (forall c z, c ∈ B1 ++ B2 -> z ∈ bl_allocs c -> h_minors h1 !! al_at z = h_minors h !! al_at z) ->
  h_bytes h1 = h_bytes h -> h_pages h1 = h_pages h -> l_memRoot h1 = l_memRoot h ->
  l_bestBet h1 = l_bestBet h -> l_allocated h1 = l_allocated h -> l_inuse h1 = l_inuse h ->
  exists h', account h1 (bl_at b) (al_at x) (al_size x) = Ok (h', al_ptr x) /\
    installed h h' B1 b B2 l1 x l2.
Proof.
  intros Hi Hg Emaj Hdll Hoth Eby Epg Eroot Ebet Eall Euse.
  destruct (gap_bounds _ _ _ _ _ _ _ Hi Hg) as (Hx1 & Hx2 & Hpos & Hend & Hsz).
  pose proof Hg as [Ea Hlo Hhi Hr Hs]. unfold small in Hr.
  pose proof (inv_block _ _ _ _ Hi) as Hb. pose proof (bo_layout _ _ _ Hb) as Hl.
  assert (layout (bl_at b + sizeof_major) (l1 ++ x :: l2) (bl_end b)) as Hl'.
  { rewrite Ea in Hl. apply layout_insert; (done || lia). }
  apply layout_used in Hl'.
  assert (used (l1 ++ x :: l2) = used (bl_allocs b) + al_size x + sizeof_minor) as Eused.
  { rewrite Ea, !used_app, used_cons. lia. }
  assert (0 <= used (bl_allocs b)) by (apply layout_used in Hl; lia).
  destruct (al_ptr_spec x ltac:(lia)) as [_ Hp]. unfold account.
  assert (h_majors h1 !! bl_at b = Some (mk_major (last_of bl_at B1 0) (first_of bl_at B2 0) (bl_pages b)
     (bl_size b) (sizeof_major + used (bl_allocs b)) (first_of al_at (l1 ++ x :: l2) 0))) as Em
    by (rewrite Emaj; apply lookup_insert_eq).
  rewrite (getM_Ok _ _ _ Em). cbn [bind]. rewrite (modM_Ok _ _ _ _ Em). cbn [bind].
  unfold al_end, bl_end, sizeof_minor, sizeof_major in *.
  rewrite (wrapu_small 64 (al_at x + 40)) by lia.
  rewrite (ALIGN_spec _ x); [|lia|lia|].
  2:{ eapply in_heap_insert; [exact Em| |reflexivity|]; [done|].
      eapply in_heap_insert; [apply (inv_major _ _ _ _ Hi)| |exact Emaj|]; [done|].
      eapply inv_in_heap; [exact Hi|unfold ALIGN_INFO; lia|unfold ALIGN_INFO, bl_end; lia]. }
  eexists. split; [reflexivity|]. split; [|cbn; by rewrite Eby].
  eapply (install_inv h _ B1 b B2 l1 x l2); try done; try (unfold al_end, sizeof_minor, sizeof_major; lia).
  - cbn -[used wrapu]. rewrite Emaj, insert_insert_eq. unfold maj_set_usage, major_of. cbn -[used wrapu].
    unfold bl_size at 2. cbn [bl_pages]. rewrite wrapu_small by lia. do 2 f_equal.
    rewrite Eused. unfold sizeof_major. lia.
  - cbn. by rewrite Eby.
  - cbn. by rewrite Euse.
Qed.

(** ** The cases *)

Lemma put_minor_Ok h x m : in_heap h (al_at x) sizeof_minor = true -> min_size m = al_size x ->
  put_minor h (al_at x) m
    = Ok (set_minors h (<[al_at x := m]> (filter (fun kv : Z * liballoc_minor =>
            ~ (al_at x < kv.1 + sizeof_minor /\ kv.1 < al_at x + sizeof_minor + al_size x)) (h_minors h)))).
Proof. intros Hin Es. unfold put_minor. by rewrite Hin, Es. Qed.

Lemma gap_in_heap h B1 b B2 l1 x l2 : heap_inv h (B1 ++ b :: B2) -> gap b l1 x l2 ->
  in_heap h (al_at x) sizeof_minor = true.
Proof.
  intros Hi Hg. destruct (gap_bounds _ _ _ _ _ _ _ Hi Hg) as (? & ? & _). destruct Hg as [_ _ _ Hr Hs].
  eapply inv_in_heap; [exact Hi|lia|]. unfold al_end, sizeof_minor, small in *. lia.
Qed.

Section case.
Context (h : heap (P := P)) (B1 : list block) (b : block) (B2 : list block) (x : alloc).
Hypothesis Hi : heap_inv h (B1 ++ b :: B2).

Lemma middle_in : b ∈ B1 ++ b :: B2.
Proof. apply elem_of_app. right. by left. Qed.

Lemma others_in c : c ∈ B1 ++ B2 -> c ∈ B1 ++ b :: B2.
Proof. rewrite !elem_of_app, elem_of_cons. tauto. Qed.

(** The 32-bit fields hold the sizes. *)
Lemma gap_fields l1 l2 : gap b l1 x l2 -> u32 (al_size x) = al_size x /\ u32 (al_req x) = al_req x.
Proof. intros [_ _ _ Hr Hs]. unfold small in Hr. split; apply wrapu_small; lia. Qed.

Lemma major_self l1 l2 : first_of al_at (l1 ++ l2) 0 = first_of al_at (bl_allocs b) 0 ->
  h_majors h = <[bl_at b := mk_major (last_of bl_at B1 0) (first_of bl_at B2 0) (bl_pages b) (bl_size b)
                   (sizeof_major + used (bl_allocs b)) (first_of al_at (l1 ++ l2) 0)]> (h_majors h).
Proof. intros ->. symmetry. apply insert_id. apply (inv_major _ _ _ _ Hi). Qed.

(** Allocations of different blocks have different headers. *)
Lemma other_ne c z y : c ∈ B1 ++ B2 -> z ∈ bl_allocs c -> y ∈ bl_allocs b -> al_at y <> al_at z.
Proof.
  intros Hc Hz Hy. destruct (inv_other _ _ _ _ _ Hi Hc) as [Hap Hcok].
  destruct (alloc_in_block _ _ _ _ Hcok Hz) as (? & ? & ? & ?).
  destruct (alloc_in_block _ _ _ _ (inv_block _ _ _ _ Hi) Hy) as (? & ? & ? & ?).
  unfold apart, al_end, sizeof_minor in *. lia.
Qed.

Lemma case2_spec : gap b [] x [] -> al_at x = bl_at b + sizeof_major ->
  exists h', case2 h (bl_at b) (al_size x) (al_req x) = Ok (h', al_ptr x) /\
    installed h h' B1 b B2 [] x [].
Proof.
  intros Hg Hat. destruct (gap_fields _ _ Hg) as [E1 E2].
  destruct (gap_bounds _ _ _ _ _ _ _ Hi Hg) as (? & ? & ? & ? & ?). unfold case2.
  rewrite wrapu_small by (unfold al_end, sizeof_major, sizeof_minor in *; destruct Hg as [_ _ _ Hr ?]; unfold small in Hr; lia).
  rewrite <- Hat. rewrite (modM_Ok _ _ _ _ (inv_major _ _ _ _ Hi)). cbn [bind].
  rewrite put_minor_Ok; [|eapply in_heap_insert; [apply (inv_major _ _ _ _ Hi)| |reflexivity|by eapply gap_in_heap]; done|done].
  cbn [bind]. rewrite E1, E2.
  apply (finish_spec h _ B1 b B2 [] x []); try done.
  - cbn. split; [|done]. by rewrite lookup_insert_eq.
  - intros c z Hc Hz. cbn. destruct (gap_kept _ _ _ _ _ _ _ c z (h_minors h) Hi Hg (others_in _ Hc) Hz) as [Hk Hne].
    by rewrite lookup_insert_ne.
Qed.

Lemma case3_spec y l2 : gap b [] x (y :: l2) -> al_at x = bl_at b + sizeof_major ->
  exists h', case3 h (bl_at b) (al_at y) (al_size x) (al_req x) = Ok (h', al_ptr x) /\
    installed h h' B1 b B2 [] x (y :: l2).
Proof.
  intros Hg Hat. destruct (gap_fields _ _ Hg) as [E1 E2].
  destruct (gap_bounds _ _ _ _ _ _ _ Hi Hg) as (? & ? & ? & ? & ?).
  pose proof (inv_block _ _ _ _ Hi) as Hb. pose proof (bo_minors _ _ _ Hb) as Hd.
  pose proof (bo_layout _ _ _ Hb) as Hl. rewrite (gp_allocs _ _ _ _ Hg) in Hd, Hl. cbn [app dll] in Hd.
  assert (forall z, z ∈ y :: l2 -> z ∈ bl_allocs b) as Hin by (intros z; by rewrite (gp_allocs _ _ _ _ Hg)).
  destruct Hd as [Hy Hd]. unfold case3.
  rewrite wrapu_small by (unfold al_end, sizeof_major, sizeof_minor in *; destruct Hg as [_ _ _ Hr ?]; unfold small in Hr; lia).
  rewrite <- Hat. rewrite (modm_Ok _ _ _ _ Hy). cbn [bind].
  rewrite put_minor_Ok; [|by eapply (gap_in_heap h)|done]. cbn [bind].
  rewrite (modM_Ok _ _ _ (major_of (last_of bl_at B1 0) (first_of bl_at B2 0) b));
    [|cbn; apply (inv_major _ _ _ _ Hi)]. cbn [bind]. rewrite E1, E2.
  assert (forall z, z ∈ y :: l2 -> al_at z <> al_at x) as Hnx.
  { intros z Hz. apply (gap_kept _ _ _ _ _ _ _ b z (h_minors h) Hi Hg middle_in (Hin z Hz)). }
  apply (finish_spec h _ B1 b B2 [] x (y :: l2)); try done.
  - cbn [h_minors set_majors set_minors]. apply (dll_insert _ _ (h_minors h) _ 0 []); [done|by rewrite lookup_insert_eq| |].
    { intros l1' w E. by destruct l1'. }
    intros w l2' [= <- <-]. split.
    + rewrite lookup_insert_ne by (symmetry; apply Hnx; by left).
      rewrite (proj1 (gap_kept _ _ _ _ _ _ _ b y _ Hi Hg middle_in (Hin y ltac:(by left)))).
      by rewrite lookup_insert_eq.
    + intros z Hz. rewrite lookup_insert_ne by (symmetry; apply Hnx; by right).
      rewrite (proj1 (gap_kept _ _ _ _ _ _ _ b z _ Hi Hg middle_in (Hin z ltac:(by right)))).
      destruct (proj2 (layout_order _ [] y l2 _ z Hl) Hz). rewrite lookup_insert_ne by lia. done.
  - intros c z Hc Hz. cbn [h_minors set_majors set_minors].
    destruct (gap_kept _ _ _ _ _ _ _ c z (<[al_at y:=min_set_prev (al_at x) (minor_of (bl_at b) 0 (first_of al_at l2 0) y)]> (h_minors h))
      Hi Hg (others_in _ Hc) Hz) as [Hk Hne].
    rewrite lookup_insert_ne by done. rewrite Hk, lookup_insert_ne; [done|].
    by apply (other_ne c z y Hc Hz), Hin; left.
Qed.

(** The header before the gap. *)
Lemma gap_before l1 y l2 : gap b (l1 ++ [y]) x l2 -> al_at x = al_end y ->
  h_minors h !! al_at y = Some (minor_of (bl_at b) (last_of al_at l1 0) (first_of al_at l2 0) y) /\
  u64 (al_at y + sizeof_minor + al_size y) = al_at x.
Proof.
  intros Hg Hat. pose proof (inv_block _ _ _ _ Hi) as Hb.
  destruct (gap_bounds _ _ _ _ _ _ _ Hi Hg) as (? & ? & ? & ? & ?). split.
  - pose proof (bo_minors _ _ _ Hb) as Hd. rewrite (gp_allocs _ _ _ _ Hg), <- app_assoc in Hd.
    exact (dll_middle _ _ _ _ _ _ _ _ Hd).
  - fold (al_end y). rewrite <- Hat. apply wrapu_small. destruct Hg as [_ _ _ Hr ?].
    unfold al_end, sizeof_minor, small in *. lia.
Qed.

(** Headers of the block other than [y] and the new one are not touched. *)
Lemma gap_untouched l1 y l2 z : gap b (l1 ++ [y]) x l2 -> z ∈ l1 \/ z ∈ l2 ->
  al_at z <> al_at x /\ al_at z <> al_at y /\ al_at y <> al_at x /\ z ∈ bl_allocs b /\ y ∈ bl_allocs b.
Proof.
  intros Hg Hz. pose proof (bo_layout _ _ _ (inv_block _ _ _ _ Hi)) as Hl. pose proof (gp_allocs _ _ _ _ Hg) as Ea.
  assert (z ∈ bl_allocs b /\ y ∈ bl_allocs b) as [Hzb Hyb].
  { rewrite Ea, !elem_of_app, !list_elem_of_singleton. tauto. }
  rewrite Ea, <- app_assoc in Hl. pose proof (layout_order _ _ _ _ _ z Hl) as [Ho1 Ho2].
  split_and!; try done.
  - apply (gap_kept _ _ _ _ _ _ _ b z (h_minors h) Hi Hg middle_in Hzb).
  - destruct Hz as [Hz|Hz]; [destruct (Ho1 Hz)|destruct (Ho2 Hz)]; lia.
  - apply (gap_kept _ _ _ _ _ _ _ b y (h_minors h) Hi Hg middle_in Hyb).
Qed.

Lemma case4_end_spec l1 y : gap b (l1 ++ [y]) x [] -> al_at x = al_end y ->
  exists h', case4_end h (bl_at b) (al_at y) (minor_of (bl_at b) (last_of al_at l1 0) 0 y)
      (al_size x) (al_req x) = Ok (h', al_ptr x) /\
    installed h h' B1 b B2 (l1 ++ [y]) x [].
Proof.
  intros Hg Hat. destruct (gap_fields _ _ Hg) as [E1 E2]. destruct (gap_before _ _ _ Hg Hat) as [Hy Eu].
  pose proof (bo_minors _ _ _ (inv_block _ _ _ _ Hi)) as Hd. rewrite (gp_allocs _ _ _ _ Hg) in Hd.
  assert (y ∈ bl_allocs b) as Hyb by (rewrite (gp_allocs _ _ _ _ Hg); apply elem_of_app; left; apply elem_of_app; right; by left).
  unfold case4_end. cbn [min_size minor_of]. rewrite Eu, (modm_Ok _ _ _ _ Hy). cbn [bind].
  rewrite put_minor_Ok; [|by eapply (gap_in_heap h)|done]. cbn [bind]. rewrite E1, E2.
  apply (finish_spec h _ B1 b B2 (l1 ++ [y]) x []); try done.
  - cbn. rewrite (major_self (l1 ++ [y]) (x :: [])) at 1; [done|].
    rewrite (gp_allocs _ _ _ _ Hg). by destruct l1.
  - cbn [h_minors set_majors set_minors]. apply (dll_insert _ _ (h_minors h) _ 0 (l1 ++ [y]) x []); [done|rewrite last_of_app; by rewrite lookup_insert_eq| |done].
    intros l1' w [<- [= <-]]%app_inj_tail. split.
    + rewrite lookup_insert_ne by (intros E; symmetry in E; revert E; apply (gap_kept _ _ _ _ _ _ _ b y (h_minors h) Hi Hg middle_in Hyb)).
      rewrite (proj1 (gap_kept _ _ _ _ _ _ _ b y _ Hi Hg middle_in Hyb)). by rewrite lookup_insert_eq.
    + intros z Hz. destruct (gap_untouched _ _ _ z Hg ltac:(by left)) as (N1 & N2 & _ & Hzb & _).
      rewrite lookup_insert_ne by done. rewrite (proj1 (gap_kept _ _ _ _ _ _ _ b z _ Hi Hg middle_in Hzb)).
      by rewrite lookup_insert_ne.
  - intros c z Hc Hz. cbn [h_minors set_majors set_minors].
    destruct (gap_kept _ _ _ _ _ _ _ c z (<[al_at y:=min_set_next (al_at x) (minor_of (bl_at b) (last_of al_at l1 0) (first_of al_at [] 0) y)]> (h_minors h))
      Hi Hg (others_in _ Hc) Hz) as [Hk Hne].
    rewrite lookup_insert_ne by done. rewrite Hk, lookup_insert_ne; [done|].
    by apply (other_ne c z y Hc Hz).
Qed.

Lemma case4_between_spec l1 y w l2 : gap b (l1 ++ [y]) x (w :: l2) -> al_at x = al_end y ->
  exists h', case4_between h (bl_at b) (al_at y) (minor_of (bl_at b) (last_of al_at l1 0) (al_at w) y)
      (al_size x) (al_req x) = Ok (h', al_ptr x) /\
    installed h h' B1 b B2 (l1 ++ [y]) x (w :: l2).
Proof.
  intros Hg Hat. destruct (gap_fields _ _ Hg) as [E1 E2]. destruct (gap_before _ _ _ Hg Hat) as [Hy Eu].
  pose proof (bo_minors _ _ _ (inv_block _ _ _ _ Hi)) as Hd. rewrite (gp_allocs _ _ _ _ Hg) in Hd.
  destruct (gap_untouched _ _ _ w Hg ltac:(right; by left)) as (Nwx & Nwy & Nyx & Hwb & Hyb).
  assert (h_minors h !! al_at w = Some (minor_of (bl_at b) (al_at y) (first_of al_at l2 0) w)) as Hw.
  { rewrite (dll_middle _ _ _ _ _ _ _ _ Hd). by rewrite last_of_app. }
  unfold case4_between. cbn [min_size min_next minor_of]. rewrite Eu.
  rewrite put_minor_Ok; [|by eapply (gap_in_heap h)|done]. cbn [bind].
  set (m1 := <[al_at x := _]> (filter _ _)).
  assert (forall c z, c ∈ B1 ++ b :: B2 -> z ∈ bl_allocs c -> m1 !! al_at z = h_minors h !! al_at z) as Hm1.
  { intros c z Hc Hz. destruct (gap_kept _ _ _ _ _ _ _ c z (h_minors h) Hi Hg Hc Hz) as [Hk Hne].
    subst m1. by rewrite lookup_insert_ne, Hk. }
  assert (m1 !! al_at w = Some (minor_of (bl_at b) (al_at y) (first_of al_at l2 0) w)) as Hw1
    by (rewrite (Hm1 b w middle_in Hwb); exact Hw).
  rewrite (modm_Ok (set_minors h m1) _ _ _ Hw1). cbn [bind].
  set (m2 := <[al_at w := _]> _).
  assert (m2 !! al_at y = Some (minor_of (bl_at b) (last_of al_at l1 0) (al_at w) y)) as Hy2.
  { subst m2. rewrite lookup_insert_ne by done. cbn. rewrite (Hm1 b y middle_in Hyb). exact Hy. }
  rewrite (modm_Ok (set_minors (set_minors h m1) m2) _ _ _ Hy2). cbn [bind].
  assert (m1 !! al_at x = Some (minor_of (bl_at b) (al_at y) (al_at w) x)) as Hx1
    by (subst m1; rewrite lookup_insert_eq, E1, E2; done).
  clearbody m1. subst m2.
  apply (finish_spec h _ B1 b B2 (l1 ++ [y]) x (w :: l2)); try done.
  - cbn. rewrite (major_self (l1 ++ [y]) (x :: w :: l2)) at 1; [done|].
    rewrite (gp_allocs _ _ _ _ Hg). by destruct l1.
  - cbn [h_minors set_majors set_minors]. apply (dll_insert _ _ (h_minors h) _ 0 (l1 ++ [y]) x (w :: l2)); [done| | |].
    + rewrite !lookup_insert_ne by done. rewrite last_of_app. exact Hx1.
    + intros l1' v [<- [= <-]]%app_inj_tail. split; [by rewrite lookup_insert_eq|].
      intros z Hz. destruct (gap_untouched _ _ _ z Hg ltac:(by left)) as (N1 & N2 & _ & Hzb & _).
      rewrite !lookup_insert_ne; [by apply (Hm1 b z middle_in Hzb)| |done].
      pose proof (bo_layout _ _ _ (inv_block _ _ _ _ Hi)) as Hl. rewrite (gp_allocs _ _ _ _ Hg) in Hl.
      destruct (proj1 (layout_order _ _ _ _ _ z Hl)); [apply elem_of_app; by left|lia].
    + intros v l2' [= <- <-]. split.
      * rewrite lookup_insert_ne by done. by rewrite lookup_insert_eq.
      * intros z Hz. destruct (gap_untouched _ _ _ z Hg ltac:(right; by right)) as (N1 & N2 & _ & Hzb & _).
        rewrite !lookup_insert_ne; [by apply (Hm1 b z middle_in Hzb)| |done].
        pose proof (bo_layout _ _ _ (inv_block _ _ _ _ Hi)) as Hl. rewrite (gp_allocs _ _ _ _ Hg) in Hl.
        destruct (proj2 (layout_order _ _ _ _ _ z Hl)); [done|lia].
  - intros c z Hc Hz. cbn [h_minors set_majors set_minors].
    rewrite !lookup_insert_ne; [by apply (Hm1 c z (others_in _ Hc) Hz)| |];
      by apply (other_ne c z _ Hc Hz).
Qed.
End case.

(** ** The search inside a block *)

Lemma layout_nodup l : forall lo hi, layout lo l hi -> NoDup (al_at <$> l).
Proof.
  induction l as [|a l IH]; intros lo hi; [by constructor|]. cbn [layout fmap list_fmap].
  intros (? & ? & ? & Hl). apply NoDup_cons. split; [|by eapply IH].
  intros (z & Ez & Hz)%list_elem_of_fmap. destruct (layout_bounds _ _ _ _ Hl Hz).
  unfold al_end, sizeof_minor in *. lia.
Qed.

(** A list in a map is no longer than the map is large. *)
Lemma dll_length {X V} (key : X -> Z) (entry : Z -> Z -> X -> V) (m : gmap Z V) l :
  NoDup (key <$> l) -> forall prev nxt, dll key entry m prev l nxt -> (length l <= size m)%nat.
Proof.
  intros Hnd prev nxt Hd. rewrite <- (length_fmap key l), <- (size_list_to_set (C := gset Z)) by done.
  rewrite <- size_dom. apply subseteq_size. intros k. rewrite elem_of_list_to_set, elem_of_dom.
  clear Hnd. revert prev Hd. induction l as [|x l IH]; intros prev; [intros _ []%not_elem_of_nil|].
  cbn [dll fmap list_fmap]. intros [Hx Hl] [->|Hk]%elem_of_cons; [by eexists|by eapply IH].
Qed.

Section search.
Context (h : heap (P := P)) (B1 : list block) (b : block) (B2 : list block) (req : Z).
Hypothesis Hi : heap_inv h (B1 ++ b :: B2).
Hypothesis Hreq : small req.

(** The request is served from the block, and the invariant holds. *)
Definition served (r : heap * Z) : Prop :=
  exists l1 x l2, r.2 = al_ptr x /\ al_req x = req /\ gap b l1 x l2 /\
    installed h r.1 B1 b B2 l1 x l2.

(** The distance between an allocation and what follows it. *)
Lemma distance_after l1 y l2 : bl_allocs b = l1 ++ y :: l2 ->
  u64 (start_of l2 (bl_end b) - al_at y - sizeof_minor - al_size y) = start_of l2 (bl_end b) - al_end y /\
  0 <= start_of l2 (bl_end b) - al_end y.
Proof.
  intros Ea. pose proof (inv_block _ _ _ _ Hi) as Hb. pose proof (bo_layout _ _ _ Hb) as Hl.
  pose proof (bo_end _ _ _ Hb). pose proof (bo_at _ _ _ Hb). rewrite Ea in Hl.
  apply layout_app in Hl as [_ Hl]. cbn [layout] in Hl. destruct Hl as (? & ? & ? & Hl).
  assert (al_end y <= start_of l2 (bl_end b) <= bl_end b) as Hs.
  { split; [destruct l2; cbn in *; lia|].
    destruct l2 as [|w l2]; [cbn in *; lia|]. destruct (layout_bounds _ _ _ w Hl ltac:(by left)) as (? & ? & ? & ?).
    cbn. unfold al_end, sizeof_minor in *. lia. }
  assert (bl_at b <= al_at y).
  { destruct (alloc_in_block _ _ _ y Hb) as (? & _); [rewrite Ea; apply elem_of_app; right; by left|lia]. }
  split; [|lia]. rewrite wrapu_small; unfold al_end, sizeof_minor in *; lia.
Qed.

Lemma request_small : u64 (req + 32 + sizeof_minor) = req + 72.
Proof. unfold small in Hreq. rewrite wrapu_small; unfold sizeof_minor; lia. Qed.

Lemma case4_ok l2 : forall l1 y fuel, bl_allocs b = l1 ++ y :: l2 -> (length l2 < fuel)%nat ->
  exists r, case4 h (bl_at b) (major_of (last_of bl_at B1 0) (first_of bl_at B2 0) b) (al_at y) (req + 32) req fuel
    = Ok r /\ from_option served True r.
Proof.
  pose proof (inv_block _ _ _ _ Hi) as Hb.
  induction l2 as [|w l2 IH]; intros l1 y fuel Ea Hf; (destruct fuel as [|f]; [cbn in Hf; lia|]);
    (assert (y ∈ bl_allocs b) as Hy by (rewrite Ea; apply elem_of_app; right; by left));
    destruct (alloc_in_block _ _ _ _ Hb Hy) as (? & ? & ? & ?); pose proof (bo_at _ _ _ Hb);
    destruct (distance_after _ _ _ Ea) as [Ed Hd];
    pose proof (bo_minors _ _ _ Hb) as Hdll; rewrite Ea in Hdll; apply dll_middle in Hdll;
    cbn [case4 first_of start_of] in *; rewrite decide_False by lia;
    rewrite (getm_Ok _ _ _ Hdll); cbn [bind min_next minor_of min_size maj_size major_of];
    rewrite request_small.
  - rewrite decide_True by done. fold (bl_end b). rewrite Ed. case_decide as Hfit; [|by exists None].
    pose (x := mk_alloc (al_end y) (req + 32) req).
    assert (gap b (l1 ++ [y]) x []) as Hg.
    { split; cbn; [by rewrite Ea, app_nil_r|by rewrite end_of_snoc| |done|done].
      unfold al_end at 1. cbn. unfold sizeof_minor. lia. }
    destruct (case4_end_spec h B1 b B2 x Hi l1 y Hg eq_refl) as (h' & E & Hi').
    cbn [al_size al_req x] in E. rewrite E. cbn [bind]. eexists. split; [done|]. cbn.
    exists (l1 ++ [y]), x, []. by split_and!.
  - assert (w ∈ bl_allocs b) as Hw by (rewrite Ea; apply elem_of_app; right; right; by left).
    destruct (alloc_in_block _ _ _ _ Hb Hw) as (? & _). rewrite decide_False by lia. rewrite Ed.
    case_decide as Hfit; [|apply (IH (l1 ++ [y])); [by rewrite <- app_assoc|cbn in Hf; lia]].
    pose (x := mk_alloc (al_end y) (req + 32) req).
    assert (gap b (l1 ++ [y]) x (w :: l2)) as Hg.
    { split; cbn; [by rewrite <- app_assoc|by rewrite end_of_snoc| |done|done].
      unfold al_end at 1. cbn. unfold sizeof_minor. lia. }
    destruct (case4_between_spec h B1 b B2 x Hi l1 y w l2 Hg eq_refl) as (h' & E & Hi').
    cbn [al_size al_req x] in E. rewrite E. cbn [bind]. eexists. split; [done|]. cbn.
    exists (l1 ++ [y]), x, (w :: l2). by split_and!.
Qed.

(** With enough free bytes in the block, [place] either serves the request or
    finds that no gap is large enough; an empty block serves it. *)
Lemma place_ok : req + 72 <= bl_size b - (sizeof_major + used (bl_allocs b)) ->
  exists r, place h (bl_at b) (req + 32) req = Ok r /\ from_option served (bl_allocs b <> []) r.
Proof.
  intros Hfree. pose proof (inv_block _ _ _ _ Hi) as Hb. pose proof (inv_major _ _ _ _ Hi) as Hm.
  pose proof (bo_at _ _ _ Hb). unfold place. rewrite (getM_Ok _ _ _ Hm). cbn [bind major_of maj_first].
  pose (x := mk_alloc (bl_at b + sizeof_major) (req + 32) req). rewrite request_small.
  destruct (bl_allocs b) as [|y l] eqn:Ea; cbn [first_of].
  - rewrite decide_True by done.
    assert (gap b [] x []) as Hg.
    { split; cbn; [done|lia| |done|done]. unfold al_end, bl_end, sizeof_minor, sizeof_major in *. cbn in *. lia. }
    destruct (case2_spec h B1 b B2 x Hi Hg eq_refl) as (h' & E & Hi').
    cbn [al_size al_req x] in E. rewrite E. cbn [bind]. eexists. split; [done|].
    exists [], x, []. by split_and!.
  - assert (y ∈ bl_allocs b) as Hy by (rewrite Ea; by left).
    destruct (alloc_in_block _ _ _ _ Hb Hy) as (? & ? & ? & ?). pose proof (bo_end _ _ _ Hb).
    rewrite decide_False by lia.
    rewrite (wrapu_small 64) by (unfold al_end, sizeof_major, sizeof_minor in *; lia). case_decide as Hfit.
    + assert (gap b [] x (y :: l)) as Hg.
      { split; cbn; [done|lia| |done|done]. unfold al_end, sizeof_minor, sizeof_major in *. cbn in *. lia. }
      destruct (case3_spec h B1 b B2 x Hi y l Hg eq_refl) as (h' & E & Hi').
      cbn [al_size al_req x] in E. rewrite E. cbn [bind]. eexists. split; [done|].
      exists [], x, (y :: l). by split_and!.
    + destruct (case4_ok l [] y (minor_fuel h) Ea) as (r & E & Hr).
      { pose proof (dll_length _ _ _ _ (layout_nodup _ _ _ (bo_layout _ _ _ Hb)) _ _ (bo_minors _ _ _ Hb)) as Hlen.
        rewrite Ea in Hlen. cbn in Hlen. unfold minor_fuel. lia. }
      rewrite E. exists r. split; [done|]. by destruct r.
Qed.
End search.
End malloc.
