(* ===== verification/LiballocSearch.v ===== *)
(** * The search for a free place in the kernel heap

    [malloc] (src/kernel/mem/liballoc/liballoc_1_1.c) visits the blocks from
    the best bet, then from the root, and takes new pages when none of them
    has a gap: the search ends, keeps the invariant, and returns NULL only
    when the page allocator has no pages left. *)

From stdpp Require Import gmap.
From S2P Require Import Prelude Liballoc LiballocInv LiballocMalloc.

Local Open Scope Z_scope.

Section search.
Context {P : Type} `{PageSourceLaws P}.
Implicit Types (h : heap (P := P)) (B : list block).

(** ** New blocks *)

(** The number of pages asked for to serve a request. *)
Definition pages_for (req : Z) : Z :=
  let st := req + 32 + sizeof_major + sizeof_minor in
  Z.max l_pageCount (if decide (st mod l_pageSize = 0) then st / l_pageSize else st / l_pageSize + 1).

Definition no_pages (p : P) (req : Z) : Prop := (RequestPages p (pages_for req)).1 = None.

Lemma pages_for_spec req : small req ->
  16 <= pages_for req < 2 ^ 20 /\ req + 112 <= pages_for req * l_pageSize.
Proof.
  unfold small, pages_for, l_pageSize, l_pageCount, sizeof_major, sizeof_minor. intros Hr.
  pose proof (Z.div_mod (req + 32 + 40 + 40) 4096 ltac:(lia)).
  pose proof (Z.mod_pos_bound (req + 32 + 40 + 40) 4096 ltac:(lia)).
  case_decide; lia.
Qed.

Lemma allocate_new_page_ok h req : small req ->
  (no_pages (h_pages h) req /\
   allocate_new_page h (req + 32) = Ok (warned (set_pages h (RequestPages (h_pages h) (pages_for req)).2), 0)) \/
  exists a p, RequestPages (h_pages h) (pages_for req) = (Some a, p) /\
    allocate_new_page h (req + 32)
      = Ok (set_allocated
              (set_majors (set_pages h p) (<[a := major_of 0 0 (mk_block a (pages_for req) [])]> (h_majors h)))
              (l_allocated h + pages_for req * l_pageSize), a).
Proof.
  intros Hr. destruct (pages_for_spec _ Hr) as [Hp _]. unfold no_pages, allocate_new_page.
  assert (u32 (u32 (u32 (req + 32) + sizeof_major) + sizeof_minor) = req + 32 + sizeof_major + sizeof_minor) as ->.
  { unfold small in Hr. unfold sizeof_major, sizeof_minor.
    rewrite (wrapu_small 32 (req + 32)), (wrapu_small 32 (req + 32 + 40)), wrapu_small; lia. }
  set (st := req + 32 + sizeof_major + sizeof_minor).
  assert ((if decide ((if decide (st mod l_pageSize = 0) then st / l_pageSize else st / l_pageSize + 1) < l_pageCount)
     then l_pageCount else if decide (st mod l_pageSize = 0) then st / l_pageSize else st / l_pageSize + 1)
     = pages_for req) as ->.
  { unfold pages_for. fold st. case_decide; lia. }
  destruct (RequestPages (h_pages h) (pages_for req)) as [[a|] p] eqn:E; [right|left; done].
  exists a, p. split; [done|]. rewrite wrapu_small by (unfold l_pageSize; lia). done.
Qed.

(** A heap that gained an empty block at the end of the list. *)
Lemma grown_inv h h' B a n p : heap_inv h B -> RequestPages (h_pages h) n = (Some a, p) -> 0 < n < 2 ^ 20 ->
  let c := mk_block a n [] in
  dll bl_at major_of (h_majors h') 0 (B ++ [c]) 0 ->
  (forall k, is_Some (h_majors h' !! k) -> k = a \/ is_Some (h_majors h !! k)) ->
  h_minors h' = h_minors h -> h_bytes h' = h_bytes h -> h_pages h' = p ->
  l_memRoot h' = first_of bl_at (B ++ [c]) 0 -> l_bestBet h' = l_bestBet h ->
  l_inuse h' = l_inuse h -> l_allocated h' = u64 (l_allocated h + n * l_pageSize) ->
  heap_inv h' (B ++ [c]).
Proof.
  intros Hi Er Hn c Hd Honly Em Eb Ep Eroot Ebet Euse Eall.
  destruct (request_fresh _ _ _ _ (hi_pages _ _ Hi) Hn Er) as (Hv & Ha & Hend & Hown & Hfresh).
  pose proof (hi_owned _ _ Hi) as Ho. pose proof (hi_blocks _ _ Hi) as Hbk. rewrite Forall_forall in Ho, Hbk.
  split; [done| | | | |done| | | |by rewrite Ep].
  - intros k Hk. rewrite fmap_app. apply elem_of_app.
    destruct (Honly k Hk) as [->|Hk']; [right; by left|left; by apply (hi_only _ _ Hi)].
  - rewrite Em, Eb. apply Forall_app. split; [apply (hi_blocks _ _ Hi)|]. apply Forall_cons. split; [|done].
    split; cbn; [done|by intros z ?%not_elem_of_nil| |done|done|lia|].
    all: unfold bl_end, bl_size, sizeof_major, l_pageSize in *; cbn; lia.
  - apply separated_middle. rewrite app_nil_r. split; [apply (hi_apart _ _ Hi)|].
    apply Forall_forall. intros d Hd'. destruct (Hfresh _ _ (bo_pages _ _ _ (Hbk d Hd')) (Ho d Hd')) as [_ Hap].
    unfold apart, bl_end, bl_size. cbn. lia.
  - rewrite Ep. apply Forall_app. split; [|by apply Forall_cons].
    apply Forall_forall. intros d Hd'. apply Hfresh; [apply (bo_pages _ _ _ (Hbk d Hd'))|by apply Ho].
  - rewrite Ebet, fmap_app. destruct (hi_bet _ _ Hi) as [|Hb]; [by left|right]. apply elem_of_app. by left.
  - rewrite Euse, (hi_inuse _ _ Hi). f_equal. rewrite live_app. cbn. by rewrite app_nil_r.
  - rewrite Eall, (hi_allocated _ _ Hi). unfold wrapu. rewrite Z.add_mod_idemp_l by done. f_equal.
    clear. induction B as [|b B IH]; cbn [app foldr]; [unfold c, bl_size; cbn; lia|]. rewrite <- IH. lia.
Qed.

Lemma warned_inv h B req : heap_inv h B -> small req -> no_pages (h_pages h) req ->
  heap_inv (warned (set_pages h (RequestPages (h_pages h) (pages_for req)).2)) B.
Proof.
  intros [I1 I2 I3 I4 I5 I6 I7 I8 I9 I10] Hr Hn. destruct (pages_for_spec _ Hr) as [Hp _]. unfold no_pages in Hn.
  destruct (RequestPages (h_pages h) (pages_for req)) as [r p] eqn:E. cbn in Hn. subst r.
  destruct (request_none _ (pages_for req) _ I10 ltac:(lia) E) as [Hv Ho]. split; try done.
  eapply Forall_impl; [exact I5|]. intros b Hb. by apply Ho.
Qed.

(** [append_page] after the last block. *)
Lemma append_page_ok h B b req : heap_inv h (B ++ [b]) -> small req ->
  exists h' new, append_page h (bl_at b) (req + 32) = Ok (h', new) /\
    h_bytes h' = h_bytes h /\
    ((new = 0 /\ no_pages (h_pages h) req /\ heap_inv h' (B ++ [b])) \/
     exists c, new = bl_at c /\ bl_allocs c = [] /\ req + 72 <= bl_size c - sizeof_major /\
       heap_inv h' (B ++ [b; c])).
Proof.
  intros Hi Hr. destruct (pages_for_spec _ Hr) as [Hp Hsz]. unfold append_page.
  pose proof (inv_major _ _ _ _ Hi) as Hm. cbn [first_of] in Hm.
  destruct (allocate_new_page_ok h req Hr) as [[Hn ->]|(a & p & Er & ->)]; cbn [bind].
  - erewrite modM_Ok by exact Hm. cbn [bind]. rewrite decide_True by done.
    eexists _, _. split; [reflexivity|]. split; [done|]. left. split_and!; [done|done|].
    pose proof (warned_inv _ _ _ Hi Hr Hn) as [I1 I2 I3 I4 I5 I6 I7 I8 I9 I10].
    assert (<[bl_at b := maj_set_next 0 (major_of (last_of bl_at B 0) 0 b)]> (h_majors h) = h_majors h) as Eid
      by (by apply insert_id).
    split; try done; cbn [h_majors warned set_pages set_majors]; by rewrite Eid.
  - destruct (request_fresh _ (pages_for req) _ _ (hi_pages _ _ Hi) ltac:(lia) Er) as (_ & Ha & _ & _ & Hfresh).
    assert (forall d, d ∈ B ++ [b] -> bl_at d <> a) as Hne.
    { intros d Hd. pose proof (hi_owned _ _ Hi) as Ho. pose proof (hi_blocks _ _ Hi) as Hbk.
      rewrite Forall_forall in Ho, Hbk. destruct (Hfresh _ _ (bo_pages _ _ _ (Hbk d Hd)) (Ho d Hd)) as [_ Hap].
      pose proof (bo_pages _ _ _ (Hbk d Hd)). unfold l_pageSize in *. lia. }
    pose proof (Hne b ltac:(apply elem_of_app; right; by left)) as Hba.
    rewrite (modM_Ok _ (bl_at b) _ (major_of (last_of bl_at B 0) 0 b))
      by (cbn; rewrite lookup_insert_ne by done; exact Hm). cbn [bind].
    rewrite decide_False by lia.
    rewrite (modM_Ok _ a _ (major_of 0 0 (mk_block a (pages_for req) [])))
      by (cbn; rewrite lookup_insert_ne, lookup_insert_eq by done; done). cbn [bind].
    eexists _, _. split; [reflexivity|]. split; [done|]. right. exists (mk_block a (pages_for req) []).
    split_and!; [done|done|unfold bl_size, sizeof_major; cbn; lia|].
    change [b; mk_block a (pages_for req) []] with ([b] ++ [mk_block a (pages_for req) []]). rewrite app_assoc.
    eapply (grown_inv h); [done|exact Er|lia| | |done|done|done| |done|done|done].
    + cbn [h_majors set_majors set_allocated].
      apply (dll_insert _ _ (h_majors h) _ 0 (B ++ [b]) (mk_block a (pages_for req) []) []);
        [rewrite app_nil_r; apply (hi_majors _ _ Hi)| | |done].
      * cbn. rewrite lookup_insert_eq. rewrite last_of_app. done.
      * intros l1' w [<- [= <-]]%app_inj_tail. cbn [bl_at]. split.
        { rewrite lookup_insert_ne by done. rewrite lookup_insert_eq. done. }
        intros z Hz. assert (bl_at z <> a) by (apply Hne, elem_of_app; by left).
        pose proof (inv_nodup _ _ Hi) as Hnd. rewrite fmap_app in Hnd. apply NoDup_app in Hnd as (_ & Hnd & _).
        assert (bl_at z <> bl_at b).
        { intros E. apply (Hnd (bl_at z)); [by apply list_elem_of_fmap_2|]. rewrite E. by left. }
        by rewrite !lookup_insert_ne.
    + intros k Hk. cbn in Hk. destruct (decide (k = a)) as [->|Hka]; [by left|right].
      rewrite lookup_insert_ne in Hk by done. destruct (decide (k = bl_at b)) as [->|Hkb]; [by eexists|].
      by rewrite !lookup_insert_ne in Hk by done.
    + cbn. rewrite (hi_root _ _ Hi). by destruct B.
Qed.

(** ** The loop over the blocks *)

Context (req : Z).
Hypothesis Hreq : small req.

(** The pointer of a new allocation, of which only the alignment byte is
    written. *)
Definition success h B (r : res (heap (P := P) * Z)) : Prop :=
  exists h' x B', r = Ok (h', al_ptr x) /\ heap_inv h' B' /\ al_req x = req /\ live B' ≡ₚ x :: live B /\
    h_bytes h' = <[al_ptr x - ALIGN_INFO := al_ptr x - (al_at x + sizeof_minor)]> (h_bytes h).

(** What [malloc] may return: that, or NULL when there are no pages. *)
Definition outcome h B (r : res (heap (P := P) * Z)) : Prop :=
  success h B r \/
  exists h' B', r = Ok (h', 0) /\ heap_inv h' B' /\ live B' = live B /\ no_pages (h_pages h) req /\
    h_bytes h' = h_bytes h.

Lemma served_success h B1 b B2 r : served h B1 b B2 req r -> success h (B1 ++ b :: B2) (Ok r).
Proof.
  intros (l1 & x & l2 & Ep & Er & Hg & Hi & Hby). destruct r as [h' p]. cbn in *.
  eexists h', x, _. split_and!; [by rewrite Ep|exact Hi|done| |done].
  by apply (live_insert _ _ _ _ l1 x l2), eq_refl; apply (gp_allocs _ _ _ _ Hg).
Qed.

Lemma success_ext h h' B B' r : h_bytes h' = h_bytes h -> live B' = live B -> success h' B' r -> success h B r.
Proof. intros E1 E2 (h2 & x & B'' & Hr). exists h2, x, B''. by rewrite <- E1, <- E2. Qed.

Lemma outcome_ext h h' B r : h_pages h' = h_pages h -> h_bytes h' = h_bytes h -> outcome h' B r -> outcome h B r.
Proof.
  intros E1 E2 [Hs|(h2 & B' & Hr)]; [left; by eapply success_ext|right; exists h2, B'; by rewrite <- E1, <- E2].
Qed.

Lemma free_bytes h B1 b B2 : heap_inv h (B1 ++ b :: B2) ->
  u32 (bl_size b - (sizeof_major + used (bl_allocs b))) = bl_size b - (sizeof_major + used (bl_allocs b)).
Proof.
  intros Hi. pose proof (inv_block _ _ _ _ Hi) as Hb. pose proof (bo_size _ _ _ Hb).
  pose proof (layout_used _ _ _ (bo_layout _ _ _ Hb)). apply wrapu_small.
  unfold bl_end, sizeof_major in *. lia.
Qed.

(** The best bet may become any block. *)
Lemma bet_inv h B b : heap_inv h B -> b ∈ B -> heap_inv (set_bestBet h (bl_at b)) B.
Proof.
  intros [I1 I2 I3 I4 I5 I6 I7 I8 I9 I10] Hb. split; try done. right. cbn. by apply list_elem_of_fmap_2.
Qed.

Lemma live_snoc B c : bl_allocs c = [] -> live (B ++ [c]) = live B.
Proof. intros E. rewrite live_app, live_cons, E. cbn. by rewrite app_nil_r. Qed.

(** A block without allocations and with room serves the request. *)
Lemma place_new h B c : heap_inv h (B ++ [c]) -> bl_allocs c = [] -> req + 72 <= bl_size c - sizeof_major ->
  exists r, place h (bl_at c) (req + 32) req = Ok (Some r) /\ served h B c [] req r.
Proof.
  intros Hi Ea Hsz. destruct (place_ok h B c [] req Hi Hreq) as (r & E & Hr); [rewrite Ea; cbn; lia|].
  destruct r as [r|]; [by exists r|]. by cbn in Hr.
Qed.

Lemma loop_null h started best fuel : malloc_loop h 0 started best (req + 32) req fuel = Ok (h, 0).
Proof. by destruct fuel. Qed.

(** One step of the loop: the free bytes of the block decide. *)
Lemma loop_step h B1 b B2 started best f : heap_inv h (B1 ++ b :: B2) ->
  exists h1 best1, heap_inv h1 (B1 ++ b :: B2) /\ h_pages h1 = h_pages h /\ h_bytes h1 = h_bytes h /\
    malloc_loop h (bl_at b) started best (req + 32) req (S f) =
      (if decide (bl_size b - (sizeof_major + used (bl_allocs b)) < req + 72) then
         if decide (first_of bl_at B2 0 = 0) then
           if started then malloc_loop h1 (l_memRoot h1) false best1 (req + 32) req f
           else
             let* '(h, new) := append_page h1 (bl_at b) (req + 32) in
             if decide (new = 0) then Ok (h, 0)
             else
               let* r := place h new (req + 32) req in
               match r with
               | Some r => Ok r
               | None => malloc_full h new started best1 (req + 32) req f
               end
         else malloc_loop h1 (first_of bl_at B2 0) started best1 (req + 32) req f
       else
         let* r := place h1 (bl_at b) (req + 32) req in
         match r with
         | Some r => Ok r
         | None => malloc_full h1 (bl_at b) started best1 (req + 32) req f
         end).
Proof.
  intros Hi. pose proof (bo_at _ _ _ (inv_block _ _ _ _ Hi)).
  cbn [malloc_loop]. rewrite decide_False by lia.
  rewrite (getM_Ok _ _ _ (inv_major _ _ _ _ Hi)). cbn [bind maj_size maj_usage maj_next major_of].
  rewrite (free_bytes _ _ _ _ Hi), (request_small req Hreq). case_decide as Hbest.
  - exists (set_bestBet h (bl_at b)). eexists. split_and!; [|done|done|reflexivity]. apply bet_inv; [done|apply middle_in].
  - exists h. eexists. split_and!; [exact Hi|done|done|reflexivity].
Qed.

(** A fresh block at the end of the list ends the search. *)
Lemma loop_new h B c started best f : heap_inv h (B ++ [c]) -> bl_allocs c = [] ->
  req + 72 <= bl_size c - sizeof_major -> (0 < f)%nat ->
  success h B (malloc_loop h (bl_at c) started best (req + 32) req f).
Proof.
  intros Hi Ea Hsz Hf. destruct f as [|f]; [lia|].
  destruct (loop_step h B c [] started best f Hi) as (h1 & best1 & Hi1 & Ep1 & Eb1 & ->).
  apply (success_ext h h1 _ (B ++ [c])); [done|by apply live_snoc|].
  rewrite decide_False by (rewrite Ea; cbn; lia).
  destruct (place_new h1 B c Hi1 Ea Hsz) as (r & -> & Hr). by apply served_success.
Qed.

(** The fuel for the blocks still to visit. *)
Definition visits B (rest : nat) (started : bool) : nat :=
  2 * S rest + (if started then 2 * length B else 0).

Definition loop_spec (f : nat) : Prop := forall h B1 b B2 started best,
  heap_inv h (B1 ++ b :: B2) -> (visits (B1 ++ b :: B2) (length B2) started < f)%nat ->
  outcome h (B1 ++ b :: B2) (malloc_loop h (bl_at b) started best (req + 32) req f).

(** Back to the root. *)
Lemma loop_root f h B1 b B2 best : loop_spec f -> heap_inv h (B1 ++ b :: B2) ->
  (2 * length (B1 ++ b :: B2) < f)%nat ->
  outcome h (B1 ++ b :: B2) (malloc_loop h (l_memRoot h) false best (req + 32) req f).
Proof.
  intros IH Hi Hf. rewrite (hi_root _ _ Hi). destruct B1 as [|d B1]; cbn [app first_of] in *.
  - apply (IH h [] b B2); [done|]. unfold visits. cbn in *. lia.
  - apply (IH h [] d (B1 ++ b :: B2)); [done|]. unfold visits. cbn in *. lia.
Qed.

Lemma full_step f h B1 b B2 started best : loop_spec f -> heap_inv h (B1 ++ b :: B2) ->
  (visits (B1 ++ b :: B2) (length B2) started <= S f)%nat ->
  outcome h (B1 ++ b :: B2) (malloc_full h (bl_at b) started best (req + 32) req (S f)).
Proof.
  intros IH Hi Hf. cbn [malloc_full]. rewrite (getM_Ok _ _ _ (inv_major _ _ _ _ Hi)).
  cbn [bind maj_next major_of]. unfold visits in Hf. destruct B2 as [|c B2]; cbn [first_of].
  - rewrite decide_True by done. rewrite length_app in Hf. destruct started; [apply loop_root; [done|done|rewrite length_app; cbn in *; lia]|].
    destruct (append_page_ok h B1 b req Hi Hreq) as (h' & new & -> & Eby & [(-> & Hn & Hi')|(c & -> & Ea & Hsz & Hi')]).
    + cbn [bind]. rewrite loop_null. right. by exists h', (B1 ++ [b]).
    + cbn [bind]. change [b; c] with ([b] ++ [c]) in Hi'. rewrite app_assoc in Hi'. left.
      apply (success_ext h h' _ (B1 ++ [b])); [done|done|]. apply (loop_new h' _ c); try done. cbn in Hf. lia.
  - pose proof Hi as Hi'. change (b :: c :: B2) with ([b] ++ c :: B2) in Hi'. rewrite app_assoc in Hi'.
    pose proof (bo_at _ _ _ (inv_block _ _ _ _ Hi')). rewrite decide_False by lia.
    change (b :: c :: B2) with ([b] ++ c :: B2). rewrite app_assoc. apply IH; [done|].
    unfold visits. rewrite !length_app in *. destruct started; cbn in *; lia.
Qed.

Lemma loop_ok f : loop_spec f.
Proof.
  induction f as [f IH] using lt_wf_ind. intros h B1 b B2 started best Hi Hf.
  destruct f as [|[|f]]; [lia|unfold visits in Hf; lia|].
  destruct (loop_step h B1 b B2 started best (S f) Hi) as (h1 & best1 & Hi1 & Ep & Eby1 & ->).
  apply (outcome_ext h h1); [done|done|].
  unfold visits in Hf. case_decide as Hfree.
  - destruct B2 as [|c B2]; cbn [first_of].
    + rewrite decide_True by done. rewrite length_app in Hf.
      destruct started; [apply loop_root; [apply IH; lia|done|rewrite length_app; cbn in *; lia]|].
      destruct (append_page_ok h1 B1 b req Hi1 Hreq) as (h' & new & -> & Eby & [(-> & Hn & Hi')|(c & -> & Ea & Hsz & Hi')]).
      * cbn [bind]. rewrite decide_True by done. right. by exists h', (B1 ++ [b]).
      * cbn [bind]. change [b; c] with ([b] ++ [c]) in Hi'. rewrite app_assoc in Hi'.
        pose proof (bo_at _ _ _ (inv_block _ _ _ _ Hi')). rewrite decide_False by lia.
        destruct (place_new h' _ c Hi' Ea Hsz) as (r & -> & Hr). cbn [bind].
        left. apply (success_ext h1 h' _ ((B1 ++ [b]) ++ [c])); [done|by apply live_snoc|]. by apply served_success.
    + change (b :: c :: B2) with ([b] ++ c :: B2) in *. rewrite app_assoc in *.
      pose proof (bo_at _ _ _ (inv_block _ _ _ _ Hi1)). rewrite decide_False by lia. apply IH; [lia|done|].
      unfold visits. destruct started; cbn in *; lia.
  - destruct (place_ok h1 B1 b B2 req Hi1 Hreq ltac:(lia)) as (r & -> & Hr). cbn [bind].
    destruct r as [r|]; [left; by apply served_success|].
    apply full_step; [by apply IH; lia|done|]. unfold visits. lia.
Qed.

(** ** malloc *)

Lemma malloc_fuel_ok h B1 b B2 started : heap_inv h (B1 ++ b :: B2) ->
  (visits (B1 ++ b :: B2) (length B2) started < malloc_fuel h)%nat.
Proof.
  intros Hi. pose proof (dll_length _ _ _ _ (inv_nodup _ _ Hi) _ _ (hi_majors _ _ Hi)).
  unfold visits, malloc_fuel. rewrite length_app in *. destruct started; cbn in *; lia.
Qed.

(** A block of a heap that has one. *)
Lemma block_at h B k : heap_inv h B -> k ∈ (bl_at <$> B) -> exists B1 b B2, B = B1 ++ b :: B2 /\ bl_at b = k.
Proof.
  intros _ (b & -> & Hb)%list_elem_of_fmap. apply list_elem_of_split in Hb as (B1 & B2 & ->). by exists B1, b, B2.
Qed.

(** The search from the best bet or the root. *)
Lemma search_ok h b B : heap_inv h (b :: B) ->
  outcome h (b :: B)
    (let* '(maj, startedBet, bestSize) :=
       if decide (l_bestBet h = 0) then Ok (bl_at b, false, 0)
       else
         let* B := getM h (l_bestBet h) in
         let bestSize := u32 (maj_size B - maj_usage B) in
         if decide (u64 (req + 32 + sizeof_minor) < bestSize) then Ok (l_bestBet h, true, bestSize)
         else Ok (bl_at b, false, bestSize) in
     malloc_loop h maj startedBet bestSize (req + 32) req (malloc_fuel h)).
Proof.
  intros Hi. assert (forall best, outcome h (b :: B)
    (malloc_loop h (bl_at b) false best (req + 32) req (malloc_fuel h))) as Hroot.
  { intros best. apply (loop_ok _ h [] b B); [done|]. by apply (malloc_fuel_ok h [] b B). }
  case_decide as Hb0; cbn [bind]; [apply Hroot|].
  destruct (hi_bet _ _ Hi) as [|Hb]; [done|]. destruct (block_at _ _ _ Hi Hb) as (B1 & c & B2 & E & Ec).
  rewrite E in *. rewrite <- Ec. rewrite (getM_Ok _ _ _ (inv_major _ _ _ _ Hi)). cbn [bind].
  case_decide; cbn [bind]; [|apply Hroot]. apply loop_ok; [done|]. by apply malloc_fuel_ok.
Qed.

Lemma malloc_sized_ok h B : heap_inv h B -> outcome h B (malloc_sized h (req + 32) req).
Proof.
  intros Hi. unfold malloc_sized. rewrite (hi_root _ _ Hi). destruct B as [|b B]; cbn [first_of].
  - rewrite decide_True by done. destruct (pages_for_spec _ Hreq) as [Hp Hsz].
    destruct (allocate_new_page_ok h req Hreq) as [[Hn ->]|(a & p & Er & ->)]; cbn [bind].
    + rewrite decide_True by done. right. eexists _, []. split_and!; [done| |done|done|done].
      destruct (warned_inv _ _ _ Hi Hreq Hn) as [I1 I2 I3 I4 I5 I6 I7 I8 I9 I10]. split; done.
    + destruct (request_fresh _ (pages_for req) _ _ (hi_pages _ _ Hi) ltac:(lia) Er) as (_ & Ha & _). rewrite decide_False by lia.
      set (h1 := set_memRoot _ a). pose (c := mk_block a (pages_for req) []).
      assert (heap_inv h1 [c]) as Hi1.
      { eapply (grown_inv h h1 []); [done|exact Er|lia| | |done|done|done|done|done|done|done].
        - cbn. split; [|done]. by rewrite lookup_insert_eq.
        - intros k Hk. cbn in Hk. destruct (decide (k = a)) as [->|Hne]; [by left|right].
          by rewrite lookup_insert_ne in Hk. }
      assert (l_bestBet h1 = 0) as Eb.
      { destruct (hi_bet _ _ Hi) as [E|E]; [done|]. by apply not_elem_of_nil in E. }
      rewrite Eb, decide_True by done. cbn [bind]. left. apply (success_ext h h1 _ []); [done|done|]. apply (loop_new h1 [] c); try done.
      * unfold c, bl_size, sizeof_major. cbn. lia.
      * unfold malloc_fuel. lia.
  - pose proof (bo_at _ _ _ (inv_block _ [] _ _ Hi)). rewrite decide_False by lia. cbn [bind].
    rewrite decide_False by lia. by apply search_ok.
Qed.

Lemma malloc_outcome h B : heap_inv h B -> outcome h B (malloc h req).
Proof.
  intros Hi. unfold malloc. unfold small in Hreq. change (ALIGNMENT + ALIGN_INFO) with 32.
  rewrite wrapu_small by lia. rewrite decide_False by lia. by apply malloc_sized_ok.
Qed.
End search.
