(* ===== verification/LiballocFree.v ===== *)
(** * Release in the kernel heap

    [free] (src/kernel/mem/liballoc/liballoc_1_1.c) takes a live allocation out
    of the list of its block, gives the pages of an empty block back and keeps
    the invariant; a null pointer and a header without the magic number are
    counted and change nothing else. *)

From stdpp Require Import gmap.
From S2P Require Import Prelude Liballoc LiballocInv LiballocMalloc.

Local Open Scope Z_scope.

Section free.
Context {P : Type} `{PageSourceLaws P}.
Implicit Types (h : heap (P := P)) (B : list block).

Lemma set_majors_id h : set_majors h (h_majors h) = h.
Proof. by destruct h. Qed.

Lemma set_minors_id h : set_minors h (h_minors h) = h.
Proof. by destruct h. Qed.

Lemma nodup_ne {X} (key : X -> Z) l1 x l2 z : NoDup (key <$> (l1 ++ x :: l2)) -> z ∈ l1 \/ z ∈ l2 -> key z <> key x.
Proof.
  rewrite fmap_app, fmap_cons. intros (_ & Hd & [Hx _]%NoDup_cons)%NoDup_app [Hz|Hz] E.
  - apply (Hd (key z)); [by apply list_elem_of_fmap_2|]. rewrite E. by left.
  - apply Hx. rewrite <- E. by apply list_elem_of_fmap_2.
Qed.

(** ** Taking a header out of its list *)

Section unlink.
Context (h : heap (P := P)) (blk : Z) (M : liballoc_major) (mn : gmap Z liballoc_minor).
Context (l1 : list alloc) (a : alloc) (l2 : list alloc) (v : liballoc_minor).
Hypothesis Hdll : dll al_at (minor_of blk) mn 0 (l1 ++ a :: l2) 0.
Hypothesis Hnd : NoDup (al_at <$> (l1 ++ a :: l2)).
Hypothesis Hpos : Forall (fun z => 0 < al_at z) (l1 ++ a :: l2).
Hypothesis Hmn : h_minors h = <[al_at a := v]> mn.
Hypothesis HM : h_majors h !! blk = Some M.
Hypothesis Hfirst : maj_first M = first_of al_at (l1 ++ a :: l2) 0.

(** The header after the one taken out. *)
Definition relinked_next : gmap Z liballoc_minor :=
  match l2 with
  | [] => h_minors h
  | w :: l2' => <[al_at w := minor_of blk (last_of al_at l1 0) (first_of al_at l2' 0) w]> (h_minors h)
  end.

Lemma unlink_next :
  (if decide (first_of al_at l2 0 = 0) then Ok h
   else modm h (first_of al_at l2 0) (min_set_prev (last_of al_at l1 0))) = Ok (set_minors h relinked_next).
Proof.
  unfold relinked_next. destruct l2 as [|w l2'] eqn:E2; cbn [first_of].
  - rewrite decide_True by done. by rewrite set_minors_id.
  - rewrite Forall_app, !Forall_cons in Hpos. rewrite decide_False by lia.
    assert (w ∈ l1 \/ w ∈ w :: l2') as Hw by (right; by left).
    assert (mn !! al_at w = Some (minor_of blk (al_at a) (first_of al_at l2' 0) w)) as Hlw.
    { pose proof Hdll as Hd. rewrite dll_app in Hd. cbn [dll] in Hd. tauto. }
    assert (h_minors h !! al_at w = Some (minor_of blk (al_at a) (first_of al_at l2' 0) w)) as Hhw.
    { rewrite Hmn, lookup_insert_ne; [exact Hlw|]. intros E. symmetry in E. revert E. by eapply nodup_ne. }
    by rewrite (modm_Ok _ _ _ _ Hhw).
Qed.

(** And the one before. *)
Definition relinked : gmap Z liballoc_minor :=
  match last l1 with
  | None => relinked_next
  | Some y => <[al_at y := minor_of blk (last_of al_at (removelast l1) 0) (first_of al_at l2 0) y]> relinked_next
  end.

Lemma relinked_next_ne k : (forall w l2', l2 = w :: l2' -> k <> al_at w) -> relinked_next !! k = h_minors h !! k.
Proof.
  clear. unfold relinked_next. destruct l2 as [|w l2']; [done|]. intros Hk. rewrite lookup_insert_ne; [done|]. by apply not_eq_sym, (Hk w l2').
Qed.

Lemma last_split (l : list alloc) y : last l = Some y -> l = removelast l ++ [y].
Proof.
  clear. destruct l as [|z l _] using rev_ind; [done|]. rewrite last_snoc, removelast_last. by intros [= ->].
Qed.

Lemma unlink_Ok : unlink_minor h (al_at a) blk (minor_of blk (last_of al_at l1 0) (first_of al_at l2 0) a)
  = Ok (set_majors (set_minors h relinked) (<[blk := maj_set_first (first_of al_at (l1 ++ l2) 0) M]> (h_majors h))).
Proof.
  unfold unlink_minor. cbn [min_next min_prev minor_of]. rewrite unlink_next. cbn [bind].
  unfold relinked. destruct (last l1) as [y|] eqn:El.
  - apply last_split in El. set (l1' := removelast l1) in *. clearbody l1'.
    assert (last_of al_at l1 0 = al_at y) as -> by (by rewrite El, last_of_app).
    assert (y ∈ l1) as Hin by (rewrite El; apply elem_of_app; right; by left).
    assert (0 < al_at y) by (pose proof Hpos as Hp; rewrite Forall_forall in Hp; apply Hp, elem_of_app; by left).
    rewrite !decide_False by lia.
    assert (relinked_next !! al_at y = Some (minor_of blk (last_of al_at l1' 0) (al_at a) y)) as Hy.
    { rewrite relinked_next_ne.
      - rewrite Hmn, lookup_insert_ne.
        + pose proof Hdll as Hd. rewrite El, <- app_assoc in Hd. by apply dll_middle in Hd.
        + apply not_eq_sym. eapply nodup_ne; [exact Hnd|]. by left.
      - intros w l2' E2. pose proof Hnd as Hnd'. rewrite E2 in Hnd'. change (a :: w :: l2') with ([a] ++ w :: l2') in Hnd'.
        rewrite app_assoc in Hnd'. eapply nodup_ne; [exact Hnd'|]. left. apply elem_of_app. by left. }
    rewrite (modm_Ok (set_minors h relinked_next) _ _ _ Hy). cbn [bind].
    assert (first_of al_at (l1 ++ l2) 0 = maj_first M) as ->.
    { rewrite Hfirst, El. by destruct l1'. }
    assert (maj_set_first (maj_first M) M = M) as -> by (by destruct M).
    rewrite (insert_id (h_majors h)) by done. rewrite decide_False by lia. reflexivity.
  - apply last_None in El. assert (last_of al_at l1 0 = 0) as -> by (by rewrite El).
    rewrite decide_True by done. cbn [bind]. rewrite decide_True by done.
    rewrite (modM_Ok (set_minors h relinked_next) _ _ _ HM). rewrite El. reflexivity.
Qed.

Lemma relinked_dll : dll al_at (minor_of blk) relinked 0 (l1 ++ l2) 0.
Proof.
  assert (forall z, z ∈ l1 \/ z ∈ l2 -> h_minors h !! al_at z = mn !! al_at z) as Hz.
  { intros z Hz. rewrite Hmn, lookup_insert_ne; [done|]. apply not_eq_sym. by eapply nodup_ne. }
  assert (forall z, z ∈ l1 -> relinked_next !! al_at z = mn !! al_at z) as Hz1.
  { intros z Hz1. rewrite relinked_next_ne; [apply Hz; by left|]. intros w l2' E2. pose proof Hnd as Hnd'.
    rewrite E2 in Hnd'. change (a :: w :: l2') with ([a] ++ w :: l2') in Hnd'. rewrite app_assoc in Hnd'.
    eapply nodup_ne; [exact Hnd'|]. left. apply elem_of_app. by left. }
  assert (forall y z, last l1 = Some y -> z ∈ removelast l1 \/ z ∈ l2 -> al_at z <> al_at y) as Hy.
  { intros y z El Hyz. apply last_split in El. pose proof Hnd as Hnd'. rewrite El, <- app_assoc in Hnd'.
    eapply nodup_ne; [exact Hnd'|]. destruct Hyz; [by left|right]. by right. }
  assert (forall z, z ∈ l2 -> relinked !! al_at z = relinked_next !! al_at z) as Hr2.
  { intros z Hz2. unfold relinked. destruct (last l1) as [y|] eqn:El; [|done].
    rewrite lookup_insert_ne; [done|]. apply not_eq_sym, Hy; [done|by right]. }
  eapply (dll_remove _ _ mn); [exact Hdll| |].
  - intros l1' y El. unfold relinked. rewrite El, last_snoc, removelast_last. split; [by rewrite lookup_insert_eq|].
    intros z Hz'. rewrite lookup_insert_ne; [apply Hz1; rewrite El; apply elem_of_app; by left|].
    apply not_eq_sym, Hy; [rewrite El; apply last_snoc|]. left. by rewrite El, removelast_last.
  - intros w l2' E2. split.
    + rewrite Hr2 by (rewrite E2; by left). unfold relinked_next. rewrite E2. by rewrite lookup_insert_eq.
    + intros z Hz'. assert (z ∈ l2) as Hzl by (rewrite E2; by right). rewrite Hr2 by done.
      rewrite relinked_next_ne; [apply Hz; by right|]. intros w' l2'' E. rewrite E2 in E. injection E as <- <-.
      pose proof Hnd as Hnd'. rewrite E2 in Hnd'. change (a :: w :: l2') with ([a] ++ w :: l2') in Hnd'.
      rewrite app_assoc in Hnd'. eapply nodup_ne; [exact Hnd'|]. by right.
Qed.

Lemma relinked_other k : k ∉ (al_at <$> (l1 ++ a :: l2)) -> relinked !! k = mn !! k.
Proof.
  intros Hk. assert (forall z, z ∈ l1 ++ a :: l2 -> k <> al_at z) as Hne.
  { intros z Hz ->. by apply Hk, list_elem_of_fmap_2. }
  assert (relinked_next !! k = mn !! k) as En.
  { rewrite relinked_next_ne.
    - rewrite Hmn, lookup_insert_ne; [done|]. apply not_eq_sym, Hne, elem_of_app. right. by left.
    - intros w l2' E2. apply Hne, elem_of_app. right. right. rewrite E2. by left. }
  unfold relinked. destruct (last l1) as [y|] eqn:El; [|done].
  rewrite lookup_insert_ne; [done|]. apply not_eq_sym, Hne, elem_of_app. left. rewrite (last_split _ _ El). apply elem_of_app. right. by left.
Qed.

(** The header taken out stays as it was. *)
Lemma relinked_self : relinked !! al_at a = h_minors h !! al_at a.
Proof.
  assert (forall z, z ∈ l1 \/ z ∈ l2 -> al_at a <> al_at z) as Hne.
  { intros z Hz. apply not_eq_sym. by apply (nodup_ne al_at l1 a l2). }
  assert (relinked_next !! al_at a = h_minors h !! al_at a) as En.
  { apply relinked_next_ne. intros w l2' E2. apply Hne. right. rewrite E2. by left. }
  unfold relinked. destruct (last l1) as [y|] eqn:El; [|done].
  rewrite lookup_insert_ne; [done|]. apply not_eq_sym, Hne. left.
  rewrite (last_split _ _ El). apply elem_of_app. right. by left.
Qed.
End unlink.

(** ** Giving the pages of an empty block back *)

Section release.
Context (h : heap (P := P)) (B1 : list block) (b : block) (B2 : list block).
Hypothesis Hi : heap_inv h (B1 ++ b :: B2).
Hypothesis Hempty : bl_allocs b = [].

Lemma rest_ne c : c ∈ B1 ++ B2 -> bl_at c <> bl_at b.
Proof. intros Hc. apply elem_of_app in Hc. apply (nodup_ne bl_at B1 b B2); [apply (inv_nodup _ _ Hi)|done]. Qed.

(** What the other blocks hold is outside. *)
Lemma rest_kept c mn by_ : c ∈ B1 ++ B2 -> mn = h_minors h -> by_ = h_bytes h ->
  block_ok (filter (fun kv : Z * _ => ~ (bl_at b <= kv.1 /\ kv.1 < bl_at b + bl_size b)) mn)
           (filter (fun kv : Z * _ => ~ (bl_at b <= kv.1 /\ kv.1 < bl_at b + bl_size b)) by_) c.
Proof.
  intros Hc -> ->. destruct (inv_other _ _ _ _ _ Hi Hc) as [Hap Hcok].
  assert (forall k, bl_at c <= k < bl_end c -> ~ (bl_at b <= k /\ k < bl_at b + bl_size b)) as Hout.
  { intros k Hk. fold (bl_end b). unfold apart in Hap. lia. }
  assert (forall z, z ∈ bl_allocs c -> bl_at c <= al_at z < bl_end c /\ bl_at c <= al_ptr z - ALIGN_INFO < bl_end c) as Hz.
  { intros z Hz. destruct (alloc_in_block _ _ _ _ Hcok Hz) as (? & ? & ? & ?). pose proof (bo_at _ _ _ Hcok).
    destruct (al_ptr_spec z ltac:(lia)) as [_ ?]. unfold al_end, sizeof_minor, ALIGN_INFO in *. lia. }
  destruct Hcok as [Cm Cb Cl Ca Ce Cp Cs]. split; try done.
  - eapply dll_frame; [|exact Cm]. intros z Hz'. rewrite map_lookup_filter.
    destruct (h_minors h !! al_at z) as [v|]; [|done]. cbn. rewrite option_guard_True; [done|]. by apply Hout, Hz.
  - intros z Hz'. rewrite map_lookup_filter, (Cb z Hz'). cbn [mbind option_bind]. rewrite option_guard_True; [done|].
    by apply Hout, Hz.
Qed.

(** The rest of the heap without the block. *)
Lemma released_inv h1 :
  h_minors h1 = h_minors h -> h_bytes h1 = h_bytes h -> h_pages h1 = h_pages h -> l_inuse h1 = l_inuse h ->
  l_memRoot h1 = (if decide (l_memRoot h = bl_at b) then first_of bl_at B2 0 else l_memRoot h) ->
  l_bestBet h1 = (if decide (l_bestBet h = bl_at b) then 0 else l_bestBet h) ->
  l_allocated h1 = u64 (l_allocated h - bl_size b) ->
  dll bl_at major_of (delete (bl_at b) (h_majors h1)) 0 (B1 ++ B2) 0 ->
  (forall k, is_Some (h_majors h1 !! k) -> is_Some (h_majors h !! k)) ->
  heap_inv (drop_block h1 (bl_at b) (major_of (last_of bl_at B1 0) (first_of bl_at B2 0) b)) (B1 ++ B2).
Proof.
  intros Emn Eby Epg Euse Eroot Ebet Eall Hd Honly.
  assert (forall k, k ∈ (bl_at <$> (B1 ++ b :: B2)) -> k <> bl_at b -> k ∈ (bl_at <$> (B1 ++ B2))) as Hkey.
  { intros k. rewrite !fmap_app, fmap_cons, !elem_of_app, elem_of_cons. tauto. }
  split; cbn [drop_block h_majors h_minors h_bytes h_pages l_memRoot l_bestBet l_inuse l_allocated
    set_majors set_minors set_bytes set_pages maj_size maj_pages major_of].
  - exact Hd.
  - intros k [v Hk]. apply lookup_delete_Some in Hk as [Hkb Hk]. apply Hkey; [|done].
    apply (hi_only _ _ Hi), Honly. by exists v.
  - apply Forall_forall. intros c Hc. by apply rest_kept.
  - pose proof (hi_apart _ _ Hi) as Hs. apply separated_middle in Hs. tauto.
  - pose proof (hi_owned _ _ Hi) as Ho. rewrite Forall_forall in Ho. apply Forall_forall. intros c Hc. rewrite Epg.
    apply free_others; [apply (hi_pages _ _ Hi)|apply Ho, elem_of_app; right; by left| |].
    + apply Ho. rewrite elem_of_app in Hc. rewrite elem_of_app, elem_of_cons. tauto.
    + destruct (inv_other _ _ _ _ _ Hi Hc) as [Hap _]. exact Hap.
  - rewrite Eroot, (hi_root _ _ Hi). pose proof rest_ne as Hne.
    destruct B1 as [|c B1']; cbn [app first_of]; [by rewrite decide_True|].
    rewrite decide_False; [done|]. apply Hne. by left.
  - rewrite Ebet. case_decide as Hbet; [by left|].
    destruct (hi_bet _ _ Hi) as [?|Hk]; [by left|right]. by apply Hkey.
  - rewrite Euse, (hi_inuse _ _ Hi). f_equal. by rewrite !live_app, live_cons, Hempty.
  - rewrite Eall, (hi_allocated _ _ Hi). unfold wrapu. rewrite Zminus_mod_idemp_l. f_equal.
    clear. induction B1 as [|c B1' IH]; cbn [app foldr]; lia.
  - rewrite Epg. apply free_valid; [apply (hi_pages _ _ Hi)|].
    pose proof (hi_owned _ _ Hi) as Ho. rewrite Forall_forall in Ho. apply Ho, elem_of_app. right. by left.
Qed.

End release.

(** The neighbours of a block in the list of blocks. *)
Lemma modM_keys h k M mj f : h_majors h !! k = Some M -> mj = <[k := f M]> (h_majors h) ->
  forall j, is_Some (mj !! j) -> is_Some (h_majors h !! j).
Proof.
  intros Hk -> j. destruct (decide (j = k)) as [->|Hne]; [by eexists|]. by rewrite lookup_insert_ne.
Qed.

(** The map after the write to the block before. *)
Lemma relink_before h B1 b B2 : Forall (fun c => 0 < bl_at c) (B1 ++ b :: B2) ->
  dll bl_at major_of (h_majors h) 0 (B1 ++ b :: B2) 0 ->
  exists mj,
    (if decide (last_of bl_at B1 0 = 0) then Ok h
     else modM h (last_of bl_at B1 0) (maj_set_next (first_of bl_at B2 0))) = Ok (set_majors h mj) /\
    (forall l1 y, B1 = l1 ++ [y] -> mj !! bl_at y = Some (major_of (last_of bl_at l1 0) (first_of bl_at B2 0) y)) /\
    (forall z, (forall l1 y, B1 = l1 ++ [y] -> bl_at z <> bl_at y) -> mj !! bl_at z = h_majors h !! bl_at z) /\
    (forall k, is_Some (mj !! k) -> is_Some (h_majors h !! k)).
Proof.
  intros Hpos Hd. rewrite Forall_forall in Hpos. destruct B1 as [|y B1' _] using rev_ind.
  - exists (h_majors h). rewrite set_majors_id. split_and!; [by rewrite decide_True|by intros [|] ?|done|done].
  - rewrite last_of_app. cbn [last_of]. rewrite <- app_assoc in Hd. apply dll_middle in Hd as Hy. cbn in Hy.
    rewrite decide_False by (enough (0 < bl_at y) by lia; apply Hpos; rewrite !elem_of_app; left; right; by left).
    eexists. rewrite (modM_Ok _ _ _ _ Hy). split_and!; [reflexivity| | |by eapply modM_keys].
    + intros l1 z [<- [= <-]]%app_inj_tail. by rewrite lookup_insert_eq.
    + intros z Hz. rewrite lookup_insert_ne; [done|]. apply not_eq_sym. by eapply Hz.
Qed.

(** And to the block after. *)
Lemma relink_after h b B2 v : Forall (fun c => 0 < bl_at c) (b :: B2) ->
  (forall w l2, B2 = w :: l2 -> h_majors h !! bl_at w = Some (major_of (bl_at b) (first_of bl_at l2 0) w)) ->
  exists mj,
    (if decide (first_of bl_at B2 0 = 0) then Ok h
     else modM h (first_of bl_at B2 0) (maj_set_prev v)) = Ok (set_majors h mj) /\
    (forall w l2, B2 = w :: l2 -> mj !! bl_at w = Some (major_of v (first_of bl_at l2 0) w)) /\
    (forall z, (forall w l2, B2 = w :: l2 -> bl_at z <> bl_at w) -> mj !! bl_at z = h_majors h !! bl_at z) /\
    (forall k, is_Some (mj !! k) -> is_Some (h_majors h !! k)).
Proof.
  intros Hpos Hw. destruct B2 as [|w B2'].
  - exists (h_majors h). rewrite set_majors_id. split_and!; done.
  - specialize (Hw w B2' eq_refl). cbn [first_of]. rewrite !Forall_cons in Hpos. rewrite decide_False by lia.
    eexists. rewrite (modM_Ok _ _ _ _ Hw). split_and!; [reflexivity| | |by eapply modM_keys].
    + intros w' l2 [= <- <-]. by rewrite lookup_insert_eq.
    + intros z Hz. rewrite lookup_insert_ne; [done|]. apply not_eq_sym. by eapply Hz.
Qed.

Lemma relink_majors h B1 b B2 : NoDup (bl_at <$> (B1 ++ b :: B2)) -> Forall (fun c => 0 < bl_at c) (B1 ++ b :: B2) ->
  dll bl_at major_of (h_majors h) 0 (B1 ++ b :: B2) 0 ->
  exists h1 mj,
    (if decide (last_of bl_at B1 0 = 0) then Ok h
     else modM h (last_of bl_at B1 0) (maj_set_next (first_of bl_at B2 0))) = Ok h1 /\
    (if decide (first_of bl_at B2 0 = 0) then Ok h1
     else modM h1 (first_of bl_at B2 0) (maj_set_prev (last_of bl_at B1 0))) = Ok (set_majors h mj) /\
    dll bl_at major_of (delete (bl_at b) mj) 0 (B1 ++ B2) 0 /\
    (forall k, is_Some (mj !! k) -> is_Some (h_majors h !! k)).
Proof.
  intros Hnd Hpos Hd. pose proof (fun z => nodup_ne bl_at B1 b B2 z Hnd) as Hb.
  destruct (relink_before h B1 b B2 Hpos Hd) as (mj1 & E1 & Hy1 & Hz1 & Hk1).
  assert (forall z, z ∈ B1 -> forall w l2, B2 = w :: l2 -> bl_at z <> bl_at w) as Hzw.
  { intros z Hz' w l2 ->. change (b :: w :: l2) with ([b] ++ w :: l2) in Hnd. rewrite app_assoc in Hnd.
    eapply nodup_ne; [exact Hnd|]. left. apply elem_of_app. by left. }
  assert (forall z, z ∈ B2 -> forall l1 y, B1 = l1 ++ [y] -> bl_at z <> bl_at y) as Hzy.
  { intros z Hz' l1 y ->. rewrite <- app_assoc in Hnd. eapply nodup_ne; [exact Hnd|]. right. by right. }
  destruct (relink_after (set_majors h mj1) b B2 (last_of bl_at B1 0)) as (mj & E & Hw & Hz & Hk).
  { apply Forall_app in Hpos. tauto. }
  { intros w l2 EB. cbn. rewrite Hz1 by (apply Hzy; rewrite EB; by left).
    apply dll_app in Hd as [_ Hd]. rewrite EB in Hd. cbn in Hd. tauto. }
  exists (set_majors h mj1), mj. split_and!; [done|done| |intros k Hmk; by apply Hk1, Hk].
  eapply (dll_remove _ _ (h_majors h)); [exact Hd| |].
  - intros l1 y EB. assert (forall z, z ∈ B1 -> delete (bl_at b) mj !! bl_at z = mj1 !! bl_at z) as Hdel.
    { intros z HzB. rewrite lookup_delete_ne by (apply not_eq_sym, Hb; by left). by apply Hz, Hzw. }
    split; [rewrite Hdel; [by apply Hy1|rewrite EB; apply elem_of_app; right; by left]|].
    intros z Hz'. rewrite Hdel by (rewrite EB; apply elem_of_app; by left). apply Hz1.
    intros l1' y' EB'. rewrite EB in EB'. apply app_inj_tail in EB' as [<- <-].
    rewrite EB, <- app_assoc in Hnd. eapply nodup_ne; [exact Hnd|]. by left.
  - intros w l2 EB. split.
    + rewrite lookup_delete_ne by (apply not_eq_sym, Hb; right; rewrite EB; by left). by apply Hw.
    + intros z Hz'. assert (z ∈ B2) as HzB by (rewrite EB; by right).
      rewrite lookup_delete_ne by (apply not_eq_sym, Hb; by right). rewrite Hz; [by apply Hz1, Hzy|].
      intros w' l2' EB'. rewrite EB in EB', Hnd. injection EB' as <- <-.
      change (b :: w :: l2) with ([b] ++ w :: l2) in Hnd. rewrite app_assoc in Hnd.
      eapply nodup_ne; [exact Hnd|by right].
Qed.

Lemma inv_positive h B : heap_inv h B -> Forall (fun c => 0 < bl_at c) B.
Proof. intros Hi. eapply Forall_impl; [apply (hi_blocks _ _ Hi)|]. intros c Hc. apply (bo_at _ _ _ Hc). Qed.

Lemma release_ok h B1 b B2 : heap_inv h (B1 ++ b :: B2) -> bl_allocs b = [] -> exists h',
  release_block h (bl_at b) (major_of (last_of bl_at B1 0) (first_of bl_at B2 0) b) = Ok h' /\
  heap_inv h' (B1 ++ B2) /\
  forall k, bl_end b <= k \/ k < bl_at b -> h_bytes h' !! k = h_bytes h !! k.
Proof.
  intros Hi Hempty. unfold release_block. cbn [maj_next maj_prev major_of maj_size].
  set (h1 := if decide (l_memRoot h = bl_at b) then set_memRoot h (first_of bl_at B2 0) else h).
  set (h2 := if decide (l_bestBet h1 = bl_at b) then set_bestBet h1 0 else h1).
  assert (h_majors h2 = h_majors h /\ h_minors h2 = h_minors h /\ h_bytes h2 = h_bytes h /\ h_pages h2 = h_pages h /\
    l_inuse h2 = l_inuse h /\ l_allocated h2 = l_allocated h /\
    l_memRoot h2 = (if decide (l_memRoot h = bl_at b) then first_of bl_at B2 0 else l_memRoot h) /\
    l_bestBet h2 = (if decide (l_bestBet h = bl_at b) then 0 else l_bestBet h)) as (Ej & Em & Eby & Ep & Eu & El & Er & Eb).
  { subst h2 h1. repeat case_decide; done. }
  clearbody h2. clear h1. pose proof (hi_majors _ _ Hi) as Hd. rewrite <- Ej in Hd.
  destruct (relink_majors h2 B1 b B2 (inv_nodup _ _ Hi) (inv_positive _ _ Hi) Hd) as (h3 & mj & -> & E3 & Hdll & Hk).
  cbn [bind]. rewrite E3. cbn [bind]. eexists. split; [reflexivity|]. rewrite Ej in Hk.
  split; [apply (released_inv h); try done; cbn; by rewrite El|].
  intros k Hout. cbn. rewrite map_lookup_filter, Eby. destruct (h_bytes h !! k); [|done]. cbn.
  rewrite option_guard_True; [done|]. unfold bl_end in Hout. cbn. lia.
Qed.

(** ** free *)

Lemma UNALIGN_ok h B1 b B2 a : heap_inv h (B1 ++ b :: B2) -> a ∈ bl_allocs b ->
  UNALIGN h (al_ptr a) = Ok (al_at a + sizeof_minor).
Proof.
  intros Hi Ha. pose proof (inv_block _ _ _ _ Hi) as Hb. pose proof (bo_at _ _ _ Hb). pose proof (bo_end _ _ _ Hb).
  destruct (alloc_in_block _ _ _ _ Hb Ha) as (? & ? & ? & ?). destruct (al_ptr_spec a ltac:(lia)) as [_ Hp].
  unfold al_end, sizeof_minor in *. unfold UNALIGN, load_byte. rewrite (wrapu_small 64) by (unfold ALIGN_INFO; lia).
  rewrite (inv_in_heap h B1 b B2) by (done || unfold ALIGN_INFO; lia).
  rewrite (bo_bytes _ _ _ Hb _ Ha). cbn [bind]. unfold sizeof_minor.
  set (d := al_ptr a - (al_at a + 40)). assert (u64 (s8 d) = d) as ->.
  { rewrite wraps_small by (subst d; lia). apply wrapu_small. subst d. lia. }
  unfold ALIGNMENT, ALIGN_INFO. rewrite decide_True by (subst d; lia).
  f_equal. rewrite wrapu_small; subst d; lia.
Qed.

(** The heap without the allocation, its block kept. *)
Lemma removed_inv h h' B1 b B2 l1 a l2 : heap_inv h (B1 ++ b :: B2) -> bl_allocs b = l1 ++ a :: l2 ->
  let b' := mk_block (bl_at b) (bl_pages b) (l1 ++ l2) in
  h_majors h' = <[bl_at b := major_of (last_of bl_at B1 0) (first_of bl_at B2 0) b']> (h_majors h) ->
  dll al_at (minor_of (bl_at b)) (h_minors h') 0 (l1 ++ l2) 0 ->
  (forall k, k ∉ (al_at <$> (l1 ++ a :: l2)) -> h_minors h' !! k = h_minors h !! k) ->
  h_bytes h' = h_bytes h -> h_pages h' = h_pages h -> l_memRoot h' = l_memRoot h -> l_bestBet h' = l_bestBet h ->
  l_allocated h' = l_allocated h -> l_inuse h' = u64 (l_inuse h - al_size a) ->
  heap_inv h' (B1 ++ b' :: B2).
Proof.
  intros Hi Ea b' Emaj Hd Hoth Eby Epg Eroot Ebet Eall Euse. pose proof (inv_block _ _ _ _ Hi) as Hb.
  eapply (replace_inv h h' B1 b b' B2); try done.
  - split; cbn [b' bl_allocs bl_at bl_pages]; try apply Hb; [done| |].
    + intros z Hz. rewrite Eby. apply (bo_bytes _ _ _ Hb). rewrite Ea. rewrite elem_of_app in Hz.
      rewrite elem_of_app, elem_of_cons. tauto.
    + eapply layout_remove. rewrite <- Ea. apply (bo_layout _ _ _ Hb).
  - intros c z Hc Hz. split; [|by rewrite Eby]. apply Hoth. rewrite <- Ea.
    intros (y & Ey & Hy)%list_elem_of_fmap. by apply (other_ne h B1 b B2 Hi c z y Hc Hz Hy).
  - rewrite Euse, (hi_inuse _ _ Hi). unfold wrapu. rewrite Zminus_mod_idemp_l. f_equal.
    rewrite (sum_sizes_perm _ _ (live_insert B1 b' b B2 l1 a l2 eq_refl Ea)). cbn [foldr]. lia.
Qed.

Lemma update_best_ok h B1 b B2 M : heap_inv h (B1 ++ b :: B2) ->
  exists h', update_best h (bl_at b) M = Ok h' /\ heap_inv h' (B1 ++ b :: B2) /\
    h_bytes h' = h_bytes h /\ h_minors h' = h_minors h.
Proof.
  intros Hi. unfold update_best. case_decide as Hb; [by exists h|].
  destruct (hi_bet _ _ Hi) as [|Hin]; [done|]. apply list_elem_of_fmap in Hin as (c & Ec & Hc).
  apply list_elem_of_split in Hc as (C1 & C2 & EC). pose proof Hi as Hi'. rewrite EC in Hi'.
  rewrite Ec, (getM_Ok _ _ _ (inv_major _ _ _ _ Hi')). cbn [bind]. eexists. split; [reflexivity|].
  case_decide; [|done]. split; [|done]. destruct Hi as [I1 I2 I3 I4 I5 I6 I7 I8 I9 I10]. split; try done. right. cbn.
  apply list_elem_of_fmap_2, elem_of_app. right. by left.
Qed.

(** The writes of [free] up to the test for an empty block. *)
Lemma detach_ok h B1 b B2 l1 a l2 : heap_inv h (B1 ++ b :: B2) -> bl_allocs b = l1 ++ a :: l2 ->
  let b' := mk_block (bl_at b) (bl_pages b) (l1 ++ l2) in
  let M := major_of (last_of bl_at B1 0) (first_of bl_at B2 0) b in
  let m := minor_of (bl_at b) (last_of al_at l1 0) (first_of al_at l2 0) a in
  exists h1 h2 h3,
    modM (set_inuse h (l_inuse h - al_size a)) (bl_at b) (maj_set_usage (maj_usage M - (al_size a + sizeof_minor))) = Ok h1 /\
    modm h1 (al_at a) (min_set_magic LIBALLOC_DEAD) = Ok h2 /\
    unlink_minor h2 (al_at a) (bl_at b) m = Ok h3 /\
    heap_inv h3 (B1 ++ b' :: B2) /\ h_bytes h3 = h_bytes h /\
    h_minors h3 !! al_at a = Some (min_set_magic LIBALLOC_DEAD m).
Proof.
  intros Hi Ea b' M m. pose proof (inv_block _ _ _ _ Hi) as Hb. pose proof (bo_layout _ _ _ Hb) as Hl.
  pose proof (bo_minors _ _ _ Hb) as Hd. rewrite Ea in Hd, Hl.
  pose proof (dll_middle _ _ _ _ _ _ _ _ Hd) as Hm. fold m in Hm.
  pose (M1 := maj_set_usage (maj_usage M - (al_size a + sizeof_minor)) M).
  pose (h1 := set_majors (set_inuse h (l_inuse h - al_size a)) (<[bl_at b := M1]> (h_majors h))).
  pose (h2 := set_minors h1 (<[al_at a := min_set_magic LIBALLOC_DEAD m]> (h_minors h))).
  assert (Forall (fun z => 0 < al_at z) (l1 ++ a :: l2)) as Hpos.
  { apply Forall_forall. intros z Hz. pose proof (bo_at _ _ _ Hb). rewrite <- Ea in Hz.
    destruct (alloc_in_block _ _ _ _ Hb Hz). lia. }
  assert (h_majors h2 !! bl_at b = Some M1) as HM by (cbn; by rewrite lookup_insert_eq).
  assert (maj_first M1 = first_of al_at (l1 ++ a :: l2) 0) as Hf by (cbn; by rewrite Ea).
  exists h1, h2. eexists. split_and!.
  - by apply (modM_Ok (set_inuse h (l_inuse h - al_size a)) _ _ M), (inv_major _ _ _ _ Hi).
  - exact (modm_Ok h1 _ _ m Hm).
  - by apply (unlink_Ok h2 (bl_at b) M1 (h_minors h) l1 a l2 _ Hd (layout_nodup _ _ _ Hl) Hpos eq_refl HM Hf).
  - apply (removed_inv h _ B1 b B2 l1 a l2 Hi Ea); try done.
    + cbn. rewrite insert_insert_eq. f_equal. unfold maj_set_first, M1, maj_set_usage, major_of. cbn -[used wrapu].
      f_equal. pose proof (layout_used _ _ _ Hl). pose proof (layout_used _ _ _ (layout_remove _ _ _ _ _ Hl)).
      rewrite Ea, !used_app, used_cons in *. pose proof (bo_size _ _ _ Hb).
      unfold bl_end, sizeof_major, sizeof_minor in *. rewrite wrapu_small; lia.
    + cbn. by apply (relinked_dll h2 (bl_at b) (h_minors h) l1 a l2 _ Hd (layout_nodup _ _ _ Hl) eq_refl).
    + intros k Hk. cbn. by apply (relinked_other h2 (bl_at b) (h_minors h) l1 a l2 _ eq_refl).
  - done.
  - cbn. rewrite (relinked_self h2 (bl_at b) l1 a l2 (layout_nodup _ _ _ Hl)). cbn. by rewrite lookup_insert_eq.
Qed.

Lemma live_split B a : a ∈ live B -> exists B1 b B2 l1 l2, B = B1 ++ b :: B2 /\ bl_allocs b = l1 ++ a :: l2.
Proof.
  unfold live. intros Ha. apply list_elem_of_In, in_concat in Ha as (l & Hl & Ha).
  apply list_elem_of_In, list_elem_of_fmap in Hl as (b & -> & Hb). apply list_elem_of_In in Ha.
  apply list_elem_of_split in Hb as (B1 & B2 & ->). apply list_elem_of_split in Ha as (l1 & l2 & Ea).
  by exists B1, b, B2, l1, l2.
Qed.

(** [free] up to the decision about the block. *)
Lemma free_reduce h B1 b B2 l1 a l2 : heap_inv h (B1 ++ b :: B2) -> bl_allocs b = l1 ++ a :: l2 ->
  let b' := mk_block (bl_at b) (bl_pages b) (l1 ++ l2) in
  let M' := major_of (last_of bl_at B1 0) (first_of bl_at B2 0) b' in
  exists h3, heap_inv h3 (B1 ++ b' :: B2) /\ h_bytes h3 = h_bytes h /\
    h_minors h3 !! al_at a
      = Some (min_set_magic LIBALLOC_DEAD (minor_of (bl_at b) (last_of al_at l1 0) (first_of al_at l2 0) a)) /\
    free h (al_ptr a) = match l1 ++ l2 with
                        | [] => release_block h3 (bl_at b) M'
                        | _ => update_best h3 (bl_at b) M'
                        end.
Proof.
  intros Hi Ea b' M'. pose proof (inv_block _ _ _ _ Hi) as Hb.
  assert (a ∈ bl_allocs b) as Ha by (rewrite Ea; apply elem_of_app; right; by left).
  pose proof (bo_at _ _ _ Hb) as Hpos. pose proof (bo_end _ _ _ Hb).
  destruct (alloc_in_block _ _ _ _ Hb Ha) as (A1 & A2 & A3 & A4). destruct (al_ptr_spec a ltac:(lia)) as [_ Hp].
  unfold free. rewrite decide_False by lia. rewrite (UNALIGN_ok _ _ _ _ _ Hi Ha). cbn [bind].
  rewrite wrapu_small by (unfold al_end, sizeof_minor in *; lia).
  replace (al_at a + sizeof_minor - sizeof_minor) with (al_at a) by lia.
  pose proof (bo_minors _ _ _ Hb) as Hd. rewrite Ea in Hd. pose proof (dll_middle _ _ _ _ _ _ _ _ Hd) as Hm.
  rewrite (getm_Ok _ _ _ Hm). cbn [bind min_magic min_size min_block minor_of]. rewrite decide_True by done.
  rewrite (getM_Ok (set_inuse h _) _ _ (inv_major _ _ _ _ Hi)). cbn [bind].
  destruct (detach_ok h B1 b B2 l1 a l2 Hi Ea) as (h1 & h2 & h3 & -> & E2 & E3 & Hi3 & Eby & Hdead).
  cbn [bind]. rewrite E2. cbn [bind]. rewrite E3. cbn [bind].
  pose proof (inv_major _ _ _ _ Hi3) as HM3. cbn [bl_at] in HM3.
  rewrite (getM_Ok _ _ _ HM3). cbn [bind maj_first major_of bl_allocs].
  exists h3. split_and!; [done|done|done|]. subst M' b'.
  destruct (l1 ++ l2) as [|z l] eqn:El; cbn [first_of]; [by rewrite decide_True|].
  destruct (alloc_in_block _ _ _ z (inv_block _ _ _ _ Hi3) ltac:(by left)) as (Z1 & _). cbn in Z1.
  by rewrite decide_False by lia.
Qed.

Lemma free_ok h B a : heap_inv h B -> a ∈ live B ->
  exists h' B', free h (al_ptr a) = Ok h' /\ heap_inv h' B' /\ live B ≡ₚ a :: live B' /\
    forall z k, z ∈ live B' -> al_at z <= k < al_end z -> h_bytes h' !! k = h_bytes h !! k.
Proof.
  intros Hi (B1 & b & B2 & l1 & l2 & -> & Ea)%live_split.
  destruct (free_reduce h B1 b B2 l1 a l2 Hi Ea) as (h3 & Hi3 & Eby & _ & ->).
  pose proof (live_insert B1 (mk_block (bl_at b) (bl_pages b) (l1 ++ l2)) b B2 l1 a l2 eq_refl Ea) as Hlive.
  destruct (l1 ++ l2) as [|y l] eqn:El.
  - destruct (release_ok _ _ _ _ Hi3 eq_refl) as (h4 & E4 & Hi4 & Hby).
    eexists h4, _. split_and!; [exact E4|exact Hi4|rewrite Hlive; by rewrite !live_app, live_cons|].
    intros z k (C1 & c & C2 & m1 & m2 & EC & Ec)%live_split Hk. rewrite <- Eby. apply Hby.
    destruct (inv_other _ _ _ _ c Hi3) as [Hap Hcok]; [rewrite EC; apply elem_of_app; right; by left|].
    destruct (alloc_in_block _ _ _ z Hcok) as (? & ? & _); [rewrite Ec; apply elem_of_app; right; by left|].
    unfold apart in Hap. lia.
  - destruct (update_best_ok h3 B1 _ B2 (major_of (last_of bl_at B1 0) (first_of bl_at B2 0) (mk_block (bl_at b) (bl_pages b) (y :: l))) Hi3)
      as (h4 & E4 & Hi4 & Eby4 & _). eexists h4, _. split_and!; [exact E4|exact Hi4|exact Hlive|].
    intros. by rewrite Eby4, Eby.
Qed.

(** A second [free] of a pointer whose block is still there: the dead header is
    noticed and only the error is counted. *)
Lemma free_again h B1 b B2 l1 a l2 : heap_inv h (B1 ++ b :: B2) -> bl_allocs b = l1 ++ a :: l2 -> l1 ++ l2 <> [] ->
  exists h', free h (al_ptr a) = Ok h' /\ free h' (al_ptr a) = Ok (errored h' false).
Proof.
  intros Hi Ea Hne. destruct (free_reduce h B1 b B2 l1 a l2 Hi Ea) as (h3 & Hi3 & Eby & Hdead & ->).
  pose proof (inv_block _ _ _ _ Hi) as Hb. assert (a ∈ bl_allocs b) as Ha by (rewrite Ea; apply elem_of_app; right; by left).
  pose proof (bo_at _ _ _ Hb) as Hpos. pose proof (bo_end _ _ _ Hb).
  destruct (alloc_in_block _ _ _ _ Hb Ha) as (A1 & A2 & A3 & A4). destruct (al_ptr_spec a ltac:(lia)) as [_ Hp].
  destruct (l1 ++ l2) as [|y l] eqn:El; [done|].
  destruct (update_best_ok h3 B1 _ B2 (major_of (last_of bl_at B1 0) (first_of bl_at B2 0) (mk_block (bl_at b) (bl_pages b) (y :: l))) Hi3)
    as (h4 & E4 & Hi4 & Eby4 & Emn4). exists h4. split; [exact E4|].
  unfold free. rewrite decide_False by lia.
  assert (UNALIGN h4 (al_ptr a) = Ok (al_at a + sizeof_minor)) as ->.
  { rewrite <- (UNALIGN_ok _ _ _ _ _ Hi Ha). unfold UNALIGN, load_byte.
    rewrite (wrapu_small 64) by (unfold al_end, sizeof_minor, ALIGN_INFO in *; lia).
    rewrite (inv_in_heap h B1 b B2), (inv_in_heap h4 B1 (mk_block (bl_at b) (bl_pages b) (y :: l)) B2), Eby4, Eby;
      try done; unfold al_end, bl_end, bl_size, sizeof_minor, ALIGN_INFO in *; cbn; lia. }
  cbn [bind]. rewrite wrapu_small by (unfold al_end, sizeof_minor in *; lia).
  replace (al_at a + sizeof_minor - sizeof_minor) with (al_at a) by lia. rewrite <- Emn4 in Hdead.
  rewrite (getm_Ok _ _ _ Hdead). done.
Qed.
End free.
