(* ===== verification/LiballocSpec.v ===== *)
(** * The contract of the kernel heap

    What callers of src/kernel/mem/liballoc/liballoc_1_1.c may rely on: the
    allocations in use never overlap, [malloc], [free], [calloc] and [realloc]
    keep the invariant and the bytes of the others, and so does every program
    that uses them. *)

From stdpp Require Import gmap.
From S2P Require Import Prelude Liballoc LiballocInv LiballocMalloc LiballocSearch LiballocFree.

Local Open Scope Z_scope.

Section spec.
Context {P : Type} `{PageSourceLaws P}.
Implicit Types (h : heap (P := P)) (B : list block).

(** ** Allocations in use *)

(** The bytes a caller may use. *)
Definition usable (a : alloc) (k : Z) : Prop := al_ptr a <= k < al_ptr a + al_req a.

(** Two allocations, and what is around them, do not meet. *)
Definition clear_of (x y : alloc) : Prop := al_end x <= al_at y \/ al_end y <= al_at x.

Lemma in_live h B1 b B2 l1 a l2 : heap_inv h (B1 ++ b :: B2) -> bl_allocs b = l1 ++ a :: l2 ->
  a ∈ bl_allocs b /\ 0 < al_at a /\ al_end a <= bl_end b /\ bl_at b + 40 <= al_at a /\
  0 <= al_req a /\ al_req a + 32 <= al_size a /\ bl_end b <= 2 ^ 64.
Proof.
  intros Hi Ea. assert (a ∈ bl_allocs b) as Ha by (rewrite Ea; apply elem_of_app; right; by left).
  pose proof (inv_block _ _ _ _ Hi) as Hb. destruct (alloc_in_block _ _ _ _ Hb Ha) as (? & ? & ? & ?).
  pose proof (bo_at _ _ _ Hb). pose proof (bo_end _ _ _ Hb). split_and!; (done || lia).
Qed.

Lemma usable_inside h B a k : heap_inv h B -> a ∈ live B -> usable a k ->
  al_at a + 56 <= k < al_end a /\ 0 < al_at a /\ al_end a <= 2 ^ 64 /\ in_heap h k 1 = true.
Proof.
  intros Hi (B1 & b & B2 & l1 & l2 & -> & Ea)%live_split Hk.
  destruct (in_live _ _ _ _ _ _ _ Hi Ea) as (Ha & ? & ? & ? & ? & ? & ?).
  destruct (al_ptr_spec a ltac:(lia)) as [_ ?]. unfold usable, al_end, sizeof_minor in *.
  split_and!; try lia. apply (inv_in_heap h B1 b B2); (done || lia).
Qed.

Lemma live_clear h B x y : heap_inv h B -> x ∈ live B -> y ∈ live B -> x = y \/ clear_of x y.
Proof.
  intros Hi (B1 & b & B2 & l1 & l2 & -> & Ea)%live_split Hy. pose proof (inv_block _ _ _ _ Hi) as Hb.
  rewrite live_app, live_cons, !elem_of_app in Hy.
  assert (y ∈ bl_allocs b \/ y ∈ live (B1 ++ B2)) as [Hyb|Hyb]
    by (rewrite live_app, elem_of_app; tauto).
  - pose proof (bo_layout _ _ _ Hb) as Hl. rewrite Ea in Hl, Hyb. apply elem_of_app in Hyb. rewrite elem_of_cons in Hyb.
    pose proof (layout_order _ _ _ _ _ y Hl) as [Ho1 Ho2]. unfold clear_of.
    destruct Hyb as [Hyb|[->|Hyb]]; [destruct (Ho1 Hyb)|by left|destruct (Ho2 Hyb)]; right; lia.
  - right. apply live_split in Hyb as (C1 & c & C2 & m1 & m2 & EC & Ec).
    destruct (inv_other _ _ _ _ c Hi) as [Hap Hcok]; [rewrite EC; apply elem_of_app; right; by left|].
    destruct (alloc_in_block _ _ _ y Hcok) as (? & ? & _); [rewrite Ec; apply elem_of_app; right; by left|].
    destruct (in_live _ _ _ _ _ _ _ Hi Ea) as (Ha & ? & ? & ? & _). unfold apart, clear_of in *. lia.
Qed.

Lemma live_nodup h B : heap_inv h B -> NoDup (live B).
Proof.
  intros Hi. pose proof (hi_blocks _ _ Hi) as Hb. pose proof (hi_apart _ _ Hi) as Hs. clear Hi.
  induction B as [|b B IH]; [by constructor|]. rewrite live_cons. apply Forall_cons in Hb as [Hb HB].
  destruct Hs as [Hf Hs]. apply NoDup_app. split_and!; [|..|by apply IH].
  - pose proof (layout_nodup _ _ _ (bo_layout _ _ _ Hb)) as Hn. by apply NoDup_fmap_1 in Hn.
  - intros a Ha (C1 & c & C2 & m1 & m2 & EC & Ec)%live_split. rewrite Forall_forall in Hf, HB.
    assert (c ∈ B) as Hc by (rewrite EC; apply elem_of_app; right; by left).
    destruct (alloc_in_block _ _ _ _ Hb Ha) as (? & ? & ? & ?).
    destruct (alloc_in_block _ _ _ a (HB c Hc)) as (? & ? & ? & ?); [rewrite Ec; apply elem_of_app; right; by left|].
    specialize (Hf c Hc). unfold apart, al_end, sizeof_minor in *. lia.
Qed.

(** A usable byte is not an alignment byte, and belongs to one allocation. *)
Lemma usable_not_align h B x z k : heap_inv h B -> x ∈ live B -> z ∈ live B -> usable x k -> k <> al_ptr z - ALIGN_INFO.
Proof.
  intros Hi Hx Hz Hk. destruct (usable_inside _ _ _ _ Hi Hx Hk) as (? & ? & _).
  apply live_split in Hz as Hz'. destruct Hz' as (B1 & b & B2 & l1 & l2 & -> & Ea).
  destruct (in_live _ _ _ _ _ _ _ Hi Ea) as (_ & ? & ? & ? & ? & ? & ?).
  destruct (al_ptr_spec z ltac:(lia)) as [_ ?].
  destruct (live_clear _ _ _ _ Hi Hx Hz) as [->|Hc]; unfold usable, clear_of, al_end, sizeof_minor, ALIGN_INFO in *; lia.
Qed.

Lemma usable_unique h B x z k : heap_inv h B -> x ∈ live B -> z ∈ live B -> usable x k -> usable z k -> x = z.
Proof.
  intros Hi Hx Hz Hxk Hzk. destruct (live_clear _ _ _ _ Hi Hx Hz) as [->|Hc]; [done|].
  destruct (usable_inside _ _ _ _ Hi Hx Hxk) as (? & _). destruct (usable_inside _ _ _ _ Hi Hz Hzk) as (? & _).
  unfold clear_of in Hc. lia.
Qed.

(** ** Writes of callers *)

Lemma bytes_inv h B by_ : heap_inv h B ->
  (forall z, z ∈ live B -> by_ !! (al_ptr z - ALIGN_INFO) = h_bytes h !! (al_ptr z - ALIGN_INFO)) ->
  heap_inv (set_bytes h by_) B.
Proof.
  intros [I1 I2 I3 I4 I5 I6 I7 I8 I9 I10] Hby. split; try done. cbn.
  apply Forall_forall. intros c Hc. rewrite Forall_forall in I3. destruct (I3 c Hc) as [Cm Cb Cl Ca Ce Cp Cs].
  split; try done. intros z Hz. rewrite Hby; [by apply Cb|].
  apply list_elem_of_split in Hc as (C1 & C2 & ->). rewrite live_app, live_cons, !elem_of_app. tauto.
Qed.

Lemma store_ok h B x k v : heap_inv h B -> x ∈ live B -> usable x k ->
  store_byte h k v = Ok (set_bytes h (<[k := u8 v]> (h_bytes h))) /\
  heap_inv (set_bytes h (<[k := u8 v]> (h_bytes h))) B.
Proof.
  intros Hi Hx Hk. destruct (usable_inside _ _ _ _ Hi Hx Hk) as (_ & _ & _ & Hin). split.
  - unfold store_byte. by rewrite Hin.
  - apply bytes_inv; [done|]. intros z Hz. apply lookup_insert_ne. by apply (usable_not_align h B x z k).
Qed.

Lemma load_ok h B x k v : heap_inv h B -> x ∈ live B -> usable x k -> h_bytes h !! k = Some v -> load_byte h k = Ok v.
Proof.
  intros Hi Hx Hk Hv. destruct (usable_inside _ _ _ _ Hi Hx Hk) as (_ & _ & _ & Hin).
  unfold load_byte. by rewrite Hin, Hv.
Qed.

(** [liballoc_memset] fills the bytes of an allocation. *)
Lemma memset_loop_ok B x c m : forall h i n fuel, heap_inv h B -> x ∈ live B -> 0 <= i -> n = i + Z.of_nat m ->
  n <= al_req x -> n < 2 ^ 32 -> (m <= fuel)%nat ->
  exists by_, memset_loop h (al_ptr x) c i n fuel = Ok (set_bytes h by_) /\ heap_inv (set_bytes h by_) B /\
    (forall k, by_ !! k = if decide (al_ptr x + i <= k < al_ptr x + n) then Some (u8 c) else h_bytes h !! k).
Proof.
  induction m as [|m IH]; intros h i n fuel Hi Hx Hi0 Hn Hr H32 Hf.
  - exists (h_bytes h). assert (set_bytes h (h_bytes h) = h) as -> by (by destruct h). split_and!; [|done|].
    + destruct fuel; cbn; by rewrite decide_False by lia.
    + intros k. rewrite decide_False by lia. done.
  - destruct fuel as [|f]; [lia|]. cbn [memset_loop]. rewrite decide_True by lia.
    destruct (store_ok h B x (al_ptr x + i) c Hi Hx ltac:(unfold usable; lia)) as [-> Hi']. cbn [bind].
    rewrite (wrapu_small 32) by lia.
    destruct (IH _ (i + 1) n f Hi' Hx ltac:(lia) ltac:(lia) Hr H32 ltac:(lia)) as (by_ & E & Hi2 & Hk).
    exists by_. split_and!; [exact E|exact Hi2|]. intros k. rewrite Hk. cbn.
    destruct (decide (k = al_ptr x + i)) as [->|Hne].
    + rewrite decide_False by lia. rewrite decide_True by lia. by rewrite lookup_insert_eq.
    + rewrite lookup_insert_ne by done. destruct (decide (al_ptr x + (i + 1) <= k < al_ptr x + n)).
      * by rewrite decide_True by lia.
      * by rewrite decide_False by lia.
Qed.

(** [liballoc_memcpy] copies between two allocations. *)
Definition initialised h (a : alloc) : Prop :=
  forall k, usable a k -> exists v, h_bytes h !! k = Some v /\ 0 <= v < 256.

Lemma copy_word_ok h B a dst n : forall src, heap_inv h B -> a ∈ live B -> initialised h a ->
  (forall j, 0 <= j < Z.of_nat n -> usable a (src + j)) ->
  exists w, copy_word h dst src n = Ok w /\ length w = n /\ Forall (fun v => 0 <= v < 256) w /\
    forall j : nat, (j < n)%nat -> w !! j = h_bytes h !! (src + Z.of_nat j).
Proof.
  induction n as [|n IH]; intros src Hi Ha Hinit Hu; [exists []; split_and!; [done|done|done|lia]|].
  cbn [copy_word]. specialize (Hu 0 ltac:(lia)) as Hu0. rewrite Z.add_0_r in Hu0.
  destruct (Hinit _ Hu0) as (v & Hv & Hr). rewrite (load_ok _ _ _ _ _ Hi Ha Hu0 Hv). cbn [bind].
  destruct (IH (src + 1) Hi Ha Hinit) as (w & -> & Hl & Hw & Hj).
  { intros j Hj. rewrite <- Z.add_assoc. apply Hu. lia. }
  exists (v :: w). cbn [bind]. split_and!; [done|cbn; lia|by constructor|].
  intros [|j] Hjn; cbn [lookup list_lookup]; [by rewrite Z.add_0_r|]. rewrite Hj by lia. f_equal. lia.
Qed.

Lemma store_word_ok B x w : forall h dst, heap_inv h B -> x ∈ live B -> Forall (fun v => 0 <= v < 256) w ->
  (forall j, 0 <= j < Z.of_nat (length w) -> usable x (dst + j)) ->
  exists by_, store_word h dst w = Ok (set_bytes h by_) /\ heap_inv (set_bytes h by_) B /\
    forall k, by_ !! k = if decide (dst <= k < dst + Z.of_nat (length w)) then w !! Z.to_nat (k - dst) else h_bytes h !! k.
Proof.
  induction w as [|v w IH]; intros h dst Hi Hx Hw Hu; cbn [store_word length].
  - exists (h_bytes h). assert (set_bytes h (h_bytes h) = h) as -> by (by destruct h). split_and!; [done|done|].
    intros k. by rewrite decide_False by lia.
  - apply Forall_cons in Hw as [Hv Hw]. specialize (Hu 0 ltac:(cbn; lia)) as Hu0. rewrite Z.add_0_r in Hu0.
    destruct (store_ok h B x dst v Hi Hx Hu0) as [-> Hi']. cbn [bind]. rewrite wrapu_small in * by lia.
    destruct (IH _ (dst + 1) Hi' Hx Hw) as (by_ & E & Hi2 & Hk).
    { intros j Hj. rewrite <- Z.add_assoc. apply Hu. cbn. lia. }
    exists by_. split_and!; [exact E|exact Hi2|]. intros k. rewrite Hk. cbn [h_bytes set_bytes].
    destruct (decide (k = dst)) as [->|Hne].
    + rewrite decide_False by lia. rewrite decide_True by lia. by rewrite lookup_insert_eq, Z.sub_diag.
    + rewrite lookup_insert_ne by done. destruct (decide (dst + 1 <= k < dst + 1 + Z.of_nat (length w))).
      * rewrite decide_True by lia. replace (Z.to_nat (k - dst)) with (S (Z.to_nat (k - (dst + 1)))) by lia. done.
      * by rewrite decide_False by lia.
Qed.

Lemma memcpy_loop_ok B x a m : forall h off n fuel, x ∈ live B -> a ∈ live B -> x <> a -> heap_inv h B ->
  initialised h a -> 0 <= off -> n = Z.of_nat m -> off + n <= al_req a -> off + n <= al_req x -> (m <= fuel)%nat ->
  exists by_, memcpy_loop h (al_ptr x + off) (al_ptr a + off) n fuel = Ok (set_bytes h by_) /\
    heap_inv (set_bytes h by_) B /\
    forall k, by_ !! k = if decide (al_ptr x + off <= k < al_ptr x + off + n)
                         then h_bytes h !! (al_ptr a + (k - al_ptr x)) else h_bytes h !! k.
Proof.
  induction m as [m IH] using lt_wf_ind. intros h off n fuel Hx Ha Hne Hi Hinit Hoff Hn Hra Hrx Hf.
  destruct (decide (n <= 0)) as [Hn0|Hn0].
  - exists (h_bytes h). assert (set_bytes h (h_bytes h) = h) as -> by (by destruct h). split_and!; [|done|].
    + destruct fuel; cbn; by rewrite decide_True.
    + intros k. by rewrite decide_False by lia.
  - destruct fuel as [|f]; [lia|]. cbn [memcpy_loop]. rewrite decide_False by done.
    set (q := if decide (4 <= n) then 4%nat else 1%nat). assert (0 < Z.of_nat q <= n) as Hq by (subst q; case_decide; lia).
    clearbody q.
    destruct (copy_word_ok h B a (al_ptr x + off) q (al_ptr a + off) Hi Ha Hinit) as (w & -> & Hl & Hw & Hj).
    { intros j Hj. unfold usable. lia. }
    cbn [bind]. destruct (store_word_ok B x w h (al_ptr x + off) Hi Hx Hw) as (b1 & -> & Hi1 & Hk1).
    { intros j Hjw. unfold usable. lia. }
    cbn [bind]. rewrite <- !Z.add_assoc. rewrite Hl in Hk1.
    assert (forall k, usable a k -> b1 !! k = h_bytes h !! k) as Hsame.
    { intros k Hk. rewrite Hk1, decide_False; [done|]. intros Hin. apply Hne. eapply usable_unique; [exact Hi|done|done| |exact Hk].
      unfold usable. lia. }
    destruct (IH (m - q)%nat ltac:(lia) (set_bytes h b1) (off + Z.of_nat q) (n - Z.of_nat q) f) as (b2 & E & Hi2 & Hk2);
      try done; try lia.
    { intros k Hk. cbn. rewrite Hsame by done. by apply Hinit. }
    exists b2. split_and!; [exact E|exact Hi2|]. intros k. rewrite Hk2. cbn [h_bytes set_bytes].
    destruct (decide (al_ptr x + (off + Z.of_nat q) <= k < al_ptr x + (off + Z.of_nat q) + (n - Z.of_nat q))) as [Hin|Hin].
    + rewrite decide_True by lia. apply Hsame. unfold usable. lia.
    + rewrite Hk1. destruct (decide (al_ptr x + off <= k < al_ptr x + off + Z.of_nat q)) as [Hin'|Hin'].
      * rewrite decide_True by lia. rewrite Hj by lia. f_equal. lia.
      * by rewrite decide_False by lia.
Qed.

(** ** realloc *)

Definition resized (a : alloc) (n : Z) : alloc := mk_alloc (al_at a) (al_size a) n.

Lemma layout_resized l1 : forall lo a n l2 hi, layout lo (l1 ++ a :: l2) hi -> 0 <= n <= al_req a ->
  layout lo (l1 ++ resized a n :: l2) hi.
Proof.
  induction l1 as [|y l1 IH]; intros lo a n l2 hi; cbn [app layout].
  - intros (? & ? & ? & Hl) Hn. cbn. split_and!; (done || lia).
  - intros (? & ? & ? & Hl) Hn. split_and!; try done. by apply IH.
Qed.

Lemma shrink_ok h B1 b B2 l1 a l2 n : heap_inv h (B1 ++ b :: B2) -> bl_allocs b = l1 ++ a :: l2 -> 0 <= n <= al_req a ->
  n < 2 ^ 32 ->
  let b' := mk_block (bl_at b) (bl_pages b) (l1 ++ resized a n :: l2) in
  exists h', modm h (al_at a) (min_set_req_size n) = Ok h' /\ heap_inv h' (B1 ++ b' :: B2) /\ h_bytes h' = h_bytes h.
Proof.
  intros Hi Ea Hn H32 b'. pose proof (inv_block _ _ _ _ Hi) as Hb. pose proof (bo_layout _ _ _ Hb) as Hl.
  pose proof (bo_minors _ _ _ Hb) as Hd. rewrite Ea in Hd, Hl. pose proof (dll_middle _ _ _ _ _ _ _ _ Hd) as Hm.
  rewrite (modm_Ok _ _ _ _ Hm). eexists. split_and!; [reflexivity| |done].
  assert (min_set_req_size n (minor_of (bl_at b) (last_of al_at l1 0) (first_of al_at l2 0) a)
    = minor_of (bl_at b) (last_of al_at l1 0) (first_of al_at l2 0) (resized a n)) as ->
    by (unfold min_set_req_size; cbn; rewrite wrapu_small by lia; done).
  assert (used (l1 ++ resized a n :: l2) = used (l1 ++ a :: l2)) as Eu by (by rewrite !used_app, !used_cons).
  apply (replace_inv h _ B1 b b' B2 Hi eq_refl eq_refl); try done.
  - cbn [h_majors set_minors]. symmetry. apply insert_id. rewrite (inv_major _ _ _ _ Hi). unfold major_of.
    cbn [bl_allocs b' bl_pages]. rewrite Eu, Ea. do 2 f_equal. by destruct l1.
  - split; cbn [b' bl_allocs bl_at bl_pages h_minors h_bytes set_minors]; try apply Hb.
    + apply dll_replace; [done|by eapply layout_nodup|done].
    + intros z Hz. apply elem_of_app in Hz. rewrite elem_of_cons in Hz.
      assert (exists z', z' ∈ bl_allocs b /\ al_at z' = al_at z) as (z' & Hz' & Ez).
      { rewrite Ea. destruct Hz as [Hz|[->|Hz]]; [exists z|exists a|exists z];
          rewrite elem_of_app, elem_of_cons; split; try done; tauto. }
      pose proof (bo_bytes _ _ _ Hb _ Hz') as Hby. unfold al_ptr in *. by rewrite Ez in Hby.
    + by apply layout_resized.
  - intros c z Hc Hz. split; [|done]. cbn. apply lookup_insert_ne. apply (other_ne h B1 b B2 Hi c z a Hc Hz).
    rewrite Ea. apply elem_of_app. right. by left.
  - cbn [l_inuse set_minors]. rewrite (hi_inuse _ _ Hi). f_equal. rewrite !live_app, !live_cons, Ea. cbn [bl_allocs b'].
    rewrite !foldr_app. done.
Qed.

(** The branch of [realloc] for a live pointer. *)
Lemma realloc_reduce h B1 b B2 l1 a l2 n : heap_inv h (B1 ++ b :: B2) -> bl_allocs b = l1 ++ a :: l2 -> n <> 0 ->
  realloc h (al_ptr a) n =
    if decide (n <= al_req a) then
      let* h := modm h (al_at a) (min_set_req_size n) in Ok (h, al_ptr a)
    else
      let* '(h, new) := malloc h n in
      let* h := liballoc_memcpy h new (al_ptr a) (al_req a) in
      let* h := free h (al_ptr a) in
      Ok (h, new).
Proof.
  intros Hi Ea Hn. destruct (in_live _ _ _ _ _ _ _ Hi Ea) as (Ha & ? & ? & ? & ? & ? & ?).
  destruct (al_ptr_spec a ltac:(lia)) as [_ ?]. unfold realloc. rewrite !decide_False by lia.
  rewrite (UNALIGN_ok _ _ _ _ _ Hi Ha). cbn [bind].
  rewrite wrapu_small by (unfold al_end, sizeof_minor in *; lia).
  replace (al_at a + sizeof_minor - sizeof_minor) with (al_at a) by lia.
  pose proof (bo_minors _ _ _ (inv_block _ _ _ _ Hi)) as Hd. rewrite Ea in Hd.
  rewrite (getm_Ok _ _ _ (dll_middle _ _ _ _ _ _ _ _ Hd)). done.
Qed.

(** The bytes of the other allocations are those of before. *)
Definition preserved h h' (L : list alloc) : Prop :=
  forall z k, z ∈ L -> usable z k -> h_bytes h' !! k = h_bytes h !! k.

Lemma success_preserved h B h' B' x : heap_inv h' B' -> live B' ≡ₚ x :: live B ->
  h_bytes h' = <[al_ptr x - ALIGN_INFO := al_ptr x - (al_at x + sizeof_minor)]> (h_bytes h) ->
  x ∈ live B' /\ x ∉ live B /\ (forall z, z ∈ live B -> z ∈ live B') /\ preserved h h' (live B).
Proof.
  intros Hi Hl Eby. assert (x ∈ live B') as Hx by (rewrite Hl; by left).
  assert (forall z, z ∈ live B -> z ∈ live B') as Hin by (intros z Hz; rewrite Hl; by right).
  pose proof (live_nodup _ _ Hi) as Hnd. rewrite Hl in Hnd. apply NoDup_cons in Hnd as [Hxl _].
  split_and!; [done|done|done|]. intros z k Hz Hk. rewrite Eby. apply lookup_insert_ne, not_eq_sym.
  by apply (usable_not_align h' B' z x k Hi (Hin z Hz) Hx).
Qed.

(** Usable bytes lie between the header and the end. *)
Lemma usable_span h B z k : heap_inv h B -> z ∈ live B -> usable z k -> al_at z <= k < al_end z.
Proof. intros Hi Hz Hk. destruct (usable_inside _ _ _ _ Hi Hz Hk) as (? & _). lia. Qed.

Lemma realloc_grow_ok h B a n : heap_inv h B -> a ∈ live B -> initialised h a -> small n -> al_req a < n ->
  (forall h', malloc h n <> Ok (h', 0)) ->
  exists h' x B' L, realloc h (al_ptr a) n = Ok (h', al_ptr x) /\ heap_inv h' B' /\ al_req x = n /\
    live B ≡ₚ a :: L /\ live B' ≡ₚ x :: L /\ preserved h h' L /\
    forall i, 0 <= i < al_req a -> h_bytes h' !! (al_ptr x + i) = h_bytes h !! (al_ptr a + i).
Proof.
  intros Hi Ha Hinit Hn Hgrow Hpg. apply live_split in Ha as Hs. destruct Hs as (B1 & b & B2 & l1 & l2 & EB & Ea).
  assert (heap_inv h (B1 ++ b :: B2)) as Hi' by (by rewrite <- EB).
  destruct (in_live _ _ _ _ _ _ _ Hi' Ea) as (_ & ? & ? & ? & Hr & ? & ?).
  rewrite (realloc_reduce _ _ _ _ _ _ _ n Hi' Ea) by lia. rewrite decide_False by lia. clear Hi' EB Ea.
  destruct (malloc_outcome n Hn h B Hi) as [(h1 & x & C & -> & HiC & Ex & Hl & Eby)|(? & ? & E & _)]; [|by apply Hpg in E].
  destruct (success_preserved h B h1 C x HiC Hl Eby) as (Hx & Hxn & Hin & Hp1). cbn [bind].
  assert (initialised h1 a) as Hinit1 by (intros k Hk; rewrite (Hp1 a k Ha Hk); by apply Hinit).
  assert (x <> a) as Hxa by (intros ->; done).
  destruct (memcpy_loop_ok C x a (Z.to_nat (al_req a)) h1 0 (al_req a) (Z.to_nat (al_req a)) Hx (Hin a Ha) Hxa HiC Hinit1)
    as (by_ & E2 & Hi2 & Hk2); try lia.
  rewrite !Z.add_0_r in E2. unfold liballoc_memcpy. rewrite E2. cbn [bind].
  destruct (free_ok _ _ _ Hi2 (Hin a Ha)) as (h3 & D & -> & Hi3 & Hl3 & Hby3). cbn [bind].
  apply elem_of_Permutation in Ha as (L & HL).
  assert (live D ≡ₚ x :: L) as HD by (apply (Permutation_cons_inv (a := a)); rewrite <- Hl3, Hl, HL; constructor).
  assert (forall z, z ∈ L -> z ∈ live B) as HLB by (intros z Hz; rewrite HL; by right).
  exists h3, x, D, L. split_and!; try done.
  - intros z k Hz Hk. rewrite (Hby3 z k); [|rewrite HD; by right|by apply (usable_span h B); [done|apply HLB|]].
    cbn. rewrite Hk2, decide_False; [by apply (Hp1 z k (HLB z Hz))|]. intros Hrange. apply Hxn.
    replace x with z; [by apply HLB|]. apply (usable_unique h1 C z x k HiC); [by apply Hin, HLB|done|done|].
    unfold usable. lia.
  - intros i Hir. assert (usable x (al_ptr x + i)) as Hux by (unfold usable; lia).
    rewrite (Hby3 x); [|rewrite HD; by left|by apply (usable_span h1 C)].
    cbn. rewrite Hk2, decide_True by lia.
    replace (al_ptr a + (al_ptr x + i - al_ptr x)) with (al_ptr a + i) by lia.
    apply (Hp1 a); [rewrite HL; by left|]. unfold usable. lia.
Qed.

(** The null page belongs to no block. *)
Lemma null_not_in_heap h B n : heap_inv h B -> in_heap h 0 n = false.
Proof.
  intros Hi. unfold in_heap. apply bool_decide_eq_false. intros (k & M & Hk & Hk0 & _).
  destruct (list_elem_of_fmap bl_at B k) as [Hb _]. destruct (Hb (hi_only _ _ Hi k ltac:(by exists M))) as (b & -> & Hin).
  pose proof (inv_positive _ _ Hi) as Hp. rewrite Forall_forall in Hp. specialize (Hp b Hin). lia.
Qed.

Lemma realloc_null_ok h B a n : heap_inv h B -> a ∈ live B -> initialised h a -> small n -> 0 < al_req a < n ->
  (exists h', malloc h n = Ok (h', 0)) -> realloc h (al_ptr a) n = Err NullDeref.
Proof.
  intros Hi Ha Hinit Hn Hgrow (h' & E). apply live_split in Ha as Hs. destruct Hs as (B1 & b & B2 & l1 & l2 & EB & Ea).
  assert (heap_inv h (B1 ++ b :: B2)) as Hi' by (by rewrite <- EB).
  rewrite (realloc_reduce _ _ _ _ _ _ _ n Hi' Ea) by lia. rewrite decide_False by lia. clear Hi' EB Ea.
  destruct (malloc_outcome n Hn h B Hi) as [(h1 & x & C & E' & HiC & Ex & Hl & Eby)|(h1 & C & E' & HiC & Hl & Hno & Eby)];
    rewrite E in E'.
  { injection E' as <- E0. destruct (success_preserved h B h' C x HiC Hl Eby) as (Hx & _).
    destruct (usable_inside h' C x (al_ptr x) HiC Hx ltac:(unfold usable, small in *; lia)) as (? & ? & _). lia. }
  injection E' as <-. rewrite E. cbn [bind]. unfold liballoc_memcpy. destruct (Z.to_nat (al_req a)) as [|f] eqn:Ef; [lia|].
  cbn [memcpy_loop]. rewrite decide_False by lia.
  set (q := if decide (4 <= al_req a) then 4%nat else 1%nat).
  assert (1 <= Z.of_nat q <= al_req a) as Hq by (subst q; case_decide; lia). clearbody q.
  rewrite <- Hl in Ha. assert (initialised h' a) as Hinit' by (intros k Hk; rewrite Eby; by apply Hinit).
  destruct (copy_word_ok h' C a 0 q (al_ptr a) HiC Ha Hinit') as (w & -> & Hw & _).
  { intros j Hj. unfold usable. lia. }
  cbn [bind]. destruct w as [|v w]; [cbn in Hw; lia|]. cbn [store_word]. unfold store_byte.
  by rewrite (null_not_in_heap _ _ _ HiC).
Qed.

(** ** calloc *)

Lemma calloc_ok h B nobj size : heap_inv h B -> small (nobj * size) -> ~ no_pages (h_pages h) (nobj * size) ->
  exists h' x B', calloc h nobj size = Ok (h', al_ptr x) /\ heap_inv h' B' /\ al_req x = nobj * size /\
    live B' ≡ₚ x :: live B /\ preserved h h' (live B) /\ forall k, usable x k -> h_bytes h' !! k = Some 0.
Proof.
  intros Hi Hs Hpg. unfold calloc. pose proof Hs as Hs'. unfold small in Hs'.
  rewrite wraps_small by lia. rewrite wrapu_small by lia.
  destruct (malloc_outcome _ Hs h B Hi) as [(h1 & x & C & -> & HiC & Ex & Hl & Eby)|(? & ? & _ & _ & _ & Hno & _)]; [|done].
  destruct (success_preserved h B h1 C x HiC Hl Eby) as (Hx & Hxn & Hin & Hp1). cbn [bind].
  destruct (memset_loop_ok C x 0 (Z.to_nat (nobj * size)) h1 0 (nobj * size) (Z.to_nat (nobj * size)) HiC Hx)
    as (by_ & E & Hi2 & Hk); try lia.
  unfold liballoc_memset. rewrite E. cbn [bind]. exists (set_bytes h1 by_), x, C. split_and!; try done.
  - intros z k Hz Hzk. cbn. rewrite Hk, decide_False; [by apply (Hp1 z)|]. intros Hr. apply Hxn.
    replace x with z; [done|]. apply (usable_unique h1 C z x k HiC); [by apply Hin|done|done|]. unfold usable. lia.
  - intros k Hxk. cbn. rewrite Hk, decide_True; [done|]. unfold usable in Hxk. lia.
Qed.

(** ** Callers *)

(** What callers hold: pointers with the sizes they asked for. *)
Definition held (B : list block) : list (Z * Z) := (fun a => (al_ptr a, al_req a)) <$> live B.

(** A step of the code that uses the heap: it allocates, releases a pointer it
    holds, or writes a byte of its own. *)
Inductive client_step : heap (P := P) * list (Z * Z) -> heap (P := P) * list (Z * Z) -> Prop :=
| step_malloc h L n h' p : small n -> malloc h n = Ok (h', p) ->
    client_step (h, L) (h', if decide (p = 0) then L else (p, n) :: L)
| step_calloc h L nobj n h' p : small (nobj * n) -> calloc h nobj n = Ok (h', p) -> p <> 0 ->
    client_step (h, L) (h', (p, nobj * n) :: L)
| step_free h L1 p n L2 h' : free h p = Ok h' -> client_step (h, L1 ++ (p, n) :: L2) (h', L1 ++ L2)
| step_write h L p n i v h' : (p, n) ∈ L -> 0 <= i < n -> store_byte h (p + i) v = Ok h' ->
    client_step (h, L) (h', L).

Definition client_inv (s : heap (P := P) * list (Z * Z)) : Prop :=
  exists B, heap_inv s.1 B /\ s.2 ≡ₚ held B.

Lemma empty_inv (pages : P) : valid pages -> heap_inv (empty_heap pages) [].
Proof.
  intros Hpg. split; try done; try (by constructor). intros a [v Hv]. cbn in Hv. by rewrite lookup_empty in Hv.
Qed.

Lemma held_elem B p n : (p, n) ∈ held B -> exists a, a ∈ live B /\ p = al_ptr a /\ n = al_req a.
Proof. intros (a & [= -> ->] & Ha)%list_elem_of_fmap. by exists a. Qed.

(** A pointer at some place of the list is that of a live allocation. *)
Lemma held_split B p n L : held B ≡ₚ (p, n) :: L -> exists a l, live B ≡ₚ a :: l /\
  p = al_ptr a /\ n = al_req a /\ L = ((fun a => (al_ptr a, al_req a)) <$> l).
Proof.
  intros Hp. symmetry in Hp. apply Permutation_map_inv in Hp as (l3 & E & Hl).
  destruct l3 as [|a l]; [done|]. injection E as -> -> ->. by exists a, l.
Qed.

Lemma live_ptr h B a : heap_inv h B -> a ∈ live B ->
  0 < al_at a /\ al_at a + 56 <= al_ptr a /\ al_ptr a mod 16 = 0 /\ al_ptr a + al_req a <= al_end a.
Proof.
  intros Hi (B1 & b & B2 & l1 & l2 & -> & Ea)%live_split.
  destruct (in_live _ _ _ _ _ _ _ Hi Ea) as (_ & ? & ? & ? & ? & ? & ?).
  destruct (al_ptr_spec a ltac:(lia)) as [? ?]. unfold al_end, sizeof_minor in *. split_and!; (done || lia).
Qed.

(** [malloc] gives NULL only when there are no pages. *)
Lemma pages_enough h B n : heap_inv h B -> small n -> ~ no_pages (h_pages h) n -> forall h', malloc h n <> Ok (h', 0).
Proof.
  intros Hi Hn Hpg h' E. destruct (malloc_outcome n Hn h B Hi) as [(h1 & x & C & E1 & HiC & Ex & Hl & Eby)|(? & ? & _ & _ & _ & Hno & _)]; [|done].
  rewrite E1 in E. destruct (success_preserved h B h1 C x HiC Hl Eby) as (Hx & _).
  destruct (live_ptr h1 C x HiC Hx) as (? & ? & _). injection E as _ E0. lia.
Qed.

Lemma success_held h B r h' p n : success n h B r -> r = Ok (h', p) ->
  p <> 0 /\ exists B', heap_inv h' B' /\ held B' ≡ₚ (p, n) :: held B.
Proof.
  intros (h1 & x & B' & -> & Hi & Ex & Hl & _) [= -> <-].
  destruct (live_ptr h' B' x Hi) as (? & ? & _); [rewrite Hl; by left|]. split; [lia|].
  exists B'. split; [done|]. unfold held. rewrite Hl. cbn. by rewrite Ex.
Qed.

Lemma calloc_held h B nobj n h' p : heap_inv h B -> small (nobj * n) -> p <> 0 ->
  calloc h nobj n = Ok (h', p) -> client_inv (h', (p, nobj * n) :: held B).
Proof.
  intros Hi Hs Hp0 E. unfold calloc in E. pose proof Hs as Hs'. unfold small in Hs'.
  rewrite wraps_small, wrapu_small in E by lia.
  destruct (malloc_outcome _ Hs h B Hi) as [(h1 & x & C & Em & HiC & Ex & Hl & Eby)|(h1 & C & Em & HiC & _)];
    rewrite Em in E; cbn [bind] in E; inv_bind; [|done].
  destruct (success_preserved h B h1 C x HiC Hl Eby) as (Hx & _).
  destruct (memset_loop_ok C x 0 (Z.to_nat (nobj * n)) h1 0 (nobj * n) (Z.to_nat (nobj * n)) HiC Hx)
    as (by_ & E2 & Hi2 & _); try lia.
  unfold liballoc_memset in *. match goal with H1 : memset_loop _ _ _ _ _ _ = Ok _ |- _ => rewrite E2 in H1; injection H1 as <- end.
  exists C. split; [done|]. cbn. unfold held. rewrite Hl. cbn. by rewrite Ex.
Qed.

Lemma client_step_inv s s' : client_step s s' -> client_inv s -> client_inv s'.
Proof.
  intros Hstep (B & Hi & HL). destruct Hstep as [h L n h' p Hn E|h L nobj n h' p Hn E Hp|h L1 p n L2 h' E|h L p n i v h' Hin Hr E];
    cbn [fst snd] in *.
  - destruct (malloc_outcome n Hn h B Hi) as [Hs|(h1 & B' & E1 & Hi1 & Hl & _)].
    + destruct (success_held h B _ h' p n Hs E) as (Hp & B' & Hi' & Hh). rewrite decide_False by done.
      exists B'. split; [done|]. cbn. by rewrite Hh, HL.
    + rewrite E in E1. injection E1 as -> ->. rewrite decide_True by done. exists B'. split; [done|]. cbn.
      unfold held. by rewrite Hl.
  - destruct (calloc_held h B nobj n h' p Hi Hn Hp E) as (B' & Hi' & Hh). exists B'. split; [done|]. cbn in *.
    by rewrite HL.
  - rewrite <- Permutation_middle in HL. symmetry in HL. apply held_split in HL as (a & l & Hl & -> & -> & EL).
    destruct (free_ok h B a Hi) as (h1 & B' & E1 & Hi' & Hl' & _); [rewrite Hl; by left|].
    rewrite E in E1. injection E1 as ->. exists B'. split; [done|]. cbn. rewrite EL. unfold held. f_equiv.
    apply (Permutation_cons_inv (a := a)). by rewrite <- Hl, Hl'.
  - rewrite HL in Hin. apply held_elem in Hin as (a & Ha & -> & ->).
    destruct (store_ok h B a (al_ptr a + i) v Hi Ha ltac:(unfold usable; lia)) as [E1 Hi'].
    rewrite E in E1. injection E1 as ->. by exists B.
Qed.

Lemma client_reachable pages s : valid pages -> rtc client_step (empty_heap pages, []) s -> client_inv s.
Proof.
  intros Hv Hr. assert (client_inv (empty_heap pages, [])) as H0' by (exists []; split; [by apply empty_inv|done]).
  induction Hr as [|s1 s2 s3 Hs Hr IH]; [done|]. apply IH. by eapply client_step_inv.
Qed.

(** ** Properties *)

(** C1 Every program that allocates, releases what it holds and writes only
    its own bytes, from an empty heap: the pointers it holds are not null,
    are aligned to 16 bytes and name ranges that do not overlap, and
    [malloc], [free] and writes never fault or loop. *)
Theorem liballoc_safe pages h L : valid pages -> rtc client_step (empty_heap pages, []) (h, L) ->
  (forall p n, (p, n) ∈ L -> p <> 0 /\ p mod 16 = 0 /\
     (exists h', free h p = Ok h') /\ forall i v, 0 <= i < n -> exists h', store_byte h (p + i) v = Ok h') /\
  (forall L1 p n L2 q m L3, L = L1 ++ (p, n) :: L2 ++ (q, m) :: L3 -> p + n <= q \/ q + m <= p) /\
  (forall n, small n -> exists h' p, malloc h n = Ok (h', p)).
Proof.
  intros Hv (B & Hi & HL)%client_reachable; [|done]. cbn [fst snd] in *. split_and!.
  - intros p n Hin. rewrite HL in Hin. apply held_elem in Hin as (a & Ha & -> & ->).
    destruct (live_ptr h B a Hi Ha) as (? & ? & ? & _). split_and!; [lia|done| |].
    + destruct (free_ok h B a Hi Ha) as (h' & _ & E & _). by exists h'.
    + intros i v Hr. eexists. apply (store_ok h B a _ v Hi Ha). unfold usable. lia.
  - intros L1 p n L2 q m L3 ->. rewrite <- (Permutation_middle L1), app_assoc, <- (Permutation_middle (L1 ++ L2)) in HL.
    symmetry in HL.
    apply held_split in HL as (a & l & Hl & -> & -> & EL). destruct l as [|c l]; [done|].
    cbn in EL. injection EL as -> -> _. pose proof (live_nodup _ _ Hi) as Hnd. rewrite Hl in Hnd.
    apply NoDup_cons in Hnd as [Hac _]. rewrite not_elem_of_cons in Hac.
    assert (a ∈ live B) as Ha by (rewrite Hl; by left). assert (c ∈ live B) as Hc by (rewrite Hl; right; by left).
    destruct (live_ptr h B a Hi Ha) as (? & ? & _ & ?). destruct (live_ptr h B c Hi Hc) as (? & ? & _ & ?).
    destruct (live_clear _ _ _ _ Hi Ha Hc) as [->|Hcl]; [tauto|]. unfold clear_of in Hcl. lia.
  - intros n Hn. destruct (malloc_outcome n Hn h B Hi) as [(h' & x & _ & E & _)|(h' & _ & E & _)]; by eexists _, _.
Qed.

(** C13 [malloc] in any heap that satisfies the invariant returns: either a new
    allocation of the size asked for, aligned, whose bytes are nobody
    else's, all other allocations and their bytes being as before, or NULL,
    with nothing changed, and then the page allocator had no pages. *)
Theorem malloc_correct h B req : heap_inv h B -> small req ->
  exists h' p B', malloc h req = Ok (h', p) /\ heap_inv h' B' /\ preserved h h' (live B) /\
    ((p = 0 /\ live B' = live B /\ no_pages (h_pages h) req) \/
     exists x, p = al_ptr x /\ 0 < p /\ p mod 16 = 0 /\ al_req x = req /\ live B' ≡ₚ x :: live B /\
       forall z k, z ∈ live B -> usable z k -> ~ usable x k).
Proof.
  intros Hi Hr. destruct (malloc_outcome req Hr h B Hi) as
    [(h' & x & B' & E & Hi' & Ex & Hl & Eby)|(h' & B' & E & Hi' & Hl & Hno & Eby)].
  - destruct (success_preserved h B h' B' x Hi' Hl Eby) as (Hx & Hxn & Hin & Hp).
    destruct (live_ptr h' B' x Hi' Hx) as (? & ? & ? & _).
    exists h', (al_ptr x), B'. split_and!; [done|done|done|]. right. exists x. split_and!; try done; [lia|].
    intros z k Hz Hzk Hxk. apply Hxn. by rewrite (usable_unique h' B' x z k Hi' Hx (Hin z Hz) Hxk Hzk).
  - exists h', 0, B'. split_and!; [done|done|intros z k _ _; by rewrite Eby|]. by left.
Qed.

(** C14 [free] of a live pointer takes exactly that allocation away, returns the
    pages of a block that became empty, keeps the invariant and the bytes of
    the allocations that stay. *)
Theorem free_correct h B a : heap_inv h B -> a ∈ live B ->
  exists h' B', free h (al_ptr a) = Ok h' /\ heap_inv h' B' /\ live B ≡ₚ a :: live B' /\ preserved h h' (live B').
Proof.
  intros Hi Ha. destruct (free_ok h B a Hi Ha) as (h' & B' & E & Hi' & Hl & Hby). exists h', B'.
  split_and!; try done. intros z k Hz Hk. apply (Hby z k Hz). by apply (usable_span h' B').
Qed.

(** C15 [realloc] of a live pointer whose bytes were written, to a size from 1 to
    2^31 - 1.  A smaller size keeps pointer and bytes; a larger one, when
    [malloc] has room for it, moves to a new allocation with the old bytes at its
    start and releases the old one; other allocations keep their bytes.
    [malloc] has room whenever there are pages; when it has none and there are bytes
    to copy, they are copied to the NULL it returns: a null dereference. *)
Theorem realloc_correct h B a n : heap_inv h B -> a ∈ live B -> initialised h a -> small n -> 0 < n ->
  ((al_req a < n -> forall h', malloc h n <> Ok (h', 0)) ->
   exists h' x B' L, realloc h (al_ptr a) n = Ok (h', al_ptr x) /\ heap_inv h' B' /\ al_req x = n /\
     live B ≡ₚ a :: L /\ live B' ≡ₚ x :: L /\ preserved h h' L /\ (n <= al_req a -> al_ptr x = al_ptr a) /\
     forall i, 0 <= i < Z.min n (al_req a) -> h_bytes h' !! (al_ptr x + i) = h_bytes h !! (al_ptr a + i)) /\
  (~ no_pages (h_pages h) n -> forall h', malloc h n <> Ok (h', 0)) /\
  (0 < al_req a < n -> (exists h', malloc h n = Ok (h', 0)) -> realloc h (al_ptr a) n = Err NullDeref).
Proof.
  intros Hi Ha Hinit Hn Hpos. split; [|split; [by apply (pages_enough h B)|by apply (realloc_null_ok h B)]].
  intros Hpg. destruct (decide (n <= al_req a)) as [Hle|Hgt].
  - apply live_split in Ha as (B1 & b & B2 & l1 & l2 & -> & Ea). unfold small in Hn.
    rewrite (realloc_reduce _ _ _ _ _ _ _ n Hi Ea) by lia. rewrite decide_True by done.
    destruct (shrink_ok h B1 b B2 l1 a l2 n Hi Ea ltac:(lia) ltac:(lia)) as (h' & -> & Hi' & Eby). cbn [bind].
    exists h', (resized a n), (B1 ++ mk_block (bl_at b) (bl_pages b) (l1 ++ resized a n :: l2) :: B2),
      (live (B1 ++ mk_block (bl_at b) (bl_pages b) (l1 ++ l2) :: B2)).
    split_and!; try done; [by apply (live_insert _ _ _ _ l1 a l2)|by apply (live_insert _ _ _ _ l1 (resized a n) l2)| |].
    + intros z k _ _. by rewrite Eby.
    + intros i _. by rewrite Eby.
  - destruct (realloc_grow_ok h B a n Hi Ha Hinit Hn ltac:(lia) (Hpg ltac:(lia))) as (h' & x & B' & L & E & Hi' & Ex & HL & HL' & Hp & Hc).
    exists h', x, B', L. split_and!; try done; try lia. intros i Hir. apply Hc. lia.
Qed.

(** [calloc] returns a new allocation all of whose bytes are 0. *)
Theorem calloc_correct h B nobj size : heap_inv h B -> small (nobj * size) -> ~ no_pages (h_pages h) (nobj * size) ->
  exists h' x B', calloc h nobj size = Ok (h', al_ptr x) /\ heap_inv h' B' /\ al_req x = nobj * size /\
    live B' ≡ₚ x :: live B /\ preserved h h' (live B) /\ forall k, usable x k -> h_bytes h' !! k = Some 0.
Proof. apply calloc_ok. Qed.

(** A pointer released twice while its block is still there is noticed: the
    second [free] counts an error and changes nothing else. *)
Theorem double_free_detected h B1 b B2 l1 a l2 : heap_inv h (B1 ++ b :: B2) -> bl_allocs b = l1 ++ a :: l2 ->
  l1 ++ l2 <> [] -> exists h', free h (al_ptr a) = Ok h' /\ free h' (al_ptr a) = Ok (errored h' false).
Proof. apply free_again. Qed.
End spec.

(** ** Witnesses *)

(** Pages handed out in ascending order up to the end of the address space. *)
#[local] Instance limited_pages : PageSource Z := {
  RequestPages p n := if decide (0 < p /\ p + n * l_pageSize <= 2 ^ 64) then (Some p, p + n * l_pageSize) else (None, p);
  FreePages p _ _ := p
}.

#[local] Instance limited_laws : PageSourceLaws Z.
Proof.
  refine {| valid _ := True; owned p a n := a + n * l_pageSize <= p |}; unfold RequestPages, FreePages, limited_pages.
  - intros p n a p' _ Hn E. case_decide; [|done]. injection E as <- <-.
    unfold l_pageSize in *. split_and!; (done || lia).
  - intros p n p' _ _ E. case_decide; [done|]. by injection E as <-.
  - done.
  - done.
Defined.

(** Two allocations of 2 and 50 bytes in a block at [base], the first written. *)
Definition sample_run (base : Z) : res heap :=
  let* '(h, p) := malloc (empty_heap base) 2 in
  let* h := store_byte h p 7 in
  let* h := store_byte h (p + 1) 8 in
  let* '(h, _) := malloc h 50 in
  Ok h.

Definition sample (base : Z) : heap :=
  match sample_run base with
  | Ok h => h
  | Err _ => empty_heap base
  end.

Definition sample_first (base : Z) : alloc := mk_alloc (base + 40) 34 2.
Definition sample_second (base : Z) : alloc := mk_alloc (base + 114) 82 50.
Definition sample_block (base : Z) : block := mk_block base 16 [sample_first base; sample_second base].

Ltac evaluate := vm_compute; (reflexivity || congruence).

Ltac check_sample base :=
  split;
  [ split; [evaluate|done]
  | let a := fresh in let v := fresh in let Hv := fresh in intros a [v Hv];
    assert (map_Forall (fun k _ => k = base) (h_majors (sample base))) as Hall
      by (apply (bool_decide_eq_true_1 _); evaluate);
    rewrite (Hall _ _ Hv); by left
  | constructor; [|done]; split;
    [ split; [evaluate|split; [evaluate|done]]
    | let a := fresh in let Ha := fresh in intros a Ha; cbn in Ha; rewrite !elem_of_cons in Ha;
      destruct Ha as [->|[->|Ha]]; [evaluate|evaluate|by apply not_elem_of_nil in Ha]
    | cbn; unfold al_end, sizeof_major, sizeof_minor, bl_end, bl_size, l_pageSize; cbn; lia
    | evaluate | evaluate | evaluate | evaluate ]
  | by repeat constructor
  | constructor; [|done]; evaluate
  | evaluate
  | right; replace (l_bestBet (sample base)) with base by evaluate; by left
  | evaluate
  | evaluate
  | done ].

Lemma sample_inv (base : Z) : base = 0x100000 \/ base = 2 ^ 64 - 65536 -> heap_inv (sample base) [sample_block base].
Proof. intros [->| ->]; [check_sample 0x100000|check_sample (2 ^ 64 - 65536)]. Qed.

Lemma sample_live base : sample_first base ∈ live [sample_block base].
Proof. by left. Qed.

Lemma sample_initialised (base : Z) : base = 0x100000 \/ base = 2 ^ 64 - 65536 ->
  initialised (sample base) (sample_first base).
Proof.
  intros Hb k [Hk1 Hk2]. assert (al_ptr (sample_first base) = base + 96) as Ep by (destruct Hb as [->| ->]; evaluate).
  rewrite Ep in *. cbn in Hk2. assert (k = base + 96 \/ k = base + 97) as [->| ->] by lia.
  - exists 7. split; [|lia]. destruct Hb as [->| ->]; evaluate.
  - exists 8. split; [|lia]. destruct Hb as [->| ->]; evaluate.
Qed.

(** The heap after one [malloc] of 100 bytes. *)
Definition one_alloc : heap :=
  match malloc (empty_heap 0x100000) 100 with
  | Ok (h, _) => h
  | Err _ => empty_heap 0x100000
  end.

Lemma one_alloc_step : client_step (empty_heap 0x100000, []) (one_alloc, [(0x100060, 100)]).
Proof.
  refine (step_malloc (empty_heap 0x100000) [] 100 one_alloc 0x100060 _ _); [unfold small; lia|evaluate].
Qed.

Lemma liballoc_safe_witness : rtc client_step (empty_heap 0x100000, []) (one_alloc, [(0x100060, 100)]) /\
  exists h', free one_alloc 0x100060 = Ok h'.
Proof.
  assert (rtc client_step (empty_heap 0x100000, []) (one_alloc, [(0x100060, 100)])) as Hr
    by (apply rtc_once, one_alloc_step).
  split; [exact Hr|]. assert (valid 0x100000) as Hv by (cbn; exact I).
  destruct (liballoc_safe _ _ _ Hv Hr) as [Hp _].
  destruct (Hp 0x100060 100) as (_ & _ & Hf & _); [by left|exact Hf].
Defined.

Lemma malloc_correct_witness : exists h' p B', malloc (sample 0x100000) 1000 = Ok (h', p) /\ heap_inv h' B'.
Proof.
  destruct (malloc_correct (sample 0x100000) [sample_block 0x100000] 1000) as (h' & p & B' & E & Hi & _);
    [apply sample_inv; by left|unfold small; lia|]. exists h', p, B'. exact (conj E Hi).
Defined.

Lemma free_correct_witness : exists h' B', free (sample 0x100000) (al_ptr (sample_first 0x100000)) = Ok h' /\ heap_inv h' B'.
Proof.
  destruct (free_correct (sample 0x100000) [sample_block 0x100000] (sample_first 0x100000)) as (h' & B' & E & Hi & _);
    [apply sample_inv; by left|apply sample_live|]. exists h', B'. exact (conj E Hi).
Defined.

Lemma realloc_correct_witness :
  (exists h' x, realloc (sample 0x100000) (al_ptr (sample_first 0x100000)) 500 = Ok (h', al_ptr x) /\
     h_bytes h' !! (al_ptr x + 1) = h_bytes (sample 0x100000) !! (al_ptr (sample_first 0x100000) + 1)) /\
  realloc (sample (2 ^ 64 - 65536)) (al_ptr (sample_first (2 ^ 64 - 65536))) 70000 = Err NullDeref.
Proof.
  split.
  - destruct (realloc_correct (sample 0x100000) [sample_block 0x100000] (sample_first 0x100000) 500)
      as (H & Hpg & _); [apply sample_inv; by left|apply sample_live|apply sample_initialised; by left|unfold small; lia|lia|].
    destruct H as (h' & x & B' & L & E & _ & _ & _ & _ & _ & _ & Hc).
    + intros _. apply Hpg. vm_compute. discriminate.
    + exists h', x. split; [exact E|]. apply Hc. cbn. lia.
  - apply (realloc_correct (sample (2 ^ 64 - 65536)) [sample_block (2 ^ 64 - 65536)] (sample_first (2 ^ 64 - 65536)) 70000);
      [apply sample_inv; by right|apply sample_live|apply sample_initialised; by right|unfold small; lia|lia|cbn; lia|].
    eexists. vm_compute. reflexivity.
Defined.

Lemma calloc_correct_witness : exists h' x, calloc (sample 0x100000) 10 20 = Ok (h', al_ptr x) /\ al_req x = 200.
Proof.
  destruct (calloc_correct (sample 0x100000) [sample_block 0x100000] 10 20) as (h' & x & B' & E & _ & Ex & _);
    [apply sample_inv; by left|unfold small; lia|vm_compute; discriminate|]. exists h', x. exact (conj E Ex).
Defined.

Lemma double_free_detected_witness : exists h', free (sample 0x100000) (al_ptr (sample_first 0x100000)) = Ok h' /\
  free h' (al_ptr (sample_first 0x100000)) = Ok (errored h' false).
Proof.
  apply (double_free_detected (sample 0x100000) [] (sample_block 0x100000) [] [] (sample_first 0x100000)
    [sample_second 0x100000]); [apply sample_inv; by left|reflexivity|discriminate].
Defined.
