(* ===== verification/KernelHeap.v ===== *)
(** * The kernel heap on physical pages

    src/kernel/mem/HeapManager.cpp: the heap of liballoc_1_1.c gets its pages
    from the page frame allocator, and the kernel calls it through
    [HeapMalloc] and its companions.  The page frame allocator satisfies what
    the heap relies on, so the theorems on the heap hold for the two
    together. *)

From stdpp Require Import gmap.
From S2P Require Import Prelude PageFrame PageFrameSpec.
From S2P Require Import Liballoc LiballocInv LiballocMalloc LiballocSearch LiballocFree LiballocSpec.

Local Open Scope Z_scope.

(** ** The pages *)

(** [RequestPages] and [FreePages] of HeapManager.cpp; address 0 is NULL. *)
#[global] Instance kernel_pages : PageSource PageFrameAllocator := {
  RequestPages s n :=
    match PageFrame.RequestPages s n with
    | Ok (s', a) => (if decide (a = 0) then None else Some a, s')
    | Err _ => (None, s)
    end;
  FreePages s a n :=
    match PageFrame.FreePages s a n with
    | Ok s' => s'
    | Err _ => s
    end
}.

(** Pages handed out: marked, neither the first nor the last one. *)
Definition handed_out (s : PageFrameAllocator) (a n : Z) : Prop :=
  exists k, a = k * 4096 /\ 0 < k /\ 0 < n /\ k + n < pages s /\ forall j, k <= j < k + n -> in_use s j = true.

Lemma marked_sealed s s' lo n : sealed s -> marked s s' lo n true -> sealed s'.
Proof.
  intros (Hp & H0 & Hl) Hm. unfold sealed. rewrite (mk_pages _ _ _ _ _ Hm).
  split_and!; [done| |]; rewrite (mk_bits _ _ _ _ _ Hm) by lia; by case_decide.
Qed.

Lemma handed_out_kept s s' lo n v a' n' : marked s s' lo n v -> handed_out s a' n' ->
  (v = true \/ lo + n <= a' / 4096 \/ a' / 4096 + n' <= lo) -> handed_out s' a' n'.
Proof.
  intros Hm (k & -> & Hk & Hn & Hkn & Hu) Hv. rewrite page_index in Hv.
  exists k. split_and!; try done; [by rewrite (mk_pages _ _ _ _ _ Hm)|].
  intros j Hj. rewrite (mk_bits _ _ _ _ _ Hm) by lia. case_decide; [|by apply Hu].
  destruct Hv as [->|Hv]; [done|lia].
Qed.

(** The outcome of a request, for the interface. *)
Lemma kernel_request p n : pfa_ok p /\ sealed p -> 0 < n < 2 ^ 20 ->
  (exists k p', Liballoc.RequestPages p n = (Some (k * 4096), p') /\ 0 < k /\ free_run p k n /\ marked p p' k n true) \/
  (exists p', Liballoc.RequestPages p n = (None, p') /\ marked p p' 0 0 true).
Proof.
  intros [Hs Hsl] Hn. unfold Liballoc.RequestPages, kernel_pages, PageFrame.RequestPages.
  destruct (request_pages_ok n (page_fuel p) ltac:(lia) p Hs Hsl) as [(k & p' & _ & Hk0 & Hr & E & Hm)|(_ & p' & E & Hm & _)].
  { pose proof (po_index _ Hs). unfold page_fuel. rewrite (page_limit_ok p Hs). lia. }
  - left. exists k, p'. rewrite E, decide_False by lia. done.
  - right. exists p'. rewrite E, decide_True by done. done.
Qed.

(** A run of pages given back. *)
Lemma kernel_free p a n : pfa_ok p -> handed_out p a n ->
  marked p (Liballoc.FreePages p a n) (a / 4096) n false.
Proof.
  intros Hs (k & -> & Hk & Hn & Hkn & Hu). unfold Liballoc.FreePages, kernel_pages. rewrite page_index.
  destruct (FreePages_ok p k n Hs ltac:(lia) ltac:(lia) ltac:(lia)) as (p' & -> & Hm & _). done.
Qed.

#[global] Instance kernel_pages_laws : PageSourceLaws PageFrameAllocator.
Proof.
  refine {| valid s := pfa_ok s /\ sealed s; owned := handed_out |}.
  - intros p n a p' Hv Hn E. destruct (kernel_request p n Hv Hn) as [(k & p1 & E1 & Hk & Hr & Hm)|(p1 & E1 & _)];
      rewrite E in E1; [|done]. injection E1 as -> ->. destruct Hv as [Hs Hsl]. destruct Hr as (_ & Hkn & Hfree).
    pose proof (pages_bound p Hs). pose proof Hsl as (_ & _ & Hlast).
    assert (k + n < pages p) as Hend.
    { enough (k + n <> pages p) by lia. intros Ee. rewrite Hfree in Hlast by lia. done. }
    assert (forall j, k <= j < k + n -> in_use p1 j = true) as Hmark
      by (intros j Hj; rewrite (mk_bits _ _ _ _ _ Hm) by lia; by rewrite decide_True).
    unfold l_pageSize. split_and!; try lia; [apply (mk_ok _ _ _ _ _ Hm)|by eapply marked_sealed| |].
    + exists k. split_and!; try done; try lia. by rewrite (mk_pages _ _ _ _ _ Hm).
    + intros a' n' Hn' Ho. split; [eapply handed_out_kept; [done|done|by left]|].
      destruct Ho as (k' & -> & Hk' & _ & Hkn' & Hu').
      enough (k + n <= k' \/ k' + n' <= k) by lia.
      destruct (decide (k + n <= k')) as [|Hc]; [by left|right].
      destruct (decide (k' + n' <= k)) as [|Hc']; [done|]. exfalso.
      pose proof (Hfree (Z.max k k') ltac:(lia)) as F1. rewrite Hu' in F1 by lia. done.
  - intros p n p' Hv Hn E. destruct (kernel_request p n Hv Hn) as [(k & p1 & E1 & _)|(p1 & E1 & Hm)];
      rewrite E in E1; [done|]. injection E1 as ->. destruct Hv as [Hs Hsl]. split.
    + split; [apply (mk_ok _ _ _ _ _ Hm)|by eapply marked_sealed].
    + intros a' n' Ho. eapply handed_out_kept; [done|done|by left].
  - intros p a n [Hs Hsl] Ho. pose proof (kernel_free p a n Hs Ho) as Hm. destruct Ho as (k & -> & Hk & Hn & Hkn & _).
    rewrite page_index in Hm. split; [apply (mk_ok _ _ _ _ _ Hm)|]. destruct Hsl as (Hp & H0 & Hl). unfold sealed.
    rewrite (mk_pages _ _ _ _ _ Hm). split_and!; [done| |]; rewrite (mk_bits _ _ _ _ _ Hm) by lia; by rewrite decide_False by lia.
  - intros p a n a' n' [Hs Hsl] Ho Ho' Hd. pose proof (kernel_free p a n Hs Ho) as Hm.
    eapply handed_out_kept; [exact Hm|done|]. right.
    destruct Ho as (k & -> & Hk & Hn & Hkn & _). destruct Ho' as (k' & -> & Hk' & Hn' & Hkn' & _).
    rewrite !page_index. unfold l_pageSize in Hd. lia.
Defined.

(** ** The functions the kernel calls *)

Inductive AllocationAlgorithm :=
| NoAllocationAlgorithm | Default | LibAlloc | LibAlloc11 | BuddyAlloc | XallocV1.

Section manager.
Context {P : Type} `{PageSource P}.

Record allocator := mk_allocator {
  op_malloc : heap (P := P) -> Z -> res (heap (P := P) * Z);
  op_free : heap (P := P) -> Z -> res (heap (P := P));
  op_calloc : heap (P := P) -> Z -> Z -> res (heap (P := P) * Z);
  op_realloc : heap (P := P) -> Z -> Z -> res (heap (P := P) * Z)
}.

Definition liballoc11 : allocator := mk_allocator malloc free calloc realloc.

(** The other allocators. *)
Context (others : AllocationAlgorithm -> allocator).

Definition algorithm (AlgorithmToUse : AllocationAlgorithm) : res allocator :=
  match AlgorithmToUse with
  | LibAlloc11 => Ok liballoc11
  | NoAllocationAlgorithm => Err Panic
  | a => Ok (others a)
  end.

(** [memset] of the kernel's string functions, on the memory of the heap. *)
Fixpoint memset_heap (h : heap (P := P)) (dest data i : Z) (n : nat) : res heap :=
  match n with
  | O => Ok h
  | S n' => let* h := store_byte h (dest + i) (u8 data) in memset_heap h dest data (i + 1) n'
  end.

Definition HeapFree (a : AllocationAlgorithm) (h : heap) (Address : Z) : res heap :=
  let* o := algorithm a in op_free o h Address.

Definition HeapMalloc (a : AllocationAlgorithm) (h : heap) (Size : Z) : res (heap * Z) :=
  let* o := algorithm a in
  let* '(h, ret) := op_malloc o h Size in
  let* h := memset_heap h ret 0 0 (Z.to_nat Size) in
  Ok (h, ret).

Definition HeapCalloc (a : AllocationAlgorithm) (h : heap) (n Size : Z) : res (heap * Z) :=
  let* o := algorithm a in
  let* '(h, ret) := op_calloc o h n Size in
  let* h := memset_heap h ret 0 0 (Z.to_nat (u64 (n * Size))) in
  Ok (h, ret).

Definition HeapRealloc (a : AllocationAlgorithm) (h : heap) (Address Size : Z) : res (heap * Z) :=
  let* o := algorithm a in
  let* '(h, ret) := op_realloc o h Address Size in
  let* h := memset_heap h ret 0 0 (Z.to_nat Size) in
  Ok (h, ret).
End manager.

Section manager_proofs.
Context {P : Type} `{PageSourceLaws P} (others : AllocationAlgorithm -> allocator (P := P)).
Implicit Types (h : heap (P := P)) (B : list block).

Lemma memset_heap_ok B x c n : forall h i, heap_inv h B -> x ∈ live B -> 0 <= i -> i + Z.of_nat n <= al_req x ->
  exists by_, memset_heap h (al_ptr x) c i n = Ok (set_bytes h by_) /\ heap_inv (set_bytes h by_) B /\
    forall k, by_ !! k = if decide (al_ptr x + i <= k < al_ptr x + i + Z.of_nat n) then Some (u8 c) else h_bytes h !! k.
Proof.
  induction n as [|n IH]; intros h i Hi Hx Hi0 Hn; cbn [memset_heap].
  - exists (h_bytes h). assert (set_bytes h (h_bytes h) = h) as -> by (by destruct h). split_and!; [done|done|].
    intros k. by rewrite decide_False by lia.
  - destruct (store_ok h B x (al_ptr x + i) (u8 c) Hi Hx ltac:(unfold usable; lia)) as [-> Hi']. cbn [bind].
    destruct (IH _ (i + 1) Hi' Hx ltac:(lia) ltac:(lia)) as (by_ & E & Hi2 & Hk).
    exists by_. split_and!; [exact E|exact Hi2|]. intros k. rewrite Hk. cbn [h_bytes set_bytes].
    rewrite (wrapu_small 8 (u8 c)) by (apply wrapu_range; lia).
    destruct (decide (k = al_ptr x + i)) as [->|Hne].
    + rewrite decide_False by lia. rewrite decide_True by lia. by rewrite lookup_insert_eq.
    + rewrite lookup_insert_ne by done.
      destruct (decide (al_ptr x + (i + 1) <= k < al_ptr x + (i + 1) + Z.of_nat n)).
      * by rewrite decide_True by lia.
      * by rewrite decide_False by lia.
Qed.

(** The whole allocation filled with zeros, the others untouched. *)
Lemma cleared h B x : heap_inv h B -> x ∈ live B ->
  exists h', memset_heap h (al_ptr x) 0 0 (Z.to_nat (al_req x)) = Ok h' /\ heap_inv h' B /\
    (forall k, usable x k -> h_bytes h' !! k = Some 0) /\
    forall L, (forall z, z ∈ L -> z ∈ live B /\ z <> x) -> preserved h h' L.
Proof.
  intros Hi Hx. destruct (live_ptr h B x Hi Hx) as (? & ? & _ & ?).
  assert (0 <= al_req x) as Hr.
  { apply live_split in Hx as (B1 & b & B2 & l1 & l2 & -> & Ea). by destruct (in_live _ _ _ _ _ _ _ Hi Ea) as (_ & _ & _ & _ & ? & _). }
  destruct (memset_heap_ok B x 0 (Z.to_nat (al_req x)) h 0 Hi Hx ltac:(lia) ltac:(lia)) as (by_ & E & Hi' & Hk).
  exists (set_bytes h by_). split_and!; [done|done| |].
  - intros k Hu. cbn. rewrite Hk, decide_True; [done|]. unfold usable in Hu. lia.
  - intros L HL z k Hz Hzk. destruct (HL z Hz) as [Hzl Hne]. cbn. rewrite Hk, decide_False; [done|]. intros Hxk. apply Hne.
    apply (usable_unique h B z x k Hi Hzl Hx Hzk). unfold usable. lia.
Qed.

(** [HeapMalloc] returns a new allocation filled with zeros and leaves the
    bytes of all others. *)
Theorem HeapMalloc_correct h B Size : heap_inv h B -> small Size -> ~ no_pages (h_pages h) Size ->
  exists h' x B', HeapMalloc others LibAlloc11 h Size = Ok (h', al_ptr x) /\ heap_inv h' B' /\ al_req x = Size /\
    live B' ≡ₚ x :: live B /\ preserved h h' (live B) /\ forall k, usable x k -> h_bytes h' !! k = Some 0.
Proof.
  intros Hi Hs Hpg. unfold HeapMalloc. cbn [algorithm bind op_malloc liballoc11].
  destruct (malloc_outcome Size Hs h B Hi) as [(h1 & x & C & -> & HiC & Ex & Hl & Eby)|(? & ? & _ & _ & _ & Hno & _)]; [|done].
  destruct (success_preserved h B h1 C x HiC Hl Eby) as (Hx & Hxn & Hin & Hp1). cbn [bind].
  destruct (cleared h1 C x HiC Hx) as (h2 & E & Hi2 & Hz & Hp2). rewrite Ex in E. rewrite E. cbn [bind].
  exists h2, x, C. split_and!; try done. intros z k Hz' Hk.
  rewrite (Hp2 (live B)) with (z := z); [by apply (Hp1 z k Hz')| |done|done].
  intros y Hy. split; [by apply Hin|]. intros ->. done.
Qed.

(** [HeapRealloc] clears the block it returns: whatever the old block held,
    every byte of the new one is 0. *)
Theorem HeapRealloc_clears h B a n : heap_inv h B -> a ∈ live B -> initialised h a -> small n -> al_req a < n ->
  ~ no_pages (h_pages h) n ->
  exists h' x B', HeapRealloc others LibAlloc11 h (al_ptr a) n = Ok (h', al_ptr x) /\ heap_inv h' B' /\
    al_req x = n /\ forall k, usable x k -> h_bytes h' !! k = Some 0.
Proof.
  intros Hi Ha Hinit Hn Hgrow Hpg. unfold HeapRealloc. cbn [algorithm bind op_realloc liballoc11].
  destruct (realloc_grow_ok h B a n Hi Ha Hinit Hn Hgrow (pages_enough h B n Hi Hn Hpg)) as (h1 & x & C & L & -> & HiC & Ex & _ & HL & _).
  cbn [bind]. destruct (cleared h1 C x HiC) as (h2 & E & Hi2 & Hz & _); [rewrite HL; by left|].
  rewrite Ex in E. rewrite E. cbn [bind]. by exists h2, x, C.
Qed.
End manager_proofs.

(** C2 The heap on the page frame allocator: whatever the kernel allocates,
    frees and writes, every byte of a pointer it holds lies in a page of the
    bitmap that is marked in use, so that no page under it can be handed
    out again. *)
Theorem kernel_heap_pages p h L : pfa_ok p -> sealed p -> rtc client_step (empty_heap p, []) (h, L) ->
  forall q n k, (q, n) ∈ L -> q <= k < q + n -> 0 < k / 4096 < pages (h_pages h) /\ in_use (h_pages h) (k / 4096) = true.
Proof.
  intros Hs Hsl (B & Hi & HL)%client_reachable q n k Hin Hk; [|done]. cbn [fst snd] in *.
  rewrite HL in Hin. apply held_elem in Hin as (a & Ha & -> & ->).
  destruct (live_ptr h B a Hi Ha) as (? & ? & _ & ?).
  apply live_split in Ha as (B1 & b & B2 & l1 & l2 & -> & Ea).
  destruct (in_live _ _ _ _ _ _ _ Hi Ea) as (_ & ? & ? & ? & ? & ? & ?).
  pose proof (hi_owned _ _ Hi) as Ho. apply Forall_app in Ho as [_ [Ho _]%Forall_cons].
  destruct Ho as (i & Ei & Hi0 & Hn & Hend & Hu). unfold bl_end, bl_size, l_pageSize in *.
  assert (i <= k / 4096 < i + bl_pages b) as Hr
    by (split; [apply Z.div_le_lower_bound; lia|apply Z.div_lt_upper_bound; lia]).
  split; [lia|]. by apply Hu.
Qed.

(** ** Witnesses *)

#[local] Existing Instance limited_pages.
#[local] Existing Instance limited_laws.

Lemma HeapMalloc_correct_witness : exists h' x,
  HeapMalloc (fun _ => liballoc11) LibAlloc11 (sample 0x100000) 200 = Ok (h', al_ptr x) /\ al_req x = 200.
Proof.
  destruct (HeapMalloc_correct (fun _ => liballoc11) (sample 0x100000) [sample_block 0x100000] 200)
    as (h' & x & B' & E & _ & Ex & _); [apply sample_inv; by left|unfold small; lia|vm_compute; discriminate|].
  exists h', x. exact (conj E Ex).
Defined.

(** The two bytes 7 and 8 are lost. *)
Lemma HeapRealloc_clears_witness : exists h' x,
  HeapRealloc (fun _ => liballoc11) LibAlloc11 (sample 0x100000) (al_ptr (sample_first 0x100000)) 500 = Ok (h', al_ptr x) /\
  h_bytes h' !! al_ptr x = Some 0 /\ h_bytes (sample 0x100000) !! al_ptr (sample_first 0x100000) = Some 7.
Proof.
  destruct (HeapRealloc_clears (fun _ => liballoc11) (sample 0x100000) [sample_block 0x100000] (sample_first 0x100000) 500)
    as (h' & x & B' & E & _ & Ex & Hz);
    [apply sample_inv; by left|apply sample_live|apply sample_initialised; by left|unfold small; lia|cbn; lia
    |vm_compute; discriminate|].
  exists h', x. split; [exact E|]. split; [apply Hz; unfold usable; lia|vm_compute; reflexivity].
Defined.

(** Sixty-four pages, of which the first and the last are in use. *)
Definition boot_pfa : PageFrameAllocator :=
  mk_pfa (mk_bitmap 8 0 [0x80; 0; 0; 0; 0; 0; 0; 0x01]) 0x40000 (62 * 4096) (2 * 4096) 0 0 true.

Lemma boot_pfa_ok : pfa_ok boot_pfa /\ sealed boot_pfa.
Proof.
  split; [split; [split|]|by vm_compute]; cbn; try done; try (unfold pages; cbn; lia).
  repeat constructor; lia.
Qed.

Definition boot_heap : heap :=
  match malloc (empty_heap boot_pfa) 100 with
  | Ok (h, _) => h
  | Err _ => empty_heap boot_pfa
  end.

Lemma boot_heap_step : client_step (empty_heap boot_pfa, []) (boot_heap, [(0x1060, 100)]).
Proof.
  refine (step_malloc (empty_heap boot_pfa) [] 100 boot_heap 0x1060 _ _); [unfold small; lia|evaluate].
Qed.

Lemma kernel_heap_pages_witness : in_use (h_pages boot_heap) 1 = true /\ in_use boot_pfa 1 = false.
Proof.
  destruct boot_pfa_ok as [Hs Hsl]. split; [|reflexivity].
  apply (kernel_heap_pages boot_pfa boot_heap [(0x1060, 100)] Hs Hsl (rtc_once _ _ boot_heap_step) 0x1060 100 0x1060);
    [by left|lia].
Defined.
