(* ===== verification/PageTable.v ===== *)
(** * Page tables

    src/kernel/mem/VirtualMemoryManager.cpp with the helpers
    mem/helpers/PageDirectoryEntry.cpp, PageMapIndexer.cpp and
    PageTableManager.cpp.  Physical memory is a map from frame numbers to the
    512 words of the frame: the kernel reaches tables through their physical
    addresses, so a pointer to a [PageTable] is such an address. *)

From stdpp Require Export gmap.
From S2P Require Import Prelude PageFrame.

Local Open Scope Z_scope.

(** ** Entries *)

(** [enum PTFlag]: the flags the kernel passes. *)
Definition PT_P : Z := 1.
Definition PT_RW : Z := 2.
Definition PT_US : Z := 4.
Definition PT_PCD : Z := 16.
Definition PT_PAT : Z := 0x1000.

(** The methods of [PageDirectoryEntry] on the 64 bits of [Value.raw]. *)
Definition AddFlag (raw Flag : Z) : Z := Z.lor raw Flag.
Definition RemoveFlags (raw Flag : Z) : Z := Z.land raw (u64 (Z.lnot Flag)).
Definition ClearFlags (raw : Z) : Z := 0.

Definition SetFlag (raw Flag : Z) (Enabled : bool) : Z :=
  let raw := Z.land raw (u64 (Z.lnot Flag)) in
  if Enabled then Z.lor raw Flag else raw.

Definition GetFlag (raw Flag : Z) : bool := bool_decide (0 < Z.land raw Flag).

Definition GetAddress (raw : Z) : Z := Z.shiftr (Z.land raw 0x000FFFFFFFFFF000) 12.

Definition SetAddress (raw Address : Z) : Z :=
  let Address := Z.land Address 0x000000FFFFFFFFFF in
  let raw := Z.land raw 0xFFF0000000000FFF in
  Z.lor raw (u64 (Z.shiftl Address 12)).

(** ** The indices of a virtual address *)

Record PageMapIndexer := mk_indexer {
  PDP_i : Z;
  PD_i : Z;
  PT_i : Z;
  P_i : Z
}.

Definition index_field (VirtualAddress shift : Z) : Z :=
  Z.shiftr (Z.land VirtualAddress (u64 (Z.shiftl 0x1FF shift))) shift.

Definition indexer (VirtualAddress : Z) : PageMapIndexer :=
  mk_indexer (index_field VirtualAddress 39) (index_field VirtualAddress 30)
             (index_field VirtualAddress 21) (index_field VirtualAddress 12).

(** ** Memory *)

Abbreviation ram := (gmap Z (list Z)).

Record vmm := mk_vmm {
  v_ram : ram;
  v_pfa : PageFrameAllocator
}.

Definition PAGE_SIZE : Z := 4096.

(** [Table->Entries[i]], for a pointer that is null, not aligned, or not to
    memory too. *)
Definition table_at (m : ram) (Table : Z) : res (list Z) :=
  if decide (Table = 0) then Err NullDeref
  else if decide (Table mod PAGE_SIZE = 0) then
    match m !! (Table / PAGE_SIZE) with
    | Some es => Ok es
    | None => Err OutOfBounds
    end
  else Err Undefined.

Definition read_entry (v : vmm) (Table i : Z) : res Z :=
  let* es := table_at (v_ram v) Table in aget es (Z.to_nat i).

Definition write_entry (v : vmm) (Table i e : Z) : res vmm :=
  let* es := table_at (v_ram v) Table in
  let* es := aset es (Z.to_nat i) e in
  Ok (mk_vmm (<[Table / PAGE_SIZE := es]> (v_ram v)) (v_pfa v)).

(** [memset(Table, 0, PAGE_SIZE)] *)
Definition clear_table (v : vmm) (Table : Z) : res vmm :=
  let* es := table_at (v_ram v) Table in
  Ok (mk_vmm (<[Table / PAGE_SIZE := replicate 512 0]> (v_ram v)) (v_pfa v)).

(** [KernelAllocator.RequestPage()] *)
Definition request_page (v : vmm) : res (vmm * Z) :=
  let* '(s, a) := RequestPage (v_pfa v) in Ok (mk_vmm (v_ram v) s, a).

(** ** Mapping *)

(** One level of the walk: the table that entry [i] of [Table] points to.  An
    absent one is requested, cleared and linked; [stored] is false where the
    code reads the entry again instead of storing the new one. *)
Definition next_table (v : vmm) (Table i Flags : Z) (stored : bool) : res (vmm * Z) :=
  let* PDE := read_entry v Table i in
  if GetFlag PDE PT_P then Ok (v, u64 (Z.shiftl (GetAddress PDE) 12))
  else
    let* '(v, Next) := request_page v in
    let* v := clear_table v Next in
    let PDE := SetAddress PDE (Z.shiftr Next 12) in
    let PDE := SetFlag PDE PT_P true in
    let PDE := AddFlag PDE Flags in
    let* v := if stored then write_entry v Table i PDE
              else let* PDE := read_entry v Table i in Ok v in
    Ok (v, Next).

(** [PageTableManager::MapMemory]; [PML4] is the field of the manager and 0 is
    the null pointer.  Halts when there is no table. *)
Definition MapMemory (PML4 : Z) (v : vmm) (VirtualAddress PhysicalAddress Flags PageTable4 : Z) : res vmm :=
  let ix := indexer VirtualAddress in
  if decide (PML4 = 0 /\ PageTable4 = 0) then Err Panic
  else
    let* '(v, PDP) :=
      if decide (PageTable4 = 0) then next_table v PML4 (PDP_i ix) Flags true
      else next_table v PageTable4 (PDP_i ix) Flags false in
    let* '(v, PD) := next_table v PDP (PD_i ix) Flags true in
    let* '(v, PT) := next_table v PD (PT_i ix) Flags true in
    let* PDE := read_entry v PT (P_i ix) in
    let PDE := SetAddress PDE (Z.shiftr PhysicalAddress 12) in
    let PDE := SetFlag PDE PT_P true in
    let PDE := AddFlag PDE Flags in
    write_entry v PT (P_i ix) PDE.

(** [PageTableManager::UnmapMemory]: the entry cleared is a copy of the one in
    the table. *)
Definition UnmapMemory (PML4 : Z) (v : vmm) (VirtualAddress PageTable4 : Z) : res vmm :=
  let ix := indexer VirtualAddress in
  let* PDE :=
    if decide (PageTable4 = 0) then read_entry v PML4 (PDP_i ix)
    else read_entry v PageTable4 (PDP_i ix) in
  let PDE := ClearFlags PDE in
  Ok v.

(** The function [MapMemory] for C code. *)
Definition MapMemory_C (KernelPML4 : Z) (v : vmm) (PML4 VirtualMemory PhysicalMemory Flags : Z) : res vmm :=
  if decide (Flags = 0) then MapMemory KernelPML4 v VirtualMemory PhysicalMemory PT_RW PML4
  else MapMemory KernelPML4 v VirtualMemory PhysicalMemory Flags PML4.

(** ** Examples *)

(** Sixteen frames of memory of which 0, 2 and 15 are in use; the root table is
    at frame 2. *)
Definition sample_vmm : vmm :=
  mk_vmm (list_to_map ((fun i => (Z.of_nat i, replicate 512 (if decide (i = 2%nat) then 0 else 0xDEAC))) <$> seq 0 16))
         (mk_pfa (mk_bitmap 2 0 [0xA0; 0x01]) 0x10000 (13 * 4096) (3 * 4096) 0 0 true).

Example map_1 :
  (let* v := MapMemory 0x2000 sample_vmm 0xFFFF800000005000 0x7000 PT_RW 0 in
   let* a := read_entry v 0x2000 256 in
   let* b := read_entry v 0x1000 0 in
   let* c := read_entry v 0x3000 0 in
   let* d := read_entry v 0x4000 5 in
   Ok [a; b; c; d]) = Ok [0x1003; 0x3003; 0x4003; 0x7003].
Proof. vm_compute. reflexivity. Qed.
