(* ===== verification/PageTableSpec.v ===== *)
(** * What page tables mean

    The translation of a virtual address as the processor performs it on the
    tables in memory, the invariant that the tables form a tree of distinct
    frames, and what mapping a page does to every translation. *)

From S2P Require Import Prelude PageFrame PageFrameSpec PageTable.

Local Open Scope Z_scope.

(** ** Bits of an entry *)

(** The entry that [MapMemory] writes over [e]. *)
Definition link (e a Flags : Z) : Z := AddFlag (SetFlag (SetAddress e a) PT_P true) Flags.

(** Flags that are flags: no bit of the address field, no large page. *)
Definition flags_ok (Flags : Z) : Prop := 0 <= Flags < 2 ^ 64 /\ Z.land Flags 0x000FFFFFFFFFF080 = 0.

Lemma ones_bits k w n : 0 <= k -> 0 <= w -> 0 <= n ->
  Z.testbit (Z.shiftl (Z.ones w) k) n = bool_decide (k <= n < k + w).
Proof.
  intros Hk Hw Hn. destruct (decide (n < k)) as [Hlt|Hge].
  - rewrite Z.shiftl_spec_low by lia. symmetry. apply bool_decide_eq_false. lia.
  - rewrite Z.shiftl_spec_high by lia. destruct (decide (n < k + w)).
    + rewrite Z.ones_spec_low by lia. symmetry. apply bool_decide_eq_true. lia.
    + rewrite Z.ones_spec_high by lia. symmetry. apply bool_decide_eq_false. lia.
Qed.

Lemma wrapu_bits w z n : 0 <= w -> 0 <= n -> Z.testbit (wrapu w z) n = bool_decide (n < w) && Z.testbit z n.
Proof.
  intros Hw Hn. unfold wrapu. destruct (decide (n < w)).
  - rewrite Z.mod_pow2_bits_low, bool_decide_true by lia. done.
  - rewrite Z.mod_pow2_bits_high, bool_decide_false by lia. done.
Qed.

(** The processor's test of an entry. *)
Definition present (e : Z) : bool := Z.testbit e 0.
#[global] Arguments present : simpl never.

Lemma present_bit e : GetFlag e PT_P = present e.
Proof. exact (land_pow2 e 0 ltac:(lia)). Qed.

Lemma GetAddress_bits e n : 0 <= n -> Z.testbit (GetAddress e) n = bool_decide (n < 40) && Z.testbit e (n + 12).
Proof.
  intros Hn. unfold GetAddress. rewrite Z.shiftr_spec, Z.land_spec by lia.
  change 0x000FFFFFFFFFF000 with (Z.shiftl (Z.ones 40) 12). rewrite ones_bits by lia. rewrite andb_comm. f_equal.
  apply bool_decide_ext. lia.
Qed.

Lemma GetAddress_range e : 0 <= GetAddress e < 2 ^ 40.
Proof.
  replace (GetAddress e) with (wrapu 40 (GetAddress e)); [apply wrapu_range; lia|].
  apply Z.bits_inj'. intros n Hn. rewrite wrapu_bits, GetAddress_bits by lia.
  by destruct (bool_decide (n < 40)).
Qed.

Lemma link_bits e a Flags n : 0 <= n < 64 ->
  Z.testbit (link e a Flags) n
  = bool_decide (n = 0) || Z.testbit Flags n || (if decide (12 <= n < 52) then Z.testbit a (n - 12) else Z.testbit e n).
Proof.
  intros Hn. unfold link, AddFlag, SetFlag, SetAddress.
  change 0x000000FFFFFFFFFF with (Z.ones 40).
  change 0xFFF0000000000FFF with (Z.lor (Z.shiftl (Z.ones 12) 0) (Z.shiftl (Z.ones 12) 52)).
  repeat (rewrite Z.lor_spec || rewrite Z.land_spec || rewrite (wrapu_bits 64) by lia).
  rewrite (ones_bits 0 12), (ones_bits 52 12) by lia.
  rewrite Z.lnot_spec by lia.
  assert (Z.testbit PT_P n = bool_decide (n = 0)) as ->.
  { change PT_P with (2 ^ 0). rewrite Z.pow2_bits_eqb by lia. case_bool_decide; [subst; done|].
    apply Z.eqb_neq. lia. }
  rewrite (bool_decide_true (n < 64)) by lia. destruct (decide (n = 0)) as [->|Hn0].
  { by rewrite bool_decide_true, orb_true_r by done. }
  rewrite (bool_decide_false (n = 0)) by done. rewrite orb_false_r, andb_true_r. rewrite orb_comm.
  cbn [orb]. f_equal. destruct (decide (n < 12)).
  { rewrite Z.shiftl_spec_low by lia. rewrite decide_False, (bool_decide_true (0 <= n < 0 + 12)) by lia.
    by rewrite andb_true_r, andb_false_r, orb_false_r. }
  rewrite Z.shiftl_spec_high, Z.land_spec by lia. rewrite <- (Z.shiftl_0_r (Z.ones 40)), ones_bits by lia.
  rewrite (bool_decide_false (0 <= n < 0 + 12)) by lia. cbn [orb]. case_decide.
  - rewrite bool_decide_false, bool_decide_true by lia. by rewrite andb_false_r, andb_true_r.
  - rewrite bool_decide_true, bool_decide_false by lia. by rewrite !andb_false_r, andb_true_r, orb_false_r.
Qed.

Lemma flags_bit Flags n : flags_ok Flags -> (12 <= n < 52 \/ n = 7) -> Z.testbit Flags n = false.
Proof.
  intros [_ H] Hn. assert (Z.testbit (Z.land Flags 0x000FFFFFFFFFF080) n = false) as E by (rewrite H; apply Z.bits_0).
  rewrite Z.land_spec in E. apply andb_false_iff in E as [E|E]; [done|]. exfalso.
  change 0x000FFFFFFFFFF080 with (Z.lor (Z.shiftl (Z.ones 40) 12) (Z.shiftl (Z.ones 1) 7)) in E.
  rewrite Z.lor_spec, !ones_bits in E by lia. apply orb_false_iff in E as [E1 E2].
  apply bool_decide_eq_false in E1, E2. lia.
Qed.

Lemma link_address e a Flags : flags_ok Flags -> GetAddress (link e a Flags) = wrapu 40 a.
Proof.
  intros HF. apply Z.bits_inj'. intros n Hn. rewrite GetAddress_bits, wrapu_bits by lia.
  case_bool_decide; [|done]. cbn [andb]. rewrite link_bits by lia. rewrite decide_True by lia.
  rewrite bool_decide_false, flags_bit by (done || lia). cbn. f_equal. lia.
Qed.

Lemma link_present e a Flags : present (link e a Flags) = true.
Proof. unfold present. by rewrite link_bits by lia. Qed.

Lemma link_flag e a Flags n : 0 < n < 12 \/ 52 <= n < 64 ->
  Z.testbit (link e a Flags) n = Z.testbit Flags n || Z.testbit e n.
Proof. intros Hn. rewrite link_bits, bool_decide_false, decide_False by lia. done. Qed.

(** ** Indices *)

Lemma index_field_spec a s : 0 <= s -> s + 9 <= 64 -> index_field a s = (a / 2 ^ s) mod 512.
Proof.
  intros Hs H. unfold index_field. change 0x1FF with (Z.ones 9).
  assert (u64 (Z.shiftl (Z.ones 9) s) = Z.shiftl (Z.ones 9) s) as ->.
  { apply wrapu_small. rewrite Z.shiftl_mul_pow2, Z.ones_equiv by lia. split; [apply Z.mul_nonneg_nonneg; lia|].
    apply Z.lt_le_trans with (2 ^ 9 * 2 ^ s).
    - apply Z.mul_lt_mono_pos_r; lia.
    - rewrite <- Z.pow_add_r by lia. apply Z.pow_le_mono_r; lia. }
  rewrite Z.shiftr_land, Z.shiftr_shiftl_l, Z.sub_diag, Z.shiftl_0_r by lia.
  rewrite Z.land_ones, Z.shiftr_div_pow2 by lia. done.
Qed.

(** The path of an address from the root table to its page. *)
Definition path (a : Z) : list Z :=
  let ix := indexer a in [PDP_i ix; PD_i ix; PT_i ix; P_i ix].

Definition index_ok (i : Z) : Prop := 0 <= i < 512.

Lemma path_index_ok a : Forall index_ok (path a).
Proof. repeat constructor; cbn; rewrite index_field_spec by lia; apply Z.mod_pos_bound; lia. Qed.

(** The number of the page of an address among the 2^36 of the address space. *)
Definition page_of (a : Z) : Z := (a / 4096) mod 2 ^ 36.

Lemma path_page a b : path a = path b <-> page_of a = page_of b.
Proof.
  assert (forall c, page_of c = (((c / 2 ^ 39) mod 512 * 512 + (c / 2 ^ 30) mod 512) * 512 + (c / 2 ^ 21) mod 512) * 512
                                + (c / 2 ^ 12) mod 512) as E.
  { intros c. unfold page_of. change 4096 with (2 ^ 12). set (d := c / 2 ^ 12).
    assert (c / 2 ^ 21 = d / 512) as -> by (unfold d; by rewrite Z.div_div by lia).
    assert (c / 2 ^ 30 = d / 512 / 512) as -> by (unfold d; by rewrite !Z.div_div by lia).
    assert (c / 2 ^ 39 = d / 512 / 512 / 512) as -> by (unfold d; by rewrite !Z.div_div by lia).
    change (2 ^ 36) with (512 * (512 * (512 * 512))). rewrite !Z.rem_mul_r by lia.
    rewrite !Z.div_div by lia. lia. }
  unfold path, indexer. cbn. rewrite !index_field_spec by lia. rewrite !E. split.
  - intros [= -> -> -> ->]. done.
  - intros H.
    assert (forall x y z w x' y' z' w', index_ok x -> index_ok y -> index_ok z -> index_ok w -> index_ok x' -> index_ok y' ->
      index_ok z' -> index_ok w' -> ((x * 512 + y) * 512 + z) * 512 + w = ((x' * 512 + y') * 512 + z') * 512 + w' ->
      [x; y; z; w] = [x'; y'; z'; w']) as Hinj.
    { unfold index_ok. intros. assert (x = x' /\ y = y' /\ z = z' /\ w = w') as (-> & -> & -> & ->) by lia. done. }
    apply Hinj; try (apply Z.mod_pos_bound; lia). done.
Qed.

(** ** The walk *)

Definition get (m : ram) (f i : Z) : option Z :=
  match m !! f with Some ws => ws !! Z.to_nat i | None => None end.

(** The frame at the end of a path of indices from table [f] and the entries
    on the way, while they are present. *)
Fixpoint walk (m : ram) (f : Z) (p : list Z) : option (Z * list Z) :=
  match p with
  | [] => Some (f, [])
  | i :: p' =>
      match get m f i with
      | Some e =>
          if present e then
            match walk m (GetAddress e) p' with Some (g, es) => Some (g, e :: es) | None => None end
          else None
      | None => None
      end
  end.

(** The entries of the present part of a path. *)
Fixpoint dirs (m : ram) (f : Z) (p : list Z) : list Z :=
  match p with
  | [] => []
  | i :: p' =>
      match get m f i with
      | Some e => if present e then e :: dirs m (GetAddress e) p' else []
      | None => []
      end
  end.

Lemma walk_snoc m p i : forall f, walk m f (p ++ [i]) =
  match walk m f p with
  | Some (g, es) =>
      match get m g i with
      | Some e => if present e then Some (GetAddress e, es ++ [e]) else None
      | None => None
      end
  | None => None
  end.
Proof.
  induction p as [|j p IH]; intros f; cbn.
  - destruct (get m f i) as [e|]; [|done]. by destruct (present e).
  - destruct (get m f j) as [e|]; [|done]. destruct (present e); [|done]. rewrite IH.
    destruct (walk m (GetAddress e) p) as [[g es]|]; [|done]. destruct (get m g i) as [e'|]; [|done].
    by destruct (present e').
Qed.

Lemma walk_app_None m f p q : walk m f p = None -> walk m f (p ++ q) = None.
Proof.
  intros H. induction q as [|j q IH] using rev_ind; [by rewrite app_nil_r|]. by rewrite app_assoc, walk_snoc, IH.
Qed.

Lemma dirs_walk m p : forall f g es, walk m f p = Some (g, es) -> dirs m f p = es.
Proof.
  induction p as [|i p IH]; intros f g es; cbn; [by intros [= _ <-]|].
  destruct (get m f i) as [e|]; [|done]. destruct (present e); [|done].
  destruct (walk m (GetAddress e) p) as [[g' es']|] eqn:E; [|done]. intros [= <- <-]. f_equal. by eapply IH.
Qed.

Lemma dirs_absent m p i : forall f, walk m f (p ++ [i]) = None -> dirs m f (p ++ [i]) = dirs m f p.
Proof.
  induction p as [|j p IH]; intros f; cbn.
  - destruct (get m f i) as [e|]; [|done]. by destruct (present e).
  - destruct (get m f j) as [e|]; [|done]. destruct (present e); [|done]. intros H. f_equal. apply IH.
    by destruct (walk m (GetAddress e) (p ++ [i])) as [[??]|].
Qed.

(** ** The invariant *)

(** How many pages the allocator can hand out. *)
Definition free_pages (s : PageFrameAllocator) : list Z := filter (fun i => in_use s i = false) (seqZ 0 (pages s)).
Definition free_count (s : PageFrameAllocator) : nat := length (free_pages s).

(** [f] is a frame that holds a table and that the allocator will not give away. *)
Definition table_frame (v : vmm) (f : Z) : Prop :=
  0 < f < pages (v_pfa v) /\ in_use (v_pfa v) f = true /\ exists ws, v_ram v !! f = Some ws /\ length ws = 512%nat.

(** What the allocator must be for tables to be built: its free pages are
    memory, and page 0 is not one of them. *)
Record frames_ok (v : vmm) : Prop := {
  fk_pfa : pfa_ok (v_pfa v);
  fk_hint : hint_ok (v_pfa v);
  fk_pages : 0 < pages (v_pfa v) <= 2 ^ 40;
  fk_zero : in_use (v_pfa v) 0 = true;
  fk_ram : forall i, 0 <= i < pages (v_pfa v) -> in_use (v_pfa v) i = false -> is_Some (v_ram v !! i)
}.

(** Tables of depth at most 3 below [root]: each in a frame of its own, marked
    as used, no directory entry for a large page, and entries that are not
    present are zero. *)
Record tables_ok (v : vmm) (root : Z) : Prop := {
  tk_frames : frames_ok v;
  tk_table : forall p f es, (length p <= 3)%nat -> Forall index_ok p -> walk (v_ram v) root p = Some (f, es) -> table_frame v f;
  tk_inj : forall p q f es es', (length p <= 3)%nat -> (length q <= 3)%nat -> Forall index_ok p -> Forall index_ok q ->
    walk (v_ram v) root p = Some (f, es) -> walk (v_ram v) root q = Some (f, es') -> p = q;
  tk_dirs : forall p f es i e, (length p <= 2)%nat -> Forall index_ok p -> walk (v_ram v) root p = Some (f, es) ->
    index_ok i -> get (v_ram v) f i = Some e -> Z.testbit e 7 = false;
  tk_clean : forall p f es i e, (length p <= 3)%nat -> Forall index_ok p -> walk (v_ram v) root p = Some (f, es) ->
    index_ok i -> get (v_ram v) f i = Some e -> present e = false -> e = 0
}.

(** ** Pages handed out *)

Lemma elem_free s i : i ∈ free_pages s <-> 0 <= i < pages s /\ in_use s i = false.
Proof. unfold free_pages. rewrite list_elem_of_filter, elem_of_seqZ. intuition lia. Qed.

Lemma free_count_marked s s' i : marked s s' i 1 true -> 0 <= i < pages s -> in_use s i = false ->
  free_count s = S (free_count s').
Proof.
  intros Hm Hi Hf. unfold free_count. change (S (length (free_pages s'))) with (length (i :: free_pages s')).
  apply Permutation_length, NoDup_Permutation.
  - apply NoDup_filter, NoDup_seqZ.
  - constructor; [|apply NoDup_filter, NoDup_seqZ]. rewrite elem_free. rewrite (mk_bits _ _ _ _ _ Hm) by done.
    rewrite decide_True by lia. naive_solver.
  - intros x. rewrite elem_of_cons, !elem_free, (mk_pages _ _ _ _ _ Hm). destruct (decide (x = i)) as [->|Hne]; [naive_solver|].
    split.
    + intros [Hx Hu]. right. split; [done|]. rewrite (mk_bits _ _ _ _ _ Hm), decide_False by lia. done.
    + intros [?|[Hx Hu]]; [done|]. split; [done|]. rewrite (mk_bits _ _ _ _ _ Hm), decide_False in Hu by lia. done.
Qed.

(** A request while a page is free, and memory to go with it. *)
Lemma request_frame v : frames_ok v -> (0 < free_count (v_pfa v))%nat ->
  exists g s', request_page v = Ok (mk_vmm (v_ram v) s', g * 4096) /\ 0 < g < pages (v_pfa v) /\
    in_use (v_pfa v) g = false /\ marked (v_pfa v) s' g 1 true /\ free_count (v_pfa v) = S (free_count s') /\
    frames_ok (mk_vmm (v_ram v) s').
Proof.
  intros [Hs Hh Hp Hz Hr] Hf. unfold request_page.
  destruct (RequestPage_spec _ Hs Hh) as [(g & s' & E & Hg & Hu & _ & Hm & Hh')|[Hall _]].
  - rewrite E. cbn [bind]. assert (g <> 0) as Hg0 by (intros ->; congruence).
    exists g, s'. split_and!; try done; try lia; [by eapply free_count_marked|].
    pose proof (mk_pages _ _ _ _ _ Hm) as Ep. pose proof (mk_ok _ _ _ _ _ Hm).
    split; cbn [v_pfa v_ram]; try rewrite Ep; try done.
    + rewrite (mk_bits _ _ _ _ _ Hm), decide_False by lia. done.
    + intros i Hi. rewrite (mk_bits _ _ _ _ _ Hm) by lia. case_decide; [done|]. by apply Hr.
  - exfalso. unfold free_count in Hf. destruct (free_pages (v_pfa v)) as [|x l] eqn:E; [cbn in Hf; lia|].
    assert (x ∈ free_pages (v_pfa v)) as Hx by (rewrite E; left). apply elem_free in Hx as [Hx Hu].
    rewrite Hall in Hu by done. done.
Qed.

(** ** Changing one entry *)

Lemma walk_ext m m' root q :
  (forall q1 j q2 g es, q = q1 ++ j :: q2 -> walk m root q1 = Some (g, es) -> get m' g j = get m g j) ->
  walk m' root q = walk m root q.
Proof.
  induction q as [|j q IH] using rev_ind; intros H; [done|]. rewrite !walk_snoc. rewrite IH.
  - destruct (walk m root q) as [[g es]|] eqn:E; [|done]. by rewrite (H q j [] g es).
  - intros q1 j' q2 g es -> Hw. apply (H q1 j' (q2 ++ [j]) g es); [|done]. by rewrite <- app_assoc.
Qed.

Lemma get_Some v f i : table_frame v f -> index_ok i -> exists e, get (v_ram v) f i = Some e.
Proof.
  intros (_ & _ & ws & E & Hl) Hi. unfold get. rewrite E. apply lookup_lt_is_Some_2. unfold index_ok in Hi. lia.
Qed.

Lemma get_update m f ws i e g j : m !! f = Some ws -> length ws = 512%nat -> index_ok i -> index_ok j ->
  get (<[f := <[Z.to_nat i := e]> ws]> m) g j = if decide (g = f /\ j = i) then Some e else get m g j.
Proof.
  unfold index_ok. intros E Hl Hi Hj. unfold get. destruct (decide (g = f)) as [->|Hne].
  - rewrite lookup_insert_eq, E. case_decide as H.
    + destruct H as [_ ->]. apply list_lookup_insert_eq. lia.
    + apply list_lookup_insert_ne. intros ?. apply H. split; [done|lia].
  - rewrite lookup_insert_ne by done. by rewrite decide_False by tauto.
Qed.

Lemma index_sub p q : Forall index_ok (p ++ q) -> Forall index_ok p /\ Forall index_ok q.
Proof. apply Forall_app. Qed.

Section update.
Context (v : vmm) (root : Z) (p : list Z) (f : Z) (es ws : list Z) (i : Z).
Hypothesis (Hok : tables_ok v root) (Hlen : (length p <= 3)%nat) (Hp : Forall index_ok p) (Hi : index_ok i).
Hypothesis (Hw : walk (v_ram v) root p = Some (f, es)) (Hws : v_ram v !! f = Some ws).

Definition updated (e : Z) : ram := <[f := <[Z.to_nat i := e]> ws]> (v_ram v).

Lemma update_len : length ws = 512%nat.
Proof. destruct (tk_table _ _ Hok p f es Hlen Hp Hw) as (_ & _ & ws' & E & Hl). congruence. Qed.

(** Paths that do not use the entry lead where they led. *)
Lemma walk_update e q : (length q <= 4)%nat -> Forall index_ok q -> ~ (p ++ [i]) `prefix_of` q ->
  walk (updated e) root q = walk (v_ram v) root q.
Proof.
  intros Hq Hiq Hn. apply walk_ext. intros q1 j q2 g es' -> Hw1.
  apply Forall_app in Hiq as [Hq1 Hq2]. apply Forall_cons in Hq2 as [Hj Hq2]. rewrite length_app in Hq. cbn in Hq.
  unfold updated. rewrite get_update by (done || apply update_len). case_decide as H; [|done]. exfalso.
  destruct H as [-> ->]. apply Hn. exists q2.
  rewrite (tk_inj _ _ Hok p q1 f es es') by (done || lia). by rewrite <- app_assoc.
Qed.

Lemma walk_updated e : walk (updated e) root (p ++ [i]) = if present e then Some (GetAddress e, es ++ [e]) else None.
Proof.
  rewrite walk_snoc, walk_update, Hw; [|lia|done|].
  - unfold updated. rewrite get_update by (done || apply update_len). by rewrite decide_True.
  - intros [k Hk]. apply (f_equal length) in Hk. rewrite !length_app in Hk. cbn in Hk. lia.
Qed.
End update.

(** A page that holds no table can be cleared. *)
Lemma walk_clear v root g q : tables_ok v root -> ~ table_frame v g -> (length q <= 4)%nat -> Forall index_ok q ->
  walk (<[g := replicate 512 0]> (v_ram v)) root q = walk (v_ram v) root q.
Proof.
  intros Hok Hg Hq Hiq. apply walk_ext. intros q1 j q2 f es -> Hw.
  apply Forall_app in Hiq as [Hq1 _]. rewrite length_app in Hq. cbn in Hq.
  pose proof (tk_table _ _ Hok q1 f es ltac:(lia) Hq1 Hw). unfold get. rewrite lookup_insert_ne by naive_solver. done.
Qed.

(** The marks of the allocator only grow. *)
Definition marks_grow (s s' : PageFrameAllocator) : Prop :=
  pages s' = pages s /\ forall j, 0 <= j < pages s -> in_use s j = true -> in_use s' j = true.

#[export] Instance marks_grow_preorder : PreOrder marks_grow.
Proof.
  split; [by intros s; split|]. intros s1 s2 s3 [E1 H1] [E2 H2]. split; [congruence|].
  intros j Hj Hu. apply H2; [by rewrite E1|]. by apply H1.
Qed.

Lemma marked_grow s s' lo n : marked s s' lo n true -> marks_grow s s'.
Proof.
  intros Hm. split; [by apply Hm|]. intros j Hj Hu. rewrite (mk_bits _ _ _ _ _ Hm) by done. by case_decide.
Qed.

Lemma table_frame_grow v v' f ws : table_frame v f -> marks_grow (v_pfa v) (v_pfa v') ->
  v_ram v' !! f = Some ws -> length ws = 512%nat -> table_frame v' f.
Proof. intros (Hf & Hu & _) [Ep Hg] E Hl. split; [lia|]. split; [apply Hg; [lia|done]|by exists ws]. Qed.

Lemma get_clear m g f j : index_ok j ->
  get (<[g := replicate 512 0]> m) f j = if decide (f = g) then Some 0 else get m f j.
Proof.
  intros Hj. unfold get. case_decide as E.
  - subst. rewrite lookup_insert_eq. apply lookup_replicate_2. unfold index_ok in Hj. lia.
  - by rewrite lookup_insert_ne.
Qed.

(** ** Linking a new table *)

Section install.
Context (v : vmm) (root : Z) (p : list Z) (f : Z) (es ws : list Z) (i e Flags g : Z) (s' : PageFrameAllocator).
Hypothesis (Hok : tables_ok v root) (Hlen : (length p <= 2)%nat) (Hp : Forall index_ok p) (Hi : index_ok i).
Hypothesis (Hw : walk (v_ram v) root p = Some (f, es)) (Hws : v_ram v !! f = Some ws).
Hypothesis (He : get (v_ram v) f i = Some e) (Habs : present e = false) (HF : flags_ok Flags).
Hypothesis (Hg : 0 < g < pages (v_pfa v)) (Hfree : in_use (v_pfa v) g = false).
Hypothesis (Hm : marked (v_pfa v) s' g 1 true) (Hfr : frames_ok (mk_vmm (v_ram v) s')).

Definition cleared_ram : ram := <[g := replicate 512 0]> (v_ram v).
Definition installed : vmm := mk_vmm (<[f := <[Z.to_nat i := link e g Flags]> ws]> cleared_ram) s'.

Lemma install_ne q f' es' : (length q <= 3)%nat -> Forall index_ok q -> walk (v_ram v) root q = Some (f', es') -> f' <> g.
Proof. intros Hq Hiq Hwq ->. destruct (tk_table _ _ Hok q g es' Hq Hiq Hwq) as (_ & Hu & _). congruence. Qed.

Lemma install_f_ne : f <> g.
Proof. apply (install_ne p f es); [lia|done|done]. Qed.

Lemma install_cleared_ok : tables_ok (mk_vmm cleared_ram s') root.
Proof.
  assert (forall q, (length q <= 4)%nat -> Forall index_ok q -> walk cleared_ram root q = walk (v_ram v) root q) as Hsame.
  { intros q Hq Hiq. apply walk_clear; try done. intros (_ & Hu & _). congruence. }
  split; cbn [v_ram v_pfa].
  - destruct Hfr as [A1 A2 A3 A4 A5]. cbn in *. split; cbn; try done. intros j Hj Hu. unfold cleared_ram.
    destruct (decide (j = g)) as [->|]; [by rewrite lookup_insert_eq|]. rewrite lookup_insert_ne by done. by apply A5.
  - intros q f' es' Hq Hiq. rewrite Hsame by (done || lia). intros Hwq.
    pose proof (tk_table _ _ Hok q f' es' Hq Hiq Hwq) as Ht. destruct Ht as (H1 & H2 & ws' & H3 & H4) eqn:E. clear E.
    apply (table_frame_grow v _ f' ws'); [done|by eapply marked_grow| |done]. cbn. unfold cleared_ram.
    rewrite lookup_insert_ne; [done|]. intros <-. by apply (install_ne q g es').
  - intros q q' f' es' es'' Hq Hq' Hiq Hiq'. rewrite !Hsame by (done || lia). by apply (tk_inj _ _ Hok).
  - intros q f' es' j e' Hq Hiq. rewrite Hsame by (done || lia). intros Hwq Hj. unfold cleared_ram. rewrite get_clear by done.
    rewrite decide_False by (apply (install_ne q f' es'); (done || lia)). by apply (tk_dirs _ _ Hok q f' es').
  - intros q f' es' j e' Hq Hiq. rewrite Hsame by (done || lia). intros Hwq Hj. unfold cleared_ram. rewrite get_clear by done.
    rewrite decide_False by (apply (install_ne q f' es'); (done || lia)). by apply (tk_clean _ _ Hok q f' es').
Qed.

Lemma install_get f' j : index_ok j -> get (v_ram installed) f' j =
  if decide (f' = f /\ j = i) then Some (link e g Flags) else if decide (f' = g) then Some 0 else get (v_ram v) f' j.
Proof.
  intros Hj. unfold installed. cbn [v_ram]. rewrite get_update; [|by unfold cleared_ram; rewrite lookup_insert_ne by (apply not_eq_sym, install_f_ne)| |done|done].
  - unfold cleared_ram. by rewrite get_clear.
  - destruct (tk_table _ _ Hok p f es ltac:(lia) Hp Hw) as (_ & _ & ws' & E & Hl). congruence.
Qed.

Lemma install_address : GetAddress (link e g Flags) = g.
Proof.
  rewrite link_address by done. apply wrapu_small. pose proof (fk_pages _ (tk_frames _ _ Hok)). lia.
Qed.

(** Exactly one path more: the one to the new table. *)
Lemma install_walk q : (length q <= 4)%nat -> Forall index_ok q -> walk (v_ram installed) root q =
  if decide (q = p ++ [i]) then Some (g, es ++ [link e g Flags]) else walk (v_ram v) root q.
Proof.
  intros Hq Hiq. assert (walk cleared_ram root p = Some (f, es)) as Hwc.
  { rewrite <- Hw. apply walk_clear; [done| |lia|done]. intros (_ & Hu & _). congruence. }
  assert (cleared_ram !! f = Some ws) as Hwsc
    by (unfold cleared_ram; rewrite lookup_insert_ne by (apply not_eq_sym, install_f_ne); done).
  assert (walk (v_ram installed) root (p ++ [i]) = Some (g, es ++ [link e g Flags])) as Hnew.
  { etransitivity; [exact (walk_updated (mk_vmm cleared_ram s') root p f es ws i install_cleared_ok ltac:(lia) Hp Hi Hwc Hwsc (link e g Flags))|].
    by rewrite link_present, install_address. }
  case_decide as E; [by subst|]. destruct (decide ((p ++ [i]) `prefix_of` q)) as [[k ->]|Hn].
  - destruct k as [|j k]; [by rewrite app_nil_r in E|]. transitivity (@None (Z * list Z)).
    + replace ((p ++ [i]) ++ j :: k) with (((p ++ [i]) ++ [j]) ++ k) by (by rewrite <- app_assoc).
      apply walk_app_None. rewrite walk_snoc, Hnew.
      assert (index_ok j) as Hj by (apply Forall_app in Hiq as [_ Hk]; by apply Forall_cons in Hk as [? _]).
      rewrite install_get by done. rewrite decide_False by (intros [? _]; by apply install_f_ne). by rewrite decide_True.
    + symmetry. apply walk_app_None. by rewrite walk_snoc, Hw, He, Habs.
  - transitivity (walk cleared_ram root q).
    + exact (walk_update (mk_vmm cleared_ram s') root p f es ws i install_cleared_ok ltac:(lia) Hp Hi Hwc Hwsc _ q Hq Hiq Hn).
    + apply walk_clear; try done. intros (_ & Hu & _). congruence.
Qed.

Lemma install_frames : frames_ok installed.
Proof.
  destruct (tk_frames _ _ install_cleared_ok) as [A1 A2 A3 A4 A5]. split; try done. intros j Hj Hu. cbn.
  destruct (decide (j = f)) as [->|]; [by rewrite lookup_insert_eq|]. rewrite lookup_insert_ne by done. by apply A5.
Qed.

Lemma install_table_frame f' : table_frame v f' -> table_frame installed f'.
Proof.
  intros Ht. pose proof Ht as (H1 & H2 & ws' & H3 & H4). assert (f' <> g) as Hne by congruence.
  destruct (decide (f' = f)) as [->|Hf'].
  - apply (table_frame_grow v _ f (<[Z.to_nat i := link e g Flags]> ws)); [done|by eapply marked_grow| |].
    + cbn. apply lookup_insert_eq.
    + rewrite length_insert. congruence.
  - apply (table_frame_grow v _ f' ws'); [done|by eapply marked_grow| |done]. cbn. unfold cleared_ram.
    by rewrite !lookup_insert_ne by done.
Qed.

Lemma install_new_frame : table_frame installed g.
Proof.
  split; [cbn; rewrite (mk_pages _ _ _ _ _ Hm); lia|]. split.
  - cbn. rewrite (mk_bits _ _ _ _ _ Hm), decide_True by lia. done.
  - exists (replicate 512 0). cbn [installed v_ram]. rewrite lookup_insert_ne by apply install_f_ne.
    unfold cleared_ram. rewrite lookup_insert_eq, length_replicate. done.
Qed.

Lemma install_ok : tables_ok installed root.
Proof.
  split; [exact install_frames| | | |].
  - intros q f' es' Hq Hiq. rewrite install_walk by (done || lia). case_decide.
    + intros [= <- _]. exact install_new_frame.
    + intros Hwq. apply install_table_frame. by apply (tk_table _ _ Hok q f' es').
  - intros q q' f' es' es'' Hq Hq' Hiq Hiq'. rewrite !install_walk by (done || lia). repeat case_decide; subst; try done.
    + intros [= <- _] Hwq. exfalso. by apply (install_ne q' g es'').
    + intros Hwq [= <- _]. exfalso. by apply (install_ne q g es').
    + by apply (tk_inj _ _ Hok).
  - intros q f' es' j e' Hq Hiq. rewrite install_walk by (done || lia). intros Hwq Hj. rewrite install_get by done.
    destruct (decide (f' = f /\ j = i)); [|destruct (decide (f' = g))].
    + intros [= <-]. rewrite link_flag, flags_bit by (done || lia). apply (tk_dirs _ _ Hok p f es i); try done.
    + intros [= <-]. apply Z.bits_0.
    + case_decide as H3; [injection Hwq as <- _; done|]. by apply (tk_dirs _ _ Hok q f' es').
  - intros q f' es' j e' Hq Hiq. rewrite install_walk by (done || lia). intros Hwq Hj. rewrite install_get by done.
    destruct (decide (f' = f /\ j = i)); [|destruct (decide (f' = g))].
    + intros [= <-]. by rewrite link_present.
    + by intros [= <-].
    + case_decide as H3; [injection Hwq as <- _; done|]. by apply (tk_clean _ _ Hok q f' es').
Qed.
End install.

(** ** Accesses to tables *)

Lemma table_at_ok v f ws : 0 < f -> v_ram v !! f = Some ws -> table_at (v_ram v) (f * 4096) = Ok ws.
Proof.
  intros Hf E. unfold table_at, PAGE_SIZE. rewrite decide_False by lia. rewrite Z.mod_mul, decide_True by done.
  by rewrite Z.div_mul, E.
Qed.

Lemma read_entry_ok v f i e : 0 < f -> get (v_ram v) f i = Some e -> read_entry v (f * 4096) i = Ok e.
Proof.
  intros Hf He. unfold get in He. destruct (v_ram v !! f) as [ws|] eqn:E; [|done]. unfold read_entry.
  rewrite (table_at_ok v f ws) by done. cbn [bind]. by apply aget_Ok.
Qed.

Lemma write_entry_ok v f ws i e : table_frame v f -> v_ram v !! f = Some ws -> index_ok i ->
  write_entry v (f * 4096) i e = Ok (mk_vmm (<[f := <[Z.to_nat i := e]> ws]> (v_ram v)) (v_pfa v)).
Proof.
  intros (Hf & _ & ws' & E & Hl) E' Hi. unfold index_ok in Hi. unfold write_entry. rewrite (table_at_ok v f ws) by (done || lia).
  cbn [bind]. rewrite aset_Ok by (assert (ws' = ws) by congruence; subst; lia). cbn [bind].
  unfold PAGE_SIZE. by rewrite Z.div_mul.
Qed.

Lemma clear_table_ok m s g : 0 < g -> is_Some (m !! g) ->
  clear_table (mk_vmm m s) (g * 4096) = Ok (mk_vmm (<[g := replicate 512 0]> m) s).
Proof.
  intros Hg [ws E]. unfold clear_table. rewrite (table_at_ok (mk_vmm m s) g ws) by done. cbn [bind v_ram v_pfa].
  unfold PAGE_SIZE. by rewrite Z.div_mul.
Qed.

Lemma frame_of g : Z.shiftr (g * 4096) 12 = g.
Proof. rewrite Z.shiftr_div_pow2 by lia. by apply Z.div_mul. Qed.

Lemma address_of e : u64 (Z.shiftl (GetAddress e) 12) = GetAddress e * 4096.
Proof. pose proof (GetAddress_range e). rewrite Z.shiftl_mul_pow2 by lia. apply wrapu_small. lia. Qed.

(** ** The tables of a path *)

Fixpoint prefixes (p : list Z) : list (list Z) :=
  match p with
  | [] => []
  | i :: p' => [i] :: (cons i <$> prefixes p')
  end.

Lemma prefixes_snoc p i : prefixes (p ++ [i]) = prefixes p ++ [p ++ [i]].
Proof. induction p as [|j p IH]; cbn; [done|]. by rewrite IH, fmap_app. Qed.

(** The paths to the tables that are not there yet. *)
Definition absent (m : ram) (root : Z) (p : list Z) : list (list Z) := filter (fun q => walk m root q = None) (prefixes p).

Lemma absent_snoc m root p i :
  absent m root (p ++ [i]) = absent m root p ++ (if decide (walk m root (p ++ [i]) = None) then [p ++ [i]] else []).
Proof. unfold absent. by rewrite prefixes_snoc, filter_app. Qed.

Definition all_have (b : Z) (es : list Z) : bool := forallb (fun e => Z.testbit e b) es.

Lemma all_have_app b es es' : all_have b (es ++ es') = all_have b es && all_have b es'.
Proof. apply forallb_app. Qed.

(** [v'] is [v] with the tables of the path [p] added, the last of them [f]. *)
Record grown (v v' : vmm) (root : Z) (p : list Z) (Flags f : Z) : Prop := {
  gr_ok : tables_ok v' root;
  gr_marks : marks_grow (v_pfa v) (v_pfa v');
  gr_free : free_count (v_pfa v) = (free_count (v_pfa v') + length (absent (v_ram v) root p))%nat;
  gr_same : forall q, (length q <= 4)%nat -> Forall index_ok q -> q ∉ absent (v_ram v) root p ->
    walk (v_ram v') root q = walk (v_ram v) root q;
  gr_path : exists es, walk (v_ram v') root p = Some (f, es) /\
    forall b, 0 < b < 12 ->
      if Z.testbit Flags b then all_have b es = all_have b (dirs (v_ram v) root p)
      else walk (v_ram v) root p = None -> all_have b es = false
}.

Lemma grown_refl v root Flags : tables_ok v root -> grown v v root [] Flags root.
Proof. intros Hok. split; [done|done|cbn; lia|done|]. exists []. split; [done|]. intros b _. by destruct (Z.testbit Flags b). Qed.

Lemma absent_prefix m root p q : q ∈ absent m root p -> (length q <= length p)%nat.
Proof.
  unfold absent. rewrite list_elem_of_filter. intros [_ H]. revert q H.
  induction p as [|i p IH]; cbn; intros q; [by rewrite elem_of_nil|]. rewrite elem_of_cons, list_elem_of_fmap.
  intros [->|(q' & -> & Hq)]; cbn; [lia|]. specialize (IH _ Hq). lia.
Qed.

(** One level: the next table of the path is found, or made. *)
Lemma grown_step v v1 root p Flags f i : grown v v1 root p Flags f -> (length p <= 2)%nat -> Forall index_ok p -> index_ok i ->
  flags_ok Flags -> (length (absent (v_ram v) root (p ++ [i])) <= free_count (v_pfa v))%nat ->
  exists v2 g, next_table v1 (f * 4096) i Flags true = Ok (v2, g * 4096) /\ grown v v2 root (p ++ [i]) Flags g.
Proof.
  intros Hgr Hlen Hp Hi HF Hfree. destruct (gr_path _ _ _ _ _ _ Hgr) as (es & Hw & Hacc).
  pose proof (gr_ok _ _ _ _ _ _ Hgr) as Hok1. pose proof (tk_table _ _ Hok1 p f es ltac:(lia) Hp Hw) as Htf.
  destruct (get_Some v1 f i Htf Hi) as [e He]. pose proof Htf as (Hf & _ & ws & Hws & _).
  assert (Forall index_ok (p ++ [i])) as Hpi by (apply Forall_app; split; [done|by constructor]).
  assert (length (p ++ [i]) <= 3)%nat as Hl3 by (rewrite length_app; cbn; lia).
  assert (walk (v_ram v) root (p ++ [i]) = walk (v_ram v1) root (p ++ [i])) as Hback.
  { symmetry. apply (gr_same _ _ _ _ _ _ Hgr); [lia|done|]. intros H. apply absent_prefix in H. rewrite length_app in H. cbn in H. lia. }
  assert (walk (v_ram v1) root (p ++ [i]) = if present e then Some (GetAddress e, es ++ [e]) else None) as Hhere
    by (rewrite walk_snoc, Hw, He; done).
  unfold next_table. rewrite (read_entry_ok _ f i e) by (done || lia). cbn [bind]. rewrite present_bit, address_of.
  rewrite absent_snoc in Hfree. rewrite Hback, Hhere in Hfree. destruct (present e) eqn:Epr.
  - exists v1, (GetAddress e). split; [done|]. rewrite Hhere in Hback.
    assert (absent (v_ram v) root (p ++ [i]) = absent (v_ram v) root p) as Eab
      by (rewrite absent_snoc, Hback, decide_False by done; apply app_nil_r).
    split; [done|apply Hgr|rewrite Eab; apply Hgr| |].
    + intros q. rewrite Eab. apply Hgr.
    + exists (es ++ [e]). split; [done|]. intros b _. rewrite (dirs_walk _ _ _ _ _ Hback), Hback. by destruct (Z.testbit Flags b).
  - rewrite Hhere in Hback. rewrite decide_True, length_app in Hfree by done. cbn [length] in Hfree.
    pose proof (gr_free _ _ _ _ _ _ Hgr) as Hfc.
    destruct (request_frame v1 (tk_frames _ _ Hok1) ltac:(lia)) as (g & s' & -> & Hg & Hgu & Hm & Hfc' & Hfr). cbn [bind].
    rewrite clear_table_ok; [|lia|apply (fk_ram _ (tk_frames _ _ Hok1)); (done || lia)]. cbn [bind]. rewrite frame_of. fold (link e g Flags).
    assert (tables_ok (mk_vmm (cleared_ram v1 g) s') root) as Hcl by (by eapply install_cleared_ok).
    assert (f <> g) as Hfg by (destruct Htf as (_ & ? & _); congruence).
    assert (table_frame (mk_vmm (cleared_ram v1 g) s') f) as Htf'.
    { apply (tk_table _ _ Hcl p f es ltac:(lia) Hp). rewrite <- Hw. apply walk_clear; [done| |lia|done].
      intros (_ & Hu & _). congruence. }
    fold (cleared_ram v1 g). rewrite (write_entry_ok _ f ws);
      [|done|by cbn [v_ram]; unfold cleared_ram; rewrite lookup_insert_ne|done].
    cbn [bind v_ram v_pfa]. fold (installed v1 f ws i e Flags g s').
    eexists _, g. split; [reflexivity|].
    assert (absent (v_ram v) root (p ++ [i]) = absent (v_ram v) root p ++ [p ++ [i]]) as Eab
      by (rewrite absent_snoc, Hback, decide_True by done; done).
    split.
    + by eapply install_ok.
    + transitivity (v_pfa v1); [apply Hgr|by eapply marked_grow].
    + rewrite Eab, length_app. cbn [installed v_pfa length]. lia.
    + intros q Hq Hiq. rewrite Eab, not_elem_of_app. intros [Hn1 Hn2]. erewrite install_walk by done.
      rewrite decide_False; [by apply Hgr|]. intros ->. apply Hn2. by constructor.
    + exists (es ++ [link e g Flags]). erewrite install_walk by (done || lia). rewrite decide_True by done. split; [done|].
      intros b Hb. specialize (Hacc b Hb). rewrite dirs_absent by done. rewrite all_have_app. cbn.
      assert (e = 0) as -> by (apply (tk_clean _ _ Hok1 p f es i); (done || lia)).
      rewrite link_flag, Z.bits_0 by lia. destruct (Z.testbit Flags b); [by rewrite Hacc, andb_true_r|].
      intros _. apply andb_false_r.
Qed.

(** ** The entry of a page *)

(** A last level entry can be anything: only the path it ends changes. *)
Lemma leaf_ok v root p f es ws i e : tables_ok v root -> length p = 3%nat -> Forall index_ok p -> index_ok i ->
  walk (v_ram v) root p = Some (f, es) -> v_ram v !! f = Some ws -> present e = true ->
  tables_ok (mk_vmm (<[f := <[Z.to_nat i := e]> ws]> (v_ram v)) (v_pfa v)) root.
Proof.
  intros Hok Hlen Hp Hi Hw Hws He. set (m' := <[f := _]> _).
  assert (length ws = 512%nat) as Hl by (by eapply update_len; [exact Hok| |exact Hp|exact Hw|]; [lia|]).
  assert (forall q, (length q <= 3)%nat -> Forall index_ok q -> walk m' root q = walk (v_ram v) root q) as Hsame.
  { intros q Hq Hiq. eapply (walk_update v root p f es ws i); try done; try lia.
    intros Hpre. apply prefix_length in Hpre. rewrite length_app in Hpre. cbn in Hpre. lia. }
  assert (forall q f' es' j, (length q <= 3)%nat -> Forall index_ok q -> walk (v_ram v) root q = Some (f', es') -> index_ok j ->
    get m' f' j = if decide (q = p /\ j = i) then Some e else get (v_ram v) f' j) as Hget.
  { intros q f' es' j Hq Hiq Hwq Hj. unfold m'. rewrite get_update by done. destruct (decide (q = p /\ j = i)) as [[-> ->]|Hn].
    - rewrite Hw in Hwq. injection Hwq as <- _. by rewrite decide_True.
    - rewrite decide_False; [done|]. intros [-> ->]. apply Hn. split; [|done].
      apply (tk_inj _ _ Hok q p f es' es); (done || lia). }
  split; cbn [v_ram v_pfa].
  - destruct (tk_frames _ _ Hok) as [A1 A2 A3 A4 A5]. split; try done. intros j Hj Hu. cbn. unfold m'.
    destruct (decide (j = f)) as [->|]; [by rewrite lookup_insert_eq|]. rewrite lookup_insert_ne by done. by apply A5.
  - intros q f' es' Hq Hiq. rewrite Hsame by done. intros Hwq. pose proof (tk_table _ _ Hok q f' es' Hq Hiq Hwq) as Ht.
    pose proof Ht as (H1 & H2 & ws' & H3 & H4). destruct (decide (f' = f)) as [->|].
    + apply (table_frame_grow v _ f (<[Z.to_nat i := e]> ws)); [done|done|apply lookup_insert_eq|by rewrite length_insert].
    + apply (table_frame_grow v _ f' ws'); [done|done| |done]. cbn. unfold m'. by rewrite lookup_insert_ne.
  - intros q q' f' es' es'' Hq Hq' Hiq Hiq'. rewrite !Hsame by done. by apply (tk_inj _ _ Hok).
  - intros q f' es' j e' Hq Hiq. rewrite Hsame by (done || lia). intros Hwq Hj. rewrite (Hget q f' es') by (done || lia).
    rewrite decide_False by (intros [-> _]; lia). by apply (tk_dirs _ _ Hok q f' es').
  - intros q f' es' j e' Hq Hiq. rewrite Hsame by (done || lia). intros Hwq Hj. rewrite (Hget q f' es') by (done || lia).
    case_decide; [|by apply (tk_clean _ _ Hok q f' es')]. intros [= <-]. congruence.
Qed.

(** What mapping the page of [a] to frame [fr] does to all paths. *)
Record mapped (v v' : vmm) (root a fr Flags : Z) : Prop := {
  mp_ok : tables_ok v' root;
  mp_marks : marks_grow (v_pfa v) (v_pfa v');
  mp_free : free_count (v_pfa v) = (free_count (v_pfa v') + length (absent (v_ram v) root (take 3 (path a))))%nat;
  mp_same : forall q, (length q <= 4)%nat -> Forall index_ok q -> q <> path a -> q ∉ absent (v_ram v) root (take 3 (path a)) ->
    walk (v_ram v') root q = walk (v_ram v) root q;
  mp_page : exists es, walk (v_ram v') root (path a) = Some (fr, es) /\
    forall b, 0 < b < 12 -> all_have b es =
      if Z.testbit Flags b then all_have b (dirs (v_ram v) root (take 3 (path a)))
      else match walk (v_ram v) root (path a) with Some (_, es0) => all_have b es0 | None => false end
}.

(** The last step of [MapMemory], on the table [f] of the path [p]. *)
Lemma map_leaf v v3 root a p i f pa Flags : grown v v3 root p Flags f -> path a = p ++ [i] -> flags_ok Flags ->
  exists v', (let* PDE := read_entry v3 (f * 4096) i in
              write_entry v3 (f * 4096) i (AddFlag (SetFlag (SetAddress PDE (Z.shiftr pa 12)) PT_P true) Flags)) = Ok v' /\
    mapped v v' root a (wrapu 40 (Z.shiftr pa 12)) Flags.
Proof.
  intros G Epath HF. assert (length p = 3%nat) as Hlen by (apply (f_equal length) in Epath; rewrite length_app in Epath; cbn in Epath; lia).
  pose proof (path_index_ok a) as Hpa. rewrite Epath in Hpa. apply Forall_app in Hpa as [Hp Hi]. apply Forall_cons in Hi as [Hi _].
  destruct (gr_path _ _ _ _ _ _ G) as (es & Hw & Hacc). pose proof (gr_ok _ _ _ _ _ _ G) as Hok.
  pose proof (tk_table _ _ Hok p f es ltac:(lia) Hp Hw) as Htf. pose proof Htf as (Hf & _ & ws & Hws & Hl).
  destruct (get_Some v3 f i Htf Hi) as [e He]. rewrite (read_entry_ok _ f i e) by (done || lia). cbn [bind].
  rewrite (write_entry_ok _ f ws) by done. fold (link e (Z.shiftr pa 12) Flags). set (e' := link e (Z.shiftr pa 12) Flags).
  assert (take 3 (path a) = p) as E3 by (rewrite Epath, take_app_le, take_ge by lia; done).
  assert (path a ∉ absent (v_ram v) root p) as Hna.
  { intros H. apply absent_prefix in H. rewrite Epath, length_app in H. cbn in H. lia. }
  assert (walk (v_ram v) root (path a) = if present e then Some (GetAddress e, es ++ [e]) else None) as Hold.
  { rewrite <- (gr_same _ _ _ _ _ _ G); [|rewrite Epath, length_app; cbn; lia|apply path_index_ok|done].
    by rewrite Epath, walk_snoc, Hw, He. }
  eexists. split; [reflexivity|]. split; rewrite ?E3.
  - by eapply leaf_ok; [| | | |exact Hw| |apply link_present].
  - apply G.
  - apply G.
  - intros q Hq Hiq Hne Hqa. rewrite <- (gr_same _ _ _ _ _ _ G q) by done.
    eapply (walk_update v3 root p f es ws i); try done; try lia. intros Hpre. apply Hne. rewrite Epath. symmetry.
    apply prefix_length_eq; [done|]. rewrite length_app. cbn. lia.
  - exists (es ++ [e']). split.
    + rewrite Epath. etransitivity; [exact (walk_updated v3 root p f es ws i Hok ltac:(lia) Hp Hi Hw Hws e')|].
      unfold e'. by rewrite link_present, link_address.
    + intros b Hb. specialize (Hacc b Hb). rewrite all_have_app, Hold. cbn. unfold e'. rewrite link_flag by lia.
      destruct (Z.testbit Flags b); [by rewrite Hacc, andb_true_r|]. cbn. rewrite andb_true_r. destruct (present e) eqn:Ep.
      * rewrite all_have_app. cbn. by rewrite andb_true_r.
      * rewrite (tk_clean _ _ Hok p f es i e) by (done || lia). by rewrite Z.bits_0, andb_false_r.
Qed.

Lemma map_page v root a pa Flags : tables_ok v root -> flags_ok Flags ->
  (length (absent (v_ram v) root (take 3 (path a))) <= free_count (v_pfa v))%nat ->
  exists v', MapMemory (root * 4096) v a pa Flags 0 = Ok v' /\ mapped v v' root a (wrapu 40 (Z.shiftr pa 12)) Flags.
Proof.
  intros Hok HF Hfree. pose proof (path_index_ok a) as Hpath. unfold MapMemory. unfold path in *.
  set (ix := indexer a) in *. cbn [take] in *.
  set (i1 := PDP_i ix) in *. set (i2 := PD_i ix) in *. set (i3 := PT_i ix) in *. set (i4 := P_i ix) in *.
  apply Forall_cons in Hpath as [H1 Hpath]. apply Forall_cons in Hpath as [H2 Hpath].
  apply Forall_cons in Hpath as [H3 Hpath]. apply Forall_cons in Hpath as [H4 _].
  destruct (tk_table _ _ Hok [] root [] ltac:(cbn; lia) ltac:(done) eq_refl) as (Hroot & _).
  rewrite decide_False by lia. rewrite decide_True by done.
  change [i1; i2; i3] with (([] ++ [i1] ++ [i2]) ++ [i3]) in Hfree.
  pose proof (absent_snoc (v_ram v) root [i1; i2] i3) as L3. pose proof (absent_snoc (v_ram v) root [i1] i2) as L2.
  cbn [app] in L2, L3. apply (f_equal length) in L2, L3. rewrite length_app in L2, L3. cbn [app] in Hfree.
  destruct (grown_step v v root [] Flags root i1 (grown_refl _ _ _ Hok)) as (v1 & f1 & -> & G1);
    [cbn; lia|done|done|done|cbn [app]; lia|]. cbn [bind app] in *.
  destruct (grown_step v v1 root [i1] Flags f1 i2 G1) as (v2 & f2 & -> & G2);
    [cbn; lia|by auto using Forall_cons_2, Forall_nil_2|done|done|cbn [app]; lia|]. cbn [bind app] in *.
  destruct (grown_step v v2 root [i1; i2] Flags f2 i3 G2) as (v3 & f3 & -> & G3);
    [cbn; lia|by auto using Forall_cons_2, Forall_nil_2|done|done|cbn [app]; lia|]. cbn [bind app] in *.
  by eapply map_leaf.
Qed.

(** ** Translation *)

(** What the processor makes of an address: the physical address, and whether
    the page can be written and reached from user mode. *)
Record translation := mk_tr {
  tr_address : Z;
  tr_write : bool;
  tr_user : bool
}.

Definition translate (m : ram) (root a : Z) : option translation :=
  match walk m root (path a) with
  | Some (f, es) => Some (mk_tr (f * 4096 + a mod 4096) (all_have 1 es) (all_have 2 es))
  | None => None
  end.

(** The access to the page of [a] that bit [b] controls is granted. *)
Definition granted (m : ram) (root b a : Z) : bool :=
  match walk m root (path a) with Some (_, es) => all_have b es | None => false end.

(** ... is granted by the directories above the page, as far as they exist. *)
Definition dirs_grant (m : ram) (root b a : Z) : bool := all_have b (dirs m root (take 3 (path a))).

(** The access after mapping: what is asked for is granted where the
    directories allow it, what is not asked for stays as it was. *)
Definition access (m : ram) (root Flags b a : Z) : bool :=
  if Z.testbit Flags b then dirs_grant m root b a else granted m root b a.

(** The tables a mapping of [a] has to create. *)
Definition new_tables (m : ram) (root a : Z) : nat := length (absent m root (take 3 (path a))).

Lemma mapped_other v v' root a fr Flags b : mapped v v' root a fr Flags -> page_of b <> page_of a ->
  walk (v_ram v') root (path b) = walk (v_ram v) root (path b).
Proof.
  intros Hm Hne. apply (mp_same _ _ _ _ _ _ Hm); [cbn; lia|apply path_index_ok|by rewrite path_page|].
  intros H. apply absent_prefix in H. cbn in H. lia.
Qed.

Lemma mapped_page v v' root a fr Flags b : mapped v v' root a fr Flags -> page_of b = page_of a ->
  translate (v_ram v') root b
  = Some (mk_tr (fr * 4096 + b mod 4096) (access (v_ram v) root Flags 1 a) (access (v_ram v) root Flags 2 a)).
Proof.
  intros Hm He. apply path_page in He. unfold translate. rewrite He.
  destruct (mp_page _ _ _ _ _ _ Hm) as (es & -> & Hes). rewrite !Hes by lia. done.
Qed.

(** ** Tables that are not linked *)

(** A page made a table outside the tree: where the frames in use before are
    unchanged, apart from [keep] (0 for none). *)
Record orphaned (v v' : vmm) (keep g : Z) : Prop := {
  or_frames : frames_ok v';
  or_table : table_frame v' g;
  or_zero : forall j, index_ok j -> get (v_ram v') g j = Some 0;
  or_new : in_use (v_pfa v) g = false;
  or_marks : marks_grow (v_pfa v) (v_pfa v');
  or_free : free_count (v_pfa v) = S (free_count (v_pfa v'));
  or_same : forall f, 0 < f -> f <> keep -> in_use (v_pfa v) f = true -> v_ram v' !! f = v_ram v !! f
}.

(** The part of [next_table] that makes a table. *)
Lemma make_table v : frames_ok v -> (0 < free_count (v_pfa v))%nat ->
  exists v' g, (let* '(v, Next) := request_page v in let* v := clear_table v Next in Ok (v, Next)) = Ok (v', g * 4096) /\
    orphaned v v' 0 g.
Proof.
  intros Hfr Hf. destruct (request_frame v Hfr Hf) as (g & s' & -> & Hg & Hu & Hm & Hfc & Hfr'). cbn [bind].
  rewrite clear_table_ok; [|lia|apply (fk_ram _ Hfr); (done || lia)]. cbn [bind]. eexists _, g. split; [reflexivity|].
  split; cbn [v_ram v_pfa]; try done.
  - destruct Hfr' as [A1 A2 A3 A4 A5]. split; try done. intros j Hj Hju. cbn.
    destruct (decide (j = g)) as [->|]; [by rewrite lookup_insert_eq|]. rewrite lookup_insert_ne by done. by apply A5.
  - split; [cbn; rewrite (mk_pages _ _ _ _ _ Hm); lia|]. cbn. rewrite (mk_bits _ _ _ _ _ Hm), decide_True by lia.
    split; [done|]. exists (replicate 512 0). by rewrite lookup_insert_eq, length_replicate.
  - intros j Hj. rewrite get_clear by done. by rewrite decide_True.
  - by eapply marked_grow.
  - intros f _ _ Hfu. rewrite lookup_insert_ne; [done|]. intros <-. congruence.
Qed.

(** One level below a table whose entry is empty. *)
Lemma orphan_step v f i Flags : frames_ok v -> table_frame v f -> get (v_ram v) f i = Some 0 -> index_ok i ->
  (0 < free_count (v_pfa v))%nat ->
  exists v' g, next_table v (f * 4096) i Flags true = Ok (v', g * 4096) /\ orphaned v v' f g.
Proof.
  intros Hfr Htf H0 Hi Hf. unfold next_table. rewrite (read_entry_ok _ f i 0) by (done || apply Htf). cbn [bind].
  rewrite present_bit. destruct (make_table v Hfr Hf) as (v1 & g & E & Hor).
  apply bind_inv in E as ([v0 a0] & Er & E). cbn in E. apply bind_inv in E as (v0' & Ec & E). injection E as -> ->.
  cbn. rewrite Er. cbn [bind]. rewrite Ec. cbn [bind].
  pose proof Htf as (Hf0 & Hfu & ws & Hws & Hl).
  assert (v_ram v1 !! f = Some ws) as Hws1 by (rewrite (or_same _ _ _ _ Hor) by (done || lia); done).
  assert (table_frame v1 f) as Htf1 by (eapply table_frame_grow; [exact Htf|apply Hor|exact Hws1|done]).
  assert (f <> g) as Hne by (pose proof (or_new _ _ _ _ Hor); congruence).
  rewrite (write_entry_ok _ f ws) by done. cbn [bind]. eexists _, g. split; [reflexivity|].
  destruct Hor as [B1 B2 B3 B4 B5 B6 B7]. split; cbn [v_ram v_pfa]; try done.
  - destruct B1 as [A1 A2 A3 A4 A5]. split; try done. intros j Hj Hju. cbn.
    destruct (decide (j = f)) as [->|]; [by rewrite lookup_insert_eq|]. rewrite lookup_insert_ne by done. by apply A5.
  - destruct B2 as (C1 & C2 & ws2 & C3 & C4). split; [done|]. split; [done|]. exists ws2. cbn. by rewrite lookup_insert_ne.
  - intros j Hj. rewrite get_update by done. rewrite decide_False by naive_solver. by apply B3.
  - intros f' Hf' Hne' Hu'. rewrite lookup_insert_ne by done. apply B7; [done|lia|done].
Qed.

(** ** An empty root *)

Lemma empty_root v g : frames_ok v -> table_frame v g -> (forall j, index_ok j -> get (v_ram v) g j = Some 0) ->
  tables_ok v g /\ forall q, q <> [] -> Forall index_ok q -> walk (v_ram v) g q = None.
Proof.
  intros Hfr Htf Hz. assert (forall q, q <> [] -> Forall index_ok q -> walk (v_ram v) g q = None) as Hnone.
  { intros [|j q] Hne Hq; [done|]. apply Forall_cons in Hq as [Hj _]. cbn. by rewrite Hz. }
  split; [|done]. split; [done| | | |].
  - intros p f es Hl Hi. destruct p; [by intros [= <- _]|]. by rewrite Hnone.
  - intros p q f es es' Hl Hl' Hi Hi'. destruct p as [|x p], q as [|y q]; [done| | |]; intros H1 H2;
      try (rewrite (Hnone (_ :: _)) in H1 by done; done); rewrite (Hnone (_ :: _)) in H2 by done; done.
  - intros p f es i e Hl Hi. destruct p; [|by rewrite Hnone]. intros [= <- _] Hi'. rewrite Hz by done. by intros [= <-].
  - intros p f es i e Hl Hi. destruct p; [|by rewrite Hnone]. intros [= <- _] Hi'. rewrite Hz by done. by intros [= <-].
Qed.

(** ** Theorems on one mapping *)

(** C12 [MapMemory] with enough free pages for the tables it must create
    succeeds and keeps the tables a tree of distinct used frames; every address of the
    page then translates to the same offset in the physical page, with the
    access the flags ask for as far as the directories allow it; every other
    address translates as before, and used pages stay used. *)
Theorem MapMemory_correct v root a pa Flags : tables_ok v root -> flags_ok Flags -> 0 <= pa < 2 ^ 52 ->
  (new_tables (v_ram v) root a <= free_count (v_pfa v))%nat ->
  exists v', MapMemory (root * 4096) v a pa Flags 0 = Ok v' /\ tables_ok v' root /\
    (forall b, page_of b = page_of a -> translate (v_ram v') root b =
       Some (mk_tr (pa / 4096 * 4096 + b mod 4096) (access (v_ram v) root Flags 1 a) (access (v_ram v) root Flags 2 a))) /\
    (forall b, page_of b <> page_of a -> translate (v_ram v') root b = translate (v_ram v) root b) /\
    marks_grow (v_pfa v) (v_pfa v') /\
    free_count (v_pfa v) = (free_count (v_pfa v') + new_tables (v_ram v) root a)%nat.
Proof.
  intros Hok HF Hpa Hfree. destruct (map_page v root a pa Flags Hok HF Hfree) as (v' & E & Hm). exists v'.
  split_and!; [done|apply Hm| | |apply Hm|apply Hm].
  - intros b Hb. rewrite (mapped_page _ _ _ _ _ _ b Hm Hb). rewrite Z.shiftr_div_pow2 by lia.
    rewrite wrapu_small; [done|]. change (2 ^ 12) with 4096.
    pose proof (Z.div_lt_upper_bound pa 4096 (2 ^ 40)). pose proof (Z.div_pos pa 4096). lia.
  - intros b Hb. unfold translate. by rewrite (mapped_other _ _ _ _ _ _ b Hm Hb).
Qed.

(** The bits of an entry: after [SetAddress], [SetFlag] and [AddFlag] as
    [MapMemory] applies them the address reads back, the entry is present, and
    the other flags are the old ones and the new ones together; [RemoveFlags]
    clears exactly the bits given. *)
Theorem entry_fields e a Flags n : flags_ok Flags ->
  GetAddress (AddFlag (SetFlag (SetAddress e a) PT_P true) Flags) = wrapu 40 a /\
  GetFlag (AddFlag (SetFlag (SetAddress e a) PT_P true) Flags) PT_P = true /\
  (0 < n < 12 \/ 52 <= n < 64 ->
   GetFlag (AddFlag (SetFlag (SetAddress e a) PT_P true) Flags) (2 ^ n) = GetFlag Flags (2 ^ n) || GetFlag e (2 ^ n)) /\
  (0 <= n < 64 -> GetFlag (RemoveFlags e Flags) (2 ^ n) = GetFlag e (2 ^ n) && negb (GetFlag Flags (2 ^ n))).
Proof.
  intros HF. fold (link e a Flags). split_and!.
  - by apply link_address.
  - by rewrite present_bit, link_present.
  - intros Hn. unfold GetFlag. rewrite !land_pow2 by lia. by apply link_flag.
  - intros Hn. unfold GetFlag. rewrite !land_pow2 by lia. unfold RemoveFlags.
    rewrite Z.land_spec, wrapu_bits, Z.lnot_spec, bool_decide_true by lia. done.
Qed.

(** [PageMapIndexer] splits an address without loss: the four indices are in
    range and, with the offset in the page, they give back the 48 bits the
    processor translates. *)
Theorem indexer_roundtrip a : let ix := indexer a in
  (0 <= PDP_i ix < 512 /\ 0 <= PD_i ix < 512 /\ 0 <= PT_i ix < 512 /\ 0 <= P_i ix < 512) /\
  PDP_i ix * 2 ^ 39 + PD_i ix * 2 ^ 30 + PT_i ix * 2 ^ 21 + P_i ix * 2 ^ 12 + a mod 4096 = a mod 2 ^ 48.
Proof.
  cbn. rewrite !index_field_spec by lia. split; [split_and!; apply Z.mod_pos_bound; lia|].
  change (2 ^ 12) with 4096. set (d := a / 4096).
  assert (a / 2 ^ 21 = d / 512) as -> by (unfold d; by rewrite Z.div_div by lia).
  assert (a / 2 ^ 30 = d / 512 / 512) as -> by (unfold d; by rewrite !Z.div_div by lia).
  assert (a / 2 ^ 39 = d / 512 / 512 / 512) as -> by (unfold d; by rewrite !Z.div_div by lia).
  change (2 ^ 48) with (4096 * (512 * (512 * (512 * 512)))). rewrite !(Z.rem_mul_r _ _ (_ * _)) by lia.
  rewrite (Z.rem_mul_r _ 512 512) by lia. fold d. lia.
Qed.

(** [MapMemory] with an explicit top level table that has no entry for the
    address yet: the new directory is never entered in it.  The call succeeds
    and takes three pages, but no translation of that table changes. *)
Theorem explicit_table_lost PML4 v root a pa Flags : tables_ok v root -> walk (v_ram v) root (take 1 (path a)) = None ->
  (3 <= free_count (v_pfa v))%nat ->
  exists v', MapMemory PML4 v a pa Flags (root * 4096) = Ok v' /\
    (forall b, translate (v_ram v') root b = translate (v_ram v) root b) /\
    free_count (v_pfa v) = (free_count (v_pfa v') + 3)%nat.
Proof.
  intros Hok Hnone Hf. pose proof (tk_frames _ _ Hok) as Hfr. unfold MapMemory. cbv zeta.
  pose proof (path_index_ok a) as Hpath. unfold path in Hnone, Hpath. cbv zeta in Hnone, Hpath. set (ix := indexer a) in *. cbn [take] in Hnone.
  apply Forall_cons in Hpath as [H1 Hpath]. apply Forall_cons in Hpath as [H2 Hpath].
  apply Forall_cons in Hpath as [H3 Hpath]. apply Forall_cons in Hpath as [H4 _].
  pose proof (tk_table _ _ Hok [] root [] ltac:(cbn; lia) ltac:(done) eq_refl) as Hroot.
  assert (0 < root) by apply Hroot. rewrite decide_False by lia. rewrite decide_False by lia.
  destruct (get_Some v root _ Hroot H1) as [e He].
  assert (present e = false) as Hpr by (cbn [walk] in Hnone; rewrite He in Hnone; by destruct (present e)).
  destruct (make_table v Hfr ltac:(lia)) as (v1 & g1 & E & O1).
  assert (get (v_ram v1) root (PDP_i ix) = Some e) as He1.
  { unfold get in *. rewrite (or_same _ _ _ _ O1); [done|done|lia|apply Hroot]. }
  assert (next_table v (root * 4096) (PDP_i ix) Flags false = Ok (v1, g1 * 4096)) as ->.
  { unfold next_table. rewrite (read_entry_ok _ root _ e) by done. cbn [bind]. rewrite present_bit, Hpr.
    apply bind_inv in E as ([v0 a0] & -> & E). cbn [bind] in *. apply bind_inv in E as (v0' & -> & E). injection E as -> ->.
    cbn [bind]. by rewrite (read_entry_ok _ root _ e). }
  cbn [bind]. pose proof (or_free _ _ _ _ O1) as F1.
  destruct (orphan_step v1 g1 (PD_i ix) Flags) as (v2 & g2 & -> & O2); [apply O1|apply O1|by apply O1|done|lia|].
  cbn [bind]. pose proof (or_free _ _ _ _ O2) as F2.
  destruct (orphan_step v2 g2 (PT_i ix) Flags) as (v3 & g3 & -> & O3); [apply O2|apply O2|by apply O2|done|lia|].
  cbn [bind]. pose proof (or_free _ _ _ _ O3) as F3. pose proof (or_table _ _ _ _ O3) as T3. pose proof T3 as (Hg3 & _ & ws & Hws & _).
  rewrite (read_entry_ok _ g3 _ 0) by (try apply O3; (done || lia)). cbn [bind].
  rewrite (write_entry_ok _ g3 ws) by done. eexists. split; [reflexivity|]. split; [|cbn; lia].
  intros b. unfold translate. erewrite walk_ext; [reflexivity|]. intros q1 j q2 f es Eq Hw. cbn [v_ram].
  assert (length q1 <= 3)%nat as Hq1 by (apply (f_equal length) in Eq; rewrite length_app in Eq; cbn in Eq; lia).
  assert (Forall index_ok q1) as Hiq by (pose proof (path_index_ok b) as Hb; rewrite Eq in Hb; by apply Forall_app in Hb as [? _]).
  destruct (tk_table _ _ Hok q1 f es Hq1 Hiq Hw) as (Hf0 & Hu & _).
  destruct (or_marks _ _ _ _ O1) as [P1 M1]. destruct (or_marks _ _ _ _ O2) as [P2 M2].
  assert (in_use (v_pfa v1) f = true) as U1 by (by apply M1; [lia|]).
  assert (in_use (v_pfa v2) f = true) as U2 by (by apply M2; [lia|]).
  pose proof (or_new _ _ _ _ O1). pose proof (or_new _ _ _ _ O2). pose proof (or_new _ _ _ _ O3).
  unfold get. rewrite lookup_insert_ne by congruence. rewrite (or_same _ _ _ _ O3), (or_same _ _ _ _ O2), (or_same _ _ _ _ O1) by (congruence || lia).
  done.
Qed.

(** ** Witnesses *)

Lemma sample_frames : frames_ok sample_vmm.
Proof.
  split.
  - split; [split|]; cbn; try done; try lia. repeat constructor; lia.
  - intros j Hj. cbn in Hj. lia.
  - done.
  - done.
  - intros i Hi _. change (pages (v_pfa sample_vmm)) with 16 in Hi. unfold sample_vmm. cbn [v_ram].
    replace i with (Z.of_nat (Z.to_nat i)) by lia. assert (Z.to_nat i < 16)%nat as Hn by lia. revert Hn. generalize (Z.to_nat i).
    intros n Hn. do 16 (destruct n as [|n]; [vm_compute; by eexists|]). lia.
Qed.

Lemma sample_tables : tables_ok sample_vmm 2 /\ forall q, q <> [] -> Forall index_ok q -> walk (v_ram sample_vmm) 2 q = None.
Proof.
  assert (v_ram sample_vmm !! 2 = Some (replicate 512 0)) as E by (vm_compute; reflexivity).
  apply empty_root; [exact sample_frames| |].
  - split; [done|]. split; [done|]. exists (replicate 512 0). by rewrite E, length_replicate.
  - intros j Hj. unfold get. rewrite E. apply lookup_replicate_2. unfold index_ok in Hj. lia.
Qed.

Lemma MapMemory_correct_witness : exists v', MapMemory (2 * 4096) sample_vmm 0xFFFF800000005000 0x7000 PT_RW 0 = Ok v' /\
  translate (v_ram v') 2 0xFFFF800000005123 = Some (mk_tr 0x7123 true false).
Proof.
  destruct (MapMemory_correct sample_vmm 2 0xFFFF800000005000 0x7000 PT_RW) as (v' & E & _ & Ht & _).
  - apply sample_tables.
  - done.
  - lia.
  - vm_compute. lia.
  - exists v'. refine (conj E _). rewrite Ht by done.
    assert (access (v_ram sample_vmm) 2 PT_RW 1 0xFFFF800000005000 = true) as -> by (vm_compute; reflexivity).
    assert (access (v_ram sample_vmm) 2 PT_RW 2 0xFFFF800000005000 = false) as -> by (vm_compute; reflexivity). reflexivity.
Defined.

Lemma entry_fields_witness : GetAddress (AddFlag (SetFlag (SetAddress 0x5004 0x7) PT_P true) PT_RW) = 0x7 /\
  GetFlag (AddFlag (SetFlag (SetAddress 0x5004 0x7) PT_P true) PT_RW) (2 ^ 2) = true.
Proof.
  destruct (entry_fields 0x5004 0x7 PT_RW 2) as (E1 & _ & E2 & _); [done|]. split; [exact E1|]. rewrite E2 by lia. reflexivity.
Defined.

Lemma explicit_table_lost_witness : exists v', MapMemory 0x2000 sample_vmm 0x5000 0x7000 PT_RW (2 * 4096) = Ok v' /\
  translate (v_ram v') 2 0x5000 = None.
Proof.
  destruct (explicit_table_lost 0x2000 sample_vmm 2 0x5000 0x7000 PT_RW) as (v' & E & Ht & _).
  - apply sample_tables.
  - vm_compute. reflexivity.
  - vm_compute. lia.
  - exists v'. refine (conj E _). rewrite Ht. vm_compute. reflexivity.
Defined.
