(* ===== verification/AddressSpace.v ===== *)
(** * Many mappings

    What a sequence of calls of [MapMemory] does to an address space: which
    pages end up where, with which access, and how many tables are made.  The
    loops of the kernel are such sequences. *)

From S2P Require Import Prelude PageFrame PageFrameSpec PageTable PageTableSpec.

Local Open Scope Z_scope.

(** A call: the virtual address, the physical one and the flags. *)
Record request := mk_request {
  rq_virtual : Z;
  rq_physical : Z;
  rq_flags : Z
}.

Definition rq_page (r : request) : Z := page_of (rq_virtual r).
Definition rq_frame (r : request) : Z := wrapu 40 (Z.shiftr (rq_physical r) 12).

Fixpoint map_list (root : Z) (v : vmm) (l : list request) : res vmm :=
  match l with
  | [] => Ok v
  | r :: l' => let* v := MapMemory (root * 4096) v (rq_virtual r) (rq_physical r) (rq_flags r) 0 in map_list root v l'
  end.

(** The tables that are missing for a list of calls, each counted once. *)
Definition needed (m : ram) (root : Z) (l : list request) : gset (list Z) :=
  list_to_set (l ≫= fun r => absent m root (take 3 (path (rq_virtual r)))).

(** Every entry of a directory that is reached has bit [b]. *)
Definition all_grant (m : ram) (root b : Z) : Prop :=
  forall q f es, (length q <= 3)%nat -> Forall index_ok q -> walk m root q = Some (f, es) -> all_have b es = true.

Record list_mapped (root : Z) (v v' : vmm) (l : list request) : Prop := {
  lm_ok : tables_ok v' root;
  lm_marks : marks_grow (v_pfa v) (v_pfa v');
  lm_free : free_count (v_pfa v) = (free_count (v_pfa v') + size (needed (v_ram v) root l))%nat;
  lm_need : forall l2, needed (v_ram v') root l2 = needed (v_ram v) root l2 ∖ needed (v_ram v) root l;
  lm_out : forall a, page_of a ∉ (rq_page <$> l) -> walk (v_ram v') root (path a) = walk (v_ram v) root (path a);
  lm_in : forall phi, Forall (fun r => rq_frame r = phi (rq_page r)) l -> forall a, page_of a ∈ (rq_page <$> l) ->
    exists es, walk (v_ram v') root (path a) = Some (phi (page_of a), es);
  lm_keep : forall b, 0 < b < 12 -> Forall (fun r => Z.testbit (rq_flags r) b = false) l ->
    forall a, granted (v_ram v') root b a = granted (v_ram v) root b a;
  lm_grant : forall b, 0 < b < 12 -> Forall (fun r => Z.testbit (rq_flags r) b = true) l ->
    all_grant (v_ram v) root b -> all_grant (v_ram v') root b /\
      forall a, page_of a ∈ (rq_page <$> l) -> granted (v_ram v') root b a = true;
  lm_dirs : needed (v_ram v) root l = ∅ -> forall q, (length q <= 3)%nat -> Forall index_ok q ->
    walk (v_ram v') root q = walk (v_ram v) root q
}.

(** ** Prefixes *)

Lemma elem_prefixes q p : q ∈ prefixes p -> q `prefix_of` p.
Proof.
  revert q. induction p as [|i p IH]; cbn; intros q; [by rewrite elem_of_nil|]. rewrite elem_of_cons, list_elem_of_fmap.
  intros [->|(q' & -> & Hq)]; [by exists p|]. apply prefix_cons. by apply IH.
Qed.

Lemma prefixes_nil q p : q ∈ prefixes p -> q <> [].
Proof. destruct p; cbn; [by rewrite elem_of_nil|]. rewrite elem_of_cons, list_elem_of_fmap. naive_solver. Qed.

Lemma NoDup_prefixes p : NoDup (prefixes p).
Proof.
  induction p as [|i p IH]; cbn; constructor.
  - rewrite list_elem_of_fmap. intros (q & [= <-] & H). by apply prefixes_nil in H.
  - by apply NoDup_fmap; [intros ?? [=]|].
Qed.

Lemma walk_prefix m root q p f es : q `prefix_of` p -> walk m root p = Some (f, es) ->
  exists g es1 es2, walk m root q = Some (g, es1) /\ es = es1 ++ es2.
Proof.
  intros [k ->]. revert f es. induction k as [|j k IH] using rev_ind; intros f es.
  - rewrite app_nil_r. intros Hw. exists f, es, []. by rewrite app_nil_r.
  - rewrite app_assoc, walk_snoc. destruct (walk m root (q ++ k)) as [[g es']|]; [|done].
    destruct (get m g j) as [e|]; [|done]. destruct (present e); [|done]. intros [= _ <-].
    destruct (IH g es' eq_refl) as (g' & es1 & es2 & -> & ->). exists g', es1, (es2 ++ [e]). by rewrite app_assoc.
Qed.

(** The present part of a path is the walk along one of its prefixes. *)
Lemma dirs_prefix m p : forall root, exists q f, q `prefix_of` p /\ walk m root q = Some (f, dirs m root p).
Proof.
  induction p as [|i p IH]; intros root; cbn; [by exists [], root|].
  destruct (get m root i) as [e|] eqn:E; [|exists [], root; split; [by exists (i :: p)|done]].
  destruct (present e) eqn:Ep; [|exists [], root; split; [by exists (i :: p)|done]].
  destruct (IH (GetAddress e)) as (q & f & Hq & Hw). exists (i :: q), f. split; [by apply prefix_cons|].
  cbn. by rewrite E, Ep, Hw.
Qed.

Lemma path_take a : take 3 (path a) `prefix_of` path a.
Proof. exists (drop 3 (path a)). by rewrite take_drop. Qed.

Lemma prefix_index q p : q `prefix_of` p -> Forall index_ok p -> Forall index_ok q.
Proof. intros [k ->] H. by apply Forall_app in H as [? _]. Qed.

Lemma absent_spec m root a q : q ∈ absent m root (take 3 (path a)) ->
  walk m root q = None /\ q `prefix_of` path a /\ (length q <= 3)%nat /\ Forall index_ok q.
Proof.
  intros H. pose proof (absent_prefix _ _ _ _ H) as Hl. unfold absent in H. apply list_elem_of_filter in H as [Hn Hq].
  apply elem_prefixes in Hq. assert (q `prefix_of` path a) as Hp by (etrans; [exact Hq|apply path_take]).
  split_and!; [done|done|cbn in Hl; lia|]. eapply prefix_index; [exact Hp|apply path_index_ok].
Qed.

(** ** One call of the list *)

Section one.
Context (v v' : vmm) (root a fr Flags : Z).
Hypothesis (Hm : mapped v v' root a fr Flags).

Lemma one_absent q : q ∈ absent (v_ram v) root (take 3 (path a)) -> walk (v_ram v') root q <> None.
Proof.
  intros Hq. apply absent_spec in Hq as (_ & Hp & _). destruct (mp_page _ _ _ _ _ _ Hm) as (es & Hw & _).
  destruct (walk_prefix _ _ _ _ _ _ Hp Hw) as (g & es1 & es2 & -> & _). done.
Qed.

Lemma one_needed l : needed (v_ram v') root l ⊆ needed (v_ram v) root l ∖ list_to_set (absent (v_ram v) root (take 3 (path a))).
Proof.
  intros q. unfold needed. rewrite elem_of_difference, !elem_of_list_to_set, !list_elem_of_bind.
  intros (r & Hq & Hr). pose proof (absent_spec _ _ _ _ Hq) as (Hn & Hp & Hl & Hi).
  assert (q ∉ absent (v_ram v) root (take 3 (path a))) as Hna by (intros H; by apply one_absent in H).
  split; [|done]. exists r. split; [|done]. unfold absent in *. apply list_elem_of_filter in Hq as [_ Hq].
  apply list_elem_of_filter. split; [|done]. rewrite <- Hn. symmetry. apply (mp_same _ _ _ _ _ _ Hm); [lia|done| |done].
  intros ->. cbn in Hl. lia.
Qed.

Lemma one_granted b : 0 < b < 12 -> Z.testbit Flags b = false -> forall c, granted (v_ram v') root b c = granted (v_ram v) root b c.
Proof.
  intros Hb HF c. unfold granted. destruct (decide (page_of c = page_of a)) as [E|E].
  - apply path_page in E. rewrite E. destruct (mp_page _ _ _ _ _ _ Hm) as (es & -> & Hes). by rewrite Hes, HF.
  - by rewrite (mapped_other _ _ _ _ _ _ c Hm E).
Qed.

Lemma one_grant b : 0 < b < 12 -> Z.testbit Flags b = true -> all_grant (v_ram v) root b ->
  all_grant (v_ram v') root b /\ forall c, page_of c = page_of a -> granted (v_ram v') root b c = true.
Proof.
  intros Hb HF Hall. destruct (mp_page _ _ _ _ _ _ Hm) as (es' & Hw' & Hes). specialize (Hes b Hb).
  rewrite HF in Hes. assert (all_have b es' = true) as He'.
  { rewrite Hes. destruct (dirs_prefix (v_ram v) (take 3 (path a)) root) as (q' & f' & Hq' & Hwq).
    eapply Hall; [| |exact Hwq].
    - apply prefix_length in Hq'. cbn in Hq'. lia.
    - eapply prefix_index; [exact Hq'|]. eapply prefix_index; [apply path_take|apply path_index_ok]. }
  split; [|intros c Hc; apply path_page in Hc; unfold granted; by rewrite Hc, Hw'].
  intros q f es Hq Hiq Hw. destruct (decide (q ∈ absent (v_ram v) root (take 3 (path a)))) as [Hin|Hout].
  - apply absent_spec in Hin as (_ & Hk & _). destruct (walk_prefix _ _ _ _ _ _ Hk Hw') as (g & es1 & es2 & E & ->).
    rewrite Hw in E. injection E as _ <-. rewrite all_have_app in He'. by apply andb_true_iff in He' as [? _].
  - rewrite (mp_same _ _ _ _ _ _ Hm) in Hw; [by eapply Hall|lia|done|by intros ->; cbn in Hq; lia|done].
Qed.
End one.

(** ** The whole list *)

Lemma needed_cons m root r l :
  needed m root (r :: l) = list_to_set (absent m root (take 3 (path (rq_virtual r)))) ∪ needed m root l.
Proof. unfold needed. cbn. by rewrite list_to_set_app_L. Qed.

Lemma needed_app m root l l2 : needed m root (l ++ l2) = needed m root l ∪ needed m root l2.
Proof. unfold needed. by rewrite bind_app, list_to_set_app_L. Qed.

Lemma size_absent m root a :
  size (list_to_set (absent m root (take 3 (path a))) : gset (list Z)) = length (absent m root (take 3 (path a))).
Proof. apply size_list_to_set, NoDup_filter, NoDup_prefixes. Qed.

(** Exactly the missing tables are made: the set for the rest, after one call. *)
Lemma needed_after v v' root a fr Flags l : mapped v v' root a fr Flags ->
  needed (v_ram v') root l = needed (v_ram v) root l ∖ (list_to_set (absent (v_ram v) root (take 3 (path a))) : gset (list Z)).
Proof.
  intros Hm. apply leibniz_equiv. apply set_equiv_subseteq. split; [by eapply one_needed|].
  intros q. rewrite elem_of_difference. intros [Hn Hna]. unfold needed in *. rewrite elem_of_list_to_set, list_elem_of_bind in *.
  destruct Hn as (r' & Hq' & Hr'). exists r'. split; [|done]. pose proof (absent_spec _ _ _ _ Hq') as (HN & _ & Hl' & Hi').
  unfold absent in Hq' |- *. apply list_elem_of_filter in Hq' as [_ Hq']. apply list_elem_of_filter. split; [|done].
  rewrite <- HN. apply (mp_same _ _ _ _ _ _ Hm); [lia|done|by intros ->; cbn in Hl'; lia|done].
Qed.

Lemma list_mapped_nil root v : tables_ok v root -> list_mapped root v v [].
Proof.
  intros Hok. split; try done.
  - intros l2. change (needed (v_ram v) root []) with (∅ : gset (list Z)). set_solver.
  - intros phi _ a Ha. cbn in Ha. by apply elem_of_nil in Ha.
  - intros b _ _ Hall. split; [done|]. intros a Ha. cbn in Ha. by apply elem_of_nil in Ha.
Qed.

Lemma list_mapped_cons root v v1 v' r l : mapped v v1 root (rq_virtual r) (rq_frame r) (rq_flags r) ->
  list_mapped root v1 v' l -> list_mapped root v v' (r :: l).
Proof.
  intros Hm [A1 A2 A3 A4 A5 A6 A7 A8 A9]. pose proof (fun k => needed_after _ _ _ _ _ _ k Hm) as Hn.
  set (ab := list_to_set (absent (v_ram v) root (take 3 (path (rq_virtual r)))) : gset (list Z)) in Hn.
  split; [done|by transitivity (v_pfa v1); [apply Hm|]| | | | | | |].
  - rewrite (mp_free _ _ _ _ _ _ Hm), A3, needed_cons, <- size_absent. fold ab. rewrite (size_union_alt ab), Hn. lia.
  - intros l2. rewrite A4, !Hn, needed_cons. fold ab. apply leibniz_equiv. intros q.
    rewrite !elem_of_difference, elem_of_union. destruct (decide (q ∈ ab)); tauto.
  - intros a Ha. cbn in Ha. rewrite elem_of_cons in Ha. rewrite A5 by tauto. apply (mapped_other _ _ _ _ _ _ a Hm).
    intros E. apply Ha. left. exact E.
  - intros phi Hphi a Ha. apply Forall_cons in Hphi as [Hr Hphi]. destruct (decide (page_of a ∈ rq_page <$> l)) as [Hin|Hout].
    + by apply A6.
    + rewrite A5 by done. cbn in Ha. apply elem_of_cons in Ha as [Ha|?]; [|done].
      destruct (mp_page _ _ _ _ _ _ Hm) as (es & Hw & _). exists es. apply path_page in Ha as E. rewrite E, Hw.
      rewrite Hr. by rewrite Ha.
  - intros b Hb HF a. apply Forall_cons in HF as [HF HFl]. rewrite A7 by done. by eapply one_granted.
  - intros b Hb HF Hall. apply Forall_cons in HF as [HF HFl]. destruct (one_grant _ _ _ _ _ _ Hm b Hb HF Hall) as [Hall1 Hg1]. destruct (A8 b Hb HFl Hall1) as [Hall' Hg'].
    split; [done|]. intros a Ha. destruct (decide (page_of a ∈ rq_page <$> l)) as [Hin|Hout]; [by apply Hg'|].
    cbn in Ha. apply elem_of_cons in Ha as [Ha|?]; [|done]. unfold granted. rewrite A5 by done. by apply Hg1.
  - intros He q Hq Hi. rewrite needed_cons in He. fold ab in He. rewrite A9; [|rewrite Hn; set_solver|done|done].
    apply (mp_same _ _ _ _ _ _ Hm); [lia|done|by intros ->; cbn in Hq; lia|].
    intros H. assert (q ∈ ab) by (by apply elem_of_list_to_set). set_solver.
Qed.

Lemma map_list_ok root l : forall v, tables_ok v root -> Forall (fun r => flags_ok (rq_flags r)) l ->
  (size (needed (v_ram v) root l) <= free_count (v_pfa v))%nat ->
  exists v', map_list root v l = Ok v' /\ list_mapped root v v' l.
Proof.
  induction l as [|r l IH]; intros v Hok HF Hsz; [exists v; split; [done|by apply list_mapped_nil]|].
  apply Forall_cons in HF as [HF HFl]. rewrite needed_cons, size_union_alt, size_absent in Hsz.
  destruct (map_page v root (rq_virtual r) (rq_physical r) (rq_flags r) Hok HF ltac:(lia)) as (v1 & E & Hm).
  pose proof (needed_after _ _ _ _ _ _ l Hm) as Hn. pose proof (mp_free _ _ _ _ _ _ Hm) as Hfc.
  destruct (IH v1) as (v' & E' & Hl); [apply Hm|done|rewrite Hn; lia|].
  exists v'. cbn. rewrite E. cbn [bind]. split; [done|]. eapply list_mapped_cons; [exact Hm|exact Hl].
Qed.

Lemma map_list_app root l l2 : forall v, map_list root v (l ++ l2) = let* v := map_list root v l in map_list root v l2.
Proof. induction l as [|r l IH]; intros v; cbn; [done|]. by destruct MapMemory; cbn. Qed.

(** ** Pages used for other things *)

(** [f] holds one of the tables of the address space. *)
Definition is_table (v : vmm) (root f : Z) : Prop :=
  exists p es, (length p <= 3)%nat /\ Forall index_ok p /\ walk (v_ram v) root p = Some (f, es).

(** Other marks on the frames that hold no table, with memory behind those free. *)
Lemma tables_ok_marks v s' root : tables_ok v root -> frames_ok (mk_vmm (v_ram v) s') -> pages s' = pages (v_pfa v) ->
  (forall f, is_table v root f -> in_use s' f = true) -> tables_ok (mk_vmm (v_ram v) s') root.
Proof.
  intros [A1 A2 A3 A4 A5] Hfr Hp Hu. split; [done| |done|done|done]. intros p f es Hl Hi Hw.
  destruct (A2 p f es Hl Hi Hw) as (B1 & B2 & B3). split; [cbn; by rewrite Hp|]. split; [|done]. apply Hu. by exists p, es.
Qed.

Lemma request_tables v root v' a : tables_ok v root -> request_page v = Ok (v', a) ->
  tables_ok v' root /\ v_ram v' = v_ram v /\ exists i, a = i * 4096 /\ 0 < i < pages (v_pfa v) /\ in_use (v_pfa v) i = false /\
    in_use (v_pfa v') i = true /\ ~ is_table v root i /\ marks_grow (v_pfa v) (v_pfa v') /\
    free_count (v_pfa v) = S (free_count (v_pfa v')).
Proof.
  intros Hok E. pose proof (tk_frames _ _ Hok) as Hfr. destruct (decide (0 < free_count (v_pfa v))%nat) as [Hf|Hf].
  - destruct (request_frame v Hfr Hf) as (i & s' & E' & Hi & Hu & Hm & Hfc & Hfr'). rewrite E in E'. injection E' as -> ->.
    cbn. split_and!; [|done|].
    + apply tables_ok_marks; [done|done|apply Hm|]. intros f (p & es & Hl & Hix & Hw).
      destruct (tk_table _ _ Hok p f es Hl Hix Hw) as (B1 & B2 & _). apply (marked_grow _ _ _ _ Hm); [lia|done].
    + exists i. split_and!; try done; try lia.
      * rewrite (mk_bits _ _ _ _ _ Hm), decide_True by lia. done.
      * intros (p & es & Hl & Hix & Hw). destruct (tk_table _ _ Hok p i es Hl Hix Hw) as (_ & B2 & _). congruence.
      * by eapply marked_grow.
  - exfalso. unfold request_page in E. destruct (RequestPage_spec _ (fk_pfa _ Hfr) (fk_hint _ Hfr)) as [(g & s' & E' & Hg & Hu & _)|[_ E']].
    + apply Hf. assert (g ∈ free_pages (v_pfa v)) as Hin by (by apply elem_free). unfold free_count.
      destruct (free_pages (v_pfa v)); [by apply elem_of_nil in Hin|cbn; lia].
    + by rewrite E' in E.
Qed.

Lemma free_tables v root i s' : tables_ok v root -> 0 < i < pages (v_pfa v) -> ~ is_table v root i -> is_Some (v_ram v !! i) ->
  FreePage (v_pfa v) (i * 4096) = Ok s' ->
  tables_ok (mk_vmm (v_ram v) s') root /\ in_use s' i = false /\ pages s' = pages (v_pfa v) /\
    (forall j, 0 <= j < pages (v_pfa v) -> j <> i -> in_use s' j = in_use (v_pfa v) j).
Proof.
  intros Hok Hi Hnt Hram E. pose proof (tk_frames _ _ Hok) as [F1 F2 F3 F4 F5].
  destruct (FreePage_ok _ i F1 ltac:(lia)) as (s1 & E1 & Hm & Hx). rewrite E in E1. injection E1 as <-.
  pose proof (mk_pages _ _ _ _ _ Hm) as Hp. pose proof (mk_bits _ _ _ _ _ Hm) as Hb.
  assert (hint_kept (v_pfa v) s') as [_ Hh].
  { eapply freed_hint; [done|exact Hm| |lia]. destruct (in_use (v_pfa v) i); [by left|by right]. }
  split_and!; [|rewrite Hb, decide_True by lia; done|done|].
  - apply tables_ok_marks; [done| |done|].
    + split; cbn; [apply Hm|by apply Hh|by rewrite Hp|rewrite Hb, decide_False by lia; done|].
      intros j Hj Hu. rewrite Hp in Hj. rewrite Hb in Hu by done. destruct (decide (j = i)) as [->|]; [done|].
      rewrite decide_False in Hu by lia. by apply F5.
    + intros f Hf. pose proof Hf as (p & es & Hl & Hix & Hw). destruct (tk_table _ _ Hok p f es Hl Hix Hw) as (B1 & B2 & _).
      rewrite Hb by lia. rewrite decide_False; [done|]. intros ?. apply Hnt. assert (i = f) as -> by lia. done.
  - intros j Hj Hne. rewrite Hb, decide_False by lia. done.
Qed.

(** ** Refinement *)

(** An address space is a map from pages to frames.  Calls that map a page
    write to it; pages are requested and those that hold no table are freed. *)
Inductive space_step (root : Z) : vmm * gmap Z Z -> vmm * gmap Z Z -> Prop :=
| step_map v v' A a pa Flags : flags_ok Flags -> (new_tables (v_ram v) root a <= free_count (v_pfa v))%nat ->
    MapMemory (root * 4096) v a pa Flags 0 = Ok v' ->
    space_step root (v, A) (v', <[page_of a := wrapu 40 (Z.shiftr pa 12)]> A)
| step_unmap v v' A a : UnmapMemory (root * 4096) v a 0 = Ok v' -> space_step root (v, A) (v', A)
| step_request v v' A a : request_page v = Ok (v', a) -> space_step root (v, A) (v', A)
| step_free v A i s' : 0 < i < pages (v_pfa v) -> ~ is_table v root i -> is_Some (v_ram v !! i) ->
    FreePage (v_pfa v) (i * 4096) = Ok s' -> space_step root (v, A) (mk_vmm (v_ram v) s', A).

Definition describes (root : Z) (v : vmm) (A : gmap Z Z) : Prop :=
  tables_ok v root /\ forall a, fst <$> walk (v_ram v) root (path a) = A !! page_of a.

Lemma space_step_ok root x y : space_step root x y -> describes root x.1 x.2 -> describes root y.1 y.2.
Proof.
  intros Hst [Hok HA]. destruct Hst as [v v' A a pa Flags HF Hn E|v v' A a E|v v' A a E|v A i s' Hi Hnt Hram E]; cbn in *.
  - destruct (map_page v root a pa Flags Hok HF Hn) as (v1 & E1 & Hm). rewrite E in E1. injection E1 as <-.
    split; [apply Hm|]. intros b. destruct (decide (page_of b = page_of a)) as [Hb|Hb].
    + rewrite Hb, lookup_insert_eq. apply path_page in Hb. rewrite Hb. destruct (mp_page _ _ _ _ _ _ Hm) as (es & -> & _). done.
    + rewrite lookup_insert_ne by done. rewrite (mapped_other _ _ _ _ _ _ b Hm Hb). apply HA.
  - unfold UnmapMemory in E. rewrite decide_True in E by done. apply bind_inv in E as (? & _ & E). injection E as <-. done.
  - destruct (request_tables v root v' a Hok E) as (Hok' & Er & _). split; [done|]. by rewrite Er.
  - destruct (free_tables v root i s' Hok Hi Hnt Hram E) as (Hok' & _). by split.
Qed.

(** C3 However pages are mapped, unmapped, requested and freed (tables are not
    freed by hand), the tables stay a tree of distinct used frames, and every
    address translates to what was last mapped for its page: the tables refine
    a finite map, and [UnmapMemory] removes nothing from it. *)
Theorem address_space_refined root v A v' A' : describes root v A -> rtc (space_step root) (v, A) (v', A') ->
  tables_ok v' root /\ forall a, tr_address <$> translate (v_ram v') root a = (fun f => f * 4096 + a mod 4096) <$> (A' !! page_of a).
Proof.
  intros HA Hr. assert (describes root v' A') as [Hok HA'].
  { change (describes root (v', A').1 (v', A').2). revert HA. change (describes root v A) with (describes root (v, A).1 (v, A).2).
    induction Hr as [|x y z Hst _ IH]; [done|]. intros HA. apply IH. by eapply space_step_ok. }
  split; [done|]. intros a. rewrite <- HA'. unfold translate. by destruct (walk (v_ram v') root (path a)) as [[f es]|].
Qed.

(** ** Witness *)

Lemma sample_describes : describes 2 sample_vmm ∅.
Proof.
  destruct sample_tables as [Hok Hnone]. split; [done|]. intros a. rewrite Hnone by (done || apply path_index_ok). by rewrite lookup_empty.
Qed.

Lemma address_space_refined_witness : exists v', MapMemory (2 * 4096) sample_vmm 0x5000 0x7000 PT_RW 0 = Ok v' /\
  tr_address <$> translate (v_ram v') 2 0x5123 = Some 0x7123.
Proof.
  destruct (map_page sample_vmm 2 0x5000 0x7000 PT_RW) as (v' & E & _); [apply sample_tables|done|vm_compute; lia|].
  exists v'. refine (conj E _). destruct (address_space_refined 2 sample_vmm ∅ v' (<[page_of 0x5000 := wrapu 40 (Z.shiftr 0x7000 12)]> ∅)) as [_ Ht].
  - exact sample_describes.
  - apply rtc_once. refine (step_map 2 sample_vmm v' ∅ 0x5000 0x7000 PT_RW _ _ E); clear E; [done|vm_compute; lia].
  - rewrite Ht. reflexivity.
Defined.
