(* ===== verification/SegmentHeap.v ===== *)
(** * The two heaps of segments

    src/kernel/mem/defaultalloc/defaultalloc.cpp and
    src/kernel/mem/xalloc/Xalloc.cpp, the heaps the kernel can select instead of
    liballoc: a range of addresses is cut into segments, each with a header that
    is in a doubly linked list.  A pointer is its address and 0 is the null pointer;
    headers are in a map, the other bytes in another, and what overwrites the
    one is lost from the other.  A header at address 0 is there when the page
    at 0 is mapped. *)

From stdpp Require Import gmap.
From S2P Require Import Prelude PageFrame PageTable.

Local Open Scope Z_scope.

(** ** Data *)

Record HeapSegHdr := mk_seg { Length : Z; Next : Z; Last : Z; IsFree : bool }.

Definition set_Length x (s : HeapSegHdr) := mk_seg x (Next s) (Last s) (IsFree s).
Definition set_Next x (s : HeapSegHdr) := mk_seg (Length s) x (Last s) (IsFree s).
Definition set_Last x (s : HeapSegHdr) := mk_seg (Length s) (Next s) x (IsFree s).
Definition set_IsFree x (s : HeapSegHdr) := mk_seg (Length s) (Next s) (Last s) x.

Definition sizeof_HeapSegHdr : Z := 32.

(** What the heaps ask of the memory manager: a new page at an address. *)
Class HeapPages (P : Type) := { map_page : P -> Z -> res P }.

(** In the kernel, a page of the allocator mapped by the page tables at [PML4]. *)
Definition kernel_page (PML4 : Z) : HeapPages vmm := {|
  map_page v Position :=
    let* '(p, Page) := RequestPage (v_pfa v) in
    MapMemory PML4 (mk_vmm (v_ram v) p) Position Page PT_RW 0
|}.

Section heap.
Context {P : Type} `{HeapPages P}.

(** The globals, [LastHdr] being [LastSegment] of Xalloc, and the memory. *)
Record sheap := mk_sheap {
  sh_pages : P;
  HeapStart : Z;
  HeapEnd : Z;
  LastHdr : Z;
  segs : gmap Z HeapSegHdr;
  data : gmap Z Z
}.

Definition set_HeapEnd (h : sheap) x := mk_sheap (sh_pages h) (HeapStart h) x (LastHdr h) (segs h) (data h).
Definition set_LastHdr (h : sheap) x := mk_sheap (sh_pages h) (HeapStart h) (HeapEnd h) x (segs h) (data h).
Definition set_segs (h : sheap) x := mk_sheap (sh_pages h) (HeapStart h) (HeapEnd h) (LastHdr h) x (data h).
Definition set_pages (h : sheap) x := mk_sheap x (HeapStart h) (HeapEnd h) (LastHdr h) (segs h) (data h).

(** ** Memory accesses *)

Definition get_seg (h : sheap) (a : Z) : res HeapSegHdr :=
  match segs h !! a with
  | Some s => Ok s
  | None => Err (if decide (a = 0) then NullDeref else Undefined)
  end.

Definition mod_seg (h : sheap) (a : Z) (f : HeapSegHdr -> HeapSegHdr) : res sheap :=
  let* s := get_seg h a in Ok (set_segs h (<[a := f s]> (segs h))).

(** The bytes from [a] to [a + n - 1] are in the heap. *)
Definition in_heap (h : sheap) (a n : Z) : bool := bool_decide (HeapStart h <= a /\ a + n <= HeapEnd h).

(** Headers that have none of these bytes. *)
Definition segs_outside (h : sheap) (a n : Z) : gmap Z HeapSegHdr :=
  filter (fun kv => kv.1 + sizeof_HeapSegHdr <= a \/ a + n <= kv.1) (segs h).

(** All members of a header stored at [a]. *)
Definition put_seg (h : sheap) (a : Z) (s : HeapSegHdr) : res sheap :=
  if in_heap h a sizeof_HeapSegHdr then
    Ok (mk_sheap (sh_pages h) (HeapStart h) (HeapEnd h) (LastHdr h) (<[a := s]> (segs_outside h a sizeof_HeapSegHdr))
          (filter (fun kv => kv.1 < a \/ a + sizeof_HeapSegHdr <= kv.1) (data h)))
  else Err OutOfBounds.

(** [memset(a, v, n)] and [memcpy(dst, src, n)]; what was never written is
    copied as such. *)
Definition fill (h : sheap) (a v n : Z) : res sheap :=
  if decide (n <= 0) then Ok h
  else if in_heap h a n then
    Ok (mk_sheap (sh_pages h) (HeapStart h) (HeapEnd h) (LastHdr h) (segs_outside h a n)
          (foldr (fun k m => <[k := u8 v]> m) (data h) (seqZ a n)))
  else Err (if decide (a = 0) then NullDeref else OutOfBounds).

Definition copy (h : sheap) (dst src n : Z) : res sheap :=
  if decide (n <= 0) then Ok h
  else if in_heap h dst n && in_heap h src n then
    Ok (mk_sheap (sh_pages h) (HeapStart h) (HeapEnd h) (LastHdr h) (segs_outside h dst n)
          (foldr (fun k m => partial_alter (fun _ => data h !! (k - dst + src)) k m) (data h) (seqZ dst n)))
  else Err (if decide (dst = 0 \/ src = 0) then NullDeref else OutOfBounds).

(** ** Segments *)

(** [HeapSegHdr::Split] for the segment at [this]. *)
Definition Split (h : sheap) (this SplitLength : Z) : res (sheap * Z) :=
  if decide (SplitLength < 0x10) then Ok (h, 0)
  else
    let* s := get_seg h this in
    let SplitSegmentLength := s64 (Length s - SplitLength - sizeof_HeapSegHdr) in
    if decide (SplitSegmentLength < 0x10) then Ok (h, 0)
    else
      let NewSplitHdr := u64 (this + SplitLength + sizeof_HeapSegHdr) in
      let* h := mod_seg h (Next s) (set_Last NewSplitHdr) in
      let* s := get_seg h this in
      let* h := mod_seg h this (set_Next NewSplitHdr) in
      let* h := put_seg h NewSplitHdr (mk_seg (u64 SplitSegmentLength) (Next s) this (IsFree s)) in
      let* h := mod_seg h this (set_Length SplitLength) in
      Ok (if decide (LastHdr h = this) then set_LastHdr h NewSplitHdr else h, NewSplitHdr).

(** [HeapSegHdr::CombineForward] *)
Definition CombineForward (h : sheap) (this : Z) : res sheap :=
  let* s := get_seg h this in
  if decide (Next s = 0) then Ok h
  else
    let* n := get_seg h (Next s) in
    if IsFree n then
      let h := if decide (Next s = LastHdr h) then set_LastHdr h this else h in
      let* h := if decide (Next n = 0) then Ok h else mod_seg h (Next n) (set_Last this) in
      let* h := mod_seg h this (set_Length (u64 (Length s + Length n + sizeof_HeapSegHdr))) in
      mod_seg h this (set_Next (Next n))
    else Ok h.

(** [HeapSegHdr::CombineBackward] *)
Definition CombineBackward (h : sheap) (this : Z) : res sheap :=
  let* s := get_seg h this in
  if decide (Last s = 0) then Ok h
  else
    let* l := get_seg h (Last s) in
    if IsFree l then CombineForward h (Last s) else Ok h.

(** ** Growth *)

(** [n] pages from [a] on. *)
Fixpoint map_pages (p : P) (a : Z) (n : nat) : res P :=
  match n with
  | O => Ok p
  | S n => let* p := map_page p a in map_pages p (u64 (a + PAGE_SIZE)) n
  end.

(** [InitHeap], at an address other than 0; [zero] are the headers at 0. *)
Definition InitHeap (p : P) (zero : gmap Z HeapSegHdr) (HeapAddress PageCount : Z) : res sheap :=
  let* p := map_pages p HeapAddress (Z.to_nat PageCount) in
  let HeapLength := u64 (PageCount * PAGE_SIZE) in
  let h := mk_sheap p HeapAddress (u64 (HeapAddress + HeapLength)) HeapAddress zero ∅ in
  put_seg h HeapAddress (mk_seg (u64 (HeapLength - sizeof_HeapSegHdr)) 0 0 true).

Definition round_up (Length : Z) : Z :=
  if decide (Length mod PAGE_SIZE <> 0) then u64 (Length - Length mod PAGE_SIZE + PAGE_SIZE) else Length.

Definition ExpandHeap (h : sheap) (Length : Z) : res sheap :=
  let Length := round_up Length in
  let PageCount := Length / PAGE_SIZE in
  let NewSegment := HeapEnd h in
  let* p := map_pages (sh_pages h) (HeapEnd h) (Z.to_nat PageCount) in
  let h := set_HeapEnd (set_pages h p) (u64 (HeapEnd h + PageCount * PAGE_SIZE)) in
  let* h := put_seg h NewSegment (mk_seg (u64 (Length - sizeof_HeapSegHdr)) 0 (LastHdr h) true) in
  let* h := mod_seg h (LastHdr h) (set_Next NewSegment) in
  let h := set_LastHdr h NewSegment in
  CombineBackward h NewSegment.

(** ** The functions of the default heap *)

Definition defkfree (h : sheap) (Address : Z) : res sheap :=
  if decide (HeapStart h = 0) then Ok h
  else
    let Segment := u64 (Address - sizeof_HeapSegHdr) in
    let* h := mod_seg h Segment (set_IsFree true) in
    let* h := CombineForward h Segment in
    CombineBackward h Segment.

(** The size that is looked for. *)
Definition rounded (Size : Z) : Z :=
  let Size := if decide (Size < 0x10) then 0x10 else Size in
  if decide (0 < Size mod 0x10) then u64 (Size - Size mod 0x10 + 0x10) else Size.

(** The loop over the segments: the pointer, or [None] behind the last one. *)
Fixpoint find_segment (split : sheap -> Z -> Z -> res (sheap * Z)) (h : sheap) (CurrentSegment Size : Z) (fuel : nat)
    : res (option (sheap * Z)) :=
  match fuel with
  | O => Err OutOfFuel
  | S fuel =>
      let* s := get_seg h CurrentSegment in
      if IsFree s && bool_decide (Size < Length s) then
        let* '(h, _) := split h CurrentSegment Size in
        let* h := mod_seg h CurrentSegment (set_IsFree false) in
        Ok (Some (h, u64 (CurrentSegment + sizeof_HeapSegHdr)))
      else if IsFree s && bool_decide (Length s = Size) then
        let* h := mod_seg h CurrentSegment (set_IsFree false) in
        Ok (Some (h, u64 (CurrentSegment + sizeof_HeapSegHdr)))
      else if decide (Next s = 0) then Ok None
      else find_segment split h (Next s) Size fuel
  end.

(** A walk meets every header at most once. *)
Definition walk_fuel (h : sheap) : nat := S (size (segs h)).

(** [malloc], which calls itself after the heap has grown; [tries] bounds this. *)
Fixpoint defkmalloc (h : sheap) (Size : Z) (tries : nat) : res (sheap * Z) :=
  if decide (HeapStart h = 0) then Ok (h, 0)
  else
    let Size := rounded Size in
    if decide (Size = 0) then Ok (h, 0)
    else
      let* r := find_segment Split h (HeapStart h) Size (walk_fuel h) in
      match r with
      | Some r => Ok r
      | None =>
          match tries with
          | O => Err OutOfFuel
          | S tries => let* h := ExpandHeap h Size in defkmalloc h Size tries
          end
      end.

(** Growing twice is always enough. *)
Definition malloc_tries : nat := 2.

Definition defkcalloc (h : sheap) (n Size : Z) : res (sheap * Z) :=
  if decide (HeapStart h = 0) then Ok (h, 0)
  else
    let Size := if decide (Size < 0x10) then 0x10 else Size in
    let* '(h, Block) := defkmalloc h (u64 (n * Size)) malloc_tries in
    let* h := if decide (Block = 0) then Ok h else fill h Block 0 (u64 (n * Size)) in
    Ok (h, Block).

Definition defkrealloc (h : sheap) (Address Size : Z) : res (sheap * Z) :=
  if decide (HeapStart h = 0) then Ok (h, 0)
  else if decide (Address = 0 /\ Size = 0) then let* h := defkfree h Address in Ok (h, 0)
  else if decide (Address = 0) then defkcalloc h Size 1
  else
    let Size := if decide (Size < 0x10) then 0x10 else Size in
    let* '(h, newAddress) := defkcalloc h Size 1 in
    let* h := copy h newAddress Address Size in
    Ok (h, newAddress).

(** ** Xalloc *)

(** The members of Xalloc's segments get [LastSegment] by value: what they
    assign to it is gone when they return. *)
Definition X_Split (h : sheap) (this SplitLength : Z) : res (sheap * Z) :=
  let* '(h', r) := Split h this SplitLength in Ok (set_LastHdr h' (LastHdr h), r).
Definition X_CombineForward (h : sheap) (this : Z) : res sheap :=
  let* h' := CombineForward h this in Ok (set_LastHdr h' (LastHdr h)).
Definition X_CombineBackward (h : sheap) (this : Z) : res sheap :=
  let* h' := CombineBackward h this in Ok (set_LastHdr h' (LastHdr h)).

(** The constructor maps 32 pages, of which the first 16 are the heap. *)
Definition AllocatorV1 (p : P) (zero : gmap Z HeapSegHdr) (Address : Z) : res sheap :=
  let* p := map_pages p Address 0x20 in
  let HeapLength := 16 * PAGE_SIZE in
  let h := mk_sheap p Address (u64 (Address + HeapLength)) Address zero ∅ in
  put_seg h Address (mk_seg (HeapLength - sizeof_HeapSegHdr) 0 0 true).

Definition X_ExpandHeap (h : sheap) (Length : Z) : res sheap :=
  let Length := round_up Length in
  let PageCount := Length / PAGE_SIZE in
  let NewSegment := HeapEnd h in
  let* p := map_pages (sh_pages h) (HeapEnd h) (Z.to_nat PageCount) in
  let h := set_HeapEnd (set_pages h p) (u64 (HeapEnd h + PageCount * PAGE_SIZE)) in
  let* h := put_seg h NewSegment (mk_seg (u64 (Length - sizeof_HeapSegHdr)) 0 (LastHdr h) true) in
  let* h := mod_seg h (LastHdr h) (set_Next NewSegment) in
  let h := set_LastHdr h NewSegment in
  X_CombineBackward h NewSegment.

Fixpoint X_Malloc (h : sheap) (Size : Z) (tries : nat) : res (sheap * Z) :=
  if decide (HeapStart h = 0) then Ok (h, 0)
  else
    let Size := rounded Size in
    if decide (Size = 0) then Ok (h, 0)
    else
      let* r := find_segment X_Split h (HeapStart h) Size (walk_fuel h) in
      match r with
      | Some r => Ok r
      | None =>
          match tries with
          | O => Err OutOfFuel
          | S tries => let* h := X_ExpandHeap h Size in X_Malloc h Size tries
          end
      end.

Definition X_Free (h : sheap) (Address : Z) : res sheap :=
  if decide (HeapStart h = 0) then Ok h
  else
    let Segment := u64 (Address - sizeof_HeapSegHdr) in
    let* h := mod_seg h Segment (set_IsFree true) in
    let* h := X_CombineForward h Segment in
    X_CombineBackward h Segment.

Definition X_Calloc (h : sheap) (NumberOfBlocks Size : Z) : res (sheap * Z) :=
  if decide (HeapStart h = 0) then Ok (h, 0)
  else
    let Size := if decide (Size < 0x10) then 0x10 else Size in
    let* '(h, Block) := X_Malloc h (u64 (NumberOfBlocks * Size)) malloc_tries in
    let* h := if decide (Block = 0) then Ok h else fill h Block 0 (u64 (NumberOfBlocks * Size)) in
    Ok (h, Block).

Definition X_Realloc (h : sheap) (Address Size : Z) : res (sheap * Z) :=
  if decide (HeapStart h = 0) then Ok (h, 0)
  else if decide (Address = 0 /\ Size = 0) then let* h := X_Free h Address in Ok (h, 0)
  else if decide (Address = 0) then X_Calloc h Size 1
  else
    let Size := if decide (Size < 0x10) then 0x10 else Size in
    let* '(h, newAddress) := X_Calloc h Size 1 in
    let* h := copy h newAddress Address Size in
    Ok (h, newAddress).
End heap.
