(* ===== verification/SegmentHeapSpec.v ===== *)
(** * The heaps of segments as lists of segments

    The default heap is a list of segments, allocation is first fit in it and
    release joins neighbours, as long as page 0 is mapped; without it the
    first allocation writes through null.  Xalloc loses the end of its list. *)

From stdpp Require Import gmap.
From S2P Require Import Prelude PageFrame PageTable SegmentHeap.

Local Open Scope Z_scope.

(** ** Segments in a list *)

(** Length and whether the segment is free. *)
Local Notation segment := (Z * bool)%type.

(** The address behind the segments, and the header of the last one. *)
Fixpoint end_of (a : Z) (l : list segment) : Z :=
  match l with [] => a | s :: r => end_of (a + 32 + fst s) r end.
Fixpoint last_at (p a : Z) (l : list segment) : Z :=
  match l with [] => p | s :: r => last_at a (a + 32 + fst s) r end.

(** The headers of the segments, linked to [p] before and [q] behind them. *)
Fixpoint linked (m : gmap Z HeapSegHdr) (p a : Z) (l : list segment) (q : Z) : Prop :=
  match l with
  | [] => True
  | s :: r =>
      m !! a = Some (mk_seg (fst s) (match r with [] => q | _ => a + 32 + fst s end) p (snd s)) /\
      linked m a (a + 32 + fst s) r q
  end.

Definition seg_ok (s : segment) : Prop := 16 <= fst s /\ (16 | fst s).

(** No two neighbours are free. *)
Fixpoint joined (l : list segment) : Prop :=
  match l with
  | s :: (t :: _) as r => (snd s = true -> snd t = false) /\ joined r
  | _ => True
  end.

(** What a next pointer is in front of [l], which starts at [a]. *)
Definition behind (a : Z) (l : list segment) : Z := match l with [] => 0 | _ => a end.

Lemma end_of_app a l1 l2 : end_of a (l1 ++ l2) = end_of (end_of a l1) l2.
Proof. revert a. induction l1; intros; [done|]. apply IHl1. Qed.

Lemma last_at_app p a l1 l2 : last_at p a (l1 ++ l2) = last_at (last_at p a l1) (end_of a l1) l2.
Proof. revert p a. induction l1; intros; [done|]. apply IHl1. Qed.

Lemma end_of_ge a l : Forall seg_ok l -> a <= end_of a l.
Proof. intros H. revert a. induction H as [|s l [H1 _] _ IH]; intros a; cbn; [lia|]. specialize (IH (a + 32 + fst s)). lia. Qed.

Lemma last_at_range p a l : Forall seg_ok l -> l <> [] -> a <= last_at p a l /\ last_at p a l + 48 <= end_of a l.
Proof.
  intros H. revert p a. induction H as [|s l [H1 _] Hl IH]; intros p a Hne; [done|]. cbn [last_at end_of].
  destruct l as [|t l]; [cbn; lia|]. destruct (IH a (a + 32 + fst s)); [done|]. lia.
Qed.

Lemma linked_app m p a l1 l2 q :
  linked m p a (l1 ++ l2) q <->
  linked m p a l1 (match l2 with [] => q | _ => end_of a l1 end) /\ linked m (last_at p a l1) (end_of a l1) l2 q.
Proof.
  revert p a. induction l1 as [|s l1 IH]; intros p a; cbn [app linked last_at end_of]; [tauto|].
  rewrite IH. destruct l1 as [|t l1]; cbn [app]; [|tauto]. destruct l2; cbn [app end_of]; tauto.
Qed.

(** What is outside the segments does not matter. *)
Lemma linked_frame m m' p a l q : Forall seg_ok l -> (forall k, a <= k < end_of a l -> m' !! k = m !! k) -> linked m p a l q -> linked m' p a l q.
Proof.
  intros H. revert p a. induction H as [|s l [H1 _] Hl IH]; intros p a Hm; cbn [linked]; [done|]. cbn [end_of] in Hm.
  pose proof (end_of_ge (a + 32 + fst s) l Hl). intros [E Hr]. split; [by rewrite Hm by lia|]. apply IH; [|done]. intros k Hk. apply Hm. lia.
Qed.

(** The segments [mid] replaced by [mid'] in the same place: what is outside
    stays, but for the link back to them. *)
Lemma relink m m' a l1 mid mid' l2 : let b := end_of a l1 in let e := end_of b mid in
  Forall seg_ok (l1 ++ mid ++ l2) -> mid <> [] -> mid' <> [] -> end_of b mid' = e ->
  linked m 0 a (l1 ++ mid ++ l2) 0 ->
  linked m' (last_at 0 a l1) b mid' (behind e l2) ->
  (forall k, a <= k -> ~ (b <= k < e) -> (l2 <> [] -> k <> e) -> m' !! k = m !! k) ->
  (l2 <> [] -> m' !! e = set_Last (last_at 0 b mid') <$> m !! e) ->
  linked m' 0 a (l1 ++ mid' ++ l2) 0.
Proof.
  intros b e Hs Hmid Hmid' He Hl Hl' Hout Hback. apply Forall_app in Hs as [H1 [H2 H3]%Forall_app].
  apply linked_app in Hl as [L1 L2]. apply linked_app in L2 as [L2 L3]. fold b e in L2, L3.
  pose proof (end_of_ge a l1 H1) as G1. fold b in G1. pose proof (end_of_ge b mid H2) as G2. fold e in G2.
  apply linked_app. fold b. split.
  - assert (linked m 0 a l1 b) as L1' by (by destruct mid). assert (linked m' 0 a l1 b) as L; [|by destruct mid'].
    revert L1'. apply linked_frame; [done|]. intros k Hk. apply Hout; fold b in Hk; lia.
  - apply linked_app. rewrite He. split; [exact Hl'|].
    assert (forall x y, last_at x b mid' = last_at y b mid') as Hlast by (by destruct mid').
    destruct l2 as [|t l2]; [done|]. cbn [linked] in L3 |- *. destruct L3 as [E L3]. split.
    + rewrite Hback, E by done. cbn. f_equal. unfold set_Last. cbn. f_equal. apply Hlast.
    + apply Forall_cons in H3 as [[Ht _] H3]. revert L3. apply linked_frame; [done|]. intros k Hk. apply Hout; [lia|lia|]. intros _. lia.
Qed.

(** Where the headers are. *)
Fixpoint heads (a : Z) (l : list segment) : list Z :=
  match l with [] => [] | s :: r => a :: heads (a + 32 + fst s) r end.

Lemma linked_heads m m' p a l q : (forall k, k ∈ heads a l -> m' !! k = m !! k) -> linked m p a l q -> linked m' p a l q.
Proof.
  revert p a. induction l as [|s l IH]; intros p a Hm; [done|]. cbn [linked heads] in *. intros [E Hl].
  split; [by rewrite Hm by left|]. apply IH; [|done]. intros k Hk. apply Hm. by right.
Qed.

Lemma heads_range a l k : Forall seg_ok l -> k ∈ heads a l -> a <= k /\ k + 48 <= end_of a l.
Proof.
  intros Hl. revert a. induction Hl as [|s l [Hs _] Hl IH]; intros a; cbn [heads end_of]; [by intros ?%elem_of_nil|].
  pose proof (end_of_ge (a + 32 + fst s) l Hl). intros [->|Hk%IH]%elem_of_cons; lia.
Qed.

(** ** Segments in use *)

(** Pointer and length of each. *)
Fixpoint used (a : Z) (l : list segment) : list (Z * Z) :=
  match l with
  | [] => []
  | (n, f) :: r => (if f : bool then id else cons (a + 32, n)) (used (a + 32 + n) r)
  end.

Lemma used_segments_app a l1 l2 : used a (l1 ++ l2) = used a l1 ++ used (end_of a l1) l2.
Proof. revert a. induction l1 as [|[n []] l1 IH]; intros a; cbn; [done|apply IH|by rewrite IH]. Qed.

Lemma used_range a l p n : Forall seg_ok l -> (p, n) ∈ used a l -> a + 32 <= p /\ p + n <= end_of a l /\ 16 <= n.
Proof.
  intros Hl. revert a. induction Hl as [|[m f] l [Hm _] Hl IH]; intros a; cbn; [by intros ?%elem_of_nil|]. cbn in Hm.
  destruct f; cbn.
  - intros H%IH. lia.
  - intros [[= -> ->]|H%IH]%elem_of_cons; [|lia]. pose proof (end_of_ge (a + 32 + m) l Hl). lia.
Qed.

Lemma used_split a l p n : (p, n) ∈ used a l -> exists l1 l2, l = l1 ++ (n, false) :: l2 /\ p = end_of a l1 + 32.
Proof.
  revert a. induction l as [|[m f] l IH]; intros a; cbn; [by intros ?%elem_of_nil|]. destruct f; cbn.
  - intros (l1 & l2 & -> & ->)%IH. by exists ((m, true) :: l1), l2.
  - intros [[= -> ->]|(l1 & l2 & -> & ->)%IH]%elem_of_cons; [by exists [], l|by exists ((m, false) :: l1), l2].
Qed.

Lemma used_aligned a l p n : Forall seg_ok l -> (16 | a) -> (p, n) ∈ used a l -> (16 | p).
Proof.
  intros Hl. revert a. induction Hl as [|[m f] l [_ Hm] _ IH]; intros a Ha; cbn; [by intros ?%elem_of_nil|]. cbn in Hm.
  assert (16 | a + 32) as H32 by (apply Z.divide_add_r; [done|by exists 2]).
  destruct f; cbn; [|intros [[= -> ->]|Hin]%elem_of_cons; [done|revert Hin]]; apply IH, Z.divide_add_r; done.
Qed.

(** Two ranges with a header between them. *)
Definition apart (x y : Z * Z) : Prop := fst x + snd x + 32 <= fst y \/ fst y + snd y + 32 <= fst x.

Fixpoint pairwise {A} (R : A -> A -> Prop) (l : list A) : Prop :=
  match l with [] => True | x :: r => Forall (R x) r /\ pairwise R r end.

Lemma pairwise_perm {A} (R : A -> A -> Prop) l l' : (forall x y, R x y -> R y x) -> l ≡ₚ l' -> pairwise R l -> pairwise R l'.
Proof.
  intros HR. induction 1 as [|x l l' Hp IH|x y l|l1 l2 l3 _ IH1 _ IH2]; cbn; [done| | |by auto].
  - intros [H1 H2]. split; [by rewrite <- Hp|by apply IH].
  - intros [[H1 H2]%Forall_cons [H3 H4]]. split; [constructor; [by apply HR|done]|done].
Qed.

Lemma used_apart a l : Forall seg_ok l -> pairwise apart (used a l).
Proof.
  intros Hl. revert a. induction Hl as [|[m f] l Hm Hl IH]; intros a; cbn; [done|]. destruct f; cbn; [apply IH|]. split; [|apply IH].
  apply Forall_forall. intros [p n] Hin. apply used_range in Hin; [|done]. left. cbn. lia.
Qed.

Lemma used_heads a l p n k : Forall seg_ok l -> (p, n) ∈ used a l -> k ∈ heads a l -> k + 32 <= p \/ p + n <= k.
Proof.
  intros Hl. revert a. induction Hl as [|[m f] l [Hm _] Hl IH]; intros a; cbn [used heads fst] in *; [by intros ?%elem_of_nil|].
  intros Hp [->|Hk]%elem_of_cons.
  - destruct f; cbn [id] in Hp; [apply used_range in Hp; [|done]; lia|]. apply elem_of_cons in Hp as [[= -> ->]|Hp]; [lia|]. apply used_range in Hp; [lia|done].
  - destruct f; cbn [id] in Hp; [by apply (IH (a + 32 + m))|]. apply elem_of_cons in Hp as [[= -> ->]|Hp]; [|by apply (IH (a + 32 + m))].
    apply heads_range in Hk; [lia|done].
Qed.

(** ** Neighbours *)

Lemma joined_app l1 s l2 : joined (l1 ++ s :: l2) <-> joined (l1 ++ [s]) /\ joined (s :: l2).
Proof.
  induction l1 as [|t l1 IH]; cbn [app]; [cbn; tauto|]. destruct l1 as [|u l1]; cbn [app] in *; cbn [joined]; [cbn in *; tauto|].
  change (joined (u :: l1 ++ s :: l2)) with (joined ((u :: l1) ++ s :: l2)) in *. cbn [app joined] in *. tauto.
Qed.

Lemma joined_snoc l1 s t : joined (l1 ++ [s]) -> (snd t = true -> snd s = true) -> joined (l1 ++ [t]).
Proof.
  induction l1 as [|u l1 IH]; [done|]. destruct l1 as [|v l1]; cbn [app joined]; intros [H1 H2] Ht.
  - split; [|done]. intros Hu. specialize (H1 Hu). destruct (snd t); [|done]. by rewrite Ht in H1.
  - split; [done|]. by apply IH.
Qed.

Lemma joined_cons s t l : joined (s :: l) -> (snd t = true -> snd s = true) -> joined (t :: l).
Proof. destruct l as [|u l]; [done|]. intros [H1 H2] Ht. split; [|done]. auto. Qed.

(** ** The heap as a list *)

Section rep.
Context {P : Type} `{HeapPages P}.
Implicit Types (h : sheap (P := P)) (l : list segment).

(** The headers of [h] are those of the segments [l], and there is one at 0. *)
Record rep h l : Prop := {
  rp_ne : l <> [];
  rp_start : 0 < HeapStart h /\ (16 | HeapStart h);
  rp_linked : linked (segs h) 0 (HeapStart h) l 0;
  rp_end : end_of (HeapStart h) l = HeapEnd h;
  rp_bound : HeapEnd h < 2 ^ 64 /\ HeapEnd h - HeapStart h < 2 ^ 62;
  rp_last : LastHdr h = last_at 0 (HeapStart h) l;
  rp_segs : Forall seg_ok l;
  rp_zero : is_Some (segs h !! 0)
}.

(** The header at a position of the list. *)
Lemma rep_get h l1 s l2 : rep h (l1 ++ s :: l2) -> let a := end_of (HeapStart h) l1 in
  segs h !! a = Some (mk_seg (fst s) (behind (a + 32 + fst s) l2) (last_at 0 (HeapStart h) l1) (snd s)) /\
  0 < HeapStart h <= a /\ seg_ok s /\ a + 32 + fst s <= HeapEnd h /\ end_of (a + 32 + fst s) l2 = HeapEnd h.
Proof.
  intros Hr a. pose proof (rp_linked _ _ Hr) as [_ [E _]]%linked_app. fold a in E. pose proof (rp_segs _ _ Hr) as [H1 [Hs H2]%Forall_cons]%Forall_app.
  pose proof (end_of_ge (HeapStart h) l1 H1). pose proof (rp_start _ _ Hr). pose proof (rp_end _ _ Hr) as He. rewrite end_of_app in He.
  cbn [end_of] in He. fold a in He. pose proof (end_of_ge (a + 32 + fst s) l2 H2). split_and!; try done; try lia.
Qed.

Lemma get_seg_Some h a s : segs h !! a = Some s -> get_seg h a = Ok s.
Proof. unfold get_seg. by intros ->. Qed.

Lemma mod_Some h a s f : segs h !! a = Some s -> mod_seg h a f = Ok (set_segs h (<[a := f s]> (segs h))).
Proof. intros E. unfold mod_seg. by rewrite (get_seg_Some _ _ _ E). Qed.

(** What no operation on segments changes. *)
Definition same h h' : Prop := HeapStart h' = HeapStart h /\ HeapEnd h' = HeapEnd h /\ sh_pages h' = sh_pages h.

Lemma rep_replace h h' l1 mid mid' l2 : let b := end_of (HeapStart h) l1 in let e := end_of b mid in
  rep h (l1 ++ mid ++ l2) -> same h h' -> mid <> [] -> mid' <> [] -> Forall seg_ok mid' -> end_of b mid' = e ->
  linked (segs h') (last_at 0 (HeapStart h) l1) b mid' (behind e l2) ->
  (forall k, HeapStart h <= k -> ~ (b <= k < e) -> (l2 <> [] -> k <> e) -> segs h' !! k = segs h !! k) ->
  (l2 <> [] -> segs h' !! e = set_Last (last_at 0 b mid') <$> segs h !! e) ->
  LastHdr h' = (if l2 then last_at 0 b mid' else LastHdr h) -> is_Some (segs h' !! 0) ->
  rep h' (l1 ++ mid' ++ l2).
Proof.
  intros b e Hr (S1 & S2 & S3) Hmid Hmid' Hok He Hl Hout Hback Hlast Hz. destruct Hr as [R1 R2 R3 R4 R5 R6 R7 R8].
  split; rewrite ?S1, ?S2; try done.
  - destruct l1; [by destruct mid'|done].
  - by apply (relink (segs h) _ _ l1 mid).
  - rewrite <- R4, !end_of_app. fold b. by rewrite He.
  - rewrite Hlast, !last_at_app. fold b. rewrite He. destruct l2; [by destruct mid'|]. rewrite R6, !last_at_app. done.
  - apply Forall_app in R7 as [? [? ?]%Forall_app]. by rewrite !Forall_app.
Qed.

(** A segment marked as free or in use. *)
Lemma mark_ok h l1 s l2 f : rep h (l1 ++ s :: l2) -> let a := end_of (HeapStart h) l1 in
  exists h', mod_seg h a (set_IsFree f) = Ok h' /\ rep h' (l1 ++ (fst s, f) :: l2) /\ data h' = data h /\ same h h'.
Proof.
  intros Hr a. destruct (rep_get h l1 s l2 Hr) as (E & Ha & [Hs1 Hs2] & Hend & _). fold a in E, Ha, Hend.
  eexists. split; [by apply mod_Some|]. split; [|done].
  apply (rep_replace h _ l1 [s] [(fst s, f)] l2); fold a; cbn [segs set_segs end_of last_at linked LastHdr app]; try done.
  - by constructor.
  - rewrite lookup_insert_eq. by destruct l2.
  - intros k Hk Hn _. rewrite lookup_insert_ne; [done|lia].
  - intros Hne. rewrite lookup_insert_ne by lia. pose proof (rp_linked _ _ Hr) as [_ [_ L]]%linked_app. fold a in L.
    destruct l2 as [|t l2]; [done|]. by destruct L as [-> _].
  - rewrite (rp_last _ _ Hr), last_at_app. cbn [last_at]. fold a. by destruct l2.
  - rewrite lookup_insert_ne by lia. apply (rp_zero _ _ Hr).
Qed.

(** The header behind a segment, or the one at 0. *)
Lemma rep_behind h l1 s l2 : rep h (l1 ++ s :: l2) -> let a := end_of (HeapStart h) l1 in let e := a + 32 + fst s in
  exists t, segs h !! behind e l2 = Some t /\ (l2 <> [] -> behind e l2 = e).
Proof.
  intros Hr a e. destruct l2 as [|t l2].
  - destruct (rp_zero _ _ Hr) as [t E]. by exists t.
  - replace (l1 ++ s :: t :: l2) with ((l1 ++ [s]) ++ t :: l2) in Hr by (by rewrite <- app_assoc).
    destruct (rep_get h _ t l2 Hr) as [E _]. rewrite end_of_app in E. cbn [end_of] in E. by eexists.
Qed.

Lemma segs_outside_Some h a n k : (k + 32 <= a \/ a + n <= k) -> segs_outside h a n !! k = segs h !! k.
Proof.
  intros Hk. unfold segs_outside. destruct (segs h !! k) as [s|] eqn:E.
  - apply map_lookup_filter_Some. by split.
  - apply map_lookup_filter_None. by left.
Qed.

Lemma seg_ok_16 n : 16 <= n -> (16 | n) -> seg_ok (n, true) /\ seg_ok (n, false).
Proof. by split. Qed.

Lemma Split_ok h l1 n l2 Size : rep h (l1 ++ (n, true) :: l2) -> seg_ok (Size, true) -> 16 <= n - Size - 32 ->
  let a := end_of (HeapStart h) l1 in
  exists h', Split h a Size = Ok (h', a + Size + 32) /\ rep h' (l1 ++ (Size, true) :: (n - Size - 32, true) :: l2) /\
    (forall k, ~ (a + 32 <= k < a + 32 + n) -> data h' !! k = data h !! k) /\ same h h'.
Proof.
  intros Hr [HS1 HS2] Hn a. cbn [fst] in HS1, HS2. destruct (rep_get _ _ _ _ Hr) as (E & Ha & [Hs1 Hs2] & Hend & Hend'). fold a in E, Ha, Hend, Hend'.
  destruct (rep_behind _ _ _ _ Hr) as (t & Et & Hb). fold a in Et, Hb. cbn [fst snd] in *.
  pose proof (rp_bound _ _ Hr). pose proof (rp_zero _ _ Hr) as Hz. set (e := a + 32 + n) in *.
  assert (e = a + 32 + n) as Ee by reflexivity. set (nx := behind e l2) in *.
  assert (nx = 0 \/ nx = e) as Hnx by (subst nx; destruct l2; [by left|by right]).
  unfold Split. rewrite decide_False by lia. rewrite (get_seg_Some _ _ _ E). cbn [bind Length].
  assert (s64 (n - Size - sizeof_HeapSegHdr) = n - Size - 32) as -> by (apply wraps_small; unfold sizeof_HeapSegHdr; lia).
  rewrite decide_False by lia. rewrite (wrapu_small 64 (a + Size + _)) by (unfold sizeof_HeapSegHdr; lia).
  change sizeof_HeapSegHdr with 32. set (New := a + Size + 32). assert (New = a + Size + 32) as EN by reflexivity. cbn [Next]. rewrite (mod_Some _ _ _ _ Et). cbn [bind].
  set (h1 := set_segs h (<[nx := set_Last New t]> (segs h))).
  assert (segs h1 !! a = segs h !! a) as E1 by (cbn; rewrite lookup_insert_ne by lia; done). rewrite E in E1.
  rewrite (get_seg_Some _ _ _ E1). cbn [bind]. rewrite (mod_Some _ _ _ _ E1). cbn [bind IsFree Next].
  set (h2 := set_segs h1 _). unfold put_seg, in_heap. rewrite bool_decide_true by (cbn; unfold sizeof_HeapSegHdr; lia). cbn [bind].
  rewrite (wrapu_small 64) by lia. set (h3 := mk_sheap _ _ _ _ _ _).
  assert (forall k, (k + 32 <= New \/ New + 32 <= k) -> segs h3 !! k = segs h2 !! k) as E3.
  { intros k Hk. cbn [segs h3]. rewrite lookup_insert_ne by lia. by apply segs_outside_Some. }
  assert (segs h3 !! a = segs h2 !! a) as E3a by (apply E3; lia). cbn [segs h2 set_segs] in E3a. rewrite lookup_insert_eq in E3a.
  rewrite (mod_Some _ _ _ _ E3a). cbn [bind]. eexists. split; [reflexivity|].
  set (h4 := set_segs h3 _). set (h5 := if decide _ then _ else h4).
  assert (data h5 = data h4 /\ segs h5 = segs h4 /\ same h h5 /\ LastHdr h5 = if decide (LastHdr h = a) then New else LastHdr h) as (D5 & S5 & M5 & L5).
  { subst h5. change (LastHdr h4) with (LastHdr h). by case_decide. }
  assert (forall k, (k + 32 <= New \/ New + 32 <= k) -> k <> a -> k <> nx -> segs h4 !! k = segs h !! k) as E4.
  { intros k Hk Hka Hkn. cbn [segs h4 set_segs]. rewrite lookup_insert_ne, E3 by done. cbn [segs h2 h1 set_segs]. by rewrite !lookup_insert_ne. }
  assert (segs h4 !! nx = Some (set_Last New t)) as E4n.
  { cbn [segs h4 set_segs]. rewrite lookup_insert_ne, E3 by lia. cbn [segs h2 h1 set_segs]. by rewrite lookup_insert_ne, lookup_insert_eq by lia. }
  split_and!; [| |exact M5].
  - apply (rep_replace h h5 l1 [(n, true)] [(Size, true); (n - Size - 32, true)] l2); fold a; cbn [end_of fst]; rewrite ?S5; fold e; try done.
    + constructor; [done|]. constructor; [|done]. split; [cbn; lia|]. cbn. apply Z.divide_sub_r; [by apply Z.divide_sub_r|]. by exists 2.
    + lia.
    + cbn [linked fst snd]. split_and!; [|cbn [segs h4 set_segs]|done].
      * cbn [segs h4 set_segs]. rewrite lookup_insert_eq. unfold set_Length, set_Next. cbn. do 2 f_equal. lia.
      * rewrite lookup_insert_ne by lia. cbn [segs h3]. replace (a + 32 + Size) with New by lia. rewrite lookup_insert_eq. by destruct l2.
    + intros k Hk Hne Hl. apply E4; [lia|lia|]. destruct l2; [subst nx; cbn; lia|]. rewrite Hb by done. by apply Hl.
    + intros Hl. rewrite <- (Hb Hl), E4n, Et. cbn. do 2 f_equal. lia.
    + rewrite L5, (rp_last _ _ Hr), last_at_app. fold a. cbn [last_at fst]. destruct l2 as [|s2 l2].
      * cbn. rewrite decide_True by done. lia.
      * rewrite decide_False; [done|]. pose proof (rp_segs _ _ Hr) as [_ [_ Hs]%Forall_cons]%Forall_app.
        pose proof (last_at_range a (a + 32 + n) (s2 :: l2) Hs ltac:(done)). lia.
    + destruct Hnx as [E0|E0]; [rewrite <- E0, E4n; by eexists|]. rewrite E4 by lia. done.
  - intros k Hk. rewrite D5. cbn [data h4 h3 set_segs]. unfold sizeof_HeapSegHdr. change (data h2) with (data h).
    destruct (data h !! k) as [v|] eqn:Ek; [apply map_lookup_filter_Some; split; [done|cbn; lia]|apply map_lookup_filter_None; by left].
Qed.

(** A segment joined with the next one, if that is free. *)
Definition join (s : segment) (l : list segment) : list segment :=
  match l with
  | (m, true) :: r => (fst s + 32 + m, snd s) :: r
  | _ => s :: l
  end.

Lemma CombineForward_ok h l1 s l2 : rep h (l1 ++ s :: l2) -> let a := end_of (HeapStart h) l1 in
  exists h', CombineForward h a = Ok h' /\ rep h' (l1 ++ join s l2) /\ data h' = data h /\ same h h'.
Proof.
  intros Hr a. destruct (rep_get _ _ _ _ Hr) as (E & Ha & [Hs1 Hs2] & Hend & Hend'). fold a in E, Ha, Hend, Hend'.
  unfold CombineForward. rewrite (get_seg_Some _ _ _ E). cbn [bind Next].
  destruct l2 as [|[m g] l2]; [rewrite decide_True by done; by exists h|]. cbn [behind].
  assert (rep h ((l1 ++ [s]) ++ (m, g) :: l2)) as Hr2 by (by rewrite <- app_assoc).
  destruct (rep_get _ _ _ _ Hr2) as (E2 & _ & [Hm1 Hm2] & Hend2 & _). destruct (rep_behind _ _ _ _ Hr2) as (t & Et & Hb).
  rewrite last_at_app, !end_of_app in *. cbn [end_of last_at fst snd] in *. fold a in E2, Et, Hend2, Hb.
  set (b := a + 32 + fst s) in *. assert (b = a + 32 + fst s) as Eb by reflexivity.
  set (e := b + 32 + m) in *. assert (e = b + 32 + m) as Ee by reflexivity.
  rewrite decide_False by lia. rewrite (get_seg_Some _ _ _ E2). cbn [bind IsFree Next]. destruct g; [|by exists h]. cbn [join].
  pose proof (rp_bound _ _ Hr). set (h1 := if decide _ then _ else h).
  assert (data h1 = data h /\ segs h1 = segs h /\ same h h1 /\ LastHdr h1 = if decide (b = LastHdr h) then a else LastHdr h) as (D1 & S1 & M1 & L1).
  { subst h1. by case_decide. }
  assert (exists h2, (if decide (behind e l2 = 0) then Ok h1 else mod_seg h1 (behind e l2) (set_Last a)) = Ok h2 /\
    segs h2 = (if l2 then segs h else <[e := set_Last a t]> (segs h)) /\ data h2 = data h /\ same h h2 /\ LastHdr h2 = LastHdr h1) as (h2 & -> & S2 & D2 & M2 & L2).
  { destruct l2; cbn [behind]; [rewrite decide_True by done; by exists h1|]. rewrite decide_False by lia. cbn [behind] in Et.
    rewrite <- S1 in Et. rewrite (mod_Some _ _ _ _ Et). eexists. split; [done|]. cbn. by rewrite S1. }
  assert (segs h2 !! a = segs h !! a) as E2a by (rewrite S2; destruct l2; [done|]; by rewrite lookup_insert_ne by lia).
  rewrite E in E2a. cbn [bind]. rewrite (mod_Some _ _ _ _ E2a). cbn [bind Length]. unfold mod_seg at 1, get_seg. cbn [segs set_segs].
  rewrite lookup_insert_eq. cbn [bind]. eexists. split; [reflexivity|]. split; [|by split].
  apply (rep_replace h _ l1 [s; (m, true)] [(fst s + 32 + m, snd s)] l2); fold a; cbn [end_of fst snd app segs set_segs LastHdr linked last_at]; fold b; fold e; try done.
  - constructor; [|done]. split; cbn; [lia|]. apply Z.divide_add_r; [apply Z.divide_add_r; [done|by exists 2]|done].
  - lia.
  - rewrite lookup_insert_eq. split; [|done]. unfold set_Length, set_Next, sizeof_HeapSegHdr. cbn. rewrite wrapu_small by lia.
    do 2 f_equal. lia.
  - intros k Hk Hne Hl. rewrite insert_insert_eq, lookup_insert_ne, S2 by lia. destruct l2; [done|]. rewrite lookup_insert_ne; [done|]. intros <-. by apply Hl.
  - intros Hl. rewrite insert_insert_eq, lookup_insert_ne, S2 by lia. destruct l2; [done|]. cbn [behind] in Et. rewrite lookup_insert_eq, Et. done.
  - rewrite L2, L1, (rp_last _ _ Hr), last_at_app. fold a. cbn [last_at fst]. fold b e. destruct l2 as [|s3 l2]; [by rewrite decide_True|].
    rewrite decide_False; [done|]. pose proof (rp_segs _ _ Hr) as [_ [_ [_ Hs]%Forall_cons]%Forall_cons]%Forall_app.
    pose proof (last_at_range b e (s3 :: l2) Hs ltac:(done)). lia.
  - rewrite insert_insert_eq, lookup_insert_ne, S2 by lia. destruct l2; [apply (rp_zero _ _ Hr)|]. rewrite lookup_insert_ne by lia. apply (rp_zero _ _ Hr).
Qed.

(** A segment that the one in front of it takes in, if that is free. *)
Lemma CombineBackward_ok h l1 s t l2 : rep h (l1 ++ s :: t :: l2) -> snd t = true -> let a := end_of (HeapStart h) (l1 ++ [s]) in
  exists h', CombineBackward h a = Ok h' /\ rep h' (l1 ++ if snd s then (fst s + 32 + fst t, true) :: l2 else s :: t :: l2) /\
    data h' = data h /\ same h h'.
Proof.
  intros Hr Ht a. assert (rep h ((l1 ++ [s]) ++ t :: l2)) as Hr2 by (by rewrite <- app_assoc).
  destruct (rep_get _ _ _ _ Hr2) as (E2 & _). destruct (rep_get _ _ _ _ Hr) as (E & Ha & _). fold a in E2.
  unfold CombineBackward. rewrite (get_seg_Some _ _ _ E2). cbn [bind Last]. rewrite last_at_app. cbn [last_at].
  rewrite decide_False by lia. rewrite (get_seg_Some _ _ _ E). cbn [bind IsFree]. destruct s as [n f]. cbn [snd fst]. destruct f; [|by exists h].
  destruct (CombineForward_ok h l1 (n, true) (t :: l2) Hr) as (h' & E' & Hr' & Hd). exists h'. split_and!; [done| |apply Hd..].
  destruct t as [m g]. cbn in Ht. subst g. done.
Qed.

Lemma CombineBackward_first h s l2 : rep h (s :: l2) -> CombineBackward h (HeapStart h) = Ok h.
Proof.
  intros Hr. destruct (rep_get h [] s l2 Hr) as (E & _). cbn [end_of last_at] in E. unfold CombineBackward.
  rewrite (get_seg_Some _ _ _ E). cbn [bind Last]. by rewrite decide_True.
Qed.

(** ** First fit *)

(** The first free segment of at least [Size] bytes, with what is around it. *)
Fixpoint first_fit (Size : Z) (l : list segment) : option (list segment * Z * list segment) :=
  match l with
  | [] => None
  | (n, f) :: r =>
      if f && bool_decide (Size <= n) then Some ([], n, r)
      else match first_fit Size r with
           | Some (l1, m, l2) => Some ((n, f) :: l1, m, l2)
           | None => None
           end
  end.

(** What becomes of it: the rest is a segment when it has 16 bytes or more. *)
Definition cut (n Size : Z) : list segment :=
  if decide (16 <= n - Size - 32) then [(Size, false); (n - Size - 32, true)] else [(n, false)].

Lemma first_fit_app Size l l1 n l2 : first_fit Size l = Some (l1, n, l2) -> l = l1 ++ (n, true) :: l2 /\ Size <= n.
Proof.
  revert l1. induction l as [|[m f] l IH]; intros l1; cbn; [done|]. destruct f; cbn.
  - case_bool_decide; [by intros [= <- <- <-]|]. destruct (first_fit Size l) as [[[k1 k] k2]|]; [|done].
    intros [= <- <- <-]. by destruct (IH k1) as [-> ?].
  - destruct (first_fit Size l) as [[[k1 k] k2]|]; [|done]. intros [= <- <- <-]. by destruct (IH k1) as [-> ?].
Qed.

Lemma Split_small h l1 n l2 Size : rep h (l1 ++ (n, true) :: l2) -> 16 <= Size -> Size <= n -> n - Size - 32 < 16 ->
  Split h (end_of (HeapStart h) l1) Size = Ok (h, 0).
Proof.
  intros Hr HS HSn Hn. destruct (rep_get _ _ _ _ Hr) as (E & ? & [? ?] & ? & _). pose proof (rp_bound _ _ Hr). cbn [fst] in *.
  unfold Split. rewrite decide_False by lia. rewrite (get_seg_Some _ _ _ E). cbn [bind Length fst].
  rewrite decide_True; [done|]. rewrite wraps_small by (unfold sizeof_HeapSegHdr; lia). unfold sizeof_HeapSegHdr. lia.
Qed.

(** What one step of the loop does with the segment that fits. *)
Lemma take_ok h l1 n l2 Size : rep h (l1 ++ (n, true) :: l2) -> seg_ok (Size, true) -> Size <= n -> let a := end_of (HeapStart h) l1 in
  exists h', (let* h := (if bool_decide (Size < n) then let* '(h, _) := Split h a Size in Ok h else Ok h) in mod_seg h a (set_IsFree false)) = Ok h' /\
    rep h' (l1 ++ cut n Size ++ l2) /\ (forall k, ~ (a + 32 <= k < a + 32 + n) -> data h' !! k = data h !! k) /\ same h h'.
Proof.
  intros Hr HS HSn a. destruct (rep_get _ _ _ _ Hr) as (_ & _ & [_ Hd] & _ & _). unfold cut. destruct (decide (16 <= n - Size - 32)) as [Hc|Hc].
  - rewrite bool_decide_true by lia. destruct (Split_ok h l1 n l2 Size Hr HS Hc) as (h1 & E1 & Hr1 & D1 & S1 & S2 & S3). fold a in E1, D1. rewrite E1. cbn [bind].
    destruct (mark_ok h1 l1 (Size, true) ((n - Size - 32, true) :: l2) false Hr1) as (h2 & E2 & Hr2 & D2 & T1 & T2 & T3).
    rewrite S1 in E2. fold a in E2. rewrite E2. exists h2. split_and!; [done|done| |]; [intros k Hk; rewrite D2; by apply D1|]. unfold same. by rewrite T1, T2, T3.
  - assert ((if bool_decide (Size < n) then let* '(h, _) := Split h a Size in Ok h else Ok h) = Ok h) as ->.
    { case_bool_decide; [|done]. destruct HS as [HS _]. cbn in HS. unfold a. by rewrite (Split_small h l1 n l2 Size Hr) by lia. }
    cbn [bind]. destruct (mark_ok h l1 (n, true) l2 false Hr) as (h2 & E2 & Hr2 & D2 & S2). fold a in E2. rewrite E2. exists h2.
    split_and!; [done|done| |done]. intros k _. by rewrite D2.
Qed.

Lemma find_segment_ok Size l : seg_ok (Size, true) -> forall l0 fuel h, rep h (l0 ++ l) -> l <> [] -> (length l <= fuel)%nat ->
  match first_fit Size l with
  | Some (l1, n, l2) => let a := end_of (HeapStart h) (l0 ++ l1) in
      exists h', find_segment Split h (end_of (HeapStart h) l0) Size fuel = Ok (Some (h', a + 32)) /\ rep h' (l0 ++ l1 ++ cut n Size ++ l2) /\
        (forall k, ~ (a + 32 <= k < a + 32 + n) -> data h' !! k = data h !! k) /\ same h h'
  | None => find_segment Split h (end_of (HeapStart h) l0) Size fuel = Ok None
  end.
Proof.
  intros HS. induction l as [|[n f] l IH]; intros l0 fuel h Hr Hne Hf; [done|]. destruct fuel as [|fuel]; [cbn in Hf; lia|].
  destruct (rep_get _ _ _ _ Hr) as (E & Ha & Hs & Hend & _). pose proof (rp_bound _ _ Hr). cbn [fst snd] in *. cbn [find_segment first_fit].
  rewrite (get_seg_Some _ _ _ E). cbn [bind IsFree SegmentHeap.Length Next].
  destruct (f && bool_decide (Size <= n)) eqn:Hfit.
  - apply andb_true_iff in Hfit as [-> Hn%bool_decide_eq_true]. rewrite app_nil_r. cbn [app].
    destruct (take_ok h l0 n l Size Hr HS Hn) as (h' & E' & Hr' & Hd & Hm). exists h'. split_and!; [|done|done|done]. cbn [andb].
    destruct (bool_decide (Size < n)) eqn:Hlt; [|apply bool_decide_eq_false in Hlt; rewrite bool_decide_true by lia; cbn [bind] in E'; rewrite E'].
    + destruct (Split h (end_of (HeapStart h) l0) Size) as [[h1 x]|]; [|done]. cbn [bind] in E' |- *. rewrite E'. cbn [bind].
      rewrite wrapu_small by (unfold sizeof_HeapSegHdr; destruct Hs; cbn in *; lia). done.
    + cbn [bind]. rewrite wrapu_small by (unfold sizeof_HeapSegHdr; destruct Hs; cbn in *; lia). done.
  - assert (f && bool_decide (Size < n) = false /\ f && bool_decide (n = Size) = false) as [-> ->].
    { destruct f; [|done]. cbn in *. apply bool_decide_eq_false in Hfit. rewrite !bool_decide_false by lia. done. }
    destruct l as [|t l]; [by rewrite decide_True|]. cbn [behind]. rewrite decide_False by (destruct Hs; cbn in *; lia).
    assert (end_of (HeapStart h) l0 + 32 + n = end_of (HeapStart h) (l0 ++ [(n, f)])) as -> by (by rewrite end_of_app).
    specialize (IH (l0 ++ [(n, f)]) fuel h). rewrite <- app_assoc in IH. specialize (IH Hr ltac:(done) ltac:(cbn in *; lia)).
    destruct (first_fit Size (t :: l)) as [[[l1 m] l2]|]; [|exact IH]. rewrite <- !app_assoc in IH. exact IH.
Qed.

(** There are as many headers as segments, so the loop has enough fuel. *)
Lemma linked_size m p a l q : Forall seg_ok l -> linked m p a l q -> exists K : gset Z, size K = length l /\ K ⊆ dom m /\ forall k, k ∈ K -> a <= k.
Proof.
  intros Hl. revert p a. induction Hl as [|s l [Hs _] _ IH]; intros p a Hm; [by exists ∅|]. destruct Hm as [E Hm].
  destruct (IH _ _ Hm) as (K & HK & Hd & Ha). exists ({[a]} ∪ K). split_and!.
  - rewrite size_union, size_singleton, HK; [done|]. apply disjoint_singleton_l. intros Hin. apply Ha in Hin. lia.
  - apply union_subseteq. split; [|done]. apply singleton_subseteq_l, elem_of_dom. by eexists.
  - intros k [->%elem_of_singleton|Hk]%elem_of_union; [lia|]. apply Ha in Hk. lia.
Qed.

Lemma rep_fuel h l : rep h l -> (length l <= walk_fuel h)%nat.
Proof.
  intros Hr. destruct (linked_size _ _ _ _ _ (rp_segs _ _ Hr) (rp_linked _ _ Hr)) as (K & HK & Hd & _).
  apply subseteq_size in Hd. rewrite size_dom in Hd. unfold walk_fuel. lia.
Qed.

(** ** Growth *)

(** [k] more pages can be had, wherever they are mapped. *)
Fixpoint can_map (k : nat) (p : P) : Prop :=
  match k with O => True | S k => forall a, exists p', map_page p a = Ok p' /\ can_map k p' end.

Lemma map_pages_can k n : forall p a, can_map (n + k) p -> exists p', map_pages p a n = Ok p' /\ can_map k p'.
Proof.
  induction n as [|n IH]; intros p a Hp; [by exists p|]. destruct (Hp a) as (p1 & E & H1). cbn [map_pages]. rewrite E. apply IH, H1.
Qed.

(** The segments after [K] bytes more. *)
Fixpoint grow (K : Z) (l : list segment) : list segment :=
  match l with
  | [] => [(K - 32, true)]
  | [s] => if snd s then [(fst s + K, true)] else [s; (K - 32, true)]
  | s :: l => s :: grow K l
  end.

Lemma grow_app K l s : grow K (l ++ [s]) = l ++ if snd s then [(fst s + K, true)] else [s; (K - 32, true)].
Proof. induction l as [|t l IH]; [done|]. cbn [app grow]. rewrite IH. by destruct l. Qed.

(** A chain that is continued. *)
Lemma linked_next m m' p a l s q q' : Forall seg_ok (l ++ [s]) -> linked m p a (l ++ [s]) q -> let b := end_of a l in
  (forall k, a <= k < b -> m' !! k = m !! k) -> m' !! b = set_Next q' <$> m !! b -> linked m' p a (l ++ [s]) q'.
Proof.
  intros [Hl Hs]%Forall_app [L1 [E _]]%linked_app b Hm Hb. fold b in L1, E. apply linked_app. fold b. split.
  - revert L1. by apply linked_frame.
  - split; [|done]. by rewrite Hb, E.
Qed.

Lemma round_up_ok Size : 16 <= Size < 2 ^ 62 -> let K := round_up Size in (4096 | K) /\ 4096 <= K /\ Size <= K < Size + 4096.
Proof.
  intros HS K. unfold K, round_up, PAGE_SIZE. pose proof (Z.div_mod Size 4096 ltac:(lia)). pose proof (Z.mod_pos_bound Size 4096 ltac:(lia)).
  destruct (decide (Size mod 4096 <> 0)) as [Hm|Hm]; [rewrite wrapu_small by lia|].
  - split; [exists (Size / 4096 + 1); lia|]. assert (0 <= Size / 4096) by (apply Z.div_pos; lia). lia.
  - assert (Size mod 4096 = 0) as Hz by lia. split; [exists (Size / 4096); lia|]. assert (0 < Size / 4096); [|lia].
    destruct (decide (Size / 4096 <= 0)) as [Hle|]; [|lia]. assert (0 <= Size / 4096) by (apply Z.div_pos; lia). lia.
Qed.

Lemma ExpandHeap_ok h l Size k : rep h l -> 16 <= Size < 2 ^ 62 -> let K := round_up Size in
  HeapEnd h + K < 2 ^ 64 -> HeapEnd h + K - HeapStart h < 2 ^ 62 -> can_map (Z.to_nat (K / 4096) + k) (sh_pages h) ->
  exists h', ExpandHeap h Size = Ok h' /\ rep h' (grow K l) /\ (forall x, x < HeapEnd h -> data h' !! x = data h !! x) /\
    HeapStart h' = HeapStart h /\ HeapEnd h' = HeapEnd h + K /\ can_map k (sh_pages h').
Proof.
  intros Hr HS K H64 H62 Hp. destruct (round_up_ok Size HS) as ([K' EK] & HK & HSK). fold K in EK, HK, HSK.
  assert (K / PAGE_SIZE = K') as EK' by (unfold PAGE_SIZE; rewrite EK, Z.div_mul; lia). pose proof (rp_start _ _ Hr) as [Hst Hdiv].
  destruct (exists_last (rp_ne _ _ Hr)) as (l0 & s & ->). destruct (rep_get _ _ _ _ Hr) as (E & Ha & [Hs1 Hs2] & Hend & Hend'). cbn [end_of] in Hend'.
  set (a := end_of (HeapStart h) l0) in *. unfold ExpandHeap. fold K. rewrite EK'.
  destruct (map_pages_can k (Z.to_nat K') (sh_pages h) (HeapEnd h)) as (p' & -> & Hp').
  { revert Hp. rewrite EK at 1. by rewrite Z.div_mul by lia. }
  cbn [bind]. set (h1 := set_HeapEnd _ _). unfold put_seg, in_heap. change (HeapStart h1) with (HeapStart h).
  assert (u64 (HeapEnd h + K' * PAGE_SIZE) = HeapEnd h + K) as Eu by (rewrite wrapu_small; unfold PAGE_SIZE; lia).
  assert (HeapEnd h1 = HeapEnd h + K) as Eh1 by exact Eu. rewrite Eh1.
  rewrite bool_decide_true by (unfold sizeof_HeapSegHdr; lia). cbn [bind]. change (LastHdr h1) with (LastHdr h).
  assert (LastHdr h = a) as Elast by (rewrite (rp_last _ _ Hr), last_at_app; done). rewrite Elast.
  change (segs_outside h1) with (segs_outside h). rewrite (wrapu_small 64 (K - sizeof_HeapSegHdr)) by (unfold sizeof_HeapSegHdr; lia).
  set (h2 := mk_sheap _ _ _ _ _ _).
  assert (forall x, x + 32 <= HeapEnd h -> segs h2 !! x = segs h !! x) as E2.
  { intros x Hx. cbn [segs h2]. rewrite lookup_insert_ne by lia. apply segs_outside_Some. by left. }
  assert (segs h2 !! a = segs h !! a) as E2a by (apply E2; lia). rewrite E in E2a. rewrite (mod_Some _ _ _ _ E2a). cbn [bind].
  set (h3 := set_LastHdr _ _).
  assert (rep h3 (l0 ++ s :: [(K - 32, true)])) as Hr3.
  { destruct Hr as [R1 R2 R3 R4 R5 R6 R7 R8]. split; cbn [HeapStart HeapEnd LastHdr segs h3 h2 set_LastHdr set_segs]; rewrite ?Eh1; try done; try lia.
    - by destruct l0.
    - replace (l0 ++ s :: [(K - 32, true)]) with ((l0 ++ [s]) ++ [(K - 32, true)]) by (by rewrite <- app_assoc). apply linked_app. split.
      + apply (linked_next (segs h) _ 0 (HeapStart h) l0 s 0); [done|done| |]; fold a; cbn [fst].
        * intros x Hx. rewrite lookup_insert_ne by lia. apply E2. lia.
        * rewrite lookup_insert_eq, E. rewrite end_of_app. fold a. cbn [end_of]. by rewrite Hend'.
      + rewrite end_of_app, last_at_app. fold a. cbn [end_of last_at linked]. rewrite Hend'. split; [|done].
        rewrite lookup_insert_ne by lia. rewrite lookup_insert_eq. done.
    - rewrite end_of_app. fold a. cbn [end_of fst]. lia.
    - rewrite last_at_app. fold a. cbn [last_at fst]. by rewrite Hend'.
    - apply Forall_app in R7 as [? [? _]%Forall_cons]. rewrite Forall_app. split; [done|]. constructor; [done|]. constructor; [|done].
      split; cbn; [lia|]. exists (256 * K' - 2). lia.
    - rewrite lookup_insert_ne by lia. rewrite E2; [done|lia]. }
  assert (end_of (HeapStart h3) (l0 ++ [s]) = HeapEnd h) as Ea by (rewrite end_of_app; exact Hend').
  destruct (CombineBackward_ok h3 l0 s (K - 32, true) [] Hr3 eq_refl) as (h' & E' & Hr' & D' & S1 & S2 & S3). rewrite Ea in E'. exists h'. split; [exact E'|].
  split_and!; [|intros x Hx; rewrite D'|by rewrite S1|by rewrite S2|by rewrite S3].
  - rewrite grow_app. cbn [fst snd] in Hr'. destruct (snd s); [|exact Hr']. replace (fst s + K) with (fst s + 32 + (K - 32)) by lia. exact Hr'.
  - cbn [data h3 h2 set_LastHdr set_segs]. change (data h1) with (data h).
    destruct (data h !! x) as [v|] eqn:Ex; [apply map_lookup_filter_Some; split; [done|cbn; lia]|apply map_lookup_filter_None; by left].
Qed.

(** ** Allocation *)

(** First fit, in the segments and then in those of a grown heap. *)
Fixpoint fit_growing (Size : Z) (l : list segment) (tries : nat) : option (list segment * Z * list segment) :=
  match first_fit Size l with
  | Some r => Some r
  | None => match tries with O => None | S tries => fit_growing Size (grow (round_up Size) l) tries end
  end.

Lemma used_grow a K l : used a (grow K l) = used a l.
Proof.
  destruct l as [|s l _] using rev_ind; [done|]. rewrite grow_app, !used_segments_app. f_equal. destruct s as [n []]; reflexivity.
Qed.

Lemma grow_ok K l : (4096 | K) -> 4096 <= K -> Forall seg_ok l -> Forall seg_ok (grow K l).
Proof.
  intros [K' ->] HK. destruct l as [|s l _] using rev_ind; intros Hl.
  - constructor; [|done]. split; cbn; [lia|]. exists (256 * K' - 2). lia.
  - rewrite grow_app. apply Forall_app in Hl as [Hl [[Hs1 Hs2] _]%Forall_cons]. apply Forall_app. split; [done|].
    destruct (snd s); [constructor; [|done]; split; cbn; [lia|]; apply Z.divide_add_r; [done|]; exists (256 * K'); lia|].
    constructor; [done|]. constructor; [|done]. split; cbn; [lia|]. exists (256 * K' - 2). lia.
Qed.

Lemma grow_joined K l : joined l -> joined (grow K l).
Proof.
  destruct l as [|s l _] using rev_ind; [done|]. rewrite grow_app. destruct s as [n []]; cbn [snd fst]; intros Hj.
  - by apply (joined_snoc l (n, true)).
  - apply joined_app. split; [done|]. cbn. done.
Qed.

Lemma first_fit_None Size l n : first_fit Size l = None -> (n, true) ∈ l -> n < Size.
Proof.
  induction l as [|[m f] l IH]; cbn; [by intros _ ?%elem_of_nil|]. destruct f; cbn.
  - case_bool_decide; [done|]. destruct (first_fit Size l) as [[[k1 k] k2]|]; [done|]. intros _ [[= ->]|Hin]%elem_of_cons; [lia|auto].
  - destruct (first_fit Size l) as [[[k1 k] k2]|]; [done|]. intros _ [?|Hin]%elem_of_cons; [done|auto].
Qed.

(** Growing twice is enough. *)
Lemma fit_growing_two Size l : 16 <= Size < 2 ^ 62 -> l <> [] -> Forall seg_ok l -> is_Some (fit_growing Size l malloc_tries).
Proof.
  intros HS Hne Hl. destruct (round_up_ok Size HS) as (_ & HK & HSK). set (K := round_up Size) in *. cbn [fit_growing malloc_tries]. fold K.
  destruct (first_fit Size l); [by eexists|]. destruct (first_fit Size (grow K l)); [by eexists|].
  destruct (first_fit Size (grow K (grow K l))) eqn:E; [by eexists|]. exfalso. destruct (exists_last Hne) as (l0 & [n f] & ->).
  apply Forall_app in Hl as [_ [[Hn _] _]%Forall_cons]. cbn [fst] in Hn. rewrite grow_app in E. destruct f; cbn [snd fst] in E.
  - rewrite grow_app in E. cbn [snd fst] in E. apply (first_fit_None _ _ (n + K + K)) in E; [lia|]. apply elem_of_app. right. by left.
  - change [(n, false); (K - 32, true)] with ([(n, false)] ++ [(K - 32, true)]) in E. rewrite app_assoc, grow_app in E. cbn [snd fst] in E.
    apply (first_fit_None _ _ (K - 32 + K)) in E; [lia|]. apply elem_of_app. right. by left.
Qed.

Lemma rounded_ok Size : 0 <= Size < 2 ^ 60 -> seg_ok (rounded Size, true) /\ Size <= rounded Size < Size + 32 /\ rounded Size < 2 ^ 61.
Proof.
  intros HS. unfold rounded. set (s := if decide (Size < 0x10) then 0x10 else Size).
  assert (16 <= s /\ Size <= s < Size + 17) as [H1 H2] by (subst s; case_decide; lia).
  pose proof (Z.div_mod s 16 ltac:(lia)). pose proof (Z.mod_pos_bound s 16 ltac:(lia)). case_decide as Hm.
  - rewrite wrapu_small by lia. split; [split; cbn [fst]; [lia|]; exists (s / 16 + 1); lia|lia].
  - split; [split; cbn [fst]; [lia|]; exists (s / 16); lia|lia].
Qed.

Lemma rounded_idem Size : seg_ok (Size, true) -> rounded Size = Size.
Proof.
  intros [H1 [k Hk]]. cbn [fst] in *. unfold rounded. rewrite (decide_False (P := Size < 16)) by lia. rewrite decide_False; [done|]. subst Size. rewrite Z.mod_mul; lia.
Qed.

(** There is room to grow [tries] times for [Size] bytes. *)
Definition room h (Size : Z) (tries : nat) : Prop :=
  let K := round_up Size in
  HeapEnd h + Z.of_nat tries * K < 2 ^ 64 /\ HeapEnd h + Z.of_nat tries * K - HeapStart h < 2 ^ 62 /\
  can_map (tries * Z.to_nat (K / 4096)) (sh_pages h).

Lemma malloc_ok tries : forall h l Size l1 n l2, rep h l -> 16 <= rounded Size < 2 ^ 62 -> seg_ok (rounded Size, true) ->
  room h (rounded Size) tries -> fit_growing (rounded Size) l tries = Some (l1, n, l2) ->
  exists h', defkmalloc h Size tries = Ok (h', end_of (HeapStart h) l1 + 32) /\ rep h' (l1 ++ cut n (rounded Size) ++ l2) /\ HeapStart h' = HeapStart h /\
    (forall k, k < HeapEnd h -> ~ (end_of (HeapStart h) l1 + 32 <= k < end_of (HeapStart h) l1 + 32 + n) -> data h' !! k = data h !! k).
Proof.
  induction tries as [|tries IH]; intros h l Size l1 n l2 Hr HS HSok (Hb1 & Hb2 & Hp) Hfit; pose proof (rp_start _ _ Hr);
    cbn [fit_growing] in Hfit; cbn [defkmalloc]; rewrite decide_False by lia; rewrite decide_False by lia;
    pose proof (find_segment_ok (rounded Size) l HSok [] (walk_fuel h) h Hr (rp_ne _ _ Hr) (rep_fuel h l Hr)) as Hf;
    destruct (first_fit (rounded Size) l) as [[[k1 k] k2]|] eqn:Eff.
  - injection Hfit as -> -> ->. destruct Hf as (h' & E & Hr' & Hd & M1 & _). cbn [app end_of] in *. rewrite E. cbn [bind]. exists h'.
    split_and!; [done|done|done|]. intros x _. apply Hd.
  - done.
  - injection Hfit as -> -> ->. destruct Hf as (h' & E & Hr' & Hd & M1 & _). cbn [app end_of] in *. rewrite E. cbn [bind]. exists h'.
    split_and!; [done|done|done|]. intros x _. apply Hd.
  - cbn [end_of] in Hf. rewrite Hf. cbn [bind]. destruct (round_up_ok (rounded Size) ltac:(lia)) as (_ & HK & _). cbv zeta in HK.
    destruct (ExpandHeap_ok h l (rounded Size) (tries * Z.to_nat (round_up (rounded Size) / 4096)) Hr HS ltac:(lia) ltac:(lia)) as (h1 & E1 & Hr1 & D1 & S1 & S2 & P1).
    { exact Hp. }
    rewrite E1. cbn [bind]. pose proof (rounded_idem _ HSok) as Eid.
    destruct (IH h1 (grow (round_up (rounded Size)) l) (rounded Size) l1 n l2 Hr1) as (h' & E & Hr' & S' & Hd); rewrite ?Eid; try done.
    { unfold room. rewrite S1, S2. split_and!; [lia|lia|done]. }
    rewrite Eid in Hr'. rewrite S1 in *. rewrite E. exists h'. split_and!; [done|done|done|]. intros x Hx Hn. rewrite Hd by (done || lia). by apply D1.
Qed.

(** What callers hold: pointers and lengths of segments in use, no two
    neighbours being free. *)
Definition holds h (U : list (Z * Z)) : Prop := exists l, rep h l /\ joined l /\ U ≡ₚ used (HeapStart h) l.

Lemma used_cut a n Size : exists m, used a (cut n Size) = [(a + 32, m)] /\ (Size <= n -> Size <= m) /\ m <= n /\ end_of a (cut n Size) = a + 32 + n.
Proof.
  unfold cut. case_decide; cbn [used id end_of fst]; [exists Size|exists n]; (split; [done|lia]).
Qed.

Lemma fit_growing_inv Size tries : forall l l1 n l2, 16 <= Size < 2 ^ 62 -> Forall seg_ok l -> joined l -> fit_growing Size l tries = Some (l1, n, l2) ->
  Size <= n /\ Forall seg_ok (l1 ++ (n, true) :: l2) /\ joined (l1 ++ (n, true) :: l2) /\ forall a, used a (l1 ++ (n, true) :: l2) = used a l.
Proof.
  assert (forall l l1 n l2, Forall seg_ok l -> joined l -> first_fit Size l = Some (l1, n, l2) ->
    Size <= n /\ Forall seg_ok (l1 ++ (n, true) :: l2) /\ joined (l1 ++ (n, true) :: l2) /\ forall a, used a (l1 ++ (n, true) :: l2) = used a l) as H0.
  { intros l l1 n l2 Hl Hj Hf. by destruct (first_fit_app _ _ _ _ _ Hf) as [-> ?]. }
  induction tries as [|tries IH]; intros l l1 n l2 HS Hl Hj; cbn [fit_growing]; destruct (first_fit Size l) as [[[k1 k] k2]|] eqn:E;
    intros Hf; [injection Hf as -> -> ->; by apply H0|done|injection Hf as -> -> ->; by apply H0|].
  destruct (round_up_ok Size HS) as (HK1 & HK2 & _).
  destruct (IH (grow (round_up Size) l) l1 n l2 HS) as (H1 & H2 & H3 & H4); [by apply grow_ok|by apply grow_joined|done|]. split_and!; try done. intros a. by rewrite H4, used_grow.
Qed.

(** [malloc] gives one segment more, of enough bytes, and leaves what others hold. *)
Lemma malloc_holds h U Size : holds h U -> 0 <= Size < 2 ^ 60 -> room h (rounded Size) malloc_tries ->
  exists h' p n, defkmalloc h Size malloc_tries = Ok (h', p) /\ holds h' ((p, n) :: U) /\ Size <= n /\ HeapStart h' = HeapStart h /\
    forall q m k, (q, m) ∈ U -> q <= k < q + m -> data h' !! k = data h !! k.
Proof.
  intros (l & Hr & Hj & HU) HS Hroom. destruct (rounded_ok Size HS) as (HSok & HS1 & HS2). pose proof (proj1 HSok) as HS3. cbn [fst] in HS3.
  destruct (fit_growing_two (rounded Size) l ltac:(lia) (rp_ne _ _ Hr) (rp_segs _ _ Hr)) as [[[l1 n] l2] Hfit].
  destruct (fit_growing_inv (rounded Size) _ _ _ _ _ ltac:(lia) (rp_segs _ _ Hr) Hj Hfit) as (Hn & Hok & Hj' & Hu).
  destruct (malloc_ok malloc_tries h l Size l1 n l2 Hr ltac:(lia) HSok Hroom Hfit) as (h' & E & Hr' & S1 & Hd).
  set (a := end_of (HeapStart h) l1) in *. destruct (used_cut a n (rounded Size)) as (m & Em & Hm & Hmn & Ee).
  exists h', (a + 32), m. split; [done|]. split; [exists (l1 ++ cut n (rounded Size) ++ l2)|split_and!; [lia|done|]].
  - split_and!; [done| |].
    + pose proof (proj1 (joined_app _ _ _) Hj') as [J1 J2]. unfold cut. case_decide; cbn [app]; apply joined_app; (split; [by apply (joined_snoc l1 (n, true))|]).
      * split; [done|]. by apply (joined_cons (n, true)).
      * by apply (joined_cons (n, true)).
    + rewrite S1, !used_segments_app. fold a. rewrite Em. rewrite HU, <- (Hu (HeapStart h)), used_segments_app. fold a. cbn [used app]. rewrite Ee. apply Permutation_middle.
  - intros q k x Hq Hx. rewrite HU, <- (Hu (HeapStart h)), used_segments_app in Hq. fold a in Hq. cbn [used id] in Hq.
    apply Forall_app in Hok as [Hok1 [_ Hok2]%Forall_cons].
    assert (q + k <= HeapEnd h) as Hqe.
    { assert ((q, k) ∈ used (HeapStart h) l) as Hq' by (rewrite <- Hu, used_segments_app; exact Hq). apply used_range in Hq'; [|apply Hr]. rewrite (rp_end _ _ Hr) in Hq'. lia. }
    apply Hd; [lia|]. apply elem_of_app in Hq as [Hq|Hq]; apply used_range in Hq; try done; fold a in Hq; lia.
Qed.

(** [free] of a pointer gives its segment back, joined with free neighbours. *)
Lemma free_holds h U p n : holds h U -> (p, n) ∈ U ->
  exists h' U', defkfree h p = Ok h' /\ holds h' U' /\ U ≡ₚ (p, n) :: U' /\ data h' = data h /\ same h h'.
Proof.
  intros (l & Hr & Hj & HU) Hin. rewrite HU in Hin. apply used_split in Hin as (l1 & l2 & -> & ->). set (a := end_of (HeapStart h) l1).
  destruct (rep_get _ _ _ _ Hr) as (_ & Ha & [Hs _] & Hend & _). fold a in Ha, Hend. cbn [fst] in Hs, Hend. pose proof (rp_bound _ _ Hr).
  unfold defkfree. rewrite decide_False by lia. change sizeof_HeapSegHdr with 32. rewrite (wrapu_small 64) by lia. replace (a + 32 - 32) with a by lia.
  destruct (mark_ok h l1 (n, false) l2 true Hr) as (h1 & E1 & Hr1 & D1 & S1). fold a in E1. rewrite E1. cbn [bind fst] in *.
  destruct (CombineForward_ok h1 l1 (n, true) l2 Hr1) as (h2 & E2 & Hr2 & D2 & S2). rewrite (proj1 S1) in E2. fold a in E2. rewrite E2. cbn [bind].
  assert (same h h2) as S2' by (unfold same in *; intuition congruence).
  pose proof (proj1 (joined_app _ _ _) Hj) as [J1 J2].
  assert (exists t r, join (n, true) l2 = t :: r /\ snd t = true /\ joined (t :: r) /\ end_of a (t :: r) = end_of a ((n, false) :: l2) /\
    used a (t :: r) = used (a + 32 + n) l2) as (t & r & Ej & Ht & Jt & Et & Ut).
  { destruct l2 as [|[m []] l2]; cbn [join].
    - by do 2 eexists.
    - do 2 eexists. split; [done|]. split_and!; [done| | |].
      + destruct J2 as [_ J2]. by apply (joined_cons (m, true)).
      + cbn. f_equal. lia.
      + cbn. f_equal. lia.
    - do 2 eexists. split; [done|]. split_and!; [done| |done|done]. split; [done|]. apply J2. }
  rewrite Ej in Hr2.
  assert (U ≡ₚ (a + 32, n) :: used (HeapStart h) l1 ++ used (a + 32 + n) l2) as HU'.
  { rewrite HU, used_segments_app. fold a. cbn [used]. by rewrite Permutation_middle. }
  destruct l1 as [|s l1 _] using rev_ind.
  - cbn [app] in Hr2. pose proof (CombineBackward_first _ _ _ Hr2) as E3. rewrite (proj1 S2') in E3. change a with (HeapStart h). rewrite E3.
    exists h2, (used (HeapStart h) (t :: r)). split_and!; [done| | |congruence|apply S2'..].
    + exists (t :: r). split_and!; [done|done|]. by rewrite (proj1 S2').
    + rewrite HU'. unfold a in Ut |- *. cbn [end_of] in Ut |- *. rewrite Ut. done.
  - rewrite <- app_assoc in Hr2. destruct (CombineBackward_ok h2 l1 s t r Hr2 Ht) as (h3 & E3 & Hr3 & D3 & S3). rewrite (proj1 S2') in E3. fold a in E3.
    rewrite E3. assert (same h h3) as S3' by (unfold same in *; intuition congruence).
    eexists h3, (used (HeapStart h) _). split_and!; [done|eexists; split_and!; [exact Hr3| |by rewrite (proj1 S3')]| |congruence|apply S3'..].
    + pose proof J1 as J1'. rewrite <- app_assoc in J1. apply joined_app in J1 as [J1 J3]. destruct s as [k f]. cbn [snd fst]. destruct f; apply joined_app.
      * split; [by apply (joined_snoc l1 (k, true))|]. by apply (joined_cons t).
      * split; [done|]. by split.
    + rewrite HU', used_segments_app. apply perm_skip. destruct s as [k f]. cbn [snd fst]. rewrite used_segments_app, <- app_assoc. apply Permutation_app; [done|].
      unfold a in Ut, Et |- *. rewrite end_of_app in Ut |- *. cbn [end_of fst] in Ut |- *. destruct t as [m g]. cbn in Ht. subst g.
      destruct f; cbn [used id] in *; [|cbn [app]; by rewrite Ut].
      cbn [app fst]. rewrite <- Ut. match goal with |- used ?x r ≡ₚ used ?y r => replace y with x by lia end. done.
Qed.

(** ** Programs *)

(** What a program holds: pointers and the sizes it asked for. *)
Inductive client : sheap * list (Z * Z) -> sheap * list (Z * Z) -> Prop :=
  | client_malloc h L n h' p : 0 <= n < 2 ^ 60 -> room h (rounded n) malloc_tries -> defkmalloc h n malloc_tries = Ok (h', p) ->
      client (h, L) (h', (p, n) :: L)
  | client_free h L1 p n L2 h' : defkfree h p = Ok h' -> client (h, L1 ++ (p, n) :: L2) (h', L1 ++ L2)
  | client_write h L p n k v h' : (p, n) ∈ L -> p <= k < p + n -> fill h k v 1 = Ok h' -> client (h, L) (h', L).

Definition within (x u : Z * Z) : Prop := fst x = fst u /\ snd x <= snd u.

Definition client_ok (s : sheap * list (Z * Z)) : Prop := exists U, holds (fst s) U /\ Forall2 within (snd s) U.

Lemma within_split L U p n : Forall2 within L U -> (p, n) ∈ L -> exists m, n <= m /\ (p, m) ∈ U.
Proof.
  induction 1 as [|x u L U [H1 H2] _ IH]; [by intros ?%elem_of_nil|]. intros [<-|Hin]%elem_of_cons.
  - exists (snd u). destruct u. cbn in *. subst. split; [done|by left].
  - destruct (IH Hin) as (m & ? & ?). exists m. split; [done|by right].
Qed.

(** A byte of a segment in use can be written. *)
Lemma fill_holds h U p m k v : holds h U -> (p, m) ∈ U -> p <= k < p + m -> exists h', fill h k v 1 = Ok h' /\ holds h' U.
Proof.
  intros (l & Hr & Hj & HU) Hin Hk. rewrite HU in Hin. pose proof (used_range _ _ _ _ (rp_segs _ _ Hr) Hin) as (Hp1 & Hp2 & _).
  rewrite (rp_end _ _ Hr) in Hp2. pose proof (rp_start _ _ Hr). unfold fill. rewrite decide_False by lia. unfold in_heap. rewrite bool_decide_true by lia.
  eexists. split; [done|]. exists l. split; [|done]. destruct Hr as [R1 R2 R3 R4 R5 R6 R7 R8]. split; cbn [HeapStart HeapEnd LastHdr segs]; try done.
  - revert R3. apply linked_heads. intros x Hx. apply segs_outside_Some. pose proof (used_heads _ _ _ _ _ R7 Hin Hx). lia.
  - rewrite segs_outside_Some by lia. done.
Qed.

Lemma segment_client_step s s' : client_ok s -> client s s' -> client_ok s'.
Proof.
  intros (U & HU & HL) Hs. destruct Hs as [h L n h' p Hn Hroom E|h L1 p n L2 h' E|h L p n k v h' Hin Hk E]; cbn [fst snd] in *.
  - destruct (malloc_holds h U n HU Hn Hroom) as (h1 & q & m & E1 & H1 & Hm & _). rewrite E in E1. injection E1 as -> ->.
    exists ((q, m) :: U). by split; [|constructor].
  - apply Forall2_app_inv_l in HL as (U1 & U2 & HL1 & HL2 & ->). inversion HL2 as [|x u L U' [H1 H2] HL3]; subst. destruct u as [q m]. cbn in H1, H2. subst q.
    destruct (free_holds h (U1 ++ (p, m) :: U') p m HU) as (h1 & V & E1 & H1 & HV & _); [apply elem_of_app; right; by left|].
    rewrite E in E1. injection E1 as ->. exists (U1 ++ U'). split; [|by apply Forall2_app]. cbn [fst].
    destruct H1 as (l & R1 & R2 & R3). exists l. split_and!; [done|done|]. rewrite <- R3. apply (Permutation_cons_inv (a := (p, m))). rewrite <- HV. apply Permutation_middle.
  - destruct (within_split _ _ _ _ HL Hin) as (m & Hm & HinU). destruct (fill_holds h U p m k v HU HinU ltac:(lia)) as (h1 & E1 & H1).
    rewrite E in E1. injection E1 as ->. by exists U.
Qed.

Lemma segment_client_reachable s s' : client_ok s -> rtc client s s' -> client_ok s'.
Proof. intros H1 H2. induction H2; [done|]. eauto using segment_client_step. Qed.

(** The heap that [InitHeap] makes. *)
Lemma InitHeap_ok p zero a n h : InitHeap p zero a n = Ok h -> is_Some (zero !! 0) -> 32 <= a -> (16 | a) -> 0 < n -> a + n * 4096 < 2 ^ 64 -> n * 4096 < 2 ^ 62 ->
  client_ok (h, []).
Proof.
  intros E Hz Ha Hda Hn H64 H62. unfold InitHeap in E. destruct (map_pages p a (Z.to_nat n)) as [p'|]; [|done]. cbn [bind] in E. unfold PAGE_SIZE in E.
  rewrite !(wrapu_small 64) in E by (unfold sizeof_HeapSegHdr; rewrite ?wrapu_small; lia). unfold put_seg, in_heap in E. cbn [HeapStart HeapEnd] in E.
  rewrite bool_decide_true in E by (unfold sizeof_HeapSegHdr; lia). injection E as <-. exists []. split; [|done].
  exists [(n * 4096 - 32, true)]. split; [|done].
  split; cbn [HeapStart HeapEnd LastHdr segs end_of last_at fst]; try done; try lia.
  - split; [lia|done].
  - cbn [linked fst snd]. by rewrite lookup_insert_eq.
  - constructor; [|done]. split; cbn [fst]; [lia|]. exists (n * 256 - 2). lia.
  - rewrite lookup_insert_ne by lia. rewrite segs_outside_Some; [done|]. cbn. lia.
Qed.

(** C16 The default heap, from its initialisation with page 0 mapped: whatever a program
    allocates, releases of what it holds and writes to its own bytes, its pointers
    are aligned and name disjoint ranges inside the heap, and the next allocation (when
    there are pages to grow), release or write does what it should, without a fault. *)
Theorem segment_heap_safe p zero a n h0 h L : InitHeap p zero a n = Ok h0 -> is_Some (zero !! 0) ->
  32 <= a -> (16 | a) -> 0 < n -> a + n * 4096 < 2 ^ 64 -> n * 4096 < 2 ^ 62 -> rtc client (h0, []) (h, L) ->
  pairwise (fun x y => fst x + snd x <= fst y \/ fst y + snd y <= fst x) L /\
  (forall q m, (q, m) ∈ L -> HeapStart h < q /\ q + m <= HeapEnd h /\ (16 | q) /\
    (exists h', defkfree h q = Ok h') /\ forall k v, q <= k < q + m -> exists h', fill h k v 1 = Ok h') /\
  forall m, 0 <= m < 2 ^ 60 -> room h (rounded m) malloc_tries -> exists h' q, defkmalloc h m malloc_tries = Ok (h', q) /\
    (forall x k y, (x, y) ∈ L -> x <= k < x + y -> data h' !! k = data h !! k).
Proof.
  intros E Hz Ha Hda Hn H64 H62 Hrun. pose proof (segment_client_reachable _ _ (InitHeap_ok p zero a n h0 E Hz Ha Hda Hn H64 H62) Hrun) as (U & HU & HL). cbn [fst snd] in *.
  pose proof HU as (l & Hr & Hj & Hperm). split_and!.
  - assert (pairwise apart U) as Hp.
    { apply (pairwise_perm apart (used (HeapStart h) l)); [unfold apart; intros; lia|done|]. apply used_apart, Hr. }
    clear -HL Hp. induction HL as [|x u L U [H1 H2] HL IH]; [done|]. destruct Hp as [Hp1 Hp2]. split; [|by apply IH].
    clear IH Hp2. induction HL as [|y w L U [H3 H4] HL IH]; [done|]. apply Forall_cons in Hp1 as [Hp Hp1]. constructor; [|by apply IH]. unfold apart in Hp. lia.
  - intros q m Hin. destruct (within_split _ _ _ _ HL Hin) as (m' & Hm & HinU). pose proof HinU as Hinu. rewrite Hperm in Hinu.
    pose proof (used_range _ _ _ _ (rp_segs _ _ Hr) Hinu) as (? & ? & _). rewrite (rp_end _ _ Hr) in *. split_and!; [lia|lia| | |].
    + eapply used_aligned; [apply Hr| |exact Hinu]. apply (rp_start _ _ Hr).
    + destruct (free_holds h U q m' HU HinU) as (h' & _ & E' & _). by exists h'.
    + intros k v Hk. destruct (fill_holds h U q m' k v HU HinU ltac:(lia)) as (h' & E' & _). by exists h'.
  - intros m Hm Hroom. destruct (malloc_holds h U m HU Hm Hroom) as (h' & q & k & E' & _ & _ & _ & Hd). exists h', q. split; [done|].
    intros x z y Hin Hz'. destruct (within_split _ _ _ _ HL Hin) as (m' & Hm' & HinU). apply (Hd x m' z HinU). lia.
Qed.

(** ** Without page 0 *)

(** The first allocation from a new heap writes through the null pointer behind its
    only segment, when no page is mapped at 0. *)
Theorem first_malloc_null p a n h Size tries : InitHeap p ∅ a n = Ok h -> 32 <= a -> 0 < n -> a + n * 4096 < 2 ^ 64 -> n * 4096 < 2 ^ 62 ->
  0 <= Size -> rounded Size + 80 <= n * 4096 -> 16 <= rounded Size -> defkmalloc h Size tries = Err NullDeref.
Proof.
  intros E Ha Hn H64 H62 HS HSn HS16. unfold InitHeap in E. destruct (map_pages p a (Z.to_nat n)) as [p'|]; [|done]. cbn [bind] in E. unfold PAGE_SIZE in E.
  rewrite !(wrapu_small 64) in E by (unfold sizeof_HeapSegHdr; rewrite ?wrapu_small; lia). unfold put_seg, in_heap in E. cbn [HeapStart HeapEnd] in E.
  rewrite bool_decide_true in E by (unfold sizeof_HeapSegHdr; lia). injection E as <-. set (h := mk_sheap _ _ _ _ _ _).
  assert (segs h !! a = Some (mk_seg (n * 4096 - 32) 0 0 true)) as Eh by (cbn; by rewrite lookup_insert_eq).
  assert (segs h !! 0 = None) as E0.
  { cbn. rewrite lookup_insert_ne by lia. apply map_lookup_filter_None. by left. }
  destruct tries; cbn [defkmalloc]; change (HeapStart h) with a; rewrite decide_False by lia; rewrite decide_False by lia;
    unfold walk_fuel; cbn [find_segment]; rewrite (get_seg_Some _ _ _ Eh); cbn [bind IsFree SegmentHeap.Length andb]; rewrite bool_decide_true by lia;
    unfold Split; rewrite decide_False by lia; rewrite (get_seg_Some _ _ _ Eh); cbn [bind SegmentHeap.Length Next];
    rewrite decide_False by (rewrite wraps_small; unfold sizeof_HeapSegHdr; lia); unfold mod_seg at 1, get_seg; rewrite E0; done.
Qed.

(** ** Xalloc *)

(** The segments that Xalloc finds end before the one it takes for the last. *)
Record lost h l : Prop := {
  ls_start : 0 < HeapStart h;
  ls_segs : Forall seg_ok l;
  ls_linked : linked (segs h) 0 (HeapStart h) l 0;
  ls_end : forall k, k ∈ heads (HeapStart h) l -> k + 32 <= HeapEnd h;
  ls_last : 0 < LastHdr h /\ LastHdr h + 32 <= HeapEnd h /\ LastHdr h ∉ heads (HeapStart h) l /\ is_Some (segs h !! LastHdr h)
}.

Lemma X_ExpandHeap_lost h l Size k : lost h l -> 16 <= Size < 2 ^ 62 -> let K := round_up Size in HeapEnd h + K < 2 ^ 64 -> HeapStart h <= HeapEnd h ->
  can_map (Z.to_nat (K / 4096) + k) (sh_pages h) ->
  exists h', X_ExpandHeap h Size = Ok h' /\ lost h' l /\ HeapStart h' = HeapStart h /\ HeapEnd h' = HeapEnd h + K /\ can_map k (sh_pages h').
Proof.
  intros [Hst Hok Hl He (HL1 & HL2 & HL3 & [y Ey])] HS K H64 Hse Hp. destruct (round_up_ok Size HS) as ([K' EK] & HK & HSK). fold K in EK, HK, HSK.
  assert (K / PAGE_SIZE = K') as EK' by (unfold PAGE_SIZE; rewrite EK, Z.div_mul; lia). unfold X_ExpandHeap. fold K. rewrite EK'.
  destruct (map_pages_can k (Z.to_nat K') (sh_pages h) (HeapEnd h)) as (p' & -> & Hp').
  { revert Hp. rewrite EK at 1. by rewrite Z.div_mul by lia. }
  cbn [bind]. set (h1 := set_HeapEnd _ _). assert (u64 (HeapEnd h + K' * PAGE_SIZE) = HeapEnd h + K) as Eu by (rewrite wrapu_small; unfold PAGE_SIZE; lia).
  assert (HeapEnd h1 = HeapEnd h + K) as Eh1 by exact Eu. unfold put_seg, in_heap. change (HeapStart h1) with (HeapStart h). rewrite Eh1.
  rewrite bool_decide_true by (unfold sizeof_HeapSegHdr; lia). cbn [bind]. change (LastHdr h1) with (LastHdr h). change (segs_outside h1) with (segs_outside h).
  set (new := mk_seg _ _ _ _). set (h2 := mk_sheap _ _ _ _ _ _). set (e := HeapEnd h) in *. set (b := LastHdr h) in *.
  assert (forall x, x + 32 <= e -> segs h2 !! x = segs h !! x) as E2.
  { intros x Hx. cbn [segs h2]. rewrite lookup_insert_ne by lia. apply segs_outside_Some. by left. }
  assert (segs h2 !! b = Some y) as E2b by (by rewrite E2). rewrite (mod_Some _ _ _ _ E2b). cbn [bind]. set (h3 := set_LastHdr _ _).
  assert (segs h3 !! e = Some new) as E3 by (cbn [segs h3 h2 set_LastHdr set_segs]; rewrite lookup_insert_ne, lookup_insert_eq by lia; done).
  assert (segs h3 !! b = Some (set_Next e y)) as E3b by (cbn [segs h3 h2 set_LastHdr set_segs]; by rewrite lookup_insert_eq).
  assert (forall x, x ∈ heads (HeapStart h) l -> segs h3 !! x = segs h !! x) as E3h.
  { intros x Hx. cbn [segs h3 set_LastHdr set_segs]. rewrite lookup_insert_ne by (intros <-; done). by apply E2, He. }
  assert (exists h4, CombineBackward h3 e = Ok h4 /\ HeapStart h4 = HeapStart h /\ HeapEnd h4 = e + K /\ sh_pages h4 = p' /\
    segs h4 !! e = Some new /\ forall x, x <> b -> segs h4 !! x = segs h3 !! x) as (h4 & E4 & F1 & F2 & F3 & F4 & F5).
  { unfold CombineBackward. rewrite (get_seg_Some _ _ _ E3). cbn [bind Last new]. rewrite decide_False by lia. rewrite (get_seg_Some _ _ _ E3b). cbn [bind].
    change (IsFree (set_Next e y)) with (IsFree y). destruct (IsFree y); [|exists h3; split_and!; done].
    unfold CombineForward. rewrite (get_seg_Some _ _ _ E3b). cbn [bind Next set_Next]. rewrite decide_False by lia. rewrite (get_seg_Some _ _ _ E3).
    cbn [bind IsFree new Next]. rewrite decide_True by (cbn [LastHdr h3 set_LastHdr]; done). rewrite decide_True by done. cbn [bind].
    rewrite (mod_Some (set_LastHdr h3 b) b _ _ E3b). cbn [bind]. unfold mod_seg at 1, get_seg. cbn [segs set_segs set_LastHdr]. rewrite lookup_insert_eq. cbn [bind].
    eexists. split; [done|]. split_and!; try done.
    - cbn [segs set_segs]. rewrite !lookup_insert_ne by lia. exact E3.
    - intros x Hx. cbn [segs set_segs]. by rewrite !lookup_insert_ne by done. }
  unfold X_CombineBackward. rewrite E4. cbn [bind]. eexists. split; [done|]. cbn [HeapStart HeapEnd sh_pages set_LastHdr]. rewrite F1, F2, F3. split_and!; try done.
  split; cbn [HeapStart HeapEnd LastHdr segs set_LastHdr h3]; rewrite ?F1, ?F2; try done.
  - revert Hl. apply linked_heads. intros x Hx. rewrite F5 by (intros ->; done). by apply E3h.
  - intros x Hx. apply He in Hx. lia.
  - split_and!; [lia|lia| |by eexists]. intros Hin. apply He in Hin. lia.
Qed.

(** A search without result, whatever splitting does. *)
Lemma find_segment_none split h Size l : first_fit Size l = None -> forall p a fuel, linked (segs h) p a l 0 -> Forall seg_ok l -> 0 < a -> l <> [] ->
  (length l <= fuel)%nat -> find_segment split h a Size fuel = Ok None.
Proof.
  induction l as [|[n f] l IH]; intros Hff p a fuel Hlk Hok Ha Hne Hf; [done|]. destruct Hlk as [E Hl]. destruct fuel as [|fuel]; [cbn in Hf; lia|].
  apply Forall_cons in Hok as [[Hs _] Hok]. cbn [fst snd] in *. cbn [find_segment]. rewrite (get_seg_Some _ _ _ E). cbn [bind IsFree SegmentHeap.Length Next].
  cbn [first_fit] in Hff. assert (f && bool_decide (Size <= n) = false /\ first_fit Size l = None) as [Hn Hff'].
  { destruct (f && bool_decide (Size <= n)); [done|]. by destruct (first_fit Size l) as [[[? ?] ?]|]. }
  assert (f && bool_decide (Size < n) = false /\ f && bool_decide (n = Size) = false) as [-> ->].
  { destruct f; [|done]. cbn in *. apply bool_decide_eq_false in Hn. rewrite !bool_decide_false by lia. done. }
  destruct l as [|t l]; [by rewrite decide_True|]. rewrite decide_False by lia. apply (IH Hff' a); [done|done|lia|done|cbn in *; lia].
Qed.

(** Xalloc: once the segment taken for the last is not among those that a search
    meets, an allocation for which none of them is large enough never returns: pages are
    added again and again behind a segment that is not in the list. *)
Theorem xalloc_never_returns h l Size tries : lost h l -> HeapStart h <= HeapEnd h -> 0 <= Size < 2 ^ 60 -> l <> [] -> first_fit (rounded Size) l = None ->
  room h (rounded Size) tries -> X_Malloc h Size tries = Err OutOfFuel.
Proof.
  intros Hlost Hse HS Hne Hff. destruct (rounded_ok Size HS) as (HSok & _ & HS2). pose proof (proj1 HSok) as HS3. cbn [fst] in HS3.
  pose proof (rounded_idem _ HSok) as Eid. destruct (round_up_ok (rounded Size) ltac:(lia)) as (_ & HK & _). cbv zeta in HK.
  assert (forall tries h S, rounded S = rounded Size -> lost h l -> HeapStart h <= HeapEnd h -> room h (rounded Size) tries -> X_Malloc h S tries = Err OutOfFuel) as Hgen;
    [|by apply Hgen].
  clear h Hlost Hse. clear tries. induction tries as [|tries IH]; intros h S ES Hlost Hse (Hb1 & Hb2 & Hp); pose proof Hlost as [Hst Hok Hl _ _];
    destruct (linked_size _ _ _ _ _ Hok Hl) as (X & HX & Hd & _); apply subseteq_size in Hd; rewrite size_dom in Hd;
    cbn [X_Malloc]; rewrite ES, decide_False by lia; rewrite decide_False by lia;
    rewrite (find_segment_none _ _ _ _ Hff 0) by (done || (unfold walk_fuel; lia)); cbn [bind]; [done|].
  destruct (X_ExpandHeap_lost h l (rounded Size) (tries * Z.to_nat (round_up (rounded Size) / 4096)) Hlost) as (h' & E & Hl' & S1 & S2 & P'); [lia|lia|done|exact Hp|].
  rewrite E. cbn [bind]. apply IH; [by rewrite Eid|done|lia|]. unfold room. rewrite S1, S2. split_and!; [lia|lia|done].
Qed.
End rep.

(** ** Witnesses *)

(** Pages without end, and a header in the page at 0. *)
#[local] Instance endless : HeapPages unit := { map_page _ _ := Ok tt }.
Definition zero_page : gmap Z HeapSegHdr := {[0 := mk_seg 0 0 0 false]}.
Definition heap_base : Z := 0xFFFFC00000000000.

Lemma endless_can_map k : can_map k tt.
Proof. induction k as [|k IH]; [done|]. intros a. by exists tt. Qed.

Definition default_heap : sheap := match InitHeap tt zero_page heap_base 0x20 with Ok h => h | Err _ => mk_sheap tt 0 0 0 ∅ ∅ end.
Lemma default_heap_made : InitHeap tt zero_page heap_base 0x20 = Ok default_heap.
Proof. vm_compute. reflexivity. Qed.
Definition after_malloc (h : sheap) (n : Z) : sheap := match defkmalloc h n malloc_tries with Ok (h, _) => h | Err _ => h end.

Lemma small_room h n tries : HeapEnd h + Z.of_nat tries * round_up (rounded n) < 2 ^ 64 -> HeapEnd h + Z.of_nat tries * round_up (rounded n) - HeapStart h < 2 ^ 62 ->
  room h (rounded n) tries.
Proof. intros H1 H2. split_and!; [done|done|]. destruct (sh_pages h). apply endless_can_map. Qed.

Lemma segment_heap_safe_witness : exists h' q, defkmalloc (after_malloc default_heap 100) 200000 malloc_tries = Ok (h', q).
Proof.
  assert (rtc client (default_heap, []) (after_malloc default_heap 100, [(heap_base + 32, 100)])) as Hrun.
  { apply rtc_once, client_malloc; [lia|apply small_room; vm_compute; reflexivity|vm_compute; reflexivity]. }
  destruct (segment_heap_safe tt zero_page heap_base 0x20 default_heap (after_malloc default_heap 100) [(heap_base + 32, 100)] default_heap_made) as (_ & _ & Hm); [..|exact Hrun|].
  - by exists (mk_seg 0 0 0 false).
  - by vm_compute.
  - by exists (heap_base / 16).
  - done.
  - by vm_compute.
  - by vm_compute.
  - destruct (Hm 200000) as (h' & q & E & _); [lia|apply small_room; vm_compute; reflexivity|]. exists h', q. exact E.
Defined.

Lemma first_malloc_null_witness :
  defkmalloc (match InitHeap tt ∅ heap_base 0x20 with Ok h => h | Err _ => mk_sheap tt 0 0 0 ∅ ∅ end) 100 malloc_tries = Err NullDeref.
Proof. apply (first_malloc_null tt heap_base 0x20); [reflexivity|by vm_compute|lia|by vm_compute|by vm_compute|lia|by vm_compute|by vm_compute]. Defined.

(** A new heap of Xalloc after one allocation of 128 KiB: its two segments are
    found, but what it takes for the last is the segment that was joined to the first. *)
Definition xalloc_heap : sheap := match AllocatorV1 tt zero_page heap_base with Ok h => h | Err _ => mk_sheap tt 0 0 0 ∅ ∅ end.
Definition xalloc_after (n : Z) : sheap := match X_Malloc xalloc_heap n malloc_tries with Ok (h, _) => h | Err _ => xalloc_heap end.

Example xalloc_first : exists h, X_Malloc xalloc_heap 0x20000 malloc_tries = Ok (h, heap_base + 32) /\ LastHdr h = heap_base + 0x10000.
Proof. eexists. split; vm_compute; reflexivity. Qed.

Lemma xalloc_never_returns_witness : X_Malloc (xalloc_after 0x20000) 0x20000 1000 = Err OutOfFuel.
Proof.
  assert (HeapStart (xalloc_after 0x20000) = heap_base) as E1 by (vm_compute; reflexivity).
  assert (HeapEnd (xalloc_after 0x20000) = heap_base + 0x30000) as E2 by (vm_compute; reflexivity).
  assert (LastHdr (xalloc_after 0x20000) = heap_base + 0x10000) as E3 by (vm_compute; reflexivity).
  assert (forall k, k ∈ heads heap_base [(0x20000, false); (65472, true)] -> k = heap_base \/ k = heap_base + 0x20020) as Hh.
  { intros k. cbn [heads fst]. rewrite !elem_of_cons. intros [->|[->|[]%elem_of_nil]]; [by left|right; lia]. }
  apply (xalloc_never_returns _ [(0x20000, false); (65472, true)]).
  - split; rewrite ?E1, ?E2, ?E3.
    + by vm_compute.
    + repeat constructor; cbn [fst]; try lia; [by exists 0x2000|by exists 4092].
    + vm_compute. repeat split.
    + intros k [->| ->]%Hh; lia.
    + split_and!; [unfold heap_base; lia|lia|intros [Hk|Hk]%Hh; lia|eexists; vm_compute; reflexivity].
  - rewrite E1, E2. lia.
  - lia.
  - done.
  - by vm_compute.
  - apply small_room; rewrite ?E1, E2; vm_compute; reflexivity.
Defined.

(** On pages of the allocator, in an address space of the kernel. *)
Example on_frames :
  (let* h := @InitHeap vmm (kernel_page (2 * 4096)) sample_vmm zero_page 0x40000000 2 in
   let* '(h, p) := @defkmalloc vmm (kernel_page (2 * 4096)) h 100 malloc_tries in
   let* '(h, q) := @defkmalloc vmm (kernel_page (2 * 4096)) h 5000 malloc_tries in
   let* h := @defkfree vmm h p in
   Ok (p, q, HeapEnd h)) = Ok (0x40000020, 0x400000B0, 0x40002000).
Proof. vm_compute. reflexivity. Qed.
