(* ===== verification/KernelMemory.v ===== *)
(** * The address space of the kernel

    The clients of the page tables: src/kernel/mem/PageTableHeapManager.cpp
    (the kernel's address space), mem/StackHeapManager.cpp,
    src/kernel/proc/Binary.cpp ([CreatePageTableWithKernel]) and the memory
    system calls of src/kernel/syscalls/Native.cpp. *)

From S2P Require Import Prelude PageFrame PageTable.

Local Open Scope Z_scope.

Definition NORMAL_VMA_OFFSET : Z := 0xFFFF800000000000.

(** What the boot loader and the linker provide. *)
Record boot_info := mk_boot {
  mem_Size : Z;
  mem_KernelBasePhysical : Z;
  fb_BaseAddress : Z;
  fb_BufferSize : Z;
  kernel_start : Z;
  kernel_text_end : Z;
  kernel_rodata_end : Z;
  kernel_end : Z
}.

(** The globals: memory, [KernelPML4], [KernelPageTableManager], the register
    CR3, [CurrentCPU->PageTable] and the address the exception handlers use. *)
Record kernel := mk_kernel {
  k_vmm : vmm;
  KernelPML4 : Z;
  ktm_PML4 : Z;
  ktm_Initalized : bool;
  k_CR3 : Z;
  cpu_PageTable : Z;
  KPML4Address : Z
}.

Definition set_vmm (k : kernel) (v : vmm) : kernel :=
  mk_kernel v (KernelPML4 k) (ktm_PML4 k) (ktm_Initalized k) (k_CR3 k) (cpu_PageTable k) (KPML4Address k).

Definition init_vmm (k : kernel) : kernel :=
  mk_kernel (k_vmm k) (KernelPML4 k) (ktm_PML4 k) true (k_CR3 k) (cpu_PageTable k) (KPML4Address k).

(** ** The loops that map memory *)

(** The iterations of a loop from [from] below [limit] by pages. *)
Definition page_steps (from limit : Z) : nat := S (Z.to_nat ((limit - from) / PAGE_SIZE)).

(** [for (t = 0; t < Size; t += PAGE_SIZE)]: physical memory at its own
    addresses and at [NORMAL_VMA_OFFSET]. *)
Fixpoint map_physical (PML4 : Z) (v : vmm) (Size t VirtualOffsetNormalVMA : Z) (fuel : nat) : res vmm :=
  if decide (t < Size) then
    match fuel with
    | O => Err OutOfFuel
    | S f =>
        let* v := MapMemory PML4 v t t (Z.lor PT_RW PT_US) 0 in
        let* v := MapMemory PML4 v VirtualOffsetNormalVMA t (Z.lor PT_RW PT_US) 0 in
        map_physical PML4 v Size (u64 (t + PAGE_SIZE)) (u64 (VirtualOffsetNormalVMA + PAGE_SIZE)) f
    end
  else Ok v.

Fixpoint map_framebuffer (PML4 : Z) (v : vmm) (limit fb_base : Z) (fuel : nat) : res vmm :=
  if decide (fb_base < limit) then
    match fuel with
    | O => Err OutOfFuel
    | S f =>
        let* v := MapMemory PML4 v fb_base (u64 (fb_base - NORMAL_VMA_OFFSET)) (Z.lor PT_RW PT_US) 0 in
        map_framebuffer PML4 v limit (u64 (fb_base + PAGE_SIZE)) f
    end
  else Ok v.

(** [KernelAllocator.LockPage(a)] *)
Definition lock_page (v : vmm) (a : Z) : res vmm :=
  let* s := LockPage (v_pfa v) a in Ok (mk_vmm (v_ram v) s).

(** One section of the kernel; [lock] where the code also locks the pages.
    Gives back [BaseKernelMapAddress]. *)
Fixpoint map_section (lock : bool) (PML4 : Z) (v : vmm) (limit k Base Flags : Z) (fuel : nat) : res (vmm * Z) :=
  if decide (k < limit) then
    match fuel with
    | O => Err OutOfFuel
    | S f =>
        let* v := MapMemory PML4 v k Base Flags 0 in
        let* v := if lock then lock_page v Base else Ok v in
        map_section lock PML4 v limit (u64 (k + PAGE_SIZE)) (u64 (Base + PAGE_SIZE)) Flags f
    end
  else Ok (v, Base).

(** The loops of [init_kernelpml] and of [CreatePageTableWithKernel]. *)
Definition map_kernel (lock : bool) (PML4 : Z) (v : vmm) (b : boot_info) : res vmm :=
  let* v := map_physical PML4 v (mem_Size b) 0 NORMAL_VMA_OFFSET (page_steps 0 (mem_Size b)) in
  let limit := u64 (fb_BaseAddress b + u64 (fb_BufferSize b + PAGE_SIZE)) in
  let* v := map_framebuffer PML4 v limit (fb_BaseAddress b) (page_steps (fb_BaseAddress b) limit) in
  let* '(v, Base) := map_section lock PML4 v (kernel_text_end b) (kernel_start b) (mem_KernelBasePhysical b) PT_RW
                       (page_steps (kernel_start b) (kernel_text_end b)) in
  let* '(v, Base) := map_section lock PML4 v (kernel_rodata_end b) (kernel_text_end b) Base PT_P
                       (page_steps (kernel_text_end b) (kernel_rodata_end b)) in
  let* '(v, Base) := map_section lock PML4 v (kernel_end b) (kernel_rodata_end b) Base PT_RW
                       (page_steps (kernel_rodata_end b) (kernel_end b)) in
  Ok v.

Definition init_kernelpml (k : kernel) (b : boot_info) : res kernel :=
  if decide (KernelPML4 k = 0) then
    let* '(v, PML4) := request_page (k_vmm k) in
    let* v := clear_table v PML4 in
    let* v := map_kernel true PML4 v b in
    Ok (mk_kernel v PML4 PML4 false PML4 PML4 PML4)
  else Ok k.

(** [ptm] is the manager of a new address space. *)
Definition CreatePageTableWithKernel (k : kernel) (ptm_PML4 : Z) (b : boot_info) : res kernel :=
  let* v := MapMemory ptm_PML4 (k_vmm k) (ktm_PML4 k) (ktm_PML4 k) PT_RW 0 in
  let* v := map_kernel false ptm_PML4 v b in
  Ok (set_vmm k v).

(** [PageTableHeap]: every address space is the kernel's. *)
Definition CreatePageTable (k : kernel) (User : bool) : Z := KernelPML4 k.
Definition RemovePageTable (k : kernel) (PageTable : Z) : kernel := k.

(** ** Stacks *)

Definition AllocateStack (k : kernel) (User : bool) : res (kernel * Z) :=
  let* '(v, Address) := request_page (k_vmm k) in
  let* v := if User then MapMemory (ktm_PML4 k) v Address Address (Z.lor PT_RW PT_US) 0 else Ok v in
  Ok (set_vmm k v, Address).

Definition free_page (v : vmm) (a : Z) : res vmm :=
  let* s := FreePage (v_pfa v) a in Ok (mk_vmm (v_ram v) s).

Definition FreeStack (k : kernel) (Address : Z) : res kernel :=
  let* v := free_page (k_vmm k) Address in Ok (set_vmm k v).

(** ** System calls for pages *)

(** src/kernel/security/Security.cpp returns before it looks at the token. *)
Definition CanSyscall : bool := true.
Definition deniedcall : Z := u64 (- 0xde61edca11).

Definition internal_requestpage (k : kernel) : res (kernel * Z) :=
  if CanSyscall then
    let* '(v, ret) := request_page (k_vmm k) in
    let* v := MapMemory (ktm_PML4 k) v ret ret (Z.lor PT_US PT_RW) 0 in
    Ok (set_vmm k v, ret)
  else Ok (k, deniedcall).

Definition internal_freepage (k : kernel) (page : Z) : res kernel :=
  if CanSyscall then
    let* v := free_page (k_vmm k) page in
    let* v := UnmapMemory (ktm_PML4 k) v page 0 in
    let* v := MapMemory (ktm_PML4 k) v page page PT_RW 0 in
    Ok (set_vmm k v)
  else Ok k.

(** [for (i = from; i < limit; i += PAGE_SIZE)] with the identity mapping;
    [unmap] where the code calls [UnmapMemory] first. *)
Fixpoint map_identity (unmap : bool) (PML4 : Z) (v : vmm) (limit i Flags : Z) (fuel : nat) : res vmm :=
  if decide (i < limit) then
    match fuel with
    | O => Err OutOfFuel
    | S f =>
        let* v := if unmap then UnmapMemory PML4 v i 0 else Ok v in
        let* v := MapMemory PML4 v i i Flags 0 in
        map_identity unmap PML4 v limit (u64 (i + PAGE_SIZE)) Flags f
    end
  else Ok v.

Definition internal_requestpages (k : kernel) (pages : Z) : res (kernel * Z) :=
  if CanSyscall then
    let* '(s, ret) := RequestPages (v_pfa (k_vmm k)) pages in
    let limit := u64 (ret + u64 (pages * PAGE_SIZE)) in
    let* v := map_identity false (ktm_PML4 k) (mk_vmm (v_ram (k_vmm k)) s) limit ret (Z.lor PT_US PT_RW) (page_steps ret limit) in
    Ok (set_vmm k v, ret)
  else Ok (k, deniedcall).

Definition internal_freepages (k : kernel) (page pages : Z) : res kernel :=
  if CanSyscall then
    let* s := FreePages (v_pfa (k_vmm k)) page pages in
    let limit := u64 (page + u64 (pages * PAGE_SIZE)) in
    let* v := map_identity true (ktm_PML4 k) (mk_vmm (v_ram (k_vmm k)) s) limit page PT_RW (page_steps page limit) in
    Ok (set_vmm k v)
  else Ok k.
