(* ===== verification/KernelMemorySpec.v ===== *)
(** * The kernel's address space is the intended one

    The loops of [init_kernelpml] as lists of mappings, the translations they
    leave, and what the stack allocator and the memory system calls do to
    pages and translations. *)

From S2P Require Import Prelude PageFrame PageFrameSpec PageTable PageTableSpec KernelMemory AddressSpace.

Local Open Scope Z_scope.

(** ** Pages of the regions *)

Lemma page_of_low a : 0 <= a < 2 ^ 47 -> page_of a = a / 4096.
Proof.
  intros H. unfold page_of. apply Z.mod_small. pose proof (Z.div_pos a 4096). pose proof (Z.div_lt_upper_bound a 4096 (2 ^ 35)). lia.
Qed.

Lemma page_of_high a : 2 ^ 64 - 2 ^ 47 <= a < 2 ^ 64 -> page_of a = a / 4096 - (2 ^ 52 - 2 ^ 36).
Proof.
  intros H. unfold page_of. replace (a / 4096) with ((a / 4096 - (2 ^ 52 - 2 ^ 36)) + (2 ^ 16 - 1) * 2 ^ 36) at 1 by lia.
  rewrite Z_mod_plus_full. apply Z.mod_small.
  pose proof (Z.div_le_lower_bound a 4096 (2 ^ 52 - 2 ^ 35)). pose proof (Z.div_lt_upper_bound a 4096 (2 ^ 52)). lia.
Qed.

(** ** Loops over pages *)

(** The iterations of a loop from [from] below [limit]. *)
Definition count (from limit : Z) : nat := Z.to_nat ((limit - from + 4095) / 4096).

Lemma count_done from limit : limit <= from -> count from limit = O.
Proof. intros H. unfold count. pose proof (Z.div_lt_upper_bound (limit - from + 4095) 4096 1). lia. Qed.

Lemma count_more from limit : from < limit -> count from limit = S (count (from + 4096) limit).
Proof.
  intros H. unfold count. replace (limit - from + 4095) with (limit - (from + 4096) + 4095 + 1 * 4096) by lia.
  rewrite Z.div_add by lia. pose proof (Z.div_pos (limit - (from + 4096) + 4095) 4096). lia.
Qed.

Lemma count_steps from limit : (count from limit <= page_steps from limit)%nat.
Proof.
  unfold count, page_steps, PAGE_SIZE.
  assert ((limit - from + 4095) / 4096 <= (limit - from) / 4096 + 1); [|lia].
  rewrite <- Z.div_add by lia. apply Z.div_le_mono; lia.
Qed.

(** The pages of [from, limit) are those of the iterations. *)
Lemma count_page from limit a : from mod 4096 = 0 -> from <= a < limit ->
  0 <= a / 4096 - from / 4096 < Z.of_nat (count from limit).
Proof.
  intros Hal H. unfold count. pose proof (Z.div_mod from 4096). pose proof (Z.div_mod a 4096). pose proof (Z.mod_pos_bound a 4096).
  pose proof (Z.div_mod (limit - from + 4095) 4096). pose proof (Z.mod_pos_bound (limit - from + 4095) 4096). lia.
Qed.

Lemma count_limit from limit j : from mod 4096 = 0 -> 0 <= j < Z.of_nat (count from limit) -> from + j * 4096 < limit.
Proof.
  intros Hal H. unfold count in H. pose proof (Z.div_mod (limit - from + 4095) 4096).
  pose proof (Z.mod_pos_bound (limit - from + 4095) 4096). lia.
Qed.

(** ** The requests of the loops *)

Definition RWUS : Z := Z.lor PT_RW PT_US.

Fixpoint physical_requests (t : Z) (n : nat) : list request :=
  match n with
  | O => []
  | S n' => mk_request t t RWUS :: mk_request (NORMAL_VMA_OFFSET + t) t RWUS :: physical_requests (t + 4096) n'
  end.

Fixpoint section_requests (k base Flags : Z) (n : nat) : list request :=
  match n with
  | O => []
  | S n' => mk_request k base Flags :: section_requests (k + 4096) (base + 4096) Flags n'
  end.

Lemma elem_section r n : forall k base Flags, r ∈ section_requests k base Flags n <->
  exists j, 0 <= j < Z.of_nat n /\ r = mk_request (k + j * 4096) (base + j * 4096) Flags.
Proof.
  induction n as [|n IH]; intros k base Flags; cbn [section_requests].
  - rewrite elem_of_nil. split; [done|]. intros (j & Hj & _). lia.
  - rewrite elem_of_cons, IH. split.
    + intros [->|(j & Hj & ->)]; [exists 0; split; [lia|]; by rewrite !Z.add_0_r|].
      exists (j + 1). split; [lia|]. f_equal; lia.
    + intros (j & Hj & ->). destruct (decide (j = 0)) as [->|]; [left; by rewrite !Z.add_0_r|].
      right. exists (j - 1). split; [lia|]. f_equal; lia.
Qed.

Lemma elem_physical r n : forall t, r ∈ physical_requests t n <->
  exists j, 0 <= j < Z.of_nat n /\
    (r = mk_request (t + j * 4096) (t + j * 4096) RWUS \/ r = mk_request (NORMAL_VMA_OFFSET + (t + j * 4096)) (t + j * 4096) RWUS).
Proof.
  induction n as [|n IH]; intros t; cbn [physical_requests].
  - rewrite elem_of_nil. split; [done|]. intros (j & Hj & _). lia.
  - rewrite !elem_of_cons, IH. split.
    + intros [->|[->|(j & Hj & H)]]; [exists 0; split; [lia|]; left; by rewrite Z.add_0_r|
        exists 0; split; [lia|]; right; by rewrite Z.add_0_r|].
      exists (j + 1). split; [lia|]. destruct H as [->| ->]; [left|right]; f_equal; lia.
    + intros (j & Hj & H). destruct (decide (j = 0)) as [->|]; [rewrite Z.add_0_r in H; tauto|].
      right; right. exists (j - 1). split; [lia|]. destruct H as [->| ->]; [left|right]; f_equal; lia.
Qed.

Lemma map_physical_list root Size n : forall v t fuel, 0 <= t -> Size <= 2 ^ 46 -> n = count t Size -> (n <= fuel)%nat ->
  map_physical (root * 4096) v Size t (NORMAL_VMA_OFFSET + t) fuel = map_list root v (physical_requests t n).
Proof.
  induction n as [|n IH]; intros v t fuel Ht HS Hn Hf.
  - assert (Size <= t) by (destruct (decide (t < Size)); [|lia]; rewrite count_more in Hn by done; lia).
    destruct fuel; cbn; by rewrite decide_False by lia.
  - assert (t < Size) as Hlt by (destruct (decide (t < Size)); [done|]; rewrite count_done in Hn by lia; lia).
    rewrite count_more in Hn by done. destruct fuel as [|fuel]; [lia|]. cbn [map_physical physical_requests map_list].
    rewrite decide_True by done. cbn [rq_virtual rq_physical rq_flags]. fold RWUS.
    destruct (MapMemory _ v t) as [v1|]; [|done]. cbn [bind]. destruct (MapMemory _ v1 _) as [v2|]; [|done]. cbn [bind].
    unfold PAGE_SIZE, NORMAL_VMA_OFFSET in *. rewrite !wrapu_small by lia.
    rewrite <- Z.add_assoc. apply IH; lia.
Qed.

Lemma map_framebuffer_list root limit n : forall v k fuel, NORMAL_VMA_OFFSET <= k -> limit <= NORMAL_VMA_OFFSET + 2 ^ 46 -> n = count k limit ->
  (n <= fuel)%nat ->
  map_framebuffer (root * 4096) v limit k fuel = map_list root v (section_requests k (k - NORMAL_VMA_OFFSET) RWUS n).
Proof.
  unfold NORMAL_VMA_OFFSET. induction n as [|n IH]; intros v k fuel Hk HS Hn Hf.
  - assert (limit <= k) by (destruct (decide (k < limit)); [|lia]; rewrite count_more in Hn by done; lia).
    destruct fuel; cbn; by rewrite decide_False by lia.
  - assert (k < limit) as Hlt by (destruct (decide (k < limit)); [done|]; rewrite count_done in Hn by lia; lia).
    rewrite count_more in Hn by done. destruct fuel as [|fuel]; [lia|]. cbn [map_framebuffer section_requests map_list].
    rewrite decide_True by done. cbn [rq_virtual rq_physical rq_flags]. fold RWUS. unfold NORMAL_VMA_OFFSET.
    rewrite (wrapu_small 64 (k - _)) by lia. destruct (MapMemory _ v k) as [v1|]; [|done]. cbn [bind].
    unfold PAGE_SIZE. rewrite wrapu_small by lia. rewrite IH by lia. do 2 f_equal. lia.
Qed.

Lemma lock_used v i : pfa_ok (v_pfa v) -> 0 <= i < pages (v_pfa v) -> in_use (v_pfa v) i = true -> lock_page v (i * 4096) = Ok v.
Proof.
  intros Hs Hi Hu. unfold lock_page, LockPage. rewrite page_index, (Get_ok _ _ (po_bm _ Hs) Hi).
  cbn [bind]. unfold in_use in Hu. rewrite Hu. cbn. by destruct v.
Qed.

(** A section of the kernel whose pages are in use already. *)
Lemma map_section_ok lock root limit Flags n : flags_ok Flags -> limit + 4096 < 2 ^ 64 -> forall v k base fuel,
  tables_ok v root -> 0 <= k -> 0 <= base -> base + Z.of_nat n <= pages (v_pfa v) -> n = count k limit -> (n <= fuel)%nat ->
  (forall j, base <= j < base + Z.of_nat n -> in_use (v_pfa v) j = true) ->
  (size (needed (v_ram v) root (section_requests k (base * 4096) Flags n)) <= free_count (v_pfa v))%nat ->
  exists v', map_section lock (root * 4096) v limit k (base * 4096) Flags fuel = Ok (v', (base + Z.of_nat n) * 4096) /\
    list_mapped root v v' (section_requests k (base * 4096) Flags n).
Proof.
  intros HF Hlim. induction n as [|n IH]; intros v k base fuel Hok Hk Hb Hp Hn Hf Hu Hsz.
  - assert (limit <= k) by (destruct (decide (k < limit)); [|lia]; rewrite count_more in Hn by done; lia).
    exists v. rewrite Z.add_0_r. split; [|by apply list_mapped_nil]. destruct fuel; cbn; by rewrite decide_False by lia.
  - assert (k < limit) as Hlt by (destruct (decide (k < limit)); [done|]; rewrite count_done in Hn by lia; lia).
    rewrite count_more in Hn by done. destruct fuel as [|fuel]; [lia|]. cbn [section_requests] in *.
    rewrite needed_cons, size_union_alt, size_absent in Hsz. cbn [rq_virtual] in Hsz.
    destruct (map_page v root k (base * 4096) Flags Hok HF ltac:(lia)) as (v1 & E & Hm).
    pose proof (needed_after _ _ _ _ _ _ (section_requests (k + 4096) (base * 4096 + 4096) Flags n) Hm) as Hnd.
    pose proof (mp_free _ _ _ _ _ _ Hm) as Hfc. destruct (mp_marks _ _ _ _ _ _ Hm) as [Ep Hg].
    assert (base * 4096 + 4096 = (base + 1) * 4096) as Eb by lia. rewrite Eb in *.
    pose proof (fk_pages _ (tk_frames _ _ Hok)).
    destruct (IH v1 (k + 4096) (base + 1) fuel) as (v' & E' & Hl);
      [apply Hm|lia|lia|lia|lia|lia|intros j Hj; apply Hg; [lia|apply Hu; lia]|rewrite Hnd; lia|].
    cbn [map_section]. rewrite decide_True by done. rewrite E. cbn [bind].
    assert ((if lock then lock_page v1 (base * 4096) else Ok v1) = Ok v1) as ->.
    { destruct lock; [|done]. apply lock_used; [apply (fk_pfa _ (tk_frames _ _ (mp_ok _ _ _ _ _ _ Hm)))|lia|].
      apply Hg; [lia|apply Hu; lia]. }
    cbn [bind]. unfold PAGE_SIZE. rewrite Eb, !wrapu_small by lia. exists v'. rewrite E'. split; [do 3 f_equal; lia|].
    eapply list_mapped_cons; [exact Hm|exact Hl].
Qed.

(** ** The mappings of the kernel *)

(** What the boot loader and the linker script guarantee: memory below 2^46,
    the framebuffer in the upper window onto it, the kernel in the last 2 GiB in page
    aligned sections. *)
Record boot_ok (b : boot_info) : Prop := {
  bo_size : 0 <= mem_Size b <= 2 ^ 46;
  bo_fb : NORMAL_VMA_OFFSET <= fb_BaseAddress b /\ fb_BaseAddress b mod 4096 = 0 /\ 0 <= fb_BufferSize b /\
    fb_BaseAddress b + fb_BufferSize b + 4096 <= NORMAL_VMA_OFFSET + 2 ^ 46;
  bo_kernel : 0xFFFFFFFF80000000 <= kernel_start b /\ kernel_start b <= kernel_text_end b /\
    kernel_text_end b <= kernel_rodata_end b /\ kernel_rodata_end b <= kernel_end b /\ kernel_end b + 4096 < 2 ^ 64;
  bo_aligned : kernel_start b mod 4096 = 0 /\ kernel_text_end b mod 4096 = 0 /\ kernel_rodata_end b mod 4096 = 0 /\
    kernel_end b mod 4096 = 0;
  bo_base : 0 <= mem_KernelBasePhysical b /\ mem_KernelBasePhysical b mod 4096 = 0
}.

(** The frames of the kernel are marked as used. *)
Definition kernel_marked (b : boot_info) (s : PageFrameAllocator) : Prop :=
  mem_KernelBasePhysical b / 4096 + (kernel_end b - kernel_start b) / 4096 <= pages s /\
  forall j, mem_KernelBasePhysical b / 4096 <= j < mem_KernelBasePhysical b / 4096 + (kernel_end b - kernel_start b) / 4096 ->
    in_use s j = true.

Definition fb_limit (b : boot_info) : Z := fb_BaseAddress b + (fb_BufferSize b + 4096).
Definition ram_part (b : boot_info) : list request := physical_requests 0 (count 0 (mem_Size b)).
Definition fb_part (b : boot_info) : list request :=
  section_requests (fb_BaseAddress b) (fb_BaseAddress b - NORMAL_VMA_OFFSET) RWUS (count (fb_BaseAddress b) (fb_limit b)).

(** The section from [from] to [to]. *)
Definition kernel_part (b : boot_info) (from to Flags : Z) : list request :=
  section_requests from (mem_KernelBasePhysical b + (from - kernel_start b)) Flags (count from to).

Definition text_part (b : boot_info) := kernel_part b (kernel_start b) (kernel_text_end b) PT_RW.
Definition rodata_part (b : boot_info) := kernel_part b (kernel_text_end b) (kernel_rodata_end b) PT_P.
Definition data_part (b : boot_info) := kernel_part b (kernel_rodata_end b) (kernel_end b) PT_RW.

Definition kernel_requests (b : boot_info) : list request :=
  ram_part b ++ fb_part b ++ text_part b ++ rodata_part b ++ data_part b.

(** There are enough free pages for the tables of [l]. *)
Definition fits (root : Z) (v : vmm) (l : list request) : Prop :=
  (size (needed (v_ram v) root l) <= free_count (v_pfa v))%nat.

Lemma fits_app root v l l2 : fits root v (l ++ l2) ->
  fits root v l /\ forall v', list_mapped root v v' l -> fits root v' l2.
Proof.
  unfold fits. rewrite needed_app, size_union_alt. intros H. split; [lia|]. intros v' Hl.
  rewrite (lm_need _ _ _ _ Hl). pose proof (lm_free _ _ _ _ Hl). lia.
Qed.

Lemma flags_ok_RWUS : flags_ok RWUS.
Proof. done. Qed.
Lemma flags_ok_RW : flags_ok PT_RW.
Proof. done. Qed.
Lemma flags_ok_P : flags_ok PT_P.
Proof. done. Qed.
#[local] Hint Resolve flags_ok_RWUS flags_ok_RW flags_ok_P : fennix.

Lemma section_flags k base Flags n (Q : Z -> Prop) : Q Flags -> Forall (fun r => Q (rq_flags r)) (section_requests k base Flags n).
Proof. intros HQ. apply Forall_forall. intros r Hr. apply elem_section in Hr as (j & _ & ->). done. Qed.

Lemma physical_flags t n (Q : Z -> Prop) : Q RWUS -> Forall (fun r => Q (rq_flags r)) (physical_requests t n).
Proof. intros HQ. apply Forall_forall. intros r Hr. apply elem_physical in Hr as (j & _ & [->| ->]); done. Qed.

Lemma count_exact from to : from mod 4096 = 0 -> to mod 4096 = 0 -> from <= to -> Z.of_nat (count from to) * 4096 = to - from.
Proof.
  intros H1 H2 Hle. unfold count. pose proof (Z.div_mod from 4096). pose proof (Z.div_mod to 4096).
  replace (to - from + 4095) with (4095 + (to / 4096 - from / 4096) * 4096) by lia. rewrite Z.div_add by lia.
  change (4095 / 4096) with 0. lia.
Qed.

(** One section of the kernel, inside its frames. *)
Lemma kernel_part_ok lock root v b from to Flags : boot_ok b -> tables_ok v root -> kernel_marked b (v_pfa v) -> flags_ok Flags ->
  from mod 4096 = 0 -> to mod 4096 = 0 -> kernel_start b <= from -> from <= to -> to <= kernel_end b -> fits root v (kernel_part b from to Flags) ->
  exists v', map_section lock (root * 4096) v to from (mem_KernelBasePhysical b + (from - kernel_start b)) Flags (page_steps from to)
             = Ok (v', mem_KernelBasePhysical b + (to - kernel_start b)) /\
    list_mapped root v v' (kernel_part b from to Flags).
Proof.
  intros [_ _ Hk (Hs & _ & _ & Hke) [Hb0 Hb]] Hok Hmk HF Hf Ht H1 H2 H3 Hfit. unfold fits, kernel_part, kernel_marked in *.
  pose proof (count_exact from to Hf Ht H2) as Hc. pose proof (Z.div_mod (mem_KernelBasePhysical b) 4096 ltac:(lia)) as D1.
  pose proof (Z.div_mod from 4096 ltac:(lia)) as D2. pose proof (Z.div_mod (kernel_start b) 4096 ltac:(lia)) as D3.
  pose proof (Z.div_mod (kernel_end b) 4096 ltac:(lia)) as D4.
  assert ((kernel_end b - kernel_start b) / 4096 = kernel_end b / 4096 - kernel_start b / 4096) as E.
  { replace (kernel_end b - kernel_start b) with ((kernel_end b / 4096 - kernel_start b / 4096) * 4096) by lia. apply Z.div_mul. lia. }
  set (base := mem_KernelBasePhysical b / 4096 + (from / 4096 - kernel_start b / 4096)).
  assert (mem_KernelBasePhysical b + (from - kernel_start b) = base * 4096) as Eb by (unfold base; lia). rewrite Eb in *.
  destruct (map_section_ok lock root to Flags (count from to) HF ltac:(lia) v from base (page_steps from to) Hok) as (v' & E' & Hl);
    [lia|pose proof (Z.div_pos (mem_KernelBasePhysical b) 4096); lia|lia|done|apply count_steps|intros j Hj; apply Hmk; lia|done|].
  exists v'. rewrite E'. split; [|done]. do 2 f_equal. lia.
Qed.

Lemma kernel_marked_grow b s s' : marks_grow s s' -> boot_ok b -> kernel_marked b s -> kernel_marked b s'.
Proof.
  intros [Ep Hg] Hb [H1 H2]. split; [by rewrite Ep|]. intros j Hj.
  pose proof (Z.div_pos (mem_KernelBasePhysical b) 4096 ltac:(apply Hb)). apply Hg; [lia|by apply H2].
Qed.

(** The calls of the five loops, one after the other. *)
Lemma map_kernel_ok lock root v b : boot_ok b -> tables_ok v root -> kernel_marked b (v_pfa v) -> fits root v (kernel_requests b) ->
  exists v1 v2 v3 v4 v5, map_kernel lock (root * 4096) v b = Ok v5 /\
    list_mapped root v v1 (ram_part b) /\ list_mapped root v1 v2 (fb_part b) /\ list_mapped root v2 v3 (text_part b) /\
    list_mapped root v3 v4 (rodata_part b) /\ list_mapped root v4 v5 (data_part b).
Proof.
  intros Hb Hok Hmk Hfit. pose proof Hb as [Hsz Hfb Hk (A1 & A2 & A3 & A4) Hbase]. unfold kernel_requests in Hfit.
  unfold map_kernel. change NORMAL_VMA_OFFSET with (NORMAL_VMA_OFFSET + 0) at 1.
  rewrite (map_physical_list root (mem_Size b) (count 0 (mem_Size b))) by (lia || apply count_steps || done).
  apply fits_app in Hfit as [F1 Hfit]. fold (ram_part b).
  destruct (map_list_ok root (ram_part b) v Hok ltac:(apply physical_flags; auto with fennix) F1) as (v1 & -> & L1).
  cbn [bind]. specialize (Hfit _ L1). apply fits_app in Hfit as [F2 Hfit]. unfold NORMAL_VMA_OFFSET in Hfb.
  assert (u64 (fb_BaseAddress b + u64 (fb_BufferSize b + PAGE_SIZE)) = fb_limit b) as ->.
  { unfold fb_limit, PAGE_SIZE. rewrite (wrapu_small 64 (_ + 4096)) by lia. rewrite wrapu_small by lia. done. }
  rewrite (map_framebuffer_list root (fb_limit b) (count (fb_BaseAddress b) (fb_limit b)))
    by (done || apply count_steps || (unfold fb_limit, NORMAL_VMA_OFFSET; lia)).
  fold (fb_part b). destruct (map_list_ok root (fb_part b) v1 ltac:(apply L1) ltac:(apply section_flags; auto with fennix) F2) as (v2 & -> & L2).
  cbn [bind]. specialize (Hfit _ L2). apply fits_app in Hfit as [F3 Hfit].
  pose proof (kernel_marked_grow _ _ _ (lm_marks _ _ _ _ L1) Hb Hmk) as M1.
  pose proof (kernel_marked_grow _ _ _ (lm_marks _ _ _ _ L2) Hb M1) as M2.
  destruct (kernel_part_ok lock root v2 b (kernel_start b) (kernel_text_end b) PT_RW) as (v3 & E3 & L3);
    [done|apply L2|done|auto with fennix|done|done|lia|lia|lia|done|].
  rewrite Z.sub_diag, Z.add_0_r in E3. rewrite E3. cbn [bind]. specialize (Hfit _ L3). apply fits_app in Hfit as [F4 Hfit].
  pose proof (kernel_marked_grow _ _ _ (lm_marks _ _ _ _ L3) Hb M2) as M3.
  destruct (kernel_part_ok lock root v3 b (kernel_text_end b) (kernel_rodata_end b) PT_P) as (v4 & -> & L4);
    [done|apply L3|done|auto with fennix|done|done|lia|lia|lia|done|].
  cbn [bind]. specialize (Hfit _ L4). pose proof (kernel_marked_grow _ _ _ (lm_marks _ _ _ _ L4) Hb M3) as M4.
  destruct (kernel_part_ok lock root v4 b (kernel_rodata_end b) (kernel_end b) PT_RW) as (v5 & -> & L5);
    [done|apply L4|done|auto with fennix|done|done|lia|lia|lia|done|].
  cbn [bind]. exists v1, v2, v3, v4, v5. done.
Qed.

(** ** Which pages, and where *)

Lemma frame_small i : 0 <= i < 2 ^ 40 -> wrapu 40 (Z.shiftr (i * 4096) 12) = i.
Proof. intros H. rewrite frame_of. by apply wrapu_small. Qed.

(** Pages of the windows onto physical memory, at its own addresses and above. *)
Definition window_page (x : Z) : Prop := 0 <= x < 2 ^ 34 \/ 2 ^ 35 <= x < 2 ^ 35 + 2 ^ 34.

Lemma window_request r x : (rq_virtual r = x * 4096 \/ rq_virtual r = NORMAL_VMA_OFFSET + x * 4096) -> 0 <= x < 2 ^ 34 ->
  rq_physical r = x * 4096 -> window_page (rq_page r) /\ rq_frame r = rq_page r mod 2 ^ 35.
Proof.
  unfold NORMAL_VMA_OFFSET. intros Hv Hx Hp. unfold rq_frame, rq_page, window_page. rewrite Hp, frame_small by lia.
  destruct Hv as [-> | ->].
  - rewrite page_of_low, Z.div_mul by lia. split; [lia|]. rewrite Z.mod_small; lia.
  - rewrite page_of_high by lia. replace 0xFFFF800000000000 with ((2 ^ 52 - 2 ^ 35) * 4096) by lia.
    rewrite <- Z.mul_add_distr_r, Z.div_mul by lia. split; [lia|].
    replace (2 ^ 52 - 2 ^ 35 + x - (2 ^ 52 - 2 ^ 36)) with (x + 1 * 2 ^ 35) by lia. rewrite Z_mod_plus_full, Z.mod_small; lia.
Qed.

Lemma ram_part_spec b r : boot_ok b -> r ∈ ram_part b -> window_page (rq_page r) /\ rq_frame r = rq_page r mod 2 ^ 35.
Proof.
  intros Hb Hr. pose proof (bo_size _ Hb). apply elem_physical in Hr as (j & Hj & Hr).
  pose proof (count_limit 0 (mem_Size b) j ltac:(done) Hj). destruct Hr as [->| ->]; apply (window_request _ j); cbn; (lia || auto).
Qed.

Lemma fb_part_spec b r : boot_ok b -> r ∈ fb_part b -> window_page (rq_page r) /\ rq_frame r = rq_page r mod 2 ^ 35.
Proof.
  intros Hb Hr. pose proof (bo_fb _ Hb) as (F1 & F2 & F3 & F4). apply elem_section in Hr as (j & Hj & ->).
  pose proof (count_limit _ (fb_limit b) j F2 Hj). pose proof (Z.div_mod (fb_BaseAddress b) 4096 ltac:(lia)).
  unfold fb_limit, NORMAL_VMA_OFFSET in *. cbn in *.
  apply (window_request _ (fb_BaseAddress b / 4096 - (2 ^ 52 - 2 ^ 35) + j)); unfold NORMAL_VMA_OFFSET; cbn; lia.
Qed.

Lemma ram_part_in b a : boot_ok b -> 0 <= a < mem_Size b ->
  page_of a ∈ rq_page <$> ram_part b /\ page_of (NORMAL_VMA_OFFSET + a) ∈ rq_page <$> ram_part b.
Proof.
  intros Hb Ha. pose proof (bo_size _ Hb). pose proof (count_page 0 (mem_Size b) a ltac:(done) Ha) as Hc.
  change (0 / 4096) with 0 in Hc. rewrite Z.sub_0_r in Hc.
  assert (forall o, o mod 4096 = 0 -> page_of (o + a) = page_of (o + (0 + a / 4096 * 4096))) as Hp.
  { intros o Ho. unfold page_of. f_equal. pose proof (Z.div_mod o 4096 ltac:(lia)). replace o with (o / 4096 * 4096) by lia.
    rewrite !Z.div_add_l by lia. rewrite Z.add_0_l, Z.div_mul by lia. done. }
  split; apply list_elem_of_fmap.
  - exists (mk_request (0 + a / 4096 * 4096) (0 + a / 4096 * 4096) RWUS). split; [apply (Hp 0); done|].
    apply elem_physical. exists (a / 4096). auto.
  - exists (mk_request (NORMAL_VMA_OFFSET + (0 + a / 4096 * 4096)) (0 + a / 4096 * 4096) RWUS). split; [by apply Hp|].
    apply elem_physical. exists (a / 4096). auto.
Qed.

(** A page of a section of requests. *)
Lemma section_in k base Flags to a : k mod 4096 = 0 -> k <= a < to -> 2 ^ 64 - 2 ^ 47 <= k -> to <= 2 ^ 64 ->
  page_of a ∈ rq_page <$> section_requests k base Flags (count k to).
Proof.
  intros Hk Ha H1 H2. pose proof (count_page k to a Hk Ha) as Hc. apply list_elem_of_fmap.
  exists (mk_request (k + (a / 4096 - k / 4096) * 4096) (base + (a / 4096 - k / 4096) * 4096) Flags). split.
  - unfold rq_page. cbn. unfold page_of. f_equal. pose proof (Z.div_mod k 4096 ltac:(lia)).
    replace (k + (a / 4096 - k / 4096) * 4096) with (a / 4096 * 4096) by lia. by rewrite Z.div_mul.
  - apply elem_section. by exists (a / 4096 - k / 4096).
Qed.

Definition kernel_frame (b : boot_info) (x : Z) : Z := x - page_of (kernel_start b) + mem_KernelBasePhysical b / 4096.

Lemma kernel_part_spec b from to Flags r : boot_ok b -> from mod 4096 = 0 -> kernel_start b <= from -> to <= kernel_end b ->
  mem_KernelBasePhysical b / 4096 + (kernel_end b - kernel_start b) / 4096 <= 2 ^ 40 -> r ∈ kernel_part b from to Flags ->
  rq_frame r = kernel_frame b (rq_page r) /\ 2 ^ 36 - 2 ^ 19 <= rq_page r /\
  exists a, rq_page r = page_of a /\ a mod 4096 = 0 /\ from <= a < to.
Proof.
  intros Hb Hf H1 H2 Hmax Hr. pose proof Hb as [_ _ Hk (A1 & _ & _ & A4) [B1 B2]]. apply elem_section in Hr as (j & Hj & ->).
  pose proof (count_limit from to j Hf Hj) as Hlim. unfold rq_frame, rq_page, kernel_frame. cbn [rq_physical rq_virtual].
  pose proof (Z.div_mod (mem_KernelBasePhysical b) 4096 ltac:(lia)) as D1. pose proof (Z.div_mod from 4096 ltac:(lia)) as D2.
  pose proof (Z.div_mod (kernel_start b) 4096 ltac:(lia)) as D3. pose proof (Z.div_mod (kernel_end b) 4096 ltac:(lia)) as D4.
  assert ((kernel_end b - kernel_start b) / 4096 = kernel_end b / 4096 - kernel_start b / 4096) as E.
  { replace (kernel_end b - kernel_start b) with ((kernel_end b / 4096 - kernel_start b / 4096) * 4096) by lia. apply Z.div_mul. lia. }
  replace (mem_KernelBasePhysical b + (from - kernel_start b) + j * 4096)
    with ((mem_KernelBasePhysical b / 4096 + (from / 4096 - kernel_start b / 4096) + j) * 4096) by lia.
  replace (from + j * 4096) with ((from / 4096 + j) * 4096) in * by lia.
  pose proof (Z.div_pos (mem_KernelBasePhysical b) 4096).
  rewrite frame_small by lia. rewrite !page_of_high by lia. rewrite Z.div_mul by lia.
  split; [lia|]. split; [lia|]. exists ((from / 4096 + j) * 4096). rewrite page_of_high, Z.div_mul by lia.
  split; [done|]. split; [by apply Z_mod_mult|lia].
Qed.

Section kernel_pages.
Context (b : boot_info) (Hb : boot_ok b).
Hypothesis Hmax : mem_KernelBasePhysical b / 4096 + (kernel_end b - kernel_start b) / 4096 <= 2 ^ 40.

Lemma kernel_part_out from to Flags x : from mod 4096 = 0 -> kernel_start b <= from -> to <= kernel_end b -> window_page x ->
  x ∉ rq_page <$> kernel_part b from to Flags.
Proof.
  intros Hf H1 H2 Hx Hin. apply list_elem_of_fmap in Hin as (r & -> & Hr).
  destruct (kernel_part_spec b from to Flags r Hb Hf H1 H2 Hmax Hr) as (_ & Hlow & _). unfold window_page in Hx. lia.
Qed.

Lemma kernel_part_in from to Flags a : from mod 4096 = 0 -> to mod 4096 = 0 -> kernel_start b <= from -> to <= kernel_end b ->
  kernel_start b <= a < kernel_end b -> page_of a ∈ rq_page <$> kernel_part b from to Flags <-> from <= a < to.
Proof.
  intros Hf Ht H1 H2 Ha. pose proof (bo_kernel _ Hb). split.
  - intros Hin. apply list_elem_of_fmap in Hin as (r & Er & Hr).
    destruct (kernel_part_spec b from to Flags r Hb Hf H1 H2 Hmax Hr) as (_ & _ & a' & Ea' & Hal & Ha'). rewrite Ea' in Er.
    rewrite !page_of_high in Er by lia.
    pose proof (Z.div_mod a 4096). pose proof (Z.mod_pos_bound a 4096). pose proof (Z.div_mod a' 4096). pose proof (Z.div_mod to 4096). lia.
  - intros Hin. apply section_in; (done || lia).
Qed.

Lemma kernel_part_frames from to Flags : from mod 4096 = 0 -> kernel_start b <= from -> to <= kernel_end b ->
  Forall (fun r => rq_frame r = kernel_frame b (rq_page r)) (kernel_part b from to Flags).
Proof. intros Hf H1 H2. apply Forall_forall. intros r Hr. by eapply kernel_part_spec. Qed.

Lemma window_not_kernel a : kernel_start b <= a < kernel_end b -> ~ window_page (page_of a).
Proof.
  intros Ha Hw. pose proof (bo_kernel _ Hb). unfold window_page in Hw. rewrite page_of_high in Hw by lia.
  pose proof (Z.div_le_lower_bound a 4096 (2 ^ 52 - 2 ^ 19)). lia.
Qed.
End kernel_pages.

Lemma kernel_frame_address b a : boot_ok b -> kernel_start b <= a < kernel_end b ->
  kernel_frame b (page_of a) * 4096 + a mod 4096 = a - kernel_start b + mem_KernelBasePhysical b.
Proof.
  intros Hb Ha. pose proof (bo_kernel _ Hb). pose proof (bo_aligned _ Hb). pose proof (bo_base _ Hb).
  unfold kernel_frame. rewrite !page_of_high by lia. pose proof (Z.div_mod a 4096). pose proof (Z.div_mod (kernel_start b) 4096).
  pose proof (Z.div_mod (mem_KernelBasePhysical b) 4096). lia.
Qed.

(** All the tables of [l], each counted once. *)
Definition tables_of (l : list request) : gset (list Z) := list_to_set (l ≫= fun r => prefixes (take 3 (path (rq_virtual r)))).

Lemma needed_tables m root l : needed m root l ⊆ tables_of l.
Proof.
  intros q. unfold needed, tables_of. rewrite !elem_of_list_to_set, !list_elem_of_bind. intros (r & Hq & Hr). exists r.
  split; [|done]. unfold absent in Hq. by apply list_elem_of_filter in Hq as [_ ?].
Qed.

(** ** The translations *)

(** The read-only data needs no page table of its own: it ends in the 2 MiB
    region in which the code ends. *)
Definition rodata_shares (b : boot_info) : Prop :=
  kernel_text_end b = kernel_rodata_end b \/
  (kernel_start b < kernel_text_end b /\ (kernel_text_end b - 1) / 2 ^ 21 = (kernel_rodata_end b - 1) / 2 ^ 21).

(** The address space of the kernel; the data can be written if the
    read-only data shares the page tables of the code. *)
Record kernel_space (b : boot_info) (m : ram) (root : Z) : Prop := {
  ks_ram : forall a, 0 <= a < mem_Size b -> translate m root a = Some (mk_tr a true true);
  ks_window : forall a, 0 <= a < mem_Size b -> translate m root (NORMAL_VMA_OFFSET + a) = Some (mk_tr a true true);
  ks_fb : forall a, fb_BaseAddress b <= a < fb_BaseAddress b + fb_BufferSize b ->
    translate m root a = Some (mk_tr (a - NORMAL_VMA_OFFSET) true true);
  ks_text : forall a, kernel_start b <= a < kernel_text_end b ->
    translate m root a = Some (mk_tr (a - kernel_start b + mem_KernelBasePhysical b) true false);
  ks_rodata : forall a, kernel_text_end b <= a < kernel_rodata_end b ->
    translate m root a = Some (mk_tr (a - kernel_start b + mem_KernelBasePhysical b) false false);
  ks_data : forall a, kernel_rodata_end b <= a < kernel_end b -> exists w,
    translate m root a = Some (mk_tr (a - kernel_start b + mem_KernelBasePhysical b) w false);
  ks_rest : forall a, page_of a ∉ rq_page <$> kernel_requests b -> translate m root a = None
}.

Lemma translate_walk m root a f es : walk m root (path a) = Some (f, es) ->
  translate m root a = Some (mk_tr (f * 4096 + a mod 4096) (granted m root 1 a) (granted m root 2 a)).
Proof. intros H. unfold translate, granted. by rewrite H. Qed.

Lemma window_address a : 0 <= a < 2 ^ 46 ->
  page_of (NORMAL_VMA_OFFSET + a) mod 2 ^ 35 * 4096 + (NORMAL_VMA_OFFSET + a) mod 4096 = a.
Proof.
  intros Ha. unfold NORMAL_VMA_OFFSET. rewrite page_of_high by lia. replace 0xFFFF800000000000 with ((2 ^ 52 - 2 ^ 35) * 4096) by lia.
  rewrite Z.div_add_l by lia. rewrite (Z.add_comm ((2 ^ 52 - 2 ^ 35) * 4096) a), (Z_mod_plus_full a).
  replace (2 ^ 52 - 2 ^ 35 + a / 4096 - (2 ^ 52 - 2 ^ 36)) with (a / 4096 + 1 * 2 ^ 35) by lia. rewrite Z_mod_plus_full.
  pose proof (Z.div_lt_upper_bound a 4096 (2 ^ 35)). pose proof (Z.div_pos a 4096). rewrite Z.mod_small by lia.
  pose proof (Z.div_mod a 4096). lia.
Qed.

(** The tables above a page are those of its 2 MiB region. *)
Lemma path_region a c : a / 2 ^ 21 = c / 2 ^ 21 -> take 3 (path a) = take 3 (path c).
Proof.
  intros H. unfold path, indexer. cbn. rewrite !index_field_spec by lia.
  assert (forall x, x / 2 ^ 30 = x / 2 ^ 21 / 512) as E1 by (intros; by rewrite Z.div_div by lia).
  assert (forall x, x / 2 ^ 39 = x / 2 ^ 21 / 512 / 512) as E2 by (intros; by rewrite !Z.div_div by lia).
  by rewrite !E1, !E2, H.
Qed.

Section space.
Context (b : boot_info) (root : Z) (v v1 v2 v3 v4 v5 : vmm).
Hypothesis (Hb : boot_ok b).
Hypothesis Hmax : mem_KernelBasePhysical b / 4096 + (kernel_end b - kernel_start b) / 4096 <= 2 ^ 40.
Hypothesis (Hnew : forall q, q <> [] -> Forall index_ok q -> walk (v_ram v) root q = None).
Hypothesis (L1 : list_mapped root v v1 (ram_part b)) (L2 : list_mapped root v1 v2 (fb_part b)).
Hypothesis (L3 : list_mapped root v2 v3 (text_part b)) (L4 : list_mapped root v3 v4 (rodata_part b)).
Hypothesis (L5 : list_mapped root v4 v5 (data_part b)).

Lemma space_unmapped a : walk (v_ram v) root (path a) = None.
Proof. apply Hnew; [done|apply path_index_ok]. Qed.

Lemma space_all_grant k : 0 < k < 12 -> all_grant (v_ram v) root k.
Proof. intros Hk q f es Hl Hi Hw. destruct q; [by injection Hw as _ <-|]. by rewrite Hnew in Hw. Qed.

Lemma RWUS_bits k : k = 1 \/ k = 2 -> Z.testbit RWUS k = true.
Proof. by intros [->| ->]. Qed.

(** Both windows, before the kernel is mapped. *)
Lemma window_granted k : k = 1 \/ k = 2 -> all_grant (v_ram v2) root k /\
  forall a, page_of a ∈ rq_page <$> (ram_part b ++ fb_part b) -> granted (v_ram v2) root k a = true.
Proof.
  intros Hk. assert (0 < k < 12) as Hk' by lia.
  destruct (lm_grant _ _ _ _ L1 k Hk') as [G1 P1]; [apply (physical_flags _ _ (fun F => Z.testbit F k = true)); by apply RWUS_bits|by apply space_all_grant|].
  destruct (lm_grant _ _ _ _ L2 k Hk') as [G2 P2]; [apply (section_flags _ _ _ _ (fun F => Z.testbit F k = true)); by apply RWUS_bits|done|].
  split; [done|]. intros a. rewrite fmap_app, elem_of_app. destruct (decide (page_of a ∈ rq_page <$> fb_part b)) as [H|H]; [auto|].
  intros [H1|?]; [|done]. unfold granted. rewrite (lm_out _ _ _ _ L2) by done. by apply P1.
Qed.

Lemma window_walk a : page_of a ∈ rq_page <$> (ram_part b ++ fb_part b) ->
  exists es, walk (v_ram v2) root (path a) = Some (page_of a mod 2 ^ 35, es).
Proof.
  rewrite fmap_app, elem_of_app. destruct (decide (page_of a ∈ rq_page <$> fb_part b)) as [H|H].
  - intros _. apply (lm_in _ _ _ _ L2 (fun x => x mod 2 ^ 35)); [|done]. apply Forall_forall. intros r Hr. by eapply fb_part_spec.
  - intros [H1|?]; [|done]. rewrite (lm_out _ _ _ _ L2) by done. apply (lm_in _ _ _ _ L1 (fun x => x mod 2 ^ 35)); [|done].
    apply Forall_forall. intros r Hr. by eapply ram_part_spec.
Qed.

Lemma window_window a : page_of a ∈ rq_page <$> (ram_part b ++ fb_part b) -> window_page (page_of a).
Proof.
  intros H. apply list_elem_of_fmap in H as (r & -> & Hr). apply elem_of_app in Hr as [Hr|Hr]; [by eapply ram_part_spec|by eapply fb_part_spec].
Qed.

(** Pages outside the kernel's sections. *)
Lemma space_window a : window_page (page_of a) -> walk (v_ram v5) root (path a) = walk (v_ram v2) root (path a).
Proof.
  intros Hw. pose proof (bo_kernel _ Hb). pose proof (bo_aligned _ Hb) as (A1 & A2 & A3 & A4).
  rewrite (lm_out _ _ _ _ L5), (lm_out _ _ _ _ L4), (lm_out _ _ _ _ L3); [done| | |]; apply kernel_part_out; (done || lia).
Qed.

Lemma space_window_translate a : page_of a ∈ rq_page <$> (ram_part b ++ fb_part b) ->
  translate (v_ram v5) root a = Some (mk_tr (page_of a mod 2 ^ 35 * 4096 + a mod 4096) true true).
Proof.
  intros Hin. pose proof (window_window a Hin) as Hwin. destruct (window_walk a Hin) as (es & Hw).
  rewrite (translate_walk _ _ _ (page_of a mod 2 ^ 35) es) by (by rewrite space_window). unfold granted. rewrite space_window by done.
  fold (granted (v_ram v2) root 1 a). fold (granted (v_ram v2) root 2 a). 
  rewrite (proj2 (window_granted 1 ltac:(auto)) a Hin), (proj2 (window_granted 2 ltac:(auto)) a Hin). done.
Qed.

(** The kernel's pages: unmapped before, never given to user mode. *)
Lemma space_kernel_before a : kernel_start b <= a < kernel_end b -> walk (v_ram v2) root (path a) = None.
Proof.
  intros Ha. rewrite (lm_out _ _ _ _ L2), (lm_out _ _ _ _ L1); [apply space_unmapped| |];
    intros H; apply (window_not_kernel b Hb a Ha); apply list_elem_of_fmap in H as (r & -> & Hr);
    [by eapply ram_part_spec|by eapply fb_part_spec].
Qed.

Lemma part_lacks k from to Flags : Z.testbit Flags k = false ->
  Forall (fun r => Z.testbit (rq_flags r) k = false) (kernel_part b from to Flags).
Proof. intros H. by apply (section_flags _ _ _ _ (fun F => Z.testbit F k = false)). Qed.

Lemma space_kernel_user a : kernel_start b <= a < kernel_end b -> granted (v_ram v5) root 2 a = false.
Proof.
  intros Ha. rewrite (lm_keep _ _ _ _ L5), (lm_keep _ _ _ _ L4), (lm_keep _ _ _ _ L3) by (lia || by apply part_lacks).
  unfold granted. by rewrite space_kernel_before.
Qed.

(** The frame of a page of a section, which the others leave alone. *)
Lemma space_kernel_walk a : kernel_start b <= a < kernel_end b ->
  exists es, walk (v_ram v5) root (path a) = Some (kernel_frame b (page_of a), es).
Proof.
  intros Ha. pose proof (bo_kernel _ Hb). pose proof (bo_aligned _ Hb) as (A1 & A2 & A3 & A4).
  destruct (decide (kernel_rodata_end b <= a)).
  { apply (lm_in _ _ _ _ L5); [apply kernel_part_frames; (done || lia)|]. apply kernel_part_in; (done || lia). }
  rewrite (lm_out _ _ _ _ L5) by (intros H'; apply kernel_part_in in H'; (done || lia)).
  destruct (decide (kernel_text_end b <= a)).
  { apply (lm_in _ _ _ _ L4); [apply kernel_part_frames; (done || lia)|]. apply kernel_part_in; (done || lia). }
  rewrite (lm_out _ _ _ _ L4) by (intros H'; apply kernel_part_in in H'; (done || lia)).
  apply (lm_in _ _ _ _ L3); [apply kernel_part_frames; (done || lia)|]. apply kernel_part_in; (done || lia).
Qed.

Lemma space_kernel_translate a w : kernel_start b <= a < kernel_end b -> granted (v_ram v5) root 1 a = w ->
  translate (v_ram v5) root a = Some (mk_tr (a - kernel_start b + mem_KernelBasePhysical b) w false).
Proof.
  intros Ha Hw. destruct (space_kernel_walk a Ha) as (es & E). rewrite (translate_walk _ _ _ _ _ E).
  by rewrite Hw, space_kernel_user, kernel_frame_address.
Qed.

Lemma space_text_grant : all_grant (v_ram v3) root 1 /\
  forall a, page_of a ∈ rq_page <$> text_part b -> granted (v_ram v3) root 1 a = true.
Proof.
  apply (lm_grant _ _ _ _ L3 1); [lia|by apply (section_flags _ _ _ _ (fun F => Z.testbit F 1 = true))|].
  apply (window_granted 1). auto.
Qed.

Lemma space_text a : kernel_start b <= a < kernel_text_end b -> granted (v_ram v5) root 1 a = true.
Proof.
  intros Ha. pose proof (bo_kernel _ Hb). pose proof (bo_aligned _ Hb) as (A1 & A2 & A3 & A4). unfold granted.
  rewrite (lm_out _ _ _ _ L5), (lm_out _ _ _ _ L4) by (intros H'; apply kernel_part_in in H'; (done || lia)).
  apply space_text_grant. apply kernel_part_in; (done || lia).
Qed.

Lemma space_rodata a : kernel_text_end b <= a < kernel_rodata_end b -> granted (v_ram v5) root 1 a = false.
Proof.
  intros Ha. pose proof (bo_kernel _ Hb). pose proof (bo_aligned _ Hb) as (A1 & A2 & A3 & A4). unfold granted.
  rewrite (lm_out _ _ _ _ L5) by (intros H'; apply kernel_part_in in H'; (done || lia)).
  fold (granted (v_ram v4) root 1 a). rewrite (lm_keep _ _ _ _ L4) by (lia || by apply part_lacks). unfold granted.
  rewrite (lm_out _ _ _ _ L3) by (intros H'; apply kernel_part_in in H'; (done || lia)).
  by rewrite space_kernel_before by lia.
Qed.

(** Where the read-only data shares the tables of the code, it makes none. *)
Lemma rodata_no_tables : rodata_shares b -> needed (v_ram v3) root (rodata_part b) = ∅.
Proof.
  intros Hsh. rewrite (lm_need _ _ _ _ L3). apply leibniz_equiv, equiv_empty. intros q. rewrite elem_of_difference.
  intros [Hq Hn]. exfalso. apply Hn. clear Hn. unfold needed in *. rewrite elem_of_list_to_set, list_elem_of_bind in *.
  destruct Hq as (r & Hq & Hr). apply elem_section in Hr as (j & Hj & ->). cbn [rq_virtual] in Hq.
  pose proof (bo_kernel _ Hb). pose proof (bo_aligned _ Hb) as (A1 & A2 & A3 & A4).
  pose proof (count_limit _ _ j A2 Hj) as Hlim. destruct Hsh as [E|[Hne E]]; [lia|].
  pose proof (count_exact (kernel_start b) (kernel_text_end b) A1 A2 ltac:(lia)) as Hc.
  set (n := Z.of_nat (count (kernel_start b) (kernel_text_end b))) in *.
  exists (mk_request (kernel_start b + (n - 1) * 4096) (mem_KernelBasePhysical b + (kernel_start b - kernel_start b) + (n - 1) * 4096) PT_RW).
  split; [|apply elem_section; exists (n - 1); split; [lia|done]]. cbn [rq_virtual].
  replace (kernel_start b + (n - 1) * 4096) with (kernel_text_end b - 4096) by lia.
  enough (take 3 (path (kernel_text_end b - 4096)) = take 3 (path (kernel_text_end b + j * 4096))) as -> by done.
  apply path_region. pose proof (Z.div_le_mono (kernel_text_end b - 1) (kernel_text_end b + j * 4096) (2 ^ 21)).
  pose proof (Z.div_le_mono (kernel_text_end b + j * 4096) (kernel_rodata_end b - 1) (2 ^ 21)).
  assert ((kernel_text_end b - 4096) / 2 ^ 21 = (kernel_text_end b - 1) / 2 ^ 21) as ->; [|lia].
  pose proof (Z.div_mod (kernel_text_end b) 4096 ltac:(lia)).
  change (2 ^ 21) with (4096 * 512). rewrite <- !Z.div_div by lia. f_equal. 
  replace (kernel_text_end b - 1) with (4095 + (kernel_text_end b / 4096 - 1) * 4096) by lia.
  replace (kernel_text_end b - 4096) with (0 + (kernel_text_end b / 4096 - 1) * 4096) by lia. by rewrite !Z.div_add by lia.
Qed.

Lemma space_data a : rodata_shares b -> kernel_rodata_end b <= a < kernel_end b -> granted (v_ram v5) root 1 a = true.
Proof.
  intros Hsh Ha. pose proof (bo_kernel _ Hb). pose proof (bo_aligned _ Hb) as (A1 & A2 & A3 & A4).
  destruct (lm_grant _ _ _ _ L5 1) as [_ HG]; [lia|by apply (section_flags _ _ _ _ (fun F => Z.testbit F 1 = true))| |].
  - intros q f es Hq Hi. rewrite (lm_dirs _ _ _ _ L4 (rodata_no_tables Hsh)) by done. by apply space_text_grant.
  - apply HG. apply kernel_part_in; (done || lia).
Qed.

Lemma space_ok : kernel_space b (v_ram v5) root.
Proof.
  pose proof (bo_kernel _ Hb). pose proof (bo_size _ Hb). pose proof (bo_fb _ Hb) as (F1 & F2 & F3 & F4). unfold NORMAL_VMA_OFFSET in F1, F4. split.
  - intros a Ha. rewrite space_window_translate by (rewrite fmap_app; apply elem_of_app; left; by apply ram_part_in).
    rewrite page_of_low by lia. pose proof (Z.div_lt_upper_bound a 4096 (2 ^ 35)). pose proof (Z.div_pos a 4096).
    rewrite Z.mod_small by lia. do 2 f_equal. pose proof (Z.div_mod a 4096). lia.
  - intros a Ha. rewrite space_window_translate by (rewrite fmap_app; apply elem_of_app; left; by apply ram_part_in).
    by rewrite window_address by (unfold NORMAL_VMA_OFFSET; lia).
  - intros a Ha. rewrite space_window_translate by (rewrite fmap_app; apply elem_of_app; right; apply section_in; (done || unfold fb_limit; lia)).
    replace a with (NORMAL_VMA_OFFSET + (a - NORMAL_VMA_OFFSET)) at 1 2 by lia. by rewrite window_address by (unfold NORMAL_VMA_OFFSET; lia).
  - intros a Ha. apply space_kernel_translate; [lia|by apply space_text].
  - intros a Ha. apply space_kernel_translate; [lia|by apply space_rodata].
  - intros a Ha. eexists. apply space_kernel_translate; [lia|done].
  - intros a. unfold kernel_requests. rewrite !fmap_app, !not_elem_of_app. intros (N1 & N2 & N3 & N4 & N5). unfold translate.
    by rewrite (lm_out _ _ _ _ L5), (lm_out _ _ _ _ L4), (lm_out _ _ _ _ L3), (lm_out _ _ _ _ L2), (lm_out _ _ _ _ L1), space_unmapped.
Qed.

Lemma space_data_writable a : rodata_shares b -> kernel_rodata_end b <= a < kernel_end b ->
  translate (v_ram v5) root a = Some (mk_tr (a - kernel_start b + mem_KernelBasePhysical b) true false).
Proof. intros Hsh Ha. pose proof (bo_kernel _ Hb). apply space_kernel_translate; [lia|by apply space_data]. Qed.
End space.

(** C19 [init_kernelpml], with page-aligned boot information in range, when the
    frames of the kernel are marked and there are enough free pages for the tables,
    builds a sound address space and loads it.  It has all memory at its own
    addresses and in the upper window, and the framebuffer, writable and open to user mode;
    the code (writable), the read-only data (not writable) and the data of the
    kernel, closed to user mode; and nothing else.  The data is writable if the
    read-only data ends in the 2 MiB in which the code ends, or is empty; otherwise
    a page table made for the read-only data can take that away ([data_not_writable]). *)
Theorem init_kernelpml_correct k b : KernelPML4 k = 0 -> frames_ok (k_vmm k) -> boot_ok b -> kernel_marked b (v_pfa (k_vmm k)) ->
  (size (tables_of (kernel_requests b)) < free_count (v_pfa (k_vmm k)))%nat ->
  exists k' root, init_kernelpml k b = Ok k' /\ KernelPML4 k' = root * 4096 /\ ktm_PML4 k' = root * 4096 /\ k_CR3 k' = root * 4096 /\
    tables_ok (k_vmm k') root /\ kernel_space b (v_ram (k_vmm k')) root /\
    (rodata_shares b -> forall a, kernel_rodata_end b <= a < kernel_end b ->
       translate (v_ram (k_vmm k')) root a = Some (mk_tr (a - kernel_start b + mem_KernelBasePhysical b) true false)).
Proof.
  intros H0 Hfr Hb Hmk Hfree. unfold init_kernelpml. rewrite decide_True by done.
  destruct (make_table (k_vmm k) Hfr ltac:(lia)) as (v & root & E & Hor).
  apply bind_inv in E as ([v0 a0] & -> & E). cbn [bind] in *. apply bind_inv in E as (v0' & -> & E). injection E as -> ->. cbn [bind].
  destruct (empty_root v root) as [Hok Hnew]; [apply Hor|apply Hor|apply Hor|]. destruct (or_marks _ _ _ _ Hor) as [Hpg _].
  destruct (map_kernel_ok true root v b Hb Hok) as (v1 & v2 & v3 & v4 & v5 & -> & L1 & L2 & L3 & L4 & L5).
  { eapply kernel_marked_grow; [apply Hor|done|done]. }
  { unfold fits. pose proof (or_free _ _ _ _ Hor). pose proof (subseteq_size _ _ (needed_tables (v_ram v) root (kernel_requests b))). lia. }
  assert (mem_KernelBasePhysical b / 4096 + (kernel_end b - kernel_start b) / 4096 <= 2 ^ 40) as Hmax
    by (destruct Hmk as [Hm _]; pose proof (fk_pages _ Hfr); lia).
  cbn [bind]. eexists _, root. split; [reflexivity|]. cbn. split_and!; [done|done|done|apply L5| |].
  - by apply (space_ok b root v v1 v2 v3 v4 v5).
  - intros Hsh a Ha. by apply (space_data_writable b root v v1 v2 v3 v4 v5).
Qed.

(** ** Stacks and system calls *)

Lemma stack_is_page k : AllocateStack k true = internal_requestpage k.
Proof. done. Qed.

Lemma absent_nil m root a f es : walk m root (path a) = Some (f, es) -> absent m root (take 3 (path a)) = [].
Proof.
  intros Hw. destruct (absent m root (take 3 (path a))) as [|q l] eqn:E; [done|].
  destruct (absent_spec m root a q) as (Hn & Hp & _); [rewrite E; left|].
  destruct (walk_prefix _ _ _ _ _ _ Hp Hw) as (g & es1 & es2 & Hq & _). congruence.
Qed.

Lemma absent_three m root a : (length (absent m root (take 3 (path a))) <= 3)%nat.
Proof. unfold absent. etransitivity; [apply length_filter|]. done. Qed.

(** When no page was taken, the marks are the same. *)
Lemma marks_same s s' i : marks_grow s s' -> free_count s = free_count s' -> 0 <= i < pages s -> in_use s' i = in_use s i.
Proof.
  intros [Hp Hg] Hc Hi. assert (free_pages s' ⊆+ free_pages s) as Hsub.
  { apply NoDup_submseteq; [apply NoDup_filter, NoDup_seqZ|]. intros x. rewrite !elem_free, Hp. intros [Hx Hu].
    split; [done|]. destruct (in_use s x) eqn:E; [|done]. rewrite Hg in Hu by done. done. }
  assert (free_pages s' ≡ₚ free_pages s) as Hperm by (apply submseteq_length_Permutation; [done|unfold free_count in Hc; lia]).
  destruct (in_use s i) eqn:E; [by apply Hg|]. assert (i ∈ free_pages s) as Hin by (by apply elem_free).
  rewrite <- Hperm in Hin. apply elem_free in Hin. apply Hin.
Qed.

Lemma granted_dirs m root a f es k : walk m root (path a) = Some (f, es) -> all_have k es = true ->
  all_have k (dirs m root (take 3 (path a))) = true.
Proof.
  intros Hw Hk. destruct (dirs_prefix m (take 3 (path a)) root) as (q & g & Hq & Hwq).
  destruct (walk_prefix m root q (path a) f es) as (g' & es1 & es2 & Hw1 & ->); [etrans; [exact Hq|apply path_take]|done|].
  rewrite Hwq in Hw1. injection Hw1 as _ <-. rewrite all_have_app in Hk. by apply andb_true_iff in Hk as [? _].
Qed.

(** C20 A page from the system call (or from [AllocateStack] for user mode) was
    free, holds no table, is now used and mapped at its own address with the access the
    directories allow, and no other translation changes. *)
Theorem requestpage_correct k root : tables_ok (k_vmm k) root -> ktm_PML4 k = root * 4096 ->
  (4 <= free_count (v_pfa (k_vmm k)))%nat ->
  exists k' i, internal_requestpage k = Ok (k', i * 4096) /\ AllocateStack k true = Ok (k', i * 4096) /\
    in_use (v_pfa (k_vmm k)) i = false /\ in_use (v_pfa (k_vmm k')) i = true /\ tables_ok (k_vmm k') root /\
    (forall a, page_of a = page_of (i * 4096) -> translate (v_ram (k_vmm k')) root a =
       Some (mk_tr (i * 4096 + a mod 4096) (dirs_grant (v_ram (k_vmm k)) root 1 (i * 4096)) (dirs_grant (v_ram (k_vmm k)) root 2 (i * 4096)))) /\
    (forall a, page_of a <> page_of (i * 4096) -> translate (v_ram (k_vmm k')) root a = translate (v_ram (k_vmm k)) root a).
Proof.
  intros Hok Hr Hf. rewrite stack_is_page. unfold internal_requestpage. cbn [CanSyscall]. rewrite Hr.
  destruct (request_frame _ (tk_frames _ _ Hok) ltac:(lia)) as (i0 & s' & E & _).
  destruct (request_tables _ root _ _ Hok E) as (Hok1 & Er & i & Ei & Hi & Hu & Hu' & Hnt & Hmg & Hfc). cbn in Er.
  assert (i0 = i) as -> by lia. rewrite E. cbn [bind].
  pose proof (absent_three (v_ram (k_vmm k)) root (i * 4096)).
  destruct (map_page (mk_vmm (v_ram (k_vmm k)) s') root (i * 4096) (i * 4096) (Z.lor PT_US PT_RW) Hok1 flags_ok_RWUS) as (v' & E' & Hm);
    [cbn [v_ram v_pfa] in *; lia|].
  rewrite E'. cbn [bind]. exists (set_vmm k v'), i. cbn. destruct (mp_marks _ _ _ _ _ _ Hm) as [Hpg Hg]. destruct Hmg as [Hpg1 _].
  pose proof (fk_pages _ (tk_frames _ _ Hok)).
  split_and!; [done|done|done|apply Hg; [cbn in *; lia|done]|apply Hm| |].
  - intros a Ha. rewrite (mapped_page _ _ _ _ _ _ a Hm Ha), frame_small by lia. done.
  - intros a Ha. unfold translate. by rewrite (mapped_other _ _ _ _ _ _ a Hm Ha).
Qed.

(** Freeing a page by the system call does not take it from the program: the
    page is free for the next request, and every address, this one from user
    mode included, translates as before. *)
Theorem freepage_keeps_access k root i : tables_ok (k_vmm k) root -> ktm_PML4 k = root * 4096 -> 0 < i < pages (v_pfa (k_vmm k)) ->
  ~ is_table (k_vmm k) root i -> is_Some (v_ram (k_vmm k) !! i) ->
  translate (v_ram (k_vmm k)) root (i * 4096) = Some (mk_tr (i * 4096) true true) ->
  exists k', internal_freepage k (i * 4096) = Ok k' /\ in_use (v_pfa (k_vmm k')) i = false /\ tables_ok (k_vmm k') root /\
    forall a, translate (v_ram (k_vmm k')) root a = translate (v_ram (k_vmm k)) root a.
Proof.
  intros Hok Hr Hi Hnt Hram Htr. pose proof (fk_pages _ (tk_frames _ _ Hok)) as Hpg.
  assert (exists es, walk (v_ram (k_vmm k)) root (path (i * 4096)) = Some (i, es) /\ all_have 1 es = true /\ all_have 2 es = true) as (es & Hw & G1 & G2).
  { unfold translate in Htr. destruct (walk _ _ _) as [[f es]|]; [|done]. injection Htr as E1 E2 E3. exists es.
    rewrite Z.mod_mul in E1 by lia. assert (f = i) as -> by lia. done. }
  unfold internal_freepage. cbn [CanSyscall]. rewrite Hr. unfold free_page.
  destruct (FreePage_ok _ i (fk_pfa _ (tk_frames _ _ Hok)) ltac:(lia)) as (s' & E & _). rewrite E. cbn [bind].
  destruct (free_tables _ root i s' Hok Hi Hnt Hram E) as (Hok1 & Hu & Hpg1 & _).
  assert (exists e, get (v_ram (k_vmm k)) root (PDP_i (indexer (i * 4096))) = Some e) as [e He].
  { cbn [walk path] in Hw. destruct (get (v_ram (k_vmm k)) root (PDP_i (indexer (i * 4096)))) as [e|]; [by exists e|done]. }
  destruct (tk_table _ _ Hok [] root [] ltac:(cbn; lia) ltac:(done) eq_refl) as (Hroot & _).
  unfold UnmapMemory. rewrite decide_True by done. rewrite (read_entry_ok _ root _ e) by (done || lia). cbn [bind].
  destruct (map_page (mk_vmm (v_ram (k_vmm k)) s') root (i * 4096) (i * 4096) PT_RW Hok1 flags_ok_RW) as (v' & E' & Hm).
  { cbn [v_ram]. rewrite (absent_nil _ _ _ _ _ Hw). cbn. lia. }
  rewrite E'. cbn [bind]. eexists. split; [reflexivity|]. cbn. pose proof (mp_free _ _ _ _ _ _ Hm) as Hfc. cbn [v_ram v_pfa] in Hfc.
  rewrite (absent_nil _ _ _ _ _ Hw) in Hfc. split_and!; [|apply Hm|].
  - rewrite (marks_same s'); [done|apply Hm|cbn in Hfc; lia|lia].
  - intros a. destruct (decide (page_of a = page_of (i * 4096))) as [Ha|Ha].
    + rewrite (mapped_page _ _ _ _ _ _ a Hm Ha), frame_small by lia. unfold translate, access, dirs_grant, granted. cbn [v_ram].
      apply path_page in Ha. rewrite Ha, Hw, G1, G2.
      change (Z.testbit PT_RW 1) with true. change (Z.testbit PT_RW 2) with false. by rewrite (granted_dirs _ _ _ _ _ 1 Hw G1).
    + unfold translate. by rewrite (mapped_other _ _ _ _ _ _ a Hm Ha).
Qed.

(** ** Witnesses *)

(** 32 pages of which 0 and the last four are in use, the kernel in three of the latter. *)
Definition boot_vmm : vmm :=
  mk_vmm (list_to_map ((fun i => (Z.of_nat i, replicate 512 0xDEAC)) <$> seq 0 32))
         (mk_pfa (mk_bitmap 4 0 [0x80; 0; 0; 0x0F]) 0x20000 (27 * 4096) (5 * 4096) 0 0 true).

Definition boot_kernel : kernel := mk_kernel boot_vmm 0 0 true 0 0 0.

Definition boot_sample : boot_info :=
  mk_boot 0x20000 0x1C000 0xFFFF800000100000 0x1000 0xFFFFFFFF80000000 0xFFFFFFFF80001000 0xFFFFFFFF80002000 0xFFFFFFFF80003000.

Lemma boot_frames : frames_ok boot_vmm.
Proof.
  split.
  - split; [split|]; cbn; try done; try lia. repeat constructor; lia.
  - intros j Hj. cbn in Hj. lia.
  - done.
  - done.
  - intros i Hi _. change (pages (v_pfa boot_vmm)) with 32 in Hi. unfold boot_vmm. cbn [v_ram].
    replace i with (Z.of_nat (Z.to_nat i)) by lia. assert (Z.to_nat i < 32)%nat as Hn by lia. revert Hn. generalize (Z.to_nat i).
    intros n Hn. do 32 (destruct n as [|n]; [vm_compute; by eexists|]). lia.
Qed.

Lemma boot_sample_ok : boot_ok boot_sample /\ kernel_marked boot_sample (v_pfa boot_vmm) /\ rodata_shares boot_sample.
Proof.
  split; [|split].
  - split; split_and!; vm_compute; done.
  - split; [vm_compute; done|]. intros j Hj. change (mem_KernelBasePhysical boot_sample / 4096) with 28 in Hj.
    change ((kernel_end boot_sample - kernel_start boot_sample) / 4096) with 3 in Hj.
    assert (j = 28 \/ j = 29 \/ j = 30) as [->|[->| ->]] by lia; reflexivity.
  - right. split; [done|reflexivity].
Qed.

Lemma init_kernelpml_correct_witness : exists k' root, init_kernelpml boot_kernel boot_sample = Ok k' /\
  translate (v_ram (k_vmm k')) root 0x1F123 = Some (mk_tr 0x1F123 true true) /\
  translate (v_ram (k_vmm k')) root 0xFFFFFFFF80001234 = Some (mk_tr 0x1D234 false false) /\
  translate (v_ram (k_vmm k')) root 0xFFFFFFFF80002345 = Some (mk_tr 0x1E345 true false).
Proof.
  destruct boot_sample_ok as (Hb & Hm & Hs).
  destruct (init_kernelpml_correct boot_kernel boot_sample) as (k' & root & E & _ & _ & _ & _ & Hks & Hd).
  - done.
  - exact boot_frames.
  - exact Hb.
  - exact Hm.
  - vm_compute. lia.
  - exists k', root. refine (conj E _). split_and!.
    + apply (ks_ram _ _ _ Hks). cbn. lia.
    + apply (ks_rodata _ _ _ Hks). cbn. lia.
    + apply (Hd Hs). cbn. lia.
Defined.

Definition sample_kernel : kernel := mk_kernel sample_vmm (2 * 4096) (2 * 4096) true (2 * 4096) (2 * 4096) (2 * 4096).

Lemma requestpage_correct_witness : exists k' i, internal_requestpage sample_kernel = Ok (k', i * 4096) /\
  in_use (v_pfa sample_vmm) i = false /\ in_use (v_pfa (k_vmm k')) i = true.
Proof.
  destruct (requestpage_correct sample_kernel 2) as (k' & i & E & _ & Hu & Hu' & _).
  - apply sample_tables.
  - done.
  - vm_compute. lia.
  - exists k', i. exact (conj E (conj Hu Hu')).
Defined.

(** Frame 15, in use, mapped at its own address for user mode. *)
Lemma sample_user_page : exists v, MapMemory (2 * 4096) sample_vmm (15 * 4096) (15 * 4096) RWUS 0 = Ok v /\
  mapped sample_vmm v 2 (15 * 4096) (wrapu 40 (Z.shiftr (15 * 4096) 12)) RWUS /\ v_ram v !! 15 = v_ram sample_vmm !! 15.
Proof.
  destruct (map_page sample_vmm 2 (15 * 4096) (15 * 4096) RWUS) as (v & E & Hm); [apply sample_tables|done|vm_compute; lia|].
  exists v. split; [done|]. split; [done|]. assert ((match MapMemory (2 * 4096) sample_vmm (15 * 4096) (15 * 4096) RWUS 0 with
    Ok v => v_ram v !! 15 | Err _ => None end) = v_ram sample_vmm !! 15) as H by (vm_compute; reflexivity). by rewrite E in H.
Qed.

Lemma freepage_keeps_access_witness : exists k k', internal_freepage k (15 * 4096) = Ok k' /\
  in_use (v_pfa (k_vmm k')) 15 = false /\ translate (v_ram (k_vmm k')) 2 (15 * 4096) = Some (mk_tr (15 * 4096) true true).
Proof.
  destruct sample_user_page as (v & _ & Hm & H15).
  assert (translate (v_ram v) 2 (15 * 4096) = Some (mk_tr (15 * 4096) true true)) as Htr.
  { rewrite (mapped_page _ _ _ _ _ _ (15 * 4096) Hm) by reflexivity.
    assert (access (v_ram sample_vmm) 2 RWUS 1 (15 * 4096) = true) as -> by (vm_compute; reflexivity).
    assert (access (v_ram sample_vmm) 2 RWUS 2 (15 * 4096) = true) as -> by (vm_compute; reflexivity). reflexivity. }
  assert (exists ws, v_ram v !! 15 = Some ws /\ ws !! 0%nat = Some 0xDEAC) as (ws & Ews & Ews0).
  { rewrite H15. exists (replicate 512 0xDEAC). split; vm_compute; reflexivity. }
  destruct (freepage_keeps_access (mk_kernel v (2 * 4096) (2 * 4096) true (2 * 4096) (2 * 4096) (2 * 4096)) 2 15) as (k' & Ek & Hu & _ & Hall).
  - apply Hm.
  - reflexivity.
  - cbn [k_vmm]. destruct (mp_marks _ _ _ _ _ _ Hm) as [-> _]. change (pages (v_pfa sample_vmm)) with 16. lia.
  - intros (p & es & Hl & Hi & Hw). cbn in Hw.
    assert (0xDEAC = 0) as X; [|discriminate X]. eapply (tk_clean _ _ (mp_ok _ _ _ _ _ _ Hm) p 15 es 0); try done.
    unfold get. rewrite Ews. exact Ews0.
  - cbn. rewrite Ews. by eexists.
  - exact Htr.
  - eexists _, k'. refine (conj Ek (conj Hu _)). rewrite Hall. exact Htr.
Defined.

(** Where the code ends at a 2 MiB boundary, the page table of the data is
    made for the read-only data, without the flag for writing, and the data
    cannot be written. *)
Definition boundary_sample : boot_info :=
  mk_boot 0x20000 0x1C000 0xFFFF800000100000 0x1000 0xFFFFFFFF801FF000 0xFFFFFFFF80200000 0xFFFFFFFF80201000 0xFFFFFFFF80202000.

Example data_not_writable :
  (let* k := init_kernelpml boot_kernel boundary_sample in
   Ok (translate (v_ram (k_vmm k)) (KernelPML4 k / 4096) 0xFFFFFFFF80201008)) = Ok (Some (mk_tr 0x1E008 false false)).
Proof. vm_compute. reflexivity. Qed.
