(* ===== verification/LibcString.v ===== *)
(** * The string functions of the user space C library

    src/libc/src/string/string.c: the functions that the kernel's String.c does
    not have (the others are the same code).  Strings that are only read are
    their characters with an offset; [strtok] writes into its string, so there
    it is a buffer. *)

From S2P Require Import Prelude CString.

Local Open Scope nat_scope.

(** ** Searching *)

(** [while ( *String != (char)Char) if (! *String++) return 0;] *)
Fixpoint strchr_loop (s : cstr) (Char : Z) (i fuel : nat) : res (option nat) :=
  match fuel with
  | O => Err OutOfFuel
  | S f =>
      let* c := cget s i in
      if decide (c = Char) then Ok (Some i)
      else if decide (c = 0%Z) then Ok None
      else strchr_loop s Char (S i) f
  end.

Definition strchr (s : cstr) (o : nat) (Char : Z) : res (option nat) :=
  strchr_loop s (u8 Char) o (S (length s)).

Fixpoint strrchr_loop (s : cstr) (Char : Z) (i : nat) (ret : option nat) (fuel : nat) : res (option nat) :=
  match fuel with
  | O => Err OutOfFuel
  | S f =>
      let* c := cget s i in
      let ret := if decide (c = Char) then Some i else ret in
      if decide (c = 0%Z) then Ok ret else strrchr_loop s Char (S i) ret f
  end.

Definition strrchr (s : cstr) (o : nat) (Char : Z) : res (option nat) :=
  strrchr_loop s (u8 Char) o None (S (length s)).

(** ** Comparing without case *)

(** The macro [tolower] on a [char], which is signed. *)
Definition tolower (c : Z) : Z := (c + 0x20 * b2z (bool_decide (65 <= c /\ c <= 90)))%Z.

Fixpoint strncasecmp_loop (lhs rhs : cstr) (i : nat) (Count : nat) : res Z :=
  match Count with
  | O => Ok 0%Z
  | S k =>
      let* l := cget lhs i in
      let* r := cget rhs i in
      if decide (l = 0%Z \/ r = 0%Z) then Ok (l - r)%Z
      else if decide (tolower (schar l) = tolower (schar r)) then strncasecmp_loop lhs rhs (S i) k
      else Ok (l - r)%Z
  end.

Definition strncasecmp (lhs rhs : cstr) (Count : Z) : res Z := strncasecmp_loop lhs rhs 0 (Z.to_nat Count).

Fixpoint strcasecmp_loop (lhs rhs : cstr) (i fuel : nat) : res Z :=
  match fuel with
  | O => Err OutOfFuel
  | S f =>
      let* l := cget lhs i in
      let* r := cget rhs i in
      if decide (schar l <> 0%Z /\ tolower (schar l) = tolower (schar r)) then strcasecmp_loop lhs rhs (S i) f
      else Ok (tolower (schar l) - tolower (schar r))%Z
  end.

Definition strcasecmp (lhs rhs : cstr) : res Z := strcasecmp_loop lhs rhs 0 (S (length lhs)).

(** ** Tokens *)

Fixpoint isdelim_loop (c : Z) (delim : cstr) (i fuel : nat) : res bool :=
  match fuel with
  | O => Err OutOfFuel
  | S f =>
      let* d := cget delim i in
      if decide (d = 0%Z) then Ok false
      else if decide (c = d) then Ok true
      else isdelim_loop c delim (S i) f
  end.

Definition isdelim (c : Z) (delim : cstr) : res bool := isdelim_loop c delim 0 (S (length delim)).

(** Over the delimiters before a token; [None] at the end of the string. *)
Fixpoint strtok_skip (buf : list Z) (delim : cstr) (src fuel : nat) : res (option nat) :=
  match fuel with
  | O => Err OutOfFuel
  | S f =>
      let* c := aget buf src in
      let* d := isdelim c delim in
      if (d : bool) then strtok_skip buf delim (S src) f
      else if decide (c = 0%Z) then Ok None
      else Ok (Some src)
  end.

(** To the end of the token, which is cut off: the buffer and [src1]. *)
Fixpoint strtok_end (buf : list Z) (delim : cstr) (src fuel : nat) : res (list Z * nat) :=
  match fuel with
  | O => Err OutOfFuel
  | S f =>
      let* c := aget buf src in
      if decide (c = 0%Z) then Ok (buf, src)
      else
        let* d := isdelim c delim in
        if (d : bool) then let* buf := aset buf src 0%Z in Ok (buf, S src)
        else strtok_end buf delim (S src) f
  end.

(** [strtok] on a buffer: [src] is an offset or null, [src1] the static pointer. *)
Definition strtok (buf : list Z) (src src1 : option nat) (delim : cstr) : res (list Z * option nat * option nat) :=
  match (match src with Some p => Some p | None => src1 end) with
  | None => Ok (buf, src1, None)
  | Some p =>
      let* r := strtok_skip buf delim p (S (length buf)) in
      match r with
      | None => Ok (buf, src1, None)
      | Some ret =>
          let* '(buf, q) := strtok_end buf delim ret (S (length buf)) in
          Ok (buf, Some q, Some ret)
      end
  end.

(** [strdup]: a new buffer of [strlen + 1] bytes. *)
Definition strdup (s : cstr) : res (option (list Z)) :=
  let* n := strlen s 0 in strcpy (Some (replicate (S (Z.to_nat n)) 0%Z)) s.

(** ** Correctness of the searches *)

Lemma cget_lookup s i c : s !! i = Some c -> cget s i = Ok c.
Proof.
  intros E. unfold cget. rewrite decide_True by (by eapply lookup_lt_Some). f_equal. by apply nth_lookup_Some.
Qed.


Lemma strchr_loop_spec s c : cstr_ok s -> (0 < c < 256)%Z -> forall fuel i, i <= length s -> length s - i < fuel ->
  exists r, strchr_loop s c i fuel = Ok r /\
    match r with
    | Some k => i <= k /\ s !! k = Some c /\ forall j, i <= j < k -> s !! j <> Some c
    | None => forall j, i <= j -> s !! j <> Some c
    end.
Proof.
  intros Hs Hc. induction fuel as [|f IH]; intros i Hi Hf; [lia|]. cbn [strchr_loop].
  destruct (decide (i = length s)) as [->|Hne].
  - rewrite cget_end. cbn [bind]. rewrite decide_False, decide_True by lia. exists None. split; [done|].
    intros j Hj E. apply lookup_lt_Some in E. lia.
  - destruct (lookup_lt_is_Some_2 s i ltac:(lia)) as [x E]. rewrite (cget_lookup _ _ _ E). cbn [bind].
    case_decide as Hx; [exists (Some i); split; [done|]; split; [lia|]; split; [congruence|]; intros; lia|].
    pose proof (Forall_lookup_1 _ _ _ _ Hs E). cbn in *. rewrite decide_False by lia.
    destruct (IH (S i) ltac:(lia) ltac:(lia)) as (r & -> & Hr). exists r. split; [done|]. destruct r as [k|].
    + destruct Hr as (H1 & H2 & H3). split_and!; [lia|done|]. intros j Hj. destruct (decide (j = i)) as [->|]; [congruence|]. apply H3. lia.
    + intros j Hj. destruct (decide (j = i)) as [->|]; [congruence|]. apply Hr. lia.
Qed.

(** The first occurrence. *)
Lemma strchr_ok s c : cstr_ok s -> (0 < c < 256)%Z ->
  exists r, strchr s 0 c = Ok r /\
    match r with
    | Some k => s !! k = Some c /\ forall j, j < k -> s !! j <> Some c
    | None => c ∉ s
    end.
Proof.
  intros Hs Hc. unfold strchr. rewrite wrapu_small by lia.
  destruct (strchr_loop_spec s c Hs Hc (S (length s)) 0) as (r & -> & Hr); [lia..|]. exists r. split; [done|]. destruct r as [k|].
  - destruct Hr as (_ & H1 & H2). split; [done|]. intros j Hj. apply H2. lia.
  - intros Hin. apply list_elem_of_lookup in Hin as [j Hj]. apply (Hr j); [lia|done].
Qed.

(** ** Tokens *)

Definition is_delim (delim : cstr) (c : Z) : bool := bool_decide (c ∈ delim).
Definition no_delim (delim : cstr) (c : Z) : bool := negb (is_delim delim c).

Lemma isdelim_loop_ok c delim : cstr_ok delim -> forall fuel i, i <= length delim -> length delim - i < fuel ->
  isdelim_loop c delim i fuel = Ok (is_delim (drop i delim) c).
Proof.
  intros Hd. induction fuel as [|f IH]; intros i Hi Hf; [lia|]. cbn [isdelim_loop].
  destruct (cget_cases delim i Hi) as [(d & k & Ed & Eb & Hlt)|(Ed & Eb & Hlt)]; rewrite Ed, Eb; cbn [bind].
  - pose proof (cstr_ok_head _ _ _ _ Hd Ed). rewrite decide_False by lia. unfold is_delim. destruct (decide (c = d)) as [->|Hne].
    + rewrite bool_decide_true; [done|left].
    + rewrite IH by lia. destruct (drop_cons_lookup _ _ _ _ Ed) as [_ ->]. f_equal. apply bool_decide_ext. rewrite elem_of_cons. naive_solver.
  - rewrite decide_True by done. unfold is_delim. by rewrite bool_decide_false by (by intros ?%elem_of_nil).
Qed.

Lemma isdelim_ok c delim : cstr_ok delim -> isdelim c delim = Ok (is_delim delim c).
Proof. intros Hd. unfold isdelim. rewrite (isdelim_loop_ok c delim Hd) by lia. by rewrite drop_0. Qed.

Lemma is_delim_zero delim : cstr_ok delim -> is_delim delim 0%Z = false.
Proof.
  intros Hd. apply bool_decide_eq_false. intros Hin. apply list_elem_of_lookup in Hin as [i E]. pose proof (Forall_lookup_1 _ _ _ _ Hd E).
  cbn in *. lia.
Qed.

Lemma aget_middle {A} (pre post : list A) x : aget (pre ++ x :: post) (length pre) = Ok x.
Proof. apply aget_Ok. by apply list_lookup_middle. Qed.

Lemma strtok_skip_ok delim post s : cstr_ok delim -> cstr_ok s -> forall pre fuel, length s < fuel ->
  strtok_skip (pre ++ s ++ 0%Z :: post) delim (length pre) fuel
  = Ok (match dropWhile (is_delim delim) s with [] => None | _ :: _ => Some (length pre + length (takeWhile (is_delim delim) s)) end).
Proof.
  intros Hd Hs. induction Hs as [|c s Hc Hs IH]; intros pre fuel Hf; (destruct fuel as [|f]; [cbn in Hf; lia|]); cbn [strtok_skip app].
  - rewrite aget_middle. cbn [bind]. rewrite isdelim_ok, is_delim_zero by done. cbn [bind]. by rewrite decide_True.
  - rewrite aget_middle. cbn [bind takeWhile dropWhile]. rewrite isdelim_ok by done. cbn [bind]. destruct (is_delim delim c).
    + specialize (IH (pre ++ [c]) f ltac:(cbn in Hf; lia)). rewrite length_app in IH. cbn [length] in IH. rewrite Nat.add_1_r, <- app_assoc in IH. cbn [app] in IH.
      rewrite IH. destruct (dropWhile (is_delim delim) s); [done|]. cbn [length]. do 2 f_equal. lia.
    + rewrite decide_False by lia. cbn. do 2 f_equal. lia.
Qed.

(** The token at [pre] is cut off at the delimiter behind it. *)
Lemma strtok_end_ok delim post s : cstr_ok delim -> cstr_ok s -> forall pre fuel, length s < fuel ->
  strtok_end (pre ++ s ++ 0%Z :: post) delim (length pre) fuel
  = let tok := takeWhile (no_delim delim) s in
    match dropWhile (no_delim delim) s with
    | [] => Ok (pre ++ s ++ 0%Z :: post, length pre + length s)
    | _ :: r => Ok (pre ++ tok ++ 0%Z :: r ++ 0%Z :: post, S (length pre + length tok))
    end.
Proof.
  intros Hd Hs. induction Hs as [|c s Hc Hs IH]; intros pre fuel Hf; (destruct fuel as [|f]; [cbn in Hf; lia|]); cbn [strtok_end app].
  - rewrite aget_middle. cbn [bind]. rewrite decide_True by done. cbn. by rewrite Nat.add_0_r.
  - rewrite aget_middle. cbn [bind takeWhile dropWhile]. rewrite decide_False by lia. rewrite isdelim_ok by done. cbn [bind].
    change (no_delim delim c) with (negb (is_delim delim c)). destruct (is_delim delim c); cbn [negb].
    + rewrite aset_Ok by (rewrite length_app; cbn; lia). cbn [bind app length]. rewrite insert_app_r_alt, Nat.sub_diag by lia. cbn. by rewrite Nat.add_0_r.
    + specialize (IH (pre ++ [c]) f ltac:(cbn in Hf; lia)). rewrite length_app in IH. cbn [length] in IH. rewrite Nat.add_1_r, <- app_assoc in IH. cbn [app] in IH.
      rewrite IH. cbv zeta. cbn [length]. destruct (dropWhile (no_delim delim) s) as [|x r].
      * do 2 f_equal. lia.
      * cbn [app length]. rewrite <- app_assoc. cbn [app]. do 2 f_equal. lia.
Qed.

(** A program that calls [strtok] until it returns null, and the texts it gets. *)
Definition text_at (buf : list Z) (p : nat) : cstr := takeWhile (fun c => negb (bool_decide (c = 0%Z))) (drop p buf).

Fixpoint strtok_all (buf : list Z) (src src1 : option nat) (delim : cstr) (fuel : nat) : res (list cstr) :=
  match fuel with
  | O => Err OutOfFuel
  | S f =>
      let* '(buf, src1, ret) := strtok buf src src1 delim in
      match ret with
      | None => Ok []
      | Some p => let* l := strtok_all buf None src1 delim f in Ok (text_at buf p :: l)
      end
  end.

(** The tokens of a text: the longest pieces without delimiters. *)
Fixpoint tokens (delim : cstr) (s : cstr) (n : nat) : list cstr :=
  match n with
  | O => []
  | S n' =>
      match dropWhile (is_delim delim) s with
      | [] => []
      | s' => takeWhile (no_delim delim) s' :: tokens delim (drop 1 (dropWhile (no_delim delim) s')) n'
      end
  end.

Lemma text_at_ok pre tok rest : cstr_ok tok -> text_at (pre ++ tok ++ 0%Z :: rest) (length pre) = tok.
Proof.
  intros Ht. unfold text_at. rewrite drop_app_length. induction Ht as [|c tok Hc _ IH]; cbn; [done|].
  rewrite bool_decide_false by lia. cbn. by rewrite IH.
Qed.

Lemma Forall_takeWhile {A} (P : A -> Prop) p l : Forall P l -> Forall P (takeWhile p l).
Proof. intros H. rewrite <- (takeWhile_dropWhile p l) in H. by apply Forall_app in H as [? _]. Qed.

Lemma Forall_dropWhile {A} (P : A -> Prop) p l : Forall P l -> Forall P (dropWhile p l).
Proof. intros H. rewrite <- (takeWhile_dropWhile p l) in H. by apply Forall_app in H as [_ ?]. Qed.

Lemma strtok_all_ok delim post : cstr_ok delim -> forall fuel s pre src src1, cstr_ok s -> length s < fuel ->
  match src with Some p => Some p | None => src1 end = Some (length pre) ->
  strtok_all (pre ++ s ++ 0%Z :: post) src src1 delim fuel = Ok (tokens delim s fuel).
Proof.
  intros Hd. induction fuel as [|f IH]; intros s pre src src1 Hs Hf Hsrc; [lia|]. cbn [strtok_all tokens]. unfold strtok. rewrite Hsrc.
  rewrite strtok_skip_ok by (done || rewrite !length_app; cbn; lia). cbn [bind].
  pose proof (takeWhile_dropWhile (is_delim delim) s) as Es. pose proof (Forall_dropWhile _ (is_delim delim) s Hs) as Hs'.
  set (skip := takeWhile (is_delim delim) s) in *. destruct (dropWhile (is_delim delim) s) as [|c s''] eqn:Ed; [done|].
  set (s' := c :: s'') in *. rewrite <- Es. replace (pre ++ (skip ++ s') ++ 0%Z :: post) with ((pre ++ skip) ++ s' ++ 0%Z :: post) by (by rewrite <- !app_assoc).
  rewrite <- length_app. rewrite strtok_end_ok by (done || rewrite !length_app; cbn; lia). cbv zeta.
  pose proof (takeWhile_dropWhile (no_delim delim) s') as Et. pose proof (Forall_takeWhile _ (no_delim delim) s' Hs') as Htok.
  pose proof (Forall_dropWhile _ (no_delim delim) s' Hs') as Hr.
  assert (length s' <= length s) as Hl by (rewrite <- Es, length_app; lia).
  assert (is_delim delim c = false) as Hc by (by eapply dropWhile_head).
  destruct (dropWhile (no_delim delim) s') as [|x r]; cbn [bind].
  - rewrite app_nil_r in Et. rewrite Et. assert (text_at ((pre ++ skip) ++ s' ++ 0%Z :: post) (length (pre ++ skip)) = s') as -> by (by apply text_at_ok).
    pose proof (IH [] ((pre ++ skip) ++ s') None (Some (length ((pre ++ skip) ++ s')))) as IH1. cbn [app] in IH1.
    rewrite (app_assoc (pre ++ skip)), <- (length_app (pre ++ skip) s'). rewrite IH1; [done|constructor|unfold s' in Hl; cbn in *; lia|done].
  - rewrite text_at_ok by done. apply Forall_cons in Hr as [_ Hr].
    assert (length r < length s') as Hlr by (rewrite <- Et, length_app; cbn; lia).
    pose proof (IH r ((pre ++ skip) ++ takeWhile (no_delim delim) s' ++ [0%Z]) None (Some (S (length (pre ++ skip) + length (takeWhile (no_delim delim) s'))))) as IH1.
    rewrite <- !app_assoc in IH1. cbn [app] in IH1. rewrite <- !app_assoc. rewrite IH1; [done|done|lia|].
    rewrite !length_app. cbn. f_equal. lia.
Qed.

(** [strtok], called until it returns null, yields the tokens of the text,
    the longest pieces without delimiters, in order, and ends, for all texts and
    delimiters; it never leaves the buffer. *)
Theorem strtok_tokens s delim post : cstr_ok s -> cstr_ok delim ->
  strtok_all (s ++ 0%Z :: post) (Some 0) None delim (S (length s)) = Ok (tokens delim s (S (length s))).
Proof. intros Hs Hd. apply (strtok_all_ok delim post Hd (S (length s)) s []); [done|lia|done]. Qed.

Lemma strtok_tokens_witness :
  strtok_all (bytes_of ",a b,,c" ++ [0; 1]%Z) (Some 0) None (bytes_of " ,") 8 = Ok [bytes_of "a"; bytes_of "b"; bytes_of "c"].
Proof.
  refine (eq_trans (strtok_tokens (bytes_of ",a b,,c") (bytes_of " ,") [1%Z] _ _) _); [repeat constructor; lia|repeat constructor; lia|vm_compute; reflexivity].
Defined.
