(* ===== verification/Cargs.v ===== *)
(** * Command line arguments

    src/userspace/libs/cargs/cargs.c: the parser of command line options that
    programs of the user space call in a loop.  [argv] is the array of the
    program, whose last element is the null pointer; a [char*] into an
    argument is the argument with an offset.  [strncmp] and [strlen] of the
    C library are the kernel's code. *)

From S2P Require Import Prelude CString LibcString.

Local Open Scope Z_scope.

(** ** Data *)

Record cag_option := mk_option {
  o_identifier : Z;
  o_access_letters : option cstr;
  o_access_name : option cstr;
  o_value_name : option cstr;
  o_description : cstr
}.

(** A pointer into a string. *)
Definition pointer : Type := cstr * nat.

Record cag_option_context := mk_context {
  c_options : list cag_option;
  c_argc : Z;
  c_argv : list (option cstr);
  c_index : Z;
  c_inner_index : Z;
  c_forced_end : bool;
  c_identifier : Z;
  c_value : option pointer
}.

Definition set_argv (x : cag_option_context) (a : list (option cstr)) : cag_option_context :=
  mk_context (c_options x) (c_argc x) a (c_index x) (c_inner_index x) (c_forced_end x) (c_identifier x) (c_value x).
Definition set_arg_index (x : cag_option_context) (i : Z) : cag_option_context :=
  mk_context (c_options x) (c_argc x) (c_argv x) i (c_inner_index x) (c_forced_end x) (c_identifier x) (c_value x).
Definition set_inner_index (x : cag_option_context) (i : Z) : cag_option_context :=
  mk_context (c_options x) (c_argc x) (c_argv x) (c_index x) i (c_forced_end x) (c_identifier x) (c_value x).
Definition set_forced_end (x : cag_option_context) (b : bool) : cag_option_context :=
  mk_context (c_options x) (c_argc x) (c_argv x) (c_index x) (c_inner_index x) b (c_identifier x) (c_value x).
Definition set_identifier (x : cag_option_context) (i : Z) : cag_option_context :=
  mk_context (c_options x) (c_argc x) (c_argv x) (c_index x) (c_inner_index x) (c_forced_end x) i (c_value x).
Definition set_value (x : cag_option_context) (v : option pointer) : cag_option_context :=
  mk_context (c_options x) (c_argc x) (c_argv x) (c_index x) (c_inner_index x) (c_forced_end x) (c_identifier x) v.

(** [argv[i]], for an [int] index. *)
Definition arg_at (argv : list (option cstr)) (i : Z) : res (option cstr) :=
  if decide (i < 0) then Err OutOfBounds else aget argv (Z.to_nat i).
Definition arg_set (argv : list (option cstr)) (i : Z) (a : option cstr) : res (list (option cstr)) :=
  if decide (i < 0) then Err OutOfBounds else aset argv (Z.to_nat i) a.

(** A pointer that is dereferenced must not be null. *)
Definition deref (a : option cstr) : res cstr :=
  match a with Some s => Ok s | None => Err NullDeref end.

Definition pget (p : pointer) : res Z := cget p.1 p.2.
Definition padd (p : pointer) (n : nat) : pointer := (p.1, (p.2 + n)%nat).

(** ** Printing *)

(** The stream that options are printed to: [fputs], and [fprintf] of a text
    that is put together from the format, with the value it returns. *)
Class Stream (S : Type) := {
  fputs : S -> cstr -> S;
  fprintf : S -> cstr -> S * Z
}.

Section print.
Context {S : Type} `{Stream S}.

Definition CAG_OPTION_PRINT_DISTANCE : Z := 4.
Definition CAG_OPTION_PRINT_MIN_INDENTION : Z := 20.

Definition cag_option_print_value (option : cag_option) (accessor_length : Z) (destination : S) : S * Z :=
  match o_value_name option with
  | Some value_name =>
      let '(destination, n) := fprintf destination (bytes_of "=" ++ value_name) in (destination, accessor_length + n)
  | None => (destination, accessor_length)
  end.

(** The loop over the letters: the stream, the length and [first]. *)
Fixpoint print_letters_loop (letters : cstr) (first : bool) (accessor_length : Z) (destination : S) : S * Z * bool :=
  match letters with
  | [] => (destination, accessor_length, first)
  | c :: letters' =>
      let '(destination, n) := fprintf destination ((if first then bytes_of "-" else bytes_of ", -") ++ [c]) in
      print_letters_loop letters' false (accessor_length + n) destination
  end.

Definition cag_option_print_letters (option : cag_option) (first : bool) (accessor_length : Z) (destination : S) : S * Z * bool :=
  match o_access_letters option with
  | Some letters => print_letters_loop letters first accessor_length destination
  | None => (destination, accessor_length, first)
  end.

Definition cag_option_print_name (option : cag_option) (first : bool) (accessor_length : Z) (destination : S) : S * Z :=
  match o_access_name option with
  | Some name =>
      let '(destination, n) := fprintf destination ((if first then bytes_of "--" else bytes_of ", --") ++ name) in
      (destination, accessor_length + n)
  | None => (destination, accessor_length)
  end.

Definition zlen (s : cstr) : Z := Z.of_nat (length s).

(** The columns that an option takes, with the distance to its description. *)
Definition option_indention (option : cag_option) : Z :=
  let indention := CAG_OPTION_PRINT_DISTANCE in
  let indention :=
    match o_access_letters option with
    | Some ((_ :: _) as letters) =>
        let indention := indention + (zlen letters * 4 - 2) in
        match o_access_name option with Some name => indention + (zlen name + 4) | None => indention end
    | _ => match o_access_name option with Some name => indention + (zlen name + 2) | None => indention end
    end in
  match o_value_name option with Some v => indention + (zlen v + 1) | None => indention end.

Fixpoint get_print_indention_loop (options : list cag_option) (result : Z) : Z :=
  match options with
  | [] => result
  | option :: options' =>
      let indention := option_indention option in
      get_print_indention_loop options' (if decide (result < indention) then indention else result)
  end.

Definition cag_option_get_print_indention (options : list cag_option) : Z :=
  get_print_indention_loop options CAG_OPTION_PRINT_MIN_INDENTION.

(** [for (i = accessor_length; i < indention; ++i)] *)
Fixpoint put_spaces (n : nat) (destination : S) : S :=
  match n with
  | O => destination
  | Datatypes.S n' => put_spaces n' (fputs destination (bytes_of " "))
  end.

Definition print_option (indention : Z) (destination : S) (option : cag_option) : S :=
  let destination := fputs destination (bytes_of "  ") in
  let '(destination, accessor_length, first) := cag_option_print_letters option true 0 destination in
  let '(destination, accessor_length) := cag_option_print_name option first accessor_length destination in
  let '(destination, accessor_length) := cag_option_print_value option accessor_length destination in
  let destination := put_spaces (Z.to_nat (indention - accessor_length)) destination in
  let destination := fputs destination (bytes_of " ") in
  let destination := fputs destination (o_description option) in
  (fprintf destination [10]).1.

Definition cag_option_print (options : list cag_option) (destination : S) : S :=
  foldl (print_option (cag_option_get_print_indention options)) destination options.
End print.

(** ** Parsing *)

Definition cag_option_prepare (options : list cag_option) (argc : Z) (argv : list (option cstr)) (context : cag_option_context)
    : cag_option_context :=
  mk_context options argc argv 1 0 false (c_identifier context) (c_value context).

(** The first option whose name is equal to [name] in the first [name_size]
    characters. *)
Fixpoint find_by_name_loop (options : list cag_option) (name : pointer) (name_size : Z) : res (option cag_option) :=
  match options with
  | [] => Ok None
  | option :: options' =>
      match o_access_name option with
      | None => find_by_name_loop options' name name_size
      | Some access_name =>
          let* r := strncmp access_name 0 name.1 name.2 name_size in
          if decide (r = 0) then Ok (Some option) else find_by_name_loop options' name name_size
      end
  end.

Definition cag_option_find_by_name (context : cag_option_context) (name : pointer) (name_size : Z) : res (option cag_option) :=
  find_by_name_loop (c_options context) name name_size.

Fixpoint find_by_letter_loop (options : list cag_option) (letter : Z) : res (option cag_option) :=
  match options with
  | [] => Ok None
  | option :: options' =>
      match o_access_letters option with
      | None => find_by_letter_loop options' letter
      | Some letters =>
          let* r := strchr letters 0 letter in
          match r with
          | Some _ => Ok (Some option)
          | None => find_by_letter_loop options' letter
          end
      end
  end.

Definition cag_option_find_by_letter (context : cag_option_context) (letter : Z) : res (option cag_option) :=
  find_by_letter_loop (c_options context) letter.

(** [while ( **c) ++( *c)] *)
Fixpoint to_end (c : pointer) (fuel : nat) : res pointer :=
  match fuel with
  | O => Err OutOfFuel
  | S f => let* x := pget c in if decide (x = 0) then Ok c else to_end (padd c 1) f
  end.

(** The value of an option: behind a '=', or the next argument. *)
Definition cag_option_parse_value (context : cag_option_context) (option : cag_option) (c : pointer)
    : res (cag_option_context * pointer) :=
  match o_value_name option with
  | None => Ok (context, c)
  | Some _ =>
      let* x := pget c in
      let* '(context, c) :=
        if decide (x = 61) then let c := padd c 1 in Ok (set_value context (Some c), c)
        else if decide (c_index context + 1 < c_argc context) then
          let context := set_arg_index context (c_index context + 1) in
          let* a := arg_at (c_argv context) (c_index context) in
          let* s := deref a in
          Ok (set_value context (Some (s, O)), (s, O))
        else Ok (context, c) in
      let* c := to_end c (S (length c.1)) in
      Ok (context, c)
  end.

(** [while ( **c && **c != '=') ++*c] *)
Fixpoint to_equal (c : pointer) (fuel : nat) : res pointer :=
  match fuel with
  | O => Err OutOfFuel
  | S f => let* x := pget c in if decide (x = 0 \/ x = 61) then Ok c else to_equal (padd c 1) f
  end.

Definition cag_option_parse_access_name (context : cag_option_context) (c : pointer) : res cag_option_context :=
  let n := c in
  let* c := to_equal c (S (length c.1)) in
  assert (bool_decide (n.2 <= c.2)%nat) ;;
  let* option := cag_option_find_by_name context n (Z.of_nat (c.2 - n.2)) in
  match option with
  | None => Ok (set_arg_index context (c_index context + 1))
  | Some option =>
      let context := set_identifier context (o_identifier option) in
      let* '(context, c) := cag_option_parse_value context option c in
      Ok (set_arg_index context (c_index context + 1))
  end.

Definition cag_option_parse_access_letter (context : cag_option_context) (c : pointer) : res cag_option_context :=
  let n := c in
  let* letter := pget (padd n (Z.to_nat (c_inner_index context))) in
  let* option := cag_option_find_by_letter context letter in
  match option with
  | None => Ok (set_inner_index (set_arg_index context (c_index context + 1)) 0)
  | Some option =>
      let context := set_identifier context (o_identifier option) in
      let context := set_inner_index context (c_inner_index context + 1) in
      let v := padd n (Z.to_nat (c_inner_index context)) in
      let* '(context, v) := cag_option_parse_value context option v in
      let* x := pget v in
      if decide (x = 0) then Ok (set_inner_index (set_arg_index context (c_index context + 1)) 0)
      else Ok context
  end.

(** [for (shift_index = 0; shift_index < shift_count; ++shift_index)] *)
Fixpoint shift_right (argv : list (option cstr)) (a_index shift_index : Z) (n : nat) : res (list (option cstr)) :=
  match n with
  | O => Ok argv
  | S n' =>
      let left_index := a_index - shift_index in
      let right_index := a_index - shift_index - 1 in
      let* x := arg_at argv right_index in
      let* argv := arg_set argv left_index x in
      shift_right argv a_index (shift_index + 1) n'
  end.

(** [for (a_index = option; a_index < end; ++a_index)] *)
Fixpoint shift_options (argv : list (option cstr)) (a_index shift_count : Z) (n : nat) : res (list (option cstr)) :=
  match n with
  | O => Ok argv
  | S n' =>
      let* tmp := arg_at argv a_index in
      let* argv := shift_right argv a_index 0 (Z.to_nat shift_count) in
      let* argv := arg_set argv (a_index - shift_count) tmp in
      shift_options argv (a_index + 1) shift_count n'
  end.

Definition cag_option_shift (context : cag_option_context) (start option end_ : Z) : res cag_option_context :=
  let shift_count := option - start in
  if decide (shift_count = 0) then Ok context
  else
    let* argv := shift_options (c_argv context) option shift_count (Z.to_nat (end_ - option)) in
    Ok (set_arg_index (set_argv context argv) (end_ - shift_count)).

Definition cag_option_is_argument_string (c : cstr) : res bool :=
  let* x := cget c 0 in
  if decide (x = 45) then let* y := cget c 1 in Ok (negb (bool_decide (y = 0))) else Ok false.

(** The search from [next_option_index]; [None] stands for -1. *)
Fixpoint find_next_loop (argv : list (option cstr)) (next_option_index : Z) (c : cstr) (fuel : nat) : res (option Z) :=
  match fuel with
  | O => Err OutOfFuel
  | S f =>
      let* is_arg := cag_option_is_argument_string c in
      if (is_arg : bool) then Ok (Some next_option_index)
      else
        let next_option_index := next_option_index + 1 in
        let* a := arg_at argv next_option_index in
        match a with
        | None => Ok None
        | Some c => find_next_loop argv next_option_index c f
        end
  end.

Definition cag_option_find_next (context : cag_option_context) : res (option Z) :=
  let* a := arg_at (c_argv context) (c_index context) in
  if c_forced_end context then Ok None
  else
    match a with
    | None => Ok None
    | Some c => find_next_loop (c_argv context) (c_index context) c (S (length (c_argv context)))
    end.

Definition cag_option_fetch (context : cag_option_context) : res (cag_option_context * bool) :=
  let context := set_value (set_identifier context 63) None in
  let old_index := c_index context in
  let* next := cag_option_find_next context in
  match next with
  | None => Ok (context, false)
  | Some new_index =>
      let context := set_arg_index context new_index in
      let* a := arg_at (c_argv context) (c_index context) in
      let* s := deref a in
      let* x := cget s 0 in
      assert (bool_decide (x = 45)) ;;
      let* y := cget s 1 in
      let* context :=
        if decide (y = 45) then
          let* z := cget s 2 in
          if decide (z = 0) then Ok (set_forced_end context true)
          else cag_option_parse_access_name context (s, 2%nat)
        else cag_option_parse_access_letter context (s, 1%nat) in
      let* context := cag_option_shift context old_index new_index (c_index context) in
      Ok (context, negb (c_forced_end context))
  end.

Definition cag_option_get (context : cag_option_context) : Z := c_identifier context.
Definition cag_option_get_value (context : cag_option_context) : option pointer := c_value context.
Definition cag_option_get_index (context : cag_option_context) : Z := c_index context.

(** The loop of the programs: [while (cag_option_fetch(&context))], with the
    identifier and the value of every option fetched. *)
Fixpoint fetch_all (context : cag_option_context) (fuel : nat) : res (cag_option_context * list (Z * option pointer)) :=
  match fuel with
  | O => Err OutOfFuel
  | S f =>
      let* '(context, more) := cag_option_fetch context in
      if (more : bool) then
        let* '(last, l) := fetch_all context f in Ok (last, (cag_option_get context, cag_option_get_value context) :: l)
      else Ok (context, [])
  end.

(** ** Examples *)

Definition sample_options : list cag_option :=
  [mk_option 115 (Some (bytes_of "s")) None None (bytes_of "Simple flag");
   mk_option 107 (Some (bytes_of "k")) (Some (bytes_of "key")) (Some (bytes_of "VALUE")) (bytes_of "Parameter value");
   mk_option 118 None (Some (bytes_of "verbose")) None (bytes_of "Long flag")].

Definition args (l : list string) : list (option cstr) := ((fun s => Some (bytes_of s)) <$> l) ++ [None].

Definition start_context (l : list string) : cag_option_context :=
  cag_option_prepare sample_options (Z.of_nat (length l)) (args l) (mk_context [] 0 [] 0 0 false 0 None).

Example parse_1 :
  (let* '(x, l) := fetch_all (start_context ["prog"; "a"; "-sk"; "v"; "b"; "--verbose"; "--key=w"; "c"]%string) 100 in
   Ok (l.*1, c_argv x, c_index x))
  = Ok ([115; 107; 118; 107], args ["prog"; "-sk"; "v"; "--verbose"; "--key=w"; "a"; "b"; "c"]%string, 5).
Proof. vm_compute. reflexivity. Qed.

(** A beginning of a name selects the option. *)
Example parse_2 :
  (let* '(x, l) := fetch_all (start_context ["prog"; "--verb"; "--=1"; "--unknown"]%string) 100 in Ok (l.*1, c_index x))
  = Ok ([118; 107; 63], 4).
Proof. vm_compute. reflexivity. Qed.
