(* ===== verification/CargsSpec.v ===== *)
(** * The option parser is correct

    A reference parser on lists of arguments, the proof that [cag_option_fetch]
    implements it whatever the arguments, and what follows for the loop of a
    program: it ends, no argument is lost, and the operands end up behind the
    options in their order. *)

From S2P Require Import Prelude CString LibcString Cargs.

Local Open Scope Z_scope.

(** ** The reference parser *)

(** The arguments passed already, those to come (operands among them), the
    letters taken from the next option, and whether "--" was seen. *)
Record parser := mk_parser {
  p_done : list cstr;
  p_rest : list cstr;
  p_inner : nat;
  p_forced : bool
}.

(** An option is longer than one character and starts with a '-'. *)
Definition is_option (s : cstr) : bool := match s with c :: _ :: _ => bool_decide (c = 45) | _ => false end.
Definition is_long (s : cstr) : bool := bool_decide (s !! 1%nat = Some 45).
Definition is_end (s : cstr) : bool := bool_decide (s = [45; 45]).

Definition not_equals (c : Z) : bool := negb (bool_decide (c = 61)).

Definition named (nm : cstr) (o : cag_option) : bool :=
  match o_access_name o with Some an => bool_decide (take (length nm) an = nm) | None => false end.

Definition lettered (c : Z) (o : cag_option) : bool :=
  match o_access_letters o with Some l => bool_decide (c ∈ l) | None => false end.

(** How many arguments an option takes, the value, and whether its string is
    used up; [o] is the offset behind the name or letter in [s]. *)
Definition take_value (opt : cag_option) (s : cstr) (o : nat) (post : list cstr) : nat * option pointer * bool :=
  match o_value_name opt with
  | None => (1%nat, None, bool_decide (o = length s))
  | Some _ =>
      if decide (s !! o = Some 61) then (1%nat, Some (s, S o), true)
      else match post with
           | t :: _ => (2%nat, Some (t, O), true)
           | [] => (1%nat, None, true)
           end
  end.

(** One option: arguments used, identifier, value, letters taken. *)
Definition parse_option (options : list cag_option) (s : cstr) (post : list cstr) (inner : nat) : nat * Z * option pointer * nat :=
  if is_long s then
    let nm := takeWhile not_equals (drop 2 s) in
    match List.find (named nm) options with
    | None => (1%nat, 63, None, inner)
    | Some opt => let '(m, v, _) := take_value opt s (2 + length nm) post in (m, o_identifier opt, v, inner)
    end
  else
    match s !! (1 + inner)%nat with
    | None => (1%nat, 63, None, O)
    | Some c =>
        match List.find (lettered c) options with
        | None => (1%nat, 63, None, O)
        | Some opt =>
            let '(m, v, whole) := take_value opt s (2 + inner) post in
            if (whole : bool) then (m, o_identifier opt, v, O) else (O, o_identifier opt, v, S inner)
        end
    end.

Definition parser_fetch (options : list cag_option) (A : parser) : parser * Z * option pointer * bool :=
  if p_forced A then (A, 63, None, false)
  else
    let pre := takeWhile (fun s => negb (is_option s)) (p_rest A) in
    match dropWhile (fun s => negb (is_option s)) (p_rest A) with
    | [] => (A, 63, None, false)
    | s :: post =>
        if is_end s then (mk_parser (p_done A) (p_rest A) (p_inner A) true, 63, None, false)
        else
          let '(m, id, v, inner) := parse_option options s post (p_inner A) in
          (mk_parser (p_done A ++ take m (s :: post)) (pre ++ drop m (s :: post)) inner false, id, v, true)
    end.

(** All arguments at once.  An option argument gives the identifiers and values
    of its letters, from [inner] on, or of its name; with it goes the next argument
    when that is a value. *)
Fixpoint parse_letters (options : list cag_option) (s : cstr) (post : list cstr) (inner fuel : nat) : list (Z * option pointer) * nat :=
  match fuel with
  | O => ([], 1%nat)
  | S f =>
      match parse_option options s post inner with
      | (O, id, v, _) => let '(l, m) := parse_letters options s post (S inner) f in ((id, v) :: l, m)
      | (m, id, v, _) => ([(id, v)], m)
      end
  end.

(** What was found, the options with their values, and the operands; "--" ends
    the options.  [inner] letters of the first option were taken before. *)
Fixpoint parse_args (options : list cag_option) (args : list cstr) (inner : nat) : list (Z * option pointer) * list cstr * list cstr :=
  match args with
  | [] => ([], [], [])
  | s :: post =>
      if negb (is_option s) then let '(l, used, ops) := parse_args options post inner in (l, used, s :: ops)
      else if is_end s then ([], [], s :: post)
      else
        let '(found, m) := parse_letters options s post inner (length s) in
        match m, post with
        | 2%nat, t :: post' => let '(l, used, ops) := parse_args options post' 0 in (found ++ l, s :: t :: used, ops)
        | _, _ => let '(l, used, ops) := parse_args options post 0 in (found ++ l, s :: used, ops)
        end
  end.

(** ** Well-formed contexts *)

Definition option_ok (o : cag_option) : Prop :=
  (forall s, o_access_letters o = Some s -> cstr_ok s) /\ (forall s, o_access_name o = Some s -> cstr_ok s).

(** The letters taken belong to the next option, which is a group of letters
    that goes on. *)
Definition inner_ok (A : parser) : Prop :=
  p_inner A = O \/
  exists s post, dropWhile (fun s => negb (is_option s)) (p_rest A) = s :: post /\ (S (p_inner A) < length s)%nat /\ is_long s = false.

Record represents (x : cag_option_context) (A : parser) : Prop := {
  re_options : Forall option_ok (c_options x);
  re_args : Forall cstr_ok (p_done A ++ p_rest A);
  re_argv : c_argv x = (Some <$> (p_done A ++ p_rest A)) ++ [None];
  re_argc : c_argc x = Z.of_nat (length (p_done A ++ p_rest A));
  re_index : c_index x = Z.of_nat (length (p_done A));
  re_inner : c_inner_index x = Z.of_nat (p_inner A);
  re_forced : c_forced_end x = p_forced A;
  re_letters : inner_ok A
}.

(** ** The rotation *)

Lemma arg_at_app (D R : list (option cstr)) x : arg_at (D ++ x :: R) (Z.of_nat (length D)) = Ok x.
Proof.
  unfold arg_at. rewrite decide_False, Nat2Z.id by lia. apply aget_Ok. by rewrite lookup_app_r, Nat.sub_diag by lia.
Qed.

Lemma arg_set_app (D R : list (option cstr)) x y : arg_set (D ++ x :: R) (Z.of_nat (length D)) y = Ok (D ++ y :: R).
Proof.
  unfold arg_set. rewrite decide_False, Nat2Z.id by lia. rewrite aset_Ok by (rewrite length_app; cbn; lia).
  f_equal. rewrite insert_app_r_alt by lia. by rewrite Nat.sub_diag.
Qed.

Lemma shift_right_app D R P1 : forall x P2, exists y,
  shift_right (D ++ P1 ++ x :: P2 ++ R) (Z.of_nat (length D + length P1 + length P2)) (Z.of_nat (length P2)) (length P1)
  = Ok (D ++ y :: P1 ++ P2 ++ R).
Proof.
  induction P1 as [|p P1 IH] using rev_ind; intros x P2; cbn [shift_right]; [by exists x|].
  rewrite length_app. cbn [length]. rewrite (Nat.add_comm (length P1) 1). cbn [Nat.add shift_right].
  replace (Z.of_nat (length D + S (length P1) + length P2) - Z.of_nat (length P2) - 1) with (Z.of_nat (length (D ++ P1)))
    by (rewrite length_app; lia).
  replace (Z.of_nat (length D + S (length P1) + length P2) - Z.of_nat (length P2)) with (Z.of_nat (length (D ++ P1 ++ [p])))
    by (rewrite !length_app; cbn; lia).
  replace (D ++ (P1 ++ [p]) ++ x :: P2 ++ R) with ((D ++ P1) ++ p :: x :: P2 ++ R) by (by rewrite <- !app_assoc).
  rewrite arg_at_app. cbn [bind].
  replace ((D ++ P1) ++ p :: x :: P2 ++ R) with ((D ++ P1 ++ [p]) ++ x :: P2 ++ R) by (by rewrite <- !app_assoc).
  rewrite arg_set_app. cbn [bind]. destruct (IH p (p :: P2)) as [y E]. exists y.
  replace ((D ++ P1 ++ [p]) ++ p :: P2 ++ R) with (D ++ P1 ++ p :: (p :: P2) ++ R) by (by rewrite <- !app_assoc).
  replace ((P1 ++ [p]) ++ P2 ++ R) with (P1 ++ (p :: P2) ++ R) by (by rewrite <- !app_assoc).
  rewrite <- E. cbn [length]. f_equal; lia.
Qed.

Lemma shift_options_app P R Q : forall D,
  shift_options (D ++ P ++ Q ++ R) (Z.of_nat (length D + length P)) (Z.of_nat (length P)) (length Q) = Ok (D ++ Q ++ P ++ R).
Proof.
  induction Q as [|q Q IH]; intros D; cbn [shift_options length]; [done|].
  replace (D ++ P ++ (q :: Q) ++ R) with ((D ++ P) ++ q :: Q ++ R) by (by rewrite <- app_assoc).
  rewrite <- length_app, arg_at_app. cbn [bind]. rewrite Nat2Z.id.
  destruct (shift_right_app D (Q ++ R) P q []) as [y E]. cbn [app length] in E. rewrite Nat.add_0_r in E.
  rewrite length_app. rewrite <- app_assoc. change (Z.of_nat 0) with 0 in E. rewrite E. cbn [bind].
  replace (Z.of_nat (length D + length P) - Z.of_nat (length P)) with (Z.of_nat (length D)) by lia.
  rewrite arg_set_app. cbn [bind]. specialize (IH (D ++ [q])).
  replace ((D ++ [q]) ++ P ++ Q ++ R) with (D ++ q :: P ++ Q ++ R) in IH by (by rewrite <- app_assoc).
  replace ((D ++ [q]) ++ Q ++ P ++ R) with (D ++ (q :: Q) ++ P ++ R) in IH by (by rewrite <- app_assoc).
  rewrite <- IH. f_equal. rewrite length_app. cbn. lia.
Qed.

(** The options [Q] move before the operands [P]. *)
Lemma shift_ok x D P Q R : c_argv x = D ++ P ++ Q ++ R ->
  cag_option_shift x (Z.of_nat (length D)) (Z.of_nat (length (D ++ P))) (Z.of_nat (length (D ++ P ++ Q)))
  = Ok (set_arg_index (set_argv x (D ++ Q ++ P ++ R))
         (if decide (P = []) then c_index x else Z.of_nat (length (D ++ Q)))).
Proof.
  intros Ha. unfold cag_option_shift. rewrite !length_app.
  replace (Z.of_nat (length D + length P) - Z.of_nat (length D)) with (Z.of_nat (length P)) by lia.
  destruct (decide (P = [])) as [->|Hne].
  - rewrite decide_True by done. cbn [app] in *. rewrite <- Ha. by destruct x.
  - rewrite decide_False by (destruct P; [done|cbn; lia]). rewrite Ha.
    replace (Z.to_nat (Z.of_nat (length D + (length P + length Q)) - Z.of_nat (length D + length P))) with (length Q) by lia.
    rewrite shift_options_app. cbn [bind]. do 2 f_equal. lia.
Qed.

(** ** Pointers *)

Lemma cget_app (s : cstr) o c k : drop o s = c :: k -> cget s o = Ok c.
Proof. intros H. apply cget_lookup. rewrite <- (Nat.add_0_r o), <- lookup_drop, H. done. Qed.

Lemma drop_cases (s : cstr) o : (o <= length s)%nat -> (exists c k, drop o s = c :: k /\ s !! o = Some c) \/ (o = length s /\ drop o s = []).
Proof.
  intros Ho. destruct (drop o s) as [|c k] eqn:E.
  - right. split; [|done]. apply (f_equal length) in E. rewrite length_drop in E. cbn in E. lia.
  - left. exists c, k. split; [done|]. by rewrite <- (Nat.add_0_r o), <- lookup_drop, E.
Qed.

Lemma cstr_ok_lookup s o c : cstr_ok s -> s !! o = Some c -> 0 < c < 256.
Proof. intros Hs E. exact (Forall_lookup_1 _ _ _ _ Hs E). Qed.

Lemma to_end_ok s : cstr_ok s -> forall fuel o, (o <= length s)%nat -> (length s - o < fuel)%nat -> to_end (s, o) fuel = Ok (s, length s).
Proof.
  intros Hs. induction fuel as [|f IH]; intros o Ho Hf; [lia|]. cbn [to_end].
  destruct (drop_cases s o Ho) as [(c & k & _ & E)|[-> _]].
  - unfold pget. cbn. rewrite (cget_lookup _ _ _ E). cbn [bind]. pose proof (cstr_ok_lookup _ _ _ Hs E). rewrite decide_False by lia.
    change (padd (s, o) 1) with (s, (o + 1)%nat). rewrite Nat.add_1_r. apply lookup_lt_Some in E. apply IH; lia.
  - unfold pget. cbn. rewrite cget_end. cbn [bind]. by rewrite decide_True.
Qed.

Lemma to_equal_ok s : cstr_ok s -> forall fuel o, (o <= length s)%nat -> (length s - o < fuel)%nat ->
  to_equal (s, o) fuel = Ok (s, (o + length (takeWhile not_equals (drop o s)))%nat).
Proof.
  intros Hs. induction fuel as [|f IH]; intros o Ho Hf; [lia|]. cbn [to_equal].
  destruct (drop_cases s o Ho) as [(c & k & Ed & E)|[-> Ed]].
  - unfold pget. cbn [fst snd]. rewrite (cget_lookup _ _ _ E), Ed. cbn [bind takeWhile]. unfold not_equals at 1.
    pose proof (cstr_ok_lookup _ _ _ Hs E). destruct (decide (c = 61)) as [->|Hne].
    + rewrite decide_True by auto. cbn. by rewrite Nat.add_0_r.
    + rewrite decide_False by lia. rewrite bool_decide_false by done. cbn [negb length]. change (padd (s, o) 1) with (s, (o + 1)%nat). rewrite Nat.add_1_r.
      destruct (drop_cons_lookup _ _ _ _ Ed) as [Hlt Edk]. rewrite IH by lia. rewrite Edk. do 2 f_equal. lia.
  - unfold pget. cbn [fst snd]. rewrite cget_end, Ed. cbn. by rewrite Nat.add_0_r.
Qed.

(** ** Looking up options *)

Lemma find_by_name_ok options s o nm : Forall option_ok options -> cstr_ok s -> (o <= length s)%nat ->
  nm = takeWhile not_equals (drop o s) ->
  find_by_name_loop options (s, o) (Z.of_nat (length nm)) = Ok (List.find (named nm) options).
Proof.
  intros Hop Hs Ho Hnm. induction Hop as [|x options [_ Hx] _ IH]; [done|]. cbn [find_by_name_loop List.find]. unfold named at 1.
  destruct (o_access_name x) as [an|] eqn:E; [|done]. cbn [fst snd].
  destruct (strncmp_Ok an 0 s o (Z.of_nat (length nm))) as (z & -> & Hz); [by apply Hx|done|lia|done|]. cbn [bind].
  rewrite Nat2Z.id, drop_0 in Hz. assert (take (length nm) (drop o s) = nm) as Et by (subst nm; apply take_takeWhile). rewrite Et in Hz.
  destruct (decide (z = 0)) as [Hz0|Hz0].
  - by rewrite bool_decide_true by tauto.
  - by rewrite bool_decide_false by tauto.
Qed.

Lemma find_by_letter_ok options c : Forall option_ok options -> 0 < c < 256 ->
  find_by_letter_loop options c = Ok (List.find (lettered c) options).
Proof.
  intros Hop Hc. induction Hop as [|x options [Hx _] _ IH]; [done|]. cbn [find_by_letter_loop List.find]. unfold lettered at 1.
  destruct (o_access_letters x) as [l|] eqn:E; [|done].
  destruct (strchr_ok l c) as (r & -> & Hr); [by apply Hx|done|]. cbn [bind]. destruct r as [k|].
  - rewrite bool_decide_true; [done|]. destruct Hr as [Hr _]. by eapply list_elem_of_lookup_2.
  - by rewrite bool_decide_false.
Qed.

Lemma is_argument_ok s : cstr_ok s -> cag_option_is_argument_string s = Ok (is_option s).
Proof.
  intros Hs. unfold cag_option_is_argument_string. destruct s as [|a k]; [done|]. rewrite (cget_lookup (a :: k) 0 a) by done. cbn [bind].
  unfold is_option. destruct (decide (a = 45)) as [->|Hne].
  - destruct k as [|b k]; [done|]. rewrite (cget_lookup (45 :: b :: k) 1 b) by done. cbn [bind].
    apply Forall_cons in Hs as [_ Hs]. apply Forall_cons in Hs as [Hb _]. by rewrite bool_decide_false by lia.
  - destruct k as [|b k]; [done|]. by rewrite bool_decide_false.
Qed.

(** ** The next option *)

Definition operand (s : cstr) : bool := negb (is_option s).

Lemma find_next_ok R : forall D c fuel, Forall cstr_ok (c :: R) -> (length R < fuel)%nat ->
  find_next_loop ((Some <$> (D ++ c :: R)) ++ [None]) (Z.of_nat (length D)) c fuel
  = Ok (match dropWhile operand (c :: R) with
        | [] => None
        | _ :: _ => Some (Z.of_nat (length D + length (takeWhile operand (c :: R))))
        end).
Proof.
  induction R as [|c' R IH]; intros D c fuel Hok Hf; (destruct fuel as [|f]; [cbn in Hf; lia|]); cbn [find_next_loop];
    apply Forall_cons in Hok as [Hc Hok]; rewrite is_argument_ok by done; cbn [bind takeWhile dropWhile]; change (operand c) with (negb (is_option c));
    destruct (is_option c); cbn [negb length]; try (by rewrite Nat.add_0_r).
  - replace ((Some <$> (D ++ [c])) ++ [None]) with ((Some <$> (D ++ [c])) ++ None :: []) by done.
    replace (Z.of_nat (length D) + 1) with (Z.of_nat (length (Some <$> (D ++ [c])))) by (rewrite length_fmap, length_app; cbn; lia).
    rewrite arg_at_app. done.
  - replace ((Some <$> (D ++ c :: c' :: R)) ++ [None]) with ((Some <$> (D ++ [c])) ++ Some c' :: (Some <$> R) ++ [None])
      by (rewrite !fmap_app; cbn; by rewrite <- !app_assoc).
    replace (Z.of_nat (length D) + 1) with (Z.of_nat (length (Some <$> (D ++ [c])))) by (rewrite length_fmap, length_app; cbn; lia).
    rewrite arg_at_app. cbn [bind].
    replace ((Some <$> (D ++ [c])) ++ Some c' :: (Some <$> R) ++ [None]) with ((Some <$> ((D ++ [c]) ++ c' :: R)) ++ [None])
      by (rewrite !fmap_app; cbn; by rewrite <- !app_assoc).
    rewrite length_fmap. rewrite IH by (done || cbn in *; lia). cbn [takeWhile dropWhile]. change (operand c') with (negb (is_option c')). destruct (is_option c'); cbn [negb].
    + do 3 f_equal. rewrite length_app. cbn. lia.
    + destruct (dropWhile operand R); [done|]. do 3 f_equal. rewrite length_app. cbn. lia.
Qed.

(** ** Values *)

(** [x] stands at argument [s]: [pre] before it, [post] after it. *)
Record at_arg (x : cag_option_context) (pre : list cstr) (s : cstr) (post : list cstr) : Prop := {
  aa_options : Forall option_ok (c_options x);
  aa_args : Forall cstr_ok (pre ++ s :: post);
  aa_argv : c_argv x = (Some <$> (pre ++ s :: post)) ++ [None];
  aa_argc : c_argc x = Z.of_nat (length (pre ++ s :: post));
  aa_index : c_index x = Z.of_nat (length pre);
  aa_value : c_value x = None
}.

Lemma at_arg_next x pre s t post : at_arg x pre s (t :: post) -> arg_at (c_argv x) (c_index x + 1) = Ok (Some t).
Proof.
  intros [_ _ Ha _ Hi _]. rewrite Ha, Hi.
  replace ((Some <$> (pre ++ s :: t :: post)) ++ [None]) with ((Some <$> (pre ++ [s])) ++ Some t :: (Some <$> post) ++ [None])
    by (rewrite !fmap_app; cbn; by rewrite <- !app_assoc).
  replace (Z.of_nat (length pre) + 1) with (Z.of_nat (length (Some <$> (pre ++ [s])))) by (rewrite length_fmap, length_app; cbn; lia).
  apply arg_at_app.
Qed.

Lemma at_arg_strings x pre s post : at_arg x pre s post -> cstr_ok s /\ Forall cstr_ok post.
Proof. intros [_ H _ _ _ _]. apply Forall_app in H as [_ H]. by apply Forall_cons in H. Qed.

Lemma context_same x i v : c_index x = i -> c_value x = v -> set_value (set_arg_index x i) v = x.
Proof. destruct x. by intros <- <-. Qed.

Lemma context_index x i : c_index x = i -> set_arg_index x i = x.
Proof. destruct x. by intros <-. Qed.

Lemma parse_value_ok x pre s post opt o m v whole : at_arg x pre s post -> (o <= length s)%nat -> take_value opt s o post = (m, v, whole) ->
  exists p, cag_option_parse_value x opt (s, o) = Ok (set_value (set_arg_index x (c_index x + Z.of_nat m - 1)) v, p) /\
    exists z, pget p = Ok z /\ (z = 0 <-> whole = true).
Proof.
  intros Hx Ho Ht. destruct (at_arg_strings _ _ _ _ Hx) as [Hs Hpost].
  assert (exists c, cget s o = Ok c /\ (c = 61 <-> s !! o = Some 61) /\ (c = 0 <-> o = length s)) as (c & Ec & H61 & H0).
  { destruct (drop_cases s o Ho) as [(c & k & _ & E)|[-> _]].
    - exists c. pose proof (cstr_ok_lookup _ _ _ Hs E). pose proof (lookup_lt_Some _ _ _ E). rewrite E. split; [by apply cget_lookup|].
      split; [split; [by intros ->|by intros [= ->]]|]. lia.
    - exists 0. split; [apply cget_end|]. split; [|done]. split; [lia|]. intros E. apply lookup_lt_Some in E. lia. }
  unfold take_value in Ht. unfold cag_option_parse_value. destruct (o_value_name opt).
  2:{ injection Ht as <- <- <-. exists (s, o). split.
      - rewrite context_same; [done|lia|apply Hx].
      - exists c. split; [done|]. rewrite H0. by rewrite bool_decide_eq_true. }
  unfold pget at 1. cbn [fst snd]. rewrite Ec. cbn [bind].
  assert (forall t, cstr_ok t -> (length t < S (length t))%nat) as Hlt by lia.
  destruct (decide (s !! o = Some 61)) as [E|E].
  - injection Ht as <- <- <-. rewrite decide_True by tauto. cbn [bind]. unfold padd. cbn [fst snd]. rewrite Nat.add_1_r.
    apply lookup_lt_Some in E as Hl. rewrite to_end_ok by (done || lia). cbn [bind]. exists (s, length s). split.
    + rewrite context_index by lia. done.
    + exists 0. by rewrite <- (cget_end s).
  - rewrite (decide_False (P := c = 61)) by tauto. rewrite (aa_argc _ _ _ _ Hx), (aa_index _ _ _ _ Hx) in *.
    destruct post as [|t post'].
    + injection Ht as <- <- <-. rewrite decide_False by (rewrite length_app; cbn; lia). cbn [bind fst].
      rewrite to_end_ok by (done || lia). cbn [bind]. exists (s, length s). split.
      * rewrite context_same; [done|rewrite (aa_index _ _ _ _ Hx); lia|apply Hx].
      * exists 0. by rewrite <- (cget_end s).
    + injection Ht as <- <- <-. rewrite decide_True by (rewrite length_app; cbn; lia).
      pose proof (at_arg_next _ _ _ _ _ Hx) as En. rewrite (aa_index _ _ _ _ Hx) in En. cbn [set_arg_index c_argv c_index]. rewrite En. cbn [bind deref fst].
      apply Forall_cons in Hpost as [Ht _]. rewrite to_end_ok by (done || lia). cbn [bind]. exists (t, length t). split.
      * replace (Z.of_nat (length pre) + Z.of_nat 2 - 1) with (Z.of_nat (length pre) + 1) by lia. done.
      * exists 0. by rewrite <- (cget_end t).
Qed.

(** ** One option *)

(** [x] with an option parsed: [m] arguments further. *)
Definition fetched (x : cag_option_context) (m : nat) (id : Z) (v : option pointer) (inner : nat) : cag_option_context :=
  mk_context (c_options x) (c_argc x) (c_argv x) (c_index x + Z.of_nat m) (Z.of_nat inner) (c_forced_end x) id v.

Lemma at_arg_identifier x pre s post id : at_arg x pre s post -> at_arg (set_identifier x id) pre s post.
Proof. intros [A1 A2 A3 A4 A5 A6]. by split. Qed.

Lemma at_arg_inner x pre s post i : at_arg x pre s post -> at_arg (set_inner_index x i) pre s post.
Proof. intros [A1 A2 A3 A4 A5 A6]. by split. Qed.

Lemma parse_name_ok x pre s post : at_arg x pre s post -> (2 <= length s)%nat -> is_long s = true -> c_identifier x = 63 -> c_inner_index x = 0 ->
  let '(m, id, v, inner) := parse_option (c_options x) s post 0 in
  cag_option_parse_access_name x (s, 2%nat) = Ok (fetched x m id v inner).
Proof.
  intros Hx Hl Hlong Hid Hin. destruct (at_arg_strings _ _ _ _ Hx) as [Hs _]. unfold parse_option. rewrite Hlong. unfold cag_option_parse_access_name. cbn [fst snd].
  rewrite to_equal_ok by (done || lia). cbn [bind snd]. set (nm := takeWhile not_equals (drop 2 s)).
  assert (length nm <= length s - 2)%nat as Hnm by (unfold nm; etransitivity; [apply length_takeWhile_le|]; rewrite length_drop; lia).
  rewrite bool_decide_true by lia. unfold cag_option_find_by_name. cbn [assert bind].
  replace (2 + length nm - 2)%nat with (length nm) by lia.
  rewrite (find_by_name_ok _ _ _ nm) by (done || apply Hx). cbn [bind].
  destruct (List.find (named nm) (c_options x)) as [opt|].
  - destruct (take_value opt s (2 + length nm) post) as [[m v] whole] eqn:Et.
    destruct (parse_value_ok (set_identifier x (o_identifier opt)) pre s post opt (2 + length nm) m v whole) as (p & -> & _);
      [by apply at_arg_identifier|lia|done|]. cbn [bind]. f_equal. unfold fetched, set_arg_index, set_value, set_identifier. cbn.
    rewrite Hin. f_equal. lia.
  - f_equal. unfold fetched, set_arg_index. rewrite Hid, Hin, (aa_value _ _ _ _ Hx). done.
Qed.

Lemma parse_letter_ok x pre s post inner : at_arg x pre s post -> (S inner < length s)%nat -> is_long s = false -> c_identifier x = 63 ->
  c_inner_index x = Z.of_nat inner ->
  let '(m, id, v, inner') := parse_option (c_options x) s post inner in
  cag_option_parse_access_letter x (s, 1%nat) = Ok (fetched x m id v inner').
Proof.
  intros Hx Hl Hlong Hid Hin. destruct (at_arg_strings _ _ _ _ Hx) as [Hs _]. unfold parse_option. rewrite Hlong. unfold cag_option_parse_access_letter.
  destruct (lookup_lt_is_Some_2 s (1 + inner) ltac:(lia)) as [c Ec]. rewrite Ec. unfold pget, padd. cbn [fst snd].
  rewrite Hin, Nat2Z.id, (cget_lookup _ _ _ Ec). cbn [bind]. unfold cag_option_find_by_letter.
  rewrite find_by_letter_ok by (apply Hx || by eapply cstr_ok_lookup). cbn [bind].
  destruct (List.find (lettered c) (c_options x)) as [opt|].
  - destruct (take_value opt s (2 + inner) post) as [[m v] whole] eqn:Et.
    set (x1 := set_inner_index (set_identifier x (o_identifier opt)) (c_inner_index (set_identifier x (o_identifier opt)) + 1)).
    replace (Z.to_nat (c_inner_index x1)) with (S inner) by (cbn; lia). change (1 + S inner)%nat with (2 + inner)%nat.
    destruct (parse_value_ok x1 pre s post opt (2 + inner) m v whole) as (p & -> & z & Ez & Hz);
      [by apply at_arg_inner, at_arg_identifier|lia|done|]. cbn [bind]. unfold pget in Ez. rewrite Ez. cbn [bind].
    destruct whole.
    + rewrite decide_True by tauto. f_equal. unfold fetched, x1. unfold set_inner_index, set_arg_index, set_value, set_identifier. cbn. f_equal. lia.
    + rewrite decide_False by (intros H; apply Hz in H; done). f_equal. unfold fetched, x1. unfold set_inner_index, set_arg_index, set_value, set_identifier. cbn. 
      unfold take_value in Et. destruct (o_value_name opt); [repeat case_match; simplify_eq|]. injection Et as <- <- _.
      rewrite Hin. f_equal; lia.
  - f_equal. unfold fetched. unfold set_inner_index, set_arg_index, set_value, set_identifier. cbn. by rewrite Hid, (aa_value _ _ _ _ Hx).
Qed.

(** The arguments used exist, and letters remain only in the same string. *)
Lemma parse_option_used options s post inner m id v inner' : (S inner < length s)%nat \/ inner = O -> (2 <= length s)%nat ->
  parse_option options s post inner = (m, id, v, inner') -> (is_long s = true -> inner = O) ->
  (m <= length (s :: post))%nat /\ (inner' = O /\ (1 <= m)%nat \/ m = O /\ inner' = S inner /\ (S inner' < length s)%nat /\ is_long s = false).
Proof.
  intros Hin Hl Hp Hlong. assert (forall opt o m v w, take_value opt s o post = (m, v, w) -> (1 <= m <= length (s :: post))%nat) as Hm.
  { intros opt o m0 v0 w. unfold take_value. repeat case_match; intros; simplify_eq; cbn; lia. }
  assert (forall opt o m v, take_value opt s o post = (m, v, false) -> o <> length s) as Hw.
  { intros opt o m0 v0. unfold take_value. repeat case_match; intros; simplify_eq. by apply bool_decide_eq_false in H1. }
  unfold parse_option in Hp. destruct (is_long s) eqn:El.
  - destruct (List.find _ options) as [opt|].
    + destruct (take_value opt s _ post) as [[m0 v0] w] eqn:Et. simplify_eq. apply Hm in Et. rewrite Hlong by done. lia.
    + simplify_eq. rewrite Hlong by done. cbn. lia.
  - destruct (s !! (1 + inner)%nat); [|simplify_eq; cbn; lia]. destruct (List.find _ options) as [opt|]; [|simplify_eq; cbn; lia].
    destruct (take_value opt s (2 + inner) post) as [[m0 v0] w] eqn:Et. pose proof (Hm _ _ _ _ _ Et). destruct w; simplify_eq; [lia|].
    apply Hw in Et. cbn [length] in *. split; [lia|]. right. split_and!; try done. lia.
Qed.

(** ** One call *)

Lemma represents_reset x A : represents x A -> represents (set_value (set_identifier x 63) None) A.
Proof. intros [A1 A2 A3 A4 A5 A6 A7 A8]. by split. Qed.

Lemma find_next_represents x A : represents x A ->
  cag_option_find_next x = Ok (if p_forced A then None else
    match dropWhile operand (p_rest A) with
    | [] => None
    | _ :: _ => Some (Z.of_nat (length (p_done A) + length (takeWhile operand (p_rest A))))
    end).
Proof.
  intros [A1 A2 A3 A4 A5 A6 A7 A8]. unfold cag_option_find_next. rewrite A3, A5, A7. destruct (p_rest A) as [|c R] eqn:ER.
  - rewrite app_nil_r. replace (Z.of_nat (length (p_done A))) with (Z.of_nat (length (Some <$> p_done A))) by (by rewrite length_fmap).
    rewrite arg_at_app. cbn. by destruct (p_forced A).
  - assert (arg_at ((Some <$> (p_done A ++ c :: R)) ++ [None]) (Z.of_nat (length (p_done A))) = Ok (Some c)) as ->.
    { rewrite fmap_app, <- app_assoc. cbn. replace (Z.of_nat (length (p_done A))) with (Z.of_nat (length (Some <$> p_done A))) by (by rewrite length_fmap).
      apply arg_at_app. }
    cbn [bind]. destruct (p_forced A); [done|]. apply Forall_app in A2 as [_ A2]. apply find_next_ok; [done|].
    rewrite length_app, length_fmap, length_app. cbn. lia.
Qed.

(** The state after the arguments [Q] were used from the operands [P]. *)
Lemma represents_shift x D P Q R inner id v e : Forall option_ok (c_options x) -> Forall cstr_ok (D ++ P ++ Q ++ R) ->
  c_argv x = (Some <$> (D ++ P ++ Q ++ R)) ++ [None] -> c_argc x = Z.of_nat (length (D ++ P ++ Q ++ R)) ->
  c_index x = Z.of_nat (length (D ++ P ++ Q)) -> c_inner_index x = Z.of_nat inner -> c_forced_end x = e ->
  c_identifier x = id -> c_value x = v -> inner_ok (mk_parser (D ++ Q) (P ++ R) inner e) ->
  exists x', cag_option_shift x (Z.of_nat (length D)) (Z.of_nat (length (D ++ P))) (c_index x) = Ok x' /\
    represents x' (mk_parser (D ++ Q) (P ++ R) inner e) /\ c_options x' = c_options x /\
    cag_option_get x' = id /\ cag_option_get_value x' = v.
Proof.
  intros H1 H2 H3 H4 H5 H6 H7 H8 H9 H10.
  assert (Permutation ((D ++ Q) ++ P ++ R) (D ++ P ++ Q ++ R)) as Hperm
    by (rewrite <- app_assoc; apply Permutation_app_head; rewrite !app_assoc; apply Permutation_app_tail, Permutation_app_comm).
  pose proof (shift_ok x (Some <$> D) (Some <$> P) (Some <$> Q) ((Some <$> R) ++ [None])) as Hsh.
  rewrite <- !fmap_app, !length_fmap in Hsh. rewrite H5.
  rewrite Hsh by (rewrite H3, !fmap_app; by rewrite <- !app_assoc).
  eexists. split; [reflexivity|]. split; [|done]. split; cbn; try done.
  - by rewrite Hperm.
  - rewrite !fmap_app, <- !app_assoc. done.
  - rewrite H4. f_equal. by rewrite Hperm.
  - case_decide as E; [|done]. apply fmap_nil_inv in E as ->. cbn in H5. rewrite H5. done.
Qed.

Lemma takeWhile_operand l : Forall (fun s => is_option s = false) (takeWhile operand l).
Proof. eapply Forall_impl; [apply takeWhile_all|]. intros s. unfold operand. by destruct (is_option s). Qed.

Lemma dropWhile_app_operand P l : Forall (fun s => is_option s = false) P -> dropWhile operand (P ++ l) = dropWhile operand l.
Proof. intros H. induction H as [|s P Hs _ IH]; [done|]. cbn. unfold operand at 1. by rewrite Hs. Qed.

(** The branch of [cag_option_fetch] for an option that is not "--". *)
Lemma parse_arg_ok x pre s post inner b k m id v inner' : at_arg x pre s post -> s = 45 :: b :: k -> (S inner < length s)%nat ->
  is_end s = false -> (is_long s = true -> inner = O) -> c_identifier x = 63 -> c_inner_index x = Z.of_nat inner ->
  parse_option (c_options x) s post inner = (m, id, v, inner') ->
  (if decide (b = 45) then let* z := cget s 2 in if decide (z = 0) then Ok (set_forced_end x true) else cag_option_parse_access_name x (s, 2%nat)
   else cag_option_parse_access_letter x (s, 1%nat)) = Ok (fetched x m id v inner').
Proof.
  intros Hat Es Hinner Eend Hzero Hid Hin Ep. assert (is_long s = bool_decide (b = 45)) as Elong by (rewrite Es; apply bool_decide_ext; cbn; naive_solver).
  assert (cstr_ok s) as Hsok by (by apply at_arg_strings in Hat as [? _]). destruct (decide (b = 45)) as [Eb|Eb].
  - destruct k as [|c k]; [unfold is_end in Eend; apply bool_decide_eq_false in Eend; congruence|].
    rewrite (cget_lookup s 2 c) by (by rewrite Es). cbn [bind].
    rewrite decide_False by (pose proof (cstr_ok_lookup s 2 c Hsok ltac:(by rewrite Es)); lia).
    assert (is_long s = true) as Hl by (rewrite Elong; by apply bool_decide_eq_true).
    pose proof (parse_name_ok x pre s post Hat) as Hn. rewrite (Hzero Hl) in Ep, Hin. rewrite Ep in Hn. apply Hn; [rewrite Es; cbn; lia|done..].
  - pose proof (parse_letter_ok x pre s post inner Hat Hinner) as Hn. rewrite Ep in Hn. apply Hn; [|done|done].
    rewrite Elong. by apply bool_decide_eq_false.
Qed.

Lemma fetch_ok x A : represents x A -> forall A' id v more, parser_fetch (c_options x) A = (A', id, v, more) ->
  exists x', cag_option_fetch x = Ok (x', more) /\ represents x' A' /\ c_options x' = c_options x /\
    cag_option_get x' = id /\ cag_option_get_value x' = v.
Proof.
  intros Hx A' id v more. pose proof (represents_reset _ _ Hx) as Hx1. unfold cag_option_fetch.
  set (x1 := set_value (set_identifier x 63) None) in *. rewrite (find_next_represents _ _ Hx1). cbn [bind].
  change (c_options x) with (c_options x1). unfold parser_fetch. change (fun s => negb (is_option s)) with operand.
  destruct (p_forced A) eqn:Ef; [intros [= <- <- <- <-]; by exists x1|].
  destruct (dropWhile operand (p_rest A)) as [|s post] eqn:Ed; [intros [= <- <- <- <-]; by exists x1|].
  set (P := takeWhile operand (p_rest A)). assert (p_rest A = P ++ s :: post) as ER by (rewrite <- Ed; symmetry; apply takeWhile_dropWhile).
  pose proof (dropWhile_head _ _ _ _ Ed) as Hs. unfold operand in Hs. apply negb_false_iff in Hs.
  pose proof Hx1 as [B1 B2 B3 B4 B5 B6 B7 B8]. rewrite ER in B2, B3, B4.
  set (D := p_done A) in *. set (x2 := set_arg_index x1 (Z.of_nat (length D + length P))).
  assert (at_arg x2 (D ++ P) s post) as Hat.
  { split; cbn; try done; rewrite <- ?app_assoc; try done. by rewrite length_app. }
  assert (cstr_ok s) as Hsok by (by apply at_arg_strings in Hat as [? _]).
  assert (arg_at (c_argv x2) (c_index x2) = Ok (Some s)) as ->.
  { rewrite (aa_argv _ _ _ _ Hat), (aa_index _ _ _ _ Hat), fmap_app, <- app_assoc. cbn.
    replace (Z.of_nat (length (D ++ P))) with (Z.of_nat (length (Some <$> (D ++ P)))) by (by rewrite length_fmap). apply arg_at_app. }
  cbn [bind deref].
  assert (exists b k, s = 45 :: b :: k) as (b & k & Es).
  { destruct s as [|a [|b k]]; [done|done|]. cbn in Hs. apply bool_decide_eq_true in Hs as ->. by exists b, k. }
  rewrite (cget_lookup s 0 45) by (by rewrite Es). cbn [bind assert]. rewrite (cget_lookup s 1 b) by (by rewrite Es). cbn [bind].
  assert (S (p_inner A) < length s)%nat as Hinner.
  { destruct B8 as [->|(s' & post' & E' & Hl & _)]; [rewrite Es; cbn; lia|]. change (fun s => negb (is_option s)) with operand in E'. rewrite Ed in E'. by injection E' as <- <-. }
  assert (is_long s = true -> p_inner A = O) as Hzero.
  { intros Hl. destruct B8 as [->|(s' & post' & E' & _ & Hl')]; [done|]. change (fun s => negb (is_option s)) with operand in E'. rewrite Ed in E'. injection E' as <- <-. congruence. }
  assert (is_end s = true <-> b = 45 /\ k = []) as Hend by (unfold is_end; rewrite bool_decide_eq_true, Es; naive_solver).
  destruct (is_end s) eqn:Eend.
  - destruct Hend as [Hend _]. destruct (Hend eq_refl) as [-> ->]. rewrite decide_True by done.
    replace (cget s 2) with (cget s (length s)) by (by rewrite Es). rewrite cget_end. cbn [bind]. rewrite decide_True by done. cbn [bind].
    intros [= <- <- <- <-].
    destruct (represents_shift (set_forced_end x2 true) D P [] (s :: post) (p_inner A) 63 None true) as (x' & E' & Hr & Ho & Hi & Hv);
      try done; [by rewrite app_nil_r, length_app|rewrite <- ER; exact B8|].
    rewrite app_nil_r, <- ER in Hr. rewrite length_app in E'. replace (c_index x1) with (Z.of_nat (length D)) by (by rewrite <- B5).
    rewrite E'. cbn [bind]. exists x'. rewrite (re_forced _ _ Hr). done.
  - destruct (parse_option (c_options x1) s post (p_inner A)) as [[[m id0] v0] inner'] eqn:Ep. 
    rewrite (parse_arg_ok x2 (D ++ P) s post (p_inner A) b k m id0 v0 inner'); try done. cbn [bind].
    intros [= <- <- <- <-]. destruct (parse_option_used _ _ _ _ _ _ _ _ (or_introl Hinner) ltac:(rewrite Es; cbn; lia) Ep Hzero) as [Hm Hkeep].
    destruct (represents_shift (fetched x2 m id0 v0 inner') D P (take m (s :: post)) (drop m (s :: post)) inner' id0 v0 false) as (x' & E' & Hr & Ho & Hi & Hv);
      [done|by rewrite take_drop|by rewrite take_drop|by rewrite take_drop|cbn; rewrite !length_app, length_take; lia|done| |done|done| |].
    { cbn. by rewrite <- Ef, <- B7. }
    { destruct Hkeep as [[-> _]|(-> & -> & Hl & Hs')]; [by left|]. right. exists s, post. split; [|done]. cbn [p_rest].
      change (fun s => negb (is_option s)) with operand. rewrite drop_0, dropWhile_app_operand by apply takeWhile_operand. cbn. unfold operand. by rewrite Hs. }
    rewrite length_app in E'. replace (c_index x1) with (Z.of_nat (length D)) by (by rewrite <- B5). rewrite E'. cbn [bind].
    exists x'. rewrite (re_forced _ _ Hr). done.
Qed.

(** ** The loop of a program *)

(** What is left to do: the characters of the remaining arguments, without the
    letters taken already. *)
Definition weight (l : list cstr) : nat := sum_list_with (fun s => S (length s)) l.
Definition measure (A : parser) : nat := (weight (p_rest A) - p_inner A)%nat.

Lemma weight_app l k : weight (l ++ k) = (weight l + weight k)%nat.
Proof. apply sum_list_with_app. Qed.

(** A successful call makes progress and only moves arguments. *)
Lemma parser_progress options A A' id v : inner_ok A -> parser_fetch options A = (A', id, v, true) ->
  (measure A' < measure A)%nat /\ Permutation (p_done A' ++ p_rest A') (p_done A ++ p_rest A) /\
  p_rest A' `sublist_of` p_rest A /\ exists used, p_done A' = p_done A ++ used.
Proof.
  intros HA. unfold parser_fetch. change (fun s => negb (is_option s)) with operand. destruct (p_forced A); [done|].
  destruct (dropWhile operand (p_rest A)) as [|s post] eqn:Ed; [done|]. destruct (is_end s); [done|].
  destruct (parse_option options s post (p_inner A)) as [[[m id0] v0] inner'] eqn:Ep. intros [= <- <- <-].
  set (P := takeWhile operand (p_rest A)). assert (p_rest A = P ++ s :: post) as ER by (rewrite <- Ed; symmetry; apply takeWhile_dropWhile).
  pose proof (dropWhile_head _ _ _ _ Ed) as Hs. unfold operand in Hs. apply negb_false_iff in Hs.
  assert (2 <= length s)%nat as H2 by (destruct s as [|a [|b k]]; [done|done|cbn; lia]).
  assert ((S (p_inner A) < length s)%nat /\ (is_long s = true -> p_inner A = O)) as [Hin Hlong].
  { destruct HA as [->|(s' & post' & E' & Hl & Hl')]; [split; [lia|done]|]. change (fun s => negb (is_option s)) with operand in E'.
    rewrite Ed in E'. injection E' as <- <-. split; [done|congruence]. }
  destruct (parse_option_used _ _ _ _ _ _ _ _ (or_introl Hin) H2 Ep Hlong) as [Hm Hkeep]. unfold measure. cbn [p_done p_rest p_inner].
  assert (weight (s :: post) = weight (take m (s :: post)) + weight (drop m (s :: post)))%nat as Hwt by (by rewrite <- weight_app, take_drop).
  assert (weight (s :: post) = S (length s) + weight post)%nat as Hws by done.
  split_and!.
  - rewrite ER, !weight_app. destruct Hkeep as [[-> Hm1]|(-> & -> & Hl & _)].
    + destruct m as [|m]; [lia|]. cbn [take drop] in Hwt |- *. assert (weight (s :: take m post) = S (length s) + weight (take m post))%nat by done. lia.
    + cbn [drop]. lia.
  - rewrite ER. rewrite <- app_assoc. apply Permutation_app_head. rewrite app_assoc, (Permutation_app_comm (take m _)), <- app_assoc.
    by rewrite take_drop.
  - rewrite ER. apply sublist_app; [done|]. apply sublist_drop.
  - by eexists.
Qed.

(** Where the loop stops. *)
Definition stopped (A : parser) : Prop :=
  Forall (fun s => is_option s = false) (p_rest A) \/
  exists a b, p_rest A = a ++ [45; 45] :: b /\ Forall (fun s => is_option s = false) a.

Lemma parser_stop options A A' id v : p_forced A = false -> parser_fetch options A = (A', id, v, false) ->
  p_done A' = p_done A /\ p_rest A' = p_rest A /\ stopped A'.
Proof.
  intros Hf. unfold parser_fetch. change (fun s => negb (is_option s)) with operand. rewrite Hf.
  pose proof (takeWhile_dropWhile operand (p_rest A)) as E. pose proof (takeWhile_operand (p_rest A)) as Hop.
  destruct (dropWhile operand (p_rest A)) as [|s post].
  - intros [= <- _ _]. split_and!; [done|done|]. left. by rewrite <- E, app_nil_r.
  - destruct (is_end s) eqn:Ee; [|by destruct (parse_option options s post (p_inner A)) as [[[??]?]?]].
    intros [= <- _ _]. split_and!; [done|done|]. right. apply bool_decide_eq_true in Ee. subst s. by exists (takeWhile operand (p_rest A)), post.
Qed.

(** The reference parser goes through the arguments as the calls do. *)
Lemma parse_option_le options s post inner : ((parse_option options s post inner).1.1.1 <= 2)%nat.
Proof. unfold parse_option, take_value. repeat case_match; simplify_eq/=; lia. Qed.

Lemma parse_letters_fuel options s post f : forall inner g, (2 <= length s)%nat -> (S inner < length s)%nat \/ inner = O -> (is_long s = true -> inner = O) ->
  (length s <= inner + f)%nat -> (length s <= inner + g)%nat -> parse_letters options s post inner f = parse_letters options s post inner g.
Proof.
  induction f as [|f IH]; intros inner g H2 Hin Hl Hf Hg; [lia|]. destruct g as [|g]; [lia|]. cbn [parse_letters].
  destruct (parse_option options s post inner) as [[[m id] v] inner'] eqn:Ep.
  destruct (parse_option_used _ _ _ _ _ _ _ _ Hin H2 Ep Hl) as [_ [[_ Hm]|(-> & -> & Hi & Hl')]]; [by destruct m; [lia|]|].
  rewrite (IH (S inner) g); [done|done|by left|by rewrite Hl'|lia..].
Qed.

Lemma parse_args_operands options P R inner : Forall (fun s => is_option s = false) P ->
  parse_args options (P ++ R) inner = let '(l, used, ops) := parse_args options R inner in (l, used, P ++ ops).
Proof.
  intros HP. induction HP as [|s P Hs _ IH]; cbn [app parse_args]; [by destruct (parse_args options R inner) as [[??]?]|].
  rewrite Hs. cbn [negb]. rewrite IH. by destruct (parse_args options R inner) as [[??]?].
Qed.

Lemma parse_args_step options A A' id v : inner_ok A -> parser_fetch options A = (A', id, v, true) ->
  exists used, p_done A' = p_done A ++ used /\
    parse_args options (p_rest A) (p_inner A) =
      let '(l, used', ops) := parse_args options (p_rest A') (p_inner A') in ((id, v) :: l, used ++ used', ops).
Proof.
  intros HA. unfold parser_fetch. change (fun s => negb (is_option s)) with operand. destruct (p_forced A); [done|].
  pose proof (takeWhile_dropWhile operand (p_rest A)) as ER. pose proof (takeWhile_operand (p_rest A)) as HP.
  destruct (dropWhile operand (p_rest A)) as [|s post] eqn:Ed; [done|]. destruct (is_end s) eqn:Ee; [done|].
  destruct (parse_option options s post (p_inner A)) as [[[m id0] v0] inner'] eqn:Ep. intros [= <- <- <-].
  pose proof (dropWhile_head _ _ _ _ Ed) as Hs. unfold operand in Hs. apply negb_false_iff in Hs.
  assert (2 <= length s)%nat as H2 by (destruct s as [|a [|b k]]; [done|done|cbn; lia]).
  assert ((S (p_inner A) < length s)%nat \/ p_inner A = O) as Hin.
  { destruct HA as [->|(s' & post' & E' & Hl & _)]; [by right|]. change (fun s => negb (is_option s)) with operand in E'. rewrite Ed in E'. injection E' as <- <-. by left. }
  assert (is_long s = true -> p_inner A = O) as Hlong.
  { destruct HA as [->|(s' & post' & E' & _ & Hl)]; [done|]. change (fun s => negb (is_option s)) with operand in E'. rewrite Ed in E'. injection E' as <- <-. congruence. }
  destruct (parse_option_used _ _ _ _ _ _ _ _ Hin H2 Ep Hlong) as [Hm Hkeep]. pose proof (parse_option_le options s post (p_inner A)) as Hm2. rewrite Ep in Hm2.
  exists (take m (s :: post)). split; [done|]. cbn [p_rest p_inner]. rewrite <- ER at 1. rewrite !(parse_args_operands options _ _ _ HP).
  cbn [parse_args]. rewrite Hs, Ee. cbn [negb]. destruct (length s) as [|n] eqn:En; [lia|]. cbn [parse_letters]. rewrite Ep.
  destruct Hkeep as [[-> Hm1]|(-> & -> & Hi & Hl)].
  - destruct m as [|[|[|m]]]; [lia| | |cbn in Hm2; lia].
    + change (drop 1 (s :: post)) with post. by destruct (parse_args options post 0) as [[l u] r].
    + destruct post as [|t post]; [cbn in Hm; lia|]. change (drop 2 (s :: t :: post)) with post. destruct (parse_args options post 0) as [[l u] r]. done.
  - change (drop 0 (s :: post)) with (s :: post). cbn [parse_args]. rewrite Hs, Ee. cbn [negb].
    rewrite (parse_letters_fuel options s post n (S (p_inner A)) (length s)); [|lia|left; lia|by rewrite Hl|lia..].
    destruct (parse_letters options s post (S (p_inner A)) (length s)) as [f k].
    destruct k as [|[|[|k]]]; try (destruct (parse_args options post 0) as [[l u] r]; done).
    destruct post as [|t post]; [by destruct (parse_args options [] 0) as [[l u] r]|by destruct (parse_args options post 0) as [[l u] r]].
Qed.

Lemma parse_args_stop options A A' id v : p_forced A = false -> parser_fetch options A = (A', id, v, false) ->
  p_done A' = p_done A /\ parse_args options (p_rest A) (p_inner A) = ([], [], p_rest A').
Proof.
  intros Hf. unfold parser_fetch. change (fun s => negb (is_option s)) with operand. rewrite Hf.
  pose proof (takeWhile_dropWhile operand (p_rest A)) as E. pose proof (takeWhile_operand (p_rest A)) as HP.
  destruct (dropWhile operand (p_rest A)) as [|s post] eqn:Ed.
  - intros [= <- _ _]. split; [done|]. rewrite <- E at 1. rewrite (parse_args_operands _ _ _ _ HP). cbn [parse_args]. by rewrite E.
  - destruct (is_end s) eqn:Ee; [|by destruct (parse_option options s post (p_inner A)) as [[[??]?]?]].
    intros [= <- _ _]. split; [done|]. cbn [p_rest]. rewrite <- E at 1. rewrite (parse_args_operands _ _ _ _ HP). cbn [parse_args].
    pose proof (dropWhile_head _ _ _ _ Ed) as Hs. unfold operand in Hs. apply negb_false_iff in Hs. rewrite Hs, Ee. cbn [negb]. by rewrite E.
Qed.

Lemma fetch_all_ok fuel : forall x A, represents x A -> p_forced A = false -> (measure A < fuel)%nat ->
  exists x' l A' used, fetch_all x fuel = Ok (x', l) /\ represents x' A' /\ stopped A' /\
    Permutation (p_done A' ++ p_rest A') (p_done A ++ p_rest A) /\
    p_rest A' `sublist_of` p_rest A /\ p_done A' = p_done A ++ used /\
    parse_args (c_options x) (p_rest A) (p_inner A) = (l, used, p_rest A').
Proof.
  induction fuel as [|f IH]; intros x A Hx Hfo Hm; [lia|]. cbn [fetch_all].
  destruct (parser_fetch (c_options x) A) as [[[A1 id] v] more] eqn:E.
  destruct (fetch_ok x A Hx _ _ _ _ E) as (x1 & -> & Hx1 & Ho & Hid & Hv). cbn [bind]. destruct more.
  - destruct (parser_progress _ _ _ _ _ (re_letters _ _ Hx) E) as (Hlt & Hp & Hsub & _).
    destruct (parse_args_step _ _ _ _ _ (re_letters _ _ Hx) E) as (used & Eu & Epa).
    assert (p_forced A1 = false) as Hf1.
    { unfold parser_fetch in E. rewrite Hfo in E. repeat case_match; simplify_eq; done. }
    destruct (IH x1 A1 Hx1 Hf1 ltac:(lia)) as (x' & l & A' & used' & -> & Hx' & Hst & Hp' & Hsub' & Eu' & Epa'). cbn [bind].
    rewrite Ho in Epa'. rewrite Epa, Epa', Hid, Hv.
    eexists x', _, A', (used ++ used'). split; [reflexivity|]. split_and!; [done|done|by rewrite Hp'|by etrans|by rewrite Eu', Eu, app_assoc|done].
  - destruct (parser_stop _ _ _ _ _ Hfo E) as (E1 & E2 & Hst). destruct (parse_args_stop _ _ _ _ _ Hfo E) as [_ Epa].
    exists x1, [], A1, []. rewrite E1, E2, app_nil_r. rewrite Epa, E2. by split_and!.
Qed.

(** ** The help text *)

(** A stream that keeps the text, as the C standard describes [fprintf]. *)
#[export] Instance text_stream : Stream cstr := {
  fputs s t := s ++ t;
  fprintf s t := (s ++ t, zlen t)
}.

Fixpoint letters_text (first : bool) (l : cstr) : cstr :=
  match l with
  | [] => []
  | c :: l' => (if first then bytes_of "-" else bytes_of ", -") ++ [c] ++ letters_text false l'
  end.

(** The names of an option, and its line. *)
Definition accessors (o : cag_option) : cstr :=
  let letters := match o_access_letters o with Some l => l | None => [] end in
  letters_text true letters
  ++ match o_access_name o with Some n => (if bool_decide (letters = []) then bytes_of "--" else bytes_of ", --") ++ n | None => [] end
  ++ match o_value_name o with Some v => bytes_of "=" ++ v | None => [] end.

Definition help_line (indention : Z) (o : cag_option) : cstr :=
  bytes_of "  " ++ accessors o ++ replicate (Z.to_nat (indention - zlen (accessors o))) 32 ++ bytes_of " " ++ o_description o ++ [10].

Lemma zlen_app s t : zlen (s ++ t) = zlen s + zlen t.
Proof. unfold zlen. rewrite length_app. lia. Qed.

Lemma print_letters_text l : forall first n s,
  print_letters_loop l first n s = (s ++ letters_text first l, n + zlen (letters_text first l), first && bool_decide (l = [])).
Proof.
  induction l as [|c l IH]; intros first n s; cbn [print_letters_loop letters_text].
  - rewrite app_nil_r, bool_decide_true, andb_true_r by done. do 2 f_equal. unfold zlen. cbn. lia.
  - cbn [fprintf text_stream]. rewrite IH. rewrite <- !app_assoc, !zlen_app. rewrite (bool_decide_false (c :: l = [])) by done. rewrite andb_false_r. cbn [andb].
    do 2 f_equal. lia.
Qed.

Lemma put_spaces_text n : forall s, put_spaces n s = s ++ replicate n 32.
Proof.
  induction n as [|n IH]; intros s; cbn [put_spaces replicate]; [by rewrite app_nil_r|]. cbn [fputs text_stream]. rewrite IH.
  by rewrite <- app_assoc.
Qed.

Lemma print_option_text indention s o : print_option indention s o = s ++ help_line indention o.
Proof.
  unfold print_option. cbn [fputs fprintf text_stream]. unfold cag_option_print_letters.
  assert (match o_access_letters o with Some letters => print_letters_loop letters true 0 (s ++ bytes_of "  ") | None => (s ++ bytes_of "  ", 0, true) end
    = print_letters_loop (match o_access_letters o with Some l => l | None => [] end) true 0 (s ++ bytes_of "  ")) as -> by (by destruct (o_access_letters o)).
  rewrite print_letters_text. cbn [andb]. set (letters := match o_access_letters o with Some l => l | None => [] end).
  set (name := match o_access_name o with Some n => (if bool_decide (letters = []) then bytes_of "--" else bytes_of ", --") ++ n | None => [] end).
  set (value := match o_value_name o with Some v => bytes_of "=" ++ v | None => [] end).
  assert (forall n t, cag_option_print_name o (bool_decide (letters = [])) n t = (t ++ name, n + zlen name)) as ->.
  { intros n t. unfold cag_option_print_name, name. destruct (o_access_name o); [done|]. by rewrite app_nil_r, Z.add_0_r. }
  assert (forall n t, cag_option_print_value o n t = (t ++ value, n + zlen value)) as ->.
  { intros n t. unfold cag_option_print_value, value. destruct (o_value_name o); [done|]. by rewrite app_nil_r, Z.add_0_r. }
  assert (accessors o = letters_text true letters ++ name ++ value) as Ea by done.
  unfold help_line. rewrite Ea, put_spaces_text, !zlen_app, <- !app_assoc. rewrite Z.add_0_l, Z.add_assoc. done.
Qed.

(** The width computed for an option is that of its names. *)
Lemma option_indention_accessors o : option_indention o = zlen (accessors o) + 4.
Proof.
  assert (forall l, zlen (letters_text false l) = zlen l * 4) as Hl.
  { induction l as [|c l IH]; [done|]. cbn [letters_text]. rewrite !zlen_app, IH. unfold zlen. cbn [length bytes_of]. cbn. lia. }
  assert (forall c l, zlen (letters_text true (c :: l)) = zlen (c :: l) * 4 - 2) as Hl1.
  { intros c l. cbn [letters_text]. rewrite !zlen_app, Hl. unfold zlen. cbn. lia. }
  unfold option_indention, accessors, CAG_OPTION_PRINT_DISTANCE. rewrite !zlen_app.
  destruct (o_access_letters o) as [[|c l]|], (o_access_name o) as [n|], (o_value_name o) as [v|];
    rewrite ?Hl1, ?zlen_app; cbn [letters_text]; unfold zlen; cbn; lia.
Qed.

Lemma indention_max options : forall r, r <= get_print_indention_loop options r /\
  forall o, o ∈ options -> option_indention o <= get_print_indention_loop options r.
Proof.
  induction options as [|x options IH]; intros r; cbn [get_print_indention_loop]; [split; [lia|by intros o ?%elem_of_nil]|].
  destruct (IH (if decide (r < option_indention x) then option_indention x else r)) as [H1 H2]. split.
  - case_decide; lia.
  - intros o Ho. apply elem_of_cons in Ho as [->|Ho]; [case_decide; lia|by apply H2].
Qed.

Lemma print_text options : forall indention s,
  foldl (print_option indention) s options = s ++ concat (help_line indention <$> options).
Proof.
  induction options as [|o options IH]; intros indention s; cbn; [by rewrite app_nil_r|]. rewrite IH, print_option_text. by rewrite <- app_assoc.
Qed.

(** ** Theorems *)

(** One call of [cag_option_fetch] implements the reference parser: for all
    options and arguments it stays inside the argument array and the strings,
    finds the option, its identifier and value as the reference does, moves
    it before the operands, and leaves the context well-formed. *)
Theorem fetch_refines x A : represents x A ->
  let '(A', id, v, more) := parser_fetch (c_options x) A in
  exists x', cag_option_fetch x = Ok (x', more) /\ represents x' A' /\ cag_option_get x' = id /\ cag_option_get_value x' = v.
Proof.
  intros Hx. destruct (parser_fetch (c_options x) A) as [[[A' id] v] more] eqn:E.
  destruct (fetch_ok x A Hx _ _ _ _ E) as (x' & H1 & H2 & _ & H3). by exists x'.
Qed.

Lemma represents_prepare options prog rest ctx : Forall option_ok options -> Forall cstr_ok (prog :: rest) ->
  represents (cag_option_prepare options (Z.of_nat (length (prog :: rest))) ((Some <$> (prog :: rest)) ++ [None]) ctx)
             (mk_parser [prog] rest 0 false).
Proof. intros Ho Ha. split; try done. by left. Qed.

(** C31 The loop of a program over its options ends, for all options and
    arguments, after at most as many calls as the arguments have characters
    and terminators, and gives what the reference parser gives: the identifiers
    and values it found, in order, and the arguments in their new order, the
    options and their values first and the operands, or "--" and what follows it,
    behind them, from the index on.  No argument is lost, and the
    operands keep their order. *)
Theorem options_parsed options prog rest ctx : Forall option_ok options -> Forall cstr_ok (prog :: rest) ->
  let '(l, used, ops) := parse_args options rest 0 in
  exists x,
    fetch_all (cag_option_prepare options (Z.of_nat (length (prog :: rest))) ((Some <$> (prog :: rest)) ++ [None]) ctx) (S (weight rest)) = Ok (x, l) /\
    c_argv x = (Some <$> (prog :: used ++ ops)) ++ [None] /\ cag_option_get_index x = 1 + Z.of_nat (length used) /\
    Permutation (used ++ ops) rest /\ ops `sublist_of` rest /\
    (Forall (fun s => is_option s = false) ops \/
     exists a b, ops = a ++ [45; 45] :: b /\ Forall (fun s => is_option s = false) a).
Proof.
  intros Ho Ha. destruct (fetch_all_ok (S (weight rest)) _ _ (represents_prepare options prog rest ctx Ho Ha) eq_refl)
    as (x & l & A & used & E & Hx & Hst & Hp & Hsub & Eu & Epa); [unfold measure; cbn [p_rest p_inner]; lia|].
  cbn [p_rest p_inner cag_option_prepare c_options] in Epa. rewrite Epa.
  exists x. cbn [p_done app] in Eu, Hp. split_and!; [done| | | |done|done].
  - by rewrite (re_argv _ _ Hx), Eu.
  - unfold cag_option_get_index. rewrite (re_index _ _ Hx), Eu. cbn [app length]. lia.
  - rewrite Eu in Hp. cbn in Hp. by apply Permutation_cons_inv in Hp.
Qed.

(** The help text: one line for each option, with its letters, name and
    value as the parser takes them, and all descriptions start in the same
    column, at least four columns after the longest of them. *)
Theorem help_aligned options o : o ∈ options ->
  cag_option_print options [] = concat (help_line (cag_option_get_print_indention options) <$> options) /\
  let width := cag_option_get_print_indention options in
  20 <= width /\ zlen (accessors o) + 4 <= width /\
  exists names, help_line width o = names ++ o_description o ++ [10] /\ zlen names = width + 3.
Proof.
  intros Ho. split; [apply (print_text options _ [])|]. cbv zeta. destruct (indention_max options CAG_OPTION_PRINT_MIN_INDENTION) as [Hmin Hmax].
  fold (cag_option_get_print_indention options) in Hmin, Hmax. specialize (Hmax o Ho). rewrite option_indention_accessors in Hmax.
  split; [exact Hmin|]. split; [done|].
  exists (bytes_of "  " ++ accessors o ++ replicate (Z.to_nat (cag_option_get_print_indention options - zlen (accessors o))) 32 ++ bytes_of " ").
  split; [unfold help_line; by rewrite <- !app_assoc|]. rewrite !zlen_app. unfold zlen at 3. rewrite length_replicate.
  unfold zlen in *. cbn. lia.
Qed.

(** The C library of the repository has stubs for [fprintf]: nothing but the
    descriptions is printed, all on one line. *)
Definition libc_stream : Stream cstr := {| fputs s t := s ++ t; fprintf s t := (s, 0) |}.

Example help_stub :
  cag_option_print (S := cstr) (H := libc_stream) [mk_option 115 (Some (bytes_of "s")) None None (bytes_of "Simple")] []
  = bytes_of "                       Simple".
Proof. reflexivity. Qed.

(** ** Witnesses *)

Lemma sample_options_ok : Forall option_ok sample_options.
Proof. repeat constructor; cbn; intros s [= <-]; repeat constructor; lia. Qed.

Definition sample_args : list cstr := bytes_of <$> ["prog"; "a"; "-sk"; "v"; "--verbose"; "b"]%string.

Lemma sample_args_ok : Forall cstr_ok sample_args.
Proof. repeat constructor; lia. Qed.

Definition sample_context : cag_option_context := start_context ["prog"; "a"; "-sk"; "v"; "--verbose"; "b"]%string.
Definition sample_parser : parser := mk_parser [bytes_of "prog"] (drop 1 sample_args) 0 false.

Lemma sample_represents : represents sample_context sample_parser.
Proof. apply (represents_prepare sample_options (bytes_of "prog") (drop 1 sample_args)); [exact sample_options_ok|exact sample_args_ok]. Qed.

Lemma fetch_refines_witness : exists x', cag_option_fetch sample_context = Ok (x', true) /\ cag_option_get x' = 115.
Proof.
  pose proof (fetch_refines sample_context sample_parser sample_represents) as H.
  destruct (parser_fetch (c_options sample_context) sample_parser) as [[[A' id] v] more] eqn:Ep.
  assert (id = 115 /\ more = true) as [-> ->] by (vm_compute in Ep; injection Ep as _ <- _ <-; split; reflexivity).
  destruct H as (x' & E & _ & Hid & _). exact (ex_intro _ x' (conj E Hid)).
Defined.

Lemma options_parsed_witness : exists x l, fetch_all sample_context (S (weight (drop 1 sample_args))) = Ok (x, l) /\
  l.*1 = [115; 107; 118] /\ c_argv x = args ["prog"; "-sk"; "v"; "--verbose"; "a"; "b"]%string.
Proof.
  pose proof (options_parsed sample_options (bytes_of "prog") (drop 1 sample_args) (mk_context [] 0 [] 0 0 false 0 None) sample_options_ok sample_args_ok) as H.
  destruct (parse_args sample_options (drop 1 sample_args) 0) as [[l used] ops] eqn:Ep. vm_compute in Ep. injection Ep as <- <- <-.
  destruct H as (x & E & Ha & _). exact (ex_intro _ x (ex_intro _ _ (conj E (conj eq_refl Ha)))).
Defined.

Lemma help_aligned_witness : exists names, help_line 20 (mk_option 115 (Some (bytes_of "s")) None None (bytes_of "Simple flag")) = names ++ bytes_of "Simple flag" ++ [10] /\ zlen names = 23.
Proof.
  destruct (help_aligned sample_options (mk_option 115 (Some (bytes_of "s")) None None (bytes_of "Simple flag"))) as (_ & _ & _ & names & E & Hn).
  - unfold sample_options. constructor.
  - exists names. exact (conj E Hn).
Defined.
