(* ===== verification/LibcConvert.v ===== *)
(** * Numbers and text in the user space C library

    src/libc/src/FennixStandardLibrary/convert.c ([abs], [swap], [reverse],
    [atoi], [itoa]; [atof] is floating point and not modelled) and the checksum
    of src/userspace/libs/algo/algo.c.  A buffer is a list of bytes. *)

From S2P Require Import Prelude CString.

Local Open Scope Z_scope.

(** ** Conversions *)

(** The absolute value of the least [int] overflows. *)
Definition abs (i : Z) : res Z :=
  if decide (i < 0) then if decide (i = - 2 ^ 31) then Err Undefined else Ok (- i) else Ok i.

(** [swap(&Buffer[x], &Buffer[y])] *)
Definition swap (Buffer : list Z) (x y : Z) : res (list Z) :=
  if decide (x < 0 \/ y < 0) then Err OutOfBounds
  else
    let* t := aget Buffer (Z.to_nat x) in
    let* u := aget Buffer (Z.to_nat y) in
    let* Buffer := aset Buffer (Z.to_nat x) u in
    aset Buffer (Z.to_nat y) t.

Fixpoint reverse_loop (Buffer : list Z) (i j : Z) (fuel : nat) : res (list Z) :=
  if decide (i < j) then
    match fuel with
    | O => Err OutOfFuel
    | S f => let* Buffer := swap Buffer i j in reverse_loop Buffer (i + 1) (j - 1) f
    end
  else Ok Buffer.

Definition reverse (Buffer : list Z) (i j : Z) : res (list Z) := reverse_loop Buffer i j (Z.to_nat (j - i)).

(** From the last character to the first; [char] is signed, the sum is
    unsigned and the result is cut to an [int]. *)
Fixpoint atoi_loop (String : cstr) (i : nat) (OutBuffer Power : Z) : res Z :=
  match i with
  | O => Ok (s32 OutBuffer)
  | S i' =>
      let* c := cget String i' in
      atoi_loop String i' (u64 (OutBuffer + u64 (u64 (schar c - 48) * Power))) (u64 (Power * 10))
  end.

Definition atoi (String : cstr) : res Z :=
  let* Length := strlen String 0 in atoi_loop String (Z.to_nat Length) 0 1.

(** [while (n)]: the digits from the least one; the buffer and [i]. *)
Fixpoint itoa_loop (Buffer : list Z) (i : nat) (n Base : Z) (fuel : nat) : res (list Z * nat) :=
  if decide (n = 0) then Ok (Buffer, i)
  else
    match fuel with
    | O => Err OutOfFuel
    | S f =>
        let r := Z.rem n Base in
        let* Buffer := aset Buffer i (if decide (10 <= r) then 65 + (r - 10) else 48 + r) in
        itoa_loop Buffer (S i) (Z.quot n Base) Base f
    end.

Definition itoa (Value : Z) (Buffer : list Z) (Base : Z) : res (list Z) :=
  if decide (Base < 2 \/ 32 < Base) then Ok Buffer
  else
    let* n := abs Value in
    let* '(Buffer, i) := itoa_loop Buffer 0 n Base 31 in
    let* '(Buffer, i) := if decide (i = O) then let* Buffer := aset Buffer i 48 in Ok (Buffer, S i) else Ok (Buffer, i) in
    let* '(Buffer, i) := if decide (Value < 0 /\ Base = 10) then let* Buffer := aset Buffer i 45 in Ok (Buffer, S i) else Ok (Buffer, i) in
    let* Buffer := aset Buffer i 0 in
    reverse Buffer 0 (Z.of_nat i - 1).

(** ** The checksum *)

Fixpoint crc_bits (CRC : Z) (j : nat) : Z :=
  match j with
  | O => CRC
  | S j' =>
      let Mask := u32 (- Z.land CRC 1) in
      crc_bits (Z.lxor (Z.shiftr CRC 1) (Z.land 0xEDB88320 Mask)) j'
  end.

(** The table is made at the first call. *)
Definition crc_fill : list Z := (fun Byte => crc_bits Byte 8) <$> seqZ 0 256.

Definition crc_table (Table : list Z) : res (list Z) :=
  let* t := aget Table 1 in Ok (if decide (t = 0) then crc_fill else Table).

Fixpoint crc_loop (Table : list Z) (Data : cstr) (i : nat) (CRC : Z) (fuel : nat) : res Z :=
  match fuel with
  | O => Err OutOfFuel
  | S f =>
      let* Byte := cget Data i in
      if decide (Byte = 0) then Ok (u32 (Z.lnot CRC))
      else
        let* t := aget Table (Z.to_nat (Z.land (Z.lxor CRC Byte) 0xFF)) in
        crc_loop Table Data (S i) (Z.lxor (Z.shiftr CRC 8) t) f
  end.

(** The result and the static table. *)
Definition CyclicRedundancyCheck32 (Table : list Z) (Data : cstr) : res (list Z * Z) :=
  let* Table := crc_table Table in
  let* c := crc_loop Table Data 0 0xFFFFFFFF (S (length Data)) in
  Ok (Table, c).

(** ** Examples *)

Example itoa_1 : (let* b := itoa (-305) (replicate 6 1) 10 in Ok b) = Ok (bytes_of "-305" ++ [0; 1]).
Proof. vm_compute. reflexivity. Qed.

Example crc_1 : (let* '(_, c) := CyclicRedundancyCheck32 (replicate 256 0) (bytes_of "123456789") in Ok c) = Ok 0xCBF43926.
Proof. vm_compute. reflexivity. Qed.

(** The sign is read as a digit. *)
Example atoi_1 : atoi (bytes_of "-5") = Ok (-25).
Proof. vm_compute. reflexivity. Qed.

(** ** Reversing *)

Lemma swap_ok pre a mid b post :
  swap (pre ++ a :: mid ++ b :: post) (Z.of_nat (length pre)) (Z.of_nat (length pre + 1 + length mid))
  = Ok (pre ++ b :: mid ++ a :: post).
Proof.
  unfold swap. rewrite decide_False by lia. rewrite !Nat2Z.id.
  assert (forall x y, pre ++ x :: mid ++ y :: post = (pre ++ x :: mid) ++ y :: post) as E by (intros; by rewrite <- app_assoc).
  assert (forall x, length pre + 1 + length mid = length (pre ++ x :: mid))%nat as El by (intros; rewrite length_app; cbn; lia).
  rewrite (proj2 (aget_Ok _ _ a)) by (apply list_lookup_middle; done). cbn [bind].
  rewrite (proj2 (aget_Ok _ _ b)) by (rewrite E; apply list_lookup_middle; apply El). cbn [bind].
  rewrite aset_Ok by (rewrite length_app; cbn; lia). cbn [bind]. rewrite insert_app_r_alt, Nat.sub_diag by lia. cbn.
  rewrite aset_Ok by (rewrite length_app; cbn; rewrite length_app; cbn; lia). f_equal.
  rewrite E, insert_app_r_alt by (rewrite length_app; cbn; lia). rewrite length_app. cbn [length].
  replace (length pre + 1 + length mid - (length pre + S (length mid)))%nat with O by lia. cbn. by rewrite <- app_assoc.
Qed.

Lemma reverse_loop_ok n : forall mid pre post fuel, (length mid <= n)%nat -> (length mid <= fuel + 1)%nat ->
  reverse_loop (pre ++ mid ++ post) (Z.of_nat (length pre)) (Z.of_nat (length pre + length mid) - 1) fuel = Ok (pre ++ rev mid ++ post).
Proof.
  induction n as [|n IH]; intros mid pre post fuel Hn Hf.
  - destruct mid; [|cbn in Hn; lia]. destruct fuel; cbn; by rewrite decide_False by lia.
  - destruct mid as [|a mid]; [destruct fuel; cbn; by rewrite decide_False by lia|].
    destruct mid as [|b mid _] using rev_ind; [destruct fuel; cbn; by rewrite decide_False by lia|].
    destruct fuel as [|fuel]; [rewrite !length_cons, length_app in Hf; cbn in Hf; lia|]. cbn [reverse_loop].
    rewrite length_cons, length_app in *. cbn [length] in *. rewrite decide_True by lia.
    replace (pre ++ (a :: mid ++ [b]) ++ post) with (pre ++ a :: mid ++ b :: post) by (cbn; by rewrite <- app_assoc).
    replace (Z.of_nat (length pre + S (length mid + 1)) - 1) with (Z.of_nat (length pre + 1 + length mid)) by lia.
    rewrite swap_ok. cbn [bind]. replace (pre ++ b :: mid ++ a :: post) with ((pre ++ [b]) ++ mid ++ a :: post) by (by rewrite <- app_assoc).
    replace (Z.of_nat (length pre) + 1) with (Z.of_nat (length (pre ++ [b]))) by (rewrite length_app; cbn; lia).
    replace (Z.of_nat (length pre + 1 + length mid) - 1) with (Z.of_nat (length (pre ++ [b]) + length mid) - 1) by (rewrite length_app; cbn; lia).
    rewrite IH by lia. f_equal. cbn [rev]. rewrite rev_app_distr. cbn [rev app]. rewrite <- !app_assoc. done.
Qed.

(** ** Numerals *)

(** The value of digits from the least one, and their characters. *)
Definition eval (Base : Z) (ds : list Z) : Z := foldr (fun d n => d + Base * n) 0 ds.
Definition dchar (d : Z) : Z := if decide (10 <= d) then 65 + (d - 10) else 48 + d.

Lemma itoa_loop_ok Base : 2 <= Base -> forall fuel n pre rest, 0 <= n < Base ^ Z.of_nat fuel -> (fuel <= length rest)%nat ->
  exists ds, itoa_loop (pre ++ rest) (length pre) n Base fuel
             = Ok (pre ++ (dchar <$> ds) ++ drop (length ds) rest, (length pre + length ds)%nat) /\
    Forall (fun d => 0 <= d < Base) ds /\ eval Base ds = n /\ (length ds <= fuel)%nat /\ (ds = [] <-> n = 0) /\ last ds <> Some 0.
Proof.
  intros HB. induction fuel as [|f IH]; intros n pre rest Hn Hr; cbn [itoa_loop].
  - cbn in Hn. assert (n = 0) as -> by lia. rewrite decide_True by lia. exists []. by rewrite Nat.add_0_r, drop_0.
  - destruct (decide (n = 0)) as [->|Hne].
    + exists []. rewrite Nat.add_0_r, drop_0. split_and!; [done|done|done|cbn; lia|done|done].
    + destruct rest as [|x rest]; [cbn in Hr; lia|]. cbn in Hr. rewrite aset_Ok by (rewrite length_app; cbn; lia). cbn [bind].
      rewrite insert_app_r_alt, Nat.sub_diag by lia. cbn [list_insert]. rewrite Z.rem_mod_nonneg, Z.quot_div_nonneg by lia. fold (dchar (n mod Base)).
      replace (Z.of_nat (S f)) with (Z.succ (Z.of_nat f)) in Hn by lia. rewrite Z.pow_succ_r in Hn by lia.
      pose proof (Z.div_mod n Base ltac:(lia)) as Hdm. pose proof (Z.mod_pos_bound n Base ltac:(lia)) as Hmb.
      destruct (IH (n / Base) (pre ++ [dchar (n mod Base)]) rest) as (ds & E & Hd & He & Hl & H0 & Hlast);
        [split; [apply Z.div_pos; lia|apply Z.div_lt_upper_bound; lia]|lia|].
      exists (n mod Base :: ds). rewrite length_app in E. cbn [length] in E. rewrite Nat.add_1_r in E.
      replace (pre ++ dchar (n mod Base) :: rest) with ((pre ++ [dchar (n mod Base)]) ++ rest) by (by rewrite <- app_assoc).
      change (<[0%nat:=_]> (x :: rest)) with (dchar (n mod Base) :: rest).
      replace (pre ++ dchar (n mod Base) :: rest) with ((pre ++ [dchar (n mod Base)]) ++ rest) by (by rewrite <- app_assoc).
      rewrite E. split_and!.
      * cbn [fmap list_fmap length drop]. rewrite <- app_assoc. cbn. do 2 f_equal. lia.
      * by constructor.
      * unfold eval in *. cbn. rewrite He. lia.
      * cbn. lia.
      * done.
      * destruct ds as [|d ds]; [|by rewrite last_cons_cons]. cbn. intros [= Hz].
        assert (n / Base = 0) by (by apply H0). nia.
Qed.

Lemma dchar_byte d : 0 <= d < 32 -> 0 < dchar d < 256.
Proof. intros H. unfold dchar. case_decide; lia. Qed.

(** What [itoa] leaves in the buffer. *)
Lemma itoa_numeral Value Buffer Base : - 2 ^ 31 < Value < 2 ^ 31 -> 2 <= Base <= 32 -> (33 <= length Buffer)%nat ->
  exists ds, Forall (fun d => 0 <= d < Base) ds /\ eval Base ds = Z.abs Value /\ (ds = [0] \/ ds <> [] /\ last ds <> Some 0) /\
    let text := (if decide (Value < 0 /\ Base = 10) then [45] else []) ++ rev (dchar <$> ds) in
    itoa Value Buffer Base = Ok (text ++ 0 :: drop (S (length text)) Buffer).
Proof.
  intros HV HB Hl. unfold itoa. rewrite decide_False by lia.
  assert (abs Value = Ok (Z.abs Value)) as -> by (unfold abs; repeat case_decide; try lia; f_equal; lia). cbn [bind].
  destruct (itoa_loop_ok Base ltac:(lia) 31 (Z.abs Value) [] Buffer) as (ds & E & Hd & He & Hlen & H0 & Hlast).
  { split; [lia|]. apply Z.lt_le_trans with (2 ^ 31); [lia|]. apply Z.pow_le_mono_l. lia. }
  { lia. }
  cbn [app length Nat.add] in E. rewrite E. cbn [bind].
  set (ds' := if decide (ds = []) then [0] else ds).
  assert ((if decide (length ds = 0%nat) then let* Buffer := aset ((dchar <$> ds) ++ drop (length ds) Buffer) (length ds) 48 in Ok (Buffer, S (length ds))
           else Ok ((dchar <$> ds) ++ drop (length ds) Buffer, length ds)) = Ok ((dchar <$> ds') ++ drop (length ds') Buffer, length ds')) as ->.
  { unfold ds'. destruct ds as [|d ds]; [|by rewrite decide_False, decide_False by done]. rewrite !decide_True by done.
    destruct Buffer as [|x B]; [cbn in Hl; lia|]. change ((dchar <$> []) ++ drop (length (@nil Z)) (x :: B)) with (x :: B).
    rewrite aset_Ok by (cbn; lia). done. }
  cbn [bind]. assert (1 <= length ds' <= 31)%nat as Hl' by (unfold ds'; case_decide; destruct ds; cbn in *; try lia; done).
  exists ds'. split; [unfold ds'; case_decide; [repeat constructor; lia|done]|].
  split; [unfold ds'; case_decide as Hc; [rewrite (proj1 H0 Hc); by cbn; lia|done]|].
  split; [unfold ds'; case_decide; [by left|by right]|]. cbv zeta.
  set (sg := if decide (Value < 0 /\ Base = 10) then [45] else []).
  assert (forall b i, (i < length b)%nat -> (if decide (Value < 0 /\ Base = 10) then let* b := aset b i 45 in Ok (b, S i) else Ok (b, i))
    = Ok (take i b ++ sg ++ drop (i + length sg) b, (i + length sg)%nat)) as ->.
  { intros b i Hi. unfold sg. case_decide.
    - rewrite aset_Ok by done. cbn [bind length app]. rewrite insert_take_drop by done. by rewrite Nat.add_1_r.
    - cbn. rewrite Nat.add_0_r, take_drop. done. }
  2:{ rewrite length_app, length_fmap, length_drop. lia. }
  cbn [bind]. assert (length sg <= 1)%nat as Hsg by (unfold sg; case_decide; cbn; lia).
  rewrite take_app_length', drop_app_ge by (rewrite length_fmap; lia). rewrite drop_drop, length_fmap.
  replace (length ds' + (length ds' + length sg - length ds'))%nat with (length ds' + length sg)%nat by lia.
  set (rest := drop (length ds' + length sg) Buffer).
  assert (0 < length rest)%nat as Hrest by (unfold rest; rewrite length_drop; lia).
  rewrite aset_Ok by (rewrite !length_app, length_fmap; lia). cbn [bind].
  rewrite app_assoc, insert_app_r_alt by (rewrite length_app, length_fmap; lia).
  rewrite length_app, length_fmap, Nat.sub_diag. destruct rest as [|x rest'] eqn:Er; [cbn in Hrest; lia|]. cbn [list_insert].
  change (<[0%nat:=0]> (x :: rest')) with (0 :: rest').
  pose proof (reverse_loop_ok (length ds' + length sg) ((dchar <$> ds') ++ sg) [] (0 :: rest') (Z.to_nat (Z.of_nat (length ds' + length sg) - 1 - 0))) as Hrev.
  cbn [app length Nat.add] in Hrev. rewrite length_app, length_fmap in Hrev. change (Z.of_nat 0) with 0 in Hrev. unfold reverse. rewrite Hrev by lia.
  f_equal. rewrite rev_app_distr. assert (rev sg = sg) as -> by (unfold sg; by case_decide). do 2 f_equal.
  rewrite length_app, length_rev, length_fmap. destruct (drop_cons_lookup _ _ _ _ Er) as [_ <-]. f_equal. lia.
Qed.

(** [itoa] for every base from 2 to 32 and every [int] but the least:
    given 33 bytes it stays inside the buffer and leaves the numeral of the
    absolute value, without leading zeros, after a minus sign for
    negative numbers in base 10, with its terminator; the rest of the buffer is as it was. *)
Theorem itoa_correct Value Buffer Base : - 2 ^ 31 < Value < 2 ^ 31 -> 2 <= Base <= 32 -> (33 <= length Buffer)%nat ->
  exists ds, Forall (fun d => 0 <= d < Base) ds /\ eval Base ds = Z.abs Value /\ (ds = [0] \/ ds <> [] /\ last ds <> Some 0) /\
    let text := (if decide (Value < 0 /\ Base = 10) then [45] else []) ++ rev (dchar <$> ds) in
    itoa Value Buffer Base = Ok (text ++ 0 :: drop (S (length text)) Buffer).
Proof. apply itoa_numeral. Qed.

(** ** Reading numbers *)

Lemma eval_app Base a b : eval Base (a ++ b) = eval Base a + Base ^ Z.of_nat (length a) * eval Base b.
Proof.
  unfold eval. induction a as [|d a IH]; cbn [foldr app length]; [rewrite Z.pow_0_r; lia|]. rewrite IH.
  replace (Z.of_nat (S (length a))) with (Z.succ (Z.of_nat (length a))) by lia. rewrite Z.pow_succ_r by lia. lia.
Qed.

(** The loop over a text of digits, from its end: [ds] was read. *)
Lemma atoi_loop_ok es : forall ds s, s = rev (dchar <$> (ds ++ es)) -> Forall (fun d => 0 <= d < 10) (ds ++ es) ->
  atoi_loop s (length es) (u64 (eval 10 ds)) (u64 (10 ^ Z.of_nat (length ds))) = Ok (s32 (u64 (eval 10 (ds ++ es)))).
Proof.
  induction es as [|e es IH]; intros ds s Es Hd; cbn [atoi_loop length]; [by rewrite app_nil_r|].
  assert (0 <= e < 10) as He by (apply Forall_app in Hd as [_ Hd]; by apply Forall_cons in Hd as [? _]).
  assert (s !! length es = Some (dchar e)) as Hl.
  { rewrite Es, fmap_app, rev_app_distr. change (dchar <$> e :: es) with (dchar e :: (dchar <$> es)). cbn [rev]. rewrite <- app_assoc.
    apply list_lookup_middle. by rewrite length_rev, length_fmap. }
  unfold cget. rewrite decide_True by (by eapply lookup_lt_Some). rewrite (nth_lookup_Some _ _ _ _ Hl). cbn [bind].
  replace (schar (dchar e) - 48) with e by (unfold schar, dchar; repeat case_decide; lia).
  specialize (IH (ds ++ [e]) s). rewrite <- app_assoc in IH. cbn [app] in IH. rewrite <- (IH Es Hd). f_equal.
  - rewrite eval_app. unfold eval at 3. cbn [foldr]. unfold wrapu.
    rewrite (Z.mod_small e) by lia. rewrite Zmult_mod_idemp_r, Zplus_mod_idemp_l, Zplus_mod_idemp_r. f_equal. lia.
  - rewrite length_app. cbn [length]. replace (Z.of_nat (length ds + 1)) with (Z.succ (Z.of_nat (length ds))) by lia.
    rewrite Z.pow_succ_r by lia. unfold wrapu. rewrite Zmult_mod_idemp_l. f_equal. lia.
Qed.

Lemma atoi_digits ds : Forall (fun d => 0 <= d < 10) ds -> eval 10 ds < 2 ^ 31 -> 0 <= eval 10 ds -> atoi (rev (dchar <$> ds)) = Ok (eval 10 ds).
Proof.
  intros Hd H1 H2. unfold atoi. assert (cstr_ok (rev (dchar <$> ds))) as Hs.
  { apply Forall_rev, Forall_fmap. eapply Forall_impl; [exact Hd|]. intros d ?. apply dchar_byte. cbn in *. lia. }
  rewrite (strlen_Ok _ 0 Hs) by lia. cbn [bind]. rewrite Nat.sub_0_r, Nat2Z.id, length_rev, length_fmap.
  pose proof (atoi_loop_ok ds [] (rev (dchar <$> ds)) eq_refl Hd) as E. cbn [app length] in E.
  change (u64 (eval 10 [])) with 0 in E. change (u64 (10 ^ Z.of_nat 0)) with 1 in E. rewrite E.
  rewrite (wrapu_small 64) by lia. by rewrite wraps_small by lia.
Qed.

Lemma eval_nonneg ds : Forall (fun d => 0 <= d < 10) ds -> 0 <= eval 10 ds.
Proof. intros H. induction H as [|d ds Hd _ IH]; unfold eval in *; cbn; lia. Qed.

(** Every [int] that is not negative comes back: [atoi] reads what [itoa]
    writes in base 10 as the same number. *)
Theorem itoa_atoi Value Buffer : 0 <= Value < 2 ^ 31 -> (33 <= length Buffer)%nat ->
  exists text rest, itoa Value Buffer 10 = Ok (text ++ 0 :: rest) /\ cstr_ok text /\ atoi text = Ok Value.
Proof.
  intros HV HL. destruct (itoa_numeral Value Buffer 10 ltac:(lia) ltac:(lia) HL) as (ds & Hd & He & _ & E).
  rewrite decide_False in E by lia. cbn [app] in E. eexists _, _. split; [exact E|]. split.
  - apply Forall_rev, Forall_fmap. eapply Forall_impl; [exact Hd|]. intros d ?. apply dchar_byte. cbn in *. lia.
  - rewrite atoi_digits; [f_equal; lia|done|lia|by apply eval_nonneg].
Qed.

(** ** The checksum *)

(** One bit of the division by the polynomial, and one byte. *)
Definition crc_bit (c : Z) : Z := if Z.odd c then Z.lxor (Z.shiftr c 1) 0xEDB88320 else Z.shiftr c 1.
Definition crc_byte (c b : Z) : Z := Nat.iter 8 crc_bit (Z.lxor c b).

Lemma crc_bits_iter j : forall c, 0 <= c -> crc_bits c j = Nat.iter j crc_bit c.
Proof.
  induction j as [|j IH]; intros c Hc; [done|]. rewrite Nat.iter_succ_r. cbn [crc_bits].
  assert (Z.lxor (Z.shiftr c 1) (Z.land 0xEDB88320 (u32 (- Z.land c 1))) = crc_bit c) as ->.
  { unfold crc_bit. change 1 with (Z.ones 1) at 2. rewrite Z.land_ones, Zmod_odd by lia. destruct (Z.odd c); [done|].
    change (Z.land 0xEDB88320 (u32 (- 0))) with 0. apply Z.lxor_0_r. }
  apply IH. unfold crc_bit. assert (0 <= Z.shiftr c 1) by (apply Z.shiftr_nonneg; lia).
  destruct (Z.odd c); [|done]. apply Z.lxor_nonneg. lia.
Qed.

(** The bits above the ones shifted out only move. *)
Lemma crc_iter_high j : forall h l, Nat.iter j crc_bit (Z.lxor (Z.shiftl h (Z.of_nat j)) l) = Z.lxor h (Nat.iter j crc_bit l).
Proof.
  induction j as [|j IH]; intros h l; [cbn; by rewrite Z.shiftl_0_r|]. rewrite !Nat.iter_succ_r.
  assert (crc_bit (Z.lxor (Z.shiftl h (Z.of_nat (S j))) l) = Z.lxor (Z.shiftl h (Z.of_nat j)) (crc_bit l)) as ->; [|apply IH].
  unfold crc_bit. assert (Z.odd (Z.lxor (Z.shiftl h (Z.of_nat (S j))) l) = Z.odd l) as ->.
  { rewrite <- !Z.bit0_odd, Z.lxor_spec, Z.shiftl_spec_low by lia. done. }
  rewrite Z.shiftr_lxor, Z.shiftr_shiftl_l by lia. replace (Z.of_nat (S j) - 1) with (Z.of_nat j) by lia.
  destruct (Z.odd l); [by rewrite Z.lxor_assoc|done].
Qed.

Lemma crc_fill_lookup b : 0 <= b < 256 -> crc_fill !! Z.to_nat b = Some (Nat.iter 8 crc_bit b).
Proof.
  intros Hb. unfold crc_fill. rewrite list_lookup_fmap, lookup_seqZ_lt by lia. cbn [option_map fmap option_fmap].
  rewrite crc_bits_iter by lia. f_equal. f_equal. lia.
Qed.

(** A table look-up is eight steps. *)
Lemma crc_lookup c b : 0 <= c -> 0 <= b < 256 ->
  exists t, aget crc_fill (Z.to_nat (Z.land (Z.lxor c b) 0xFF)) = Ok t /\ Z.lxor (Z.shiftr c 8) t = crc_byte c b.
Proof.
  intros Hc Hb. change 0xFF with (Z.ones 8). rewrite Z.land_ones by lia. set (x := Z.lxor c b).
  pose proof (Z.mod_pos_bound x (2 ^ 8) ltac:(lia)) as Hm. eexists. split; [apply aget_Ok, crc_fill_lookup; lia|].
  assert (Z.shiftr c 8 = Z.shiftr x 8) as ->.
  { unfold x. rewrite Z.shiftr_lxor. rewrite (Z.shiftr_div_pow2 b) by lia. rewrite (Z.div_small b) by lia. by rewrite Z.lxor_0_r. }
  rewrite <- crc_iter_high. unfold crc_byte. fold x. f_equal. change (Z.of_nat 8) with 8.
  rewrite <- Z.land_ones by lia. apply Z.bits_inj'. intros n Hn. rewrite Z.lxor_spec, Z.land_spec. destruct (decide (n < 8)).
  - rewrite Z.shiftl_spec_low, Z.ones_spec_low by lia. by rewrite andb_true_r.
  - rewrite Z.shiftl_spec_high, Z.shiftr_spec, Z.ones_spec_high by lia. rewrite andb_false_r, xorb_false_r. f_equal. lia.
Qed.

Lemma crc_byte_nonneg c b : 0 <= c -> 0 <= b -> 0 <= crc_byte c b.
Proof.
  intros Hc Hb. unfold crc_byte. assert (0 <= Z.lxor c b) as H by (apply Z.lxor_nonneg; lia). revert H. generalize (Z.lxor c b). 
  generalize 8%nat as n. induction n as [|n IH]; intros x Hx; [done|]. rewrite Nat.iter_succ_r. apply IH. unfold crc_bit.
  assert (0 <= Z.shiftr x 1) by (apply Z.shiftr_nonneg; lia). destruct (Z.odd x); [apply Z.lxor_nonneg; lia|done].
Qed.

Lemma crc_loop_ok s : cstr_ok s -> forall fuel i c, (i <= length s)%nat -> (length s - i < fuel)%nat -> 0 <= c ->
  crc_loop crc_fill s i c fuel = Ok (u32 (Z.lnot (foldl crc_byte c (drop i s)))).
Proof.
  intros Hs. induction fuel as [|f IH]; intros i c Hi Hf Hc; [lia|]. cbn [crc_loop].
  destruct (cget_cases s i Hi) as [(b & k & Ed & Eb & Hlt)|(Ed & Eb & Hlt)]; rewrite Ed, Eb; cbn [bind]; [|by rewrite decide_True].
  pose proof (cstr_ok_head _ _ _ _ Hs Ed) as Hb. rewrite decide_False by lia.
  destruct (crc_lookup c b Hc ltac:(lia)) as (t & -> & Et). cbn [bind]. rewrite Et. destruct (drop_cons_lookup _ _ _ _ Ed) as [_ Ek].
  rewrite IH; [by rewrite Ek|lia|lia|apply crc_byte_nonneg; lia].
Qed.

(** The checksum by table equals the definition of CRC-32 bit by bit, for
    every string, at the first call (which makes the table) and at later ones. *)
Theorem crc_correct Table s : cstr_ok s -> Table = replicate 256 0 \/ Table = crc_fill ->
  CyclicRedundancyCheck32 Table s = Ok (crc_fill, u32 (Z.lnot (foldl crc_byte 0xFFFFFFFF s))).
Proof.
  intros Hs HT. unfold CyclicRedundancyCheck32. assert (crc_table Table = Ok crc_fill) as -> by (by destruct HT as [->| ->]).
  cbn [bind]. rewrite (crc_loop_ok s Hs) by lia. done.
Qed.

(** ** Witnesses *)

Lemma itoa_correct_witness : exists ds, eval 16 ds = 255 /\ itoa (-255) (replicate 40 1) 16 = Ok (rev (dchar <$> ds) ++ 0 :: drop (S (length (rev (dchar <$> ds)))) (replicate 40 1)).
Proof.
  destruct (itoa_correct (-255) (replicate 40 1) 16) as (ds & _ & He & _ & E); [lia|lia|cbn; lia|]. exists ds. exact (conj He E).
Defined.

Lemma itoa_atoi_witness : exists text rest, itoa 2147483647 (replicate 33 0) 10 = Ok (text ++ 0 :: rest) /\ atoi text = Ok 2147483647.
Proof.
  destruct (itoa_atoi 2147483647 (replicate 33 0)) as (text & rest & E & _ & Ha); [lia|cbn; lia|]. exists text, rest. exact (conj E Ha).
Defined.

Lemma crc_correct_witness : CyclicRedundancyCheck32 (replicate 256 0) (bytes_of "a") = Ok (crc_fill, 0xE8B7BE43).
Proof.
  rewrite (crc_correct (replicate 256 0) (bytes_of "a")); [|repeat constructor; lia|left; reflexivity]. vm_compute. reflexivity.
Defined.
