(* ===== verification/Vector.v ===== *)
(** * The kernel's growing array

    src/kernel/include/vector.hpp: [Vector<T>], which the file system, the
    tasking code and the drivers keep their objects in.  A vector is its size,
    its capacity and its buffer, [None] for a null pointer; [new T[n]] gives
    zeroed elements, as the kernel's [operator new] does ([zero] is the value
    with all bytes 0).  A program over a vector refines the same program over
    a list, as long as it stays inside what the operations guarantee; the
    cases in which the code leaves the buffer are theorems too. *)

From S2P Require Import Prelude.

Local Open Scope Z_scope.

(** ** Definitions *)

Record Vector (T : Type) := mk_Vector {
  VectorSize : Z;
  VectorCapacity : Z;
  VectorBuffer : option (list T)
}.
Arguments mk_Vector {T} _ _ _.
Arguments VectorSize {T} _.
Arguments VectorCapacity {T} _.
Arguments VectorBuffer {T} _.

Section operations.
Context {T : Type} (zero : T).
Implicit Types v : Vector T.

Definition Vector_new : Vector T := mk_Vector 0 0 None.

(** [Vector(Size)]. *)
Definition Vector_sized (Size : Z) : Vector T :=
  mk_Vector Size Size (Some (replicate (Z.to_nat Size) zero)).

(** [for (i = 0; i < Size; i++) VectorBuffer[i] = Initial]. *)
Fixpoint fill_loop (b : list T) (Initial : T) (i k : nat) : res (list T) :=
  match k with
  | O => Ok b
  | S k' => let* b' := aset b i Initial in fill_loop b' Initial (S i) k'
  end.

Definition Vector_filled (Size : Z) (Initial : T) : res (Vector T) :=
  let* b := fill_loop (replicate (Z.to_nat Size) zero) Initial 0 (Z.to_nat Size) in
  Ok (mk_Vector Size Size (Some b)).

(** The buffer behind the pointer. *)
Definition buffer v : res (list T) :=
  match VectorBuffer v with
  | Some b => Ok b
  | None => Err NullDeref
  end.

(** [for (i = 0; i < n; i++) dst[i] = VectorBuffer[i]]. *)
Fixpoint copy_loop (dst : list T) v (i k : nat) : res (list T) :=
  match k with
  | O => Ok dst
  | S k' =>
      let* b := buffer v in
      let* x := aget b i in
      let* dst' := aset dst i x in
      copy_loop dst' v (S i) k'
  end.

(** The copy constructor and [operator=], which differ only in the buffer
    that the latter releases first. *)
Definition Vector_copy v : res (Vector T) :=
  let* b := copy_loop (replicate (Z.to_nat (VectorSize v)) zero) v 0 (Z.to_nat (VectorSize v)) in
  Ok (mk_Vector (VectorSize v) (VectorCapacity v) (Some b)).

Fixpoint remove_loop (b : list T) (Position i k : nat) : res (list T) :=
  match k with
  | O => Ok b
  | S k' =>
      let* x := aget b (Position + i + 1) in
      let* b' := aset b (Position + i) x in
      remove_loop b' Position (S i) k'
  end.

Definition remove v (Position : Z) : res (Vector T) :=
  if decide (VectorSize v <= Position) then Ok v
  else
    let* b := buffer v in
    let* b := aset b (Z.to_nat Position) zero in
    let* b := remove_loop b (Z.to_nat Position) 0 (Z.to_nat (VectorSize v - 1)) in
    Ok (mk_Vector (VectorSize v - 1) (VectorCapacity v) (Some b)).

Definition size v : Z := VectorSize v.
Definition capacity v : Z := VectorCapacity v.

(** [operator[]], and [front] and [back] by it. *)
Definition index v (Index : Z) : res T :=
  let* b := buffer v in aget b (Z.to_nat Index).
Definition front v : res T := index v 0.
Definition back v : res T := index v (u64 (VectorSize v - 1)).

(** What a range-based loop from [begin] to [end] visits. *)
Definition elements v : res (list T) :=
  match VectorBuffer v with
  | None => if decide (VectorSize v = 0) then Ok [] else Err NullDeref
  | Some b => if decide (VectorSize v <= Z.of_nat (length b))
              then Ok (take (Z.to_nat (VectorSize v)) b) else Err OutOfBounds
  end.

Definition reserve v (Capacity : Z) : res (Vector T) :=
  let v := match VectorBuffer v with None => mk_Vector 0 0 None | Some _ => v end in
  let Newbuffer := replicate (Z.to_nat Capacity) zero in
  let _Size := if decide (Capacity < VectorSize v) then Capacity else VectorSize v in
  let* Newbuffer := copy_loop Newbuffer v 0 (Z.to_nat _Size) in
  Ok (mk_Vector (VectorSize v) Capacity (Some Newbuffer)).

Definition push_back v (Value : T) : res (Vector T) :=
  let* v := if decide (VectorCapacity v <= VectorSize v)
            then reserve v (u64 (VectorCapacity v + 5)) else Ok v in
  let* b := buffer v in
  let* b := aset b (Z.to_nat (VectorSize v)) Value in
  Ok (mk_Vector (u64 (VectorSize v + 1)) (VectorCapacity v) (Some b)).

Definition pop_back v : Vector T :=
  mk_Vector (u64 (VectorSize v - 1)) (VectorCapacity v) (VectorBuffer v).

Fixpoint reverse_loop (b : list T) (i j fuel : nat) : res (list T) :=
  match fuel with
  | O => Err OutOfFuel
  | S f =>
      if decide (i < j)%nat then
        let* c := aget b i in
        let* d := aget b j in
        let* b := aset b i d in
        let* b := aset b j c in
        reverse_loop b (S i) (j - 1) f
      else Ok b
  end.

Definition reverse v : res (Vector T) :=
  if decide (VectorSize v <= 1) then Ok v
  else
    let* b := buffer v in
    let* b := reverse_loop b 0 (Z.to_nat (VectorSize v - 1)) (Z.to_nat (VectorSize v)) in
    Ok (mk_Vector (VectorSize v) (VectorCapacity v) (Some b)).

Definition resize v (Size : Z) : res (Vector T) :=
  let* v := reserve v Size in
  Ok (mk_Vector Size (VectorCapacity v) (VectorBuffer v)).

Definition clear v : Vector T := mk_Vector 0 0 None.

(** ** The list a vector stands for *)

(** The buffer has the capacity it says, and its first elements are [l]. *)
Definition represents v (l : list T) : Prop :=
  VectorSize v = Z.of_nat (length l) /\
  match VectorBuffer v with
  | None => l = [] /\ VectorCapacity v = 0
  | Some b => VectorCapacity v = Z.of_nat (length b) /\ exists rest, b = l ++ rest
  end.

(** ** Programs *)

(** The operations that change a vector, what they do to the code's vector
    and what to a list. *)
Inductive vop :=
| Push (x : T) | Pop | Reverse | Resize (n : Z) | Remove (i : Z) | Reserve (n : Z) | Clear.

Definition vstep (o : vop) v : res (Vector T) :=
  match o with
  | Push x => push_back v x
  | Pop => Ok (pop_back v)
  | Reverse => reverse v
  | Resize n => resize v n
  | Remove i => remove v i
  | Reserve n => reserve v n
  | Clear => Ok (clear v)
  end.

Definition lstep (o : vop) (l : list T) : list T :=
  match o with
  | Push x => l ++ [x]
  | Pop => take (length l - 1) l
  | Reverse => rev l
  | Resize n => take (Z.to_nat n) l ++ replicate (Z.to_nat n - length l) zero
  | Remove i => delete (Z.to_nat i) l
  | Reserve n => l
  | Clear => []
  end.

(** When the code keeps to its buffer: it grows below 2^64, nothing is popped
    from an empty vector, a reservation is not below the size (which the code
    would not adjust), and a removal at [i] has [i] spare elements after the
    size, which its loop moves too. *)
Definition allowed (o : vop) v : bool :=
  match o with
  | Push _ => bool_decide (VectorCapacity v + 5 < 2 ^ 64)
  | Pop => bool_decide (0 < VectorSize v)
  | Reverse | Clear => true
  | Resize n => bool_decide (0 <= n < 2 ^ 64)
  | Reserve n => bool_decide (VectorSize v <= n < 2 ^ 64)
  | Remove i => bool_decide (0 <= i) &&
      (bool_decide (VectorSize v <= i \/ VectorSize v <= 1) || bool_decide (i + VectorSize v <= VectorCapacity v))
  end.

(** A program runs as long as its operations are allowed; [None] is a program
    that leaves what the operations guarantee. *)
Fixpoint vrun (os : list vop) v : option (res (Vector T)) :=
  match os with
  | [] => Some (Ok v)
  | o :: os =>
      if allowed o v then
        match vstep o v with
        | Ok v' => vrun os v'
        | Err e => Some (Err e)
        end
      else None
  end.

Definition lrun (os : list vop) (l : list T) : list T := fold_left (fun l o => lstep o l) os l.
End operations.
Arguments Push {T} _.
Arguments Pop {T}.
Arguments Reverse {T}.
Arguments Resize {T} _.
Arguments Remove {T} _.
Arguments Reserve {T} _.
Arguments Clear {T}.

(** ** Helper lemmas *)

Section lemmas.
Context {T : Type} (zero : T).
Implicit Types (v : Vector T) (b l : list T).

Lemma copy_loop_ok v b : buffer v = Ok b -> forall k i dst,
  (i + k <= length b)%nat -> (k <= length dst)%nat ->
  copy_loop (take i b ++ dst) v i k = Ok (take (i + k) b ++ drop k dst).
Proof.
  intros Hb. induction k as [|k IH]; intros i dst Hi Hd; simpl; [by rewrite Nat.add_0_r, drop_0|].
  rewrite Hb. simpl. destruct (lookup_lt_is_Some_2 b i ltac:(lia)) as [x Hx].
  rewrite (proj2 (aget_Ok b i x) Hx). simpl. destruct dst as [|d dst]; [simpl in Hd; lia|].
  rewrite aset_app_r by (rewrite length_take; lia). simpl in *.
  replace (take i b ++ x :: dst) with (take (S i) b ++ dst)
    by (by rewrite (take_S_r _ _ _ Hx), <- app_assoc).
  rewrite IH by lia. by replace (i + S k)%nat with (S i + k)%nat by lia.
Qed.

Lemma remove_loop_ok P : forall (w : list T) i pre x suf, length pre = (P + i)%nat ->
  remove_loop (pre ++ x :: w ++ suf) P i (length w) = Ok (pre ++ w ++ List.last (x :: w) x :: suf).
Proof.
  induction w as [|y w IH]; intros i pre x suf Hp; [done|]. cbn [length remove_loop app].
  replace (pre ++ x :: y :: w ++ suf) with ((pre ++ [x]) ++ y :: w ++ suf) by (by rewrite <- app_assoc).
  rewrite aget_app_r by (rewrite length_app; simpl; lia). simpl.
  rewrite <- app_assoc. simpl. rewrite aset_app_r by lia. simpl.
  replace (pre ++ y :: y :: w ++ suf) with ((pre ++ [y]) ++ y :: w ++ suf) by (by rewrite <- app_assoc).
  rewrite IH by (rewrite length_app; simpl; lia). rewrite <- app_assoc. simpl. do 4 f_equal.
  clear. revert x y. induction w as [|z w IH]; intros x y; [done|]. simpl in *. destruct w; [done|]. apply (IH x y).
Qed.

(** Past the buffer, the loop of [remove] faults. *)
Lemma remove_loop_oob P : forall k i b,
  (i <= length b - P)%nat -> (length b < P + i + 1 + k)%nat -> (0 < k)%nat ->
  remove_loop b P i k = Err OutOfBounds.
Proof.
  induction k as [|k IH]; intros i b Hi Hb Hk; [lia|]. simpl.
  destruct (decide (P + i + 1 < length b)%nat) as [Hlt|Hge].
  - destruct (lookup_lt_is_Some_2 b (P + i + 1) Hlt) as [x Hx]. rewrite (proj2 (aget_Ok _ _ _) Hx). simpl.
    rewrite aset_Ok by lia. simpl. apply IH; rewrite ?length_insert; lia.
  - by rewrite aget_oob by lia.
Qed.

Lemma vector_reverse_loop_ok : forall fuel (pre mid suf : list T) i j,
  i = length pre -> j = (length pre + length mid - 1)%nat -> (length mid <= 2 * fuel - 1)%nat -> (0 < fuel)%nat ->
  reverse_loop (pre ++ mid ++ suf) i j fuel = Ok (pre ++ rev mid ++ suf).
Proof.
  induction fuel as [|f IH]; intros pre mid suf i j -> -> Hf H0; [lia|]. cbn [reverse_loop].
  destruct mid as [|x mid].
  { rewrite decide_False by (simpl; lia). done. }
  destruct mid as [|y mid _] using rev_ind.
  { rewrite decide_False by (simpl; lia). done. }
  rewrite decide_True by (simpl; rewrite length_app; simpl; lia).
  simpl. rewrite aget_app_r by done. simpl.
  replace (pre ++ x :: (mid ++ [y]) ++ suf) with ((pre ++ x :: mid) ++ y :: suf) by (rewrite <- !app_assoc; done).
  simpl in Hf. rewrite length_app in *. simpl in *.
  rewrite aget_app_r by (rewrite length_app; simpl; lia). simpl. rewrite <- app_assoc. simpl.
  rewrite aset_app_r by done. simpl.
  replace (pre ++ y :: mid ++ y :: suf) with ((pre ++ y :: mid) ++ y :: suf) by (rewrite <- !app_assoc; done).
  rewrite aset_app_r by (rewrite length_app; simpl; lia). simpl.
  replace ((pre ++ y :: mid) ++ x :: suf) with ((pre ++ [y]) ++ mid ++ (x :: suf)) by (rewrite <- !app_assoc; done).
  rewrite IH; [|rewrite ?length_app; simpl; lia..].
  rewrite rev_app_distr, <- !app_assoc. done.
Qed.

(** The two cases of [represents]. *)
Lemma represents_cases v l : represents v l ->
  (l = [] /\ v = mk_Vector 0 0 None) \/
  (exists rest, v = mk_Vector (Z.of_nat (length l)) (Z.of_nat (length (l ++ rest))) (Some (l ++ rest))).
Proof.
  destruct v as [n c [b|]]; intros [Hs Hb]; simpl in *.
  - destruct Hb as [-> [rest ->]]. right. exists rest. by rewrite Hs.
  - destruct Hb as [-> ->]. left. simpl in Hs. by subst.
Qed.

Lemma represents_intro l rest :
  represents (mk_Vector (Z.of_nat (length l)) (Z.of_nat (length (l ++ rest))) (Some (l ++ rest))) l.
Proof. split; [done|]. simpl. eauto. Qed.

Lemma reserve_ok v l n : represents v l -> 0 <= n ->
  reserve zero v n = Ok (mk_Vector (Z.of_nat (length l)) n
    (Some (take (Z.to_nat n) l ++ replicate (Z.to_nat n - length l) zero))).
Proof.
  intros Hv Hn. destruct (represents_cases v l Hv) as [[-> ->]|[rest ->]]; unfold reserve; cbn [VectorBuffer VectorSize].
  { rewrite decide_False by lia. simpl. by rewrite take_nil, Nat.sub_0_r. }
  set (k := Z.to_nat (if decide (n < Z.of_nat (length l)) then n else Z.of_nat (length l))).
  assert (k = Nat.min (Z.to_nat n) (length l)) as Hk by (unfold k; case_decide; lia).
  pose proof (copy_loop_ok (mk_Vector (Z.of_nat (length l)) (Z.of_nat (length (l ++ rest))) (Some (l ++ rest)))
    (l ++ rest) eq_refl k 0 (replicate (Z.to_nat n) zero)) as Hc.
  rewrite take_0 in Hc. simpl in Hc. rewrite Hc; [|rewrite ?length_app, ?length_replicate; lia..].
  simpl. rewrite take_app_le, drop_replicate by lia. do 4 f_equal.
  - rewrite Hk. destruct (decide (Z.to_nat n <= length l)%nat); [by rewrite Nat.min_l by lia|].
    by rewrite Nat.min_r, !take_ge by lia.
  - f_equal. lia.
Qed.

Lemma push_ok v l x : represents v l -> VectorCapacity v + 5 < 2 ^ 64 ->
  exists v', push_back zero v x = Ok v' /\ represents v' (l ++ [x]).
Proof.
  intros Hv Hc. unfold push_back.
  assert (exists cap d rest, (if decide (VectorCapacity v <= VectorSize v) then reserve zero v (u64 (VectorCapacity v + 5)) else Ok v)
    = Ok (mk_Vector (Z.of_nat (length l)) cap (Some (l ++ d :: rest))) /\ cap = Z.of_nat (length (l ++ d :: rest)) /\ cap < 2 ^ 64)
    as (cap & d & rest & -> & Hcap & Hlt).
  { assert (Z.of_nat (length l) <= VectorCapacity v) as Hle.
    { destruct (represents_cases v l Hv) as [[-> ->]|[rest ->]]; simpl; rewrite ?length_app; lia. }
    destruct Hv as [Hs Hv']. case_decide as D.
    - rewrite (wrapu_small 64) by lia. rewrite (reserve_ok v l) by (try done; lia).
      rewrite take_ge by lia.
      destruct (Z.to_nat (VectorCapacity v + 5) - length l)%nat as [|m] eqn:E; [lia|].
      eexists _, zero, (replicate m zero). split; [done|]. rewrite length_app. simpl. rewrite length_replicate. lia.
    - destruct (represents_cases v l (conj Hs Hv')) as [[-> ->]|[rest ->]]; simpl in *; [lia|].
      destruct rest as [|d rest]; [rewrite app_nil_r in D; lia|]. eexists _, d, rest. split; [done|]. lia. }
  cbn [bind buffer VectorBuffer VectorSize VectorCapacity]. rewrite Nat2Z.id, aset_app_r by done. simpl.
  eexists. split; [done|]. rewrite wrapu_small by (rewrite Hcap, length_app in Hlt; simpl in Hlt; lia).
  pose proof (represents_intro (l ++ [x]) rest) as Hr. rewrite <- app_assoc in Hr. simpl in Hr.
  replace (Z.of_nat (length l) + 1) with (Z.of_nat (length (l ++ [x]))) by (rewrite length_app; simpl; lia).
  replace cap with (Z.of_nat (length (l ++ x :: rest))) by (rewrite Hcap, !length_app; done). done.
Qed.

(** Growth is by five elements beyond the size. *)
Lemma push_capacity v v' x : 0 <= VectorCapacity v -> VectorCapacity v + 5 < 2 ^ 64 -> push_back zero v x = Ok v' ->
  VectorCapacity v' <= Z.max (VectorCapacity v) (VectorSize v + 5).
Proof.
  intros H0 Hc E. unfold push_back in E. case_decide.
  - rewrite wrapu_small in E by lia. unfold reserve in E. inv_bind. simpl. lia.
  - inv_bind. simpl. lia.
Qed.

Lemma pop_ok v l : represents v l -> 0 < VectorSize v < 2 ^ 64 -> represents (pop_back v) (take (length l - 1) l).
Proof.
  intros Hv Hs. destruct (represents_cases v l Hv) as [[-> ->]|[rest ->]]; simpl in *; [lia|].
  split; simpl; [rewrite wrapu_small, length_take by lia; lia|]. split; [done|].
  exists (drop (length l - 1) l ++ rest). by rewrite app_assoc, take_drop.
Qed.

Lemma reverse_ok v l : represents v l -> exists v', reverse v = Ok v' /\ represents v' (rev l).
Proof.
  intros Hv. pose proof Hv as [Hs _]. unfold reverse. case_decide as D.
  - exists v. split; [done|]. destruct l as [|x [|y l]]; simpl in *; [done..|lia].
  - destruct (represents_cases v l Hv) as [[-> ->]|[rest ->]]; simpl in *; [lia|].
    pose proof (vector_reverse_loop_ok (length l) [] l rest 0 (Z.to_nat (Z.of_nat (length l) - 1))) as E. simpl in E.
    rewrite Nat2Z.id, E by lia. simpl. eexists. split; [done|].
    split; simpl; [by rewrite length_rev|]. rewrite !length_app, length_rev. eauto.
Qed.

Lemma resize_ok v l n : represents v l -> 0 <= n ->
  exists v', resize zero v n = Ok v' /\ represents v' (take (Z.to_nat n) l ++ replicate (Z.to_nat n - length l) zero).
Proof.
  intros Hv Hn. unfold resize. rewrite (reserve_ok v l n Hv Hn). simpl. eexists. split; [done|].
  unfold represents. cbn [VectorSize VectorBuffer VectorCapacity]. rewrite length_app, length_take, length_replicate.
  split; [lia|]. split; [lia|]. exists []. by rewrite app_nil_r.
Qed.

Lemma remove_ok v l i : represents v l -> 0 <= i ->
  VectorSize v <= i \/ VectorSize v <= 1 \/ i + VectorSize v <= VectorCapacity v ->
  exists v', remove zero v i = Ok v' /\ represents v' (delete (Z.to_nat i) l).
Proof.
  intros Hv Hi Ha. pose proof Hv as [Hs _]. unfold remove. case_decide as D.
  { exists v. split; [done|]. by rewrite delete_take_drop, take_ge, drop_ge, app_nil_r by lia. }
  destruct (represents_cases v l Hv) as [[-> ->]|[rest ->]]; simpl in *; [lia|].
  set (P := Z.to_nat i). replace (Z.to_nat (Z.of_nat (length l) - 1)) with (length l - 1)%nat by lia.
  assert (P < length l)%nat as HP by lia.
  assert (P + length l <= length (l ++ rest) \/ length l = 1)%nat as Hcap by lia.
  set (w := take (length l - 1) (drop (S P) (l ++ rest))).
  assert (length w = (length l - 1)%nat) as Hw by (unfold w; rewrite length_take, length_drop; lia).
  rewrite aset_Ok by (rewrite length_app; lia). simpl.
  rewrite (insert_take_drop (l ++ rest) P zero) by (rewrite length_app; lia).
  rewrite <- (take_drop (length l - 1) (drop (S P) (l ++ rest))). fold w.
  rewrite <- Hw, remove_loop_ok by (rewrite length_take, length_app; lia). cbn [bind]. eexists. split; [done|].
  assert (take P (l ++ rest) = take P l) as -> by (by rewrite take_app_le by lia).
  assert (w = drop (S P) l ++ drop (length l - S P) w) as Ew.
  { rewrite <- (take_drop (length l - S P) w) at 1. f_equal. unfold w.
    rewrite take_take, Nat.min_l, drop_app_le by lia. rewrite take_app_le by (rewrite length_drop; lia).
    apply take_ge. rewrite length_drop. lia. }
  unfold represents. cbn [VectorSize VectorBuffer VectorCapacity]. rewrite delete_take_drop.
  rewrite length_app, length_take, length_drop. split; [lia|]. split.
  - f_equal. rewrite (length_app (take P l)), length_take, (length_app w). simpl. rewrite Hw, !length_drop, !length_app.
    rewrite length_app in Hcap. lia.
  - exists (drop (length l - S P) w ++ List.last (zero :: w) zero :: drop (length l - 1) (drop (S P) (l ++ rest))).
    rewrite Hw. rewrite Ew at 1. by rewrite <- !app_assoc.
Qed.

(** One operation. *)
Lemma vstep_ok o v l : represents v l -> VectorSize v < 2 ^ 64 -> allowed o v = true ->
  exists v', vstep zero o v = Ok v' /\ represents v' (lstep zero o l).
Proof.
  intros Hv Hlt Ha. pose proof Hv as [Hs _]. destruct o as [x| | |n|i|n|]; simpl in *.
  - apply push_ok; [done|]. by apply bool_decide_eq_true in Ha.
  - apply bool_decide_eq_true in Ha. eexists. split; [done|]. by apply pop_ok.
  - by apply reverse_ok.
  - apply bool_decide_eq_true in Ha. apply resize_ok; [done|lia].
  - apply andb_true_iff in Ha as [Hi Ha]. apply bool_decide_eq_true in Hi.
    apply remove_ok; [done..|]. apply orb_true_iff in Ha as [Ha|Ha]; apply bool_decide_eq_true in Ha; tauto.
  - apply bool_decide_eq_true in Ha. rewrite (reserve_ok v l n Hv) by lia. eexists. split; [done|].
    rewrite take_ge by lia. split; [done|]. simpl. split; [rewrite length_app, length_replicate; lia|eauto].
  - eexists. split; [done|]. split; done.
Qed.

(** The size stays below 2^64, so that no index wraps. *)
Lemma vstep_size o v v' l : represents v l -> VectorSize v < 2 ^ 64 -> allowed o v = true ->
  vstep zero o v = Ok v' -> represents v' (lstep zero o l) -> VectorSize v' < 2 ^ 64.
Proof.
  intros Hv Hlt Ha E [Hs' _]. pose proof Hv as [Hs Hb]. rewrite Hs'. rewrite Hs in Hlt.
  destruct o as [x| | |n|i|n|]; simpl in *.
  - apply bool_decide_eq_true in Ha. rewrite length_app. simpl.
    destruct (represents_cases v l Hv) as [[-> ->]|[rest ->]]; simpl in *; [lia|]. rewrite length_app in Ha. lia.
  - rewrite length_take. lia.
  - rewrite length_rev. lia.
  - apply bool_decide_eq_true in Ha. rewrite length_app, length_take, length_replicate. lia.
  - rewrite delete_take_drop, length_app, length_take, length_drop. lia.
  - lia.
  - lia.
Qed.
End lemmas.

(** ** Theorems *)

(** C32 Refinement: a program of pushes, pops, reversals, resizes, removals,
    reservations and clears that stays inside what the operations guarantee
    runs on the code's vector without a fault, whatever its length, and the
    vector then holds the list that the same program gives on lists. *)
Theorem vector_refines {T} (zero : T) os : forall v l,
  represents v l -> VectorSize v < 2 ^ 64 -> vrun zero os v <> None ->
  exists v', vrun zero os v = Some (Ok v') /\ represents v' (lrun zero os l) /\
    elements v' = Ok (lrun zero os l) /\ size v' = Z.of_nat (length (lrun zero os l)).
Proof.
  induction os as [|o os IH]; intros v l Hv Hlt Hr.
  - exists v. split_and!; [done..| |by destruct Hv]. unfold lrun. simpl.
    destruct (represents_cases v l Hv) as [[-> ->]|[rest ->]]; unfold elements; simpl; [done|].
    rewrite decide_True by (rewrite length_app; lia). by rewrite Nat2Z.id, take_app_length.
  - simpl in *. destruct (allowed o v) eqn:Ha; [|done].
    destruct (vstep_ok zero o v l Hv Hlt Ha) as (v' & E & Hv').
    pose proof (vstep_size zero o v v' l Hv Hlt Ha E Hv') as Hlt'. rewrite E in *. by apply IH.
Qed.

Lemma vector_refines_witness : exists v', vrun 0 [Push 7; Push 8; Remove 1; Reverse] Vector_new = Some (Ok v') /\
  represents v' [7] /\ elements v' = Ok [7] /\ size v' = 1.
Proof.
  apply (vector_refines 0 [Push 7; Push 8; Remove 1; Reverse] Vector_new []);
    [split; [reflexivity|split; reflexivity]|reflexivity|vm_compute; discriminate].
Defined.

(** Error: a removal at a position with too few spare elements behind the
    vector leaves the buffer, because the loop of [remove] runs [size - 1]
    times from the position on instead of up to the end; removing the last
    element of a full vector is an instance. *)
Theorem remove_overruns {T} (zero : T) v l i :
  represents v l -> 0 <= i < size v -> 1 < size v -> capacity v < i + size v ->
  remove zero v i = Err OutOfBounds.
Proof.
  unfold size, capacity. intros Hv Hi Hs Hc. unfold remove. rewrite decide_False by lia.
  destruct (represents_cases v l Hv) as [[-> ->]|[rest ->]]; simpl in *; [lia|].
  rewrite aset_Ok by (rewrite length_app; lia). simpl. rewrite length_app in Hc.
  rewrite remove_loop_oob; [done|rewrite ?length_insert, ?length_app; lia..].
Qed.

Lemma remove_overruns_witness :
  remove 0 (mk_Vector 5 5 (Some [1; 2; 3; 4; 5])) 4 = Err OutOfBounds.
Proof.
  apply (remove_overruns 0 _ [1; 2; 3; 4; 5]); [|vm_compute; intuition congruence..].
  split; [reflexivity|]. split; [reflexivity|]. exists []. reflexivity.
Defined.

(** Error: a copy of a vector has the capacity of the original and a
    buffer of its size only, so that pushing onto a copy of a vector that
    has spare elements writes past the buffer. *)
Theorem copy_push_overruns {T} (zero : T) v l x :
  represents v l -> size v < capacity v ->
  exists c, Vector_copy zero v = Ok c /\ elements c = Ok l /\ push_back zero c x = Err OutOfBounds.
Proof.
  unfold size, capacity. intros Hv Hs. unfold Vector_copy.
  destruct (represents_cases v l Hv) as [[-> ->]|[rest ->]]; simpl in *; [lia|].
  pose proof (copy_loop_ok (mk_Vector (Z.of_nat (length l)) (Z.of_nat (length (l ++ rest))) (Some (l ++ rest)))
    (l ++ rest) eq_refl (length l) 0 (replicate (length l) zero)) as Hc. rewrite take_0 in Hc. simpl in Hc.
  rewrite Nat2Z.id, Hc by (rewrite ?length_app, ?length_replicate; lia).
  simpl. rewrite take_app_length, drop_ge, app_nil_r by (rewrite length_replicate; lia).
  eexists. split; [done|]. unfold elements, push_back. cbn [VectorBuffer VectorSize VectorCapacity].
  rewrite decide_True, take_ge by lia. split; [done|]. rewrite decide_False by lia. simpl.
  by rewrite aset_oob by lia.
Qed.

Lemma copy_push_overruns_witness : exists c,
  Vector_copy 0 (mk_Vector 1 5 (Some [9; 0; 0; 0; 0])) = Ok c /\ elements c = Ok [9] /\ push_back 0 c 3 = Err OutOfBounds.
Proof.
  apply (copy_push_overruns 0 (mk_Vector 1 5 (Some [9; 0; 0; 0; 0])) [9]); [|reflexivity].
  split; [reflexivity|]. split; [reflexivity|]. exists [0; 0; 0; 0]. reflexivity.
Defined.

Example run_1 : option_map (fun r => let* w := r in elements w)
  (vrun 0 [Push 1; Push 2; Push 3; Push 4; Push 5; Push 6; Reverse; Remove 2; Pop] Vector_new)
  = Some (Ok [6; 5; 3; 2]).
Proof. vm_compute. reflexivity. Qed.
