(* ===== verification/HashMap.v ===== *)
(** * The kernel's hash map

    src/kernel/include/hashmap.hpp at the instance the kernel uses, the IPC
    ports of a process: keys are [unsigned int], values [uint64_t] with 0 for
    "nothing".  The table has twenty slots and does not grow; a slot is null
    or holds a node, a deleted node is replaced by [DummyNode], whose key is
    -1, that is 2^32 - 1.  Collisions go to the next slot.

    The table refines a finite map under the operations, as long as a new key
    finds a free slot, a key set again has no deleted node before it, and the
    search for a key to delete ends; the cases outside are theorems: a
    twenty-first key hangs the kernel, and so does the deletion of a key that is
    not there when no slot is null; a key can come back after it was deleted. *)

From stdpp Require Import gmap.
From S2P Require Import Prelude.

Local Open Scope Z_scope.

(** ** Definitions *)

Record HashNode := mk_HashNode { Key : Z; Value : Z }.

Record HashMap := mk_HashMap {
  HashMapSize : Z;
  HashMapCapacity : nat;
  Nodes : list (option HashNode)
}.

(** The key that the code writes -1. *)
Definition DUMMY_KEY : Z := u32 (-1).
Definition DummyNode : HashNode := mk_HashNode DUMMY_KEY (u64 (-1)).

Definition HashMap_new : HashMap := mk_HashMap 0 20 (replicate 20 None).

Definition HashCode (h : HashMap) (key : Z) : nat := Z.to_nat (key mod Z.of_nat (HashMapCapacity h)).

(** [Index++; Index %= HashMapCapacity]. *)
Definition next_index (h : HashMap) (Index : nat) : nat := (S Index mod HashMapCapacity h)%nat.

(** The loop of [AddNode]: the slot it stops at. *)
Fixpoint add_probe (h : HashMap) (key : Z) (Index fuel : nat) : res nat :=
  match fuel with
  | O => Err OutOfFuel
  | S f =>
      let* slot := aget (Nodes h) Index in
      match slot with
      | None => Ok Index
      | Some n =>
          if decide (Key n <> key /\ Key n <> DUMMY_KEY) then add_probe h key (next_index h Index) f
          else Ok Index
      end
  end.

(** [fuel]: no slot needs to be visited twice. *)
Definition AddNode (h : HashMap) (key value : Z) (fuel : nat) : res HashMap :=
  let* Index := add_probe h key (HashCode h key) fuel in
  let* slot := aget (Nodes h) Index in
  let Size := match slot with
              | None => s32 (HashMapSize h + 1)
              | Some n => if decide (Key n = DUMMY_KEY) then s32 (HashMapSize h + 1) else HashMapSize h
              end in
  let* ns := aset (Nodes h) Index (Some (mk_HashNode key value)) in
  Ok (mk_HashMap Size (HashMapCapacity h) ns).

(** The loop of [DeleteNode]: the node with the key, or a null slot. *)
Fixpoint delete_probe (h : HashMap) (key : Z) (Index fuel : nat) : res (option (nat * HashNode)) :=
  match fuel with
  | O => Err OutOfFuel
  | S f =>
      let* slot := aget (Nodes h) Index in
      match slot with
      | None => Ok None
      | Some n =>
          if decide (Key n = key) then Ok (Some (Index, n))
          else delete_probe h key (next_index h Index) f
      end
  end.

Definition DeleteNode (h : HashMap) (key : Z) (fuel : nat) : res (HashMap * Z) :=
  let* r := delete_probe h (u32 key) (HashCode h (u32 key)) fuel in
  match r with
  | None => Ok (h, 0)
  | Some (Index, tmp) =>
      let* ns := aset (Nodes h) Index (Some DummyNode) in
      Ok (mk_HashMap (s32 (HashMapSize h - 1)) (HashMapCapacity h) ns, Value tmp)
  end.

(** [Get] counts its steps. *)
Fixpoint get_probe (h : HashMap) (key : Z) (Index Iterate fuel : nat) : res Z :=
  match fuel with
  | O => Err OutOfFuel
  | S f =>
      let* slot := aget (Nodes h) Index in
      match slot with
      | None => Ok 0
      | Some n =>
          if decide (HashMapCapacity h < Iterate)%nat then Ok 0
          else if decide (Key n = key) then Ok (Value n)
          else get_probe h key (next_index h Index) (S Iterate) f
      end
  end.

Definition Get (h : HashMap) (key : Z) : res Z :=
  get_probe h (u32 key) (HashCode h (u32 key)) 0 (HashMapCapacity h + 2).

Definition Size (h : HashMap) : Z := HashMapSize h.
Definition IsEmpty (h : HashMap) : bool := bool_decide (HashMapSize h = 0).

(** ** The finite map of a table *)

(** Whether a slot is free, and what it holds. *)
Definition free (s : option HashNode) : bool :=
  match s with
  | None => true
  | Some n => bool_decide (Key n = DUMMY_KEY)
  end.

Definition holds (key : Z) (s : option HashNode) : bool :=
  match s with
  | None => false
  | Some n => bool_decide (Key n = key)
  end.

Definition present (h : HashMap) (key : Z) : bool := existsb (holds key) (Nodes h).

(** The slot at distance [d] from the first one for [key]. *)
Definition place (key : Z) (d : nat) : nat := ((Z.to_nat (key mod 20) + d) mod 20)%nat.

Record table (h : HashMap) (m : gmap Z Z) : Prop := {
  table_capacity : HashMapCapacity h = 20%nat;
  table_length : length (Nodes h) = 20%nat;
  table_size : HashMapSize h = Z.of_nat (size m);
  (** Live nodes are the entries of the map, *)
  table_live j n : Nodes h !! j = Some (Some n) -> Key n <> DUMMY_KEY -> m !! Key n = Some (Value n);
  table_stored k v : m !! k = Some v -> exists j, Nodes h !! j = Some (Some (mk_HashNode k v));
  table_keys k v : m !! k = Some v -> 0 <= k < DUMMY_KEY;
  (** each at one place, *)
  table_unique i j n n' : Nodes h !! i = Some (Some n) -> Nodes h !! j = Some (Some n') ->
    Key n = Key n' -> Key n <> DUMMY_KEY -> i = j;
  (** with no null slot before it. *)
  table_path j n d : Nodes h !! j = Some (Some n) -> Key n <> DUMMY_KEY ->
    j = place (Key n) d -> (d < 20)%nat ->
    forall e, (e < d)%nat -> exists n', Nodes h !! place (Key n) e = Some (Some n')
}.

(** ** Programs *)

Inductive hop := Add (k v : Z) | Del (k : Z) | Look (k : Z).

(** One operation on the table and on the map. *)
Definition hstep (o : hop) (h : HashMap) : res (HashMap * Z) :=
  match o with
  | Add k v => let* h' := AddNode h k v 20 in Ok (h', 0)
  | Del k => DeleteNode h k 20
  | Look k => let* v := Get h k in Ok (h, v)
  end.

Definition mstep (o : hop) (m : gmap Z Z) : gmap Z Z * Z :=
  match o with
  | Add k v => (<[k := v]> m, 0)
  | Del k => (delete k m, default 0 (m !! k))
  | Look k => (m, default 0 (m !! k))
  end.

(** What is in the first slot, from that of its hash code on, that is free or
    has the key. *)
Definition first_stop (h : HashMap) (k : Z) : option (option HashNode) :=
  head (List.filter (fun s => free s || holds k s) (omap (fun d => Nodes h !! place k d) (seq 0 20))).

(** Keys are not -1; an insertion meets its key or, if the key is not there, a
    free slot; a deletion finds its key or a null slot. *)
Definition hallowed (o : hop) (h : HashMap) : bool :=
  match o with
  | Add k _ => bool_decide (0 <= k < DUMMY_KEY) &&
      match first_stop h k with Some s => holds k s || negb (present h k) | None => false end
  | Del k => bool_decide (0 <= k < DUMMY_KEY) && (present h k || existsb (fun s => bool_decide (s = None)) (Nodes h))
  | Look k => bool_decide (0 <= k < DUMMY_KEY)
  end.

Fixpoint hrun (os : list hop) (h : HashMap) : option (res (HashMap * list Z)) :=
  match os with
  | [] => Some (Ok (h, []))
  | o :: os =>
      if hallowed o h then
        match hstep o h with
        | Ok (h', r) =>
            match hrun os h' with
            | Some (Ok (h'', rs)) => Some (Ok (h'', r :: rs))
            | x => x
            end
        | Err e => Some (Err e)
        end
      else None
  end.

Fixpoint mrun (os : list hop) (m : gmap Z Z) : gmap Z Z * list Z :=
  match os with
  | [] => (m, [])
  | o :: os => let '(m', r) := mstep o m in let '(m'', rs) := mrun os m' in (m'', r :: rs)
  end.

(** ** Helper lemmas *)

Lemma place_lt k d : (place k d < 20)%nat.
Proof. apply Nat.mod_upper_bound. lia. Qed.

Lemma place_0 k : place k 0 = Z.to_nat (k mod 20).
Proof.
  unfold place. rewrite Nat.add_0_r. apply Nat.mod_small. pose proof (Z.mod_pos_bound k 20 ltac:(lia)). lia.
Qed.

Lemma place_next k d : (S (place k d) mod 20)%nat = place k (S d).
Proof.
  unfold place. rewrite <- Nat.add_1_r, Nat.Div0.add_mod_idemp_l. f_equal. lia.
Qed.

Lemma place_cases k d : (d < 20)%nat ->
  place k d = (Z.to_nat (k mod 20) + d)%nat \/ place k d = (Z.to_nat (k mod 20) + d - 20)%nat /\ (20 <= Z.to_nat (k mod 20) + d)%nat.
Proof.
  intros Hd. unfold place. pose proof (Z.mod_pos_bound k 20 ltac:(lia)). set (b := Z.to_nat (k mod 20)) in *.
  destruct (decide (b + d < 20)%nat); [left; by apply Nat.mod_small|right]. split; [|lia].
  replace (b + d)%nat with ((b + d - 20) + 1 * 20)%nat by lia. rewrite Nat.Div0.mod_add.
  rewrite Nat.mod_small by lia. lia.
Qed.

Lemma place_inj k d e : (d < 20)%nat -> (e < 20)%nat -> place k d = place k e -> d = e.
Proof.
  intros Hd He E. pose proof (place_lt k d). pose proof (place_lt k e).
  destruct (place_cases k d Hd), (place_cases k e He); lia.
Qed.

Lemma place_dist k j : (j < 20)%nat -> exists d, (d < 20)%nat /\ place k d = j.
Proof.
  intros Hj. pose proof (Z.mod_pos_bound k 20 ltac:(lia)).
  destruct (decide (Z.to_nat (k mod 20) <= j)%nat).
  - exists (j - Z.to_nat (k mod 20))%nat. pose proof (place_cases k (j - Z.to_nat (k mod 20)) ltac:(lia)). lia.
  - exists (20 + j - Z.to_nat (k mod 20))%nat.
    pose proof (place_cases k (20 + j - Z.to_nat (k mod 20)) ltac:(lia)).
    pose proof (place_lt k (20 + j - Z.to_nat (k mod 20))). lia.
Qed.

(** The first index with a property. *)
Lemma first_index (P : nat -> bool) n :
  (exists d, (d < n)%nat /\ P d = true) ->
  exists d, (d < n)%nat /\ P d = true /\ forall e, (e < d)%nat -> P e = false.
Proof.
  induction n as [|n IH]; intros (d & Hd & HP); [lia|].
  destruct (decide (Exists (fun e => P e = true) (seq 0 n))) as [Hex|Hno].
  - apply Exists_exists in Hex as (e & He & HPe). apply elem_of_seq in He.
    destruct IH as (c & ? & ? & ?); [exists e; split; [lia|done]|]. exists c. split_and!; [lia|done..].
  - exists d. split_and!; [done..|]. intros e He. destruct (P e) eqn:E; [|done]. destruct Hno.
    apply Exists_exists. exists e. split; [apply elem_of_seq; lia|done].
Qed.

Section probing.
Context (h : HashMap) (Hc : HashMapCapacity h = 20%nat).

Abbreviation slot j := (Nodes h !! j).

Lemma add_probe_ok k e : forall d fuel, (e < fuel)%nat ->
  (forall i, (i < e)%nat -> exists n, slot (place k (d + i)) = Some (Some n) /\ Key n <> k /\ Key n <> DUMMY_KEY) ->
  (exists s, slot (place k (d + e)) = Some s /\ (free s || holds k s = true)) ->
  add_probe h k (place k d) fuel = Ok (place k (d + e)).
Proof.
  induction e as [|e IH]; intros d [|f] Hf Hb He; [lia| |lia|]; simpl.
  - rewrite Nat.add_0_r in *. destruct He as (s & Hs & Hst). rewrite (proj2 (aget_Ok _ _ _) Hs). cbn [bind].
    destruct s as [n|]; [|done]. simpl in Hst. apply orb_true_iff in Hst.
    rewrite decide_False; [done|]. rewrite !bool_decide_eq_true in Hst. tauto.
  - destruct (Hb 0%nat ltac:(lia)) as (n & Hn & ? & ?). rewrite Nat.add_0_r in Hn.
    rewrite (proj2 (aget_Ok _ _ _) Hn). cbn [bind]. rewrite decide_True by done.
    unfold next_index. rewrite Hc, place_next, (IH (S d)).
    + f_equal. f_equal. lia.
    + lia.
    + intros i Hi. destruct (Hb (S i)) as (n' & Hn' & ?); [lia|]. exists n'. by replace (S d + i)%nat with (d + S i)%nat by lia.
    + by replace (S d + e)%nat with (d + S e)%nat by lia.
Qed.

Lemma delete_probe_ok k e : forall d fuel, (e < fuel)%nat ->
  (forall i, (i < e)%nat -> exists n, slot (place k (d + i)) = Some (Some n) /\ Key n <> k) ->
  forall s, slot (place k (d + e)) = Some s -> (s = None \/ holds k s = true) ->
  delete_probe h k (place k d) fuel = Ok (match s with None => None | Some n => Some (place k (d + e), n) end).
Proof.
  induction e as [|e IH]; intros d [|f] Hf Hb s Hs Hst; [lia| |lia|]; simpl.
  - rewrite Nat.add_0_r in *. rewrite (proj2 (aget_Ok _ _ _) Hs). cbn [bind].
    destruct s as [n|]; [|done]. destruct Hst as [|Hst]; [done|]. apply bool_decide_eq_true in Hst.
    by rewrite decide_True.
  - destruct (Hb 0%nat ltac:(lia)) as (n & Hn & ?). rewrite Nat.add_0_r in Hn.
    rewrite (proj2 (aget_Ok _ _ _) Hn). cbn [bind]. rewrite decide_False by done.
    unfold next_index. rewrite Hc, place_next. replace (d + S e)%nat with (S d + e)%nat in * by lia.
    apply IH; [lia| |done..].
    intros i Hi. destruct (Hb (S i)) as (n' & Hn' & ?); [lia|]. exists n'. by replace (S d + i)%nat with (d + S i)%nat by lia.
Qed.

Lemma get_probe_ok k e : forall d fuel, (e < fuel)%nat -> (d + e <= 20)%nat ->
  (forall i, (i < e)%nat -> exists n, slot (place k (d + i)) = Some (Some n) /\ Key n <> k) ->
  forall s, slot (place k (d + e)) = Some s -> (s = None \/ holds k s = true) ->
  get_probe h k (place k d) d fuel = Ok (match s with None => 0 | Some n => Value n end).
Proof.
  induction e as [|e IH]; intros d [|f] Hf Hd Hb s Hs Hst; [lia| |lia|]; simpl.
  - rewrite Nat.add_0_r in *. rewrite (proj2 (aget_Ok _ _ _) Hs). cbn [bind].
    destruct s as [n|]; [|done]. destruct Hst as [|Hst]; [done|]. apply bool_decide_eq_true in Hst.
    rewrite decide_False by lia. by rewrite decide_True.
  - destruct (Hb 0%nat ltac:(lia)) as (n & Hn & ?). rewrite Nat.add_0_r in Hn.
    rewrite (proj2 (aget_Ok _ _ _) Hn). cbn [bind]. rewrite decide_False, decide_False by (done || lia).
    unfold next_index. rewrite Hc, place_next. replace (d + S e)%nat with (S d + e)%nat in * by lia.
    apply IH; [lia|lia| |done..].
    intros i Hi. destruct (Hb (S i)) as (n' & Hn' & ?); [lia|]. exists n'. by replace (S d + i)%nat with (d + S i)%nat by lia.
Qed.

(** In a table full of other keys, every search goes on as long as its fuel. *)
Lemma add_probe_hangs k : (forall i, exists n, slot (place k i) = Some (Some n) /\ Key n <> k /\ Key n <> DUMMY_KEY) ->
  forall fuel d, add_probe h k (place k d) fuel = Err OutOfFuel.
Proof.
  intros Hb. induction fuel as [|f IH]; intros d; [done|]. simpl. destruct (Hb d) as (n & Hn & ? & ?).
  rewrite (proj2 (aget_Ok _ _ _) Hn). cbn [bind]. rewrite decide_True by done.
  unfold next_index. by rewrite Hc, place_next.
Qed.

Lemma delete_probe_hangs k : (forall i, exists n, slot (place k i) = Some (Some n) /\ Key n <> k) ->
  forall fuel d, delete_probe h k (place k d) fuel = Err OutOfFuel.
Proof.
  intros Hb. induction fuel as [|f IH]; intros d; [done|]. simpl. destruct (Hb d) as (n & Hn & ?).
  rewrite (proj2 (aget_Ok _ _ _) Hn). cbn [bind]. rewrite decide_False by done.
  unfold next_index. by rewrite Hc, place_next.
Qed.

Lemma get_probe_full k : (forall i, exists n, slot (place k i) = Some (Some n) /\ Key n <> k) ->
  forall fuel d, (d <= 21)%nat -> (21 - d < fuel)%nat -> get_probe h k (place k d) d fuel = Ok 0.
Proof.
  intros Hb. induction fuel as [|f IH]; intros d Hd Hf; [lia|]. simpl. destruct (Hb d) as (n & Hn & ?).
  rewrite (proj2 (aget_Ok _ _ _) Hn). cbn [bind]. rewrite Hc. case_decide as D; [done|].
  rewrite decide_False by done. unfold next_index. rewrite Hc, place_next. apply IH; lia.
Qed.
End probing.

(** ** Tables *)

Lemma existsb_slot {A} (p : A -> bool) (l : list A) :
  existsb p l = true <-> exists j x, l !! j = Some x /\ p x = true.
Proof.
  rewrite existsb_exists. split.
  - intros (x & Hx & Hp). apply list_elem_of_In, list_elem_of_lookup in Hx as [j Hj]. eauto.
  - intros (j & x & Hj & Hp). exists x. split; [|done]. by apply list_elem_of_In, list_elem_of_lookup_2 with j.
Qed.

Lemma size_list_to_set_le (l : list Z) : (size (list_to_set l : gset Z) <= length l)%nat.
Proof.
  induction l as [|x l IH]; [done|]. rewrite list_to_set_cons. cbn [length].
  pose proof (size_union_alt ({[x]} : gset Z) (list_to_set l)) as H. rewrite size_singleton in H.
  pose proof (subseteq_size (list_to_set l ∖ {[x]} : gset Z) (list_to_set l) ltac:(set_solver)). lia.
Qed.

Lemma length_omap_le {A B} (f : A -> option B) (l : list A) : (length (omap f l) <= length l)%nat.
Proof.
  induction l as [|x l IH]; [done|]. change (omap f (x :: l)) with (match f x with Some y => y :: omap f l | None => omap f l end).
  destruct (f x); cbn [length]; lia.
Qed.

Section tables.
Context (h : HashMap) (m : gmap Z Z) (Ht : table h m).

Lemma slot_exists j : (j < 20)%nat -> exists s, Nodes h !! j = Some s.
Proof. intros Hj. apply lookup_lt_is_Some_2. by rewrite (table_length h m Ht). Qed.

Lemma table_fits : (size m <= 20)%nat.
Proof.
  assert (dom m ⊆ (list_to_set (omap (option_map Key) (Nodes h)) : gset Z)) as Hsub.
  { intros k [v Hv]%elem_of_dom. destruct (table_stored h m Ht k v Hv) as [j Hj].
    apply elem_of_list_to_set, list_elem_of_omap. exists (Some (mk_HashNode k v)).
    split; [by apply list_elem_of_lookup_2 with j|done]. }
  apply subseteq_size in Hsub. rewrite size_dom in Hsub. etrans; [exact Hsub|].
  etrans; [apply size_list_to_set_le|].
  rewrite <- (table_length h m Ht). apply length_omap_le.
Qed.

Lemma table_absent k j n : m !! k = None -> k <> DUMMY_KEY -> Nodes h !! j = Some (Some n) -> Key n <> k.
Proof. intros Hk Hd Hj <-. by rewrite (table_live h m Ht j n Hj Hd) in Hk. Qed.

Lemma present_spec k : k <> DUMMY_KEY -> present h k = bool_decide (is_Some (m !! k)).
Proof.
  intros Hd. apply eq_true_iff_eq. rewrite bool_decide_eq_true. unfold present. rewrite existsb_slot. split.
  - intros (j & [n|] & Hj & Hn); [|done]. apply bool_decide_eq_true in Hn. subst k.
    rewrite (table_live h m Ht j n Hj Hd). eauto.
  - intros [v Hv]. destruct (table_stored h m Ht k v Hv) as [j Hj]. exists j, (Some (mk_HashNode k v)).
    split; [done|]. by apply bool_decide_eq_true.
Qed.

(** Where a stored key is found. *)
Lemma table_find k v : m !! k = Some v -> exists d, (d < 20)%nat /\
  Nodes h !! place k d = Some (Some (mk_HashNode k v)) /\
  forall e, (e < d)%nat -> exists n, Nodes h !! place k e = Some (Some n) /\ Key n <> k.
Proof.
  intros Hv. pose proof (table_keys h m Ht k v Hv) as Hk. destruct (table_stored h m Ht k v Hv) as [j Hj].
  assert (j < 20)%nat as Hj20 by (rewrite <- (table_length h m Ht); by eapply lookup_lt_Some).
  destruct (place_dist k j Hj20) as (d & Hd & <-). exists d. split_and!; [done..|].
  intros e He. destruct (table_path h m Ht _ _ d Hj) with e as [n Hn]; simpl; [lia|done..|].
  exists n. split; [done|]. intros E.
  pose proof (table_unique h m Ht _ _ n _ Hn Hj E ltac:(lia)) as Ep. apply place_inj in Ep; lia.
Qed.

(** A search for an absent key passes other keys up to a slot that stops it. *)
Lemma table_stop (P : option HashNode -> bool) :
  existsb P (Nodes h) = true -> forall k, exists d, (d < 20)%nat /\
  (exists s, Nodes h !! place k d = Some s /\ P s = true) /\
  forall e, (e < d)%nat -> exists s, Nodes h !! place k e = Some s /\ P s = false.
Proof.
  intros (j & s & Hj & Hs)%existsb_slot k.
  assert (j < 20)%nat as Hj20 by (rewrite <- (table_length h m Ht); by eapply lookup_lt_Some).
  destruct (place_dist k j Hj20) as (d & Hd & <-).
  destruct (first_index (fun e => match Nodes h !! place k e with Some s => P s | None => false end) 20) as (c & Hc & HPc & Hb).
  { exists d. by rewrite Hj. }
  exists c. destruct (slot_exists (place k c) (place_lt k c)) as [s' Hs']. rewrite Hs' in HPc.
  split_and!; [done|eauto|]. intros e He. specialize (Hb e He).
  destruct (slot_exists (place k e) (place_lt k e)) as [s'' Hs'']. rewrite Hs'' in Hb. eauto.
Qed.

Lemma existsb_none_slot (P : option HashNode -> bool) j : existsb P (Nodes h) = false -> (j < 20)%nat ->
  exists s, Nodes h !! j = Some s /\ P s = false.
Proof.
  intros Hn Hj. destruct (slot_exists j Hj) as [s Hs]. exists s. split; [done|]. destruct (P s) eqn:E; [|done].
  enough (existsb P (Nodes h) = true) by congruence. apply existsb_slot. eauto.
Qed.

Lemma HashCode_place k : HashCode h k = place k 0.
Proof. unfold HashCode. by rewrite (table_capacity h m Ht), place_0. Qed.

Lemma Get_table_ok k : 0 <= k < DUMMY_KEY -> Get h k = Ok (default 0 (m !! k)).
Proof.
  intros Hk. assert (DUMMY_KEY < 2 ^ 32) by done. unfold Get. rewrite wrapu_small by lia. rewrite HashCode_place.
  pose proof (table_capacity h m Ht) as Hc. rewrite Hc. destruct (m !! k) as [v|] eqn:Hv; cbn [from_option id].
  - destruct (table_find k v Hv) as (d & Hd & Hs & Hb).
    exact (get_probe_ok h Hc k d 0 22 ltac:(lia) ltac:(lia) Hb _ Hs (or_intror (bool_decide_eq_true_2 _ eq_refl))).
  - destruct (existsb (fun s => bool_decide (s = None)) (Nodes h)) eqn:E.
    + destruct (table_stop _ E k) as (d & Hd & (s & Hs & HPs) & Hb). apply bool_decide_eq_true in HPs. subst s.
      refine (get_probe_ok h Hc k d 0 22 ltac:(lia) ltac:(lia) _ _ Hs (or_introl eq_refl)).
      intros e He. destruct (Hb e He) as ([n|] & Hn & Hne); [|by apply bool_decide_eq_false in Hne].
      exists n. split; [done|]. apply (table_absent k _ n Hv ltac:(lia) Hn).
    + apply (get_probe_full h Hc k); [|lia..]. intros i.
      destruct (existsb_none_slot _ (place k i) E (place_lt k i)) as ([n|] & Hn & Hne); [|by apply bool_decide_eq_false in Hne].
      exists n. split; [done|]. apply (table_absent k _ n Hv ltac:(lia) Hn).
Qed.
End tables.

Lemma list_filter_none {A} (p : A -> bool) (l : list A) : (forall x, x ∈ l -> p x = false) -> List.filter p l = [].
Proof. intros H. induction l as [|x l IH]; [done|]. cbn. rewrite H by left. apply IH. intros y Hy. apply H. by right. Qed.

(** ** The operations on tables *)

Section updates.
Context (h : HashMap) (m : gmap Z Z) (Ht : table h m).

Lemma first_stop_at k s : first_stop h k = Some s -> exists d, (d < 20)%nat /\ Nodes h !! place k d = Some s /\
  free s || holds k s = true /\
  forall e, (e < d)%nat -> exists n, Nodes h !! place k e = Some (Some n) /\ Key n <> k /\ Key n <> DUMMY_KEY.
Proof.
  intros H. assert (exists c, (c < 20)%nat /\ exists s', Nodes h !! place k c = Some s' /\ free s' || holds k s' = true) as (c & Hc & s' & Hs' & Hstop).
  { apply head_Some_elem_of, list_elem_of_In, List.filter_In in H as [Hin Hf]. apply list_elem_of_In, list_elem_of_omap in Hin as (c & Hc & Hs).
    apply elem_of_seq in Hc. exists c. split; [lia|eauto]. }
  destruct (first_index (fun e => match Nodes h !! place k e with Some x => free x || holds k x | None => false end) 20) as (d & Hd & HP & Hb).
  { exists c. by rewrite Hs'. }
  destruct (slot_exists h m Ht (place k d) (place_lt k d)) as [x Hx]. rewrite Hx in HP.
  assert (s = x) as ->.
  { clear c Hc s' Hs' Hstop. revert H. unfold first_stop. replace 20%nat with (d + S (19 - d))%nat by lia. rewrite seq_app, omap_app, List.filter_app. cbn [Nat.add seq omap list_omap].
    replace (List.filter _ (omap _ (seq 0 d))) with (@nil (option HashNode)).
    - rewrite Hx. cbn. rewrite HP. cbn. by intros [= ->].
    - symmetry. rewrite <- (list_filter_none (fun s => free s || holds k s) (omap (fun d => Nodes h !! place k d) (seq 0 d))); [done|].
      intros y (e & He & Hy)%list_elem_of_omap. apply elem_of_seq in He. specialize (Hb e ltac:(lia)). by rewrite Hy in Hb. }
  exists d. split_and!; [done..|]. intros e He. specialize (Hb e He).
  destruct (slot_exists h m Ht (place k e) (place_lt k e)) as [y Hy]. rewrite Hy in Hb. apply orb_false_iff in Hb as [Hf Hh].
  destruct y as [n|]; [|done]. exists n. split; [done|]. apply bool_decide_eq_false in Hf. by apply bool_decide_eq_false in Hh.
Qed.

(** A node stored where a search for its key stops. *)
Lemma table_set k v d s :
  0 <= k < DUMMY_KEY -> (d < 20)%nat -> Nodes h !! place k d = Some s ->
  (forall e, (e < d)%nat -> exists n, Nodes h !! place k e = Some (Some n)) ->
  (free s = true /\ m !! k = None \/ exists v', s = Some (mk_HashNode k v') /\ m !! k = Some v') ->
  table (mk_HashMap (Z.of_nat (base.size (<[k := v]> m))) 20 (<[place k d := Some (mk_HashNode k v)]> (Nodes h))) (<[k := v]> m).
Proof.
  intros Hk Hd Hs Hb Hcase.
  assert (forall j n, j <> place k d -> Nodes h !! j = Some (Some n) -> Key n <> k) as Hother.
  { intros j n Hj Hn <-. destruct Hcase as [[_ Hm]|(v' & -> & Hm)].
    - eapply table_absent; eauto. lia.
    - apply Hj. apply (table_unique h m Ht _ _ n _ Hn Hs); simpl; [done|lia]. }
  assert (place k d < length (Nodes h))%nat as Hlt by (rewrite (table_length h m Ht); apply place_lt).
  split; cbn [HashMapCapacity HashMapSize Nodes]; [done|by rewrite length_insert, (table_length h m Ht)|done|..].
  - intros j n Hj Hn. apply list_lookup_insert_Some in Hj as [(<- & [= <-] & _)|[Hj Hj']]; simpl.
    + by rewrite lookup_insert_eq.
    + rewrite lookup_insert_ne; [by apply (table_live h m Ht j)|]. symmetry. apply (Hother j); [done..].
  - intros k' v' Hv'. apply lookup_insert_Some in Hv' as [[<- <-]|[Hne Hv']].
    + exists (place k d). by rewrite list_lookup_insert_eq.
    + destruct (table_stored h m Ht k' v' Hv') as [j Hj]. exists j.
      rewrite list_lookup_insert_ne; [done|]. intros <-. rewrite Hs in Hj. injection Hj as ->.
      pose proof (table_keys h m Ht k' v' Hv'). destruct Hcase as [[Hf _]|(w & [= -> ->] & _)]; [|done].
      simpl in Hf. apply bool_decide_eq_true in Hf. lia.
  - intros k' v' Hv'. apply lookup_insert_Some in Hv' as [[<- <-]|[Hne Hv']]; [done|by eapply (table_keys h m Ht)].
  - intros i j n n' Hi Hj E Hn.
    apply list_lookup_insert_Some in Hi as [(<- & [= <-] & _)|[Hi Hi']];
      apply list_lookup_insert_Some in Hj as [(<- & [= <-] & _)|[Hj Hj']]; simpl in *; [done|..].
    + destruct (Hother j n' ltac:(done) Hj'). done.
    + destruct (Hother i n ltac:(done) Hi'). done.
    + by apply (table_unique h m Ht i j n n').
  - intros j n d' Hj Hn Ej Hd' e He.
    destruct (decide (place k d = place (Key n) e)) as [<-|Hne]; [exists (mk_HashNode k v); by apply list_lookup_insert_eq|].
    rewrite list_lookup_insert_ne by done.
    apply list_lookup_insert_Some in Hj as [(<- & [= <-] & _)|[Hj Hj']]; simpl in *.
    + apply place_inj in Ej as ->; [|done..]. by apply Hb.
    + by apply (table_path h m Ht j n d').
Qed.

Lemma AddNode_ok k v : hallowed (Add k v) h = true ->
  exists h', AddNode h k v 20 = Ok h' /\ table h' (<[k := v]> m).
Proof.
  intros [Hk Ha]%andb_true_iff. apply bool_decide_eq_true in Hk. pose proof (table_capacity h m Ht) as Hc.
  pose proof (table_fits h m Ht) as Hfit. destruct (first_stop h k) as [s|] eqn:Hst; [|done].
  destruct (first_stop_at k s Hst) as (d & Hd & Hs & Hstop & Hb).
  rewrite (present_spec h m Ht) in Ha by lia. unfold AddNode. rewrite (HashCode_place h m Ht).
  rewrite (add_probe_ok h Hc k d 0 20) by first [lia|eauto]. cbn [Nat.add bind].
  assert (free s = true /\ m !! k = None \/ exists v', s = Some (mk_HashNode k v') /\ m !! k = Some v') as Hcase.
  { destruct (holds k s) eqn:Hh.
    - right. destruct s as [[k' v']|]; [|done]. apply bool_decide_eq_true in Hh. simpl in Hh. subst k'.
      exists v'. split; [done|]. by apply (table_live h m Ht _ _ Hs); simpl; [lia].
    - left. rewrite orb_false_r in Hstop. split; [done|]. apply eq_None_not_Some. simpl in Ha.
      by apply negb_true_iff, bool_decide_eq_false in Ha. }
  rewrite (proj2 (aget_Ok _ _ _) Hs). cbn [bind].
  rewrite aset_Ok by (rewrite (table_length h m Ht); apply place_lt). cbn [bind]. eexists. split; [done|].
  rewrite Hc. refine (eq_rect _ (fun x => table (mk_HashMap x 20 _) _) (table_set k v d s Hk Hd Hs _ Hcase) _ _).
  { intros e He. destruct (Hb e He) as (n & Hn & _). eauto. }
  rewrite (table_size h m Ht). destruct Hcase as [[Hf Hm]|(v' & -> & Hm)].
  - rewrite map_size_insert_None by done. rewrite wraps_small by lia.
    destruct s as [n|]; simpl in Hf; [apply bool_decide_eq_true in Hf; rewrite decide_True by done|]; lia.
  - rewrite map_size_insert_Some by eauto. simpl. rewrite decide_False by lia. done.
Qed.

Lemma DeleteNode_ok k : hallowed (Del k) h = true ->
  exists h', DeleteNode h k 20 = Ok (h', default 0 (m !! k)) /\ table h' (delete k m).
Proof.
  intros [Hk Ha]%andb_true_iff. apply bool_decide_eq_true in Hk. pose proof (table_capacity h m Ht) as Hc.
  assert (DUMMY_KEY < 2 ^ 32) by done. pose proof (table_fits h m Ht) as Hfit.
  rewrite (present_spec h m Ht) in Ha by lia. unfold DeleteNode. rewrite wrapu_small by lia. rewrite (HashCode_place h m Ht).
  destruct (m !! k) as [v|] eqn:Hv; cbn [from_option id].
  - destruct (table_find h m Ht k v Hv) as (d & Hd & Hs & Hb).
    rewrite (delete_probe_ok h Hc k d 0 20 ltac:(lia) Hb _ Hs (or_intror (bool_decide_eq_true_2 _ eq_refl))).
    cbn [bind]. rewrite aset_Ok by (rewrite (table_length h m Ht); apply place_lt). cbn [bind Value].
    eexists. split; [done|]. assert (place k d < length (Nodes h))%nat as Hlt by (rewrite (table_length h m Ht); apply place_lt).
    simpl in *. split; cbn [HashMapCapacity HashMapSize Nodes]; [done|by rewrite length_insert, (table_length h m Ht)|..].
    + rewrite (table_size h m Ht), map_size_delete, Hv. simpl.
      assert (base.size m <> 0)%nat by (rewrite map_size_non_empty_iff; intros ->; done). rewrite wraps_small; lia.
    + intros j n Hj Hn. apply list_lookup_insert_Some in Hj as [(<- & [= <-] & _)|[Hj Hj']]; [done|].
      rewrite lookup_delete_ne; [by apply (table_live h m Ht j)|]. intros E. apply Hj.
      apply (table_unique h m Ht _ _ _ n Hs Hj'); simpl; [done|lia].
    + intros k' v' Hv'. apply lookup_delete_Some in Hv' as [Hne Hv'].
      destruct (table_stored h m Ht k' v' Hv') as [j Hj]. exists j. rewrite list_lookup_insert_ne; [done|].
      intros <-. rewrite Hs in Hj. by injection Hj as ->.
    + intros k' v' Hv'. apply lookup_delete_Some in Hv' as [Hne Hv']. by eapply (table_keys h m Ht).
    + intros i j n n' Hi Hj E Hn.
      apply list_lookup_insert_Some in Hi as [(<- & [= <-] & _)|[Hi Hi']]; [done|].
      apply list_lookup_insert_Some in Hj as [(<- & [= <-] & _)|[Hj Hj']]; [done|].
      by apply (table_unique h m Ht i j n n').
    + intros j n d' Hj Hn Ej Hd' e He.
      apply list_lookup_insert_Some in Hj as [(<- & [= <-] & _)|[Hj Hj']]; [done|].
      destruct (decide (place k d = place (Key n) e)) as [<-|Hne]; [exists DummyNode; by apply list_lookup_insert_eq|].
      rewrite list_lookup_insert_ne by done. by apply (table_path h m Ht j n d').
  - rewrite bool_decide_eq_false_2 in Ha by (by intros [? ?]). simpl in Ha.
    destruct (table_stop h m Ht _ Ha k) as (d & Hd & (s & Hs & HPs) & Hb). apply bool_decide_eq_true in HPs. subst s.
    rewrite (delete_probe_ok h Hc k d 0 20 ltac:(lia)) with (s := None); [|..|done|by left].
    + eexists. split; [done|]. by rewrite delete_id.
    + intros e He. destruct (Hb e He) as ([n|] & Hn & Hne); [|by apply bool_decide_eq_false in Hne].
      exists n. split; [done|]. by apply (table_absent h m Ht k (place k e)); [|lia|].
Qed.

Lemma hstep_ok o : hallowed o h = true ->
  exists h', hstep o h = Ok (h', (mstep o m).2) /\ table h' (mstep o m).1.
Proof.
  intros Ha. destruct o as [k v|k|k]; cbn [hstep mstep fst snd].
  - destruct (AddNode_ok k v Ha) as (h' & -> & Ht'). by exists h'.
  - by apply DeleteNode_ok.
  - apply bool_decide_eq_true in Ha. rewrite (Get_table_ok h m Ht k Ha). by exists h.
Qed.
End updates.

Lemma hrun_ok os : forall h m, table h m -> hrun os h <> None ->
  exists h', hrun os h = Some (Ok (h', (mrun os m).2)) /\ table h' (mrun os m).1.
Proof.
  induction os as [|o os IH]; intros h m Ht Hr; [by exists h|].
  cbn [hrun mrun] in *. destruct (hallowed o h) eqn:Ha; [|done].
  destruct (hstep_ok h m Ht o Ha) as (h' & E' & Ht'). rewrite E' in *.
  destruct (mstep o m) as [m' r]. cbn [fst snd] in *.
  destruct (IH h' m' Ht') as (h'' & E & Ht'').
  { intros E. by rewrite E in Hr. }
  destruct (mrun os m') as [m'' rs]. cbn [fst snd] in *. rewrite E. by exists h''.
Qed.

Lemma table_new : table HashMap_new ∅.
Proof.
  assert (forall j n, Nodes HashMap_new !! j <> Some (Some n)) as Hno.
  { intros j n Hj. apply lookup_replicate in Hj as [? _]. done. }
  split; try done.
  - intros j n Hj. by destruct (Hno j n).
  - intros i j n n' Hi. by destruct (Hno i n).
  - intros j n d Hj. by destruct (Hno j n).
Qed.

(** ** Theorems *)

(** C33 Refinement: a program of insertions, deletions and searches of keys
    other than -1 runs without a fault, every search ending within the twenty
    slots, and returns what the same program returns on a finite map; the table
    counts the entries of that map.  What is asked of it: an insertion of a key
    that is not there finds a free slot (null or of a deleted node), one of a key
    that is there meets no deleted node before it, and a deletion of a key that
    is not there has a null slot to stop at ([hallowed]; outside,
    [hashmap_full_hangs], [deleted_key_returns] and [absent_delete_hangs]). *)
Theorem hashmap_refines os h m : table h m -> hrun os h <> None ->
  exists h', hrun os h = Some (Ok (h', (mrun os m).2)) /\ table h' (mrun os m).1 /\
    Size h' = Z.of_nat (base.size (mrun os m).1).
Proof.
  intros Ht Hr. destruct (hrun_ok os h m Ht Hr) as (h' & E & Ht'). exists h'. split_and!; [done..|].
  apply (table_size h' _ Ht').
Qed.

Lemma hashmap_refines_witness : exists h',
  hrun [Add 7 70; Add 27 270; Look 27; Del 7; Look 27; Look 7] HashMap_new
    = Some (Ok (h', [0; 0; 270; 70; 270; 0])) /\
  table h' {[27 := 270]} /\ Size h' = 1.
Proof.
  destruct (hashmap_refines [Add 7 70; Add 27 270; Look 27; Del 7; Look 27; Look 7] HashMap_new ∅ table_new)
    as (h' & E & Ht & Hs); [vm_compute; discriminate|].
  exists h'. split; [exact E|]. split; [exact Ht|exact Hs].
Defined.

(** Error: in a table whose slots are all taken by other keys, inserting
    one more key never ends, however long it runs (the table does not grow);
    searching for it still returns 0. *)
Theorem hashmap_full_hangs h m k v :
  table h m -> existsb free (Nodes h) = false -> m !! k = None -> 0 <= k < DUMMY_KEY ->
  (forall fuel, AddNode h k v fuel = Err OutOfFuel) /\ Get h k = Ok 0.
Proof.
  intros Ht Hf Hm Hk. pose proof (table_capacity h m Ht) as Hc. split.
  - intros fuel. unfold AddNode. rewrite (HashCode_place h m Ht), (add_probe_hangs h Hc); [done|].
    intros i. destruct (existsb_none_slot h m Ht _ (place k i) Hf (place_lt k i)) as ([n|] & Hn & Hne); [|done].
    exists n. split_and!; [done| |].
    + by apply (table_absent h m Ht k (place k i)); [|lia|].
    + by apply bool_decide_eq_false in Hne.
  - by rewrite (Get_table_ok h m Ht k Hk), Hm.
Qed.

(** Twenty ports in a new table. *)
Definition twenty : list hop := map (fun i => Add (Z.of_nat i) 1) (seq 1 20).

Lemma hashmap_full_hangs_witness : exists h, hrun twenty HashMap_new = Some (Ok (h, replicate 20 0)) /\
  (forall fuel, AddNode h 21 1 fuel = Err OutOfFuel) /\ Get h 21 = Ok 0.
Proof.
  destruct (hrun_ok twenty HashMap_new ∅ table_new) as (h & E & Ht); [vm_compute; discriminate|].
  exists h. split; [exact E|].
  assert (existsb free (Nodes h) = false) as Hf.
  { destruct (hrun twenty HashMap_new) as [[[h0 rs]|]|] eqn:E0; [|discriminate E..].
    injection E as E1 E2. subst h0. vm_compute in E0. injection E0 as E0 _. subst h. reflexivity. }
  apply (hashmap_full_hangs h _ 21 1 Ht Hf); [reflexivity|split; [discriminate|reflexivity]].
Defined.

(** Error: when no slot is null, also if all nodes were deleted, deleting a key
    that is not there never ends. *)
Theorem absent_delete_hangs h m k :
  table h m -> existsb (fun s => bool_decide (s = None)) (Nodes h) = false -> m !! k = None -> 0 <= k < DUMMY_KEY ->
  forall fuel, DeleteNode h k fuel = Err OutOfFuel.
Proof.
  intros Ht Hf Hm Hk fuel. assert (DUMMY_KEY < 2 ^ 32) by done. unfold DeleteNode. rewrite wrapu_small by lia.
  rewrite (HashCode_place h m Ht), (delete_probe_hangs h (table_capacity h m Ht)); [done|].
  intros i. destruct (existsb_none_slot h m Ht _ (place k i) Hf (place_lt k i)) as ([n|] & Hn & Hne); [|by apply bool_decide_eq_false in Hne].
  exists n. split; [done|]. by apply (table_absent h m Ht k (place k i)); [|lia|].
Qed.

(** A table of which all nodes were deleted, and how it comes about. *)
Definition all_deleted : HashMap := mk_HashMap 0 20 (replicate 20 (Some DummyNode)).
Definition twenty_deleted : list hop := twenty ++ map (fun i => Del (Z.of_nat i)) (seq 1 20).

Lemma absent_delete_hangs_witness :
  hrun twenty_deleted HashMap_new = Some (Ok (all_deleted, replicate 20 0 ++ replicate 20 1)) /\
  forall fuel, DeleteNode all_deleted 1 fuel = Err OutOfFuel.
Proof.
  assert (hrun twenty_deleted HashMap_new = Some (Ok (all_deleted, replicate 20 0 ++ replicate 20 1))) as E by (vm_compute; reflexivity).
  split; [exact E|]. destruct (hrun_ok twenty_deleted HashMap_new ∅ table_new) as (h & E' & Ht); [rewrite E; discriminate|].
  assert (h = all_deleted) as -> by (rewrite E in E'; congruence).
  apply (absent_delete_hangs all_deleted _ 1 Ht); [reflexivity|vm_compute; reflexivity|split; [discriminate|reflexivity]].
Defined.

(** Error: an insertion stops at the first deleted node and does not look for
    its key behind it, so that a key that is set again after a deletion is
    there twice, and deleting it uncovers the old value. *)
Theorem deleted_key_returns v1 v2 w :
  (let* h := AddNode HashMap_new 1 w 20 in
   let* h := AddNode h 21 v1 20 in
   let* '(h, _) := DeleteNode h 1 20 in
   let* h := AddNode h 21 v2 20 in
   let* '(h, r) := DeleteNode h 21 20 in
   let* r' := Get h 21 in Ok (r, r')) = Ok (v2, v1).
Proof. reflexivity. Qed.
