(* ===== verification/Vfs.v ===== *)
(** * The virtual file system

    src/kernel/filesystem/FileSystem.cpp and src/kernel/include/filesystem.h:
    the tree of nodes, the resolution of paths in it, and the operations the
    kernel calls.  Nodes are objects in a store, [nodes]; a pointer to a node
    is the number of its allocation and 0 is NULL, so that the children of a
    node and the handles that callers hold are aliases, as in the code.  The
    children are in a [Vector]; the paths go through [Cwalk].  [new] zeroes
    what it allocates (HeapManager.cpp) and does not fail.

    [VFSLock] is part of the state: taking it twice never ends, which is the
    fault [OutOfFuel].  The debugging output [vfsdbg] is off. *)

From stdpp Require Import gmap.
From S2P Require Import Prelude CString Cwalk Vector.

Local Open Scope Z_scope.

(** ** Data *)

Inductive FILESTATUS :=
| OK | NOT_FOUND | ACCESS_DENIED | INVALID_NAME | INVALID_PARAMETER | INVALID_HANDLE
| INVALID_PATH | INVALID_FILE | INVALID_DEVICE | NOT_EMPTY | NOT_SUPPORTED | INVALID_DRIVE
| VOLUME_IN_USE | TIMEOUT | NO_MORE_FILES | END_OF_FILE | FILE_EXISTS | PIPE_BUSY
| PIPE_DISCONNECTED | MORE_DATA | NO_DATA | PIPE_NOT_CONNECTED | MORE_ENTRIES
| DIRECTORY_NOT_EMPTY | NOT_A_DIRECTORY | FILE_IS_A_DIRECTORY | DIRECTORY_NOT_ROOT
| DIRECTORY_NOT_EMPTY_2 | END_OF_MEDIA | NO_MEDIA | UNRECOGNIZED_MEDIA | SECTOR_NOT_FOUND.

#[export] Instance FILESTATUS_eq_dec : EqDecision FILESTATUS.
Proof. solve_decision. Defined.

(** [NodeFlags]. *)
Definition FS_ERROR : Z := 0x0.
Definition FS_FILE : Z := 0x01.
Definition FS_DIRECTORY : Z := 0x02.
Definition FS_CHARDEVICE : Z := 0x03.
Definition FS_BLOCKDEVICE : Z := 0x04.
Definition FS_PIPE : Z := 0x05.
Definition FS_SYMLINK : Z := 0x06.
Definition FS_MOUNTPOINT : Z := 0x08.

Definition FILENAME_LENGTH : nat := 256.

(** [Name] is the whole array of the structure. *)
Record FileSystemNode := mk_node {
  Name : list Z;
  IndexNode : Z;
  Mask : Z;
  Mode : Z;
  Flags : Z;
  UserIdentifier : Z;
  GroupIdentifier : Z;
  Address : Z;
  Length : Z;
  Parent : Z;
  Operator : Z;
  Children : Vector Z
}.

(** [new FileSystemNode]: the members as they are initialised. *)
Definition new_node : FileSystemNode :=
  mk_node (replicate FILENAME_LENGTH 0) 0 0 0 FS_ERROR 0 0 0 0 0 0 Vector_new.

(** Assignments to members. *)
Definition set_Name n (v : FileSystemNode) :=
  mk_node n (IndexNode v) (Mask v) (Mode v) (Flags v) (UserIdentifier v) (GroupIdentifier v)
    (Address v) (Length v) (Parent v) (Operator v) (Children v).
Definition set_IndexNode n (v : FileSystemNode) :=
  mk_node (Name v) n (Mask v) (Mode v) (Flags v) (UserIdentifier v) (GroupIdentifier v)
    (Address v) (Length v) (Parent v) (Operator v) (Children v).
Definition set_Mode n (v : FileSystemNode) :=
  mk_node (Name v) (IndexNode v) (Mask v) n (Flags v) (UserIdentifier v) (GroupIdentifier v)
    (Address v) (Length v) (Parent v) (Operator v) (Children v).
Definition set_Flags n (v : FileSystemNode) :=
  mk_node (Name v) (IndexNode v) (Mask v) (Mode v) n (UserIdentifier v) (GroupIdentifier v)
    (Address v) (Length v) (Parent v) (Operator v) (Children v).
Definition set_Ids u g (v : FileSystemNode) :=
  mk_node (Name v) (IndexNode v) (Mask v) (Mode v) (Flags v) u g
    (Address v) (Length v) (Parent v) (Operator v) (Children v).
Definition set_Contents a n (v : FileSystemNode) :=
  mk_node (Name v) (IndexNode v) (Mask v) (Mode v) (Flags v) (UserIdentifier v) (GroupIdentifier v)
    a n (Parent v) (Operator v) (Children v).
Definition set_Parent p (v : FileSystemNode) :=
  mk_node (Name v) (IndexNode v) (Mask v) (Mode v) (Flags v) (UserIdentifier v) (GroupIdentifier v)
    (Address v) (Length v) p (Operator v) (Children v).
Definition set_Operator o (v : FileSystemNode) :=
  mk_node (Name v) (IndexNode v) (Mask v) (Mode v) (Flags v) (UserIdentifier v) (GroupIdentifier v)
    (Address v) (Length v) (Parent v) o (Children v).
Definition set_Children c (v : FileSystemNode) :=
  mk_node (Name v) (IndexNode v) (Mask v) (Mode v) (Flags v) (UserIdentifier v) (GroupIdentifier v)
    (Address v) (Length v) (Parent v) (Operator v) c.

(** The file system: the store of nodes, the next allocation, the root of the
    tree and the lock. *)
Record Virtual := mk_Virtual {
  nodes : gmap Z FileSystemNode;
  next : Z;
  FileSystemRoot : Z;
  VFSLock : bool
}.

(** [struct FILE]; a null name is [None]. *)
Record FILE := mk_FILE {
  f_Name : option cstr;
  f_Status : FILESTATUS;
  f_Node : Z
}.

(** ** Memory *)

(** The node behind a pointer. *)
Definition deref (vfs : Virtual) (p : Z) : res FileSystemNode :=
  if decide (p = 0) then Err NullDeref
  else match nodes vfs !! p with
       | Some n => Ok n
       | None => Err OutOfBounds
       end.

Definition set_nodes (vfs : Virtual) m := mk_Virtual m (next vfs) (FileSystemRoot vfs) (VFSLock vfs).

(** An assignment through a pointer. *)
Definition update (vfs : Virtual) (p : Z) (f : FileSystemNode -> FileSystemNode) : res Virtual :=
  let* n := deref vfs p in Ok (set_nodes vfs (<[p := f n]> (nodes vfs))).

(** [p = new FileSystemNode], with the members set as in [n]. *)
Definition alloc (vfs : Virtual) (n : FileSystemNode) : Virtual * Z :=
  (mk_Virtual (<[next vfs := n]> (nodes vfs)) (next vfs + 1) (FileSystemRoot vfs) (VFSLock vfs), next vfs).

(** [strcpy(newNode->Name, Name)] on a new node. *)
Definition strcpy_name (name : cstr) (v : FileSystemNode) : res FileSystemNode :=
  let* b := strcpy (Some (Name v)) name in
  let* b := nonnull b in Ok (set_Name b v).

(** [strcmp(p->Name, s)]. *)
Definition name_cmp (vfs : Virtual) (p : Z) (s : cstr) : res Z :=
  let* n := deref vfs p in
  let* w := cstring (Name n) in
  strcmp w s.

(** [Parent->Children.push_back(newNode)]. *)
Definition push_child (vfs : Virtual) (p c : Z) : res Virtual :=
  let* n := deref vfs p in
  let* v := push_back 0 (Children n) c in
  update vfs p (set_Children v).

Definition children (vfs : Virtual) (p : Z) : res (list Z) :=
  let* n := deref vfs p in elements (Children n).

(** The lock: [SMART_LOCK(VFSLock)] spins until the lock is free, and frees it
    when the function returns. *)
Definition set_lock (vfs : Virtual) b := mk_Virtual (nodes vfs) (next vfs) (FileSystemRoot vfs) b.

Definition SMART_LOCK {A} (vfs : Virtual) (body : Virtual -> res (Virtual * A)) : res (Virtual * A) :=
  if VFSLock vfs then Err OutOfFuel
  else let* '(vfs, a) := body (set_lock vfs true) in Ok (set_lock vfs false, a).

(** ** Children *)

(** [foreach (auto var in l) if (!strcmp(var->Name, Name)) return var]. *)
Fixpoint find_child (vfs : Virtual) (l : list Z) (name : cstr) : res (option Z) :=
  match l with
  | [] => Ok None
  | c :: l =>
      let* r := name_cmp vfs c name in
      if decide (r = 0) then Ok (Some c) else find_child vfs l name
  end.

Definition GetChild (vfs : Virtual) (parent : Z) (name : cstr) : res Z :=
  let* l := children vfs parent in
  let* r := find_child vfs l name in
  Ok (default 0 r).

Definition AddNewChild (vfs : Virtual) (parent : Z) (name : cstr) : res (Virtual * Z) :=
  let* n := strcpy_name name (set_Parent parent new_node) in
  let* p := deref vfs parent in
  let '(vfs, newNode) := alloc vfs (set_Operator (Operator p) n) in
  let* vfs := push_child vfs parent newNode in
  Ok (vfs, newNode).

(** The loop over [i < Parent->Children.size()]: [k] indices remain. *)
Fixpoint remove_child_loop (vfs : Virtual) (parent : Z) (name : cstr) (i : Z) (k : nat)
    : res (Virtual * FILESTATUS) :=
  match k with
  | O => Ok (vfs, NOT_FOUND)
  | S k' =>
      let* n := deref vfs parent in
      let* c := index (Children n) i in
      let* r := name_cmp vfs c name in
      if decide (r = 0) then
        let* v := remove 0 (Children n) i in
        let* vfs := update vfs parent (set_Children v) in
        Ok (vfs, OK)
      else remove_child_loop vfs parent name (i + 1) k'
  end.

Definition RemoveChild (vfs : Virtual) (parent : Z) (name : cstr) : res (Virtual * FILESTATUS) :=
  let* n := deref vfs parent in
  remove_child_loop vfs parent name 0 (Z.to_nat (size (Children n))).

(** ** Paths *)

Abbreviation style := CWK_STYLE_UNIX.

(** Steps enough for a walk up or down the tree: no node is passed twice. *)
Definition depth_fuel (vfs : Virtual) : nat := S (Z.to_nat (next vfs)).

(** The walk up of [GetPathFromNode]: names and slashes, from the node to
    the root or to one of its children. *)
Fixpoint path_loop (vfs : Virtual) (parent : Z) (Path : Vector (option cstr)) (fuel : nat)
    : res (Vector (option cstr)) :=
  match fuel with
  | O => Err OutOfFuel
  | S f =>
      if decide (parent = FileSystemRoot vfs \/ parent = 0) then Ok Path
      else
        let* tops := children vfs (FileSystemRoot vfs) in
        if decide (parent ∈ tops) then Ok Path
        else
          let* n := deref vfs parent in
          let* w := cstring (Name n) in
          let* Path := push_back None Path (Some w) in
          let* Path := push_back None Path (Some (bytes_of "/")) in
          path_loop vfs (Parent n) Path f
  end.

(** [foreach (auto var in Path) Size += strlen(var)]. *)
Fixpoint path_size (l : list (option cstr)) (Size : Z) : res Z :=
  match l with
  | [] => Ok Size
  | var :: l =>
      let* s := nonnull var in
      let* n := strlen s 0 in
      path_size l (u64 (Size + n))
  end.

(** [foreach (auto var in Path) strcat(FinalPath, var)]. *)
Fixpoint path_cat (l : list (option cstr)) (FinalPath : option (list Z)) : res (option (list Z)) :=
  match l with
  | [] => Ok FinalPath
  | var :: l => let* FinalPath := strcat FinalPath var in path_cat l FinalPath
  end.

Definition GetPathFromNode (vfs : Virtual) (node : Z) : res cstr :=
  let* Path := path_loop vfs node Vector_new (depth_fuel vfs) in
  let* Path := reverse Path in
  let* l := elements Path in
  let* Size := path_size l 1 in
  let* FinalPath := path_cat l (Some (replicate (Z.to_nat Size) 0)) in
  let* b := nonnull FinalPath in
  cstring b.

(** The copy of a segment: [new char[end - begin + 1]] and [memcpy]. *)
Definition segment_name (segment : cwk_segment) : res cstr :=
  let n := (sg_end segment - sg_begin segment)%nat in
  let* b := memcpy (replicate (n + 1) 0) (drop (sg_begin segment) (sg_path segment)) (Z.of_nat n) in
  cstring b.

(** The loop at [GetNodeFromPathNextParent]: it starts again at the child it
    finds, with the same name. *)
Fixpoint descend (vfs : Virtual) (parent : Z) (SegmentName : cstr) (fuel : nat) : res Z :=
  match fuel with
  | O => Err OutOfFuel
  | S f =>
      let* l := children vfs parent in
      let* r := find_child vfs l SegmentName in
      match r with
      | Some var => descend vfs var SegmentName f
      | None => Ok parent
      end
  end.

Fixpoint node_from_path_loop (vfs : Virtual) (parent : Z) (segment : cwk_segment) (fuel : nat) : res Z :=
  match fuel with
  | O => Err OutOfFuel
  | S f =>
      let* SegmentName := segment_name segment in
      let* parent := descend vfs parent SegmentName (depth_fuel vfs) in
      let* '(r, segment) := cwk_path_get_next_segment style segment in
      if (r : bool) then node_from_path_loop vfs parent segment f else Ok parent
  end.

(** [strcmp(basename, p->Name)], where [basename] points into [path]. *)
Definition basename_is (vfs : Virtual) (path : cstr) (p : Z) : res bool :=
  let* basename := cwk_path_get_basename style path in
  let* '(o, _) := nonnull basename in
  let* n := deref vfs p in
  let* w := cstring (Name n) in
  let* r := strcmp (drop o path) w in
  Ok (bool_decide (r = 0)).

Definition GetNodeFromPath (vfs : Virtual) (parent : Z) (path : cstr) : res Z :=
  let* r := name_cmp vfs parent path in
  if decide (r = 0) then Ok parent
  else
    let* '(some, segment) := cwk_path_get_first_segment style path in
    if negb some then Ok 0
    else
      let* parent := node_from_path_loop vfs parent segment (S (length path)) in
      let* same := basename_is vfs path parent in
      Ok (if (same : bool) then parent else 0).

Definition NormalizePath (vfs : Virtual) (parent : Z) (path : cstr) : res cstr :=
  let* n := strlen path 0 in
  let* '(b, _) := cwk_path_normalize style path (replicate (Z.to_nat (n + 1)) 0) (n + 1) in
  let* NormalizedPath := cstring b in
  let* relative := cwk_path_is_relative style NormalizedPath in
  if (relative : bool) then
    let* ParentPath := GetPathFromNode vfs parent in
    let* '(_, PathSize) := cwk_path_get_absolute style ParentPath NormalizedPath [] 0 in
    let* '(b, _) := cwk_path_get_absolute style ParentPath NormalizedPath
                      (replicate (Z.to_nat (PathSize + 1)) 0) (PathSize + 1) in
    cstring b
  else
    let* m := strlen NormalizedPath 0 in
    let* b := strcpy (Some (replicate (Z.to_nat (m + 1)) 0)) NormalizedPath in
    let* b := nonnull b in
    cstring b.

Definition FileExists (vfs : Virtual) (parent : Z) (path : cstr) : res FILESTATUS :=
  let* e := isempty path in
  if decide (e <> 0) then Ok INVALID_PATH
  else
    let parent := if decide (parent = 0) then FileSystemRoot vfs else parent in
    let* NormalizedPath := NormalizePath vfs parent path in
    let* node := GetNodeFromPath vfs parent NormalizedPath in
    Ok (if decide (node = 0) then NOT_FOUND else OK).

(** ** Creation *)

(** The parent to start from when none is given: the first child of the root,
    or one named as the path when the root has none. *)
Definition default_parent (vfs : Virtual) (path : cstr) : res Z :=
  let* n := deref vfs (FileSystemRoot vfs) in
  if decide (1 <= size (Children n)) then index (Children n) 0
  else
    let* l := children vfs (FileSystemRoot vfs) in
    let* r := find_child vfs l path in
    Ok (default 0 r).

Fixpoint create_loop (vfs : Virtual) (CurrentParent : Z) (segment : cwk_segment) (fuel : nat)
    : res (Virtual * Z) :=
  match fuel with
  | O => Err OutOfFuel
  | S f =>
      let* SegmentName := segment_name segment in
      let* c := GetChild vfs CurrentParent SegmentName in
      let* '(vfs, CurrentParent) :=
        if decide (c = 0) then AddNewChild vfs CurrentParent SegmentName
        else let* c := GetChild vfs CurrentParent SegmentName in Ok (vfs, c) in
      let* '(r, segment) := cwk_path_get_next_segment style segment in
      if (r : bool) then create_loop vfs CurrentParent segment f else Ok (vfs, CurrentParent)
  end.

(** The body of [Create], which runs under the lock. *)
Definition create_node (vfs : Virtual) (parent : Z) (path : cstr) : res (Virtual * Z) :=
  let* e := isempty path in
  if decide (e <> 0) then Ok (vfs, 0)
  else
    let* CurrentParent :=
      if decide (parent = 0) then
        let* p := default_parent vfs path in
        let* n := deref vfs (FileSystemRoot vfs) in
        if decide (p = 0 /\ 1 <= size (Children n)) then Err Panic else Ok p
      else Ok parent in
    let* CleanPath := NormalizePath vfs CurrentParent path in
    let* status := FileExists vfs CurrentParent CleanPath in
    if decide (status <> NOT_FOUND) then Ok (vfs, 0)
    else
      let* '(some, segment) := cwk_path_get_first_segment style CleanPath in
      if negb some then Ok (vfs, 0)
      else create_loop vfs CurrentParent segment (S (length CleanPath)).

Definition Create (vfs : Virtual) (parent : Z) (path : cstr) : res (Virtual * Z) :=
  SMART_LOCK vfs (fun vfs => create_node vfs parent path).

Definition CreateRoot (vfs : Virtual) (operator : Z) (RootName : cstr) : res (Virtual * Z) :=
  if decide (operator = 0) then Ok (vfs, 0)
  else
    let* n := strcpy_name RootName new_node in
    let '(vfs, newNode) := alloc vfs (set_Operator operator (set_Flags FS_DIRECTORY n)) in
    let* vfs := push_child vfs (FileSystemRoot vfs) newNode in
    Ok (vfs, newNode).

(** ** Files *)

(** The name of a handle: the basename of a path, to its end. *)
Definition basename (path : cstr) : res (option cstr) :=
  let* b := cwk_path_get_basename style path in
  Ok (match b with Some (o, _) => Some (drop o path) | None => None end).

Definition Mount (vfs : Virtual) (operator : Z) (path : cstr) : res (Virtual * option FILE) :=
  SMART_LOCK vfs (fun vfs =>
    if decide (operator = 0) then Ok (vfs, None)
    else
      let* e := isempty path in
      if decide (e <> 0) then Ok (vfs, None)
      else
        let* name := basename path in
        let* '(vfs, node) := Create vfs 0 path in
        let* vfs := update vfs node (set_Operator operator) in
        let* vfs := update vfs node (set_Flags FS_MOUNTPOINT) in
        Ok (vfs, Some (mk_FILE name OK node))).

Definition Unmount (vfs : Virtual) (File : option FILE) : res (Virtual * FILESTATUS) :=
  SMART_LOCK vfs (fun vfs =>
    Ok (vfs, match File with None => INVALID_PARAMETER | Some _ => OK end)).

(** [Open(".")] and [Open("..")]: the handle of a node. *)
Definition open_node (vfs : Virtual) (node : Z) : res FILE :=
  let status := if decide (node = 0) then NOT_FOUND else OK in
  let* path := GetPathFromNode vfs node in
  let* name := basename path in
  Ok (mk_FILE name status node).

(** The part of [Open] after a failed search: a child of the root named as
    the path, or a search from the first one. *)
Definition open_elsewhere (vfs : Virtual) (status : FILESTATUS) (CleanPath : cstr) : res FILE :=
  let* l := children vfs (FileSystemRoot vfs) in
  let* r := find_child vfs l CleanPath in
  match r with
  | Some var =>
      let* path := GetPathFromNode vfs var in
      let* name := basename path in
      Ok (mk_FILE name OK var)
  | None =>
      let* n := deref vfs (FileSystemRoot vfs) in
      let* top := index (Children n) 0 in
      let* node := GetNodeFromPath vfs top CleanPath in
      if decide (node = 0) then Ok (mk_FILE None status 0)
      else
        let* path := GetPathFromNode vfs node in
        let* name := basename path in
        Ok (mk_FILE name OK node)
  end.

Definition Open (vfs : Virtual) (path : cstr) (parent : Z) : res (Virtual * FILE) :=
  SMART_LOCK vfs (fun vfs =>
    let* r1 := strcmp path (bytes_of ".") in
    if decide (r1 = 0) then let* f := open_node vfs parent in Ok (vfs, f)
    else
      let* r2 := strcmp path (bytes_of "..") in
      if decide (r2 = 0) then
        let* n := deref vfs parent in
        let parent := if decide (Parent n = 0) then parent else Parent n in
        let* f := open_node vfs parent in Ok (vfs, f)
      else
        let* parent := if decide (parent = 0) then default_parent vfs path else Ok parent in
        let* CleanPath := NormalizePath vfs parent path in
        let* status := FileExists vfs parent CleanPath in
        if decide (status <> OK) then let* f := open_elsewhere vfs status CleanPath in Ok (vfs, f)
        else
          let* node := GetNodeFromPath vfs parent CleanPath in
          let* name := basename CleanPath in
          Ok (vfs, mk_FILE name (if decide (node = 0) then NOT_FOUND else OK) node)).

Definition Close (vfs : Virtual) (File : option FILE) : res (Virtual * FILESTATUS) :=
  SMART_LOCK vfs (fun vfs =>
    Ok (vfs, match File with None => INVALID_HANDLE | Some _ => OK end)).

Definition ConvertNodeToFILE (vfs : Virtual) (node : Z) : res FILE :=
  let* n := deref vfs node in
  let* w := cstring (Name n) in
  Ok (mk_FILE (Some w) OK node).

(** The constructor. *)
Definition Virtual_new : res Virtual :=
  let* n := strcpy_name (bytes_of "root") (set_Flags FS_MOUNTPOINT new_node) in
  Ok (mk_Virtual {[ 1 := n ]} 2 1 false).

(** ** Reading and writing *)

(** [FileSystemOpeations]: the functions behind a pointer to operators, those
    that this code calls; a null pointer to a function is [None].  [W] is what
    the functions read and change outside: memory and devices. *)
Record FileSystemOpeations (W : Type) := mk_operations {
  op_Read : option (W -> FileSystemNode -> Z -> Z -> list Z -> res (W * Z * list Z));
  op_Write : option (W -> FileSystemNode -> Z -> Z -> list Z -> res (W * Z))
}.
Arguments mk_operations {W} _ _.
Arguments op_Read {W} _.
Arguments op_Write {W} _.

Definition set_Status s (f : FILE) := mk_FILE (f_Name f) s (f_Node f).

Section files.
Context {W : Type} (operators : Z -> FileSystemOpeations W).

(** The checks that [Read] and [Write] share: the handle with its new status
    and the node to work on, if there is one with operators. *)
Definition checked (vfs : Virtual) (File : FILE) : res (FILE * option FileSystemNode) :=
  let File := set_Status OK File in
  if decide (f_Node File = 0) then Ok (set_Status INVALID_PARAMETER File, None)
  else
    let* n := deref vfs (f_Node File) in
    if decide (Operator n = 0) then Ok (set_Status INVALID_PARAMETER File, None)
    else Ok (File, Some n).

Definition Read (vfs : Virtual) (w : W) (File : option FILE) (Offset : Z) (Buffer : list Z) (Size : Z)
    : res (Virtual * (W * option FILE * Z * list Z)) :=
  SMART_LOCK vfs (fun vfs =>
    match File with
    | None => Ok (vfs, (w, None, 0, Buffer))
    | Some File =>
        let* '(File, node) := checked vfs File in
        match node with
        | None => Ok (vfs, (w, Some File, 0, Buffer))
        | Some n =>
            let* f := nonnull (op_Read (operators (Operator n))) in
            let* '(w, r, Buffer) := f w n Offset Size Buffer in
            Ok (vfs, (w, Some File, r, Buffer))
        end
    end).

Definition Write (vfs : Virtual) (w : W) (File : option FILE) (Offset : Z) (Buffer : list Z) (Size : Z)
    : res (Virtual * (W * option FILE * Z)) :=
  SMART_LOCK vfs (fun vfs =>
    match File with
    | None => Ok (vfs, (w, None, 0))
    | Some File =>
        let* '(File, node) := checked vfs File in
        match node with
        | None => Ok (vfs, (w, Some File, 0))
        | Some n =>
            let* f := nonnull (op_Write (operators (Operator n))) in
            let* '(w, r) := f w n Offset Size Buffer in
            Ok (vfs, (w, Some File, r))
        end
    end).
End files.

(** ** Examples *)

Definition boot (files : list string) : res Virtual :=
  let* vfs := Virtual_new in
  let* '(vfs, _) := CreateRoot vfs 1 (bytes_of "/") in
  (fix go vfs files := match files with
    | [] => Ok vfs
    | f :: files => let* '(vfs, _) := Create vfs 0 (bytes_of f) in go vfs files
    end) vfs files.

Definition opened (files : list string) (path : string) : res (Z * FILESTATUS) :=
  let* vfs := boot files in
  let* '(_, f) := Open vfs (bytes_of path) 0 in
  Ok (f_Node f, f_Status f).

Definition path_of (files : list string) (node : Z) : res cstr :=
  let* vfs := boot files in GetPathFromNode vfs node.

(** Nodes 1 and 2 are the root and "/"; then each new segment is a node. *)
Example open_1 : opened ["/system/dev"; "/system/mnt"] "/system/mnt" = Ok (5, OK).
Proof. vm_compute. reflexivity. Qed.

Example open_2 : opened ["/system/dev"; "/system/mnt"] "/system/../system/./dev" = Ok (4, OK).
Proof. vm_compute. reflexivity. Qed.

Example open_3 : opened ["/system/dev"; "/system/mnt"] "/system/net" = Ok (0, NOT_FOUND).
Proof. vm_compute. reflexivity. Qed.

Example path_1 : path_of ["/system/dev/null"] 5 = Ok (bytes_of "/system/dev/null").
Proof. vm_compute. reflexivity. Qed.

(** A missing directory is skipped: the file is found elsewhere. *)
Example open_skips : opened ["/system/dev"] "/nowhere/system/nothing/dev" = Ok (4, OK).
Proof. vm_compute. reflexivity. Qed.

(** A directory that holds a file of its own name cannot be opened. *)
Example open_deep : opened ["/bin/bin"] "/bin" = Ok (4, OK).
Proof. vm_compute. reflexivity. Qed.
