(* ===== verification/VfsSpec.v ===== *)
(** * The tree of the virtual file system

    The invariant of the store of src/kernel/filesystem/FileSystem.cpp, what
    its functions do in terms of the tree it stands for, and that the
    operations keep it.  The abstract view is [walk]: which node a list of
    names leads to.  A path is resolved to such a list by the path library. *)

From stdpp Require Import gmap.
From S2P Require Import Prelude OutBuffer CString Cwalk CwalkSpec CwalkIter CwalkNormalize CwalkRelative Vector Vfs.

Local Open Scope Z_scope.

(** ** Strings *)

Lemma strcmp_loop_ok l r : cstr_ok l -> cstr_ok r -> forall fuel i,
  (i <= length l)%nat -> (i <= length r)%nat -> (length l < fuel + i)%nat ->
  exists z, strcmp_loop l r i fuel = Ok z /\ (z = 0 <-> drop i l = drop i r).
Proof.
  intros Hl Hr. induction fuel as [|f IH]; intros i Hil Hir Hf; [lia|]. cbn [strcmp_loop].
  destruct (cget_cases l i Hil) as [(c & k & E1 & -> & L1)|(E1 & -> & L1)];
  destruct (cget_cases r i Hir) as [(c' & k' & E2 & -> & L2)|(E2 & -> & L2)]; cbn [bind].
  - pose proof (cstr_ok_head _ _ _ _ Hl E1). pose proof (cstr_ok_head _ _ _ _ Hr E2).
    destruct (decide (c = c')) as [->|Hne].
    + rewrite decide_False by lia. destruct (IH (S i)) as (z & -> & Hz); [lia..|].
      exists z. split; [done|]. rewrite Hz, E1, E2, (proj2 (drop_cons_lookup _ _ _ _ E1)), (proj2 (drop_cons_lookup _ _ _ _ E2)).
      split; [by intros ->|by intros [=]].
    + eexists. split; [done|]. rewrite E1, E2. split; [lia|intros [=]; lia].
  - pose proof (cstr_ok_head _ _ _ _ Hl E1). rewrite decide_False by lia. eexists. split; [done|].
    rewrite E1, E2. split; [lia|done].
  - pose proof (cstr_ok_head _ _ _ _ Hr E2). rewrite decide_False by lia. eexists. split; [done|].
    rewrite E1, E2. split; [lia|done].
  - rewrite !decide_True by done. eexists. split; [done|]. rewrite E1, E2. done.
Qed.

Lemma strcmp_ok l r : cstr_ok l -> cstr_ok r -> exists z, strcmp l r = Ok z /\ (z = 0 <-> l = r).
Proof. intros Hl Hr. apply (strcmp_loop_ok l r Hl Hr); lia. Qed.

(** A string that is not only white space. *)
Definition blank (s : cstr) : bool := forallb (fun c => isspace (schar c)) s.

Lemma isempty_loop_ok s : cstr_ok s -> forall fuel i,
  (i <= length s)%nat -> (length s < fuel + i)%nat ->
  isempty_loop s i fuel = Ok (b2z (blank (drop i s))).
Proof.
  intros Hs. induction fuel as [|f IH]; intros i Hi Hf; [lia|]. cbn [isempty_loop].
  destruct (cget_cases s i Hi) as [(c & k & E & -> & L)|(E & -> & L)]; cbn [bind]; rewrite E; cbn [blank forallb].
  - pose proof (cstr_ok_head _ _ _ _ Hs E). rewrite decide_False by lia.
    destruct (isspace (schar c)); [|done]. rewrite IH by lia. by rewrite (proj2 (drop_cons_lookup _ _ _ _ E)).
  - by rewrite decide_True.
Qed.

Lemma isempty_ok s : cstr_ok s -> isempty s = Ok (b2z (blank s)).
Proof.
  intros Hs. unfold isempty. rewrite strlen_Ok by (done || lia). cbn [bind].
  destruct s as [|c s]; [done|]. rewrite decide_False by (simpl; lia).
  rewrite isempty_loop_ok by (done || simpl; lia). done.
Qed.

(** The name of the segment under the iterator. *)
Lemma segment_name_ok seg l w r : cstr_ok (sg_path seg) -> seg_at seg l w r -> segment_name seg = Ok w.
Proof.
  intros Hok [Et Hrt Hb He Hsz Hne Hns Hl Hr]. unfold segment_name.
  replace (sg_end seg - sg_begin seg)%nat with (length w) by lia.
  assert (drop (sg_begin seg) (sg_path seg) = w ++ r) as ->.
  { rewrite Hb. apply drop_app_shift. done. }
  assert (cstr_ok w) as Hw.
  { apply (cstr_ok_drop _ (sg_segments seg)) in Hok. rewrite Et in Hok. apply Forall_app in Hok as [_ Hok].
    by apply Forall_app in Hok as [? _]. }
  rewrite memcpy_ok by (rewrite ?length_app, ?length_replicate; lia). rewrite Nat2Z.id, take_app_length.
  rewrite drop_replicate. replace (length w + 1 - length w)%nat with 1%nat by lia. cbn [bind replicate].
  by apply cstring_ok.
Qed.

(** ** The tree *)

Definition name_of (n : FileSystemNode) : cstr := takeWhile (fun c => negb (c =? 0)) (Name n).
Definition kids_of (n : FileSystemNode) : list Z :=
  match VectorBuffer (Children n) with
  | Some b => take (Z.to_nat (VectorSize (Children n))) b
  | None => []
  end.

Definition node_exists (vfs : Virtual) (p : Z) : Prop := is_Some (nodes vfs !! p).
Definition nm (vfs : Virtual) (p : Z) : cstr := default [] (name_of <$> nodes vfs !! p).
Definition kids (vfs : Virtual) (p : Z) : list Z := default [] (kids_of <$> nodes vfs !! p).
Definition par (vfs : Virtual) (p : Z) : Z := default 0 (Parent <$> nodes vfs !! p).

(** The first child with a name, and the node that a list of names leads to. *)
Definition child (vfs : Virtual) (p : Z) (w : cstr) : option Z :=
  List.find (fun c => bool_decide (nm vfs c = w)) (kids vfs p).

Fixpoint walk (vfs : Virtual) (p : Z) (ws : list cstr) : option Z :=
  match ws with
  | [] => Some p
  | w :: ws => c ← child vfs p w; walk vfs c ws
  end.

(** A node by itself: a terminated name, and children in a well-formed vector. *)
Definition node_ok (bound : Z) (n : FileSystemNode) : Prop :=
  (exists w k, Name n = w ++ 0 :: k /\ cstr_ok w /\ (length w < FILENAME_LENGTH)%nat) /\
  represents (Children n) (kids_of n) /\
  Z.of_nat (length (kids_of n)) <= bound /\ VectorCapacity (Children n) <= bound + 5.

(** The invariant: pointers are to allocated nodes; a child is allocated after
    its parent and has only one; a parent link, when set, is the inverse of a
    child link. *)
Record vfs_ok (vfs : Virtual) : Prop := {
  vo_root : FileSystemRoot vfs = 1;
  vo_root_node : node_exists vfs 1;
  vo_range : forall p, node_exists vfs p -> 0 < p < next vfs;
  vo_node : forall p n, nodes vfs !! p = Some n -> node_ok (next vfs) n;
  vo_child : forall p c, c ∈ kids vfs p -> p < c /\ node_exists vfs c;
  vo_one : forall p q c, c ∈ kids vfs p -> c ∈ kids vfs q -> p = q;
  vo_parent : forall p, par vfs p = 0 \/ p ∈ kids vfs (par vfs p)
}.

(** Every node below the first level knows its parent. *)
Definition linked (vfs : Virtual) : Prop :=
  forall p c, c ∈ kids vfs p -> p <> FileSystemRoot vfs -> par vfs c = p.

Section tree.
Context (vfs : Virtual) (Hok : vfs_ok vfs).

Lemma deref_ok p n : nodes vfs !! p = Some n -> deref vfs p = Ok n.
Proof.
  intros E. unfold deref. pose proof (vo_range vfs Hok p ltac:(by eexists)).
  rewrite decide_False by lia. by rewrite E.
Qed.

Lemma kids_lookup p n : nodes vfs !! p = Some n -> kids vfs p = kids_of n.
Proof. intros E. unfold kids. by rewrite E. Qed.

Lemma kids_not p : ~ node_exists vfs p -> kids vfs p = [].
Proof. unfold kids, node_exists. destruct (nodes vfs !! p); [|done]. intros []. by eexists. Qed.

Lemma kids_exists p c : c ∈ kids vfs p -> node_exists vfs p.
Proof. unfold kids, node_exists. destruct (nodes vfs !! p); [by eexists|]. intros H. by apply elem_of_nil in H. Qed.

Lemma elements_ok {A} (v : Vector A) l : represents v l -> elements v = Ok l.
Proof.
  intros Hv. destruct (represents_cases v l Hv) as [[-> ->]|[rest ->]]; unfold elements; cbn; [done|].
  rewrite decide_True by (rewrite length_app; lia). by rewrite Nat2Z.id, take_app_length.
Qed.

Lemma children_ok p : node_exists vfs p -> children vfs p = Ok (kids vfs p).
Proof.
  intros [n E]. unfold children. rewrite (deref_ok p n E). cbn [bind]. rewrite (kids_lookup p n E).
  apply elements_ok. apply (vo_node vfs Hok p n E).
Qed.

Lemma name_of_ok w k n : Name n = w ++ 0 :: k -> cstr_ok w -> name_of n = w.
Proof.
  intros E Hw. unfold name_of. rewrite E. apply takeWhile_app_stop; [|done].
  eapply Forall_impl; [exact Hw|]. intros c Hc. simpl in *. by destruct (Z.eqb_spec c 0); [lia|].
Qed.

Lemma name_string p n : nodes vfs !! p = Some n -> cstring (Name n) = Ok (nm vfs p) /\ cstr_ok (nm vfs p).
Proof.
  intros E. destruct (vo_node vfs Hok p n E) as ((w & k & En & Hw & _) & _).
  assert (nm vfs p = w) as -> by (unfold nm; rewrite E; by eapply name_of_ok).
  split; [|done]. rewrite En. by apply cstring_ok.
Qed.

Lemma nm_length p : (length (nm vfs p) < FILENAME_LENGTH)%nat.
Proof.
  unfold nm. destruct (nodes vfs !! p) as [n|] eqn:E; [|simpl; unfold FILENAME_LENGTH; lia].
  destruct (vo_node vfs Hok p n E) as ((w & k & En & Hw & Hl) & _). simpl. by rewrite (name_of_ok w k n En Hw).
Qed.

Lemma nm_ok p : node_exists vfs p -> cstr_ok (nm vfs p).
Proof. intros [n E]. by apply (name_string p n). Qed.

Lemma name_cmp_ok p s : node_exists vfs p -> cstr_ok s ->
  exists z, name_cmp vfs p s = Ok z /\ (z = 0 <-> nm vfs p = s).
Proof.
  intros [n E] Hs. unfold name_cmp. rewrite (deref_ok p n E). cbn [bind].
  destruct (name_string p n E) as [-> Hn]. cbn [bind]. by apply strcmp_ok.
Qed.

Lemma find_child_ok s l : cstr_ok s -> Forall (node_exists vfs) l ->
  find_child vfs l s = Ok (List.find (fun c => bool_decide (nm vfs c = s)) l).
Proof.
  intros Hs. induction 1 as [|c l Hc _ IH]; [done|]. cbn [find_child List.find].
  destruct (name_cmp_ok c s Hc Hs) as (z & -> & Hz). cbn [bind].
  destruct (decide (z = 0)) as [H0|H0].
  - rewrite bool_decide_true by tauto. done.
  - rewrite bool_decide_false by tauto. done.
Qed.

Lemma kids_all p : Forall (node_exists vfs) (kids vfs p).
Proof. apply Forall_forall. intros c Hc. by apply (vo_child vfs Hok p c). Qed.

Lemma child_elem p w c : child vfs p w = Some c -> c ∈ kids vfs p /\ nm vfs c = w.
Proof. intros H. apply find_some in H as [Hi Hn]. split; [by apply list_elem_of_In|]. by apply bool_decide_eq_true in Hn. Qed.

Lemma child_none p w c : child vfs p w = None -> c ∈ kids vfs p -> nm vfs c <> w.
Proof.
  intros H Hc. eapply find_none in H; [|by apply list_elem_of_In]. by apply bool_decide_eq_false in H.
Qed.

Lemma child_after p w c : child vfs p w = Some c -> p < c /\ node_exists vfs c.
Proof. intros H. apply child_elem in H as [H _]. by apply (vo_child vfs Hok). Qed.

Lemma child_search_ok p w : node_exists vfs p -> cstr_ok w ->
  (let* l := children vfs p in find_child vfs l w) = Ok (child vfs p w).
Proof. intros Hp Hw. rewrite (children_ok p Hp). cbn [bind]. by rewrite find_child_ok by (done || apply kids_all). Qed.

Lemma GetChild_ok p w : node_exists vfs p -> cstr_ok w -> GetChild vfs p w = Ok (default 0 (child vfs p w)).
Proof.
  intros Hp Hw. unfold GetChild. pose proof (child_search_ok p w Hp Hw) as H.
  rewrite (children_ok p Hp) in *. cbn [bind] in *. by rewrite H.
Qed.

Lemma child_nonzero p w c : child vfs p w = Some c -> c <> 0.
Proof. intros H. apply child_after in H as [_ H]. apply (vo_range vfs Hok) in H. lia. Qed.

Lemma walk_exists ws : forall p q, node_exists vfs p -> walk vfs p ws = Some q -> node_exists vfs q /\ p <= q.
Proof.
  induction ws as [|w ws IH]; intros p q Hp; simpl; [intros [= ->]; split; [done|lia]|].
  destruct (child vfs p w) as [c|] eqn:E; [|done]. simpl. intros H. apply child_after in E as [Hlt Hc].
  apply IH in H as [? ?]; [|done]. split; [done|lia].
Qed.

Lemma walk_app ws ws' p : walk vfs p (ws ++ ws') = q ← walk vfs p ws; walk vfs q ws'.
Proof. revert p. induction ws as [|w ws IH]; intros p; simpl; [done|]. destruct (child vfs p w); simpl; auto. Qed.

(** A node is reached in one way. *)
Lemma walk_unique ws : forall p ws' q, node_exists vfs p ->
  walk vfs p ws = Some q -> walk vfs p ws' = Some q -> ws = ws'.
Proof.
  induction ws as [|w ws IH] using rev_ind; intros p ws' q Hp H1 H2.
  - simpl in H1. injection H1 as <-. destruct ws' as [|w' ws' _] using rev_ind; [done|]. exfalso.
    rewrite walk_app in H2. destruct (walk vfs p ws') as [x|] eqn:Ex; [|done]. simpl in H2.
    destruct (child vfs x w') as [c|] eqn:Ec; [|done]. injection H2 as ->.
    apply walk_exists in Ex as [_ ?]; [|done]. apply child_after in Ec as [? _]. lia.
  - rewrite walk_app in H1. destruct (walk vfs p ws) as [x|] eqn:Ex; [|done]. simpl in H1.
    destruct (child vfs x w) as [c|] eqn:Ec; [|done]. injection H1 as ->.
    destruct ws' as [|w' ws' _] using rev_ind.
    { exfalso. injection H2 as ->. apply walk_exists in Ex as [_ ?]; [|done]. apply child_after in Ec as [? _]. lia. }
    rewrite walk_app in H2. destruct (walk vfs p ws') as [x'|] eqn:Ex'; [|done]. simpl in H2.
    destruct (child vfs x' w') as [c'|] eqn:Ec'; [|done]. injection H2 as ->.
    apply child_elem in Ec as [Hx <-]. apply child_elem in Ec' as [Hx' <-].
    rewrite (vo_one vfs Hok _ _ _ Hx' Hx) in Ex'. by rewrite (IH p ws' x Hp Ex Ex').
Qed.
End tree.

(** ** A new node below another *)

(** [vfs'] is [vfs] with a new node of name [w], the last child of [p]. *)
Record added (vfs vfs' : Virtual) (p : Z) (w : cstr) (parent : Z) : Prop := {
  ad_next : next vfs' = next vfs + 1;
  ad_root : FileSystemRoot vfs' = FileSystemRoot vfs;
  ad_lock : VFSLock vfs' = VFSLock vfs;
  ad_exists : forall q, node_exists vfs' q <-> q = next vfs \/ node_exists vfs q;
  ad_nm : forall q, nm vfs' q = if decide (q = next vfs) then w else nm vfs q;
  ad_par : forall q, par vfs' q = if decide (q = next vfs) then parent else par vfs q;
  ad_kids : forall q, kids vfs' q = if decide (q = p) then kids vfs p ++ [next vfs] else kids vfs q;
  ad_node : forall q n, nodes vfs' !! q = Some n -> node_ok (next vfs') n
}.

Lemma kids_of_represents n l : represents (Children n) l -> kids_of n = l.
Proof.
  intros Hv. unfold kids_of. destruct (represents_cases _ _ Hv) as [[-> ->]|[rest ->]]; simpl; [done|].
  by rewrite Nat2Z.id, take_app_length.
Qed.

Lemma strcpy_name_ok w n : cstr_ok w -> (length w < FILENAME_LENGTH)%nat -> Name n = replicate FILENAME_LENGTH 0 ->
  strcpy_name w n = Ok (set_Name (w ++ 0 :: replicate (FILENAME_LENGTH - S (length w)) 0) n).
Proof.
  intros Hw Hl Hn. unfold strcpy_name, strcpy. rewrite Hn.
  rewrite (copy_string_spec w Hw _ 0 [] (replicate FILENAME_LENGTH 0)) by (rewrite ?length_replicate; lia).
  cbn [bind nonnull app length]. by rewrite drop_0, Nat.sub_0_r, drop_replicate.
Qed.

Lemma node_ok_mono b b' n : b <= b' -> node_ok b n -> node_ok b' n.
Proof. intros Hb (? & ? & ? & ?). split_and!; try done; lia. Qed.

Lemma push_child_new vfs p n w : vfs_ok vfs -> next vfs < 2 ^ 62 -> node_exists vfs p ->
  Name n = w ++ 0 :: replicate (FILENAME_LENGTH - S (length w)) 0 -> cstr_ok w ->
  (length w < FILENAME_LENGTH)%nat -> Children n = Vector_new ->
  exists vfs', push_child (alloc vfs n).1 p (next vfs) = Ok vfs' /\ added vfs vfs' p w (Parent n).
Proof.
  intros Hok Hb [m Em] Hn Hw Hwl Hc. pose proof (vo_range vfs Hok p ltac:(by eexists)) as Hp.
  unfold push_child, alloc, update, deref. cbn [fst nodes set_nodes]. rewrite decide_False by lia.
  rewrite lookup_insert_ne, Em by lia. cbn [bind].
  destruct (vo_node vfs Hok p m Em) as (Hnm & Hrep & Hlen & Hcap).
  destruct (push_ok 0 (Children m) (kids_of m) (next vfs) Hrep ltac:(lia)) as (v & Ev & Hv). rewrite Ev. cbn [bind].
  assert (VectorCapacity v <= next vfs + 1 + 5) as Hcap'.
  { pose proof (push_capacity 0 (Children m) v (next vfs)) as H. destruct Hrep as [Hs Hrep].
    assert (0 <= VectorCapacity (Children m)) by (destruct (VectorBuffer (Children m)); destruct Hrep; lia).
    specialize (H ltac:(lia) ltac:(lia) Ev). lia. }
  eexists. split; [done|].
  assert (nodes vfs !! next vfs = None) as Hfree.
  { destruct (nodes vfs !! next vfs) as [x|] eqn:E; [|done]. pose proof (vo_range vfs Hok (next vfs) ltac:(by eexists)). lia. }
  assert (name_of n = w) as Hname by (by eapply name_of_ok).
  split; try done; cbn [nodes next set_nodes].
  - intros q. unfold node_exists. cbn [nodes set_nodes]. rewrite !lookup_insert_is_Some'. assert (node_exists vfs p) by (by eexists). naive_solver.
  - intros q. unfold nm. cbn [nodes set_nodes]. destruct (decide (q = next vfs)) as [->|Hq].
    + rewrite lookup_insert_ne, lookup_insert_eq by lia. done.
    + destruct (decide (q = p)) as [->|Hqp]; [by rewrite lookup_insert_eq, Em|by rewrite !lookup_insert_ne by done].
  - intros q. unfold par. cbn [nodes set_nodes]. destruct (decide (q = next vfs)) as [->|Hq].
    + rewrite lookup_insert_ne, lookup_insert_eq by lia. done.
    + destruct (decide (q = p)) as [->|Hqp]; [by rewrite lookup_insert_eq, Em|by rewrite !lookup_insert_ne by done].
  - intros q. unfold kids. cbn [nodes set_nodes]. destruct (decide (q = p)) as [->|Hqp].
    + rewrite lookup_insert_eq, Em. cbn. by apply kids_of_represents.
    + rewrite lookup_insert_ne by done. destruct (decide (q = next vfs)) as [->|Hq].
      * rewrite lookup_insert_eq, Hfree. cbn. unfold kids_of. by rewrite Hc.
      * by rewrite lookup_insert_ne by done.
  - intros q x. destruct (decide (q = p)) as [->|Hqp].
    + rewrite lookup_insert_eq. intros [= <-]. unfold node_ok. cbn [Name Children set_Children].
      rewrite (kids_of_represents (set_Children v m) (kids_of m ++ [next vfs])) by done.
      split_and!; [done|done| |lia]. rewrite length_app. simpl. lia.
    + rewrite lookup_insert_ne by done. destruct (decide (q = next vfs)) as [->|Hq].
      * rewrite lookup_insert_eq. intros [= <-]. unfold node_ok, kids_of. rewrite Hc, Hn. cbn.
        split_and!; [by eauto|done|simpl; lia|lia].
      * rewrite lookup_insert_ne by done. intros E. eapply node_ok_mono; [|by apply (vo_node vfs Hok q)]. lia.
Qed.

(** The invariant holds with the new node, whether or not it knows its parent. *)
Lemma added_ok vfs vfs' p w parent : vfs_ok vfs -> node_exists vfs p -> parent = 0 \/ parent = p ->
  added vfs vfs' p w parent -> vfs_ok vfs'.
Proof.
  intros Hok Hp Hpar Ha. pose proof (vo_range vfs Hok p Hp) as Hpr.
  assert (forall q, next vfs ∉ kids vfs q) as Hnew.
  { intros q Hq. apply (vo_child vfs Hok) in Hq as [_ Hq]. apply (vo_range vfs Hok) in Hq. lia. }
  assert (forall q c, c ∈ kids vfs' q <-> c ∈ kids vfs q \/ (q = p /\ c = next vfs)) as Hk.
  { intros q c. rewrite (ad_kids _ _ _ _ _ Ha). case_decide as D; [subst q|naive_solver].
    rewrite elem_of_app, list_elem_of_singleton. naive_solver. }
  split.
  - rewrite (ad_root _ _ _ _ _ Ha). apply (vo_root vfs Hok).
  - apply (ad_exists _ _ _ _ _ Ha). right. apply (vo_root_node vfs Hok).
  - intros q Hq. apply (ad_exists _ _ _ _ _ Ha) in Hq. rewrite (ad_next _ _ _ _ _ Ha).
    destruct Hq as [->|Hq]; [lia|]. apply (vo_range vfs Hok) in Hq. lia.
  - apply (ad_node _ _ _ _ _ Ha).
  - intros q c Hc. rewrite (ad_exists _ _ _ _ _ Ha). apply Hk in Hc as [Hc|[-> ->]]; [|split; [lia|by left]].
    apply (vo_child vfs Hok) in Hc as [? ?]. auto.
  - intros q q' c Hc Hc'. apply Hk in Hc as [Hc|[-> ->]]; apply Hk in Hc' as [Hc'|[-> E]]; subst; try done.
    + by apply (vo_one vfs Hok _ _ c).
    + by apply Hnew in Hc.
    + by apply Hnew in Hc'.
  - intros q. rewrite (ad_par _ _ _ _ _ Ha). case_decide as D; subst.
    + destruct Hpar as [->| ->]; [by left|right]. apply Hk. auto.
    + destruct (vo_parent vfs Hok q) as [?|?]; [by left|right]. apply Hk. auto.
Qed.

Lemma find_app {A} (f : A -> bool) l k :
  List.find f (l ++ k) = match List.find f l with Some x => Some x | None => List.find f k end.
Proof. induction l as [|x l IH]; simpl; [done|]. by destruct (f x). Qed.

(** What the new node does to the children of the others. *)
Lemma added_child vfs vfs' p w parent q v : vfs_ok vfs -> added vfs vfs' p w parent ->
  child vfs' q v = match child vfs q v with
                   | Some c => Some c
                   | None => if decide (q = p /\ v = w) then Some (next vfs) else None
                   end.
Proof.
  intros Hok Ha.
  assert (forall l, Forall (node_exists vfs) l ->
    List.find (fun c => bool_decide (nm vfs' c = v)) l = List.find (fun c => bool_decide (nm vfs c = v)) l) as Hf.
  { induction 1 as [|c l Hc _ IH]; [done|]. simpl. rewrite IH, (ad_nm _ _ _ _ _ Ha), decide_False; [done|].
    apply (vo_range vfs Hok) in Hc. lia. }
  unfold child at 1. rewrite (ad_kids _ _ _ _ _ Ha). destruct (decide (q = p)) as [->|Hq].
  - rewrite find_app, Hf by apply (kids_all vfs Hok). unfold child at 1.
    destruct (List.find _ (kids vfs p)) as [c|]; [done|]. simpl. rewrite (ad_nm _ _ _ _ _ Ha), decide_True by done.
    destruct (decide (v = w)) as [->|Hv].
    + by rewrite bool_decide_true, decide_True by done.
    + rewrite bool_decide_false by congruence. by rewrite decide_False by naive_solver.
  - rewrite Hf by apply (kids_all vfs Hok). unfold child. destruct (List.find _ (kids vfs q)) as [c|]; [done|].
    by rewrite decide_False by naive_solver.
Qed.

Lemma AddNewChild_ok vfs p w : vfs_ok vfs -> next vfs < 2 ^ 62 -> node_exists vfs p ->
  cstr_ok w -> (length w < FILENAME_LENGTH)%nat ->
  exists vfs', AddNewChild vfs p w = Ok (vfs', next vfs) /\ added vfs vfs' p w p.
Proof.
  intros Hok Hb Hp Hw Hl. unfold AddNewChild. rewrite (strcpy_name_ok w) by done. cbn [bind].
  pose proof Hp as [m Em]. rewrite (deref_ok vfs Hok p m Em). cbn [bind].
  set (n := set_Operator (Operator m) (set_Name _ (set_Parent p new_node))).
  destruct (push_child_new vfs p n w Hok Hb Hp) as (vfs' & E & Ha); [done..|].
  unfold alloc in *. cbn [fst] in E. rewrite E. cbn [bind]. by exists vfs'.
Qed.

Lemma added_mono vfs vfs' p w parent ws : vfs_ok vfs -> added vfs vfs' p w parent ->
  forall q m, walk vfs q ws = Some m -> walk vfs' q ws = Some m.
Proof.
  intros Hok Ha. induction ws as [|v ws IH]; intros q m; simpl; [done|].
  rewrite (added_child vfs vfs' p w parent q v Hok Ha). destruct (child vfs q v); simpl; [apply IH|done].
Qed.

(** A walk in the grown tree is an old one, or ends at the new node. *)
Lemma added_walk vfs vfs' p w parent ws : vfs_ok vfs -> added vfs vfs' p w parent ->
  forall q m, node_exists vfs q -> walk vfs' q ws = Some m ->
  walk vfs q ws = Some m \/ (m = next vfs /\ exists ws', ws = ws' ++ [w] /\ walk vfs q ws' = Some p).
Proof.
  intros Hok Ha. induction ws as [|v ws IH]; intros q m Hq; simpl; [by left|].
  rewrite (added_child vfs vfs' p w parent q v Hok Ha). destruct (child vfs q v) as [c|] eqn:Ec; simpl.
  - intros H. pose proof (child_after vfs Hok q v c Ec) as [_ Hc].
    destruct (IH c m Hc H) as [?|(-> & ws' & -> & ?)]; [by left|right]. split; [done|]. exists (v :: ws').
    split; [done|]. simpl. by rewrite Ec.
  - case_decide as D; [|done]. destruct D as [-> ->]. simpl. destruct ws as [|u ws]; simpl.
    + intros [= <-]. right. split; [done|]. by exists [].
    + assert (child vfs' (next vfs) u = None) as ->; [|done].
      assert (~ node_exists vfs (next vfs)) as Hfree by (intros H; apply (vo_range vfs Hok) in H; lia).
      rewrite (added_child vfs vfs' p w parent _ u Hok Ha). unfold child. rewrite (kids_not vfs _ Hfree). simpl.
      rewrite decide_False; [done|]. intros [E _]. apply (vo_range vfs Hok) in Hq. lia.
Qed.

Lemma added_linked vfs vfs' p w : vfs_ok vfs -> added vfs vfs' p w p -> linked vfs -> linked vfs'.
Proof.
  intros Hok Ha Hl q c Hc Hq. rewrite (ad_root _ _ _ _ _ Ha) in Hq. rewrite (ad_par _ _ _ _ _ Ha).
  rewrite (ad_kids _ _ _ _ _ Ha) in Hc.
  assert (c ∈ kids vfs q \/ (q = p /\ c = next vfs)) as [Hc'|[-> ->]].
  { case_decide as D; [subst q|by left]. apply elem_of_app in Hc as [?|Hc]; [by left|].
    apply list_elem_of_singleton in Hc. by right. }
  - rewrite decide_False; [by apply Hl|]. apply (vo_child vfs Hok) in Hc' as [_ Hc']. apply (vo_range vfs Hok) in Hc'. lia.
  - by rewrite decide_True.
Qed.

(** No node has a child of its own name. *)
Definition quiet (vfs : Virtual) : Prop := forall p c, c ∈ kids vfs p -> nm vfs c <> nm vfs p.

Fixpoint no_repeat (v : cstr) (ws : list cstr) : Prop :=
  match ws with
  | [] => True
  | w :: ws => v <> w /\ no_repeat w ws
  end.

Lemma added_quiet vfs vfs' p w parent : vfs_ok vfs -> node_exists vfs p -> added vfs vfs' p w parent ->
  nm vfs p <> w -> quiet vfs -> quiet vfs'.
Proof.
  intros Hok Hp Ha Hne Hl q c Hc. rewrite !(ad_nm _ _ _ _ _ Ha). rewrite (ad_kids _ _ _ _ _ Ha) in Hc.
  assert (c ∈ kids vfs q \/ (q = p /\ c = next vfs)) as [Hc'|[-> ->]].
  { case_decide as D; [subst q|by left]. apply elem_of_app in Hc as [?|Hc]; [by left|].
    apply list_elem_of_singleton in Hc. by right. }
  - pose proof (kids_exists vfs q c Hc') as Hq. apply (vo_range vfs Hok) in Hq.
    pose proof (vo_child vfs Hok q c Hc') as [_ Hce]. apply (vo_range vfs Hok) in Hce.
    rewrite !decide_False by lia. by apply Hl.
  - rewrite decide_True by done. apply (vo_range vfs Hok) in Hp. rewrite decide_False by lia. congruence.
Qed.

(** ** Creating a path *)

(** [vfs'] is [vfs] with what was missing of [ws] below [p]: every old walk
    leads where it led, and the new ones are below [p] along [ws]. *)
Record grown (vfs vfs' : Virtual) (p : Z) (ws : list cstr) : Prop := {
  gr_ok : vfs_ok vfs';
  gr_next : next vfs <= next vfs' <= next vfs + Z.of_nat (length ws);
  gr_root : FileSystemRoot vfs' = FileSystemRoot vfs;
  gr_lock : VFSLock vfs' = VFSLock vfs;
  gr_exists : forall q, node_exists vfs q -> node_exists vfs' q;
  gr_nm : forall q, node_exists vfs q -> nm vfs' q = nm vfs q;
  gr_mono : forall q v m, walk vfs q v = Some m -> walk vfs' q v = Some m;
  gr_only : forall q v m, node_exists vfs q -> q <= p -> walk vfs' q v = Some m ->
    walk vfs q v = Some m \/ exists v1 v2, v = v1 ++ v2 /\ walk vfs q v1 = Some p /\ v2 `prefix_of` ws;
  gr_linked : linked vfs -> linked vfs';
  gr_quiet : no_repeat (nm vfs p) ws -> quiet vfs -> quiet vfs';
  gr_top : p <> 1 -> kids vfs' 1 = kids vfs 1
}.

Lemma grown_nil vfs p : vfs_ok vfs -> grown vfs vfs p [].
Proof. intros Hok. split; try done; simpl; [lia|]. by left. Qed.

Lemma grown_child vfs vfs' p w c ws : vfs_ok vfs -> child vfs p w = Some c -> grown vfs vfs' c ws ->
  grown vfs vfs' p (w :: ws).
Proof.
  intros Hok Hc Hg. pose proof (child_after vfs Hok p w c Hc) as [Hlt Hce].
  pose proof (child_elem vfs p w c Hc) as [Hin Hnm].
  split; try apply Hg.
  - pose proof (gr_next _ _ _ _ Hg). simpl. lia.
  - intros q v m Hq Hle H. destruct (gr_only _ _ _ _ Hg q v m Hq ltac:(lia) H) as [?|(v1 & v2 & -> & H1 & H2)]; [by left|].
    right. destruct v1 as [|x v1 _] using rev_ind.
    { exfalso. injection H1 as ->. lia. }
    rewrite walk_app in H1 by done. destruct (walk vfs q v1) as [y|] eqn:Ey; [|done]. simpl in H1.
    destruct (child vfs y x) as [c'|] eqn:Ec; [|done]. injection H1 as ->.
    apply child_elem in Ec as [Hy Hx]. rewrite (vo_one vfs Hok y p c Hy Hin) in Ey.
    exists v1, (x :: v2). split; [by rewrite <- app_assoc|]. split; [done|]. rewrite <- Hx, Hnm. by apply prefix_cons.
  - intros [_ Hr]. apply (gr_quiet _ _ _ _ Hg). by rewrite Hnm.
  - intros _. apply (gr_top _ _ _ _ Hg). pose proof (vo_range vfs Hok p (kids_exists vfs p c Hin)). lia.
Qed.

Lemma grown_add vfs vfs1 vfs' p w ws : vfs_ok vfs -> node_exists vfs p -> child vfs p w = None ->
  added vfs vfs1 p w p -> grown vfs1 vfs' (next vfs) ws -> grown vfs vfs' p (w :: ws).
Proof.
  intros Hok Hp Hnone Ha Hg. pose proof (vo_range vfs Hok p Hp) as Hpr.
  assert (vfs_ok vfs1) as Hok1 by (eapply added_ok; eauto).
  assert (forall q, node_exists vfs q -> node_exists vfs1 q) as He by (intros q Hq; apply (ad_exists _ _ _ _ _ Ha); by right).
  assert (nm vfs1 (next vfs) = w) as Hw by (rewrite (ad_nm _ _ _ _ _ Ha); by rewrite decide_True).
  assert (forall q, node_exists vfs q -> nm vfs1 q = nm vfs q) as Hn.
  { intros q Hq. apply (vo_range vfs Hok) in Hq. rewrite (ad_nm _ _ _ _ _ Ha). by rewrite decide_False by lia. }
  split; try apply Hg.
  - pose proof (gr_next _ _ _ _ Hg) as H. rewrite (ad_next _ _ _ _ _ Ha) in H. simpl. lia.
  - rewrite (gr_root _ _ _ _ Hg). apply Ha.
  - rewrite (gr_lock _ _ _ _ Hg). apply Ha.
  - intros q Hq. by apply (gr_exists _ _ _ _ Hg), He.
  - intros q Hq. rewrite (gr_nm _ _ _ _ Hg) by auto. auto.
  - intros q v m H. apply (gr_mono _ _ _ _ Hg). exact (added_mono _ _ _ _ _ _ Hok Ha _ _ H).
  - intros q v m Hq Hle H.
    destruct (gr_only _ _ _ _ Hg q v m (He q Hq) ltac:(lia) H) as [H1|(v1 & v2 & -> & H1 & H2)];
      destruct (added_walk _ _ _ _ _ _ Hok Ha q _ Hq H1) as [H3|(Hm & v' & -> & H3)].
    + by left.
    + right. exists v', [w]. split_and!; [done..|]. apply prefix_cons, prefix_nil.
    + exfalso. apply (walk_exists vfs Hok) in H3 as [H3 _]; [|done]. apply (vo_range vfs Hok) in H3. lia.
    + right. exists v', (w :: v2). rewrite <- app_assoc. split_and!; [done..|]. by apply prefix_cons.
  - intros Hl. apply (gr_linked _ _ _ _ Hg). exact (added_linked _ _ _ _ Hok Ha Hl).
  - intros [Hne Hr] Hq. apply (gr_quiet _ _ _ _ Hg); [by rewrite Hw|]. exact (added_quiet _ _ _ _ _ Hok Hp Ha Hne Hq).
  - intros H1. rewrite (gr_top _ _ _ _ Hg) by lia. rewrite (ad_kids _ _ _ _ _ Ha). by rewrite decide_False by lia.
Qed.

(** Segments that fit in the name of a node. *)
Definition names_ok (ws : list cstr) : Prop := Forall (fun w => cstr_ok w /\ (length w < FILENAME_LENGTH)%nat) ws.

(** One turn of the loop: the child of the name, made when there is none. *)
Lemma create_step vfs p w : vfs_ok vfs -> node_exists vfs p -> cstr_ok w -> (length w < FILENAME_LENGTH)%nat -> next vfs + 1 < 2 ^ 62 ->
  exists vfs1 c, (if decide (default 0 (child vfs p w) = 0) then AddNewChild vfs p w
      else Ok (vfs, default 0 (child vfs p w))) = Ok (vfs1, c) /\ vfs_ok vfs1 /\ node_exists vfs1 c /\ next vfs1 <= next vfs + 1 /\
      child vfs1 p w = Some c /\ forall vfs' ws, grown vfs1 vfs' c ws -> grown vfs vfs' p (w :: ws).
Proof.
  intros Hok Hp Hw Hwl Hb. destruct (child vfs p w) as [c|] eqn:Ec; simpl.
  - pose proof (child_nonzero vfs Hok p w c Ec). rewrite decide_False by done.
    exists vfs, c. split; [done|].
    pose proof (child_after vfs Hok p w c Ec) as [_ Hc]. split_and!; [done..|lia|done|].
    intros vfs' ws. by apply grown_child.
  - destruct (AddNewChild_ok vfs p w Hok ltac:(lia) Hp Hw Hwl) as (vfs1 & E & Ha). exists vfs1, (next vfs).
    split; [done|]. assert (vfs_ok vfs1) by (eapply added_ok; eauto). split_and!; [done| | | |].
    + apply (ad_exists _ _ _ _ _ Ha). by left.
    + rewrite (ad_next _ _ _ _ _ Ha). lia.
    + rewrite (added_child vfs vfs1 p w p p w Hok Ha), Ec. by rewrite decide_True.
    + intros vfs' ws. by apply grown_add with (vfs1 := vfs1).
Qed.

Lemma create_loop_ok fuel : forall vfs p seg l w r,
  vfs_ok vfs -> node_exists vfs p -> cstr_ok (sg_path seg) -> seg_at seg l w r ->
  names_ok (w :: words r) -> next vfs + Z.of_nat (length (w :: words r)) < 2 ^ 62 -> (length (words r) < fuel)%nat ->
  exists vfs' n, create_loop vfs p seg fuel = Ok (vfs', n) /\ grown vfs vfs' p (w :: words r) /\
    walk vfs' p (w :: words r) = Some n.
Proof.
  induction fuel as [|f IH]; intros vfs p seg l w r Hok Hp Hs Hat Hns Hb Hf; [lia|]. cbn [create_loop].
  pose proof Hns as [[Hw Hwl] Hns']%Forall_cons. cbn [length] in Hb.
  rewrite (segment_name_ok seg l w r Hs Hat). cbn [bind]. rewrite (GetChild_ok vfs Hok p w Hp Hw). cbn [bind].
  destruct (create_step vfs p w Hok Hp Hw Hwl ltac:(lia)) as (vfs1 & c & -> & Hok1 & Hc & Hn1 & Hch & Hg).
  cbn [bind]. pose proof (next_segment_spec seg l w r Hs Hat) as Hnext.
  destruct (words r) as [|w' A] eqn:Er.
  - rewrite Hnext. cbn [bind]. exists vfs1, c. split; [done|]. split; [by apply Hg, grown_nil|].
    simpl. by rewrite Hch.
  - destruct Hnext as (seg' & l' & r' & -> & Hsp & _ & Hat' & _ & Hr'). cbn [bind]. rewrite <- Hsp in Hs. subst A.
    destruct (IH vfs1 c seg' l' w' r' Hok1 Hc Hs Hat') as (vfs' & n & E & Hgr & Hwk); [done|cbn [length] in *; lia..|].
    exists vfs', n. split; [done|]. split; [by apply Hg|].
    assert (child vfs' p w = Some c) as Hc'.
    { pose proof (gr_mono _ _ _ _ Hgr p [w] c) as H. simpl in H. rewrite Hch in H. specialize (H eq_refl).
      destruct (child vfs' p w); simpl in H; congruence. }
    cbn [walk]. rewrite Hc'. exact Hwk.
Qed.

(** A name that does not fit in a node is no name of a child, so that it is
    copied past the array of a new one. *)
Lemma create_long vfs p w : vfs_ok vfs -> cstr_ok w -> (FILENAME_LENGTH <= length w)%nat ->
  child vfs p w = None /\ AddNewChild vfs p w = Err OutOfBounds.
Proof.
  intros Hok Hw Hl. split.
  - destruct (child vfs p w) as [c|] eqn:Ec; [|done]. apply child_elem in Ec as [_ <-]. pose proof (nm_length vfs Hok c). lia.
  - unfold AddNewChild, strcpy_name, strcpy. rewrite copy_string_oob; [done|done|change (Name _) with (replicate FILENAME_LENGTH 0); by rewrite length_replicate|lia].
Qed.

Lemma create_loop_long fuel : forall vfs p seg l w r,
  vfs_ok vfs -> node_exists vfs p -> cstr_ok (sg_path seg) -> seg_at seg l w r -> Forall cstr_ok (w :: words r) ->
  ~ names_ok (w :: words r) -> next vfs + Z.of_nat (length (w :: words r)) < 2 ^ 62 -> (length (words r) < fuel)%nat ->
  create_loop vfs p seg fuel = Err OutOfBounds.
Proof.
  induction fuel as [|f IH]; intros vfs p seg l w r Hok Hp Hs Hat Hcs Hns Hb Hf; [lia|]. cbn [create_loop].
  pose proof Hcs as [Hw Hcs']%Forall_cons. cbn [length] in Hb.
  rewrite (segment_name_ok seg l w r Hs Hat). cbn [bind]. rewrite (GetChild_ok vfs Hok p w Hp Hw). cbn [bind].
  destruct (decide (length w < FILENAME_LENGTH)%nat) as [Hwl|Hwl].
  2:{ destruct (create_long vfs p w Hok Hw ltac:(lia)) as [-> ->]. done. }
  destruct (create_step vfs p w Hok Hp Hw Hwl ltac:(lia)) as (vfs1 & c & -> & Hok1 & Hc & Hn1 & _).
  cbn [bind]. pose proof (next_segment_spec seg l w r Hs Hat) as Hnext.
  destruct (words r) as [|w' A] eqn:Er; [by destruct Hns; apply Forall_cons|].
  destruct Hnext as (seg' & l' & r' & -> & Hsp & _ & Hat' & _ & Hr'). cbn [bind]. rewrite <- Hsp in Hs. subst A.
  apply (IH vfs1 c seg' l' w' r' Hok1 Hc Hs Hat'); [done| |cbn [length] in *; lia..].
  intros H. apply Hns. by constructor.
Qed.
