(* ===== verification/VfsPaths.v ===== *)
(** * Paths in the virtual file system

    How src/kernel/filesystem/FileSystem.cpp finds nodes by paths and paths by
    nodes, and the theorems on the operations of the file system: creation
    adds exactly the missing part of a path, what was created is found again
    and its path is the one it was created by. *)

From stdpp Require Import gmap.
From S2P Require Import Prelude OutBuffer CString Cwalk CwalkSpec CwalkIter CwalkNormalize CwalkRelative Vector Vfs VfsSpec.

Local Open Scope Z_scope.

(** ** Finding nodes *)

(** Where the search of the code ends, when no node has a child of its own
    name: a segment that is missing leaves the search where it is. *)
Fixpoint seek (vfs : Virtual) (p : Z) (ws : list cstr) : Z :=
  match ws with
  | [] => p
  | w :: ws => seek vfs (default p (child vfs p w)) ws
  end.

Lemma seek_walk vfs ws : forall p n, walk vfs p ws = Some n -> seek vfs p ws = n.
Proof.
  induction ws as [|w ws IH]; intros p n; simpl; [congruence|]. destruct (child vfs p w); simpl; [apply IH|done].
Qed.

Section lookup.
Context (vfs : Virtual) (Hok : vfs_ok vfs).

(** The descent ends at a node without a child of that name. *)
Lemma descend_ok w fuel : cstr_ok w -> forall p, node_exists vfs p -> next vfs - p < Z.of_nat fuel ->
  exists x, descend vfs p w fuel = Ok x /\ node_exists vfs x /\ child vfs x w = None /\
    (child vfs p w = None -> x = p) /\
    (forall c, child vfs p w = Some c -> child vfs c w = None -> x = c).
Proof.
  intros Hw. induction fuel as [|f IH]; intros p Hp Hf; [apply (vo_range vfs Hok) in Hp; lia|]. cbn [descend].
  pose proof (child_search_ok vfs Hok p w Hp Hw) as Hs. rewrite (children_ok vfs Hok p Hp) in *. cbn [bind] in *.
  rewrite Hs. cbn [bind]. destruct (child vfs p w) as [c|] eqn:Ec.
  - pose proof (child_after vfs Hok p w c Ec) as [Hlt Hc].
    destruct (IH c Hc ltac:(lia)) as (x & E & Hx & Hn & Hx1 & _). exists x. split_and!; try done.
    intros c' [= <-] H. by apply Hx1.
  - exists p. split_and!; done.
Qed.

Lemma quiet_child p w c : quiet vfs -> child vfs p w = Some c -> child vfs c w = None.
Proof.
  intros Hq Hc. destruct (child vfs c w) as [d|] eqn:Ed; [|done]. exfalso.
  apply child_elem in Hc as [_ Hc]. apply child_elem in Ed as [Hin Hd]. apply (Hq c d Hin). congruence.
Qed.

Lemma depth_fuel_enough p : node_exists vfs p -> next vfs - p < Z.of_nat (depth_fuel vfs).
Proof. intros Hp. apply (vo_range vfs Hok) in Hp. unfold depth_fuel. lia. Qed.

Lemma node_from_path_loop_ok fuel : forall p seg l w r,
  node_exists vfs p -> cstr_ok (sg_path seg) -> seg_at seg l w r -> Forall cstr_ok (w :: words r) ->
  (length (words r) < fuel)%nat ->
  exists x, node_from_path_loop vfs p seg fuel = Ok x /\ node_exists vfs x /\
    (quiet vfs -> x = seek vfs p (w :: words r)).
Proof.
  induction fuel as [|f IH]; intros p seg l w r Hp Hs Hat Hns Hf; [lia|]. cbn [node_from_path_loop].
  pose proof Hns as [Hw Hns']%Forall_cons. rewrite (segment_name_ok seg l w r Hs Hat). cbn [bind].
  destruct (descend_ok w (depth_fuel vfs) Hw p Hp (depth_fuel_enough p Hp)) as (x & -> & Hx & _ & Hn & Hc). cbn [bind].
  assert (quiet vfs -> x = default p (child vfs p w)) as Hxq.
  { intros Hq. destruct (child vfs p w) as [c|] eqn:Ec; simpl; [|by apply Hn]. apply Hc; [done|]. by eapply quiet_child. }
  pose proof (next_segment_spec seg l w r Hs Hat) as Hnext. destruct (words r) as [|w' A] eqn:Er.
  - rewrite Hnext. cbn [bind]. exists x. split_and!; done.
  - destruct Hnext as (seg' & l' & r' & -> & Hsp & _ & Hat' & _ & Hr'). cbn [bind]. rewrite <- Hsp in Hs. subst A.
    destruct (IH x seg' l' w' r' Hx Hs Hat') as (y & -> & Hy & Hw'); [done|simpl in *; lia|].
    exists y. split_and!; [done..|]. intros Hq. rewrite Hw' by done. cbn [seek]. by rewrite <- (Hxq Hq).
Qed.

(** The basename of a path that ends in a segment. *)
Lemma get_basename_ok dir w : cstr_ok (dir ++ w) -> last (words (dir ++ w)) = Some w ->
  Forall (fun c => nosep c = true) w ->
  cwk_path_get_basename style (dir ++ w) = Ok (Some (length dir, length w)).
Proof.
  intros Hs Hl Hw. pose proof (get_last_segment_unix _ Hs) as H. unfold cwk_path_get_basename.
  rewrite <- (reverse_involutive (words (dir ++ w))) in Hl.
  destruct (list.reverse (words (dir ++ w))) as [|w' R]; [done|]. rewrite reverse_cons, last_snoc in Hl. injection Hl as ->.
  destruct H as (seg & l & r & -> & E & Hb & Hsz & _ & _ & Hwne & Hr & _ & _). cbn [bind].
  assert (r = []) as ->.
  { destruct r as [|c r _] using rev_ind; [done|]. exfalso. apply Forall_app in Hr as [_ Hr]. apply Forall_cons in Hr as [Hc _].
    destruct w as [|d w0 _] using rev_ind; [done|].
    rewrite !app_assoc in E. apply app_inj_tail in E as [_ ->]. apply Forall_app in Hw as [_ Hw].
    apply Forall_cons in Hw as [Hw _]. unfold nosep in Hw. by rewrite Hc in Hw. }
  rewrite app_nil_r in E. apply app_inv_tail in E as <-. by rewrite Hb, Hsz.
Qed.

(** The comparison with the basename of such a path. *)
Lemma basename_is_ok path dir w p : cstr_ok path -> path = dir ++ w -> last (words path) = Some w ->
  Forall (fun c => nosep c = true) w -> node_exists vfs p ->
  basename_is vfs path p = Ok (bool_decide (w = nm vfs p)).
Proof.
  intros Hs -> Hl Hw [n En]. unfold basename_is. rewrite get_basename_ok by done. cbn [bind nonnull].
  rewrite drop_app_length, (deref_ok vfs Hok p n En). cbn [bind].
  destruct (name_string vfs Hok p n En) as [-> Hn]. cbn [bind].
  apply Forall_app in Hs as [_ Hs]. destruct (strcmp_ok w (nm vfs p) Hs Hn) as (z & -> & Hz). cbn [bind].
  f_equal. by apply bool_decide_ext.
Qed.

Lemma basename_total path : cstr_ok path -> exists b, basename path = Ok b.
Proof.
  intros Hs. pose proof (get_last_segment_unix _ Hs) as H. unfold basename, cwk_path_get_basename.
  destruct (list.reverse (words path)); [destruct H as (seg & ->)|destruct H as (seg & ? & ? & -> & _)]; cbn [bind]; eauto.
Qed.
End lookup.

(** ** Normalised absolute paths *)

(** The text of an absolute path in normal form. *)
Definition abs_text (ws : list cstr) : cstr := 47 :: intercalate ws.

Lemma normal_text_abs ws : normal_text true ws = abs_text (resolve true ws).
Proof. apply normal_text_true. Qed.

Lemma words_abs_text ws : segments_ok ws -> words (abs_text ws) = ws.
Proof. intros H. unfold abs_text. rewrite words_sep by done. by apply words_intercalate. Qed.

Lemma abs_text_ok ws : Forall cstr_ok ws -> cstr_ok (abs_text ws).
Proof. intros H. apply Forall_cons. split; [lia|]. by apply intercalate_forall. Qed.

Lemma intercalate_snoc ws w : exists dir, intercalate (ws ++ [w]) = dir ++ w.
Proof.
  induction ws as [|v ws [dir E]]; [by exists []|]. cbn [app intercalate].
  destruct (ws ++ [w]) as [|u us] eqn:Eu; [by destruct ws|]. rewrite E. exists (v ++ 47 :: dir). by rewrite <- app_assoc.
Qed.

(** The segments of a path that the file system works with. *)
Definition segs (path : cstr) : list cstr := resolve true (words path).

Lemma segs_segments_ok path : segments_ok (segs path).
Proof. apply resolve_segments_ok, words_segments_ok. Qed.

Lemma segs_cstr_ok path : cstr_ok path -> Forall cstr_ok (segs path).
Proof.
  intros H. rewrite Forall_forall. intros w Hw. pose proof (words_forall _ _ H) as Hf. rewrite Forall_forall in Hf. apply Hf.
  by apply (sublist_subseteq _ _ (resolve_sublist true (words path))).
Qed.

Lemma segs_abs_text path : segs (abs_text (segs path)) = segs path.
Proof.
  unfold segs at 1. rewrite words_abs_text by apply segs_segments_ok.
  apply resolve_fix, resolve_resolved.
Qed.

Lemma length_segs path : (length (segs path) <= length path)%nat.
Proof.
  pose proof (sublist_length _ _ (resolve_sublist true (words path))). pose proof (length_words path). unfold segs. lia.
Qed.

Lemma length_abs_text path : is_abs path = true -> (length (abs_text (segs path)) <= length path)%nat.
Proof. intros Ha. pose proof (length_normal_text path) as H. rewrite Ha, normal_text_abs in H. exact H. Qed.

Lemma NormalizePath_abs vfs p path : cstr_ok path -> is_abs path = true -> Z.of_nat (length path) < 2 ^ 62 ->
  NormalizePath vfs p path = Ok (abs_text (segs path)).
Proof.
  intros Hs Ha Hl. unfold NormalizePath. rewrite strlen_Ok by (done || lia). cbn [bind]. rewrite Nat.sub_0_r.
  pose proof (length_abs_text path Ha) as Hla. pose proof (abs_text_ok _ (segs_cstr_ok path Hs)) as Ht.
  replace (Z.of_nat (length path) + 1) with (Z.of_nat (S (length path))) by lia. rewrite Nat2Z.id.
  unfold cwk_path_normalize. rewrite join_and_normalize_spec;
    [|by auto|by rewrite length_replicate|done|rewrite normal_join_1, Ha, normal_text_abs; fold (segs path); lia].
  rewrite normal_join_1, Ha, normal_text_abs. fold (segs path). cbn [bind].
  unfold final_output. rewrite decide_False by lia. unfold output_of. rewrite take_ge by lia.
  rewrite cstring_ok by done. cbn [bind]. unfold cwk_path_is_relative. rewrite is_absolute_unix. cbn [bind].
  change (negb (is_abs (abs_text (segs path)))) with false. cbv iota.
  rewrite strlen_Ok by (done || lia). cbn [bind]. rewrite Nat.sub_0_r. unfold strcpy.
  rewrite (copy_string_spec _ Ht _ 0 [] (replicate (Z.to_nat (Z.of_nat (length (abs_text (segs path))) + 1)) 0))
    by (rewrite ?length_replicate; lia).
  cbn [bind nonnull app]. rewrite drop_0. by apply cstring_ok.
Qed.

(** ** The path of a node *)

Lemma find_nul_ok t rest : cstr_ok t -> forall fuel i pre,
  (length t < fuel)%nat -> i = length pre -> find_nul (pre ++ t ++ 0 :: rest) i fuel = Ok (i + length t)%nat.
Proof.
  induction 1 as [|c t Hc _ IH]; intros fuel i pre Hf ->; (destruct fuel as [|f]; [simpl in Hf; lia|]); cbn [find_nul app length].
  - rewrite aget_app_r by done. cbn [bind]. rewrite decide_True by done. f_equal. lia.
  - rewrite aget_app_r by done. cbn [bind]. rewrite decide_False by lia. simpl in Hf.
    replace (pre ++ c :: t ++ 0 :: rest) with ((pre ++ [c]) ++ t ++ 0 :: rest) by (by rewrite <- app_assoc).
    rewrite IH; [f_equal|..]; rewrite ?length_app; simpl; lia.
Qed.

(** [strcat] on a buffer filled with zeros after its text. *)
Lemma strcat_ok t s k : cstr_ok t -> cstr_ok s -> (length s < k)%nat ->
  strcat (Some (t ++ replicate k 0)) (Some s) = Ok (Some ((t ++ s) ++ replicate (k - length s) 0)).
Proof.
  intros Ht Hs Hk. unfold strcat. destruct k as [|k]; [lia|]. cbn [replicate].
  pose proof (find_nul_ok t (replicate k 0) Ht (S (length (t ++ 0 :: replicate k 0))) 0 []) as E. cbn [app] in E.
  rewrite E by (rewrite ?length_app; simpl; lia). cbn [bind].
  change (0 :: replicate k 0) with (replicate (S k) 0).
  rewrite (copy_string_spec s Hs _ 0 t (replicate (S k) 0)) by (rewrite ?length_replicate; lia). cbn [bind].
  rewrite drop_0, Nat.sub_0_r, drop_replicate, <- app_assoc. do 4 f_equal.
  replace (S k - length s)%nat with (S (S k - S (length s))) by lia. done.
Qed.

Definition total (l : list cstr) : nat := length (concat l).

Lemma path_size_ok l : Forall cstr_ok l -> forall n, 0 <= n -> n + Z.of_nat (total l) < 2 ^ 64 ->
  path_size (map Some l) n = Ok (n + Z.of_nat (total l)).
Proof.
  induction 1 as [|s l Hs _ IH]; intros n Hn Hlt; cbn [map path_size nonnull bind]; [unfold total; simpl; f_equal; lia|].
  rewrite strlen_Ok by (done || lia). cbn [bind]. rewrite Nat.sub_0_r. unfold total in *. cbn [concat] in *.
  rewrite length_app in *. rewrite wrapu_small by lia. rewrite IH by lia. f_equal. lia.
Qed.

Lemma path_cat_ok l : Forall cstr_ok l -> forall t k, cstr_ok t -> (total l < k)%nat ->
  path_cat (map Some l) (Some (t ++ replicate k 0)) = Ok (Some ((t ++ concat l) ++ replicate (k - total l) 0)).
Proof.
  induction 1 as [|s l Hs _ IH]; intros t k Ht Hk; cbn [map path_cat].
  { unfold total. simpl. by rewrite app_nil_r, Nat.sub_0_r. }
  unfold total in *. cbn [concat] in *. rewrite length_app in *. rewrite strcat_ok by (done || lia). cbn [bind].
  rewrite IH; [|by apply Forall_app|lia]. rewrite <- (app_assoc t), Nat.sub_add_distr. done.
Qed.

(** The pieces of a path, in the order in which the code collects them. *)
Definition up_pieces (ns : list cstr) : list (option cstr) := concat (map (fun w => [Some w; Some (bytes_of "/")]) ns).
Definition down_pieces (ns : list cstr) : list cstr := concat (map (fun w => [bytes_of "/"; w]) ns).

Lemma rev_up_pieces ns : rev (up_pieces ns) = map Some (down_pieces (rev ns)).
Proof.
  induction ns as [|w ns IH]; [done|]. unfold up_pieces, down_pieces in *. cbn [map concat rev].
  rewrite rev_app_distr, IH, map_app, concat_app, map_app. done.
Qed.

Lemma concat_down_pieces ns : concat (down_pieces ns) = tail_text ns.
Proof.
  induction ns as [|w ns IH]; [done|]. unfold down_pieces, tail_text in *. cbn [map concat app fmap list_fmap].
  by rewrite IH.
Qed.

Lemma down_pieces_ok ns : Forall cstr_ok ns -> Forall cstr_ok (down_pieces ns).
Proof.
  induction 1 as [|w ns Hw _ IH]; [constructor|]. unfold down_pieces in *. cbn [map concat app].
  repeat apply Forall_cons_2; [vm_compute; intuition congruence|constructor|done|done].
Qed.

Lemma push_bounded {A} (zero : A) v l x : represents v l -> VectorCapacity v <= VectorSize v + 5 ->
  Z.of_nat (length l) < 2 ^ 62 ->
  exists v', push_back zero v x = Ok v' /\ represents v' (l ++ [x]) /\ VectorCapacity v' <= VectorSize v' + 5.
Proof.
  intros Hv Hc Hl. pose proof Hv as [Hs Hb].
  assert (0 <= VectorCapacity v) by (destruct (VectorBuffer v); destruct Hb; lia).
  destruct (push_ok zero v l x Hv ltac:(lia)) as (v' & E & Hv'). exists v'. split_and!; [done..|].
  pose proof (push_capacity zero v v' x ltac:(lia) ltac:(lia) E). destruct Hv' as [Hs' _].
  rewrite length_app in Hs'. simpl in Hs'. lia.
Qed.

Section climb.
Context (vfs : Virtual) (Hok : vfs_ok vfs).

Lemma par_lookup p n : nodes vfs !! p = Some n -> Parent n = par vfs p.
Proof. intros E. unfold par. by rewrite E. Qed.

Lemma par_before p : par vfs p = 0 \/ (node_exists vfs (par vfs p) /\ par vfs p < p).
Proof.
  destruct (vo_parent vfs Hok p) as [?|H]; [by left|right]. split; [by eapply kids_exists|].
  by apply (vo_child vfs Hok) in H as [? _].
Qed.

(** What the names above a node are when parent links are set. *)
Lemma walk_up top ws p : linked vfs -> top ∈ kids vfs 1 -> walk vfs top ws = Some p ->
  match list.reverse ws with
  | [] => p ∈ kids vfs 1
  | w :: R => p ∉ kids vfs 1 /\ p <> 1 /\ p <> 0 /\ nm vfs p = w /\ walk vfs top (list.reverse R) = Some (par vfs p)
  end.
Proof.
  intros Hl Htop Hw. pose proof (vo_child vfs Hok 1 top Htop) as [Htop1 Htope].
  destruct ws as [|w ws _] using rev_ind; [simpl in *; by simplify_eq|]. rewrite reverse_snoc, reverse_involutive.
  rewrite walk_app in Hw by done. destruct (walk vfs top ws) as [x|] eqn:Ex; [|done]. simpl in Hw.
  destruct (child vfs x w) as [c|] eqn:Ec; [|done]. injection Hw as ->.
  apply (walk_exists vfs Hok) in Ex as [Hx Hle]; [|done]. apply child_elem in Ec as [Hin Hnm].
  pose proof (vo_child vfs Hok x p Hin) as [Hlt _]. split_and!; [|lia|lia|done|].
  - intros H1. pose proof (vo_one vfs Hok x 1 p Hin H1). lia.
  - f_equal. symmetry. apply Hl; [done|]. rewrite (vo_root vfs Hok). lia.
Qed.

Lemma path_loop_ok fuel : forall p v l, (p = 0 \/ node_exists vfs p) -> p < Z.of_nat fuel ->
  represents v l -> VectorCapacity v <= VectorSize v + 5 -> Z.of_nat (length l) + 2 * p < 2 ^ 60 ->
  exists v' ns, path_loop vfs p v fuel = Ok v' /\ represents v' (l ++ up_pieces ns) /\ Z.of_nat (length ns) <= p /\
    Forall (fun w => cstr_ok w /\ (length w < FILENAME_LENGTH)%nat) ns /\
    (forall top ws, linked vfs -> top ∈ kids vfs 1 -> walk vfs top ws = Some p -> ns = list.reverse ws) /\
    (p = 0 -> ns = []) /\ (p <> 0 -> p <> 1 -> p ∉ kids vfs 1 -> par vfs p = 0 -> ns = [nm vfs p]).
Proof.
  induction fuel as [|f IH]; intros p v l Hp Hf Hv Hc Hl.
  { destruct Hp as [->|Hp]; [simpl in *; lia|]. apply (vo_range vfs Hok) in Hp. simpl in *. lia. }
  cbn [path_loop]. rewrite (vo_root vfs Hok).
  assert (0 <= p) as Hp0 by (destruct Hp as [->|Hp]; [done|apply (vo_range vfs Hok) in Hp; lia]).
  destruct (decide (p = 1 \/ p = 0)) as [D|D].
  { exists v, []. split_and!; [done|by rewrite app_nil_r|done|constructor| |done|tauto]. intros top ws Hlk Htop Hw.
    pose proof (walk_up top ws p Hlk Htop Hw) as H. destruct (list.reverse ws); [done|]. exfalso. destruct H as (_ & ? & ? & _). tauto. }
  destruct Hp as [->|Hp]; [tauto|]. rewrite (children_ok vfs Hok 1 (vo_root_node vfs Hok)). cbn [bind].
  destruct (decide (p ∈ kids vfs 1)) as [Hin|Hnin].
  { exists v, []. split_and!; [done|by rewrite app_nil_r|done|constructor| |done|done]. intros top ws Hlk Htop Hw.
    pose proof (walk_up top ws p Hlk Htop Hw) as H. destruct (list.reverse ws); [done|]. by destruct H as [? _]. }
  pose proof Hp as [n En]. rewrite (deref_ok vfs Hok p n En). cbn [bind].
  destruct (name_string vfs Hok p n En) as [-> Hnm]. cbn [bind].
  destruct (push_bounded None v l (Some (nm vfs p)) Hv Hc ltac:(lia)) as (v1 & -> & Hv1 & Hc1). cbn [bind].
  destruct (push_bounded None v1 _ (Some (bytes_of "/")) Hv1 Hc1) as (v2 & -> & Hv2 & Hc2).
  { rewrite length_app. simpl. lia. }
  cbn [bind]. rewrite (par_lookup p n En).
  assert ((par vfs p = 0 \/ node_exists vfs (par vfs p)) /\ par vfs p < p) as [Hpp Hlt].
  { apply (vo_range vfs Hok) in Hp. destruct (par_before p) as [->|[? ?]]; [split; [by left|lia]|auto]. }
  destruct (IH (par vfs p) v2 _ Hpp ltac:(lia) Hv2 Hc2) as (v' & ns & -> & Hv' & Hlen & Hns & Hup & Hz & _).
  { rewrite !length_app. simpl. lia. }
  exists v', (nm vfs p :: ns). split_and!; [done| | | | |tauto|intros _ _ _ H0; by rewrite Hz].
  - unfold up_pieces in *. cbn [map concat]. by rewrite <- !app_assoc in Hv'.
  - cbn [length]. lia.
  - constructor; [split; [done|by apply nm_length]|done].
  - intros top ws Hlk Htop Hw. pose proof (walk_up top ws p Hlk Htop Hw) as H.
    destruct (list.reverse ws) as [|w R] eqn:ER; [contradiction|]. destruct H as (_ & _ & _ & <- & Hw').
    rewrite (Hup top (list.reverse R) Hlk Htop Hw'). by rewrite reverse_involutive.
Qed.

Lemma tail_text_length ns : Forall (fun w => cstr_ok w /\ (length w < FILENAME_LENGTH)%nat) ns ->
  (length (tail_text ns) <= 256 * length ns)%nat.
Proof.
  induction 1 as [|w ns [_ Hw] _ IH]; [simpl; lia|]. unfold tail_text in *. cbn [fmap list_fmap concat].
  rewrite length_app. cbn [length]. unfold FILENAME_LENGTH in Hw. change (list_fmap cstr cstr (cons 47) ns) with ((cons 47) <$> ns).
  lia.
Qed.

(** [GetPathFromNode] on any node, and on one reached by names. *)
Lemma GetPathFromNode_ok p : p = 0 \/ node_exists vfs p -> next vfs < 2 ^ 50 ->
  exists ws, GetPathFromNode vfs p = Ok (tail_text ws) /\ cstr_ok (tail_text ws) /\
    Z.of_nat (length (tail_text ws)) < 2 ^ 59 /\
    (forall top ws', linked vfs -> top ∈ kids vfs 1 -> walk vfs top ws' = Some p -> ws = ws') /\
    (p <> 0 -> p <> 1 -> p ∉ kids vfs 1 -> par vfs p = 0 -> ws = [nm vfs p]).
Proof.
  intros Hp Hb. unfold GetPathFromNode.
  assert (p < next vfs) as Hpn.
  { destruct Hp as [->|Hp]; [pose proof (vo_range vfs Hok 1 (vo_root_node vfs Hok)); lia|]. apply (vo_range vfs Hok) in Hp. lia. }
  assert (0 <= p) as Hp0 by (destruct Hp as [->|Hp]; [done|apply (vo_range vfs Hok) in Hp; lia]).
  destruct (path_loop_ok (depth_fuel vfs) p Vector_new [] Hp) as (v & ns & -> & Hv & Hlen & Hns & Hup & _ & Hone);
    [unfold depth_fuel; lia|done|simpl; lia|simpl; lia|].
  cbn [bind]. destruct (reverse_ok v _ Hv) as (v' & -> & Hv'). cbn [bind]. rewrite (elements_ok v' _ Hv'). cbn [bind app].
  cbn [app] in *. rewrite rev_up_pieces.
  assert (Forall (fun w => cstr_ok w /\ (length w < FILENAME_LENGTH)%nat) (rev ns)) as Hrn.
  { rewrite Forall_forall in *. intros w Hw. apply Hns. apply list_elem_of_In. rewrite in_rev. by apply list_elem_of_In. }
  assert (Forall cstr_ok (rev ns)) as Hrc by (eapply Forall_impl; [exact Hrn|]; naive_solver).
  pose proof (down_pieces_ok _ Hrc) as Hdp. pose proof (tail_text_length _ Hrn) as Htl. rewrite length_rev in Htl.
  assert (total (down_pieces (rev ns)) = length (tail_text (rev ns))) as Ht by (unfold total; by rewrite concat_down_pieces).
  rewrite path_size_ok by (done || lia). cbn [bind]. rewrite Ht.
  pose proof (path_cat_ok _ Hdp [] (Z.to_nat (1 + Z.of_nat (length (tail_text (rev ns))))) (Forall_nil_2 _)) as Hpc.
  cbn [app] in Hpc. rewrite Hpc by lia. cbn [bind nonnull]. rewrite Ht, concat_down_pieces.
  replace (Z.to_nat (1 + Z.of_nat (length (tail_text (rev ns)))) - length (tail_text (rev ns)))%nat with 1%nat by lia.
  assert (cstr_ok (tail_text (rev ns))) as Hok'.
  { rewrite <- concat_down_pieces. clear -Hdp. induction Hdp; [constructor|]. cbn. by apply Forall_app. }
  exists (rev ns). split; [by apply cstring_ok|]. split; [done|]. split; [lia|].
  split; [|intros H0 H1 Hk Hpar; by rewrite (Hone H0 H1 Hk Hpar)].
  intros top ws Hlk Htop Hw. rewrite (Hup top ws Hlk Htop Hw). rewrite rev_alt. 
  change (rev_append (list.reverse ws) []) with (list.reverse (list.reverse ws)). apply reverse_involutive.
Qed.
End climb.

(** ** Searches by path *)

Section search.
Context (vfs : Virtual) (Hok : vfs_ok vfs).

Lemma abs_text_last path w ws : segs path = ws ++ [w] -> exists dir, abs_text (segs path) = dir ++ w.
Proof. intros ->. unfold abs_text. destruct (intercalate_snoc ws w) as [dir ->]. by exists (47 :: dir). Qed.

Lemma GetNodeFromPath_abs p path : cstr_ok path -> node_exists vfs p ->
  exists x, GetNodeFromPath vfs p (abs_text (segs path)) = Ok x /\
    (x = 0 \/ node_exists vfs x /\ (nm vfs p = abs_text (segs path) \/ last (segs path) = Some (nm vfs x))) /\
    (quiet vfs -> nm vfs p <> abs_text (segs path) ->
       x = if decide (last (segs path) = Some (nm vfs (seek vfs p (segs path)))) then seek vfs p (segs path) else 0).
Proof.
  intros Hs Hp. pose proof (segs_cstr_ok path Hs) as Hc. pose proof (abs_text_ok _ Hc) as Ht.
  pose proof (words_abs_text _ (segs_segments_ok path)) as Hw. unfold GetNodeFromPath.
  destruct (name_cmp_ok vfs Hok p (abs_text (segs path)) Hp Ht) as (z & -> & Hz). cbn [bind].
  destruct (decide (z = 0)) as [H0|H0].
  { exists p. split; [done|]. split; [right; split; [done|]; left; tauto|]. tauto. }
  unfold cwk_path_get_first_segment. rewrite get_root_unix. cbn [bind].
  pose proof (first_segment_spec (abs_text (segs path)) 1 Ht ltac:(simpl; lia)) as Hfirst.
  change (if is_abs (abs_text (segs path)) then 1%nat else 0%nat) with 1%nat.
  assert (words (drop 1 (abs_text (segs path))) = segs path) as Hw1.
  { cbn [drop abs_text]. apply words_intercalate, segs_segments_ok. }
  rewrite Hw1 in Hfirst.
  destruct (segs path) as [|w A] eqn:Es.
  { destruct Hfirst as (seg & -> & _). cbn [bind negb]. exists 0. split; [done|]. split; [by left|]. by intros. }
  rewrite <- Es in *. destruct Hfirst as (seg & l & r & -> & Hsp & _ & Hat & _ & Hr). cbn [bind negb].
  destruct (node_from_path_loop_ok vfs Hok (S (length (abs_text (segs path)))) p seg l w r Hp) as (x & -> & Hx & Hwalk).
  { by rewrite Hsp. } { done. } { by rewrite Hr, <- Es. }
  { rewrite Hr. pose proof (length_words (abs_text (segs path))) as Hlw. rewrite Hw, Es in Hlw. rewrite Es. simpl in *. lia. }
  cbn [bind]. destruct (segs path) as [|w0 ws _] eqn:Es' using rev_ind; [done|]. rewrite <- Es' in *.
  destruct (abs_text_last path w0 ws Es') as [dir Ed].
  assert (last (segs path) = Some w0) as Hlast by (rewrite Es'; apply last_snoc).
  rewrite (basename_is_ok vfs Hok _ dir w0 x Ht Ed); [|by rewrite Hw| |done].
  2:{ pose proof (segs_segments_ok path) as Hss. rewrite Es' in Hss. apply Forall_app in Hss as [_ Hss].
      apply Forall_cons in Hss as [[_ Hss] _]. done. }
  cbn [bind]. eexists. split; [done|]. split.
  - case_bool_decide as D; [|by left]. right. split; [done|]. right. by rewrite Hlast, D.
  - intros Hq _. rewrite (Hwalk Hq), Hlast, Hr, <- Es.
    destruct (decide (Some w0 = Some (nm vfs (seek vfs p (segs path))))) as [D|D].
    + injection D as D. by rewrite bool_decide_true.
    + rewrite bool_decide_false; [done|]. congruence.
Qed.

Lemma GetNodeFromPath_walk p path n : cstr_ok path -> node_exists vfs p -> quiet vfs ->
  nm vfs p <> abs_text (segs path) -> segs path <> [] -> walk vfs p (segs path) = Some n ->
  GetNodeFromPath vfs p (abs_text (segs path)) = Ok n.
Proof.
  intros Hs Hp Hq Hne Hse Hw. destruct (GetNodeFromPath_abs p path Hs Hp) as (x & -> & _ & Hx).
  rewrite (Hx Hq Hne), (seek_walk vfs _ _ _ Hw). destruct (segs path) as [|w ws _] using rev_ind; [done|].
  rewrite last_snoc. rewrite walk_app in Hw by done. destruct (walk vfs p ws) as [y|]; [|done]. simpl in Hw.
  destruct (child vfs y w) as [c|] eqn:Ec; [|done]. injection Hw as ->. apply child_elem in Ec as [_ <-].
  by rewrite decide_True.
Qed.

Lemma abs_not_blank path : is_abs path = true -> blank path = false.
Proof. destruct path as [|c path]; [done|]. cbn [is_abs]. unfold issep. intros H. apply Z.eqb_eq in H as ->. done. Qed.

(** [FileExists] on a path that is already normal, as [Create] and [Open]
    call it. *)
Lemma FileExists_abs p path : cstr_ok path -> is_abs path = true -> Z.of_nat (length path) < 2 ^ 62 -> node_exists vfs p ->
  exists x, GetNodeFromPath vfs p (abs_text (segs path)) = Ok x /\
    FileExists vfs p (abs_text (segs path)) = Ok (if decide (x = 0) then NOT_FOUND else OK).
Proof.
  intros Hs Ha Hl Hp. destruct (GetNodeFromPath_abs p path Hs Hp) as (x & E & _). exists x. split; [done|].
  pose proof (abs_text_ok _ (segs_cstr_ok path Hs)) as Ht.
  unfold FileExists. rewrite isempty_ok, abs_not_blank by done. cbn [bind b2z].
  rewrite decide_False by lia. pose proof (vo_range vfs Hok p Hp). rewrite decide_False by lia.
  rewrite (NormalizePath_abs vfs p _ Ht eq_refl) by (pose proof (length_abs_text path Ha); lia). cbn [bind].
  rewrite segs_abs_text, E. done.
Qed.

(** The node a path is looked up from. *)
Definition start (parent : Z) : Z := if decide (parent = 0) then hd 0 (kids vfs 1) else parent.

Lemma index_0 {A} (v : Vector A) x l : represents v (x :: l) -> index v 0 = Ok x.
Proof. intros Hv. destruct (represents_cases v _ Hv) as [[? _]|[rest ->]]; [done|]. done. Qed.

Lemma default_parent_ok path : node_exists vfs (start 0) -> default_parent vfs path = Ok (start 0).
Proof.
  intros He. unfold default_parent. rewrite (vo_root vfs Hok). destruct (vo_root_node vfs Hok) as [n En].
  rewrite (deref_ok vfs Hok 1 n En). cbn [bind].
  destruct (vo_node vfs Hok 1 n En) as (_ & Hv & _). unfold start in *. rewrite decide_True in * by done.
  rewrite (kids_lookup vfs 1 n En) in *. destruct (kids_of n) as [|c l] eqn:Ek.
  { apply (vo_range vfs Hok) in He. simpl in He. lia. }
  pose proof Hv as [Hsz _]. unfold size. rewrite decide_True by (rewrite Hsz; simpl; lia). by apply (index_0 _ c l).
Qed.
End search.

(** The lock does not matter for the tree. *)
Lemma set_lock_ok vfs b : vfs_ok vfs -> vfs_ok (set_lock vfs b).
Proof. intros []. by split. Qed.

Lemma walk_set_lock vfs b ws : forall p, walk (set_lock vfs b) p ws = walk vfs p ws.
Proof.
  induction ws as [|w ws IH]; intros p; [done|]. cbn [walk].
  change (child (set_lock vfs b) p w) with (child vfs p w). by destruct (child vfs p w); simpl.
Qed.

(** The paths the theorems on creation are about: absolute ones. *)
Record path_ok (vfs : Virtual) (path : cstr) : Prop := {
  pk_cstr : cstr_ok path;
  pk_abs : is_abs path = true;
  pk_room : next vfs + Z.of_nat (length path) < 2 ^ 50
}.

(** [Create] under the lock: it ends when the search finds a node, and goes into
    the loop with the first segment otherwise. *)
Lemma create_node_eq vfs parent path : vfs_ok vfs -> path_ok vfs path -> node_exists vfs (start vfs parent) ->
  exists x, GetNodeFromPath vfs (start vfs parent) (abs_text (segs path)) = Ok x /\
  (x <> 0 \/ segs path = [] -> create_node vfs parent path = Ok (vfs, 0)) /\
  (x = 0 -> segs path <> [] -> exists seg l w r, segs path = w :: words r /\ cstr_ok (sg_path seg) /\ seg_at seg l w r /\
     create_node vfs parent path = create_loop vfs (start vfs parent) seg (S (length (abs_text (segs path))))).
Proof.
  intros Hok Hpk Hst. destruct Hpk as [Hs Ha Hroom]. set (st := start vfs parent) in *.
  pose proof (vo_range vfs Hok st Hst) as Hsr.
  destruct (FileExists_abs vfs Hok st path Hs Ha ltac:(lia) Hst) as (x & Ex & Hf). exists x. split; [done|].
  assert (create_node vfs parent path =
    (let* '(some, segment) := cwk_path_get_first_segment style (abs_text (segs path)) in
     if decide (x = 0) then if negb some then Ok (vfs, 0) else create_loop vfs st segment (S (length (abs_text (segs path)))) else Ok (vfs, 0))) as ->.
  { unfold create_node. rewrite isempty_ok, abs_not_blank by done. cbn [bind b2z]. rewrite decide_False by lia.
    assert ((if decide (parent = 0) then
        let* p := default_parent vfs path in let* n := deref vfs (FileSystemRoot vfs) in
        if decide (p = 0 /\ 1 <= size (Children n)) then Err Panic else Ok p
      else Ok parent) = Ok st) as ->.
    { destruct (decide (parent = 0)) as [->|Hp0]; [|unfold st, start; by rewrite decide_False].
      rewrite (default_parent_ok vfs Hok path) by done. fold st. cbn [bind]. rewrite (vo_root vfs Hok).
      destruct (vo_root_node vfs Hok) as [n En]. rewrite (deref_ok vfs Hok 1 n En). cbn [bind].
      rewrite decide_False by lia. done. }
    cbn [bind]. rewrite (NormalizePath_abs vfs st path Hs Ha) by lia. cbn [bind]. rewrite Hf. cbn [bind].
    unfold cwk_path_get_first_segment. rewrite get_root_unix. cbn [bind].
    pose proof (first_segment_spec (abs_text (segs path)) 1 (abs_text_ok _ (segs_cstr_ok path Hs)) ltac:(simpl; lia)) as Hfirst.
    change (if is_abs (abs_text (segs path)) then 1%nat else 0%nat) with 1%nat.
    assert (exists b seg, cwk_path_get_first_segment_without_root style (abs_text (segs path)) 1 = Ok (b, seg)) as (b & seg & ->)
      by (destruct (words (drop 1 (abs_text (segs path)))); [destruct Hfirst as (seg & -> & _)|destruct Hfirst as (seg & ? & ? & -> & _)]; eauto).
    cbn [bind]. destruct (decide (x = 0)); done. }
  unfold cwk_path_get_first_segment. rewrite get_root_unix. cbn [bind].
  pose proof (abs_text_ok _ (segs_cstr_ok path Hs)) as Ht.
  pose proof (first_segment_spec (abs_text (segs path)) 1 Ht ltac:(simpl; lia)) as Hfirst.
  change (if is_abs (abs_text (segs path)) then 1%nat else 0%nat) with 1%nat.
  assert (words (drop 1 (abs_text (segs path))) = segs path) as Hw1.
  { cbn [drop abs_text]. apply words_intercalate, segs_segments_ok. }
  rewrite Hw1 in Hfirst. destruct (segs path) as [|w A] eqn:Es.
  { destruct Hfirst as (seg & -> & _). cbn [bind negb]. split; [|done]. intros _. by destruct (decide (x = 0)). }
  rewrite <- Es in *. destruct Hfirst as (seg & l & r & -> & Hsp & _ & Hat & _ & Hr). cbn [bind negb]. split.
  - intros [Hx|Hx]; [by rewrite decide_False|congruence].
  - intros -> _. exists seg, l, w, r. split_and!; [by rewrite Hr|by rewrite Hsp|done|done].
Qed.

Lemma create_node_ok vfs parent path : vfs_ok vfs -> path_ok vfs path -> node_exists vfs (start vfs parent) ->
  exists x, GetNodeFromPath vfs (start vfs parent) (abs_text (segs path)) = Ok x /\
  (x <> 0 \/ segs path = [] -> create_node vfs parent path = Ok (vfs, 0)) /\
  (x = 0 -> segs path <> [] -> names_ok (segs path) -> exists vfs' n, create_node vfs parent path = Ok (vfs', n) /\
     grown vfs vfs' (start vfs parent) (segs path) /\ walk vfs' (start vfs parent) (segs path) = Some n) /\
  (x = 0 -> segs path <> [] -> ~ names_ok (segs path) -> create_node vfs parent path = Err OutOfBounds).
Proof.
  intros Hok Hpk Hst. destruct (create_node_eq vfs parent path Hok Hpk Hst) as (x & Ex & H0 & H1). exists x. split; [done|]. split; [done|].
  destruct Hpk as [Hs Ha Hroom]. pose proof (vo_range vfs Hok _ Hst). pose proof (length_segs path) as Hls.
  pose proof (length_words (abs_text (segs path))) as Hlw. rewrite (words_abs_text _ (segs_segments_ok path)) in Hlw.
  split; intros Hx Hne Hns; destruct (H1 Hx Hne) as (seg & l & w & r & Es & Hsc & Hat & ->); rewrite Es in *.
  - apply (create_loop_ok _ vfs _ seg l w r); [done..|lia|]. cbn [length] in *. lia.
  - apply (create_loop_long _ vfs _ seg l w r); [done..| |done|lia|cbn [length] in *; lia]. rewrite <- Es. by apply segs_cstr_ok.
Qed.
