(* ===== verification/VfsTheorems.v ===== *)
(** * Properties of the virtual file system

    The theorems on the operations of src/kernel/filesystem/FileSystem.cpp:
    what [Create] adds, that what it added is found again by its path and knows
    its path, that the tree stays well formed under any sequence of calls, and
    where the code does not do what it means to. *)

From stdpp Require Import gmap.
From S2P Require Import Prelude CString Cwalk CwalkSpec CwalkNormalize Vector Vfs VfsSpec VfsPaths.

Local Open Scope Z_scope.

(** ** Helper lemmas *)

Lemma set_lock_id vfs b c : VFSLock vfs = c -> set_lock (set_lock vfs b) c = vfs.
Proof. destruct vfs. simpl. by intros ->. Qed.

Lemma path_ok_lock vfs b path : path_ok vfs path -> path_ok (set_lock vfs b) path.
Proof. by intros []. Qed.

(** [Create] in terms of its body. *)
Lemma Create_unlocked vfs parent path : vfs_ok vfs -> VFSLock vfs = false -> path_ok vfs path ->
  node_exists vfs (start vfs parent) ->
  exists x, GetNodeFromPath (set_lock vfs true) (start vfs parent) (abs_text (segs path)) = Ok x /\
  (x <> 0 \/ segs path = [] -> Create vfs parent path = Ok (vfs, 0)) /\
  (x = 0 -> segs path <> [] -> names_ok (segs path) -> exists vfs' n, Create vfs parent path = Ok (set_lock vfs' false, n) /\
    grown (set_lock vfs true) vfs' (start vfs parent) (segs path) /\
    walk vfs' (start vfs parent) (segs path) = Some n) /\
  (x = 0 -> segs path <> [] -> ~ names_ok (segs path) -> Create vfs parent path = Err OutOfBounds).
Proof.
  intros Hok Hl Hp Hst. unfold Create, SMART_LOCK. rewrite Hl.
  destruct (create_node_ok (set_lock vfs true) parent path (set_lock_ok _ _ Hok) (path_ok_lock _ _ _ Hp) Hst)
    as (x & E & H0 & H1 & H2). exists x. split; [done|]. split_and!.
  - intros Hx. rewrite (H0 Hx). cbn [bind]. by rewrite set_lock_id.
  - intros Hx Hne Hn. destruct (H1 Hx Hne Hn) as (vfs' & n & -> & Hg & Hw). cbn [bind]. eauto.
  - intros Hx Hne Hn. by rewrite (H2 Hx Hne Hn).
Qed.

Lemma abs_text_root ws : segments_ok ws -> ws <> [] -> abs_text ws <> bytes_of "/".
Proof.
  intros Hs Hne E. apply (f_equal words) in E. rewrite words_abs_text in E by done. by vm_compute in E.
Qed.

(** ** Theorems *)

(** C10 [Create] adds exactly what is missing: on a well-formed tree, for any
    absolute path and parent, the search for the path gives an answer [x], and
    - if it finds a node, or the path has no segment, null is returned and nothing
      changes;
    - else, if all names of the path fit in a node, the tree stays well formed, the
      lock is free, the returned node is where the names of the normalised
      path lead, every list of names leads where it led before, and the only new
      ones are the prefixes of this path;
    - else a name is copied past the array of a new node. *)
Theorem Create_correct vfs parent path :
  vfs_ok vfs -> VFSLock vfs = false -> path_ok vfs path -> node_exists vfs (start vfs parent) ->
  exists x, GetNodeFromPath (set_lock vfs true) (start vfs parent) (abs_text (segs path)) = Ok x /\
    (x <> 0 \/ segs path = [] -> Create vfs parent path = Ok (vfs, 0)) /\
    (x = 0 -> segs path <> [] -> names_ok (segs path) ->
     exists vfs' n, Create vfs parent path = Ok (vfs', n) /\ vfs_ok vfs' /\ VFSLock vfs' = false /\
       n <> 0 /\ walk vfs' (start vfs parent) (segs path) = Some n /\
       (forall v m, walk vfs (start vfs parent) v = Some m -> walk vfs' (start vfs parent) v = Some m) /\
       (forall v, is_Some (walk vfs' (start vfs parent) v) <->
                  is_Some (walk vfs (start vfs parent) v) \/ v `prefix_of` segs path)) /\
    (x = 0 -> segs path <> [] -> ~ names_ok (segs path) -> Create vfs parent path = Err OutOfBounds).
Proof.
  intros Hok Hl Hp Hst. destruct (Create_unlocked vfs parent path Hok Hl Hp Hst) as (x & Ex & H0 & H1 & H2).
  exists x. split_and!; [done..| |done]. intros Hx Hne Hns. destruct (H1 Hx Hne Hns) as (vfs' & n & -> & Hg & Hw).
  pose proof (set_lock_ok vfs' false (gr_ok _ _ _ _ Hg)) as Hok'. eexists _, n. split; [done|]. split; [done|]. split; [done|].
  pose proof (gr_ok _ _ _ _ Hg) as Hokg.
  assert (node_exists vfs' n /\ start vfs parent <= n) as [Hn _]
    by (apply (walk_exists vfs' Hokg) in Hw; [done|by apply (gr_exists _ _ _ _ Hg)]).
  split; [apply (vo_range vfs' Hokg) in Hn; lia|]. split; [by rewrite walk_set_lock|]. split.
  + intros v m Hv. rewrite walk_set_lock. apply (gr_mono _ _ _ _ Hg). by rewrite walk_set_lock.
  + intros v. rewrite walk_set_lock. split.
    * intros [m Hm]. destruct (gr_only _ _ _ _ Hg _ v m Hst ltac:(lia) Hm) as [H|(v1 & v2 & -> & G1 & G2)].
      { left. rewrite walk_set_lock in H. by eexists. }
      right. rewrite walk_set_lock in G1. by rewrite (walk_unique vfs Hok v1 _ [] _ Hst G1 eq_refl).
    * intros [[m Hm]|[k Hk]]; [exists m; apply (gr_mono _ _ _ _ Hg); by rewrite walk_set_lock|].
      rewrite Hk, walk_app in Hw by done. destruct (walk vfs' (start vfs parent) v); [by eexists|done].
Qed.

(** C11 Round trip: a node created by an absolute path is the node that [Open]
    gives for this path, with status [OK] and the last name of the path, and
    [GetPathFromNode] gives back the normalised path.  What this needs: the
    first root is named "/", parent links are set, no directory has a child
    of its own name, the path does not repeat a name twice in a row, and its
    names fit ([open_deep] and [device_path] show what happens otherwise). *)
Theorem created_found vfs path vfs' n :
  vfs_ok vfs -> VFSLock vfs = false -> path_ok vfs path -> node_exists vfs (start vfs 0) ->
  nm vfs (start vfs 0) = bytes_of "/" -> quiet vfs -> linked vfs ->
  no_repeat (bytes_of "/") (segs path) -> names_ok (segs path) ->
  Create vfs 0 path = Ok (vfs', n) -> n <> 0 ->
  Open vfs' path 0 = Ok (vfs', mk_FILE (last (segs path)) OK n) /\
  GetPathFromNode vfs' n = Ok (abs_text (segs path)).
Proof.
  intros Hok Hl Hp Hst Hnm Hq Hlk Hnr Hns Hc Hn.
  destruct (Create_unlocked vfs 0 path Hok Hl Hp Hst) as (x & Ex & H0 & H1 & _). rewrite Hc in H0, H1.
  destruct (decide (x <> 0 \/ segs path = [])) as [Hx|Hx]; [injection (H0 Hx) as _ ?; done|].
  assert (x = 0) as -> by lia. assert (segs path <> []) as Hne by tauto.
  destruct (H1 eq_refl Hne Hns) as (vfs1 & n1 & E & Hg & Hw). injection E as -> ->. destruct Hp as [Hs Ha Hroom].
  pose proof (gr_ok _ _ _ _ Hg) as Hok1. set (st := start vfs 0) in *. pose proof (vo_range vfs Hok st Hst) as Hstn.
  assert (st ∈ kids vfs 1) as Hstk.
  { unfold st, start in *. rewrite decide_True in * by done. destruct (kids vfs 1); [|by left].
    apply (vo_range vfs Hok) in Hst. simpl in Hst. lia. }
  assert (1 < st) as Hst1 by (by apply (vo_child vfs Hok) in Hstk as [? _]).
  pose proof (gr_top _ _ _ _ Hg ltac:(lia)) as Htop. change (kids (set_lock vfs true) 1) with (kids vfs 1) in Htop.
  assert (start vfs1 0 = st) as Hst' by (unfold st, start; by rewrite Htop).
  pose proof (gr_exists _ _ _ _ Hg st Hst) as Hste.
  assert (nm vfs1 st = bytes_of "/") as Hnm1 by (by rewrite (gr_nm _ _ _ _ Hg)).
  assert (quiet vfs1) as Hq1 by (apply (gr_quiet _ _ _ _ Hg); [|done]; change (nm (set_lock vfs true) st) with (nm vfs st); by rewrite Hnm).
  assert (linked vfs1) as Hlk1 by (by apply (gr_linked _ _ _ _ Hg)).
  pose proof (abs_text_root _ (segs_segments_ok path) Hne) as Hnr'. split.
  - unfold Open, SMART_LOCK. cbn [VFSLock set_lock].
    change (set_lock (set_lock vfs1 false) true) with (set_lock vfs1 true).
    assert (forall d, cstr_ok d -> is_abs d = false -> exists z, strcmp path d = Ok z /\ z <> 0) as Hdot.
    { intros d Hd Hda. destruct (strcmp_ok path d Hs Hd) as (z & -> & Hz). exists z. split; [done|].
      intros H. apply Hz in H as ->. congruence. }
    destruct (Hdot (bytes_of ".")) as (z1 & -> & Hz1); [repeat constructor; done|done|]. cbn [bind]. rewrite decide_False by done.
    destruct (Hdot (bytes_of "..")) as (z2 & -> & Hz2); [repeat constructor; done|done|]. cbn [bind]. rewrite decide_False by done.
    pose proof (set_lock_ok vfs1 true Hok1) as Hok2. rewrite decide_True by done.
    rewrite (default_parent_ok _ Hok2); [|change (node_exists vfs1 (start vfs1 0)); by rewrite Hst'].
    change (start (set_lock vfs1 true) 0) with (start vfs1 0). rewrite Hst'. cbn [bind].
    rewrite NormalizePath_abs by (done || lia). cbn [bind].
    destruct (FileExists_abs _ Hok2 st path Hs Ha ltac:(lia) Hste) as (x & Ex2 & ->).
    assert (GetNodeFromPath (set_lock vfs1 true) st (abs_text (segs path)) = Ok n1) as Hgn.
    { apply GetNodeFromPath_walk; try done; [|by rewrite walk_set_lock].
      change (nm (set_lock vfs1 true) st) with (nm vfs1 st). congruence. }
    rewrite Hgn in *. injection Ex2 as <-. rewrite (decide_False (P := n1 = 0)) by done. cbn [bind].
    rewrite decide_False by (by intros []). 
    destruct (exists_last Hne) as (ws & w & Es).
    destruct (abs_text_last path w ws Es) as [dir Ed]. unfold basename.
    pose proof (abs_text_ok _ (segs_cstr_ok path Hs)) as Ht.
    pose proof (words_abs_text _ (segs_segments_ok path)) as Hwd.
    assert (last (segs path) = Some w) as Hlast by (rewrite Es; apply last_snoc).
    rewrite Ed in *. rewrite get_basename_ok; [|done|by rewrite Hwd|].
    2:{ pose proof (segs_segments_ok path) as Hss. rewrite Es in Hss. apply Forall_app in Hss as [_ Hss].
        by apply Forall_cons in Hss as [[_ Hss] _]. }
    cbn [bind]. by rewrite drop_app_length, Hlast, decide_False.
  - destruct (GetPathFromNode_ok (set_lock vfs1 false) (set_lock_ok _ _ Hok1) n1) as (ws & -> & _ & _ & Hws & _).
    + right. apply (walk_exists vfs1 Hok1) in Hw; [|done]. by destruct Hw.
    + pose proof (gr_next _ _ _ _ Hg) as Hnx. cbn [next set_lock] in *. pose proof (length_segs path). lia.
    + f_equal. rewrite (Hws st (segs path)); [|done|change (st ∈ kids vfs1 1); by rewrite Htop|by rewrite walk_set_lock].
      unfold abs_text. rewrite intercalate_emit. by destruct (segs path).
Qed.

(** ** Sequences of calls *)

(** The calls that build and search the tree. *)
Inductive fs_call :=
| call_root (operator : Z) (name : cstr)
| call_create (path : cstr)
| call_open (path : cstr).

Definition fs_step (vfs : Virtual) (c : fs_call) : res Virtual :=
  match c with
  | call_root operator name => let* '(vfs, _) := CreateRoot vfs operator name in Ok vfs
  | call_create path => let* '(vfs, _) := Create vfs 0 path in Ok vfs
  | call_open path => let* '(vfs, _) := Open vfs path 0 in Ok vfs
  end.

Fixpoint fs_run (vfs : Virtual) (cs : list fs_call) : res Virtual :=
  match cs with
  | [] => Ok vfs
  | c :: cs => let* vfs := fs_step vfs c in fs_run vfs cs
  end.

(** Calls with an operator and names that fit, and absolute paths. *)
Definition call_ok (c : fs_call) : Prop :=
  match c with
  | call_root operator name => operator <> 0 /\ cstr_ok name /\ (length name < FILENAME_LENGTH)%nat
  | call_create path => cstr_ok path /\ is_abs path = true /\ names_ok (segs path)
  | call_open path => cstr_ok path /\ is_abs path = true
  end.

(** How many nodes a call may add, and how long the path it works on is. *)
Definition call_cost (c : fs_call) : Z :=
  match c with
  | call_root _ _ => 1
  | call_create path | call_open path => Z.of_nat (length path)
  end.

Lemma CreateRoot_ok vfs operator name : vfs_ok vfs -> next vfs < 2 ^ 62 -> operator <> 0 ->
  cstr_ok name -> (length name < FILENAME_LENGTH)%nat ->
  exists vfs', CreateRoot vfs operator name = Ok (vfs', next vfs) /\ added vfs vfs' 1 name 0.
Proof.
  intros Hok Hb Ho Hn Hl. unfold CreateRoot. rewrite decide_False by done. rewrite (strcpy_name_ok name) by done. cbn [bind].
  set (n := set_Operator operator _).
  destruct (push_child_new vfs 1 n name Hok Hb (vo_root_node vfs Hok)) as (vfs' & E & Ha); [done..|].
  unfold alloc in *. cbn [fst] in E. cbn [FileSystemRoot].
  rewrite (vo_root vfs Hok) in E |- *. rewrite E. cbn [bind]. by exists vfs'.
Qed.

(** A handle to an existing node has status [OK]; one without a node says why. *)
Definition handle_ok (vfs : Virtual) (f : FILE) : Prop :=
  (f_Node f = 0 /\ f_Status f = NOT_FOUND) \/ (node_exists vfs (f_Node f) /\ f_Status f = OK).

Lemma file_of_node vfs p : vfs_ok vfs -> next vfs < 2 ^ 50 -> node_exists vfs p ->
  exists name, (let* path := GetPathFromNode vfs p in basename path) = Ok name.
Proof.
  intros Hok Hb Hp. destruct (GetPathFromNode_ok vfs Hok p (or_intror Hp) Hb) as (ws & -> & Hc & _). cbn [bind].
  by apply basename_total.
Qed.

Lemma Open_ok vfs path : vfs_ok vfs -> VFSLock vfs = false -> node_exists vfs (start vfs 0) ->
  cstr_ok path -> is_abs path = true -> next vfs + Z.of_nat (length path) < 2 ^ 50 ->
  exists f, Open vfs path 0 = Ok (vfs, f) /\ handle_ok vfs f.
Proof.
  intros Hok Hl Hst Hs Ha Hb. pose proof (vo_range vfs Hok _ Hst) as Hstn. unfold Open, SMART_LOCK. rewrite Hl.
  assert (forall d, cstr_ok d -> is_abs d = false -> exists z, strcmp path d = Ok z /\ z <> 0) as Hdot.
  { intros d Hd Hda. destruct (strcmp_ok path d Hs Hd) as (z & -> & Hz). exists z. split; [done|].
    intros H. apply Hz in H as ->. congruence. }
  destruct (Hdot (bytes_of ".")) as (z1 & -> & Hz1); [repeat constructor; done|done|]. cbn [bind]. rewrite decide_False by done.
  destruct (Hdot (bytes_of "..")) as (z2 & -> & Hz2); [repeat constructor; done|done|]. cbn [bind]. rewrite decide_False by done.
  pose proof (set_lock_ok vfs true Hok) as Hok2. rewrite decide_True by done.
  rewrite (default_parent_ok _ Hok2) by done. change (start (set_lock vfs true) 0) with (start vfs 0). cbn [bind].
  rewrite NormalizePath_abs by (done || lia). cbn [bind].
  assert (node_exists (set_lock vfs true) (start vfs 0)) as Hst2 by done.
  destruct (FileExists_abs _ Hok2 (start vfs 0) path Hs Ha ltac:(lia) Hst2) as (x & Ex & ->). cbn [bind].
  pose proof (abs_text_ok _ (segs_cstr_ok path Hs)) as Ht.
  assert (x = 0 \/ node_exists vfs x) as Hx.
  { destruct (GetNodeFromPath_abs _ Hok2 (start vfs 0) path Hs Hst2) as (y & Ey & Hy & _).
    rewrite Ex in Ey. injection Ey as <-. destruct Hy as [?|[? _]]; [by left|by right]. }
  destruct (decide (x = 0)) as [->|Hne].
  - rewrite decide_True by done. unfold open_elsewhere. change (FileSystemRoot (set_lock vfs true)) with (FileSystemRoot vfs).
    rewrite (vo_root vfs Hok). rewrite (children_ok _ Hok2 1 (vo_root_node _ Hok2)). cbn [bind].
    rewrite (find_child_ok _ Hok2) by (done || apply (kids_all _ Hok2)). cbn [bind].
    destruct (List.find _ (kids (set_lock vfs true) 1)) as [var|] eqn:Ev.
    + apply find_some in Ev as [Hin _]. apply list_elem_of_In in Hin. apply (vo_child vfs Hok) in Hin as [_ Hvar].
      destruct (file_of_node _ var Hok2 ltac:(simpl; lia) Hvar) as (name & En).
      destruct (GetPathFromNode (set_lock vfs true) var) as [p|]; [|done]. cbn [bind] in *. rewrite En. cbn [bind].
      rewrite set_lock_id by done. eexists. split; [done|]. by right.
    + destruct (vo_root_node _ Hok2) as [n En]. rewrite (deref_ok _ Hok2 1 n En). cbn [bind].
      assert (index (Children n) 0 = Ok (start vfs 0)) as ->.
      { destruct (vo_node _ Hok2 1 n En) as (_ & Hv & _). unfold start in *. rewrite decide_True in * by done.
        change (kids vfs 1) with (kids (set_lock vfs true) 1) in *. rewrite (kids_lookup _ 1 n En) in *.
        destruct (kids_of n) as [|c l]; [simpl in *; lia|]. by apply (index_0 _ c l). }
      cbn [bind]. rewrite Ex. cbn [bind]. rewrite decide_True by done. cbn [bind]. rewrite set_lock_id by done.
      eexists. split; [done|]. by left.
  - rewrite decide_False by (by intros []). rewrite Ex. cbn [bind]. destruct (basename_total _ Ht) as (b & ->). cbn [bind].
    rewrite set_lock_id, decide_False by done. eexists. split; [done|]. right. destruct Hx; [done|]. done.
Qed.

(** What the calls keep: the tree, a first child of the root, parent links. *)
Definition fs_inv (vfs : Virtual) : Prop :=
  vfs_ok vfs /\ VFSLock vfs = false /\ node_exists vfs (start vfs 0) /\ linked vfs.

Lemma added_root_linked vfs vfs' w : vfs_ok vfs -> added vfs vfs' 1 w 0 -> linked vfs -> linked vfs'.
Proof.
  intros Hok Ha Hl q c Hc Hq. rewrite (ad_root _ _ _ _ _ Ha), (vo_root vfs Hok) in Hq.
  rewrite (ad_kids _ _ _ _ _ Ha) in Hc. rewrite decide_False in Hc by done. rewrite (ad_par _ _ _ _ _ Ha).
  rewrite decide_False; [apply Hl; [done|]; by rewrite (vo_root vfs Hok)|].
  apply (vo_child vfs Hok) in Hc as [_ Hc]. apply (vo_range vfs Hok) in Hc. lia.
Qed.

Lemma fs_step_ok vfs c : fs_inv vfs -> call_ok c -> next vfs + call_cost c < 2 ^ 50 ->
  exists vfs', fs_step vfs c = Ok vfs' /\ fs_inv vfs' /\ next vfs' <= next vfs + call_cost c.
Proof.
  intros (Hok & Hl & Hst & Hlk) Hc Hb. pose proof (vo_range vfs Hok _ Hst) as Hstn. destruct c as [o name|path|path]; simpl in *.
  - destruct Hc as (Ho & Hn & Hnl). destruct (CreateRoot_ok vfs o name Hok ltac:(lia) Ho Hn Hnl) as (vfs' & -> & Ha).
    cbn [bind]. exists vfs'. split; [done|]. split; [|rewrite (ad_next _ _ _ _ _ Ha); lia].
    split_and!; [|by rewrite (ad_lock _ _ _ _ _ Ha)| |by eapply added_root_linked].
    + eapply added_ok; [done|apply (vo_root_node vfs Hok)|by left|done].
    + apply (ad_exists _ _ _ _ _ Ha). right. unfold start in *. rewrite decide_True in * by done.
      rewrite (ad_kids _ _ _ _ _ Ha), decide_True by done. destruct (kids vfs 1); [simpl in *; lia|done].
  - destruct Hc as (Hs & Ha & Hn).
    destruct (Create_unlocked vfs 0 path Hok Hl) as (x & Ex & H0 & H1 & _); [by split|done|].
    destruct (decide (x <> 0 \/ segs path = [])) as [Hx|Hx]; [rewrite (H0 Hx)|
      destruct (H1 ltac:(lia) ltac:(tauto) Hn) as (vfs' & n & -> & Hg & Hw)]; cbn [bind].
    + exists vfs. split; [done|]. split; [done|lia].
    + eexists. split; [done|]. pose proof (gr_next _ _ _ _ Hg) as Hnx. simpl in Hnx. pose proof (length_segs path).
      assert (kids vfs' 1 = kids vfs 1) as Hk.
      { rewrite (gr_top _ _ _ _ Hg); [done|]. unfold start in *. rewrite decide_True in * by done.
        destruct (kids vfs 1) as [|c l] eqn:Ek; [simpl in *; lia|]. simpl.
        assert (c ∈ kids vfs 1) as Hin by (rewrite Ek; by left). apply (vo_child vfs Hok) in Hin as [? _]. lia. }
      split; [|simpl; lia]. split_and!; [apply set_lock_ok, Hg|done| |by apply (gr_linked _ _ _ _ Hg)].
      unfold start in *. rewrite decide_True in * by done. change (node_exists vfs' (hd 0 (kids vfs' 1))).
      rewrite Hk. by apply (gr_exists _ _ _ _ Hg).
  - destruct Hc as (Hs & Ha). destruct (Open_ok vfs path Hok Hl Hst Hs Ha Hb) as (f & -> & _). cbn [bind].
    exists vfs. split; [done|]. split; [done|lia].
Qed.

Definition total_cost (cs : list fs_call) : Z := foldr (fun c n => call_cost c + n) 0 cs.

Lemma total_cost_pos cs : 0 <= total_cost cs.
Proof. induction cs as [|c cs IH]; simpl; [lia|]. destruct c; simpl; lia. Qed.

Lemma fs_run_ok cs : forall vfs, fs_inv vfs -> Forall call_ok cs -> next vfs + total_cost cs < 2 ^ 50 ->
  exists vfs', fs_run vfs cs = Ok vfs' /\ fs_inv vfs'.
Proof.
  induction cs as [|c cs IH]; intros vfs Hi Hc Hb; cbn [fs_run]; [by exists vfs|].
  apply Forall_cons in Hc as [Hc Hcs]. cbn [total_cost foldr] in Hb. fold (total_cost cs) in Hb. pose proof (total_cost_pos cs).
  destruct (fs_step_ok vfs c Hi Hc ltac:(lia)) as (vfs1 & -> & Hi1 & Hn). cbn [bind]. apply IH; [done..|lia].
Qed.

Lemma Virtual_new_ok : exists v, Virtual_new = Ok v /\ vfs_ok v /\ VFSLock v = false /\ next v = 2 /\ kids v 1 = [] /\ linked v.
Proof.
  unfold Virtual_new. rewrite strcpy_name_ok; [|repeat constructor; done|vm_compute; lia|done]. cbn [bind].
  set (n := set_Name _ _). eexists. split; [done|].
  assert (forall p, kids (mk_Virtual {[1 := n]} 2 1 false) p = []) as Hk.
  { intros p. unfold kids. cbn [nodes]. destruct (decide (p = 1)) as [->|]; [by rewrite lookup_singleton_eq|by rewrite lookup_singleton_ne]. }
  split_and!; try done; [|intros p c Hc; rewrite Hk in Hc; by apply elem_of_nil in Hc].
  split; try done; unfold node_exists; cbn [nodes next].
  - by rewrite lookup_singleton_eq.
  - intros p Hp. apply lookup_singleton_is_Some in Hp as <-. lia.
  - intros p m Hm. apply lookup_singleton_Some in Hm as [<- <-].
    split_and!; [|done|simpl; lia|simpl; lia]. eexists _, _. split; [done|]. split; [repeat constructor; done|vm_compute; lia].
  - intros p c Hc. rewrite Hk in Hc. by apply elem_of_nil in Hc.
  - intros p q c Hc. rewrite Hk in Hc. by apply elem_of_nil in Hc.
  - intros p. left. unfold par. cbn [nodes]. destruct (decide (p = 1)) as [->|];
      [by rewrite lookup_singleton_eq|by rewrite lookup_singleton_ne].
Qed.

(** The file system as it is when the first root has been created. *)
Definition fs_boot (operator : Z) : res Virtual :=
  let* v := Virtual_new in let* '(v, _) := CreateRoot v operator (bytes_of "/") in Ok v.

Lemma fs_boot_ok operator : operator <> 0 -> exists vfs, fs_boot operator = Ok vfs /\ fs_inv vfs /\ next vfs = 3.
Proof.
  intros Ho. unfold fs_boot. destruct Virtual_new_ok as (v & -> & Hok & Hl & Hn & Hk & Hlk). cbn [bind].
  destruct (CreateRoot_ok v operator (bytes_of "/") Hok) as (v' & -> & Ha); [lia|done|repeat constructor; done|vm_compute; lia|].
  cbn [bind]. exists v'. split; [done|]. split; [|rewrite (ad_next _ _ _ _ _ Ha); lia].
  split_and!; [|by rewrite (ad_lock _ _ _ _ _ Ha)| |by eapply added_root_linked].
  - eapply added_ok; [done|apply (vo_root_node v Hok)|by left|done].
  - apply (ad_exists _ _ _ _ _ Ha). left. unfold start. rewrite decide_True by done.
    rewrite (ad_kids _ _ _ _ _ Ha), decide_True, Hk by done. done.
Qed.

(** ** A concrete tree *)

Definition the {A} (d : A) (r : res A) : A := match r with Ok a => a | Err _ => d end.

(** The tree after a sequence of calls. *)
Definition tree (cs : list fs_call) : Virtual :=
  the (mk_Virtual ∅ 0 0 false) (let* v := fs_boot 1 in fs_run v cs).

Lemma tree_ok cs : Forall call_ok cs -> total_cost cs < 2 ^ 49 -> fs_inv (tree cs).
Proof.
  intros Hc Hb. unfold tree. destruct (fs_boot_ok 1) as (v & -> & Hi & Hn); [done|]. cbn [bind].
  destruct (fs_run_ok cs v Hi Hc ltac:(lia)) as (v' & -> & Hi'). done.
Qed.

(** [quiet], decided. *)
Definition quietb (vfs : Virtual) : bool :=
  forallb (fun pn => forallb (fun c => negb (bool_decide (nm vfs c = nm vfs pn.1))) (kids_of pn.2)) (map_to_list (nodes vfs)).

Lemma quietb_ok vfs : quietb vfs = true -> quiet vfs.
Proof.
  intros H p c Hc. unfold quietb in H. rewrite forallb_forall in H.
  destruct (kids_exists vfs p c Hc) as [n En]. rewrite (kids_lookup vfs p n En) in Hc.
  specialize (H (p, n)). rewrite <- list_elem_of_In, elem_of_map_to_list in H. specialize (H En). simpl in H.
  rewrite forallb_forall in H. specialize (H c). rewrite <- list_elem_of_In in H. specialize (H Hc).
  apply negb_true_iff, bool_decide_eq_false in H. done.
Qed.

(** C9 Invariant: after the constructor and the creation of a first root, any
    sequence of [CreateRoot] (with an operator), [Create] and [Open] with
    absolute paths, fewer than 2^49 characters in all, in which the names of the
    roots and of the paths to create have at most 255 characters (a longer one is
    copied past its array, as [Create_correct] says), runs to its end without a fault, so
    every search in the tree ends, and leaves the tree well formed: children and parent links
    are inverse to each other, a node has one parent and no node is below
    itself, names are terminated, vectors hold the children, the lock is
    free. *)
Theorem vfs_invariant operator cs :
  operator <> 0 -> Forall call_ok cs -> total_cost cs < 2 ^ 49 ->
  exists vfs vfs', fs_boot operator = Ok vfs /\ fs_run vfs cs = Ok vfs' /\ fs_inv vfs'.
Proof.
  intros Ho Hc Hb. destruct (fs_boot_ok operator Ho) as (vfs & E & Hi & Hn). exists vfs.
  destruct (fs_run_ok cs vfs Hi Hc ltac:(lia)) as (vfs' & E' & Hi'). eauto.
Qed.

(** Error: the search for a path passes over segments that do not exist:
    a path with a missing directory in front finds the node that the rest of
    it leads to, so [FileExists] says that a path exists which does not. *)
Theorem missing_skipped vfs p w path n :
  vfs_ok vfs -> quiet vfs -> node_exists vfs p -> cstr_ok path -> cstr_ok w -> w <> [] ->
  segs (47 :: w ++ path) = w :: segs path -> nm vfs p = bytes_of "/" ->
  child vfs p w = None -> segs path <> [] -> walk vfs p (segs path) = Some n ->
  GetNodeFromPath vfs p (abs_text (segs (47 :: w ++ path))) = Ok n /\ walk vfs p (segs (47 :: w ++ path)) = None.
Proof.
  intros Hok Hq Hp Hs Hw Hwne Hsegs Hnm Hc Hne Hwk. rewrite Hsegs. split; [|simpl; by rewrite Hc].
  assert (cstr_ok (47 :: w ++ path)) as Hok2 by (apply Forall_cons; split; [lia|by apply Forall_app]).
  destruct (GetNodeFromPath_abs vfs Hok p (47 :: w ++ path) Hok2 Hp) as (x & E & _ & Hx). rewrite Hsegs in *. rewrite E. f_equal.
  rewrite Hx; [|done|].
  2:{ rewrite Hnm, <- Hsegs. intros H. symmetry in H. revert H. apply abs_text_root; [apply segs_segments_ok|by rewrite Hsegs]. }
  cbn [seek]. rewrite Hc. cbn [default]. rewrite (seek_walk vfs _ _ _ Hwk).
  rewrite decide_True; [done|]. rewrite last_cons. destruct (exists_last Hne) as (ws & w0 & Es). rewrite Es, last_snoc.
  rewrite Es, walk_app in Hwk by done. destruct (walk vfs p ws) as [y|]; [|done]. simpl in Hwk.
  destruct (child vfs y w0) as [c|] eqn:Ec; [|done]. injection Hwk as ->. by apply child_elem in Ec as [_ ->].
Qed.

(** Error: [Mount] never returns: it holds [VFSLock] when it calls
    [Create], which takes the same lock. *)
Theorem Mount_spins vfs operator path :
  VFSLock vfs = false -> operator <> 0 -> cstr_ok path -> blank path = false ->
  Mount vfs operator path = Err OutOfFuel.
Proof.
  intros Hl Ho Hs Hb. unfold Mount, SMART_LOCK. rewrite Hl, decide_False by done.
  rewrite isempty_ok, Hb by done. cbn [bind b2z]. rewrite decide_False by lia.
  destruct (basename_total path Hs) as (b & ->). cbn [bind]. done.
Qed.

(** ** Witnesses *)

Lemma path_ok_intro vfs path : fs_inv vfs -> cstr_ok path -> is_abs path = true ->
  next vfs + Z.of_nat (length path) < 2 ^ 50 -> path_ok vfs path.
Proof. by split. Qed.

Ltac bytes := repeat constructor; vm_compute; first [done | lia].

Lemma vfs_invariant_witness : exists vfs vfs', fs_boot 1 = Ok vfs /\
  fs_run vfs [call_create (bytes_of "/system/dev"); call_open (bytes_of "/system")] = Ok vfs' /\ fs_inv vfs'.
Proof. apply (vfs_invariant 1); [lia|repeat constructor; vm_compute; first [done|lia]|vm_compute; reflexivity]. Defined.

Definition created : Virtual * Z := the (tree [], 0) (Create (tree []) 0 (bytes_of "/system/./dev")).

Lemma Create_correct_witness :
  let path := bytes_of "/system/dev" in let st := start (tree []) 0 in
  exists vfs' n, Create (tree []) 0 path = Ok (vfs', n) /\ vfs_ok vfs' /\ n <> 0 /\ walk vfs' st (segs path) = Some n /\
    Create vfs' 0 path = Ok (vfs', 0).
Proof.
  cbv zeta. pose proof (tree_ok [] (Forall_nil_2 _) eq_refl) as Hi. pose proof Hi as (Hok & Hl & Hst & _).
  destruct (Create_correct (tree []) 0 (bytes_of "/system/dev") Hok Hl) as (x & Ex & _ & H & _); [|exact Hst|].
  { apply (path_ok_intro _ _ Hi); [bytes|reflexivity|vm_compute; reflexivity]. }
  assert (x = 0) as E0 by (vm_compute in Ex; congruence).
  destruct (H E0) as (vfs' & n & E & Hok' & _ & Hn & Hw & _); [vm_compute; discriminate|bytes|].
  exists vfs', n. split; [exact E|]. split; [exact Hok'|]. split; [exact Hn|]. split; [exact Hw|].
  assert (vfs' = created.1) as -> by (clear -E; vm_compute in E |- *; congruence). vm_compute. reflexivity.
Defined.

Lemma created_found_witness :
  Open created.1 (bytes_of "/system/./dev") 0 = Ok (created.1, mk_FILE (Some (bytes_of "dev")) OK 4) /\
  GetPathFromNode created.1 4 = Ok (bytes_of "/system/dev").
Proof.
  pose proof (tree_ok [] (Forall_nil_2 _) eq_refl) as Hi. pose proof Hi as (Hok & Hl & Hst & Hlk).
  apply (created_found (tree []) (bytes_of "/system/./dev") created.1 4 Hok Hl).
  - apply (path_ok_intro _ _ Hi); [bytes|reflexivity|vm_compute; reflexivity].
  - exact Hst.
  - vm_compute. reflexivity.
  - apply quietb_ok. vm_compute. reflexivity.
  - exact Hlk.
  - vm_compute. intuition congruence.
  - bytes.
  - vm_compute. reflexivity.
  - lia.
Defined.

Lemma missing_skipped_witness :
  let vfs := tree [call_create (bytes_of "/dev")] in
  GetNodeFromPath vfs 2 (abs_text (segs (47 :: bytes_of "nowhere" ++ bytes_of "/dev"))) = Ok 3 /\
  walk vfs 2 (segs (47 :: bytes_of "nowhere" ++ bytes_of "/dev")) = None.
Proof.
  assert (fs_inv (tree [call_create (bytes_of "/dev")])) as (Hok & _).
  { apply tree_ok; [|vm_compute; reflexivity]. apply Forall_cons_2; [|apply Forall_nil_2].
    split; [bytes|]. split; [reflexivity|bytes]. }
  apply (missing_skipped (tree [call_create (bytes_of "/dev")]) 2 (bytes_of "nowhere") (bytes_of "/dev") 3 Hok).
  - apply quietb_ok. vm_compute. reflexivity.
  - eexists. vm_compute. reflexivity.
  - bytes.
  - bytes.
  - discriminate.
  - vm_compute. reflexivity.
  - vm_compute. reflexivity.
  - vm_compute. reflexivity.
  - vm_compute. discriminate.
  - vm_compute. reflexivity.
Defined.

Lemma Mount_spins_witness : Mount (tree []) 1 (bytes_of "/mnt") = Err OutOfFuel.
Proof. apply Mount_spins; [vm_compute; reflexivity|lia|bytes|reflexivity]. Defined.
