(* ===== verification/Ustar.v ===== *)
(** * Archives, devices and mount points

    The file systems behind the virtual one: src/kernel/filesystem/fs/ustar.cpp
    (the archive the kernel boots from), fs/null.cpp and fs/zero.cpp, and the
    directories under /system of src/kernel/filesystem/mountpoints.  The
    archive lies in memory, a list of bytes at an address, and the file system
    changes it there (it shifts the names).  Files are read from it through
    [Vfs.Read]. *)

From stdpp Require Import gmap.
From S2P Require Import Prelude CString Cwalk CwalkSpec CwalkNormalize Vector Vfs VfsSpec VfsPaths VfsTheorems.

Local Open Scope Z_scope.

(** ** Memory *)

Record memory := mk_memory {
  m_base : Z;
  m_bytes : list Z
}.

(** The bytes from an address on. *)
Definition mem_at (m : memory) (a : Z) : res (list Z) :=
  if decide (m_base m <= a <= m_base m + Z.of_nat (length (m_bytes m)))
  then Ok (drop (Z.to_nat (a - m_base m)) (m_bytes m)) else Err OutOfBounds.

(** ** Reading a file of the archive *)

Definition USTAR_Read (m : memory) (n : FileSystemNode) (Offset Size : Z) (Buffer : list Z)
    : res (memory * Z * list Z) :=
  let Size := if decide (Size = 0) then Length n else Size in
  if decide (Length n < Offset) then Ok (m, 0, Buffer)
  else
    let Size := if decide (Length n < u64 (Offset + Size)) then Length n - Offset else Size in
    let* src := mem_at m (u64 (Address n + Offset)) in
    let* Buffer := memcpy Buffer src Size in
    Ok (m, Size, Buffer).

(** ** The fields of a header *)

Definition f_mode : nat := 100.
Definition f_uid : nat := 108.
Definition f_gid : nat := 116.
Definition f_size : nat := 124.
Definition f_typeflag : nat := 156.
Definition f_signature : nat := 257.

(** The string at an offset of the memory. *)
Definition str_at (b : list Z) (o : nat) : res cstr := cstring (drop o b).

(** [ret *= 8; ret += *s - '0'], in 64 bits; the result is a [uint32_t]. *)
Definition getsize (s : cstr) : Z :=
  u32 (fold_left (fun ret c => u64 (u64 (ret * 8) + (schar c - 48))) s 0).

Definition string2int (s : cstr) : Z :=
  fold_left (fun res c => s32 (s32 (res * 10) + schar c - 48)) s 0.

(** ** The archive *)

(** The flags for the type of an entry: an unknown type leaves them. *)
Definition type_flags (t : Z) (old : Z) : Z :=
  if decide (t = 48) then FS_FILE
  else if decide (t = 50) then FS_SYMLINK
  else if decide (t = 53) then FS_DIRECTORY
  else if decide (t = 51) then FS_CHARDEVICE
  else if decide (t = 52) then FS_BLOCKDEVICE
  else old.

(** [memmove(name, name + 1, strlen(name))] and the removal of a slash at the
    end; the index of the last character of an empty name is the byte before. *)
Definition shift_name (b : list Z) (o : nat) : res (list Z) :=
  let* name := str_at b o in
  let* n := strlen name 0 in
  let* b := memmove b o (o + 1) n in
  let* name := str_at b o in
  let* n := strlen name 0 in
  let i := (o + Z.to_nat n)%nat in
  match i with
  | O => Err OutOfBounds
  | S i =>
      let* c := aget b i in
      if decide (c = 47) then aset b i 0 else Ok b
  end.

(** Where the next header is. *)
Definition next_header (o : nat) (size : Z) : nat :=
  (o + Z.to_nat ((size / 512 + 1) * 512) + (if decide (size mod 512 = 0)%Z then 0 else 512))%nat.

(** The loop of the constructor, [o] being the offset of [Address]. *)
Fixpoint ustar_loop (vfs : Virtual) (base : Z) (b : list Z) (o : nat) (i errorsallowed : Z) (fuel : nat)
    : res (Virtual * list Z) :=
  match fuel with
  | O => Err OutOfFuel
  | S f =>
      let* r := memcmp (drop (o + f_signature) b) (bytes_of "ustar") 5 in
      if decide (r <> 0) then Ok (vfs, b)
      else
        let* b := shift_name b o in
        let* s := str_at b (o + f_size) in
        let size := getsize s in
        let* name := str_at b o in
        let* '(vfs, node) := Create vfs 0 name in
        if decide (node = 0) then
          if decide (0 < errorsallowed)
          then ustar_loop vfs base b (next_header o size) (i + 1) (errorsallowed - 1) f
          else Ok (vfs, b)
        else
          let* mode := str_at b (o + f_mode) in
          let* gid := str_at b (o + f_gid) in
          let* uid := str_at b (o + f_uid) in
          let* t := aget b (o + f_typeflag) in
          let* vfs := update vfs node (fun n =>
            set_Flags (type_flags (schar t) (Flags n)) (set_IndexNode i (set_Ids (getsize uid) (getsize gid)
              (set_Contents (base + Z.of_nat o + 512) size (set_Mode (u64 (string2int mode)) n))))) in
          ustar_loop vfs base b (next_header o size) (i + 1) errorsallowed f
  end.

(** The constructor; [ustar] is the pointer to the operators of archives. *)
Definition USTAR_new (vfs : Virtual) (m : memory) (ustar : Z) : res (Virtual * memory) :=
  let* r := memcmp (drop f_signature (m_bytes m)) (bytes_of "ustar") 5 in
  if decide (r <> 0) then Ok (vfs, m)
  else
    let* '(vfs, _) := CreateRoot vfs ustar (bytes_of "/") in
    let* '(vfs, b) := ustar_loop vfs (m_base m) (m_bytes m) 0 0 20 (S (S (length (m_bytes m) / 512))) in
    Ok (vfs, mk_memory (m_base m) b).

(** ** Devices *)

Section devices.
Context {W : Type}.

Definition Null_Read (w : W) (n : FileSystemNode) (Offset Size : Z) (Buffer : list Z) : res (W * Z * list Z) :=
  if decide (Size < 1) then Ok (w, 0, Buffer)
  else let* Buffer := memset Buffer 0 Size in Ok (w, Size, Buffer).

Definition Null_Write (w : W) (n : FileSystemNode) (Offset Size : Z) (Buffer : list Z) : res (W * Z) := Ok (w, Size).

Definition Zero_Read (w : W) (n : FileSystemNode) (Offset Size : Z) (Buffer : list Z) : res (W * Z * list Z) :=
  let* Buffer := memset Buffer 0 Size in Ok (w, 0, Buffer).

Definition Zero_Write (w : W) (n : FileSystemNode) (Offset Size : Z) (Buffer : list Z) : res (W * Z) := Ok (w, Size).
End devices.

(** The tables [ustar], [null] and [zero], at the addresses 1, 2 and 3; other
    pointers are to tables without functions. *)
Definition kernel_operators (o : Z) : FileSystemOpeations memory :=
  if decide (o = 1) then mk_operations (Some USTAR_Read) None
  else if decide (o = 2) then mk_operations (Some Null_Read) (Some Null_Write)
  else if decide (o = 3) then mk_operations (Some Zero_Read) (Some Zero_Write)
  else mk_operations None None.

(** ** Mount points *)

(** The static variables of a mount point: its directory and the count of
    its nodes. *)
Record mountpoint := mk_mountpoint {
  mp_root : Z;
  mp_count : Z
}.

Definition AddFileSystem (vfs : Virtual) (mp : mountpoint) (operator mode : Z) (name : cstr) (flags : Z)
    : res (Virtual * mountpoint * Z) :=
  let* n := strcpy_name name new_node in
  let n := set_Flags (u64 flags) (set_Operator operator (set_Mode mode (set_IndexNode (mp_count mp) n))) in
  let '(vfs, newNode) := alloc vfs n in
  let* vfs := push_child vfs (mp_root mp) newNode in
  Ok (vfs, mk_mountpoint (mp_root mp) (u64 (mp_count mp + 1)), newNode).

(** The same code, for drivers and for network cards. *)
Definition AddDriver := AddFileSystem.
Definition AddNetworkCard := AddFileSystem.

Definition AddInfo (vfs : Virtual) (mp : mountpoint) (operator : Z) (name : cstr) :=
  AddFileSystem vfs mp operator 292 name FS_FILE.

(** The constructors: a directory with mode 0755. *)
Definition mountpoint_new (path : cstr) (vfs : Virtual) : res (Virtual * mountpoint) :=
  let* '(vfs, root) := Create vfs 0 path in
  let* vfs := update vfs root (set_Flags FS_DIRECTORY) in
  let* vfs := update vfs root (set_Mode 493) in
  Ok (vfs, mk_mountpoint root 0).

Definition Device_new := mountpoint_new (bytes_of "/system/dev").
Definition Driver_new := mountpoint_new (bytes_of "/system/drv").
Definition Network_new := mountpoint_new (bytes_of "/system/net").
Definition Mount_new := mountpoint_new (bytes_of "/system/mnt").
Definition Process_new := mountpoint_new (bytes_of "/system/prc").

(** [Null::Null] and [Zero::Zero]. *)
Definition Null_new (vfs : Virtual) (mp : mountpoint) := AddFileSystem vfs mp 2 438 (bytes_of "null") FS_CHARDEVICE.
Definition Zero_new (vfs : Virtual) (mp : mountpoint) := AddFileSystem vfs mp 3 438 (bytes_of "zero") FS_CHARDEVICE.

(** ** Helper lemmas *)

(** The octal digits of a number, most significant first. *)
Fixpoint octal (k : nat) (n : Z) : cstr :=
  match k with
  | O => []
  | S k => octal k (n / 8) ++ [48 + n mod 8]
  end.

Lemma schar_digit n : schar (48 + n mod 8) - 48 = n mod 8.
Proof. unfold schar. pose proof (Z.mod_pos_bound n 8 ltac:(lia)). rewrite decide_True by lia. lia. Qed.

Lemma octal_value k : forall n, 0 <= n < 8 ^ Z.of_nat k -> 8 ^ Z.of_nat k < 2 ^ 64 ->
  fold_left (fun ret c => u64 (u64 (ret * 8) + (schar c - 48))) (octal k n) 0 = n.
Proof.
  induction k as [|k IH]; intros n Hn Hk; [simpl in *; lia|]. cbn [octal]. rewrite fold_left_app. cbn [fold_left].
  rewrite Nat2Z.inj_succ, Z.pow_succ_r in Hn, Hk by lia.
  assert (0 <= n / 8 < 8 ^ Z.of_nat k) as Hd by (split; [apply Z.div_pos; lia|apply Z.div_lt_upper_bound; lia]).
  rewrite IH by lia. pose proof (Z.div_mod n 8 ltac:(lia)). pose proof (Z.mod_pos_bound n 8 ltac:(lia)).
  rewrite schar_digit. rewrite (wrapu_small 64 (n / 8 * 8)) by lia. rewrite wrapu_small by lia. lia.
Qed.

(** ** Theorems *)

(** Copying more than there is leaves the memory. *)
Lemma memcpy_past d s n : Z.of_nat (length s) < n -> memcpy d s n = Err OutOfBounds.
Proof. intros Hn. unfold memcpy. apply memcpy_loop_oob; lia. Qed.

(** C38 Reading a file of the archive, of at most 2^63 bytes in a memory of at most
    2^63 bytes, for all 64-bit offsets and sizes.  Unless the offset is not past the end
    and the sum of offset and size reaches 2^64, the result is, in a buffer
    that has room for what is copied, the bytes of the file from the offset on, as
    many as asked for and as there are; size 0 asks for the whole file, an offset
    past the end gives nothing, and the rest of the buffer is untouched.  If
    it does, the sum wraps around, the size is not shortened, and the copy
    leaves the memory. *)
Theorem ustar_read_correct m n Offset Size Buffer contents rest :
  mem_at m (Address n) = Ok (contents ++ rest) -> Length n = Z.of_nat (length contents) ->
  0 <= Address n /\ Address n + Length n < 2 ^ 64 -> Length n < 2 ^ 63 -> Z.of_nat (length (m_bytes m)) < 2 ^ 63 ->
  0 <= Offset < 2 ^ 64 -> 0 <= Size < 2 ^ 64 ->
  let asked := if decide (Size = 0) then length contents else Z.to_nat Size in
  let copied := take asked (drop (Z.to_nat Offset) contents) in
  (Length n < Offset \/ Offset + Size < 2 ^ 64 -> (length copied <= length Buffer)%nat ->
   USTAR_Read m n Offset Size Buffer
     = Ok (m, Z.of_nat (length copied), copied ++ drop (length copied) Buffer)) /\
  (Offset <= Length n -> 2 ^ 64 <= Offset + Size -> USTAR_Read m n Offset Size Buffer = Err OutOfBounds).
Proof.
  intros Hm Hl Ha Hl63 Hm63 Ho Hs asked copied.
  unfold mem_at in Hm. case_decide as Dm; [|done]. injection Hm as Hm.
  assert (length (contents ++ rest) = length (m_bytes m) - Z.to_nat (Address n - m_base m))%nat as Hlen
    by (rewrite <- Hm; by rewrite length_drop). rewrite length_app in Hlen.
  assert (Offset <= Length n -> mem_at m (u64 (Address n + Offset)) = Ok (drop (Z.to_nat Offset) (contents ++ rest))) as Hsrc.
  { intros D. unfold mem_at. rewrite (wrapu_small 64) by lia. rewrite decide_True by lia.
    replace (Z.to_nat (Address n + Offset - m_base m)) with (Z.to_nat (Address n - m_base m) + Z.to_nat Offset)%nat by lia.
    by rewrite <- drop_drop, Hm. }
  unfold USTAR_Read. split.
  - intros Hw Hb. assert (length copied = Nat.min asked (length contents - Z.to_nat Offset)) as Hc
      by (unfold copied; rewrite length_take, length_drop; lia).
    destruct (decide (Length n < Offset)) as [D|D].
    { assert (copied = []) as -> by (apply nil_length_inv; lia). done. }
    set (s := if decide (Size = 0) then Length n else Size).
    assert (asked = Z.to_nat s /\ 0 <= s /\ s <= Z.max Size (Length n) /\ Offset + s < 2 ^ 64) as (Hs1 & Hs0 & Hs2 & Hs3) by (unfold asked, s; case_decide; lia).
    rewrite (wrapu_small 64 (Offset + s)) by lia.
    set (k := if decide (Length n < Offset + s) then Length n - Offset else s).
    assert (k = Z.of_nat (length copied)) as Hk by (unfold k; rewrite Hc; case_decide; lia).
    rewrite Hsrc by lia. cbn [bind]. rewrite drop_app_le by lia.
    rewrite memcpy_ok by (rewrite ?length_app, ?length_drop; lia). cbn [bind]. rewrite Hk, Nat2Z.id. do 3 f_equal.
    assert (take (length copied) (drop (Z.to_nat Offset) contents ++ rest) = copied) as ->; [|done].
    rewrite take_app_le by (rewrite length_drop; lia). unfold copied at 2. rewrite Hc.
    destruct (decide (asked <= length contents - Z.to_nat Offset)%nat); [by rewrite Nat.min_l by lia|].
    rewrite Nat.min_r by lia. rewrite !take_ge; [done|rewrite length_drop; lia..].
  - intros D Hw. rewrite (decide_False (P := Size = 0)), (decide_False (P := Length n < Offset)) by lia.
    assert (u64 (Offset + Size) = Offset + Size - 2 ^ 64) as -> by (unfold wrapu; symmetry; apply (Z.mod_unique _ _ 1); lia).
    rewrite decide_False, Hsrc by lia. cbn [bind]. rewrite memcpy_past; [done|]. rewrite length_drop, length_app. lia.
Qed.

Lemma ustar_read_correct_witness :
  let n := set_Contents 1000 5 new_node in let m := mk_memory 998 [1; 2; 104; 101; 108; 108; 111; 3] in
  USTAR_Read m n 1 3 [7; 7; 7; 7] = Ok (m, 3, [101; 108; 108; 7]) /\ USTAR_Read m n 1 (2 ^ 64 - 1) [7; 7] = Err OutOfBounds.
Proof.
  split.
  - apply (ustar_read_correct (mk_memory 998 [1; 2; 104; 101; 108; 108; 111; 3]) (set_Contents 1000 5 new_node) 1 3 [7; 7; 7; 7]
      [104; 101; 108; 108; 111] [3]); try reflexivity; vm_compute; first [done|lia|intuition congruence].
  - apply (ustar_read_correct (mk_memory 998 [1; 2; 104; 101; 108; 108; 111; 3]) (set_Contents 1000 5 new_node) 1 (2 ^ 64 - 1) [7; 7]
      [104; 101; 108; 108; 111] [3]); try reflexivity; vm_compute; first [done|lia|intuition congruence].
Defined.

(** Round trip of sizes: the octal digits of any number below 2^32, with
    leading zeros, are read back as this number, and of a larger number (the
    field has eleven digits, so up to 2^33) its remainder modulo 2^32. *)
Theorem getsize_octal k n : (k <= 21)%nat -> 0 <= n < 8 ^ Z.of_nat k ->
  getsize (octal k n) = n mod 2 ^ 32.
Proof.
  intros Hk Hn. unfold getsize. rewrite octal_value; [done|done|].
  apply (Z.le_lt_trans _ (8 ^ 21)); [|done]. apply Z.pow_le_mono_r; lia.
Qed.

Lemma getsize_octal_witness : getsize (bytes_of "00000001750") = 1000 /\ getsize (octal 11 (2 ^ 32)) = 0.
Proof.
  split; [exact (getsize_octal 11 1000 ltac:(lia) ltac:(lia))|exact (getsize_octal 11 (2 ^ 32) ltac:(lia) ltac:(lia))].
Defined.

(** Devices do not know where they are: a node added under a mount point
    is found there by its name when no other has that name, and the tree stays
    well formed, but its parent link is null, so [GetPathFromNode] gives a
    path with its name only. *)
Theorem device_path vfs mp operator mode name flags :
  vfs_ok vfs -> next vfs < 2 ^ 49 -> node_exists vfs (mp_root mp) -> mp_root mp <> 1 ->
  cstr_ok name -> (length name < FILENAME_LENGTH)%nat -> child vfs (mp_root mp) name = None ->
  exists vfs' mp' n, AddFileSystem vfs mp operator mode name flags = Ok (vfs', mp', n) /\ vfs_ok vfs' /\
    GetChild vfs' (mp_root mp) name = Ok n /\ GetPathFromNode vfs' n = Ok (abs_text [name]).
Proof.
  intros Hok Hb Hr Hr1 Hn Hl Hc. unfold AddFileSystem. rewrite strcpy_name_ok by done. cbn [bind].
  set (nd := set_Flags _ _). destruct (push_child_new vfs (mp_root mp) nd name Hok ltac:(lia) Hr) as (vfs' & E & Ha); [done..|].
  unfold alloc in *. cbn [fst] in E. rewrite E. cbn [bind]. eexists vfs', _, (next vfs). split; [done|].
  assert (vfs_ok vfs') as Hok' by (eapply added_ok; [done|exact Hr|by left|exact Ha]).
  pose proof (vo_range vfs Hok _ Hr) as Hrr. pose proof (vo_range vfs Hok 1 (vo_root_node vfs Hok)).
  split; [done|]. split.
  - rewrite (GetChild_ok vfs' Hok'); [|by apply (ad_exists _ _ _ _ _ Ha); right|done].
    rewrite (added_child vfs vfs' _ _ _ _ _ Hok Ha), Hc. by rewrite decide_True.
  - destruct (GetPathFromNode_ok vfs' Hok' (next vfs)) as (ws & -> & _ & _ & _ & Hws).
    + right. apply (ad_exists _ _ _ _ _ Ha). by left.
    + rewrite (ad_next _ _ _ _ _ Ha). lia.
    + rewrite Hws; [|lia|lia| |by rewrite (ad_par _ _ _ _ _ Ha), decide_True].
      * rewrite (ad_nm _ _ _ _ _ Ha), decide_True by done. unfold tail_text, abs_text. cbn. by rewrite app_nil_r.
      * rewrite (ad_kids _ _ _ _ _ Ha), decide_False by done. intros Hin.
        apply (vo_child vfs Hok) in Hin as [_ Hin]. apply (vo_range vfs Hok) in Hin. lia.
Qed.

Lemma device_path_witness : exists vfs' mp' n,
  AddFileSystem (tree [call_create (bytes_of "/system/dev")]) (mk_mountpoint 4 0) 2 438 (bytes_of "null") FS_CHARDEVICE
    = Ok (vfs', mp', n) /\ vfs_ok vfs' /\
    GetChild vfs' 4 (bytes_of "null") = Ok n /\ GetPathFromNode vfs' n = Ok (bytes_of "/null").
Proof.
  assert (fs_inv (tree [call_create (bytes_of "/system/dev")])) as (Hok & _).
  { apply tree_ok; [|vm_compute; reflexivity]. apply Forall_cons_2; [|apply Forall_nil_2].
    split; [bytes|]. split; [reflexivity|bytes]. }
  apply (device_path (tree [call_create (bytes_of "/system/dev")]) (mk_mountpoint 4 0) 2 438 (bytes_of "null") FS_CHARDEVICE Hok).
  - vm_compute. reflexivity.
  - eexists. vm_compute. reflexivity.
  - discriminate.
  - bytes.
  - vm_compute. lia.
  - vm_compute. reflexivity.
Defined.

(** ** Examples *)

(** A field: a text padded with zeros. *)
Definition field (k : nat) (s : cstr) : list Z := s ++ replicate (k - length s) 0.

Definition header (name : string) (size typeflag : Z) : list Z :=
  field 100 (bytes_of name) ++ field 8 (bytes_of "0000644") ++ field 8 (bytes_of "0001750") ++ field 8 (bytes_of "0000144") ++
  field 12 (octal 11 size) ++ field 12 [] ++ field 8 [] ++ [typeflag] ++ field 100 [] ++ field 6 (bytes_of "ustar") ++ field 249 [].

Definition entry (name contents : string) : list Z :=
  let n := Z.of_nat (length (bytes_of contents)) in
  header name n 48 ++ field (if decide (n = 0) then 0 else 512) (bytes_of contents).

Definition archive : memory :=
  mk_memory 4096 (header "./" 0 53 ++ header "./etc/" 0 53 ++ entry "./etc/motd" "hello" ++ entry "./empty" EmptyString ++ replicate 1024 0).

(** The node, length, flags and the bytes read of a file of the archive. *)
Definition archived (path : string) (Offset Size : Z) : res (Z * Z * Z * list Z) :=
  let* vfs := Virtual_new in
  let* '(vfs, m) := USTAR_new vfs archive 1 in
  let* '(vfs, f) := Open vfs (bytes_of path) 0 in
  let* n := deref vfs (f_Node f) in
  let* '(vfs, (_, _, r, b)) := Read kernel_operators vfs m (Some f) Offset (replicate 8 7) Size in
  Ok (f_Node f, Flags n, r, b).

Example archive_1 : archived "/etc/motd" 0 0 = Ok (4, FS_FILE, 5, bytes_of "hello" ++ [7; 7; 7]).
Proof. vm_compute. reflexivity. Qed.

Example archive_2 : archived "/etc/../etc/motd" 1 2 = Ok (4, FS_FILE, 2, bytes_of "el" ++ replicate 6 7).
Proof. vm_compute. reflexivity. Qed.

Example archive_3 : archived "/empty" 0 8 = Ok (5, FS_FILE, 0, replicate 8 7).
Proof. vm_compute. reflexivity. Qed.
