(* ===== verification/Network.v ===== *)
(** * The network stack

    src/kernel/network: addresses, byte order and checksums of
    NetworkController.hpp, and the classes of AddressResolutionProtocol.cpp,
    Ethernet.cpp, InternetProtocol.cpp, UserDatagramProtocol.cpp,
    DynamicHostConfigurationProtocol.cpp, InternetControlMessageProtocol.cpp
    and the parts of NetworkController.cpp that send, receive and start.

    A packet is the bytes of its object; a header field is read and written
    at its offset, least significant byte first, as the processor does, so
    the byte order on the wire is what the code makes it.  The objects that
    [StartNetworkStack] creates, one of each class, are the record [net].
    The network card is the list of frames given to it, and the frames that
    arrive while a thread sleeps are given as batches, one per sleep.
    Debugging output is left out. *)

From S2P Require Import Prelude CString Bytes Vector PageFrame.

Local Open Scope Z_scope.

(** ** Byte order *)

Definition b8 (x : Z) : Z := Z.land x 0xFF.
Definition b16 (x : Z) : Z := Z.lor (Z.shiftl (Z.land x 0xFF) 8) (Z.land (Z.shiftr x 8) 0xFF).
Definition b32 (x : Z) : Z :=
  Z.lor (Z.lor (Z.lor (Z.shiftl (Z.land x 0xFF) 24) (Z.shiftl (Z.land (Z.shiftr x 8) 0xFF) 16))
    (Z.shiftl (Z.land (Z.shiftr x 16) 0xFF) 8)) (Z.land (Z.shiftr x 24) 0xFF).
Definition b48 (x : Z) : Z :=
  Z.lor (Z.lor (Z.lor (Z.lor (Z.lor
    (Z.shiftl (Z.land x 0x0000000000ff) 40) (Z.shiftl (Z.land x 0x00000000ff00) 24))
    (Z.shiftl (Z.land x 0x000000ff0000) 8)) (Z.shiftr (Z.land x 0x0000ff000000) 8))
    (Z.shiftr (Z.land x 0x00ff00000000) 24)) (Z.shiftr (Z.land x 0xff0000000000) 40).

(** ** Addresses *)

(** The array [Address] of the structure. *)
Record MediaAccessControl := mk_MAC { mac0 : Z; mac1 : Z; mac2 : Z; mac3 : Z; mac4 : Z; mac5 : Z }.
Record InternetProtocol4 := mk_IP { ip0 : Z; ip1 : Z; ip2 : Z; ip3 : Z }.

#[export] Instance MediaAccessControl_eq_dec : EqDecision MediaAccessControl.
Proof. solve_decision. Defined.
#[export] Instance InternetProtocol4_eq_dec : EqDecision InternetProtocol4.
Proof. solve_decision. Defined.

(** [operator==]. *)
Definition MAC_eq (a b : MediaAccessControl) : bool :=
  bool_decide (mac0 b = mac0 a) && bool_decide (mac1 b = mac1 a) && bool_decide (mac2 b = mac2 a) &&
  bool_decide (mac3 b = mac3 a) && bool_decide (mac4 b = mac4 a) && bool_decide (mac5 b = mac5 a).

Definition MAC_ToHex (a : MediaAccessControl) : Z :=
  Z.lor (Z.lor (Z.lor (Z.lor (Z.lor (Z.shiftl (mac0 a) 40) (Z.shiftl (mac1 a) 32)) (Z.shiftl (mac2 a) 24))
    (Z.shiftl (mac3 a) 16)) (Z.shiftl (mac4 a) 8)) (mac5 a).

Definition MAC_FromHex (Hex : Z) : MediaAccessControl :=
  mk_MAC (u8 (Z.land (Z.shiftr Hex 40) 0xFF)) (u8 (Z.land (Z.shiftr Hex 32) 0xFF)) (u8 (Z.land (Z.shiftr Hex 24) 0xFF))
    (u8 (Z.land (Z.shiftr Hex 16) 0xFF)) (u8 (Z.land (Z.shiftr Hex 8) 0xFF)) (u8 (Z.land Hex 0xFF)).

Definition MAC_eq_hex (a : MediaAccessControl) (lhs : Z) : bool := MAC_eq a (MAC_FromHex lhs).

Definition MAC_Valid (a : MediaAccessControl) : bool :=
  (bool_decide (mac0 a <> 0) || bool_decide (mac1 a <> 0) || bool_decide (mac2 a <> 0) ||
   bool_decide (mac3 a <> 0) || bool_decide (mac4 a <> 0) || bool_decide (mac5 a <> 0)) &&
  (bool_decide (mac0 a <> 0xFF) || bool_decide (mac1 a <> 0xFF) || bool_decide (mac2 a <> 0xFF) ||
   bool_decide (mac3 a <> 0xFF) || bool_decide (mac4 a <> 0xFF) || bool_decide (mac5 a <> 0xFF)).

Definition IP_eq (a b : InternetProtocol4) : bool :=
  bool_decide (ip0 b = ip0 a) && bool_decide (ip1 b = ip1 a) && bool_decide (ip2 b = ip2 a) && bool_decide (ip3 b = ip3 a).

Definition IP_ToHex (a : InternetProtocol4) : Z :=
  u32 (Z.lor (Z.lor (Z.lor (Z.shiftl (ip0 a) 24) (Z.shiftl (ip1 a) 16)) (Z.shiftl (ip2 a) 8)) (ip3 a)).

Definition IP_FromHex (Hex : Z) : InternetProtocol4 :=
  mk_IP (u8 (Z.land (Z.shiftr Hex 24) 0xFF)) (u8 (Z.land (Z.shiftr Hex 16) 0xFF))
    (u8 (Z.land (Z.shiftr Hex 8) 0xFF)) (u8 (Z.land Hex 0xFF)).

Definition IP_eq_hex (a : InternetProtocol4) (lhs : Z) : bool := IP_eq a (IP_FromHex lhs).

(** ** The Internet checksum *)

(** The loop over the 16-bit words, from word [i] on with [k] left. *)
Fixpoint checksum_words (Data : list Z) (Checksum : Z) (i k : nat) : res Z :=
  match k with
  | O => Ok Checksum
  | S k' =>
      let* w := load 2 Data (2 * i) in
      checksum_words Data
        (u64 (Checksum + Z.lor (Z.shiftr (Z.land w 0xFF00) 8) (Z.shiftl (Z.land w 0x00FF) 8))) (S i) k'
  end.

(** [while (Checksum & 0xFFFF0000)]. *)
Fixpoint checksum_fold (Checksum : Z) (fuel : nat) : res Z :=
  match fuel with
  | O => Err OutOfFuel
  | S f =>
      if decide (Z.land Checksum 0xFFFF0000 <> 0) then
        checksum_fold (u64 (Z.land Checksum 0xFFFF + Z.shiftr Checksum 16)) f
      else Ok Checksum
  end.

(** The last byte of an odd number is read through [char], which is signed. *)
Definition CalculateChecksum (Data : list Z) (Length : Z) : res Z :=
  let* Checksum := checksum_words Data 0 0 (Z.to_nat (Length / 2)) in
  let* Checksum :=
    if decide (Length mod 2 <> 0) then
      let* c := aget Data (Z.to_nat (Length - 1)) in
      Ok (u64 (Checksum + Z.shiftl (u16 (schar c)) 8))
    else Ok Checksum in
  let* Checksum := checksum_fold Checksum 8 in
  let inv := Z.lnot Checksum in
  Ok (u16 (Z.lor (Z.shiftr (Z.land inv 0xFF00) 8) (Z.shiftl (Z.land inv 0x00FF) 8))).

(** ** Constants and headers *)

Definition TYPE_IPV4 : Z := 0x0800.
Definition TYPE_ARP : Z := 0x0806.
Definition TYPE_RARP : Z := 0x8035.
Definition TYPE_IPV6 : Z := 0x86DD.
Definition REQUEST : Z := 1.
Definition REPLY : Z := 2.
Definition HTYPE_ETHERNET : Z := 1.
Definition PROTOCOL_UDP : Z := 17.
Definition BROADCAST : Z := 0xFFFFFFFFFFFF.

(** Sizes and offsets of the packed structures. *)
Definition sizeof_EthernetHeader : Z := 14.
Definition off_DestinationMAC : nat := 0.
Definition off_SourceMAC : nat := 6.
Definition off_Type : nat := 12.

Definition sizeof_ARPHeader : Z := 28.
Definition off_HardwareType : nat := 0.
Definition off_ProtocolType : nat := 2.
Definition off_HardwareSize : nat := 4.
Definition off_ProtocolSize : nat := 5.
Definition off_Operation : nat := 6.
Definition off_SenderMAC : nat := 8.
Definition off_SenderIP : nat := 14.
Definition off_TargetMAC : nat := 18.
Definition off_TargetIP : nat := 24.

Definition sizeof_IPv4Header : Z := 20.
Definition off_IHL_Version : nat := 0.
Definition off_TypeOfService : nat := 1.
Definition off_TotalLength : nat := 2.
Definition off_Identification : nat := 4.
Definition off_FlagsAndFragmentOffset : nat := 6.
Definition off_TimeToLive : nat := 8.
Definition off_Protocol : nat := 9.
Definition off_HeaderChecksum : nat := 10.
Definition off_SourceIP : nat := 12.
Definition off_DestinationIP : nat := 16.

Definition sizeof_UDPHeader : Z := 8.
Definition off_SourcePort : nat := 0.
Definition off_DestinationPort : nat := 2.
Definition off_Length : nat := 4.
Definition off_Checksum : nat := 6.

Definition sizeof_ICMPHeader : Z := 8.
Definition sizeof_DHCPHeader : Z := 300.
Definition off_Opcode : nat := 0.
Definition off_dhcp_HardwareType : nat := 1.
Definition off_HardwareAddressLength : nat := 2.
Definition off_Hops : nat := 3.
Definition off_TransactionID : nat := 4.
Definition off_Flags : nat := 10.
Definition off_YourIP : nat := 16.
Definition off_ClientHardwareAddress : nat := 28.
Definition off_Options : nat := 236.

(** ** State *)

(** The card: the members [MAC] and [IP]. *)
Record DeviceInterface := mk_dev { dev_MAC : MediaAccessControl; dev_IP : InternetProtocol4 }.

Record DiscoveredAddress := mk_DA { da_MAC : MediaAccessControl; da_IP : InternetProtocol4 }.

(** A pointer to one of the objects. *)
Inductive object := NullObject | EthernetObject | ARPObject | IPv4Object | UDPObject | DHCPObject.
#[export] Instance object_eq_dec : EqDecision object.
Proof. solve_decision. Defined.

Record EthernetEventHelperStruct := mk_EthernetEvent { ee_Ptr : object; ee_Type : Z }.

Record Socket := mk_Socket {
  LocalIP : InternetProtocol4;
  LocalPort : Z;
  RemoteIP : InternetProtocol4;
  RemotePort : Z;
  Listening : bool;
  EventHandler : object
}.

(** [UDPSocket] is the number of a socket; sockets are never released. *)
Record EventInfo := mk_EventInfo { UDPSocket : option nat; Port : Z }.

Record DHCP := mk_DHCP {
  dhcp_UDPSocket : option nat;
  Received : bool;
  dhcp_IP : InternetProtocol4;
  Gateway : InternetProtocol4;
  SubnetworkMask : InternetProtocol4;
  DomainNameSystem : InternetProtocol4
}.

(** [frames] is what the card was given to send; [arrivals] are the frames
    that arrive during the coming sleeps. *)
Record net := mk_net {
  Interface : DeviceInterface;
  InterfaceEvents : Vector object;
  EthernetEvents : Vector EthernetEventHelperStruct;
  IPv4Events : Vector object;
  UDPEvents : Vector EventInfo;
  DiscoveredAddresses : Vector (option DiscoveredAddress);
  GatewayIP : InternetProtocol4;
  SubnetworkMaskIP : InternetProtocol4;
  sockets : list Socket;
  UsuablePort : Z;
  dhcp : DHCP;
  KernelAllocator : PageFrameAllocator;
  allocations : nat;
  frames : list (list Z);
  arrivals : list (list (list Z))
}.

Definition set_Interface x (n : net) := mk_net x (InterfaceEvents n) (EthernetEvents n) (IPv4Events n) (UDPEvents n)
  (DiscoveredAddresses n) (GatewayIP n) (SubnetworkMaskIP n) (sockets n) (UsuablePort n) (dhcp n) (KernelAllocator n)
  (allocations n) (frames n) (arrivals n).
Definition set_InterfaceEvents x (n : net) := mk_net (Interface n) x (EthernetEvents n) (IPv4Events n) (UDPEvents n)
  (DiscoveredAddresses n) (GatewayIP n) (SubnetworkMaskIP n) (sockets n) (UsuablePort n) (dhcp n) (KernelAllocator n)
  (allocations n) (frames n) (arrivals n).
Definition set_EthernetEvents x (n : net) := mk_net (Interface n) (InterfaceEvents n) x (IPv4Events n) (UDPEvents n)
  (DiscoveredAddresses n) (GatewayIP n) (SubnetworkMaskIP n) (sockets n) (UsuablePort n) (dhcp n) (KernelAllocator n)
  (allocations n) (frames n) (arrivals n).
Definition set_IPv4Events x (n : net) := mk_net (Interface n) (InterfaceEvents n) (EthernetEvents n) x (UDPEvents n)
  (DiscoveredAddresses n) (GatewayIP n) (SubnetworkMaskIP n) (sockets n) (UsuablePort n) (dhcp n) (KernelAllocator n)
  (allocations n) (frames n) (arrivals n).
Definition set_UDPEvents x (n : net) := mk_net (Interface n) (InterfaceEvents n) (EthernetEvents n) (IPv4Events n) x
  (DiscoveredAddresses n) (GatewayIP n) (SubnetworkMaskIP n) (sockets n) (UsuablePort n) (dhcp n) (KernelAllocator n)
  (allocations n) (frames n) (arrivals n).
Definition set_DiscoveredAddresses x (n : net) := mk_net (Interface n) (InterfaceEvents n) (EthernetEvents n) (IPv4Events n)
  (UDPEvents n) x (GatewayIP n) (SubnetworkMaskIP n) (sockets n) (UsuablePort n) (dhcp n) (KernelAllocator n)
  (allocations n) (frames n) (arrivals n).
Definition set_route mask gw (n : net) := mk_net (Interface n) (InterfaceEvents n) (EthernetEvents n) (IPv4Events n)
  (UDPEvents n) (DiscoveredAddresses n) gw mask (sockets n) (UsuablePort n) (dhcp n) (KernelAllocator n)
  (allocations n) (frames n) (arrivals n).
Definition set_sockets x port (n : net) := mk_net (Interface n) (InterfaceEvents n) (EthernetEvents n) (IPv4Events n)
  (UDPEvents n) (DiscoveredAddresses n) (GatewayIP n) (SubnetworkMaskIP n) x port (dhcp n) (KernelAllocator n)
  (allocations n) (frames n) (arrivals n).
Definition set_dhcp x (n : net) := mk_net (Interface n) (InterfaceEvents n) (EthernetEvents n) (IPv4Events n)
  (UDPEvents n) (DiscoveredAddresses n) (GatewayIP n) (SubnetworkMaskIP n) (sockets n) (UsuablePort n) x (KernelAllocator n)
  (allocations n) (frames n) (arrivals n).
Definition set_KernelAllocator x (n : net) := mk_net (Interface n) (InterfaceEvents n) (EthernetEvents n) (IPv4Events n)
  (UDPEvents n) (DiscoveredAddresses n) (GatewayIP n) (SubnetworkMaskIP n) (sockets n) (UsuablePort n) (dhcp n) x
  (allocations n) (frames n) (arrivals n).
Definition allocated (n : net) := mk_net (Interface n) (InterfaceEvents n) (EthernetEvents n) (IPv4Events n)
  (UDPEvents n) (DiscoveredAddresses n) (GatewayIP n) (SubnetworkMaskIP n) (sockets n) (UsuablePort n) (dhcp n)
  (KernelAllocator n) (S (allocations n)) (frames n) (arrivals n).
Definition transmitted x (n : net) := mk_net (Interface n) (InterfaceEvents n) (EthernetEvents n) (IPv4Events n)
  (UDPEvents n) (DiscoveredAddresses n) (GatewayIP n) (SubnetworkMaskIP n) (sockets n) (UsuablePort n) (dhcp n)
  (KernelAllocator n) (allocations n) (frames n ++ [x]) (arrivals n).
Definition set_arrivals x (n : net) := mk_net (Interface n) (InterfaceEvents n) (EthernetEvents n) (IPv4Events n)
  (UDPEvents n) (DiscoveredAddresses n) (GatewayIP n) (SubnetworkMaskIP n) (sockets n) (UsuablePort n) (dhcp n)
  (KernelAllocator n) (allocations n) (frames n) x.

Definition set_socket (i : nat) (f : Socket -> Socket) (n : net) : res net :=
  let* s := aget (sockets n) i in
  let* l := aset (sockets n) i (f s) in
  Ok (set_sockets l (UsuablePort n) n).

(** The bytes in the [k]-th piece of memory that is allocated, of some size,
    and the name that the build gives to the kernel. *)
Class NetHardware := {
  fresh : nat -> Z -> list Z;
  KERNEL_NAME : list Z
}.

(** Memory has the size asked for. *)
Class NetHardwareLaws (H : NetHardware) := {
  fresh_size k s : length (fresh k s) = Z.to_nat s
}.

Section network.
Context `{NetHardware}.

(** [kmalloc] and [new]; the memory is released at the end of the functions
    that ask for it. *)
Definition kmalloc (n : net) (Size : Z) : net * list Z := (allocated n, fresh (allocations n) Size).

(** ** The card *)

(** [Interface->Send(mem, Length)] of the driver. *)
Definition Interface_Send (n : net) (mem : list Z) (Length : Z) : res net :=
  if decide (Length <= Z.of_nat (length mem)) then Ok (transmitted (take (Z.to_nat Length) mem) n)
  else Err OutOfBounds.

(** [NetworkInterface::Send]; no object handles [OnInterfaceSent]. *)
Definition NetworkInterface_Send (n : net) (Data : list Z) (Length : Z) : res net :=
  let* '(p, DataToBeSent) := RequestPages (KernelAllocator n) (Length / 4096 + 1) in
  if decide (DataToBeSent = 0) then Err NullDeref
  else
    let* mem := memcpy (fresh (allocations n) ((Length / 4096 + 1) * 4096)) Data Length in
    let* n := Interface_Send (allocated (set_KernelAllocator p n)) mem Length in
    let* p := FreePages (KernelAllocator n) DataToBeSent (Length / 4096 + 1) in
    Ok (set_KernelAllocator p n).

(** ** Ethernet *)

Definition Ethernet_Send (n : net) (MAC : MediaAccessControl) (Type_ : Z) (Data : list Z) (Length : Z) : res net :=
  let PacketLength := u64 (sizeof_EthernetHeader + Length) in
  let '(n, Packet) := kmalloc n PacketLength in
  let* Packet := store 6 Packet off_DestinationMAC (b48 (MAC_ToHex MAC)) in
  let* Packet := store 6 Packet off_SourceMAC (b48 (MAC_ToHex (dev_MAC (Interface n)))) in
  let* Packet := store 2 Packet off_Type (b16 Type_) in
  let* Packet := memcpy_to Packet 14 Data Length in
  NetworkInterface_Send n Packet PacketLength.

(** ** Address resolution *)

Inductive DAType := DA_ADD | DA_DEL | DA_SEARCH | DA_UPDATE.

(** The first index with the address, from [i] on with [k] left. *)
Fixpoint find_DA (v : Vector (option DiscoveredAddress)) (IP : InternetProtocol4) (i : Z) (k : nat) : res (option Z) :=
  match k with
  | O => Ok None
  | S k' =>
      let* p := index v i in
      let* a := nonnull p in
      if IP_eq (da_IP a) IP then Ok (Some i) else find_DA v IP (i + 1) k'
  end.

Definition ManageDA (n : net) (Type_ : DAType) (IP : InternetProtocol4) (MAC : MediaAccessControl)
    : res (net * option DiscoveredAddress) :=
  let v := DiscoveredAddresses n in
  let found := find_DA v IP 0 (Z.to_nat (Vector.size v)) in
  match Type_ with
  | DA_ADD =>
      let tmp := mk_DA MAC IP in
      let* v := push_back None v (Some tmp) in
      Ok (set_DiscoveredAddresses v n, Some tmp)
  | DA_DEL =>
      let* r := found in
      match r with
      | Some i =>
          let* tmp := index v i in
          let* v := Vector.remove None v i in
          Ok (set_DiscoveredAddresses v n, tmp)
      | None => Ok (n, None)
      end
  | DA_SEARCH =>
      let* r := found in
      match r with
      | Some i => let* a := index v i in Ok (n, a)
      | None => Ok (n, None)
      end
  | DA_UPDATE =>
      let* r := found in
      match r with
      | Some i =>
          let* p := index v i in
          let* a := nonnull p in
          let a := mk_DA MAC (da_IP a) in
          let* b := buffer v in
          let* b := aset b (Z.to_nat i) (Some a) in
          Ok (set_DiscoveredAddresses (mk_Vector (VectorSize v) (VectorCapacity v) (Some b)) n, Some a)
      | None => Ok (n, None)
      end
  end.

Definition InvalidRet : DiscoveredAddress := mk_DA (mk_MAC 0xFF 0xFF 0xFF 0xFF 0xFF 0xFF) (mk_IP 0xFF 0xFF 0xFF 0xFF).
Definition zero_MAC : MediaAccessControl := mk_MAC 0 0 0 0 0 0.

Definition ARP_Search (n : net) (TargetIP : InternetProtocol4) : res DiscoveredAddress :=
  let* '(_, ret) := ManageDA n DA_SEARCH TargetIP zero_MAC in
  Ok (default InvalidRet ret).

Definition ARP_Update (n : net) (TargetIP : InternetProtocol4) (TargetMAC : MediaAccessControl) : res (net * DiscoveredAddress) :=
  let* '(n, ret) := ManageDA n DA_UPDATE TargetIP TargetMAC in
  Ok (n, default InvalidRet ret).

(** The assignments to a new [ARPHeader], in their order. *)
Definition fill_ARPHeader (Header : list Z) (hardware protocol hsize psize operation smac sip tmac tip : Z) : res (list Z) :=
  let* h := store 2 Header off_HardwareType hardware in
  let* h := store 2 h off_ProtocolType protocol in
  let* h := store 1 h off_HardwareSize hsize in
  let* h := store 1 h off_ProtocolSize psize in
  let* h := store 2 h off_Operation operation in
  let* h := store 6 h off_SenderMAC smac in
  let* h := store 4 h off_SenderIP sip in
  let* h := store 6 h off_TargetMAC tmac in
  store 4 h off_TargetIP tip.

(** What waits: [sleep] is what happens to the stack while a thread sleeps. *)
Section waiting.
Context (sleep : net -> res net).

(** The loop of [Resolve], with [k] for [RequestTimeout]. *)
Fixpoint resolve_loop (n : net) (IP : InternetProtocol4) (ret : Z) (k : nat) : res (net * Z) :=
  if decide (ret = BROADCAST) then
    let* a := ARP_Search n IP in
    match k with
    | S (S _ as k') => let* n := sleep n in resolve_loop n IP (MAC_ToHex (da_MAC a)) k'
    | _ => Ok (n, 0)
    end
  else Ok (n, ret).

Definition ARP_Resolve (n : net) (IP : InternetProtocol4) : res (net * Z) :=
  if IP_eq_hex IP 0xFFFFFFFF then Ok (n, BROADCAST)
  else
    let* a := ARP_Search n IP in
    let ret := MAC_ToHex (da_MAC a) in
    let* n :=
      if decide (ret = BROADCAST) then
        let '(n, Header) := kmalloc n sizeof_ARPHeader in
        let* Header := fill_ARPHeader Header HTYPE_ETHERNET TYPE_IPV4 6 4 REQUEST
                         (MAC_ToHex (dev_MAC (Interface n))) (IP_ToHex (dev_IP (Interface n))) BROADCAST (IP_ToHex IP) in
        Ethernet_Send n (mk_MAC 0xFF 0xFF 0xFF 0xFF 0xFF 0xFF) TYPE_ARP Header sizeof_ARPHeader
      else Ok n in
    resolve_loop n IP ret 10.

Definition ARP_Broadcast (n : net) (IP : InternetProtocol4) : res net :=
  let* '(n, ResolvedMAC) := ARP_Resolve n IP in
  let '(n, Header) := kmalloc n sizeof_ARPHeader in
  let* Header := fill_ARPHeader Header (b16 HTYPE_ETHERNET) (b16 TYPE_IPV4) (b8 6) (b8 4) (b16 REQUEST)
                   (b48 (MAC_ToHex (dev_MAC (Interface n)))) (b32 (IP_ToHex (dev_IP (Interface n)))) ResolvedMAC (IP_ToHex IP) in
  Ethernet_Send n (MAC_FromHex ResolvedMAC) TYPE_ARP Header sizeof_ARPHeader.

(** ** Internet protocol *)

Definition fill_IPv4Header (Packet : list Z) (Length Protocol : Z) (DestinationIP SourceIP : InternetProtocol4) : res (list Z) :=
  let TotalLength := u16 (Length + sizeof_IPv4Header) in
  let* p := store 1 Packet off_IHL_Version (Z.lor (Z.shiftl 4 4) (sizeof_IPv4Header / 4)) in
  let* p := store 1 p off_TypeOfService 0 in
  let* p := store 2 p off_TotalLength TotalLength in
  let* p := store 2 p off_TotalLength
              (Z.lor (Z.shiftr (Z.land TotalLength 0xFF00) 8) (Z.shiftl (Z.land TotalLength 0x00FF) 8)) in
  let* p := store 2 p off_Identification 0 in
  let* p := store 2 p off_FlagsAndFragmentOffset 0 in
  let* p := store 1 p off_TimeToLive 64 in
  let* p := store 1 p off_Protocol Protocol in
  let* p := store 4 p off_DestinationIP (b32 (IP_ToHex DestinationIP)) in
  let* p := store 4 p off_SourceIP (b32 (IP_ToHex SourceIP)) in
  let* p := store 2 p off_HeaderChecksum 0 in
  let* c := CalculateChecksum p sizeof_IPv4Header in
  store 2 p off_HeaderChecksum c.

Definition IPv4_Send (n : net) (Data : list Z) (Length Protocol : Z) (DestinationIP : InternetProtocol4) : res net :=
  let '(n, Packet) := kmalloc n (u64 (Length + sizeof_IPv4Header)) in
  let* Packet := fill_IPv4Header Packet Length Protocol DestinationIP (dev_IP (Interface n)) in
  let* Packet := memcpy_to Packet 20 Data Length in
  let* SourceIP := load 4 Packet off_SourceIP in
  let DestinationRoute :=
    if decide (Z.land (b32 (IP_ToHex DestinationIP)) (IP_ToHex (SubnetworkMaskIP n)) <>
               Z.land SourceIP (IP_ToHex (SubnetworkMaskIP n)))
    then SubnetworkMaskIP n else DestinationIP in
  let* '(n, MAC) := ARP_Resolve n DestinationRoute in
  Ethernet_Send n (MAC_FromHex MAC) TYPE_IPV4 Packet (u64 (Length + sizeof_IPv4Header)).

(** ** Datagrams *)

Definition new_Socket : Socket := mk_Socket (da_IP InvalidRet) 0 (da_IP InvalidRet) 0 false NullObject.

Definition UDP_Connect (n : net) (IP : InternetProtocol4) (port : Z) : res (net * nat) :=
  let socket := mk_Socket (dev_IP (Interface n)) (b16 (UsuablePort n)) IP (b16 port) false NullObject in
  let i := length (sockets n) in
  let n := set_sockets (sockets n ++ [socket]) (u16 (UsuablePort n + 1)) n in
  let* v := push_back (mk_EventInfo None 0) (UDPEvents n) (mk_EventInfo (Some i) (LocalPort socket)) in
  Ok (set_UDPEvents v n, i).

Definition UDP_Bind (n : net) (s : nat) (h : object) : res net :=
  set_socket s (fun x => mk_Socket (LocalIP x) (LocalPort x) (RemoteIP x) (RemotePort x) (Listening x) h) n.

Definition UDP_Send (n : net) (s : nat) (Data : list Z) (Length : Z) : res net :=
  let TotalLength := u16 (Length + sizeof_UDPHeader) in
  let* socket := aget (sockets n) s in
  let '(n, packet) := kmalloc n TotalLength in
  let* p := store 2 packet off_SourcePort (LocalPort socket) in
  let* p := store 2 p off_DestinationPort (RemotePort socket) in
  let* p := store 2 p off_Length (b16 TotalLength) in
  let* p := memcpy_to p 8 Data Length in
  let* p := store 2 p off_Checksum 0 in
  IPv4_Send n p TotalLength 0x11 (RemoteIP socket).

(** ** Host configuration *)

(** [*(Ptr++) = x] for the bytes of a list. *)
Fixpoint put_all (P : list Z) (Ptr : nat) (l : list Z) : res (list Z) :=
  match l with
  | [] => Ok P
  | x :: l => let* P := aset P Ptr (u8 x) in put_all P (S Ptr) l
  end.

Definition DHCP_TRANSACTION_ID : Z := 0xFE2EC005.

(** The eight bytes of a [uint48_t] variable. *)
Definition bytes_of_uint48 (x : Z) : res (list Z) := store 8 (replicate 8 0) 0 x.

Definition DHCP_CreatePacket (n : net) (Packet : list Z) (MessageType RequestIP : Z) : res (list Z) :=
  let* P := store 1 Packet off_Opcode (b8 1) in
  let* P := store 1 P off_dhcp_HardwareType (b8 1) in
  let* P := store 1 P off_HardwareAddressLength (b8 6) in
  let* P := store 1 P off_Hops (b8 0) in
  let* P := store 4 P off_TransactionID (b32 DHCP_TRANSACTION_ID) in
  let* P := store 2 P off_Flags (b16 0x40) in
  let* mac := bytes_of_uint48 (b48 (MAC_ToHex (dev_MAC (Interface n)))) in
  let* P := memcpy_to P off_ClientHardwareAddress mac 8 in
  let Ptr := off_Options in
  let* P := store 4 P Ptr (b32 0x63825363) in
  let Ptr := (Ptr + 4)%nat in
  let* P := put_all P Ptr [53; 1; MessageType; 61; 7; 1] in
  let Ptr := (Ptr + 6)%nat in
  let* P := memcpy_to P Ptr mac 8 in
  let Ptr := (Ptr + 6)%nat in
  let* P := put_all P Ptr [50; 4] in
  let Ptr := (Ptr + 2)%nat in
  let* P := store 4 P Ptr (b32 0x0a00020e) in
  let* P := store 4 P Ptr RequestIP in
  let Ptr := (Ptr + 4)%nat in
  let len := length KERNEL_NAME in
  let* P := put_all P Ptr [12; 1 + Z.of_nat len] in
  let Ptr := (Ptr + 2)%nat in
  let* P := memcpy_to P Ptr KERNEL_NAME (Z.of_nat len) in
  let Ptr := (Ptr + len)%nat in
  put_all P Ptr [0; 55; 8; 1; 3; 6; 15; 44; 46; 47; 57; 255].

Definition request_packet (n : net) (MessageType RequestIP : Z) : res net :=
  let* packet := DHCP_CreatePacket n (replicate 300 0) MessageType RequestIP in
  let* s := nonnull (dhcp_UDPSocket (dhcp n)) in
  UDP_Send n s packet sizeof_DHCPHeader.

(** The loop that waits for the answer, with [k] for [RequestTimeout]. *)
Fixpoint wait_loop (n : net) (k : nat) : res net :=
  if Received (dhcp n) then Ok n
  else match k with
       | S (S _ as k') => let* n := sleep n in wait_loop n k'
       | _ => Ok n
       end.

Definition DHCP_Request (n : net) : res net :=
  let* n := request_packet n 1 0 in
  wait_loop n 10.

Definition DHCP_Request_IP (n : net) (IP : InternetProtocol4) : res net := request_packet n 3 (IP_ToHex IP).

(** The loop of [GetOption], with the offset [Option]; [fuel] bounds the
    options. *)
Fixpoint option_loop (Packet : list Z) (Type_ : Z) (Opt : nat) (fuel : nat) : res (option nat) :=
  match fuel with
  | O => Err OutOfFuel
  | S f =>
      let* Current := aget Packet Opt in
      if decide (Current = 0xff) then Ok None
      else
        let* OptionLength := aget Packet (Opt + 1) in
        if decide (Current = Type_) then Ok (Some (Opt + 2)%nat)
        else option_loop Packet Type_ (Opt + 2 + Z.to_nat OptionLength) f
  end.

Definition DHCP_GetOption (Packet : list Z) (Type_ : Z) : res (option nat) :=
  option_loop Packet Type_ (off_Options + 4) (length Packet).

(** [*(uint32_t * )GetOption(Packet, Type)]. *)
Definition address_option (Packet : list Z) (Type_ : Z) : res InternetProtocol4 :=
  let* o := DHCP_GetOption Packet Type_ in
  let* o := nonnull o in
  let* v := load 4 Packet o in
  Ok (IP_FromHex v).

Definition DHCP_OnUDPPacketReceived (n : net) (Packet : list Z) : res net :=
  let* o := DHCP_GetOption Packet 53 in
  let* o := nonnull o in
  let* MessageType := aget Packet o in
  if decide (MessageType = 2) then
    let* ip := load 4 Packet off_YourIP in
    DHCP_Request_IP n (IP_FromHex ip)
  else if decide (MessageType = 5) then
    let* ip := load 4 Packet off_YourIP in
    let* gateway := address_option Packet 3 in
    let* dns := address_option Packet 6 in
    let* mask := address_option Packet 1 in
    Ok (set_dhcp (mk_DHCP (dhcp_UDPSocket (dhcp n)) true (IP_FromHex ip) gateway mask dns) n)
  else Ok n.

(** ** Reception *)

(** The loop over the sockets: [inl] is the return with a socket that listened,
    [inr] the last socket. *)
Fixpoint udp_sockets (n : net) (l : list EventInfo) (SourcePort DestinationPort : Z) (SourceIP DestinationIP : InternetProtocol4)
    (GoodSocket : option nat) : res (net + option nat) :=
  match l with
  | [] => Ok (inr GoodSocket)
  | var :: l =>
      let* i := nonnull (UDPSocket var) in
      let* s := aget (sockets n) i in
      if bool_decide (LocalPort s = DestinationPort) && IP_eq (LocalIP s) DestinationIP && Listening s then
        let* n := set_socket i (fun s => mk_Socket (LocalIP s) (LocalPort s) SourceIP (b16 SourcePort) false (EventHandler s)) n in
        Ok (inl n)
      else udp_sockets n l SourcePort DestinationPort SourceIP DestinationIP (Some i)
  end.

Definition UDP_OnIPv4PacketReceived (n : net) (SourceIP DestinationIP : InternetProtocol4) (Data : list Z) (Length : Z)
    : res (net * bool) :=
  if decide (Length < sizeof_UDPHeader) then Ok (n, false)
  else
    let* sp := load 2 Data off_SourcePort in
    let* dp := load 2 Data off_DestinationPort in
    let* l := Vector.elements (UDPEvents n) in
    let* r := udp_sockets n l sp dp SourceIP DestinationIP None in
    match r with
    | inl n => Ok (n, true)
    | inr None => Ok (n, false)
    | inr (Some i) =>
        let* s := aget (sockets n) i in
        match EventHandler s with
        | NullObject => Err NullDeref
        | DHCPObject => let* n := DHCP_OnUDPPacketReceived n (drop 8 Data) in Ok (n, false)
        | _ => Ok (n, false)
        end
    end.

Definition ip_GetProtocol (o : object) : Z := match o with UDPObject => PROTOCOL_UDP | _ => 0 end.

(** The loop over the protocols. *)
Fixpoint ip_events (n : net) (l : list object) (protocol : Z) (src dst : InternetProtocol4) (Data : list Z) (Length : Z)
    (Reply : bool) : res (net * bool) :=
  match l with
  | [] => Ok (n, Reply)
  | Event :: l =>
      if decide (protocol = ip_GetProtocol Event) then
        let* '(n, r) := match Event with
                        | UDPObject => UDP_OnIPv4PacketReceived n src dst Data Length
                        | _ => Ok (n, false)
                        end in
        ip_events n l protocol src dst Data Length (Reply || r)
      else ip_events n l protocol src dst Data Length Reply
  end.

Definition IPv4_OnEthernetPacketReceived (n : net) (Data : list Z) (Length : Z) : res (net * list Z * bool) :=
  if decide (Length < sizeof_IPv4Header) then Ok (n, Data, false)
  else
    let ours := IP_ToHex (dev_IP (Interface n)) in
    let* dst := load 4 Data off_DestinationIP in
    let* total := load 2 Data off_TotalLength in
    let* '(n, Reply) :=
      if decide (dst = ours \/ dst = 0xFFFFFFFF \/ ours = 0) then
        let TotalLength := if decide (Length < total) then Length else total in
        let* b := aget Data off_IHL_Version in
        let IHL := Z.land b 15 in
        let* protocol := aget Data off_Protocol in
        let* src := load 4 Data off_SourceIP in
        let* l := Vector.elements (IPv4Events n) in
        ip_events n l protocol (IP_FromHex (b32 src)) (IP_FromHex (b32 dst)) (drop (Z.to_nat (4 * IHL)) Data)
          (u64 (TotalLength - 4 * IHL)) false
      else Ok (n, false) in
    if (Reply : bool) then
      let* src := load 4 Data off_SourceIP in
      let* d := store 4 Data off_DestinationIP src in
      let* d := store 4 d off_SourceIP dst in
      let* d := store 1 d off_TimeToLive 0x40 in
      let* d := store 2 d off_HeaderChecksum 0 in
      let* c := CalculateChecksum d (4 * total) in
      let* d := store 2 d off_HeaderChecksum c in
      let* n := Interface_Send n d Length in
      Ok (n, d, true)
    else Ok (n, Data, false).

Definition ARP_OnEthernetPacketReceived (n : net) (Data : list Z) (Length : Z) : res (net * list Z * bool) :=
  let* sip := load 4 Data off_SenderIP in
  let* hw := load 2 Data off_HardwareType in
  let* pr := load 2 Data off_ProtocolType in
  if decide (b16 hw <> HTYPE_ETHERNET \/ b16 pr <> TYPE_IPV4) then Ok (n, Data, false)
  else
    let* smac := load 6 Data off_SenderMAC in
    let* '(_, known) := ManageDA n DA_SEARCH (IP_FromHex sip) (MAC_FromHex smac) in
    let* '(n, _) :=
      match known with
      | None => ManageDA n DA_ADD (IP_FromHex sip) (MAC_FromHex smac)
      | Some _ => ManageDA n DA_UPDATE (IP_FromHex sip) (MAC_FromHex smac)
      end in
    let* op := load 2 Data off_Operation in
    if decide (b16 op = REQUEST) then
      let* d := store 6 Data off_TargetMAC smac in
      let* d := store 4 d off_TargetIP sip in
      let* d := store 6 d off_SenderMAC (b48 (MAC_ToHex (dev_MAC (Interface n)))) in
      let* d := store 4 d off_SenderIP (b32 (IP_ToHex (dev_IP (Interface n)))) in
      let* d := store 2 d off_Operation (b16 REPLY) in
      let* tmac := load 6 d off_TargetMAC in
      let* n := Ethernet_Send n (MAC_FromHex tmac) TYPE_ARP d sizeof_ARPHeader in
      Ok (n, d, false)
    else Ok (n, Data, false).

(** [OnEthernetPacketReceived] of an object. *)
Definition on_packet (o : object) (n : net) (Data : list Z) (Length : Z) : res (net * list Z * bool) :=
  match o with
  | ARPObject => ARP_OnEthernetPacketReceived n Data Length
  | IPv4Object => IPv4_OnEthernetPacketReceived n Data Length
  | NullObject => Err NullDeref
  | _ => Ok (n, Data, false)
  end.

(** The loop over the objects that are registered for a type. *)
Fixpoint ethernet_events (n : net) (l : list EthernetEventHelperStruct) (Type_ : Z) (Data : list Z) (Length : Z) (Reply : bool)
    : res (net * list Z * bool) :=
  match l with
  | [] => Ok (n, Data, Reply)
  | var :: l =>
      if decide (ee_Type var = Type_) then
        let* '(n, Data, r) := on_packet (ee_Ptr var) n Data Length in
        ethernet_events n l Type_ Data Length r
      else ethernet_events n l Type_ Data Length Reply
  end.

Definition Ethernet_Receive (n : net) (Data : list Z) (Length : Z) : res (net * list Z) :=
  let* smac := load 6 Data off_SourceMAC in
  let* dmac := load 6 Data off_DestinationMAC in
  if bool_decide (b48 dmac = BROADCAST) || MAC_eq_hex (dev_MAC (Interface n)) (b48 dmac) then
    let* ty := load 2 Data off_Type in
    let* l := Vector.elements (EthernetEvents n) in
    let* '(n, body, Reply) :=
      if decide (b16 ty = TYPE_IPV4 \/ b16 ty = TYPE_ARP \/ b16 ty = TYPE_RARP \/ b16 ty = TYPE_IPV6) then
        ethernet_events n l (b16 ty) (drop 14 Data) Length false
      else Ok (n, drop 14 Data, false) in
    let Data := take 14 Data ++ body in
    if (Reply : bool) then
      let* smac := load 6 Data off_SourceMAC in
      let* d := store 6 Data off_DestinationMAC smac in
      let* d := store 6 d off_SourceMAC (b48 (MAC_ToHex (dev_MAC (Interface n)))) in
      Ok (n, d)
    else Ok (n, Data)
  else Ok (n, Data).

(** [NetworkInterface::Receive]: a frame from the card. *)
Fixpoint interface_events (n : net) (l : list object) (Data : list Z) (Length : Z) : res net :=
  match l with
  | [] => Ok n
  | EthernetObject :: l => let* '(n, Data) := Ethernet_Receive n Data Length in interface_events n l Data Length
  | NullObject :: _ => Err NullDeref
  | _ :: l => interface_events n l Data Length
  end.

Definition NetworkInterface_Receive (n : net) (Data : list Z) (Length : Z) : res net :=
  let* l := Vector.elements (InterfaceEvents n) in
  interface_events n l Data Length.
End waiting.

(** ** Interrupts and threads *)

(** In the handler of the card's interrupt nothing else arrives. *)
Definition in_interrupt (n : net) : res net := Ok n.

(** While a thread sleeps, the frames of the next batch arrive. *)
Fixpoint deliver (n : net) (l : list (list Z)) : res net :=
  match l with
  | [] => Ok n
  | f :: l => let* n := NetworkInterface_Receive in_interrupt n f (Z.of_nat (length f)) in deliver n l
  end.

Definition sleep (n : net) : res net :=
  match arrivals n with
  | [] => Ok n
  | l :: rest => deliver (set_arrivals rest n) l
  end.

(** ** Start *)

Definition zero_IP : InternetProtocol4 := mk_IP 0 0 0 0.

(** Before the stack is started. *)
Definition net_new (dev : DeviceInterface) (p : PageFrameAllocator) (l : list (list (list Z))) : net :=
  mk_net dev Vector_new Vector_new Vector_new Vector_new Vector_new (da_IP InvalidRet) (da_IP InvalidRet) [] 0x200
    (mk_DHCP None false zero_IP zero_IP zero_IP zero_IP) p 0 [] l.

(** The constructors of [Ethernet], [ARP], [IPv4], [UDP] and [DHCP]. *)
Definition Ethernet_new (n : net) : res net :=
  let* v := push_back NullObject (InterfaceEvents n) EthernetObject in Ok (set_InterfaceEvents v n).
Definition EthernetEvents_new (n : net) (o : object) (Type_ : Z) : res net :=
  let* v := push_back (mk_EthernetEvent NullObject 0) (EthernetEvents n) (mk_EthernetEvent o (u16 Type_)) in
  Ok (set_EthernetEvents v n).
Definition ARP_new (n : net) : res net := EthernetEvents_new n ARPObject TYPE_ARP.
Definition IPv4_new (n : net) : res net := EthernetEvents_new n IPv4Object TYPE_IPV4.
Definition UDP_new (n : net) : res net :=
  let* v := push_back NullObject (IPv4Events n) UDPObject in Ok (set_IPv4Events v n).
Definition DHCP_new (n : net) (s : nat) : res net :=
  let* n := set_socket s (fun x => mk_Socket (LocalIP x) (b16 68) (RemoteIP x) (RemotePort x) (Listening x) (EventHandler x)) n in
  Ok (set_dhcp (mk_DHCP (Some s) false zero_IP zero_IP zero_IP zero_IP) n).

(** The objects of [StartNetworkStack], and the rest of it up to its endless
    loop, with the first card as the default device. *)
Definition create_stack (n : net) : res net :=
  let* n := Ethernet_new n in
  let* n := ARP_new n in
  let* n := IPv4_new n in
  let* n := UDP_new n in
  let* '(n, DHCP_Socket) := UDP_Connect n (mk_IP 0xFF 0xFF 0xFF 0xFF) 67 in
  let* n := DHCP_new n DHCP_Socket in
  UDP_Bind n DHCP_Socket DHCPObject.

Definition StartNetworkStack (n : net) : res net :=
  let* n := create_stack n in
  let* n := DHCP_Request sleep n in
  let d := dhcp n in
  let n := set_Interface (mk_dev (dev_MAC (Interface n)) (IP_FromHex (b32 (IP_ToHex (dhcp_IP d))))) n in
  let n := set_route (SubnetworkMask d) (Gateway d) n in
  ARP_Broadcast sleep n (Gateway d).

(** ** Echo *)

Definition ICMPv4_Receive (n : net) (Packet : list Z) : res (net * list Z) :=
  let* ty := aget Packet 0 in
  if decide (ty = 8) then
    let* P := store 1 Packet 0 0 in
    let* P := store 1 P 1 0 in
    let* c := CalculateChecksum P sizeof_ICMPHeader in
    let* P := store 2 P 2 c in
    let* n := Interface_Send n P sizeof_ICMPHeader in
    Ok (n, P)
  else Ok (n, Packet).
End network.
