(* ===== verification/NetworkWire.v ===== *)
(** * Bytes on the wire

    What [Network] writes into packets, as lists of bytes: loads, stores and
    the swapping of bytes, addresses and their numbers, and the checksum
    against its definition as a sum in one's complement. *)

From S2P Require Import Prelude CString Bytes PageFrame PageFrameSpec Vector Network.

Local Open Scope Z_scope.

(** ** Swapping bytes *)

(** Byte [k] of a number. *)
Definition byte (k x : Z) : Z := Z.land (Z.shiftr x (8 * k)) 255.

Lemma byte_mod k x : 0 <= k -> byte k x = x / 2 ^ (8 * k) mod 256.
Proof. intros Hk. unfold byte. rewrite (Z.land_ones _ 8), Z.shiftr_div_pow2 by lia. done. Qed.

Lemma byte_eq x y i j : 0 <= i -> 0 <= j ->
  (forall b, 0 <= b < 8 -> Z.testbit x (8 * i + b) = Z.testbit y (8 * j + b)) -> byte i x = byte j y.
Proof.
  intros Hi Hj Hb. apply Z.bits_inj'. intros b H0. unfold byte. rewrite !Z.land_spec, !Z.shiftr_spec by lia.
  destruct (decide (b < 8)) as [Hlt|Hge].
  - rewrite !(Z.add_comm b), (Hb b) by lia. done.
  - assert (Z.testbit 255 b = false) as ->; [|by rewrite !andb_false_r].
    change 255 with (Z.ones 8). apply Z.ones_spec_high. lia.
Qed.

(** Evaluates the positions of bits, and bits of constants. *)
Ltac norm_bits :=
  repeat match goal with
    | |- context [Z.testbit (Zpos ?p) ?n] =>
        let b := eval vm_compute in (Z.testbit (Zpos p) n) in change (Z.testbit (Zpos p) n) with b
    | |- context [Z.testbit ?t (Zneg ?p)] => change (Z.testbit t (Zneg p)) with false
    | |- context [Z.testbit ?t ?n] =>
        let n' := eval vm_compute in n in progress change (Z.testbit t n) with (Z.testbit t n')
    end.

(** Compares two bytes bit by bit. *)
Ltac bitwise :=
  apply byte_eq; [lia..|]; intros b Hb;
  assert (b = 0 \/ b = 1 \/ b = 2 \/ b = 3 \/ b = 4 \/ b = 5 \/ b = 6 \/ b = 7) as [->|[->|[->|[->|[->|[->|[->| ->]]]]]]] by lia;
  unfold b16, b32, b48;
  repeat (norm_bits; first [rewrite Z.lor_spec | rewrite Z.land_spec | rewrite Z.shiftl_spec by lia | rewrite Z.shiftr_spec by lia]);
  norm_bits; rewrite ?andb_true_r, ?andb_false_r, ?orb_false_r, ?orb_false_l; reflexivity.

Lemma byte_0 x : byte 0 x = x mod 256.
Proof. rewrite byte_mod by lia. by rewrite Z.div_1_r. Qed.

Lemma byte_shift k x : 0 <= k -> byte k (x / 256) = byte (k + 1) x.
Proof.
  intros Hk. rewrite !byte_mod by lia. rewrite Z.div_div by (try apply Z.pow_pos_nonneg; lia). do 2 f_equal.
  change 256 with (2 ^ 8). rewrite <- Z.pow_add_r by lia. f_equal. lia.
Qed.

Lemma le_byte x :
  le 2 x = [byte 0 x; byte 1 x] /\ le 4 x = [byte 0 x; byte 1 x; byte 2 x; byte 3 x] /\
  le 6 x = [byte 0 x; byte 1 x; byte 2 x; byte 3 x; byte 4 x; byte 5 x].
Proof. cbn [le]. rewrite <- !byte_0, !byte_shift by lia. done. Qed.

Lemma le_b16 x : le 2 (b16 x) = be 2 x.
Proof. unfold be. rewrite !(proj1 (le_byte _)). cbn [rev app]. repeat (apply (f_equal2 cons); [bitwise|]). done. Qed.

Lemma le_b32 x : le 4 (b32 x) = be 4 x.
Proof. unfold be. rewrite !(proj1 (proj2 (le_byte _))). cbn [rev app]. repeat (apply (f_equal2 cons); [bitwise|]). done. Qed.

Lemma le_b48 x : le 6 (b48 x) = be 6 x.
Proof. unfold be. rewrite !(proj2 (proj2 (le_byte _))). cbn [rev app]. repeat (apply (f_equal2 cons); [bitwise|]). done. Qed.

(** ** Addresses *)

Definition mac_bytes (a : MediaAccessControl) : list Z := [mac0 a; mac1 a; mac2 a; mac3 a; mac4 a; mac5 a].
Definition ip_bytes (a : InternetProtocol4) : list Z := [ip0 a; ip1 a; ip2 a; ip3 a].
Definition mac_ok (a : MediaAccessControl) : Prop := bytes_ok (mac_bytes a).
Definition ip_ok (a : InternetProtocol4) : Prop := bytes_ok (ip_bytes a).

Lemma lor_byte y b s s' : s' = s + 8 -> 0 <= s -> 0 <= b < 256 ->
  Z.lor (Z.shiftl y s') (Z.shiftl b s) = Z.shiftl (256 * y + b) s.
Proof.
  intros -> Hs Hb. rewrite !Z.shiftl_mul_pow2 by lia. rewrite Z.pow_add_r by lia.
  replace (y * (2 ^ s * 2 ^ 8)) with ((256 * y) * 2 ^ s) by lia. pose proof (Z.pow_pos_nonneg 2 s ltac:(lia) Hs).
  rewrite <- !Z.shiftl_mul_pow2 by lia. rewrite <- Z.shiftl_lor. f_equal.
  replace (256 * y) with (y * 2 ^ 8) by lia. apply lor_add_r; lia.
Qed.

Lemma MAC_ToHex_value a : mac_ok a -> MAC_ToHex a = le_value (rev (mac_bytes a)).
Proof.
  intros Ha. repeat (apply Forall_cons in Ha as [? Ha]). unfold MAC_ToHex.
  rewrite (lor_byte _ _ 32 40), (lor_byte _ _ 24 32), (lor_byte _ _ 16 24), (lor_byte _ _ 8 16) by lia.
  rewrite <- (Z.shiftl_0_r (mac5 a)) at 1. rewrite (lor_byte _ _ 0 8), Z.shiftl_0_r by lia. cbn [mac_bytes rev app le_value foldr]. lia.
Qed.

Lemma IP_ToHex_value a : ip_ok a -> IP_ToHex a = le_value (rev (ip_bytes a)).
Proof.
  intros Ha. pose proof (le_value_range (rev (ip_bytes a)) (List.Forall_rev Ha)) as Hr.
  repeat (apply Forall_cons in Ha as [? Ha]). unfold IP_ToHex.
  rewrite (lor_byte _ _ 16 24), (lor_byte _ _ 8 16) by lia.
  rewrite <- (Z.shiftl_0_r (ip3 a)) at 1. rewrite (lor_byte _ _ 0 8), Z.shiftl_0_r by lia.
  cbn [ip_bytes rev app le_value foldr] in *. cbn in Hr. rewrite wrapu_small by lia. lia.
Qed.

Lemma byte_u8 k x : u8 (Z.land (Z.shiftr x (8 * k)) 0xFF) = byte k x.
Proof. unfold byte. apply wrapu_small. change 255 with (Z.ones 8). rewrite Z.land_ones by lia. apply Z.mod_pos_bound. lia. Qed.

Lemma mac_bytes_FromHex x : mac_bytes (MAC_FromHex x) = be 6 x.
Proof.
  unfold be. rewrite (proj2 (proj2 (le_byte x))). unfold MAC_FromHex. cbn [mac_bytes mac0 mac1 mac2 mac3 mac4 mac5 rev app].
  rewrite <- !byte_u8. change (8 * 0) with 0. by rewrite Z.shiftr_0_r.
Qed.

Lemma ip_bytes_FromHex x : ip_bytes (IP_FromHex x) = be 4 x.
Proof.
  unfold be. rewrite (proj1 (proj2 (le_byte x))). unfold IP_FromHex. cbn [ip_bytes ip0 ip1 ip2 ip3 rev app].
  rewrite <- !byte_u8. change (8 * 0) with 0. by rewrite Z.shiftr_0_r.
Qed.

Lemma mac_ok_FromHex x : mac_ok (MAC_FromHex x).
Proof. unfold mac_ok. rewrite mac_bytes_FromHex. apply be_bytes. Qed.

Lemma ip_ok_FromHex x : ip_ok (IP_FromHex x).
Proof. unfold ip_ok. rewrite ip_bytes_FromHex. apply be_bytes. Qed.

Lemma mac_bytes_inj a b : mac_bytes a = mac_bytes b -> a = b.
Proof. destruct a, b. unfold mac_bytes. simpl. congruence. Qed.

Lemma ip_bytes_inj a b : ip_bytes a = ip_bytes b -> a = b.
Proof. destruct a, b. unfold ip_bytes. simpl. congruence. Qed.

Lemma be_MAC a : mac_ok a -> be 6 (MAC_ToHex a) = mac_bytes a.
Proof.
  intros Ha. unfold be. rewrite MAC_ToHex_value, (le_le_value _ 6) by (done || by apply List.Forall_rev). apply rev_involutive.
Qed.

Lemma be_IP a : ip_ok a -> be 4 (IP_ToHex a) = ip_bytes a.
Proof.
  intros Ha. unfold be. rewrite IP_ToHex_value, (le_le_value _ 4) by (done || by apply List.Forall_rev). apply rev_involutive.
Qed.

Lemma MAC_FromHex_ToHex a : mac_ok a -> MAC_FromHex (MAC_ToHex a) = a.
Proof. intros Ha. apply mac_bytes_inj. by rewrite mac_bytes_FromHex, be_MAC. Qed.

Lemma IP_FromHex_ToHex a : ip_ok a -> IP_FromHex (IP_ToHex a) = a.
Proof. intros Ha. apply ip_bytes_inj. by rewrite ip_bytes_FromHex, be_IP. Qed.

Lemma le_value_rev_be n x : le_value (rev (be n x)) = x mod 256 ^ Z.of_nat n.
Proof. unfold be. by rewrite rev_involutive, le_value_le. Qed.

Lemma MAC_ToHex_FromHex x : 0 <= x < 2 ^ 48 -> MAC_ToHex (MAC_FromHex x) = x.
Proof.
  intros Hx. rewrite MAC_ToHex_value by apply mac_ok_FromHex. rewrite mac_bytes_FromHex, le_value_rev_be. by apply Z.mod_small.
Qed.

Lemma IP_ToHex_FromHex x : 0 <= x < 2 ^ 32 -> IP_ToHex (IP_FromHex x) = x.
Proof.
  intros Hx. rewrite IP_ToHex_value by apply ip_ok_FromHex. rewrite ip_bytes_FromHex, le_value_rev_be. by apply Z.mod_small.
Qed.

Lemma MAC_eq_spec a b : MAC_eq a b = bool_decide (b = a).
Proof.
  apply eq_true_iff_eq. unfold MAC_eq. rewrite !andb_true_iff, !bool_decide_eq_true. destruct a, b. simpl. split; [intros [[[[[]]]]]|]; naive_solver.
Qed.

Lemma IP_eq_spec a b : IP_eq a b = bool_decide (b = a).
Proof.
  apply eq_true_iff_eq. unfold IP_eq. rewrite !andb_true_iff, !bool_decide_eq_true. destruct a, b. simpl. split; [intros [[[]]]|]; naive_solver.
Qed.

(** An address as it stands on the wire, read by the code. *)
Lemma MAC_FromHex_wire l : bytes_ok l -> length l = 6%nat -> mac_bytes (MAC_FromHex (le_value l)) = rev l.
Proof. intros Hl Hn. rewrite mac_bytes_FromHex. unfold be. by rewrite (le_le_value l 6). Qed.

Lemma IP_FromHex_wire l : bytes_ok l -> length l = 4%nat -> ip_bytes (IP_FromHex (le_value l)) = rev l.
Proof. intros Hl Hn. rewrite ip_bytes_FromHex. unfold be. by rewrite (le_le_value l 4). Qed.

(** A number without bits from [n] on. *)
Lemma bits_range x n : 0 <= n -> (forall i, n <= i -> Z.testbit x i = false) -> 0 <= x < 2 ^ n.
Proof.
  intros Hn Hb. assert (x mod 2 ^ n = x) as <-; [|apply Z.mod_pos_bound, Z.pow_pos_nonneg; lia].
  apply Z.bits_inj'. intros i Hi. destruct (decide (i < n)); [by rewrite Z.mod_pow2_bits_low by lia|].
  by rewrite Z.mod_pow2_bits_high, Hb by lia.
Qed.

(** Constants have no bits above their highest one. *)
Ltac high_bits :=
  repeat match goal with
    | |- context [Z.testbit (Zpos ?p) ?j] =>
        let l := eval vm_compute in (Z.log2 (Zpos p)) in
        rewrite (Z.bits_above_log2 (Zpos p) j); [|lia|change (Z.log2 (Zpos p)) with l; lia]
    end.

Lemma b48_range x : 0 <= b48 x < 2 ^ 48.
Proof.
  apply bits_range; [lia|]. intros i Hi. unfold b48. rewrite !Z.lor_spec.
  rewrite !Z.shiftl_spec, !Z.shiftr_spec, !Z.land_spec by lia.
  high_bits. by rewrite !andb_false_r.
Qed.

Lemma b32_range x : 0 <= b32 x < 2 ^ 32.
Proof.
  apply bits_range; [lia|]. intros i Hi. unfold b32. rewrite !Z.lor_spec, !Z.land_spec, !Z.shiftl_spec, !Z.land_spec by lia.
  high_bits. by rewrite !andb_false_r.
Qed.

Lemma b16_range x : 0 <= b16 x < 2 ^ 16.
Proof.
  apply bits_range; [lia|]. intros i Hi. unfold b16. rewrite !Z.lor_spec, !Z.land_spec, !Z.shiftl_spec, !Z.land_spec by lia.
  high_bits. by rewrite !andb_false_r.
Qed.

(** Reading a number in network byte order. *)
Lemma swap_wire n swap l : (forall x, le n (swap x) = be n x) -> (forall x, 0 <= swap x < 256 ^ Z.of_nat n) ->
  bytes_ok l -> length l = n -> swap (le_value l) = le_value (rev l).
Proof.
  intros Hs Hr Hl Hn. rewrite <- (Z.mod_small (swap _) _ (Hr _)), <- le_value_le, Hs. unfold be. by rewrite (le_le_value l n).
Qed.

Definition b16_wire l := swap_wire 2 b16 l le_b16 b16_range.
Definition b32_wire l := swap_wire 4 b32 l le_b32 b32_range.
Definition b48_wire l := swap_wire 6 b48 l le_b48 b48_range.

(** ** The checksum *)

(** The sum of the 16-bit words of some bytes, a last odd one padded. *)
Fixpoint words_sum (l : list Z) : Z :=
  match l with
  | a :: b :: l => 256 * a + b + words_sum l
  | [a] => 256 * a
  | [] => 0
  end.

(** A sum in one's complement: modulo 65535, and 0 only for 0. *)
Definition fold16 (s : Z) : Z := if decide (s = 0) then 0 else (s - 1) mod 65535 + 1.

Definition inet_checksum (l : list Z) : Z := 65535 - fold16 (words_sum l).

(** What reading the last byte of an odd number as a signed one adds. *)
Definition sign_error (l : list Z) : Z :=
  if decide (Nat.odd (length l) = true /\ 128 <= List.last l 0) then 0xFF0000 else 0.

Lemma fold16_range s : 0 <= s -> 0 <= fold16 s < 2 ^ 16.
Proof. intros Hs. unfold fold16. case_decide; [lia|]. pose proof (Z.mod_pos_bound (s - 1) 65535). lia. Qed.

Lemma fold16_small s : 0 <= s < 2 ^ 16 -> fold16 s = s.
Proof. intros Hs. unfold fold16. case_decide; [done|]. rewrite Z.mod_small; lia. Qed.

Lemma fold16_step s : 0 <= s -> fold16 (s mod 2 ^ 16 + s / 2 ^ 16) = fold16 s.
Proof.
  intros Hs. pose proof (Z.div_mod s (2 ^ 16) ltac:(lia)) as E. pose proof (Z.mod_pos_bound s (2 ^ 16) ltac:(lia)).
  pose proof (Z.div_pos s (2 ^ 16) Hs ltac:(lia)). unfold fold16.
  destruct (decide (s = 0)) as [->|Hn]; [done|]. rewrite decide_False by lia. f_equal.
  replace (s - 1) with (s mod 2 ^ 16 + s / 2 ^ 16 - 1 + (s / 2 ^ 16) * 65535) by lia. by rewrite Z.mod_add.
Qed.

Lemma words_sum_range l : bytes_ok l -> 0 <= words_sum l <= 65535 * Z.of_nat (length l).
Proof.
  enough (forall n l, (length l <= n)%nat -> bytes_ok l -> 0 <= words_sum l <= 65535 * Z.of_nat (length l)) as Hg.
  { intros Hl. by apply (Hg (length l)). }
  clear l. induction n as [|n IH]; intros l Hn Hl; [destruct l; simpl in *; lia|].
  destruct l as [|a [|b l]]; [simpl; lia| |]; apply Forall_cons in Hl as [Ha Hl]; [simpl; lia|].
  apply Forall_cons in Hl as [Hb Hl]. simpl in Hn. pose proof (IH l ltac:(lia) Hl). cbn [words_sum length]. lia.
Qed.

Lemma words_sum_app l k : Nat.even (length l) = true -> words_sum (l ++ k) = words_sum l + words_sum k.
Proof.
  enough (forall n l, (length l <= n)%nat -> Nat.even (length l) = true -> words_sum (l ++ k) = words_sum l + words_sum k) as Hg.
  { intros Hl. by apply (Hg (length l)). }
  clear l. induction n as [|n IH]; intros l Hn Hl; [destruct l; simpl in *; [done|lia]|].
  destruct l as [|a [|b l]]; [done|done|]. simpl in Hn, Hl. cbn [app words_sum]. rewrite IH by (done || lia). lia.
Qed.

Lemma swap_word x y : 0 <= x < 256 -> 0 <= y < 256 ->
  let w := x + 256 * (y + 256 * 0) in
  Z.lor (Z.shiftr (Z.land w 0xFF00) 8) (Z.shiftl (Z.land w 0x00FF) 8) = 256 * x + y.
Proof.
  intros Hx Hy w. assert (Z.lor (Z.shiftr (Z.land w 0xFF00) 8) (Z.shiftl (Z.land w 0x00FF) 8) = b16 w) as ->.
  { unfold b16. rewrite Z.lor_comm. f_equal. rewrite Z.shiftr_land. done. }
  change w with (le_value [x; y]). rewrite b16_wire by (done || bytes). cbn [rev app le_value foldr]. lia.
Qed.

Lemma checksum_words_ok k : forall pre l suf C, length pre = (2 * k)%nat -> Nat.even (length l) = true -> bytes_ok l ->
  0 <= C -> C + words_sum l < 2 ^ 64 -> checksum_words (pre ++ l ++ suf) C k (Nat.div2 (length l)) = Ok (C + words_sum l).
Proof.
  intros pre l. revert k pre.
  enough (forall n l k pre suf C, (length l <= n)%nat -> length pre = (2 * k)%nat -> Nat.even (length l) = true -> bytes_ok l ->
    0 <= C -> C + words_sum l < 2 ^ 64 -> checksum_words (pre ++ l ++ suf) C k (Nat.div2 (length l)) = Ok (C + words_sum l)) as Hg.
  { intros. by eapply (Hg (length l)). }
  clear l. induction n as [|n IH]; intros l k pre suf C Hn Hp Hev Hl H0 HC; [destruct l; simpl in *; [by rewrite Z.add_0_r|lia]|].
  destruct l as [|x [|y l]]; [by rewrite Z.add_0_r|done|]. cbn [length Nat.div2 checksum_words].
  apply Forall_cons in Hl as [Hx Hl]. apply Forall_cons in Hl as [Hy Hl]. cbn [words_sum] in *. pose proof (words_sum_range l Hl).
  rewrite wire_load_ok by (rewrite !length_app; simpl; lia). rewrite drop_app_length' by done. cbn [app take le_value foldr bind].
  rewrite swap_word by done. rewrite wrapu_small by lia.
  replace (pre ++ x :: y :: l ++ suf) with ((pre ++ [x; y]) ++ l ++ suf) by (by rewrite <- app_assoc).
  simpl in Hn, Hev. rewrite (IH l) by (try done; try lia; rewrite ?length_app; simpl; lia). f_equal. lia.
Qed.

Lemma high_word C : 0 <= C < 2 ^ 32 -> Z.land C 0xFFFF0000 <> 0 <-> 2 ^ 16 <= C.
Proof.
  intros HC. assert (Z.land C 0xFFFF0000 = (C / 2 ^ 16) * 2 ^ 16) as ->.
  { change 0xFFFF0000 with (Z.shiftl (Z.ones 16) 16). rewrite <- Z.shiftr_div_pow2, <- Z.shiftl_mul_pow2 by lia.
    rewrite <- (Z.mod_small (Z.shiftr C 16) (2 ^ 16)).
    - rewrite <- Z.land_ones by lia. rewrite Z.shiftl_land. apply Z.bits_inj'. intros i Hi. rewrite !Z.land_spec.
      destruct (decide (i < 16)).
      + rewrite !(Z.shiftl_spec _ 16 i), !(Z.testbit_neg_r _ (i - 16)) by lia. by rewrite !andb_false_r.
      + rewrite (Z.shiftl_spec (Z.shiftr C 16)), Z.shiftr_spec by lia. by rewrite Z.sub_add.
    - rewrite Z.shiftr_div_pow2 by lia. split; [apply Z.div_pos; lia|]. apply Z.div_lt_upper_bound; lia. }
  split; intros ?; [|pose proof (Z.div_le_lower_bound C (2 ^ 16) 1); lia].
  destruct (decide (2 ^ 16 <= C)); [done|]. rewrite Z.div_small in *; lia.
Qed.

Lemma checksum_fold_ok fuel : forall C, 0 <= C < 2 ^ 32 -> (C < 2 ^ 16 /\ (1 <= fuel)%nat) \/ (C <= 2 ^ 16 /\ (2 <= fuel)%nat) \/ (C < 2 ^ 17 /\ (3 <= fuel)%nat) \/ (4 <= fuel)%nat ->
  checksum_fold C fuel = Ok (fold16 C).
Proof.
  induction fuel as [|f IH]; intros C HC Hf; [lia|]. cbn [checksum_fold]. case_decide as D.
  - apply (high_word C HC) in D. change 0xFFFF with (Z.ones 16). rewrite Z.land_ones, Z.shiftr_div_pow2 by lia.
    pose proof (Z.div_mod C (2 ^ 16) ltac:(lia)) as E. pose proof (Z.mod_pos_bound C (2 ^ 16) ltac:(lia)) as Hm.
    assert (1 <= C / 2 ^ 16) by (apply Z.div_le_lower_bound; lia). assert (C / 2 ^ 16 < 2 ^ 16) by (apply Z.div_lt_upper_bound; lia).
    rewrite wrapu_small by lia. by rewrite IH, fold16_step by lia.
  - assert (C < 2 ^ 16) as Hlt.
    { destruct (decide (C < 2 ^ 16)); [done|]. exfalso. assert (Z.land C 0xFFFF0000 <> 0) by (apply high_word; lia). tauto. }
    by rewrite fold16_small by lia.
Qed.

Lemma checksum_invert c : 0 <= c < 2 ^ 16 ->
  let inv := Z.lnot c in
  u16 (Z.lor (Z.shiftr (Z.land inv 0xFF00) 8) (Z.shiftl (Z.land inv 0x00FF) 8)) = b16 (65535 - c).
Proof.
  intros Hc inv. assert (Z.lor (Z.shiftr (Z.land inv 0xFF00) 8) (Z.shiftl (Z.land inv 0x00FF) 8) = b16 inv) as ->.
  { unfold b16. rewrite Z.lor_comm. f_equal. rewrite Z.shiftr_land. done. }
  rewrite wrapu_small by apply b16_range. rewrite <- (Z.mod_small (b16 inv) (256 ^ Z.of_nat 2)) by apply b16_range.
  rewrite <- (Z.mod_small (b16 (65535 - c)) (256 ^ Z.of_nat 2)) by apply b16_range.
  rewrite <- !le_value_le, !le_b16. f_equal. unfold be. f_equal.
  replace inv with (65535 - c + (-1) * 65536) by (unfold inv, Z.lnot; lia). cbn [le]. f_equal; [|f_equal].
  - replace (65535 - c + -1 * 65536) with (65535 - c + (-256) * 256) by lia. by rewrite Z.mod_add.
  - replace (65535 - c + -1 * 65536) with (65535 - c + (-256) * 256) by lia. rewrite Z.div_add by lia.
    replace (-256) with ((-1) * 256) by lia. by rewrite Z.mod_add.
Qed.

Lemma to_nat_half n : Z.to_nat (Z.of_nat n / 2) = Nat.div2 n.
Proof. rewrite Nat.div2_div. change 2 with (Z.of_nat 2). by rewrite <- Nat2Z.inj_div, Nat2Z.id. Qed.

(** The checksum that the code computes, for all data that a packet holds. *)
Lemma CalculateChecksum_ok l suf : bytes_ok l -> Z.of_nat (length l) < 2 ^ 16 - 2 ^ 8 ->
  CalculateChecksum (l ++ suf) (Z.of_nat (length l)) = Ok (b16 (65535 - fold16 (words_sum l + sign_error l))).
Proof.
  intros Hl Hn. pose proof (words_sum_range l Hl) as Hs. unfold CalculateChecksum. rewrite to_nat_half.
  enough (exists C, checksum_words (l ++ suf) 0 0 (Nat.div2 (length l)) = Ok C /\
    (if decide (Z.of_nat (length l) mod 2 <> 0) then
       let* c := aget (l ++ suf) (Z.to_nat (Z.of_nat (length l) - 1)) in Ok (u64 (C + Z.shiftl (u16 (schar c)) 8))
     else Ok C) = Ok (words_sum l + sign_error l)) as (C & -> & E).
  { cbn [bind]. rewrite E. cbn [bind]. assert (0 <= sign_error l <= 0xFF0000) by (clear; unfold sign_error; case_decide; lia).
    rewrite checksum_fold_ok by lia. cbn [bind]. f_equal. apply checksum_invert, fold16_range. lia. }
  destruct (Nat.even (length l)) eqn:Hev.
  - exists (0 + words_sum l). split; [apply (checksum_words_ok 0 [] l suf 0); (done || lia)|].
    assert (Z.of_nat (length l) mod 2 = 0) as ->.
    { apply Nat.even_spec in Hev as [k ->]. rewrite Nat2Z.inj_mul, Z.mul_comm. apply Z.mod_mul. lia. }
    rewrite decide_False by tauto. unfold sign_error. rewrite <- Nat.negb_even, Hev.
    rewrite decide_False by (intros [[=] _]). f_equal. lia.
  - destruct l as [|c l0 _] using rev_ind; [done|]. apply Forall_app in Hl as [Hl0 Hc]. apply Forall_cons in Hc as [Hc _].
    rewrite length_app, Nat.add_1_r in *. rewrite Nat.even_succ, <- Nat.negb_even in Hev. apply negb_false_iff in Hev.
    exists (0 + words_sum l0). split.
    + assert (Nat.div2 (S (length l0)) = Nat.div2 (length l0)) as ->.
      { pose proof (Nat.Even_div2 _ (proj1 (Nat.even_spec _) Hev)). congruence. }
      rewrite <- app_assoc. rewrite words_sum_app in Hs by done. cbn [words_sum] in Hs.
      apply (checksum_words_ok 0 [] l0 ([c] ++ suf) 0); (done || lia).
    + assert (Z.of_nat (S (length l0)) mod 2 = 1) as ->.
      { apply Nat.even_spec in Hev as [k ->]. rewrite Nat2Z.inj_succ, Nat2Z.inj_mul. unfold Z.succ. rewrite Z.add_comm, Z.mul_comm, Z.mod_add; done. }
      rewrite decide_True by done. replace (Z.to_nat (Z.of_nat (S (length l0)) - 1)) with (length l0) by lia.
      rewrite <- app_assoc. cbn [app]. rewrite aget_app_r by done. cbn [bind]. rewrite words_sum_app in * by done. cbn [words_sum] in *.
      unfold sign_error. rewrite length_app, Nat.add_1_r, Nat.odd_succ, Hev, last_last.
      assert (0 <= Z.shiftl (u16 (schar c)) 8 <= 0xFFFFFF /\ Z.shiftl (u16 (schar c)) 8 = 256 * c + (if decide (true = true /\ 128 <= c) then 0xFF0000 else 0)) as [Hr ->].
      { rewrite Z.shiftl_mul_pow2 by lia. unfold schar. destruct (decide (c < 128)).
        - rewrite wrapu_small, decide_False by lia. lia.
        - rewrite decide_True by (split; [done|lia]). unfold wrapu. replace (c - 256) with (c + 65280 + (-1) * 2 ^ 16) by lia.
          rewrite Z.mod_add, Z.mod_small by lia. lia. }
      case_decide; rewrite wrapu_small by lia; f_equal; lia.
Qed.
