(* ===== verification/NetworkSpec.v ===== *)
(** * What the network stack sends and learns

    The formats of frames, packets and datagrams as lists of bytes, and the
    lemmas that the code of [Network] builds them, keeps the page allocator
    as it was, and keeps the cache of addresses. *)

From S2P Require Import Prelude CString Bytes Vector PageFrame PageFrameSpec Network NetworkWire.

Local Open Scope Z_scope.

(** ** Formats *)

Definition eth_frame (dst src : MediaAccessControl) (ty : Z) (data : list Z) : list Z :=
  mac_bytes dst ++ mac_bytes src ++ be 2 ty ++ data.

Definition arp_packet (op : Z) (smac : MediaAccessControl) (sip : InternetProtocol4) (tmac : MediaAccessControl)
    (tip : InternetProtocol4) : list Z :=
  be 2 1 ++ be 2 0x0800 ++ [6; 4] ++ be 2 op ++ mac_bytes smac ++ ip_bytes sip ++ mac_bytes tmac ++ ip_bytes tip.

Definition ip_header (total protocol : Z) (src dst : InternetProtocol4) (checksum : Z) : list Z :=
  [0x45; 0] ++ be 2 total ++ [0; 0; 0; 0; 64; protocol] ++ be 2 checksum ++ ip_bytes src ++ ip_bytes dst.

Definition ip_packet (protocol : Z) (src dst : InternetProtocol4) (data : list Z) : list Z :=
  let h := ip_header (20 + Z.of_nat (length data)) protocol src dst in h (inet_checksum (h 0)) ++ data.

Definition udp_datagram (sp dp : list Z) (data : list Z) : list Z :=
  sp ++ dp ++ be 2 (8 + Z.of_nat (length data)) ++ [0; 0] ++ data.

Definition bcast_MAC : MediaAccessControl := mk_MAC 0xFF 0xFF 0xFF 0xFF 0xFF 0xFF.
Definition bcast_IP : InternetProtocol4 := mk_IP 0xFF 0xFF 0xFF 0xFF.
Definition rev_MAC (a : MediaAccessControl) : MediaAccessControl := mk_MAC (mac5 a) (mac4 a) (mac3 a) (mac2 a) (mac1 a) (mac0 a).
Definition rev_IP (a : InternetProtocol4) : InternetProtocol4 := mk_IP (ip3 a) (ip2 a) (ip1 a) (ip0 a).

(** ** Pages for sending *)

(** A page at or after the hint is free. *)
Definition mem_ok (p : PageFrameAllocator) : Prop :=
  pfa_ok p /\ sealed p /\ exists k, PageBitmapIndex p <= k /\ free_run p k 1.

Lemma send_pages p : mem_ok p -> exists p1 a p2, RequestPages p 1 = Ok (p1, a) /\ a <> 0 /\ FreePages p1 a 1 = Ok p2 /\
  mem_ok p2 /\ pages p2 = pages p /\ forall i, 0 <= i < pages p -> in_use p2 i = in_use p i.
Proof.
  intros (Hp & Hs & k0 & Hk0 & Hf0). pose proof (po_index _ Hp) as Hx. unfold RequestPages.
  destruct (request_pages_ok 1 (page_fuel p) ltac:(lia) p Hp Hs) as [(k & p1 & Hk & Hkpos & Hf & E & Hm)|(Hno & _)].
  { unfold page_fuel. rewrite (page_limit_ok p Hp). lia. }
  2:{ exfalso. by apply (Hno k0). }
  destruct Hm as [A1 A2 A3 A4 _]. pose proof Hf as (Hf1 & Hf2 & Hf3).
  destruct (FreePage_ok p1 k A1 ltac:(lia)) as (p2 & E2 & [B1 B2 B3 B4 _] & Ei).
  assert (in_use p1 k = true) as Hk1 by (rewrite A4, decide_True by lia; done). rewrite Hk1 in Ei.
  assert (forall i, 0 <= i < pages p -> in_use p2 i = in_use p i) as Hbits.
  { intros i Hi. rewrite B4, A4 by lia. case_decide; [|done]. symmetry. apply Hf3. lia. }
  exists p1, (k * 4096), p2. split_and!; [done|lia| | |congruence|done].
  - unfold FreePages. change (Z.to_nat 1) with 1%nat. cbn [each_page]. rewrite Z.mul_0_l, Z.add_0_r, (page_address p1) by (done || lia).
    by rewrite E2.
  - split_and!; [done| |exists k; split; [lia|]; split_and!; [lia|lia|]; intros j Hj; rewrite Hbits by lia; apply Hf3; lia].
    destruct Hs as (S1 & S2 & S3). unfold sealed. rewrite B2, A2. rewrite !Hbits by lia. done.
Qed.

(** The state after sending some frames. *)
Definition after_send (n : net) (p : PageFrameAllocator) (k : nat) (l : list (list Z)) : net :=
  mk_net (Interface n) (InterfaceEvents n) (EthernetEvents n) (IPv4Events n) (UDPEvents n) (DiscoveredAddresses n)
    (GatewayIP n) (SubnetworkMaskIP n) (sockets n) (UsuablePort n) (dhcp n) p k (frames n ++ l) (arrivals n).

(** The allocator was used and is as it was. *)
Definition same_pages (p p' : PageFrameAllocator) : Prop :=
  mem_ok p' /\ pages p' = pages p /\ forall i, 0 <= i < pages p -> in_use p' i = in_use p i.

Lemma same_pages_trans p1 p2 p3 : same_pages p1 p2 -> same_pages p2 p3 -> same_pages p1 p3.
Proof.
  intros (_ & E1 & H1) (Hm & E2 & H2). split_and!; [done|congruence|]. intros i Hi. rewrite H2, H1 by lia. done.
Qed.

(** [r] is the state after sending [l], and nothing else. *)
Definition sends (n : net) (r : res net) (l : list (list Z)) : Prop :=
  exists p k, same_pages (KernelAllocator n) p /\ r = Ok (after_send n p k l).

(** Names the elements of a list of known length. *)
Ltac open_list l := repeat (destruct l as [|? l]; [discriminate|]); destruct l; [|discriminate].

Section send.
Context `{HL : NetHardwareLaws}.

Lemma NetworkInterface_Send_ok n Data Length : mem_ok (KernelAllocator n) -> 0 <= Length < 4096 -> Length <= Z.of_nat (length Data) ->
  sends n (NetworkInterface_Send n Data Length) [take (Z.to_nat Length) Data].
Proof.
  intros Hm Hlt Hlen. unfold NetworkInterface_Send. rewrite Z.div_small by done. change (0 + 1) with 1.
  destruct (send_pages _ Hm) as (p1 & a & p2 & E1 & Ha & E2 & Hm2 & Hp2 & Hb2). rewrite E1. cbn [bind].
  rewrite decide_False by done. rewrite memcpy_ok by (rewrite ?fresh_size; lia). cbn [bind]. unfold Interface_Send.
  rewrite decide_True by (rewrite length_app, length_take, length_drop, fresh_size; lia). cbn [bind].
  cbn [KernelAllocator transmitted allocated set_KernelAllocator]. rewrite E2. cbn [bind].
  exists p2, (S (allocations n)). split; [done|]. unfold after_send, transmitted, allocated, set_KernelAllocator. simpl.
  rewrite take_app_length' by (rewrite length_take; lia). done.
Qed.

(** Memory of a known size, element by element. *)
Lemma take_elements n (b : list Z) : (n <= length b)%nat -> exists l r, b = l ++ r /\ length l = n.
Proof. intros Hn. exists (take n b), (drop n b). by rewrite take_drop, length_take_le. Qed.

(** Runs stores into memory whose first bytes are listed. *)
Ltac run_stores :=
  repeat (rewrite wire_store_ok by (cbn [length app]; lia); cbn [bind take drop app le Nat.add]); rewrite ?drop_0.

Lemma Ethernet_Send_ok n MAC ty Data Length : mem_ok (KernelAllocator n) -> mac_ok MAC -> mac_ok (dev_MAC (Interface n)) ->
  0 <= Length < 4096 - 14 -> Length <= Z.of_nat (length Data) ->
  sends n (Ethernet_Send n MAC ty Data Length) [eth_frame MAC (dev_MAC (Interface n)) ty (take (Z.to_nat Length) Data)].
Proof.
  intros Hm HM HI Hlt Hlen. unfold Ethernet_Send, kmalloc. change sizeof_EthernetHeader with 14. rewrite wrapu_small by lia.
  pose proof (fresh_size (allocations n) (14 + Length)) as Hfl.
  set (b := fresh (allocations n) (14 + Length)) in *. destruct (take_elements 14 b) as (l & r & Eb & Hl); [lia|]. rewrite Eb in *.
  rewrite length_app in Hfl. clearbody b. clear b Eb.
  assert (length r = Z.to_nat Length) as Hr by lia. clear Hfl. open_list l. cbn [app].
  unfold off_DestinationMAC, off_SourceMAC, off_Type. run_stores.
  rewrite memcpy_to_ok by (cbn [length app]; lia). cbn [bind take drop app Nat.add].
  rewrite drop_ge by (cbn [length Nat.add]; lia). rewrite app_nil_r.
  match goal with |- sends _ (NetworkInterface_Send _ ?x _) _ => set (pk := x) end.
  assert (pk = eth_frame MAC (dev_MAC (Interface n)) ty (take (Z.to_nat Length) Data)) as ->.
  { unfold eth_frame. rewrite <- (be_MAC MAC), <- (be_MAC (dev_MAC _)), <- !le_b48, <- le_b16 by done. reflexivity. }
  destruct (NetworkInterface_Send_ok (allocated n) (eth_frame MAC (dev_MAC (Interface n)) ty (take (Z.to_nat Length) Data)) (14 + Length))
    as (p & k & Hp & E); [done|lia|unfold eth_frame; rewrite !length_app, length_be, length_take; simpl; lia|].
  exists p, k. split; [done|]. rewrite E. f_equal. unfold after_send. simpl. do 2 f_equal.
  rewrite take_ge; [done|]. unfold eth_frame. rewrite !length_app, length_be, length_take. simpl. lia.
Qed.

(** ** Building headers *)

Lemma fill_ARPHeader_ok h hw pr hs ps op smac sip tmac tip : length h = 28%nat ->
  fill_ARPHeader h hw pr hs ps op smac sip tmac tip =
    Ok (le 2 hw ++ le 2 pr ++ le 1 hs ++ le 1 ps ++ le 2 op ++ le 6 smac ++ le 4 sip ++ le 6 tmac ++ le 4 tip).
Proof.
  intros Hl. unfold fill_ARPHeader, off_HardwareType, off_ProtocolType, off_HardwareSize, off_ProtocolSize, off_Operation,
    off_SenderMAC, off_SenderIP, off_TargetMAC, off_TargetIP.
  open_list h. run_stores. reflexivity.
Qed.

Lemma length_ip_header total protocol src dst c : length (ip_header total protocol src dst c) = 20%nat.
Proof. done. Qed.

Lemma ip_header_bytes total protocol src dst c : 0 <= protocol < 256 -> ip_ok src -> ip_ok dst -> bytes_ok (ip_header total protocol src dst c).
Proof.
  intros Hp Hs Hd. unfold ip_header, bytes_ok. rewrite !Forall_app. split_and!; [bytes|apply be_bytes|bytes|apply be_bytes|done|done].
Qed.

Lemma fill_IPv4Header_ok Packet Length Protocol dst src : (20 <= length Packet)%nat -> 0 <= Length < 2 ^ 16 - 20 ->
  0 <= Protocol < 256 -> ip_ok dst -> ip_ok src ->
  fill_IPv4Header Packet Length Protocol dst src =
    let h := ip_header (20 + Length) Protocol src dst in Ok (h (inet_checksum (h 0)) ++ drop 20 Packet).
Proof.
  intros Hn HLen Hp Hd Hs. set (h := ip_header (20 + Length) Protocol src dst). cbv zeta.
  unfold fill_IPv4Header. change sizeof_IPv4Header with 20. rewrite wrapu_small by lia.
  rewrite Z.add_comm. set (t := 20 + Length) in *.
  assert (Z.lor (Z.shiftr (Z.land t 0xFF00) 8) (Z.shiftl (Z.land t 0x00FF) 8) = b16 t) as ->.
  { unfold b16. rewrite Z.lor_comm. f_equal. by rewrite Z.shiftr_land. }
  destruct (take_elements 20 Packet Hn) as (l & r & -> & Hl). rewrite drop_app_length' by done. open_list l. cbn [app].
  unfold off_IHL_Version, off_TypeOfService, off_TotalLength, off_Identification, off_FlagsAndFragmentOffset,
    off_TimeToLive, off_Protocol, off_DestinationIP, off_SourceIP, off_HeaderChecksum.
  run_stores.
  match goal with |- context [CalculateChecksum ?x _] => assert (x = h 0 ++ r) as -> end.
  { unfold h, ip_header. rewrite <- !be_IP, <- !le_b32, <- le_b16 by done. cbn [le]. rewrite (Z.mod_small Protocol) by lia. reflexivity. }
  assert (bytes_ok (h 0)) as Hb by by apply ip_header_bytes.
  change 20 with (Z.of_nat (length (h 0))) at 1. rewrite CalculateChecksum_ok by (done || (rewrite length_ip_header; lia)).
  assert (sign_error (h 0) = 0) as -> by done. rewrite Z.add_0_r. cbn [bind].
  rewrite wire_store_ok by (rewrite length_app; change (length (h 0)) with 20%nat; lia). rewrite le_b16. reflexivity.
Qed.
End send.
