(* ===== verification/NetworkArp.v ===== *)
(** * The cache of addresses

    What [ManageDA] keeps, as a list of pairs, and what receiving ARP frames,
    searching and waiting for an answer do to it. *)

From S2P Require Import Prelude CString Bytes Vector PageFrame PageFrameSpec Network NetworkWire NetworkSpec.

Local Open Scope Z_scope.

(** ** The cache *)

(** The vector holds [l], and has room. *)
Definition cached (v : Vector (option DiscoveredAddress)) (l : list DiscoveredAddress) : Prop :=
  represents v (map Some l) /\ VectorCapacity v <= Z.of_nat (length l) + 5.

Definition find_IP (l : list DiscoveredAddress) (ip : InternetProtocol4) := list_find (fun a => da_IP a = ip) l.

(** The hardware address that is known for [ip]. *)
Definition known (l : list DiscoveredAddress) (ip : InternetProtocol4) : option MediaAccessControl :=
  da_MAC ∘ snd <$> find_IP l ip.

(** After learning an address. *)
Definition learn (l : list DiscoveredAddress) (ip : InternetProtocol4) (mac : MediaAccessControl) : list DiscoveredAddress :=
  match find_IP l ip with
  | Some (i, _) => <[i := mk_DA mac ip]> l
  | None => l ++ [mk_DA mac ip]
  end.

(** What a search returns. *)
Definition found (l : list DiscoveredAddress) (ip : InternetProtocol4) : DiscoveredAddress :=
  default InvalidRet (snd <$> find_IP l ip).

Lemma find_IP_cons a l ip : find_IP (a :: l) ip = if decide (da_IP a = ip) then Some (0%nat, a) else prod_map S id <$> find_IP l ip.
Proof. done. Qed.

Lemma known_learn l ip mac ip' : known (learn l ip mac) ip' = if decide (ip' = ip) then Some mac else known l ip'.
Proof.
  unfold learn, known. induction l as [|a l IH].
  - change (find_IP [] ip) with (@None (nat * DiscoveredAddress)). change (find_IP [] ip') with (@None (nat * DiscoveredAddress)). cbn [app]. rewrite find_IP_cons. cbn [da_IP]. destruct (decide (ip = ip')), (decide (ip' = ip)); congruence || done.
  - rewrite (find_IP_cons a l ip). destruct (decide (da_IP a = ip)) as [E|E].
    + cbn [list_insert insert]. rewrite !find_IP_cons. cbn [da_IP].
      repeat destruct (decide _); congruence || (subst; done).
    + destruct (find_IP l ip) as [[i b]|] eqn:Ef; cbn [fmap option_fmap option_map prod_map fst] in *.
      * change (<[S i := mk_DA mac ip]> (a :: l)) with (a :: <[i := mk_DA mac ip]> l). rewrite !find_IP_cons.
        destruct (decide (da_IP a = ip')); [rewrite decide_False by congruence; done|].
        revert IH. destruct (find_IP (<[i := _]> l) ip'), (find_IP l ip'); simpl; auto.
      * cbn [app]. rewrite !find_IP_cons. destruct (decide (da_IP a = ip')); [rewrite decide_False by congruence; done|].
        revert IH. destruct (find_IP (l ++ _) ip'), (find_IP l ip'); simpl; auto.
Qed.

Lemma found_known l ip : da_MAC (found l ip) = default bcast_MAC (known l ip).
Proof. unfold found, known. by destruct (find_IP l ip). Qed.

Lemma index_cached v l i a : cached v l -> l !! i = Some a -> index v (Z.of_nat i) = Ok (Some a).
Proof.
  intros [Hv _] Hi. destruct (represents_cases v _ Hv) as [[Hn ->]|[rest ->]].
  - destruct l; [done|discriminate].
  - unfold index, buffer. cbn [VectorBuffer bind]. apply aget_Ok. rewrite Nat2Z.id. apply lookup_app_l_Some. by rewrite list_lookup_fmap, Hi.
Qed.

Lemma find_DA_ok v l ip : cached v l -> forall k i, (i + k = length l)%nat ->
  find_DA v ip (Z.of_nat i) k = Ok ((fun x => Z.of_nat (i + x.1)) <$> find_IP (drop i l) ip).
Proof.
  intros Hv. induction k as [|k IH]; intros i Hi; cbn [find_DA].
  - rewrite drop_ge by lia. done.
  - destruct (lookup_lt_is_Some_2 l i ltac:(lia)) as [a Ha]. rewrite (index_cached v l i a Hv Ha). cbn [bind nonnull].
    rewrite IP_eq_spec, (drop_S _ _ _ Ha), find_IP_cons. case_bool_decide as D.
    + rewrite decide_True by done. simpl. by rewrite Nat.add_0_r.
    + rewrite decide_False by congruence. replace (Z.of_nat i + 1) with (Z.of_nat (S i)) by lia. rewrite IH by lia.
      f_equal. destruct (find_IP (drop (S i) l) ip) as [[j b]|]; [|done]. simpl. f_equal. lia.
Qed.

Lemma cached_find v l ip : cached v l -> find_DA v ip 0 (Z.to_nat (Vector.size v)) = Ok (Z.of_nat ∘ fst <$> find_IP l ip).
Proof.
  intros Hv. pose proof Hv as [[Hs _] _]. unfold Vector.size. rewrite Hs, Nat2Z.id, length_map.
  exact (find_DA_ok v l ip Hv (length l) 0 eq_refl).
Qed.

Lemma find_IP_Some l ip i a : find_IP l ip = Some (i, a) -> l !! i = Some a /\ da_IP a = ip.
Proof. intros E. apply list_find_Some in E as (? & ? & _). done. Qed.

(** ** The operations *)

Lemma DA_search_ok n l ip mac : cached (DiscoveredAddresses n) l -> ManageDA n DA_SEARCH ip mac = Ok (n, snd <$> find_IP l ip).
Proof.
  intros Hv. unfold ManageDA. rewrite (cached_find _ l) by done. destruct (find_IP l ip) as [[i a]|] eqn:Ef; [|done].
  cbn [bind fmap option_fmap option_map compose fst snd]. apply find_IP_Some in Ef as [Ha _].
  by rewrite (index_cached _ l i a).
Qed.

Lemma ARP_Search_ok n l ip : cached (DiscoveredAddresses n) l -> ARP_Search n ip = Ok (found l ip).
Proof. intros Hv. unfold ARP_Search. by rewrite (DA_search_ok n l). Qed.

Lemma DA_add_ok n l ip mac : cached (DiscoveredAddresses n) l -> Z.of_nat (length l) < 2 ^ 60 ->
  exists v, ManageDA n DA_ADD ip mac = Ok (set_DiscoveredAddresses v n, Some (mk_DA mac ip)) /\ cached v (l ++ [mk_DA mac ip]).
Proof.
  intros [Hv Hc] Hl. unfold ManageDA. destruct (push_ok None _ _ (Some (mk_DA mac ip)) Hv) as (v & E & Hr); [lia|].
  rewrite E. exists v. split; [done|]. split; [by rewrite map_app|]. rewrite length_app. cbn [length].
  pose proof Hv as [Hs Hb]. rewrite length_map in Hs.
  assert (0 <= VectorCapacity (DiscoveredAddresses n)) by (destruct (VectorBuffer _); [destruct Hb as [-> _]|destruct Hb as [_ ->]]; lia).
  pose proof (push_capacity None _ v (Some (mk_DA mac ip)) ltac:(done) ltac:(lia) E). lia.
Qed.

Lemma DA_update_ok n l ip mac i a : cached (DiscoveredAddresses n) l -> find_IP l ip = Some (i, a) ->
  exists v, ManageDA n DA_UPDATE ip mac = Ok (set_DiscoveredAddresses v n, Some (mk_DA mac ip)) /\ cached v (<[i := mk_DA mac ip]> l).
Proof.
  intros Hv Ef. unfold ManageDA. rewrite (cached_find _ l), Ef by done. cbn [bind fmap option_fmap option_map compose fst snd].
  apply find_IP_Some in Ef as [Ha Hip]. rewrite (index_cached _ l i a) by done. cbn [bind nonnull]. destruct Hv as [Hv Hc].
  destruct (represents_cases _ _ Hv) as [[Hn E]|[rest E]]; [by destruct l|]. rewrite E in *. unfold buffer. cbn [VectorBuffer VectorSize VectorCapacity bind].
  pose proof (lookup_lt_Some _ _ _ Ha) as Hlt. rewrite aset_Ok by (rewrite length_app, length_map, Nat2Z.id; lia). cbn [bind].
  eexists. split; [by rewrite Hip|]. rewrite Nat2Z.id, insert_app_l by (rewrite length_map; lia). unfold cached, represents. simpl in *.
  split; [|by rewrite length_insert]. rewrite list_fmap_insert. split; [by rewrite length_insert|].
  split; [by rewrite !length_app, length_insert|eauto].
Qed.

(** What [ARP::OnEthernetPacketReceived] does to the cache. *)
Lemma learn_ok n l ip mac : cached (DiscoveredAddresses n) l -> Z.of_nat (length l) < 2 ^ 60 ->
  exists v, cached v (learn l ip mac) /\ forall B (K : net * option DiscoveredAddress -> res B),
    (let* '(_, k) := ManageDA n DA_SEARCH ip mac in
     let* r := match k with None => ManageDA n DA_ADD ip mac | Some _ => ManageDA n DA_UPDATE ip mac end in K r) =
    K (set_DiscoveredAddresses v n, Some (mk_DA mac ip)).
Proof.
  intros Hv Hl. rewrite (DA_search_ok n l) by done. unfold learn. cbn [bind]. destruct (find_IP l ip) as [[i a]|] eqn:Ef.
  - destruct (DA_update_ok n l ip mac i a Hv Ef) as (v & E & H). exists v. split; [done|]. intros B K. simpl snd. cbn [fmap option_fmap option_map]. by rewrite E.
  - destruct (DA_add_ok n l ip mac Hv Hl) as (v & E & H). exists v. split; [done|]. intros B K. cbn [fmap option_fmap option_map]. by rewrite E.
Qed.

Lemma length_learn l ip mac : (length l <= length (learn l ip mac) <= S (length l))%nat.
Proof. unfold learn. destruct (find_IP l ip) as [[i a]|]; [rewrite length_insert|rewrite length_app; simpl]; lia. Qed.

(** ** Messages *)

(** A message, with the padding that follows it in the frame. *)
Record arp_message := mk_arp {
  m_op : Z;
  m_smac : MediaAccessControl;
  m_sip : InternetProtocol4;
  m_tmac : MediaAccessControl;
  m_tip : InternetProtocol4;
  m_pad : list Z
}.

Definition message_ok (m : arp_message) : Prop :=
  0 <= m_op m < 2 ^ 16 /\ mac_ok (m_smac m) /\ ip_ok (m_sip m) /\ mac_ok (m_tmac m) /\ ip_ok (m_tip m).

Definition message_bytes (m : arp_message) : list Z :=
  arp_packet (m_op m) (m_smac m) (m_sip m) (m_tmac m) (m_tip m) ++ m_pad m.

(** The answer to a request; the frame goes to the reversed address. *)
Definition arp_reply (dev : DeviceInterface) (m : arp_message) : list Z :=
  eth_frame (rev_MAC (m_smac m)) (dev_MAC dev) TYPE_ARP (arp_packet REPLY (dev_MAC dev) (dev_IP dev) (m_smac m) (m_sip m)).

Definition replies (dev : DeviceInterface) (m : arp_message) : list (list Z) :=
  if decide (m_op m = REQUEST) then [arp_reply dev m] else [].

(** The entry that is learned: both addresses are reversed. *)
Definition learn_message (l : list DiscoveredAddress) (m : arp_message) : list DiscoveredAddress :=
  learn l (rev_IP (m_sip m)) (rev_MAC (m_smac m)).

(** The stack is set up, with [l] in the cache. *)
Record stack_ok (n : net) (l : list DiscoveredAddress) : Prop := {
  st_interface : Vector.elements (InterfaceEvents n) = Ok [EthernetObject];
  st_ethernet : Vector.elements (EthernetEvents n) = Ok [mk_EthernetEvent ARPObject TYPE_ARP; mk_EthernetEvent IPv4Object TYPE_IPV4];
  st_ipv4 : Vector.elements (IPv4Events n) = Ok [UDPObject];
  st_mem : mem_ok (KernelAllocator n);
  st_mac : mac_ok (dev_MAC (Interface n));
  st_ip : ip_ok (dev_IP (Interface n));
  st_cached : cached (DiscoveredAddresses n) l
}.

(** [n'] is [n] with the cache [l], after sending [fr], with [rest] to arrive. *)
Definition heard (n : net) (l : list DiscoveredAddress) (fr : list (list Z)) (rest : list (list (list Z))) (n' : net) : Prop :=
  exists v p k, cached v l /\ same_pages (KernelAllocator n) p /\
    n' = mk_net (Interface n) (InterfaceEvents n) (EthernetEvents n) (IPv4Events n) (UDPEvents n) v
      (GatewayIP n) (SubnetworkMaskIP n) (sockets n) (UsuablePort n) (dhcp n) p k (frames n ++ fr) rest.

Lemma heard_trans n1 n2 n3 l2 l3 f2 f3 r2 r3 : heard n1 l2 f2 r2 n2 -> heard n2 l3 f3 r3 n3 -> heard n1 l3 (f2 ++ f3) r3 n3.
Proof.
  intros (v2 & p2 & k2 & _ & Hp2 & ->) (v3 & p3 & k3 & Hv3 & Hp3 & ->). exists v3, p3, k3. cbn in *. rewrite app_assoc.
  split; [done|]. split; [by eapply same_pages_trans|done].
Qed.

Lemma heard_ok n n' l l' fr rest : stack_ok n l -> heard n l' fr rest n' -> stack_ok n' l'.
Proof. intros [] (v & p & k & Hv & [Hm _] & ->). by split. Qed.

Lemma same_pages_refl p : mem_ok p -> same_pages p p.
Proof. intros Hm. by split_and!. Qed.

Lemma heard_refl n l : stack_ok n l -> heard n l [] (arrivals n) n.
Proof.
  intros []. exists (DiscoveredAddresses n), (KernelAllocator n), (allocations n). rewrite app_nil_r. split_and!; [done| |by destruct n].
  by apply same_pages_refl.
Qed.

Lemma sends_heard n n' l fr : stack_ok n l -> sends n (Ok n') fr -> heard n l fr (arrivals n) n'.
Proof. intros [] (p & k & Hp & [= ->]). by exists (DiscoveredAddresses n), p, k. Qed.

Lemma be2_cases x : 0 <= x < 2 ^ 16 -> exists a b, be 2 x = [a; b] /\ b16 (le_value [a; b]) = x.
Proof.
  intros Hx. pose proof (length_be 2 x) as Hlen. pose proof (be_bytes 2 x) as Hb. pose proof (le_value_rev_be 2 x) as Hv.
  rewrite <- b16_wire in Hv by done. destruct (be 2 x) as [|a [|b [|]]]; try discriminate. exists a, b. split; [done|].
  rewrite Hv. by apply Z.mod_small.
Qed.

Section arp.
Context `{HL : NetHardwareLaws}.

Lemma ARP_packet_ok n l m Length : stack_ok n l -> message_ok m -> Z.of_nat (length l) < 2 ^ 60 ->
  exists n' d, ARP_OnEthernetPacketReceived n (message_bytes m) Length = Ok (n', d, false) /\
    heard n (learn_message l m) (replies (Interface n) m) (arrivals n) n'.
Proof.
  intros Hn (Hop & Hsm & Hsi & Htm & Hti) Hl. destruct m as [op [a0 a1 a2 a3 a4 a5] [i0 i1 i2 i3] [t0 t1 t2 t3 t4 t5] [j0 j1 j2 j3] pad].
  cbn [m_op m_smac m_sip m_tmac m_tip m_pad] in *. unfold message_bytes, arp_packet.
  cbn [m_op m_smac m_sip m_tmac m_tip m_pad].
  change (be 2 1) with [0; 1]. change (be 2 0x0800) with [8; 0].
  destruct (be2_cases op Hop) as (x & y & -> & Exy).
  unfold ARP_OnEthernetPacketReceived, off_SenderIP, off_HardwareType, off_ProtocolType, off_SenderMAC, off_Operation, off_TargetMAC, off_TargetIP.
  unfold mac_bytes, ip_bytes. cbn [app mac0 mac1 mac2 mac3 mac4 mac5 ip0 ip1 ip2 ip3]. do 3 (rewrite wire_load_ok by (cbn [length]; lia); cbn [bind take drop]).
  rewrite decide_False by (intros [H1|H1]; by apply H1).
  rewrite wire_load_ok by (cbn [length]; lia). cbn [bind take drop].
  set (sip := le_value [i0; i1; i2; i3]). set (smac := le_value [a0; a1; a2; a3; a4; a5]).
  assert (IP_FromHex sip = mk_IP i3 i2 i1 i0) as -> by (apply ip_bytes_inj; exact (IP_FromHex_wire [i0; i1; i2; i3] Hsi eq_refl)).
  assert (MAC_FromHex smac = mk_MAC a5 a4 a3 a2 a1 a0) as Em by (apply mac_bytes_inj; exact (MAC_FromHex_wire [a0; a1; a2; a3; a4; a5] Hsm eq_refl)).
  rewrite Em.
  match goal with |- context [bind (ManageDA n DA_SEARCH ?ip ?mac) _] => edestruct (learn_ok n l ip mac) as (v & Hv & ->); [by apply Hn|done|] end.
  rewrite wire_load_ok by (cbn [length]; lia). cbn [bind take drop]. rewrite Exy. unfold learn_message, replies.
  cbn [m_smac m_sip m_op]. change (rev_IP _) with (mk_IP i3 i2 i1 i0). change (rev_MAC _) with (mk_MAC a5 a4 a3 a2 a1 a0).
  pose proof (st_mem _ _ Hn) as Hmem. case_decide.
  2:{ eexists _, _. split; [reflexivity|]. exists v, (KernelAllocator n), (allocations n). rewrite app_nil_r. split_and!; [done|by apply same_pages_refl|done]. }
  rewrite wire_store_ok by (cbn [length]; lia). unfold smac at 1. rewrite (le_le_value _ 6) by done. cbn [bind take drop app Nat.add].
  rewrite wire_store_ok by (cbn [length]; lia). unfold sip at 1. rewrite (le_le_value _ 4) by done. cbn [bind take drop app Nat.add].
  pose proof (st_mac _ _ Hn) as Hmac. pose proof (st_ip _ _ Hn) as Hip. cbn [set_DiscoveredAddresses Interface].
  rewrite wire_store_ok by (cbn [length]; lia). rewrite le_b48, be_MAC by done. unfold mac_bytes. cbn [bind take drop app Nat.add].
  unfold off_SenderIP. rewrite wire_store_ok by (cbn [length]; lia). rewrite le_b32, be_IP by done. unfold ip_bytes. cbn [bind take drop app Nat.add].
  rewrite wire_store_ok by (cbn [length]; lia). rewrite le_b16. change (be 2 REPLY) with [0; 2]. cbn [bind take drop app Nat.add].
  rewrite wire_load_ok by (cbn [length]; lia). cbn [bind take drop]. fold smac. rewrite Em.
  match goal with |- context [Ethernet_Send ?n' ?mac ?ty ?d ?len] => destruct (Ethernet_Send_ok n' mac ty d len) as (p & k & Hp & ->) end.
  { done. } { change (mac_ok _) with (bytes_ok (rev [a0; a1; a2; a3; a4; a5])). by apply List.Forall_rev. } { done. } { done. } { unfold sizeof_ARPHeader. cbn [length]. lia. }
  cbn [bind]. eexists _, _. split; [reflexivity|]. exists v, p, k. split_and!; [done|done|reflexivity].
Qed.

(** ** Frames *)

(** A frame that the card accepts. *)
Definition for_us (n : net) (dst : MediaAccessControl) : Prop := mac_ok dst /\ (dst = bcast_MAC \/ dst = dev_MAC (Interface n)).

Lemma frame_fields dst src ty data : mac_ok dst -> 0 <= ty < 2 ^ 16 ->
  let f := eth_frame dst src ty data in
  (exists x, load 6 f off_SourceMAC = Ok x) /\
  (exists x, load 6 f off_DestinationMAC = Ok x /\ b48 x = MAC_ToHex dst) /\
  (exists x, load 2 f off_Type = Ok x /\ b16 x = ty) /\ drop 14 f = data.
Proof.
  intros Hd Ht f. unfold f, eth_frame, off_SourceMAC, off_DestinationMAC, off_Type, mac_bytes.
  pose proof (length_be 2 ty) as Hl. pose proof (be_bytes 2 ty) as Hb. pose proof (le_value_rev_be 2 ty) as Hv.
  rewrite <- b16_wire in Hv by done. destruct (be 2 ty) as [|x [|y [|]]]; try discriminate. cbn [app].
  repeat (rewrite wire_load_ok by (cbn [length]; lia)). cbn [take drop]. split_and!; [eauto| | |done].
  - eexists. split; [done|]. rewrite (b48_wire [mac0 dst; mac1 dst; mac2 dst; mac3 dst; mac4 dst; mac5 dst]) by done.
    symmetry. by apply MAC_ToHex_value.
  - eexists. split; [done|]. etrans; [exact Hv|]. by apply Z.mod_small.
Qed.

Lemma accepted n dst x : for_us n dst -> mac_ok (dev_MAC (Interface n)) -> x = MAC_ToHex dst ->
  bool_decide (x = BROADCAST) || MAC_eq_hex (dev_MAC (Interface n)) x = true.
Proof.
  intros [Hd [->| ->]] Hm ->; [done|]. unfold MAC_eq_hex. rewrite MAC_eq_spec, MAC_FromHex_ToHex, (bool_decide_eq_true_2 (dev_MAC _ = _)) by done.
  apply orb_true_r.
Qed.

(** A frame with a message, to [dst] and from [src]. *)
Definition arp_frame (dst src : MediaAccessControl) (m : arp_message) : list Z := eth_frame dst src TYPE_ARP (message_bytes m).

Lemma arp_frame_ok n l dst src m : stack_ok n l -> for_us n dst -> message_ok m -> Z.of_nat (length l) < 2 ^ 60 ->
  exists n', NetworkInterface_Receive in_interrupt n (arp_frame dst src m) (Z.of_nat (length (arp_frame dst src m))) = Ok n' /\
    heard n (learn_message l m) (replies (Interface n) m) (arrivals n) n'.
Proof.
  intros Hn Hus Hm Hl. unfold NetworkInterface_Receive. rewrite (st_interface _ _ Hn). cbn [bind interface_events].
  destruct (frame_fields dst src TYPE_ARP (message_bytes m) ltac:(apply Hus) ltac:(done)) as ((x1 & E1) & (x2 & E2 & Hx2) & (x3 & E3 & Hx3) & Hd).
  unfold Ethernet_Receive. change (eth_frame dst src TYPE_ARP (message_bytes m)) with (arp_frame dst src m) in *.
  rewrite E1, E2. cbn [bind]. rewrite (accepted n dst) by (done || apply Hn). rewrite E3, (st_ethernet _ _ Hn). cbn [bind]. rewrite Hx3.
  rewrite decide_True by (by right; left). rewrite Hd. cbn [ethernet_events ee_Type]. rewrite decide_True by done. cbn [on_packet ee_Ptr].
  destruct (ARP_packet_ok n l m (Z.of_nat (length (arp_frame dst src m))) Hn Hm Hl) as (n' & d & -> & Hh). cbn [bind].
  rewrite decide_False by done. cbn [bind]. by exists n'.
Qed.

(** Frames that the stack takes no notice of: those for another card, those of a type
    that it has no protocol for, and address resolution for other networks. *)
Inductive ignored (dev : DeviceInterface) : list Z -> Prop :=
| other_card dst src ty data : mac_ok dst -> 0 <= ty < 2 ^ 16 -> dst <> bcast_MAC -> dst <> dev_MAC dev ->
    ignored dev (eth_frame dst src ty data)
| other_type dst src ty data : mac_ok dst -> 0 <= ty < 2 ^ 16 -> ty <> TYPE_IPV4 -> ty <> TYPE_ARP ->
    ignored dev (eth_frame dst src ty data)
| other_network dst src hw pr data : mac_ok dst -> 0 <= hw < 2 ^ 16 -> 0 <= pr < 2 ^ 16 -> hw <> HTYPE_ETHERNET \/ pr <> TYPE_IPV4 ->
    (14 <= length data)%nat -> ignored dev (eth_frame dst src TYPE_ARP (be 2 hw ++ be 2 pr ++ data)).

Lemma other_network_ok n hw pr data Length : 0 <= hw < 2 ^ 16 -> 0 <= pr < 2 ^ 16 -> hw <> HTYPE_ETHERNET \/ pr <> TYPE_IPV4 ->
  (14 <= length data)%nat -> let d := be 2 hw ++ be 2 pr ++ data in ARP_OnEthernetPacketReceived n d Length = Ok (n, d, false).
Proof.
  intros Hh Hp Hne Hl. cbv zeta. destruct (be2_cases hw Hh) as (a & b & -> & Eh). destruct (be2_cases pr Hp) as (a' & b' & -> & Ep).
  unfold ARP_OnEthernetPacketReceived, off_SenderIP, off_HardwareType, off_ProtocolType. cbn [app].
  do 3 (rewrite wire_load_ok by (cbn [length]; lia); cbn [bind take drop]). rewrite take_0, Eh, Ep. by rewrite decide_True.
Qed.

Lemma ignored_ok n l f : stack_ok n l -> ignored (Interface n) f ->
  NetworkInterface_Receive in_interrupt n f (Z.of_nat (length f)) = Ok n.
Proof.
  intros Hn Hf. unfold NetworkInterface_Receive. rewrite (st_interface _ _ Hn). cbn [bind interface_events]. unfold Ethernet_Receive.
  destruct Hf as [dst src ty data Hd Ht H1 H2|dst src ty data Hd Ht H1 H2|dst src hw pr data Hd Hh Hp Hne Hl].
  - destruct (frame_fields dst src ty data Hd Ht) as ((x1 & E1) & (x2 & E2 & Hx2) & _). rewrite E1, E2. cbn [bind].
    rewrite Hx2. replace (bool_decide (MAC_ToHex dst = BROADCAST) || MAC_eq_hex (dev_MAC (Interface n)) (MAC_ToHex dst)) with false; [done|].
    symmetry. apply orb_false_iff. split.
    + apply bool_decide_eq_false. intros E. apply H1. by rewrite <- (MAC_FromHex_ToHex dst Hd), E.
    + unfold MAC_eq_hex. rewrite MAC_eq_spec, MAC_FromHex_ToHex by done. apply bool_decide_eq_false. congruence.
  - destruct (frame_fields dst src ty data Hd Ht) as ((x1 & E1) & (x2 & E2 & Hx2) & (x3 & E3 & Hx3) & Ed). rewrite E1, E2. cbn [bind].
    destruct (bool_decide _ || _); [|done]. rewrite E3, (st_ethernet _ _ Hn). cbn [bind]. rewrite Hx3, Ed.
    case_decide; cbn [ethernet_events ee_Type]; rewrite ?(decide_False (P := TYPE_ARP = ty)), ?(decide_False (P := TYPE_IPV4 = ty)) by congruence; done.
  - destruct (frame_fields dst src TYPE_ARP (be 2 hw ++ be 2 pr ++ data) Hd ltac:(done)) as ((x1 & E1) & (x2 & E2 & Hx2) & (x3 & E3 & Hx3) & Ed). rewrite E1, E2. cbn [bind].
    destruct (bool_decide _ || _); [|done]. rewrite E3, (st_ethernet _ _ Hn). cbn [bind]. rewrite Hx3, Ed.
    rewrite decide_True by (by right; left). cbn [ethernet_events ee_Type]. rewrite decide_True by done. cbn [on_packet ee_Ptr].
    rewrite other_network_ok by done. cbn [bind]. by rewrite decide_False by done.
Qed.

(** ** Sequences of frames *)

(** A message and the addresses of its frame, or a frame to be ignored. *)
Inductive arrival :=
| message (dst src : MediaAccessControl) (m : arp_message)
| noise (frame : list Z).

Definition frame_of (a : arrival) : list Z := match a with message dst src m => arp_frame dst src m | noise f => f end.
Definition arrival_ok (n : net) (a : arrival) : Prop :=
  match a with message dst _ m => for_us n dst /\ message_ok m | noise f => ignored (Interface n) f end.
Definition learn_arrival (l : list DiscoveredAddress) (a : arrival) : list DiscoveredAddress :=
  match a with message _ _ m => learn_message l m | noise _ => l end.
Definition learn_all (l : list DiscoveredAddress) (ms : list arrival) : list DiscoveredAddress := foldl learn_arrival l ms.
Definition replies_to (dev : DeviceInterface) (a : arrival) : list (list Z) :=
  match a with message _ _ m => replies dev m | noise _ => [] end.
Definition reply_all (dev : DeviceInterface) (ms : list arrival) : list (list Z) := mjoin (replies_to dev <$> ms).

Lemma length_learn_arrival l a : (length l <= length (learn_arrival l a) <= S (length l))%nat.
Proof. destruct a as [dst src m|f]; [apply length_learn|simpl; lia]. Qed.

Lemma length_learn_all l ms : (length l <= length (learn_all l ms) <= length l + length ms)%nat.
Proof.
  revert l. induction ms as [|a ms IH]; intros l; simpl; [lia|]. specialize (IH (learn_arrival l a)).
  pose proof (length_learn_arrival l a). lia.
Qed.

Lemma arrival_received n l a : stack_ok n l -> arrival_ok n a -> Z.of_nat (length l) < 2 ^ 60 ->
  exists n', NetworkInterface_Receive in_interrupt n (frame_of a) (Z.of_nat (length (frame_of a))) = Ok n' /\
    heard n (learn_arrival l a) (replies_to (Interface n) a) (arrivals n) n'.
Proof.
  intros Hn Ha Hl. destruct a as [dst src m|f]; [by apply arp_frame_ok; [|apply Ha..|]|].
  exists n. split; [by apply (ignored_ok n l)|by apply heard_refl].
Qed.

Lemma deliver_ok ms : forall n l, stack_ok n l -> Forall (arrival_ok n) ms -> Z.of_nat (length l + length ms) < 2 ^ 60 ->
  exists n', deliver n (frame_of <$> ms) = Ok n' /\ heard n (learn_all l ms) (reply_all (Interface n) ms) (arrivals n) n'.
Proof.
  induction ms as [|a ms IH]; intros n l Hn Hms Hl; [exists n; split; [done|]; by apply heard_refl|].
  apply Forall_cons in Hms as [Ha Hms]. cbn [fmap list_fmap deliver]. cbn [length] in Hl.
  destruct (arrival_received n l a Hn Ha ltac:(lia)) as (n1 & E & H1). rewrite E. cbn [bind].
  pose proof (length_learn_arrival l a) as Hlen.
  pose proof H1 as (v & p & k & Hv & Hp & En). assert (Interface n1 = Interface n /\ arrivals n1 = arrivals n) as [Ei Ea] by by rewrite En.
  destruct (IH n1 (learn_arrival l a)) as (n' & E' & H2).
  { by eapply heard_ok. } { eapply Forall_impl; [exact Hms|]. intros [dst src m|f]; simpl; unfold for_us; by rewrite Ei. }
  { lia. }
  exists n'. split; [done|]. rewrite Ei, Ea in H2. by apply (heard_trans n n1 n' _ _ _ _ _ _ H1 H2).
Qed.

(** ** Waiting for an answer *)

Definition batch_frames (b : list arrival) : list (list Z) := frame_of <$> b.

(** The frames to come are these messages, well formed, and frames to be ignored. *)
Definition will_hear (n : net) (batches : list (list arrival)) : Prop :=
  arrivals n = batch_frames <$> batches /\ Forall (Forall (arrival_ok n)) batches.

(** The cache after the first [i] batches. *)
Definition view (l : list DiscoveredAddress) (batches : list (list arrival)) (i : nat) : list DiscoveredAddress :=
  learn_all l (mjoin (take i batches)).

(** The address that is known then, if it is not the one for none. *)
Definition answer (l : list DiscoveredAddress) (batches : list (list arrival)) (ip : InternetProtocol4) (i : nat) : MediaAccessControl :=
  default bcast_MAC (known (view l batches i) ip).

Definition macs_ok (l : list DiscoveredAddress) : Prop := Forall (fun a => mac_ok (da_MAC a)) l.

Lemma rev_MAC_ok a : mac_ok a -> mac_ok (rev_MAC a).
Proof. intros Ha. exact (List.Forall_rev Ha). Qed.

Lemma rev_IP_ok a : ip_ok a -> ip_ok (rev_IP a).
Proof. intros Ha. exact (List.Forall_rev Ha). Qed.

Lemma macs_ok_learn_all n l ms : macs_ok l -> Forall (arrival_ok n) ms -> macs_ok (learn_all l ms).
Proof.
  intros Hl Hms. revert l Hl. induction Hms as [|a ms Ha _ IH]; intros l Hl; [done|]. apply IH.
  destruct a as [dst src m|f]; [destruct Ha as [_ Ha]|done]. cbn [learn_arrival]. unfold learn_message, learn. destruct (find_IP _ _) as [[i b]|].
  - apply Forall_insert; [done|]. apply rev_MAC_ok, Ha.
  - apply Forall_app; split; [done|]. apply Forall_singleton, rev_MAC_ok, Ha.
Qed.

Lemma known_ok l ip : macs_ok l -> mac_ok (default bcast_MAC (known l ip)).
Proof.
  intros Hl. unfold known. destruct (find_IP l ip) as [[i a]|] eqn:E; simpl; [|unfold mac_ok, mac_bytes, bcast_MAC, bytes_ok; simpl; bytes].
  apply find_IP_Some in E as [E _]. by apply (Forall_lookup_1 _ _ _ _ Hl E).
Qed.

Lemma is_BROADCAST a : mac_ok a -> MAC_ToHex a = BROADCAST <-> a = bcast_MAC.
Proof. intros Ha. split; [|by intros ->]. intros E. rewrite <- (MAC_FromHex_ToHex a Ha), E. done. Qed.

Lemma sleep_ok n l batches : stack_ok n l -> will_hear n batches -> Z.of_nat (length l + length (mjoin (take 1 batches))) < 2 ^ 60 ->
  exists n', sleep n = Ok n' /\
    heard n (view l batches 1) (reply_all (Interface n) (mjoin (take 1 batches))) (batch_frames <$> drop 1 batches) n'.
Proof.
  intros Hn [Ea Hb] Hl. unfold sleep, view. rewrite Ea. destruct batches as [|b bs]; simpl in *.
  - exists n. split; [done|]. rewrite <- Ea. by apply heard_refl.
  - rewrite app_nil_r in *. apply Forall_cons in Hb as [Hb _].
    destruct (deliver_ok b (set_arrivals (batch_frames <$> bs) n) l) as (n' & E & Hh); [by destruct Hn|done|lia|].
    exists n'. split; [done|]. rewrite drop_0. done.
Qed.

Lemma view_S l batches i : view l batches (S i) = view (view l batches 1) (drop 1 batches) i.
Proof. unfold view. destruct batches as [|b bs]; [by rewrite ?drop_nil, !take_nil|]. simpl. rewrite app_nil_r, drop_0. unfold learn_all. by rewrite foldl_app. Qed.

Lemma answer_S l batches ip i : answer l batches ip (S i) = answer (view l batches 1) (drop 1 batches) ip i.
Proof. unfold answer. by rewrite view_S. Qed.

Lemma reply_all_S dev batches i :
  reply_all dev (mjoin (take (S i) batches)) = reply_all dev (mjoin (take 1 batches)) ++ reply_all dev (mjoin (take i (drop 1 batches))).
Proof.
  unfold reply_all. destruct batches as [|b bs]; [by rewrite ?drop_nil, !take_nil|]. simpl. by rewrite app_nil_r, drop_0, fmap_app, join_app.
Qed.

(** [r] is [x] in a state in which [i] batches were heard. *)
Definition returns_after (n : net) (l : list DiscoveredAddress) (batches : list (list arrival)) (fr : list (list Z)) (i : nat)
    (x : Z) (r : res (net * Z)) : Prop :=
  exists n', r = Ok (n', x) /\
    heard n (view l batches i) (fr ++ reply_all (Interface n) (mjoin (take i batches))) (batch_frames <$> drop i batches) n'.

Lemma resolve_loop_ok ip k : forall n l batches, stack_ok n l -> macs_ok l -> will_hear n batches ->
  Z.of_nat (length l + length (mjoin batches)) < 2 ^ 60 ->
  (forall i, (S i < k)%nat -> (forall j, (j < i)%nat -> answer l batches ip j = bcast_MAC) -> answer l batches ip i <> bcast_MAC ->
    returns_after n l batches [] (S i) (MAC_ToHex (answer l batches ip i)) (resolve_loop sleep n ip BROADCAST k)) /\
  ((0 < k)%nat -> (forall j, (j < k - 1)%nat -> answer l batches ip j = bcast_MAC) ->
    returns_after n l batches [] (k - 1) 0 (resolve_loop sleep n ip BROADCAST k)).
Proof.
  induction k as [|k IH]; intros n l batches Hn Hl Hb Hroom; [split; intros; lia|]. cbn [resolve_loop]. rewrite decide_True by done.
  rewrite (ARP_Search_ok n l) by apply Hn. cbn [bind]. rewrite found_known. change (default bcast_MAC (known l ip)) with (answer l batches ip 0).
  destruct k as [|k].
  { split; [intros; lia|]. intros _ _. exists n. split; [done|]. destruct Hb as [Ea _]. change (1 - 1)%nat with 0%nat. rewrite drop_0.
    rewrite <- Ea. by apply heard_refl. }
  assert (length (mjoin (take 1 batches)) + length (mjoin (drop 1 batches)) = length (mjoin batches))%nat as Hjoin.
  { rewrite <- length_app, <- join_app, take_drop. done. }
  destruct (sleep_ok n l batches Hn Hb ltac:(lia)) as (n1 & E1 & H1). rewrite E1. cbn [bind].
  pose proof (heard_ok _ _ _ _ _ _ Hn H1) as Hn1. pose proof Hb as [Ea Hbs].
  assert (Interface n1 = Interface n /\ arrivals n1 = batch_frames <$> drop 1 batches) as [Ei Ea1] by (destruct H1 as (? & ? & ? & _ & _ & ->); done).
  assert (will_hear n1 (drop 1 batches)) as Hb1.
  { split; [done|]. eapply Forall_impl; [by apply Forall_drop|]. intros b Hb'. eapply Forall_impl; [exact Hb'|].
    intros [dst src m|f]; simpl; unfold for_us; by rewrite Ei. }
  assert (macs_ok (view l batches 1)) as Hl1.
  { apply (macs_ok_learn_all n); [done|]. destruct batches as [|b bs]; [constructor|]. simpl. rewrite app_nil_r. by apply Forall_cons in Hbs as [? _]. }
  assert (Z.of_nat (length (view l batches 1) + length (mjoin (drop 1 batches))) < 2 ^ 60) as Hroom1.
  { pose proof (length_learn_all l (mjoin (take 1 batches))). unfold view. lia. }
  assert (mac_ok (answer l batches ip 0)) as Hok by by apply known_ok.
  assert (forall i x r, returns_after n1 (view l batches 1) (drop 1 batches) [] i x r -> returns_after n l batches [] (S i) x r) as Hlift.
  { intros i x r (n' & -> & H'). exists n'. split; [done|]. rewrite view_S, reply_all_S, app_nil_l. rewrite Ei, drop_drop in H'.
    by apply (heard_trans n n1 n' _ _ _ _ _ _ H1). }
  specialize (IH n1 _ _ Hn1 Hl1 Hb1 Hroom1) as [IH1 IH2]. split.
  - intros i Hi Hbefore Ha. destruct i as [|i].
    + exists n1. cbn [resolve_loop]. rewrite decide_False by (rewrite is_BROADCAST by done; done). by split.
    + rewrite (Hbefore 0%nat) by lia. change (MAC_ToHex bcast_MAC) with BROADCAST. apply Hlift. rewrite answer_S in *.
      apply IH1; [lia| |done]. intros j Hj. rewrite <- answer_S. apply Hbefore. lia.
  - intros _ Hbefore. rewrite (Hbefore 0%nat) by lia. change (MAC_ToHex bcast_MAC) with BROADCAST.
    replace (S (S k) - 1)%nat with (S (S k - 1)) by lia. apply Hlift. apply IH2; [lia|]. intros j Hj. rewrite <- answer_S.
    apply Hbefore. lia.
Qed.

(** The question that is sent: its numbers are least significant byte first. *)
Definition request_frame (n : net) (ip : InternetProtocol4) : list Z :=
  eth_frame bcast_MAC (dev_MAC (Interface n)) TYPE_ARP
    ([1; 0] ++ [0; 8] ++ [6; 4] ++ [1; 0] ++ rev (mac_bytes (dev_MAC (Interface n))) ++ rev (ip_bytes (dev_IP (Interface n))) ++
     replicate 6 255 ++ rev (ip_bytes ip)).

Lemma bcast_MAC_ok : mac_ok bcast_MAC.
Proof. unfold mac_ok, mac_bytes, bcast_MAC, bytes_ok. simpl. bytes. Qed.

Lemma bcast_IP_ok : ip_ok bcast_IP.
Proof. unfold ip_ok, ip_bytes, bcast_IP, bytes_ok. simpl. bytes. Qed.

Lemma le_MAC a : mac_ok a -> le 6 (MAC_ToHex a) = rev (mac_bytes a).
Proof. intros Ha. by rewrite MAC_ToHex_value, (le_le_value _ 6) by (done || by apply List.Forall_rev). Qed.

Lemma le_IP a : ip_ok a -> le 4 (IP_ToHex a) = rev (ip_bytes a).
Proof. intros Ha. by rewrite IP_ToHex_value, (le_le_value _ 4) by (done || by apply List.Forall_rev). Qed.

(** What [Resolve] does for an address other than the broadcast address. *)
Lemma ARP_Resolve_eq sleep n l ip : stack_ok n l -> macs_ok l -> ip_ok ip -> ip <> bcast_IP ->
  let a := default bcast_MAC (known l ip) in
  (a <> bcast_MAC -> ARP_Resolve sleep n ip = Ok (n, MAC_ToHex a)) /\
  (a = bcast_MAC -> exists n1, heard n l [request_frame n ip] (arrivals n) n1 /\ ARP_Resolve sleep n ip = resolve_loop sleep n1 ip BROADCAST 10).
Proof.
  intros Hn Hl Hip Hb a. unfold ARP_Resolve, IP_eq_hex. rewrite IP_eq_spec, bool_decide_eq_false_2 by (intros E; by apply Hb).
  rewrite (ARP_Search_ok n l) by apply Hn. cbn [bind]. rewrite found_known. change (default _ _) with a.
  assert (mac_ok a) as Ha by by apply known_ok. split; intros Hab.
  - rewrite decide_False by (by rewrite is_BROADCAST). cbn [bind resolve_loop]. by rewrite decide_False by (by rewrite is_BROADCAST).
  - rewrite Hab. change (MAC_ToHex bcast_MAC) with BROADCAST. rewrite decide_True by done. unfold kmalloc.
    rewrite fill_ARPHeader_ok by (by rewrite fresh_size). cbn [bind].
    destruct (Ethernet_Send_ok (allocated n) (mk_MAC 0xFF 0xFF 0xFF 0xFF 0xFF 0xFF) TYPE_ARP
      (le 2 HTYPE_ETHERNET ++ le 2 TYPE_IPV4 ++ le 1 6 ++ le 1 4 ++ le 2 REQUEST ++ le 6 (MAC_ToHex (dev_MAC (Interface n))) ++
       le 4 (IP_ToHex (dev_IP (Interface n))) ++ le 6 BROADCAST ++ le 4 (IP_ToHex ip)) sizeof_ARPHeader) as (p & k & Hp & E);
      [apply Hn|apply bcast_MAC_ok|apply Hn|done|done|].
    cbn [Interface allocated] in E |- *. rewrite E. cbn [bind]. eexists. split; [|done].
    exists (DiscoveredAddresses n), p, k. split_and!; [apply Hn|done|]. unfold request_frame.
    rewrite take_ge by done. rewrite !le_IP, le_MAC by (done || apply Hn). reflexivity.
Qed.
End arp.
