(* ===== verification/NetworkUdp.v ===== *)
(** * Packets, datagrams and the configuration of hosts

    What sending a packet and a datagram gives to the card, the options of a
    DHCP message, and what its client makes of the answers. *)

From S2P Require Import Prelude CString Bytes Vector PageFrame PageFrameSpec Network NetworkWire NetworkSpec NetworkArp.

Local Open Scope Z_scope.

(** ** Packets *)

(** The address that [IPv4::Send] resolves: subnets are compared on the
    numbers of the reversed addresses, and other subnets are reached through
    [SubnetworkMaskIP]. *)
Definition route (n : net) (dst : InternetProtocol4) : InternetProtocol4 :=
  let mask := IP_ToHex (SubnetworkMaskIP n) in
  if decide (Z.land (le_value (ip_bytes dst)) mask <> Z.land (le_value (ip_bytes (dev_IP (Interface n)))) mask)
  then SubnetworkMaskIP n else dst.

(** [Resolve] returns [mac] at once. *)
Definition resolved (l : list DiscoveredAddress) (ip : InternetProtocol4) (mac : MediaAccessControl) : Prop :=
  (ip = bcast_IP /\ mac = bcast_MAC) \/ (ip_ok ip /\ ip <> bcast_IP /\ known l ip = Some mac /\ mac <> bcast_MAC).

Section udp.
Context `{HL : NetHardwareLaws}.
Context (sleep : net -> res net).

Lemma ARP_Resolve_resolved n l ip mac : stack_ok n l -> macs_ok l -> resolved l ip mac -> ARP_Resolve sleep n ip = Ok (n, MAC_ToHex mac).
Proof.
  intros Hn Hl [[-> ->]|(Hip & Hb & Hk & Hm)]; [done|].
  destruct (ARP_Resolve_eq sleep n l ip Hn Hl Hip Hb) as [E _]. rewrite Hk in E. by apply E.
Qed.

Lemma resolved_ok l ip mac : macs_ok l -> resolved l ip mac -> mac_ok mac.
Proof.
  intros Hl [[_ ->]|(_ & _ & Hk & _)]; [apply bcast_MAC_ok|]. pose proof (known_ok l ip Hl) as Hok. by rewrite Hk in Hok.
Qed.

Lemma b32_IP a : ip_ok a -> b32 (IP_ToHex a) = le_value (ip_bytes a).
Proof.
  intros Ha. rewrite IP_ToHex_value by done. rewrite b32_wire by (done || by apply List.Forall_rev). by rewrite rev_involutive.
Qed.

Lemma stack_ok_allocated n l : stack_ok n l -> stack_ok (allocated n) l.
Proof. intros []. by split. Qed.

Lemma IPv4_Send_ok n l Data Length Protocol dst mac : stack_ok n l -> macs_ok l -> ip_ok dst -> resolved l (route n dst) mac ->
  0 <= Length < 4096 - 34 -> Length <= Z.of_nat (length Data) -> 0 <= Protocol < 256 ->
  sends n (IPv4_Send sleep n Data Length Protocol dst)
    [eth_frame mac (dev_MAC (Interface n)) TYPE_IPV4 (ip_packet Protocol (dev_IP (Interface n)) dst (take (Z.to_nat Length) Data))].
Proof.
  intros Hn Hl Hd Hr Hlt Hlen Hp. unfold IPv4_Send, kmalloc. change sizeof_IPv4Header with 20. rewrite wrapu_small by lia.
  pose proof (fresh_size (allocations n) (Length + 20)) as Hfl. set (b := fresh _ _) in *.
  cbn [allocated Interface SubnetworkMaskIP]. rewrite fill_IPv4Header_ok by (done || lia || apply Hn). cbn [bind].
  set (h := ip_header (20 + Length) Protocol (dev_IP (Interface n)) dst). set (c := inet_checksum (h 0)).
  assert (length (h c) = 20%nat) as Hh by done.
  rewrite memcpy_to_ok by (rewrite ?length_app, ?Hh, ?length_drop; lia). cbn [bind].
  rewrite take_app_length' by done. rewrite drop_ge by (rewrite length_app, length_drop, Hh; lia). rewrite app_nil_r.
  assert (h c ++ take (Z.to_nat Length) Data = ip_packet Protocol (dev_IP (Interface n)) dst (take (Z.to_nat Length) Data)) as ->.
  { unfold ip_packet. rewrite length_take_le by lia. rewrite Z2Nat.id by lia. done. }
  set (pk := ip_packet _ _ _ _). assert (length pk = (20 + Z.to_nat Length)%nat) as Hpk.
  { unfold pk, ip_packet. rewrite length_app, length_ip_header, length_take. lia. }
  assert (load 4 pk off_SourceIP = Ok (le_value (ip_bytes (dev_IP (Interface n))))) as ->.
  { unfold off_SourceIP. rewrite wire_load_ok by lia. reflexivity. }
  cbn [bind]. rewrite b32_IP by done.
  match goal with |- context [ARP_Resolve sleep _ ?x] => change x with (route n dst) end.
  rewrite (ARP_Resolve_resolved (allocated n) l (route n dst) mac) by (done || by apply stack_ok_allocated). cbn [bind].
  pose proof (resolved_ok l _ _ Hl Hr) as Hm. rewrite MAC_FromHex_ToHex by done.
  destruct (Ethernet_Send_ok (allocated n) mac TYPE_IPV4 pk (Length + 20)) as (p & k & Hpp & ->); [apply Hn|done|apply Hn|lia|lia|].
  exists p, k. split; [done|]. rewrite take_ge by lia. reflexivity.
Qed.

Lemma UDP_Send_ok n l i s Data Length mac : stack_ok n l -> macs_ok l -> sockets n !! i = Some s -> ip_ok (RemoteIP s) ->
  resolved l (route n (RemoteIP s)) mac -> 0 <= Length < 4096 - 42 -> Length <= Z.of_nat (length Data) ->
  sends n (UDP_Send sleep n i Data Length)
    [eth_frame mac (dev_MAC (Interface n)) TYPE_IPV4 (ip_packet PROTOCOL_UDP (dev_IP (Interface n)) (RemoteIP s)
      (udp_datagram (le 2 (LocalPort s)) (le 2 (RemotePort s)) (take (Z.to_nat Length) Data)))].
Proof.
  intros Hn Hl Hi Hip Hr Hlt Hlen. unfold UDP_Send, kmalloc. change sizeof_UDPHeader with 8. rewrite wrapu_small by lia.
  rewrite (proj2 (aget_Ok _ _ _) Hi). cbn [bind]. pose proof (fresh_size (allocations n) (Length + 8)) as Hfl.
  destruct (take_elements 8 (fresh (allocations n) (Length + 8))) as (h & r & Eb & Hh); [lia|]. rewrite Eb, length_app in Hfl. rewrite Eb.
  assert (length r = Z.to_nat Length) as Hlr by lia. clear Hfl. open_list h. cbn [app].
  unfold off_SourcePort, off_DestinationPort, off_Length, off_Checksum.
  do 3 (rewrite wire_store_ok by (cbn [length]; lia); cbn [bind take drop app le Nat.add]). rewrite ?drop_0.
  rewrite memcpy_to_ok by (cbn [length]; lia). cbn [bind take drop app Nat.add]. rewrite drop_ge by (cbn [length]; lia). rewrite app_nil_r.
  rewrite wire_store_ok by (cbn [length]; lia). cbn [bind take drop app le Nat.add].
  match goal with |- context [IPv4_Send sleep _ ?x _ _ _] => set (d := x) end.
  assert (d = udp_datagram (le 2 (LocalPort s)) (le 2 (RemotePort s)) (take (Z.to_nat Length) Data)) as Hd.
  { unfold udp_datagram. rewrite length_take_le by lia. rewrite Z2Nat.id by lia. rewrite <- le_b16. rewrite (Z.add_comm 8).
    unfold d. by rewrite drop_0. }
  assert (length d = (8 + Z.to_nat Length)%nat) as Hld by (rewrite Hd; unfold udp_datagram; rewrite !length_app, length_be, length_take; simpl; lia).
  destruct (IPv4_Send_ok (allocated n) l d (Length + 8) 0x11 (RemoteIP s) mac) as (p & k & Hp & E);
    [by apply stack_ok_allocated|done|done|done|lia|lia|lia|].
  rewrite E. exists p, k. split; [done|]. rewrite take_ge by lia. rewrite Hd. reflexivity.
Qed.
End udp.
