(* ===== verification/NetworkDhcp.v ===== *)
(** * Configuration of the host

    The message the DHCP client sends, the options of the messages it
    receives, and how a datagram reaches it. *)

From S2P Require Import Prelude CString Bytes Vector PageFrame PageFrameSpec Network NetworkWire NetworkSpec NetworkArp NetworkUdp.

Local Open Scope Z_scope.

(** ** Writing into zeroed memory *)

Definition zeros (k : nat) : list Z := replicate k 0.

Lemma zeros_add j k : zeros (j + k) = zeros j ++ zeros k.
Proof. apply replicate_add. Qed.

Lemma store_zeros n pre off m v : off = length pre -> (n <= m)%nat ->
  store n (pre ++ zeros m) off v = Ok ((pre ++ le n v) ++ zeros (m - n)).
Proof.
  intros -> Hm. rewrite wire_store_ok by (rewrite length_app; unfold zeros; rewrite length_replicate; lia).
  rewrite take_app_length, drop_app_ge by lia. replace (length pre + n - length pre)%nat with n by lia.
  unfold zeros. by rewrite drop_replicate, app_assoc.
Qed.

Lemma memcpy_zeros pre off m src n : off = length pre -> (Z.to_nat n <= m)%nat -> (Z.to_nat n <= length src)%nat ->
  memcpy_to (pre ++ zeros m) off src n = Ok ((pre ++ take (Z.to_nat n) src) ++ zeros (m - Z.to_nat n)).
Proof.
  intros -> Hm Hs. rewrite memcpy_to_ok by (rewrite ?length_app; unfold zeros; rewrite ?length_replicate; lia).
  rewrite take_app_length, drop_app_ge by lia. replace (length pre + Z.to_nat n - length pre)%nat with (Z.to_nat n) by lia.
  unfold zeros. by rewrite drop_replicate, app_assoc.
Qed.

Lemma put_all_zeros l : forall pre off m, off = length pre -> (length l <= m)%nat ->
  put_all (pre ++ zeros m) off l = Ok ((pre ++ (u8 <$> l)) ++ zeros (m - length l)).
Proof.
  induction l as [|x l IH]; intros pre off m -> Hm; cbn [put_all length] in *; [by rewrite app_nil_r, Nat.sub_0_r|].
  destruct m as [|m]; [lia|]. change (zeros (S m)) with (0 :: zeros m). rewrite (aset_app_r pre _ 0) by done. cbn [bind].
  replace (pre ++ u8 x :: zeros m) with ((pre ++ [u8 x]) ++ zeros m) by (by rewrite <- app_assoc).
  rewrite IH by (rewrite ?length_app; simpl; lia). by rewrite <- (app_assoc pre [u8 x]).
Qed.

Lemma put_all_oob l : forall P off, (off <= length P < off + length l)%nat -> put_all P off l = Err OutOfBounds.
Proof.
  induction l as [|x l IH]; intros P off Hl; cbn [put_all length] in *; [lia|].
  destruct (decide (off < length P)%nat) as [Ho|Ho]; [|by rewrite aset_oob by lia].
  rewrite aset_Ok by done. cbn [bind]. apply IH. rewrite length_insert. lia.
Qed.

(** Copying past the end of the destination. *)
Lemma memcpy_loop_past_end c : forall k d i, (i <= length d < i + k)%nat -> (i + k <= length c)%nat -> memcpy_loop d c i k = Err OutOfBounds.
Proof.
  induction k as [|k IH]; intros d i Hd Hc; cbn [memcpy_loop]; [lia|].
  destruct (lookup_lt_is_Some_2 c i ltac:(lia)) as [x Hx]. rewrite (proj2 (aget_Ok _ _ _) Hx). cbn [bind].
  destruct (decide (i < length d)%nat); [|by rewrite aset_oob by lia].
  rewrite aset_Ok by done. cbn [bind]. apply IH; [rewrite length_insert; lia|lia].
Qed.

Lemma memcpy_to_oob b off src n : (off <= length b < off + Z.to_nat n)%nat -> (Z.to_nat n <= length src)%nat ->
  memcpy_to b off src n = Err OutOfBounds.
Proof. intros Hb Hs. unfold memcpy_to, memcpy. by rewrite memcpy_loop_past_end by (rewrite ?length_drop; lia). Qed.

(** ** The message of the client *)

Section message.
Context `{NetHardware}.

(** The part before the name of the host. *)
Definition dhcp_head (mac : MediaAccessControl) (MessageType RequestIP : Z) : list Z :=
  [1; 1; 6; 0] ++ be 4 DHCP_TRANSACTION_ID ++ zeros 2 ++ be 2 0x40 ++ zeros 16 ++ mac_bytes mac ++ zeros 202 ++
  be 4 0x63825363 ++ [53; 1; u8 MessageType; 61; 7; 1] ++ mac_bytes mac ++ [50; 4] ++ le 4 RequestIP.

Definition dhcp_message (mac : MediaAccessControl) (MessageType RequestIP : Z) : list Z :=
  dhcp_head mac MessageType RequestIP ++ [12; u8 (1 + Z.of_nat (length KERNEL_NAME))] ++ KERNEL_NAME ++
  [0; 55; 8; 1; 3; 6; 15; 44; 46; 47; 57; 255] ++ zeros (28 - length KERNEL_NAME).

Lemma bytes_of_uint48_ok a : mac_ok a -> bytes_of_uint48 (b48 (MAC_ToHex a)) = Ok (mac_bytes a ++ [0; 0]).
Proof.
  intros Ha. unfold bytes_of_uint48. change (replicate 8 0) with ([] ++ zeros 8). rewrite store_zeros by done. cbn [app].
  change (zeros (8 - 8)) with (@nil Z). rewrite app_nil_r. f_equal.
  assert (forall x, le 8 x = le 6 x ++ le 2 (x / 2 ^ 48)) as E by (intros x; cbn [le app]; rewrite !Z.div_div by lia; done).
  rewrite E, Z.div_small by apply b48_range. by rewrite le_b48, be_MAC.
Qed.

Lemma memcpy_mac pre off m a : off = length pre -> (8 <= m)%nat ->
  memcpy_to (pre ++ zeros m) off (mac_bytes a ++ [0; 0]) 8 = Ok ((pre ++ mac_bytes a) ++ zeros (m - 6)).
Proof.
  intros Ho Hm. rewrite memcpy_zeros by (done || simpl; lia). change (Z.to_nat 8) with 8%nat. rewrite take_ge by done.
  replace (m - 6)%nat with (2 + (m - 8))%nat by lia. rewrite zeros_add. by rewrite <- !app_assoc.
Qed.

Lemma store_over n pre off k v w : off = length pre -> store n ((pre ++ le n v) ++ k) off w = Ok ((pre ++ le n w) ++ k).
Proof.
  intros ->. rewrite <- app_assoc. rewrite wire_store_ok by (rewrite !length_app, length_le; lia).
  rewrite take_app_length, drop_app_ge by lia. replace (length pre + n - length pre)%nat with n by lia.
  rewrite drop_app_length' by (by rewrite length_le). by rewrite app_assoc.
Qed.

Lemma length_dhcp_head mac t ip : length (dhcp_head mac t ip) = 258%nat.
Proof. done. Qed.

(** Appends what a store into the zeros leaves to what was written. *)
Ltac next :=
  first [ rewrite memcpy_mac by (done || (cbn [length]; lia)) | rewrite store_zeros by (done || (cbn [length]; lia))
        | rewrite put_all_zeros by (done || (cbn [length]; lia)) ]; cbn [bind].

(** Leaves zeros behind. *)
Ltac skip k := match goal with |- context [?pre ++ zeros ?m] =>
  let m' := eval vm_compute in (m - k)%nat in
  change (pre ++ zeros m) with (pre ++ zeros (k + m')); rewrite (zeros_add k m'), (app_assoc pre) end.

Lemma DHCP_CreatePacket_ok n t ip : mac_ok (dev_MAC (Interface n)) ->
  DHCP_CreatePacket n (replicate 300 0) t ip =
    if decide (length KERNEL_NAME <= 28)%nat then Ok (dhcp_message (dev_MAC (Interface n)) t ip) else Err OutOfBounds.
Proof.
  intros Hm. unfold DHCP_CreatePacket, off_Opcode, off_dhcp_HardwareType, off_HardwareAddressLength, off_Hops, off_TransactionID,
    off_Flags, off_ClientHardwareAddress, off_Options. rewrite bytes_of_uint48_ok by done. set (mac := mac_bytes _).
  change (replicate 300 0) with ([] ++ zeros 300). do 5 next. skip 2%nat. next. skip 16%nat.
  unfold mac at 1. next. skip 202%nat. next. next. unfold mac. do 3 next. rewrite store_over by done. cbn [bind].
  next. match goal with |- context [?pre ++ zeros ?m] => set (P := pre); change m with 40%nat end.
  assert (length P = 260%nat) as HP by done. set (k := length KERNEL_NAME).
  change (236 + 4 + 6 + 6 + 2 + 4 + 2)%nat with 260%nat. destruct (decide (k <= 40)%nat) as [Hk|Hk].
  - rewrite memcpy_zeros by (rewrite ?Nat2Z.id; done). rewrite Nat2Z.id. unfold k at 1. rewrite firstn_all. cbn [bind].
    case_decide as Hd.
    + rewrite put_all_zeros by (rewrite ?length_app; cbn [length]; unfold k in *; lia). f_equal.
      replace (40 - k - length _)%nat with (28 - length KERNEL_NAME)%nat by (cbn [length]; unfold k in *; lia).
      unfold dhcp_message, dhcp_head. rewrite <- !le_b32, <- le_b16. unfold P. rewrite <- !app_assoc. reflexivity.
    + rewrite put_all_oob; [done|]. rewrite !length_app. unfold zeros. rewrite length_replicate. cbn [length]. unfold k in *. lia.
  - rewrite decide_False by (unfold k in *; lia). rewrite memcpy_to_oob; [done| |unfold k; lia].
    rewrite length_app. unfold zeros. rewrite length_replicate. unfold k in *. lia.
Qed.
End message.

(** ** Options *)

(** Options as they follow the first 240 bytes of a message. *)
Definition encode_options (opts : list (Z * list Z)) : list Z :=
  mjoin ((fun o => o.1 :: Z.of_nat (length o.2) :: o.2) <$> opts).

(** A type that ends the options is not one of them; a length is a byte. *)
Definition option_ok (o : Z * list Z) : Prop := o.1 <> 255 /\ (length o.2 < 256)%nat.

Definition find_option (opts : list (Z * list Z)) (t : Z) : option (list Z) :=
  snd ∘ snd <$> list_find (fun o => o.1 = t) opts.

(** A message: what is before the options, the options, and what follows them. *)
Definition with_options (head : list Z) (opts : list (Z * list Z)) (rest : list Z) : list Z :=
  head ++ encode_options opts ++ 255 :: rest.

Lemma find_option_cons o opts t : find_option (o :: opts) t = if decide (o.1 = t) then Some o.2 else find_option opts t.
Proof.
  unfold find_option. simpl. case_decide; [done|]. by destruct (list_find _ opts) as [[]|].
Qed.

Lemma aget_app_at {A} (l k : list A) i j : i = (length l + j)%nat -> aget (l ++ k) i = aget k j.
Proof. intros ->. unfold aget. rewrite lookup_app_r by lia. by replace (length l + j - length l)%nat with j by lia. Qed.

Lemma option_loop_ok t opts : forall head rest fuel, Forall option_ok opts -> (length opts < fuel)%nat ->
  exists r, option_loop (with_options head opts rest) t (length head) fuel = Ok r /\
    match find_option opts t with
    | None => r = None
    | Some d => exists p k, r = Some p /\ drop p (with_options head opts rest) = d ++ k
    end.
Proof.
  induction opts as [|[ty d] opts IH]; intros head rest fuel Hok Hf; (destruct fuel as [|fuel]; [simpl in Hf; lia|]); cbn [option_loop].
  - unfold with_options, encode_options. cbn [fmap list_fmap mjoin list_join app]. rewrite (aget_app_at head _ _ 0) by lia. by exists None.
  - apply Forall_cons in Hok as [[Hty Hd] Hok]. cbn [fst snd length] in *. rewrite find_option_cons. cbn [fst snd].
    assert (with_options head ((ty, d) :: opts) rest = with_options (head ++ ty :: Z.of_nat (length d) :: d) opts rest) as E.
    { unfold with_options, encode_options. cbn [fmap list_fmap mjoin list_join app fst snd]. by rewrite <- !app_assoc. }
    set (W := with_options head ((ty, d) :: opts) rest) in *.
    assert (W = head ++ ty :: Z.of_nat (length d) :: d ++ encode_options opts ++ 255 :: rest) as EW.
    { rewrite E. unfold with_options. by rewrite <- app_assoc. }
    assert (aget W (length head) = Ok ty) as -> by (rewrite EW; by rewrite (aget_app_at head _ _ 0) by lia).
    assert (aget W (length head + 1) = Ok (Z.of_nat (length d))) as -> by (rewrite EW; by rewrite (aget_app_at head _ _ 1) by lia).
    cbn [bind]. rewrite decide_False by done. destruct (decide (ty = t)) as [Ht|Ht].
    + eexists. split; [reflexivity|]. exists (length head + 2)%nat, (encode_options opts ++ 255 :: rest). split; [done|].
      rewrite EW, drop_app_ge by lia. by replace (length head + 2 - length head)%nat with 2%nat by lia.
    + destruct (IH (head ++ ty :: Z.of_nat (length d) :: d) rest fuel Hok ltac:(lia)) as (r & Er & Hr). exists r. rewrite E. split; [|done].
      rewrite <- Er, Nat2Z.id, length_app. cbn [length]. f_equal. lia.
Qed.

Lemma length_encode_options opts : (length opts <= length (encode_options opts))%nat.
Proof.
  induction opts as [|o opts IH]; [done|]. change (encode_options (o :: opts)) with ((o.1 :: Z.of_nat (length o.2) :: o.2) ++ encode_options opts).
  rewrite length_app. simpl. lia.
Qed.

(** What [GetOption] returns for a message with a head of 240 bytes. *)
Lemma GetOption_ok head opts rest t : length head = 240%nat -> Forall option_ok opts ->
  exists r, DHCP_GetOption (with_options head opts rest) t = Ok r /\
    match find_option opts t with
    | None => r = None
    | Some d => exists p k, r = Some p /\ drop p (with_options head opts rest) = d ++ k
    end.
Proof.
  intros Hh Hok. unfold DHCP_GetOption. change (off_Options + 4)%nat with 240%nat. rewrite <- Hh. apply option_loop_ok; [done|].
  unfold with_options. rewrite !length_app. pose proof (length_encode_options opts). simpl. lia.
Qed.

(** An address in the first four bytes of an option; it is reversed. *)
Lemma address_option_ok head opts rest t a k : length head = 240%nat -> Forall option_ok opts -> ip_ok a ->
  find_option opts t = Some (ip_bytes a ++ k) -> address_option (with_options head opts rest) t = Ok (rev_IP a).
Proof.
  intros Hh Hok Ha Hf. unfold address_option. destruct (GetOption_ok head opts rest t Hh Hok) as (r & -> & Hr). rewrite Hf in Hr.
  destruct Hr as (p & k' & -> & Hd). cbn [bind nonnull]. rewrite wire_load_ok.
  - cbn [bind]. rewrite Hd, <- app_assoc. f_equal. apply ip_bytes_inj. rewrite (take_app_length' (ip_bytes a)) by done.
    by rewrite IP_FromHex_wire.
  - pose proof (f_equal length Hd) as Hl. rewrite length_drop, !length_app in Hl. simpl in Hl. lia.
Qed.

Lemma address_option_none head opts rest t : length head = 240%nat -> Forall option_ok opts ->
  find_option opts t = None -> address_option (with_options head opts rest) t = Err NullDeref.
Proof.
  intros Hh Hok Hf. unfold address_option. destruct (GetOption_ok head opts rest t Hh Hok) as (r & -> & Hr). rewrite Hf in Hr. by subst r.
Qed.

(** ** Datagrams that arrive *)

(** The stack with the client of [StartNetworkStack] as its only socket. *)
Record client_ok (n : net) (l : list DiscoveredAddress) : Prop := {
  cl_stack : stack_ok n l;
  cl_macs : macs_ok l;
  cl_events : exists p, Vector.elements (UDPEvents n) = Ok [mk_EventInfo (Some 0%nat) p];
  cl_socket : exists ip, sockets n = [mk_Socket ip (b16 68) bcast_IP (b16 67) false DHCPObject];
  cl_dhcp : dhcp_UDPSocket (dhcp n) = Some 0%nat;
  cl_mask : SubnetworkMaskIP n = bcast_IP
}.

(** [IPv4] takes packets to [dst]. *)
Definition accepts (n : net) (dst : InternetProtocol4) : Prop :=
  ip_ok dst /\ (le_value (ip_bytes dst) = IP_ToHex (dev_IP (Interface n)) \/ dst = bcast_IP \/ dev_IP (Interface n) = zero_IP).

(** A datagram in a packet in a frame, with padding. *)
Record datagram := mk_datagram {
  d_dst : MediaAccessControl; d_src : MediaAccessControl;
  d_from : InternetProtocol4; d_to : InternetProtocol4;
  d_sp : Z; d_dp : Z;
  d_body : list Z;
  d_pad : list Z
}.

Definition datagram_packet (d : datagram) : list Z :=
  ip_packet PROTOCOL_UDP (d_from d) (d_to d) (udp_datagram (be 2 (d_sp d)) (be 2 (d_dp d)) (d_body d)) ++ d_pad d.
Definition datagram_frame (d : datagram) : list Z := eth_frame (d_dst d) (d_src d) TYPE_IPV4 (datagram_packet d).

Lemma length_datagram_frame d : length (datagram_frame d) = (42 + length (d_body d) + length (d_pad d))%nat.
Proof.
  unfold datagram_frame, datagram_packet, eth_frame, ip_packet, udp_datagram. rewrite !length_app, length_ip_header, !length_be. simpl. lia.
Qed.

Definition datagram_ok (n : net) (d : datagram) : Prop :=
  for_us n (d_dst d) /\ accepts n (d_to d) /\ ip_ok (d_from d) /\ Z.of_nat (length (d_body d) + length (d_pad d)) < 4096 - 28.

Lemma udp_length x y L : 0 <= x < 16 -> 0 <= y < 256 -> 28 <= L < 2 ^ 64 ->
  8 <= u64 ((if decide (L < x + 256 * y) then L else x + 256 * y) - 20).
Proof.
  intros Hx Hy HL. case_decide; [rewrite wrapu_small by lia; lia|].
  destruct (decide (y = 0)) as [->|Hy0]; [|rewrite wrapu_small by lia; lia].
  unfold wrapu. replace (x + 256 * 0 - 20) with (x - 20 + 2 ^ 64 + (-1) * 2 ^ 64) by lia.
  rewrite Z.mod_add, Z.mod_small by lia. lia.
Qed.

Section reception.
Context `{HL : NetHardwareLaws}.

(** The client gets every datagram, whatever its ports. *)
Lemma UDP_received n l src dst sp dp body Length : client_ok n l -> length sp = 2%nat -> length dp = 2%nat -> 8 <= Length ->
  UDP_OnIPv4PacketReceived in_interrupt n src dst (sp ++ dp ++ body) Length =
    let* n := DHCP_OnUDPPacketReceived in_interrupt n (drop 4 body) in Ok (n, false).
Proof.
  intros Hc Hs Hd Hlen. unfold UDP_OnIPv4PacketReceived. change sizeof_UDPHeader with 8. rewrite decide_False by lia.
  unfold off_SourcePort, off_DestinationPort. rewrite !wire_load_ok by (rewrite !length_app; lia). cbn [bind].
  destruct (cl_events _ _ Hc) as [p ->], (cl_socket _ _ Hc) as [ip Es]. cbn [bind udp_sockets nonnull UDPSocket]. rewrite Es.
  cbn [aget lookup list_lookup bind Listening]. rewrite andb_false_r. cbn [udp_sockets bind].
  cbn [aget lookup list_lookup bind EventHandler].
  assert (drop 8 (sp ++ dp ++ body) = drop 4 body) as ->; [|done].
  rewrite !drop_app_ge by lia. f_equal. lia.
Qed.

Lemma packet_received n l d Length : client_ok n l -> accepts n (d_to d) -> ip_ok (d_from d) ->
  Z.of_nat (length (d_body d) + length (d_pad d)) < 4096 - 28 -> 28 <= Length < 2 ^ 64 ->
  IPv4_OnEthernetPacketReceived in_interrupt n (datagram_packet d) Length =
    let* n := DHCP_OnUDPPacketReceived in_interrupt n (d_body d ++ d_pad d) in Ok (n, datagram_packet d, false).
Proof.
  intros Hc [Hto Hacc] Hfrom Hlen HL'. pose proof (cl_stack _ _ Hc) as Hn. unfold IPv4_OnEthernetPacketReceived.
  change sizeof_IPv4Header with 20. rewrite decide_False by lia.
  set (u := udp_datagram (be 2 (d_sp d)) (be 2 (d_dp d)) (d_body d)).
  assert (exists c1 c2 x y, datagram_packet d = [0x45; 0; x; y; 0; 0; 0; 0; 64; PROTOCOL_UDP; c1; c2] ++ ip_bytes (d_from d) ++ ip_bytes (d_to d) ++ u ++ d_pad d /\
    0 <= x < 16 /\ 0 <= y < 256) as (c1 & c2 & x & y & E & Hx & Hy).
  { unfold datagram_packet, ip_packet. fold u. eexists _, _, _, _. split; [unfold ip_header, be; cbn [le rev app]; by rewrite <- !app_assoc|].
    assert (length u = 8 + length (d_body d))%nat as -> by (unfold u, udp_datagram; rewrite !length_app, !length_be; simpl; lia).
    split; [|apply Z.mod_pos_bound; lia]. rewrite Z.mod_small.
    - split; [apply Z.div_pos; lia|]. apply Z.div_lt_upper_bound; lia.
    - split; [apply Z.div_pos; lia|]. apply Z.div_lt_upper_bound; lia. }
  rewrite E. unfold ip_bytes in *. cbn [app]. unfold off_DestinationIP, off_TotalLength, off_IHL_Version, off_Protocol, off_SourceIP.
  rewrite !wire_load_ok by (cbn [length]; lia). cbn [bind take drop]. rewrite take_0.
  rewrite decide_True.
  2:{ destruct Hacc as [Ha|[->| ->]]; [by left|by right; left|by right; right]. }
  rewrite (st_ipv4 _ _ Hn). unfold aget at 1 2. cbn [lookup list_lookup bind]. change (Z.land 0x45 15) with 5. change (4 * 5) with 20.
  change (Z.to_nat 20) with 20%nat. cbn [drop ip_events ip_GetProtocol]. rewrite decide_True by done.
  assert (u ++ d_pad d = be 2 (d_sp d) ++ be 2 (d_dp d) ++ be 2 (8 + Z.of_nat (length (d_body d))) ++ [0; 0] ++ d_body d ++ d_pad d) as ->.
  { unfold u, udp_datagram. by rewrite <- !app_assoc. }
  rewrite drop_0, (UDP_received n l) by (try done; change (le_value [x; y]) with (x + 256 * (y + 256 * 0)); rewrite Z.mul_0_r, Z.add_0_r; by apply udp_length).
  rewrite drop_app_ge by (rewrite length_be; lia). rewrite length_be. cbn [Nat.sub]. change (drop 2 ([0; 0] ++ ?k)) with k.
  by destruct (DHCP_OnUDPPacketReceived in_interrupt n (d_body d ++ d_pad d)).
Qed.

Lemma datagram_received n l d : client_ok n l -> datagram_ok n d ->
  NetworkInterface_Receive in_interrupt n (datagram_frame d) (Z.of_nat (length (datagram_frame d))) =
    DHCP_OnUDPPacketReceived in_interrupt n (d_body d ++ d_pad d).
Proof.
  intros Hc (Hus & [Hto Hacc] & Hfrom & Hlen). pose proof (cl_stack _ _ Hc) as Hn. unfold NetworkInterface_Receive.
  rewrite (st_interface _ _ Hn). cbn [bind interface_events]. set (f := datagram_frame d).
  destruct (frame_fields (d_dst d) (d_src d) TYPE_IPV4 (datagram_packet d) ltac:(apply Hus) ltac:(done))
    as ((x1 & E1) & (x2 & E2 & Hx2) & (x3 & E3 & Hx3) & Hd).
  unfold Ethernet_Receive. change (eth_frame (d_dst d) (d_src d) TYPE_IPV4 (datagram_packet d)) with f in *.
  rewrite E1, E2. cbn [bind]. rewrite (accepted n (d_dst d)) by (done || apply Hn). rewrite E3, (st_ethernet _ _ Hn). cbn [bind]. rewrite Hx3.
  rewrite decide_True by (by left). rewrite Hd. cbn [ethernet_events ee_Type]. rewrite decide_False, decide_True by done. cbn [on_packet ee_Ptr].
  rewrite (packet_received n l d) by (done || (unfold f; rewrite length_datagram_frame; lia)).
  destruct (DHCP_OnUDPPacketReceived in_interrupt n (d_body d ++ d_pad d)) as [n'|e]; [|done]. cbn [bind ethernet_events ee_Type].
  done.
Qed.

(** ** The client *)

(** What the client sends. *)
Definition client_frame (n : net) (MessageType RequestIP : Z) : list Z :=
  eth_frame bcast_MAC (dev_MAC (Interface n)) TYPE_IPV4
    (ip_packet PROTOCOL_UDP (dev_IP (Interface n)) bcast_IP
      (udp_datagram (be 2 68) (be 2 67) (dhcp_message (dev_MAC (Interface n)) MessageType RequestIP))).

Lemma length_dhcp_message mac t ip : (length KERNEL_NAME <= 28)%nat -> length (dhcp_message mac t ip) = 300%nat.
Proof.
  intros Hk. unfold dhcp_message, zeros. rewrite !length_app, length_dhcp_head, length_replicate. simpl. lia.
Qed.

Lemma request_packet_ok sleep n l t ip : client_ok n l -> (length KERNEL_NAME <= 28)%nat ->
  sends n (request_packet sleep n t ip) [client_frame n t ip].
Proof.
  intros Hc Hk. pose proof (cl_stack _ _ Hc) as Hn. unfold request_packet. rewrite DHCP_CreatePacket_ok by apply Hn.
  rewrite decide_True by done. rewrite (cl_dhcp _ _ Hc). cbn [bind nonnull]. destruct (cl_socket _ _ Hc) as [ip0 Es].
  pose proof (length_dhcp_message (dev_MAC (Interface n)) t ip Hk) as Hlen.
  destruct (UDP_Send_ok sleep n l 0 (mk_Socket ip0 (b16 68) bcast_IP (b16 67) false DHCPObject)
    (dhcp_message (dev_MAC (Interface n)) t ip) sizeof_DHCPHeader bcast_MAC) as (p & k & Hp & E);
    [done|apply Hc|by rewrite Es|apply bcast_IP_ok| |done|rewrite Hlen; done|].
  - left. split; [|done]. unfold route. rewrite (cl_mask _ _ Hc). by destruct (decide _).
  - exists p, k. split; [done|]. rewrite E. cbn [LocalPort RemotePort RemoteIP]. rewrite take_ge by (rewrite Hlen; done).
    by rewrite !le_b16.
Qed.

Lemma message_type head opts rest t k : length head = 240%nat -> Forall option_ok opts -> find_option opts 53 = Some (t :: k) ->
  exists p, DHCP_GetOption (with_options head opts rest) 53 = Ok (Some p) /\ aget (with_options head opts rest) p = Ok t.
Proof.
  intros Hh Hok Hf. destruct (GetOption_ok head opts rest 53 Hh Hok) as (r & E & Hr). rewrite Hf in Hr. destruct Hr as (p & k' & -> & Hd).
  exists p. split; [done|]. apply aget_Ok. rewrite <- (Nat.add_0_r p), <- lookup_drop, Hd. done.
Qed.

Lemma your_ip head opts rest yi : length head = 240%nat -> ip_ok yi -> take 4 (drop 16 head) = ip_bytes yi ->
  exists v, load 4 (with_options head opts rest) off_YourIP = Ok v /\ IP_FromHex v = rev_IP yi.
Proof.
  intros Hh Hyi Ht. eexists. unfold off_YourIP, with_options. rewrite wire_load_ok by (rewrite length_app; lia). split; [done|].
  rewrite drop_app_le by lia. rewrite take_app_le by (rewrite length_drop; lia). rewrite Ht. apply ip_bytes_inj.
  by rewrite IP_FromHex_wire.
Qed.

(** An offer: the client asks for the address. *)
Lemma offer_received sleep n head opts rest yi k : length head = 240%nat -> Forall option_ok opts -> ip_ok yi ->
  find_option opts 53 = Some (2 :: k) -> take 4 (drop 16 head) = ip_bytes yi ->
  DHCP_OnUDPPacketReceived sleep n (with_options head opts rest) = request_packet sleep n 3 (le_value (ip_bytes yi)).
Proof.
  intros Hh Hok Hyi Hf Ht. unfold DHCP_OnUDPPacketReceived. destruct (message_type head opts rest 2 k Hh Hok Hf) as (p & -> & Hp).
  cbn [bind nonnull]. rewrite Hp. cbn [bind]. rewrite decide_True by done.
  destruct (your_ip head opts rest yi Hh Hyi Ht) as (v & -> & Ev). cbn [bind]. rewrite Ev. unfold DHCP_Request_IP. f_equal.
  by rewrite IP_ToHex_value by by apply rev_IP_ok.
Qed.

(** What the client keeps of an acknowledgement. *)
Definition leased (n : net) (yi gw dns mask : InternetProtocol4) : DHCP :=
  mk_DHCP (dhcp_UDPSocket (dhcp n)) true (rev_IP yi) (rev_IP gw) (rev_IP mask) (rev_IP dns).

Lemma ack_received sleep n head opts rest yi k gw dns mask k3 k6 k1 : length head = 240%nat -> Forall option_ok opts ->
  ip_ok yi -> ip_ok gw -> ip_ok dns -> ip_ok mask ->
  find_option opts 53 = Some (5 :: k) -> take 4 (drop 16 head) = ip_bytes yi ->
  find_option opts 3 = Some (ip_bytes gw ++ k3) -> find_option opts 6 = Some (ip_bytes dns ++ k6) ->
  find_option opts 1 = Some (ip_bytes mask ++ k1) ->
  DHCP_OnUDPPacketReceived sleep n (with_options head opts rest) = Ok (set_dhcp (leased n yi gw dns mask) n).
Proof.
  intros Hh Hok Hyi Hgw Hdns Hmask Hf Ht H3 H6 H1. unfold DHCP_OnUDPPacketReceived. destruct (message_type head opts rest 5 k Hh Hok Hf) as (p & -> & Hp).
  cbn [bind nonnull]. rewrite Hp. cbn [bind]. rewrite decide_False, decide_True by done.
  destruct (your_ip head opts rest yi Hh Hyi Ht) as (v & -> & Ev). cbn [bind]. rewrite Ev.
  rewrite (address_option_ok head opts rest 3 gw k3), (address_option_ok head opts rest 6 dns k6), (address_option_ok head opts rest 1 mask k1) by done.
  done.
Qed.
End reception.
