(* ===== verification/NetworkTheorems.v ===== *)
(** * Theorems on the network stack

    The checksum, the cache of addresses and the wait for an answer, the
    frames that datagrams become, the options of DHCP and the way to a lease. *)

From S2P Require Import Prelude CString Bytes Vector PageFrame PageFrameSpec Network NetworkWire NetworkSpec NetworkArp NetworkUdp NetworkDhcp.

Local Open Scope Z_scope.

(** ** The checksum *)

Lemma sign_error_even l : Nat.even (length l) = true -> sign_error l = 0.
Proof. intros He. unfold sign_error. rewrite <- Nat.negb_even, He. rewrite decide_False; [done|]. by intros [[=] _]. Qed.

Lemma b16_inj x y : 0 <= x < 2 ^ 16 -> 0 <= y < 2 ^ 16 -> b16 x = b16 y -> x = y.
Proof.
  intros Hx Hy E. assert (be 2 x = be 2 y) as Hb by (by rewrite <- !le_b16, E).
  rewrite <- (Z.mod_small x (256 ^ Z.of_nat 2)), <- (Z.mod_small y (256 ^ Z.of_nat 2)) by done.
  by rewrite <- !(le_value_rev_be 2), Hb.
Qed.

Lemma fold16_mod s : 0 < s -> fold16 s mod 65535 = s mod 65535.
Proof.
  intros Hs. unfold fold16. rewrite decide_False by lia. rewrite Zplus_mod_idemp_l. f_equal. lia.
Qed.

Lemma fold16_complement s : 0 <= s -> fold16 (s + (65535 - fold16 s)) = 65535.
Proof.
  intros Hs. destruct (decide (s = 0)) as [->|Hn]; [done|]. unfold fold16. rewrite (decide_False (P := s = 0)) by done.
  pose proof (Z.mod_pos_bound (s - 1) 65535 ltac:(lia)). rewrite decide_False by lia.
  pose proof (Z.div_mod (s - 1) 65535 ltac:(lia)) as E.
  replace (s + (65535 - ((s - 1) mod 65535 + 1)) - 1) with (65534 + ((s - 1) / 65535) * 65535) by lia.
  by rewrite Z.mod_add.
Qed.

Lemma fold16_sign_error s : 0 < s -> fold16 (s + 0xFF0000) <> fold16 s.
Proof.
  intros Hs E. apply (f_equal (fun x => x mod 65535)) in E. rewrite !fold16_mod in E by lia.
  replace (s + 0xFF0000) with (s + 255 + 255 * 65535) in E by lia. rewrite Z.mod_add in E by lia.
  pose proof (Z.div_mod s 65535 ltac:(lia)) as E1. pose proof (Z.div_mod (s + 255) 65535 ltac:(lia)) as E2. nia.
Qed.

Lemma words_sum_last l : bytes_ok l -> l <> [] -> List.last l 0 <= words_sum l.
Proof.
  enough (forall k l, (length l <= k)%nat -> bytes_ok l -> l <> [] -> List.last l 0 <= words_sum l) as Hg by (intros; by apply (Hg (length l))).
  clear l. intros k. induction k as [|k IH]; intros l Hk Hl Hne; [destruct l; [done|simpl in Hk; lia]|].
  destruct l as [|x [|y l]]; [done| |]; apply Forall_cons in Hl as [Hx Hl]; [simpl; lia|]. apply Forall_cons in Hl as [Hy Hl].
  cbn [words_sum]. destruct l as [|z l]; [simpl; lia|]. change (List.last (x :: y :: z :: l) 0) with (List.last (z :: l) 0).
  pose proof (IH (z :: l) ltac:(simpl in *; lia) Hl ltac:(done)). lia.
Qed.

(** C35 The checksum of any bytes of a packet is the one's complement of their
    one's complement sum, in network byte order, exactly if the number of bytes
    is even or the last one is below 128; and data followed by its checksum
    sum up to 0xFFFF, as receivers test. *)
Theorem checksum_correct l suf : bytes_ok l -> Z.of_nat (length l) < 2 ^ 16 - 2 ^ 8 ->
  (CalculateChecksum (l ++ suf) (Z.of_nat (length l)) = Ok (b16 (inet_checksum l)) <->
     Nat.even (length l) = true \/ List.last l 0 < 128) /\
  (Nat.even (length l) = true -> fold16 (words_sum (l ++ be 2 (inet_checksum l))) = 0xFFFF).
Proof.
  intros Hl Hn. pose proof (words_sum_range l Hl) as Hs. rewrite CalculateChecksum_ok by done. split.
  - unfold inet_checksum. split.
    + intros [= E]. destruct (Nat.even (length l)) eqn:He; [by left|]. right. destruct (decide (List.last l 0 < 128)) as [|H128]; [done|].
      exfalso. assert (sign_error l = 0xFF0000) as Hse by (unfold sign_error; rewrite <- Nat.negb_even, He, decide_True; [done|split; [done|lia]]).
      rewrite Hse in E. pose proof (words_sum_last l Hl ltac:(by intros ->)).
      pose proof (fold16_range (words_sum l) ltac:(lia)). pose proof (fold16_range (words_sum l + 0xFF0000) ltac:(lia)).
      apply b16_inj in E; [|lia..]. apply (fold16_sign_error (words_sum l)); lia.
    + intros Hor. assert (sign_error l = 0) as ->; [|by rewrite Z.add_0_r]. destruct Hor as [He|Hlt]; [by apply sign_error_even|].
      unfold sign_error. rewrite decide_False; [done|]. lia.
  - intros He. rewrite words_sum_app by done. pose proof (fold16_range (words_sum l) ltac:(lia)) as Hf.
    assert (words_sum (be 2 (inet_checksum l)) = inet_checksum l) as ->; [|by apply fold16_complement; lia].
    unfold inet_checksum. unfold be. cbn [le rev app words_sum]. set (c := 65535 - _). pose proof (Z.div_mod c 256 ltac:(lia)).
    rewrite (Z.mod_small (c / 256)); [lia|]. split; [apply Z.div_pos; lia|]. apply Z.div_lt_upper_bound; lia.
Qed.

Lemma checksum_correct_witness : CalculateChecksum [0x45; 0; 0; 0x73] 4 = Ok (b16 (inet_checksum [0x45; 0; 0; 0x73])).
Proof.
  destruct (checksum_correct [0x45; 0; 0; 0x73] []) as [H _]; [unfold bytes_ok; bytes|reflexivity|].
  apply H. left. reflexivity.
Defined.

Example checksum_sign : CalculateChecksum [0x80] 1 = Ok (b16 0x7F00) /\ inet_checksum [0x80] = 0x7FFF.
Proof. vm_compute. by split. Qed.

(** ** Samples *)

(** Fresh memory is not clear; the name of the kernel is "Fennix". *)
Definition sample_hardware : NetHardware :=
  {| fresh := fun _ s => replicate (Z.to_nat s) 0xAA; KERNEL_NAME := [70; 101; 110; 110; 105; 120] |}.

Lemma sample_hardware_laws : @NetHardwareLaws sample_hardware.
Proof. constructor. intros k s. apply length_replicate. Qed.

Definition sample_device : DeviceInterface := mk_dev (mk_MAC 0x52 0x54 0 0x12 0x34 0x56) (mk_IP 10 0 2 15).

Lemma sample_pages : mem_ok sample_pfa.
Proof.
  destruct sample_pfa_ok as (Hp & _ & Hs). split_and!; [done|done|]. exists 5. split; [by vm_compute|].
  split_and!; [lia|by vm_compute|]. intros j Hj. assert (j = 5) as -> by lia. reflexivity.
Qed.

Lemma sample_device_ok : mac_ok (dev_MAC sample_device) /\ ip_ok (dev_IP sample_device).
Proof. split; unfold mac_ok, ip_ok, bytes_ok, mac_bytes, ip_bytes; simpl; bytes. Qed.

(** What [StartNetworkStack] sets up. *)
Lemma create_stack_ok dev p arr : mem_ok p -> mac_ok (dev_MAC dev) -> ip_ok (dev_IP dev) ->
  exists n, create_stack (net_new dev p arr) = Ok n /\ client_ok n [] /\ Interface n = dev /\ KernelAllocator n = p /\
    frames n = [] /\ arrivals n = arr /\ Received (dhcp n) = false.
Proof.
  intros Hp Hm Hi.
  match goal with |- exists n, ?c = _ /\ _ => let x := eval vm_compute in c in
    match x with Ok ?n => exists n; split; [vm_compute; reflexivity|] end end.
  split; [|done]. split; [|constructor|by eexists|by eexists|done|done].
  split; [done..|]. split; [by split|cbn; lia].
Qed.

(** A running stack with an empty cache, with the given frames to arrive. *)
Definition sample_net (arr : list (list (list Z))) : net :=
  match create_stack (net_new sample_device sample_pfa arr) with Ok n => n | Err _ => net_new sample_device sample_pfa arr end.

Lemma sample_net_ok arr : client_ok (sample_net arr) [] /\ Interface (sample_net arr) = sample_device /\ arrivals (sample_net arr) = arr.
Proof.
  unfold sample_net. destruct sample_device_ok as [Hm Hi]. destruct (create_stack_ok sample_device sample_pfa arr sample_pages Hm Hi) as (n & -> & Hc & Ei & _ & _ & Ea & _).
  done.
Qed.

(** A host at 10.0.2.2 that asks for 10.0.2.15. *)
Definition sample_arrival : arrival :=
  message bcast_MAC (mk_MAC 2 0 0 0 0 9) (mk_arp REQUEST (mk_MAC 2 0 0 0 0 9) (mk_IP 10 0 2 2) zero_MAC (mk_IP 10 0 2 15) (replicate 18 0)).

(** A frame for another card. *)
Definition sample_noise : arrival := noise (eth_frame (mk_MAC 2 0 0 0 0 7) (mk_MAC 2 0 0 0 0 9) TYPE_ARP []).

Lemma sample_arrival_ok arr : arrival_ok (sample_net arr) sample_arrival.
Proof.
  split; [split; [apply bcast_MAC_ok|by left]|]. unfold message_ok, mac_ok, ip_ok, bytes_ok, mac_bytes, ip_bytes. simpl. split_and!; first [done|bytes].
Qed.

Lemma sample_noise_ok arr : arrival_ok (sample_net arr) sample_noise.
Proof.
  destruct (sample_net_ok arr) as (_ & Ei & _). unfold arrival_ok, sample_noise. rewrite Ei. clear Ei. apply other_card.
  - unfold mac_ok, bytes_ok, mac_bytes. simpl. bytes.
  - done.
  - discriminate.
  - discriminate.
Qed.

(** ** Address resolution *)

(** The address that was announced last for what the code takes for [ip]. *)
Definition announces (ip : InternetProtocol4) (a : arrival) : option MediaAccessControl :=
  match a with
  | message _ _ m => if decide (rev_IP (m_sip m) = ip) then Some (rev_MAC (m_smac m)) else None
  | noise _ => None
  end.
Definition announced (ms : list arrival) (ip : InternetProtocol4) : option MediaAccessControl := last (omap (announces ip) ms).

Lemma known_learn_all ms : forall l ip, known (learn_all l ms) ip =
  match announced ms ip with Some m => Some m | None => known l ip end.
Proof.
  induction ms as [|a ms IH]; intros l ip; [done|]. change (learn_all l (a :: ms)) with (learn_all (learn_arrival l a) ms).
  rewrite IH. unfold announced. cbn [omap list_omap]. destruct a as [dst src m|f]; [|done].
  cbn [learn_arrival announces]. unfold learn_message. rewrite known_learn.
  destruct (decide (rev_IP (m_sip m) = ip)) as [E|E].
  - rewrite last_cons. rewrite decide_True by done. by destruct (last _).
  - by rewrite decide_False by done.
Qed.

Section theorems.
Context `{HL : NetHardwareLaws}.

(** C26 Whatever well-formed ARP messages for this card and frames to be ignored (for
    other cards, types without a protocol, other networks) arrive, in any
    order: each request is answered with one frame (whatever address it asks for),
    nothing else is sent, the page allocator is as before, and afterwards
    [Search] returns, for every address, the hardware address that was
    announced last for the address with its bytes in reverse order, its own bytes
    reversed too, or what was known before; so a host is not found under its own
    address ([reversed_not_found]). *)
Theorem arp_learns n l ms : stack_ok n l -> Forall (arrival_ok n) ms -> Z.of_nat (length l + length ms) < 2 ^ 60 ->
  exists n', deliver n (batch_frames ms) = Ok n' /\ frames n' = frames n ++ reply_all (Interface n) ms /\
    same_pages (KernelAllocator n) (KernelAllocator n') /\
    forall ip, exists a, ARP_Search n' ip = Ok a /\
      da_MAC a = default (default bcast_MAC (known l ip)) (announced ms ip).
Proof.
  intros Hn Hms Hl. destruct (deliver_ok ms n l Hn Hms Hl) as (n' & E & Hh). exists n'. split; [done|].
  pose proof (heard_ok _ _ _ _ _ _ Hn Hh) as Hn'. destruct Hh as (v & p & k & Hv & Hp & En). subst n'. split_and!; [done|done|].
  intros ip. exists (found (learn_all l ms) ip). split; [apply ARP_Search_ok, Hn'|]. rewrite found_known, known_learn_all.
  by destruct (announced ms ip).
Qed.

(** C27 [Resolve] on a stack that hears only well-formed ARP messages and frames to be
    ignored while it waits.  An address that the cache has is returned at once;
    otherwise one request is sent, and what the cache has then is returned after
    one more sleep than the one in which it came, if that was one of the first
    eight; else 0 is returned after nine sleeps.  The cache has a host under its
    address with the bytes reversed ([announced]): for a host whose address
    does not read the same both ways the wait ends with 0
    ([reversed_not_found]), unless another one announced the reversed address. *)
Theorem resolve_correct n l batches ip : stack_ok n l -> macs_ok l -> will_hear n batches ->
  Z.of_nat (length l + length (mjoin batches)) < 2 ^ 60 -> ip_ok ip -> ip <> bcast_IP ->
  (answer l batches ip 0 <> bcast_MAC -> ARP_Resolve sleep n ip = Ok (n, MAC_ToHex (answer l batches ip 0))) /\
  (forall i, (1 <= i <= 8)%nat -> (forall j, (j < i)%nat -> answer l batches ip j = bcast_MAC) -> answer l batches ip i <> bcast_MAC ->
     returns_after n l batches [request_frame n ip] (S i) (MAC_ToHex (answer l batches ip i)) (ARP_Resolve sleep n ip)) /\
  ((forall j, (j < 9)%nat -> answer l batches ip j = bcast_MAC) ->
     returns_after n l batches [request_frame n ip] 9 0 (ARP_Resolve sleep n ip)).
Proof.
  intros Hn Hl Hb Hroom Hip Hne. destruct (ARP_Resolve_eq sleep n l ip Hn Hl Hip Hne) as [E0 E1]. split; [exact E0|].
  assert (answer l batches ip 0 = bcast_MAC -> exists n1, heard n l [request_frame n ip] (arrivals n) n1 /\
    ARP_Resolve sleep n ip = resolve_loop sleep n1 ip BROADCAST 10 /\ stack_ok n1 l /\ will_hear n1 batches /\
    forall i x r, returns_after n1 l batches [] i x r -> returns_after n l batches [request_frame n ip] i x r) as Hsend.
  { intros Ha. destruct (E1 Ha) as (n1 & Hh & E). exists n1. split_and!; [done|done|by eapply heard_ok| |].
    - destruct Hh as (v & p & k & _ & _ & ->). exact Hb.
    - intros i x r (n' & -> & Hh'). exists n'. split; [done|]. pose proof (heard_trans _ _ _ _ _ _ _ _ _ Hh Hh') as Ht.
      destruct Hh as (v & p & k & _ & _ & ->). exact Ht. }
  split.
  - intros i Hi Hbefore Ha. destruct (Hsend (Hbefore 0%nat ltac:(lia))) as (n1 & _ & -> & Hn1 & Hb1 & Hlift).
    apply Hlift. destruct (resolve_loop_ok ip 10 n1 l batches Hn1 Hl Hb1 Hroom) as [H1 _]. apply H1; [lia|done|done].
  - intros Hbefore. destruct (Hsend (Hbefore 0%nat ltac:(lia))) as (n1 & _ & -> & Hn1 & Hb1 & Hlift).
    apply Hlift. destruct (resolve_loop_ok ip 10 n1 l batches Hn1 Hl Hb1 Hroom) as [_ H2]. apply (H2 ltac:(lia)). intros j Hj. apply Hbefore. lia.
Qed.
End theorems.

(** The host is heard; what is kept for it is under the reversed address. *)
Lemma arp_learns_witness : exists n', @deliver sample_hardware (sample_net []) (batch_frames [sample_noise; sample_arrival; sample_noise]) = Ok n' /\
  exists a, ARP_Search n' (mk_IP 2 2 0 10) = Ok a /\ da_MAC a = mk_MAC 9 0 0 0 0 2.
Proof.
  destruct (sample_net_ok []) as (Hc & _ & _).
  destruct (@arp_learns _ sample_hardware_laws (sample_net []) [] [sample_noise; sample_arrival; sample_noise]) as (n' & E & _ & _ & Ha).
  - apply Hc.
  - constructor; [|constructor; [apply sample_arrival_ok|constructor; [|constructor]]]; apply sample_noise_ok.
  - reflexivity.
  - exists n'. split; [exact E|]. exact (Ha (mk_IP 2 2 0 10)).
Defined.

Definition sample_batches : list (list arrival) := [[sample_noise]; [sample_arrival]; []].

Lemma resolve_correct_witness : exists n', @ARP_Resolve sample_hardware (@sleep sample_hardware) (sample_net (batch_frames <$> sample_batches)) (mk_IP 2 2 0 10) =
  Ok (n', MAC_ToHex (mk_MAC 9 0 0 0 0 2)).
Proof.
  destruct (sample_net_ok (batch_frames <$> sample_batches)) as (Hc & _ & Ea).
  destruct (@resolve_correct _ sample_hardware_laws (sample_net (batch_frames <$> sample_batches)) [] sample_batches (mk_IP 2 2 0 10)) as (_ & H & _).
  - apply Hc.
  - constructor.
  - split; [exact Ea|]. repeat first [apply sample_arrival_ok|apply sample_noise_ok|constructor].
  - reflexivity.
  - unfold ip_ok, ip_bytes, bytes_ok. simpl. bytes.
  - discriminate.
  - destruct (H 2%nat) as (n' & E & _).
    + lia.
    + intros j Hj. destruct j as [|[|j]]; [reflexivity|reflexivity|lia].
    + vm_compute. discriminate.
    + exists n'. exact E.
Defined.

(** No answer that is on the subnet is found under the address it was asked
    for: the host 10.0.2.2 is in the cache as 2.2.0.10. *)
Example reversed_not_found : answer [] [[sample_arrival]] (mk_IP 10 0 2 2) 1 = bcast_MAC /\
  answer [] [[sample_arrival]] (mk_IP 2 2 0 10) 1 = mk_MAC 9 0 0 0 0 2.
Proof. vm_compute. by split. Qed.

(** ** Datagrams *)

Section datagrams.
Context `{HL : NetHardwareLaws}.

(** C25 Sending through a socket that [Connect] made, to an address whose route
    is resolved, gives the card exactly one frame: Ethernet, IPv4 with its
    right checksum and length, UDP with the ports of the socket, and the data;
    the page for it is given back. *)
Theorem datagram_sent sleep n n1 l ip port i Data Length mac : stack_ok n l -> macs_ok l -> ip_ok ip -> resolved l (route n ip) mac ->
  UDP_Connect n ip port = Ok (n1, i) -> 0 <= Length < 4096 - 42 -> Length <= Z.of_nat (length Data) ->
  sends n1 (UDP_Send sleep n1 i Data Length)
    [eth_frame mac (dev_MAC (Interface n)) TYPE_IPV4 (ip_packet PROTOCOL_UDP (dev_IP (Interface n)) ip
      (udp_datagram (be 2 (UsuablePort n)) (be 2 port) (take (Z.to_nat Length) Data)))].
Proof.
  intros Hn Hl Hip Hr E Hlt Hlen. unfold UDP_Connect in E. inv_bind.
  match goal with |- sends ?n1 (UDP_Send _ _ ?i _ _) _ =>
    pose proof (UDP_Send_ok sleep n1 l i (mk_Socket (dev_IP (Interface n)) (b16 (UsuablePort n)) ip (b16 port) false NullObject) Data Length mac) as Hs end.
  rewrite <- !le_b16. apply Hs; try done; [by destruct Hn|]. cbn [set_UDPEvents set_sockets sockets].
  by rewrite lookup_app_r, Nat.sub_diag by lia.
Qed.
End datagrams.

Lemma datagram_sent_witness : exists n1 i, UDP_Connect (sample_net []) (mk_IP 8 8 8 8) 53 = Ok (n1, i) /\
  @sends n1 (@UDP_Send sample_hardware (@sleep sample_hardware) n1 i [1; 2; 3] 3)
    [eth_frame bcast_MAC (dev_MAC sample_device) TYPE_IPV4 (ip_packet PROTOCOL_UDP (dev_IP sample_device) (mk_IP 8 8 8 8)
      (udp_datagram (be 2 0x201) (be 2 53) [1; 2; 3]))].
Proof.
  destruct (UDP_Connect (sample_net []) (mk_IP 8 8 8 8) 53) as [[n1 i]|e] eqn:E; [|vm_compute in E; discriminate].
  exists n1, i. split; [reflexivity|]. destruct (sample_net_ok []) as (Hc & _ & _).
  apply (@datagram_sent _ sample_hardware_laws (@sleep sample_hardware) (sample_net []) n1 [] (mk_IP 8 8 8 8) 53 i [1; 2; 3] 3 bcast_MAC).
  - apply Hc.
  - constructor.
  - unfold ip_ok, ip_bytes, bytes_ok. simpl. bytes.
  - left. split; vm_compute; reflexivity.
  - exact E.
  - lia.
  - reflexivity.
Defined.

(** ** Configuration *)

(** [GetOption] finds what was encoded: for a message of 240 bytes, options
    and the byte 255, it returns where the data of the first option of the
    asked type begins, or NULL if there is none, and it reads nothing past the
    end, whatever follows. *)
Theorem options_found head opts rest t : length head = 240%nat -> Forall option_ok opts ->
  exists r, DHCP_GetOption (with_options head opts rest) t = Ok r /\
    match find_option opts t with
    | None => r = None
    | Some d => exists p k, r = Some p /\ drop p (with_options head opts rest) = d ++ k
    end.
Proof. apply GetOption_ok. Qed.

Lemma options_found_witness : exists p k, DHCP_GetOption (with_options (replicate 240 7) [(53, [2]); (1, [255; 255; 255; 0])] [9; 9]) 1 = Ok (Some p) /\
  drop p (with_options (replicate 240 7) [(53, [2]); (1, [255; 255; 255; 0])] [9; 9]) = [255; 255; 255; 0] ++ k.
Proof.
  destruct (options_found (replicate 240 7) [(53, [2]); (1, [255; 255; 255; 0])] [9; 9] 1) as (r & E & p & k & Er & Hd).
  - reflexivity.
  - repeat constructor; cbn; lia.
  - exists p, k. split; [rewrite E, Er; reflexivity|exact Hd].
Defined.

(** A padding byte has no length, but is read as if it had one: the option that
    follows is lost. *)
Example padding_misread : DHCP_GetOption (replicate 240 0 ++ [0; 53; 1; 2; 255] ++ replicate 60 1) 53 = Err OutOfBounds.
Proof. vm_compute. reflexivity. Qed.

Section messages.
Context `{HL : NetHardwareLaws}.

(** The message of the client is built inside its 300 bytes, and is the one
    that the protocol asks for, exactly if the name of the kernel has at most
    28 characters; a longer name is written past the end. *)
Theorem dhcp_message_fits n t ip : mac_ok (dev_MAC (Interface n)) ->
  DHCP_CreatePacket n (replicate 300 0) t ip =
    if decide (length KERNEL_NAME <= 28)%nat then Ok (dhcp_message (dev_MAC (Interface n)) t ip) else Err OutOfBounds.
Proof. apply DHCP_CreatePacket_ok. Qed.

(** ** Waiting for a lease *)

Definition quiet_frames (n : net) (fs : list (list Z)) : Prop := Forall (ignored (Interface n)) fs.

Lemma deliver_app l1 l2 : forall n, deliver n (l1 ++ l2) = let* n := deliver n l1 in deliver n l2.
Proof.
  induction l1 as [|f l1 IH]; intros n; [done|]. cbn [app deliver].
  destruct (NetworkInterface_Receive _ n f _); [|done]. cbn [bind]. apply IH.
Qed.

Lemma deliver_quiet n l fs : stack_ok n l -> quiet_frames n fs -> deliver n fs = Ok n.
Proof.
  intros Hn Hf. induction Hf as [|f fs Hf _ IH]; [done|]. cbn [deliver]. rewrite (ignored_ok n l) by done. exact IH.
Qed.

Lemma client_ok_arrivals n l r : client_ok n l -> client_ok (set_arrivals r n) l.
Proof. intros [[] ? Hev Hs ? ?]. split; [by split|done|exact Hev|exact Hs|done|done]. Qed.

Lemma wait_batch n b rest k : arrivals n = b :: rest -> Received (dhcp n) = false -> (1 < k)%nat ->
  wait_loop sleep n k = let* n := deliver (set_arrivals rest n) b in wait_loop sleep n (k - 1).
Proof.
  intros Ea Hr Hk. destruct k as [|[|k]]; [lia..|].
  change (wait_loop sleep n (S (S k))) with (if Received (dhcp n) then Ok n else let* n := sleep n in wait_loop sleep n (S k)).
  rewrite Hr. unfold sleep at 1. by rewrite Ea.
Qed.

Lemma wait_received n k : Received (dhcp n) = true -> wait_loop sleep n k = Ok n.
Proof. intros Hr. destruct k; cbn [wait_loop]; by rewrite Hr. Qed.

Lemma datagram_ok_interface n n' d : Interface n' = Interface n -> datagram_ok n d -> datagram_ok n' d.
Proof. intros E. unfold datagram_ok, for_us, accepts. by rewrite E. Qed.

(** What an offer and an acknowledgement have to hold. *)
Record lease := mk_lease { l_ip : InternetProtocol4; l_gateway : InternetProtocol4; l_dns : InternetProtocol4; l_mask : InternetProtocol4 }.

Definition lease_ok (x : lease) : Prop := ip_ok (l_ip x) /\ ip_ok (l_gateway x) /\ ip_ok (l_dns x) /\ ip_ok (l_mask x).

(** The body of the datagram [d] is a message of type [t] for the lease [x]. *)
Definition server_message (d : datagram) (t : Z) (x : lease) : Prop :=
  exists head opts rest k k3 k6 k1, d_body d = with_options head opts rest /\ length head = 240%nat /\ Forall option_ok opts /\
    take 4 (drop 16 head) = ip_bytes (l_ip x) /\ find_option opts 53 = Some (t :: k) /\
    (t = 5 -> find_option opts 3 = Some (ip_bytes (l_gateway x) ++ k3) /\ find_option opts 6 = Some (ip_bytes (l_dns x) ++ k6) /\
      find_option opts 1 = Some (ip_bytes (l_mask x) ++ k1)).

Lemma with_options_app head opts rest k : with_options head opts rest ++ k = with_options head opts (rest ++ k).
Proof. unfold with_options. by rewrite <- !app_assoc. Qed.

Lemma offer_arrives n l d x : client_ok n l -> datagram_ok n d -> lease_ok x -> server_message d 2 x -> (length KERNEL_NAME <= 28)%nat ->
  sends n (deliver n [datagram_frame d]) [client_frame n 3 (le_value (ip_bytes (l_ip x)))].
Proof.
  intros Hc Hd (Hip & _) (head & opts & rest & k & k3 & k6 & k1 & Eb & Hh & Hok & Hy & Ht & _) Hk. cbn [deliver].
  rewrite (datagram_received n l) by done. rewrite Eb, with_options_app.
  rewrite (offer_received in_interrupt n head opts (rest ++ d_pad d) (l_ip x) k) by done.
  destruct (request_packet_ok in_interrupt n l 3 (le_value (ip_bytes (l_ip x))) Hc Hk) as (p & j & Hp & ->). by exists p, j.
Qed.

Lemma ack_arrives n l d x : client_ok n l -> datagram_ok n d -> lease_ok x -> server_message d 5 x ->
  deliver n [datagram_frame d] = Ok (set_dhcp (leased n (l_ip x) (l_gateway x) (l_dns x) (l_mask x)) n).
Proof.
  intros Hc Hd (Hip & Hgw & Hdns & Hmask) (head & opts & rest & k & k3 & k6 & k1 & Eb & Hh & Hok & Hy & Ht & H5). destruct (H5 eq_refl) as (H3 & H6 & H1).
  cbn [deliver]. rewrite (datagram_received n l) by done. rewrite Eb, with_options_app.
  by rewrite (ack_received in_interrupt n head opts (rest ++ d_pad d) (l_ip x) k (l_gateway x) (l_dns x) (l_mask x) k3 k6 k1).
Qed.

(** The frames of a batch that ends the wait. *)
Lemma ack_batch n l d x b1 b2 : client_ok n l -> datagram_ok n d -> lease_ok x -> server_message d 5 x ->
  quiet_frames n b1 -> quiet_frames n b2 ->
  deliver n (b1 ++ datagram_frame d :: b2) = Ok (set_dhcp (leased n (l_ip x) (l_gateway x) (l_dns x) (l_mask x)) n).
Proof.
  intros Hc Hd Hx Ha H1 H2. pose proof (cl_stack _ _ Hc) as Hn. rewrite deliver_app, (deliver_quiet n l b1) by done. cbn [bind].
  change (datagram_frame d :: b2) with ([datagram_frame d] ++ b2). rewrite deliver_app, (ack_arrives n l d x) by done. cbn [bind].
  apply (deliver_quiet _ l); [|exact H2]. destruct Hn. by split.
Qed.

Lemma wait_ack pre : forall n l d x b1 b2 rest k, client_ok n l -> Received (dhcp n) = false -> datagram_ok n d -> lease_ok x -> server_message d 5 x ->
  arrivals n = pre ++ (b1 ++ datagram_frame d :: b2) :: rest -> quiet_frames n (mjoin pre ++ b1) -> quiet_frames n b2 -> (length pre + 1 < k)%nat ->
  wait_loop sleep n k = Ok (set_dhcp (leased n (l_ip x) (l_gateway x) (l_dns x) (l_mask x)) (set_arrivals rest n)).
Proof.
  induction pre as [|b pre IH]; intros n l d x b1 b2 rest k Hc Hr Hd Hx Ha Ea H1 H2 Hk.
  - rewrite (wait_batch n _ rest) by (exact Ea || exact Hr || (simpl in Hk; lia)).
    rewrite (ack_batch _ l d x b1 b2) by (exact H1 || exact H2 || exact Hd || exact Hx || exact Ha || by apply client_ok_arrivals).
    cbn [bind]. by rewrite wait_received.
  - cbn [app] in Ea. rewrite (wait_batch n b _) by (exact Ea || exact Hr || (simpl in Hk; lia)).
    change (mjoin (b :: pre)) with (b ++ mjoin pre) in H1. rewrite <- app_assoc in H1. apply Forall_app in H1 as [Hb H1].
    pose proof (client_ok_arrivals n l (pre ++ (b1 ++ datagram_frame d :: b2) :: rest) Hc) as Hc'.
    rewrite (deliver_quiet _ l b) by (exact Hb || apply Hc'). cbn [bind].
    rewrite (IH _ l d x b1 b2 rest); solve [exact Hc'|exact Hr|exact Hd|exact Hx|exact Ha|exact H1|exact H2|reflexivity|simpl in Hk; lia].
Qed.

(** The frames around an offer: the client answers it with its request. *)
Lemma offer_batch n l d x b1 b2 : client_ok n l -> datagram_ok n d -> lease_ok x -> server_message d 2 x -> (length KERNEL_NAME <= 28)%nat ->
  quiet_frames n b1 -> exists p k, same_pages (KernelAllocator n) p /\
    deliver n (b1 ++ datagram_frame d :: b2) = deliver (after_send n p k [client_frame n 3 (le_value (ip_bytes (l_ip x)))]) b2.
Proof.
  intros Hc Hd Hx Ho Hk H1. destruct (offer_arrives n l d x Hc Hd Hx Ho Hk) as (p & k & Hp & E). exists p, k. split; [done|].
  rewrite deliver_app, (deliver_quiet n l b1) by (exact H1 || apply Hc). cbn [bind].
  change (datagram_frame d :: b2) with ([datagram_frame d] ++ b2). by rewrite deliver_app, E.
Qed.

Lemma client_ok_after n l p k fr : client_ok n l -> mem_ok p -> client_ok (after_send n p k fr) l.
Proof. intros [[] ? Hev Hs ? ?] Hp. split; [by split|done|exact Hev|exact Hs|done|done]. Qed.

Lemma wait_exchange pre : forall n l offer ack x q1 q2 b1 b2 rest k, client_ok n l -> Received (dhcp n) = false ->
  datagram_ok n offer -> datagram_ok n ack -> lease_ok x -> server_message offer 2 x -> server_message ack 5 x -> (length KERNEL_NAME <= 28)%nat ->
  arrivals n = pre ++ (b1 ++ datagram_frame ack :: b2) :: rest -> mjoin pre ++ b1 = q1 ++ datagram_frame offer :: q2 ->
  quiet_frames n q1 -> quiet_frames n q2 -> quiet_frames n b2 -> (length pre + 1 < k)%nat ->
  exists p j, same_pages (KernelAllocator n) p /\ wait_loop sleep n k =
    Ok (set_dhcp (leased n (l_ip x) (l_gateway x) (l_dns x) (l_mask x))
      (set_arrivals rest (after_send n p j [client_frame n 3 (le_value (ip_bytes (l_ip x)))]))).
Proof.
  induction pre as [|b pre IH]; intros n l offer ack x q1 q2 b1 b2 rest k Hc Hr Hod Had Hx Ho Ha HK Ea Eq Hq1 Hq2 Hb2 Hk.
  - change (mjoin [] ++ b1) with b1 in Eq. subst b1. rewrite (wait_batch n _ rest) by (exact Ea || exact Hr || (simpl in Hk; lia)).
    pose proof (client_ok_arrivals n l rest Hc) as Hc'. rewrite <- app_assoc. cbn [app].
    destruct (offer_batch (set_arrivals rest n) l offer x q1 (q2 ++ datagram_frame ack :: b2) Hc' Hod Hx Ho HK Hq1) as (p & j & Hp & ->).
    exists p, j. split; [exact Hp|]. pose proof (client_ok_after _ l p j [client_frame (set_arrivals rest n) 3 (le_value (ip_bytes (l_ip x)))] Hc' (proj1 Hp)) as Hc2.
    rewrite (ack_batch _ l ack x q2 b2 Hc2 Had Hx Ha Hq2 Hb2). cbn [bind]. by rewrite wait_received.
  - cbn [app] in Ea. rewrite (wait_batch n b _) by (exact Ea || exact Hr || (simpl in Hk; lia)).
    set (later := pre ++ (b1 ++ datagram_frame ack :: b2) :: rest) in *. pose proof (client_ok_arrivals n l later Hc) as Hc'.
    change (mjoin (b :: pre)) with (b ++ mjoin pre) in Eq. rewrite <- app_assoc in Eq.
    assert ((exists r, q1 = b ++ r /\ mjoin pre ++ b1 = r ++ datagram_frame offer :: q2) \/
            (exists r, b = q1 ++ datagram_frame offer :: r /\ q2 = r ++ mjoin pre ++ b1)) as [(r & -> & Er)|(r & -> & ->)].
    { apply app_eq_inv in Eq as [(r & -> & Er)|(r & -> & Er)]; [|left; by exists r].
      destruct r as [|f r]; [left; exists []; split; [by rewrite !app_nil_r|done]|]. injection Er as <- Er. right. by exists r. }
    + apply Forall_app in Hq1 as [Hb Hq1]. rewrite (deliver_quiet _ l b) by (exact Hb || apply Hc'). cbn [bind].
      destruct (IH (set_arrivals later n) l offer ack x r q2 b1 b2 rest (k - 1)%nat) as (p & j & Hp & E);
        [solve [exact Hc'|exact Hr|exact Hod|exact Had|exact Hx|exact Ho|exact Ha|exact HK|exact Er|exact Hq1|exact Hq2|exact Hb2|reflexivity|simpl in Hk; lia]..|].
      exists p, j. split; [exact Hp|exact E].
    + apply Forall_app in Hq2 as [Hr2 Hq2].
      destruct (offer_batch (set_arrivals later n) l offer x q1 r Hc' Hod Hx Ho HK Hq1) as (p & j & Hp & ->).
      exists p, j. split; [exact Hp|]. pose proof (client_ok_after _ l p j [client_frame (set_arrivals later n) 3 (le_value (ip_bytes (l_ip x)))] Hc' (proj1 Hp)) as Hc2.
      rewrite (deliver_quiet _ l r) by (exact Hr2 || apply Hc2). cbn [bind].
      rewrite (wait_ack pre _ l ack x b1 b2 rest); solve [exact Hc2|exact Hr|exact Had|exact Hx|exact Ha|exact Hq2|exact Hb2|reflexivity|simpl in Hk; lia].
Qed.

(** C24 From start to lease.  The stack is created and [Request] is called; in the
    sleeps after it, frames arrive, several in one sleep or none.  If they are one
    offer and, later or in the same sleep, one acknowledgement, both for this card and
    with options in which nothing is padded and the acknowledgement has the subnet
    mask, the router and the name server, and all others up to the end of the ninth
    sleep or of that of the acknowledgement are such as the stack
    ignores, [Request] sends exactly the discovery and the request for the
    offered address, ends with the sleep of the acknowledgement, and the client has
    the addresses of the lease, their bytes reversed; the pages it used are free again. *)
Theorem dhcp_lease dev p pre q1 q2 b1 b2 rest offer ack x : mem_ok p -> mac_ok (dev_MAC dev) -> ip_ok (dev_IP dev) -> (length KERNEL_NAME <= 28)%nat ->
  lease_ok x -> server_message offer 2 x -> server_message ack 5 x ->
  let n := net_new dev p (pre ++ (b1 ++ datagram_frame ack :: b2) :: rest) in
  (length pre <= 8)%nat -> mjoin pre ++ b1 = q1 ++ datagram_frame offer :: q2 ->
  Forall (ignored dev) (q1 ++ q2 ++ b2) -> datagram_ok n offer -> datagram_ok n ack ->
  exists n1 n2, create_stack n = Ok n1 /\ DHCP_Request sleep n1 = Ok n2 /\
    frames n2 = [client_frame n 1 0; client_frame n 3 (le_value (ip_bytes (l_ip x)))] /\
    dhcp n2 = mk_DHCP (Some 0%nat) true (rev_IP (l_ip x)) (rev_IP (l_gateway x)) (rev_IP (l_mask x)) (rev_IP (l_dns x)) /\
    arrivals n2 = rest /\ same_pages p (KernelAllocator n2).
Proof.
  intros Hp Hm Hi HK Hx Hoffer Hack n Hpre Eq (Hq1 & [Hq2 Hb2]%Forall_app)%Forall_app Hod Had.
  destruct (create_stack_ok dev p (arrivals n) Hp Hm Hi) as (n1 & E1 & Hc1 & Ei & Ep & Ef & Ea & Er).
  exists n1. unfold DHCP_Request. destruct (request_packet_ok sleep n1 [] 1 0 Hc1 HK) as (p1 & k1 & Hp1 & ->). cbn [bind]. rewrite Ep in Hp1.
  pose proof (client_ok_after n1 [] p1 k1 [client_frame n1 1 0] Hc1 (proj1 Hp1)) as Hc2. set (n2 := after_send n1 p1 k1 [client_frame n1 1 0]) in *.
  assert (Interface n2 = dev) as Ei2 by exact Ei. assert (arrivals n2 = arrivals n) as Ea2 by exact Ea.
  destruct (wait_exchange pre n2 [] offer ack x q1 q2 b1 b2 rest 10 Hc2) as (p2 & k2 & Hp2 & E);
    [exact Er|by apply (datagram_ok_interface n)|by apply (datagram_ok_interface n)|exact Hx|exact Hoffer|exact Hack|exact HK|exact Ea2|exact Eq|
     by unfold quiet_frames; rewrite Ei2|by unfold quiet_frames; rewrite Ei2|by unfold quiet_frames; rewrite Ei2|lia|].
  rewrite E. eexists. split; [exact E1|]. split; [reflexivity|]. split_and!.
  - change ((frames n1 ++ [client_frame n1 1 0]) ++ [client_frame n2 3 (le_value (ip_bytes (l_ip x)))] = [client_frame n 1 0; client_frame n 3 (le_value (ip_bytes (l_ip x)))]).
    rewrite Ef. unfold client_frame. by rewrite Ei2, Ei.
  - change (leased n2 (l_ip x) (l_gateway x) (l_dns x) (l_mask x) = mk_DHCP (Some 0%nat) true (rev_IP (l_ip x)) (rev_IP (l_gateway x)) (rev_IP (l_mask x)) (rev_IP (l_dns x))).
    unfold leased. by rewrite (cl_dhcp _ _ Hc2).
  - reflexivity.
  - exact (same_pages_trans _ _ _ Hp1 Hp2).
Qed.
End messages.

Lemma dhcp_message_fits_witness : @DHCP_CreatePacket sample_hardware (sample_net []) (replicate 300 0) 1 0 =
  Ok (@dhcp_message sample_hardware (dev_MAC sample_device) 1 0).
Proof.
  destruct (sample_net_ok []) as (_ & Ei & _). rewrite (@dhcp_message_fits sample_hardware (sample_net []) 1 0).
  - rewrite Ei. reflexivity.
  - rewrite Ei. apply sample_device_ok.
Defined.

(** ** A lease *)

Definition sample_lease : lease := mk_lease (mk_IP 10 0 2 15) (mk_IP 10 0 2 2) (mk_IP 10 0 2 3) (mk_IP 255 255 255 0).

Definition sample_message (t : Z) : datagram :=
  mk_datagram bcast_MAC (mk_MAC 2 0 0 0 0 9) (mk_IP 10 0 2 2) bcast_IP 67 68
    (with_options (replicate 16 0 ++ [10; 0; 2; 15] ++ replicate 220 0)
      [(53, [t]); (1, [255; 255; 255; 0]); (3, [10; 0; 2; 2]); (6, [10; 0; 2; 3]); (51, [0; 1; 81; 128])] []) [].

Lemma sample_message_ok t : (t = 2 \/ t = 5) -> server_message (sample_message t) t sample_lease.
Proof.
  intros Ht. eexists _, _, [], [], [], [], []. split; [reflexivity|]. split; [reflexivity|]. split.
  - repeat constructor; cbn; lia.
  - split; [reflexivity|]. split; [reflexivity|]. intros _. split; [reflexivity|]. split; reflexivity.
Qed.

Lemma sample_datagram_ok arr t : datagram_ok (net_new sample_device sample_pfa arr) (sample_message t).
Proof.
  split; [split; [apply bcast_MAC_ok|by left]|]. split; [split; [apply bcast_IP_ok|by right; left]|].
  split; [unfold ip_ok, ip_bytes, bytes_ok; simpl; bytes|vm_compute; reflexivity].
Qed.

(** The offer comes in the second sleep, the acknowledgement in the third, and
    frames for another card before and behind. *)
Lemma dhcp_lease_witness : let f := frame_of sample_noise in exists n1 n2,
  create_stack (net_new sample_device sample_pfa ([[f]; [f; datagram_frame (sample_message 2)]] ++ ([f] ++ datagram_frame (sample_message 5) :: [f]) :: [])) = Ok n1 /\
  @DHCP_Request sample_hardware (@sleep sample_hardware) n1 = Ok n2 /\ dhcp_IP (dhcp n2) = mk_IP 15 2 0 10 /\ length (frames n2) = 2%nat.
Proof.
  cbv zeta. set (f := frame_of sample_noise). destruct sample_device_ok as [Hm Hi].
  assert (ignored sample_device f) as Hf.
  { destruct (sample_net_ok []) as (_ & Ei & _). pose proof (sample_noise_ok []) as H. unfold arrival_ok, sample_noise in H. rewrite Ei in H. exact H. }
  destruct (@dhcp_lease sample_hardware sample_hardware_laws sample_device sample_pfa [[f]; [f; datagram_frame (sample_message 2)]] [f; f] [f] [f] [f] []
    (sample_message 2) (sample_message 5) sample_lease) as (n1 & n2 & E1 & E2 & Ef & Ed & _).
  - apply sample_pages.
  - exact Hm.
  - exact Hi.
  - vm_compute. lia.
  - unfold lease_ok, ip_ok, ip_bytes, bytes_ok. simpl. split; [bytes|split; [bytes|split; bytes]].
  - apply sample_message_ok. by left.
  - apply sample_message_ok. by right.
  - cbn [length]. lia.
  - reflexivity.
  - cbn [app]. repeat (apply Forall_cons; split; [exact Hf|]). apply Forall_nil_2.
  - apply sample_datagram_ok.
  - apply sample_datagram_ok.
  - exists n1, n2. split; [exact E1|]. split; [exact E2|]. split; [rewrite Ed; reflexivity|rewrite Ef; reflexivity].
Defined.
