(* ===== verification/Tasking.v ===== *)
(** * Processes, threads and the scheduler

    src/kernel/proc/Multitasking.cpp, with the structures of
    src/kernel/include/task.h and internal_task.h, the critical sections of
    src/kernel/Critical.cpp, the tokens of src/kernel/security/Security.cpp,
    the interface of src/kernel/proc/ProcessAPI.cpp, the ports of
    src/kernel/proc/InterProcessCommunication.cpp and the system calls of
    src/kernel/syscalls/Native.cpp about processes and threads.

    The state is a [machine] with one processor.  Control blocks are objects
    in a store and a pointer is an address, because the code compares
    addresses; 0 is NULL and using a freed object is a fault.  What hardware
    and the linker provide is the class [Hardware].  The interrupt handler is
    a function from the trap frame it gets to the one it returns with.  Its
    two loops by [goto] take a number of steps, [fuel].  The page tables and
    stacks are those of [KernelMemory].  Debugging output is left out. *)

From stdpp Require Import gmap.
From S2P Require Import Prelude CString Vector HashMap PageFrame PageTable KernelMemory.

Local Open Scope Z_scope.

(** ** Data *)

Inductive CBElevation := UnknownElevation | Kernel | System | Idle | User.
Inductive CBStatus := UnknownStatus | Ready | Running | Waiting | Terminated.
Inductive TokenTrustLevel := UnknownTrustLevel | Untrusted | Trusted | TrustedByKernel.
Inductive Architecture := UnknownArchitecture | x86 | x64 | ARM | ARM64.
Inductive Platform := UnknownPlatform | Native | Linux | POSIX | Windows.
Inductive TaskingMode := NoTasking | Mono | Multi.

#[export] Instance CBElevation_eq_dec : EqDecision CBElevation.
Proof. solve_decision. Defined.
#[export] Instance CBStatus_eq_dec : EqDecision CBStatus.
Proof. solve_decision. Defined.
#[export] Instance TaskingMode_eq_dec : EqDecision TaskingMode.
Proof. solve_decision. Defined.

Definition PROCESS_CHECKSUM : Z := 0xCAFEBABE.
Definition THREAD_CHECKSUM : Z := 0xDEADCAFE.
Definition badfennec : Z := 0xBADFE2EC.

Record GeneralProcessInfo := mk_Info {
  SpawnTime : Z; UsedTime : Z; OldUsedTime : Z;
  OldSystemTime : Z; CurrentSystemTime : Z;
  Year : Z; Month : Z; Day : Z; Hour : Z; Minute : Z; Second : Z;
  Usage : list Z;
  i_Architecture : Architecture;
  i_Platform : Platform;
  Priority : Z;
  Affinity : list bool
}.

Record ThreadRegisters := mk_regs {
  ds : Z; r15 : Z; r14 : Z; r13 : Z; r12 : Z; r11 : Z; r10 : Z; r9 : Z; r8 : Z;
  rbp : Z; rdi : Z; rsi : Z; rdx : Z; rcx : Z; rbx : Z; rax : Z;
  int_num : Z; error_code : Z; rip : Z; cs : Z; rflags : Z; rsp : Z; ss : Z
}.

(** The members [fs] and [gs]; the four other segment members are not used. *)
Record TCB := mk_TCB {
  t_ID : Z;
  t_Name : list Z;
  t_Status : CBStatus;
  t_ExitCode : Z;
  t_Parent : Z;
  t_Stack : Z;
  FXRegion : list Z;
  t_Registers : ThreadRegisters;
  t_fs : Z;
  t_gs : Z;
  t_argc : Z;
  t_argv : Z;
  t_envp : Z;
  t_Info : GeneralProcessInfo;
  t_Token : Z;
  t_Checksum : Z
}.

Record PCB := mk_PCB {
  p_ID : Z;
  p_Name : list Z;
  p_Status : CBStatus;
  p_Elevation : CBElevation;
  p_ExitCode : Z;
  p_Offset : Z;
  p_Parent : Z;
  p_PageTable : Z;
  p_Info : GeneralProcessInfo;
  p_Token : Z;
  p_IPCHandles : Z;
  p_Threads : Vector Z;
  p_Children : Vector Z;
  p_Checksum : Z
}.

Record TokenData := mk_TokenData {
  Token : Z;
  TrustLevel : TokenTrustLevel;
  OwnerID : Z;
  tk_Process : bool
}.

(** Assignments to members. *)
Definition set_t_Status s (t : TCB) :=
  mk_TCB (t_ID t) (t_Name t) s (t_ExitCode t) (t_Parent t) (t_Stack t) (FXRegion t) (t_Registers t)
    (t_fs t) (t_gs t) (t_argc t) (t_argv t) (t_envp t) (t_Info t) (t_Token t) (t_Checksum t).
Definition set_t_ExitCode c (t : TCB) :=
  mk_TCB (t_ID t) (t_Name t) (t_Status t) c (t_Parent t) (t_Stack t) (FXRegion t) (t_Registers t)
    (t_fs t) (t_gs t) (t_argc t) (t_argv t) (t_envp t) (t_Info t) (t_Token t) (t_Checksum t).
Definition set_t_context regs gs fs fx (t : TCB) :=
  mk_TCB (t_ID t) (t_Name t) (t_Status t) (t_ExitCode t) (t_Parent t) (t_Stack t) fx regs
    fs gs (t_argc t) (t_argv t) (t_envp t) (t_Info t) (t_Token t) (t_Checksum t).
Definition set_t_Info i (t : TCB) :=
  mk_TCB (t_ID t) (t_Name t) (t_Status t) (t_ExitCode t) (t_Parent t) (t_Stack t) (FXRegion t) (t_Registers t)
    (t_fs t) (t_gs t) (t_argc t) (t_argv t) (t_envp t) i (t_Token t) (t_Checksum t).
Definition set_t_Checksum c (t : TCB) :=
  mk_TCB (t_ID t) (t_Name t) (t_Status t) (t_ExitCode t) (t_Parent t) (t_Stack t) (FXRegion t) (t_Registers t)
    (t_fs t) (t_gs t) (t_argc t) (t_argv t) (t_envp t) (t_Info t) (t_Token t) c.

Definition set_p_Status s (p : PCB) :=
  mk_PCB (p_ID p) (p_Name p) s (p_Elevation p) (p_ExitCode p) (p_Offset p) (p_Parent p) (p_PageTable p)
    (p_Info p) (p_Token p) (p_IPCHandles p) (p_Threads p) (p_Children p) (p_Checksum p).
Definition set_p_Offset o (p : PCB) :=
  mk_PCB (p_ID p) (p_Name p) (p_Status p) (p_Elevation p) (p_ExitCode p) o (p_Parent p) (p_PageTable p)
    (p_Info p) (p_Token p) (p_IPCHandles p) (p_Threads p) (p_Children p) (p_Checksum p).
Definition set_p_Info i (p : PCB) :=
  mk_PCB (p_ID p) (p_Name p) (p_Status p) (p_Elevation p) (p_ExitCode p) (p_Offset p) (p_Parent p) (p_PageTable p)
    i (p_Token p) (p_IPCHandles p) (p_Threads p) (p_Children p) (p_Checksum p).
Definition set_p_Threads v (p : PCB) :=
  mk_PCB (p_ID p) (p_Name p) (p_Status p) (p_Elevation p) (p_ExitCode p) (p_Offset p) (p_Parent p) (p_PageTable p)
    (p_Info p) (p_Token p) (p_IPCHandles p) v (p_Children p) (p_Checksum p).
Definition set_p_Children v (p : PCB) :=
  mk_PCB (p_ID p) (p_Name p) (p_Status p) (p_Elevation p) (p_ExitCode p) (p_Offset p) (p_Parent p) (p_PageTable p)
    (p_Info p) (p_Token p) (p_IPCHandles p) (p_Threads p) v (p_Checksum p).
Definition set_p_Checksum c (p : PCB) :=
  mk_PCB (p_ID p) (p_Name p) (p_Status p) (p_Elevation p) (p_ExitCode p) (p_Offset p) (p_Parent p) (p_PageTable p)
    (p_Info p) (p_Token p) (p_IPCHandles p) (p_Threads p) (p_Children p) c.

Definition set_Priority n (i : GeneralProcessInfo) :=
  mk_Info (SpawnTime i) (UsedTime i) (OldUsedTime i) (OldSystemTime i) (CurrentSystemTime i)
    (Year i) (Month i) (Day i) (Hour i) (Minute i) (Second i) (Usage i) (i_Architecture i) (i_Platform i) n (Affinity i).

(** ** The machine *)

(** The processor: [CPUData], the model-specific registers, the state of the
    floating point unit and the interrupt flag. *)
Record cpu := mk_cpu {
  CurrentProcess : Z;
  CurrentThread : Z;
  FS_BASE : Z;
  GS_BASE : Z;
  SHADOW_GS_BASE : Z;
  fpu : list Z;
  IF_flag : bool
}.

(** [class Multitasking]. *)
Record Multitasking := mk_Multitasking {
  ListProcess : Vector Z;
  NextPID : Z;
  NextTID : Z;
  IdleProcess : Z;
  IdleThread : Z
}.

Record CriticalSection := mk_Critical { EnableInterrupts : bool; CriticalLock : bool }.

(** What the kernel tells the timer and the interrupt controller. *)
Inductive event := OneShot (vector ms : Z) | EndOfInterrupt (num : Z).

Record machine := mk_machine {
  pcbs : gmap Z PCB;
  tcbs : gmap Z TCB;
  ports : gmap Z HashMap;
  handles : gset Z;
  Tokens : Vector TokenData;
  m_cpu : cpu;
  mt : Multitasking;
  CurrentTaskingMode : TaskingMode;
  MultitaskingSchedulerEnabled : bool;
  CriticalSectionData : option CriticalSection;
  m_kernel : kernel;
  words : gmap Z Z;
  events : list event;
  inputs : nat
}.

Definition set_pcbs x (m : machine) := mk_machine x (tcbs m) (ports m) (handles m) (Tokens m) (m_cpu m) (mt m)
  (CurrentTaskingMode m) (MultitaskingSchedulerEnabled m) (CriticalSectionData m) (m_kernel m) (words m) (events m) (inputs m).
Definition set_tcbs x (m : machine) := mk_machine (pcbs m) x (ports m) (handles m) (Tokens m) (m_cpu m) (mt m)
  (CurrentTaskingMode m) (MultitaskingSchedulerEnabled m) (CriticalSectionData m) (m_kernel m) (words m) (events m) (inputs m).
Definition set_ports x (m : machine) := mk_machine (pcbs m) (tcbs m) x (handles m) (Tokens m) (m_cpu m) (mt m)
  (CurrentTaskingMode m) (MultitaskingSchedulerEnabled m) (CriticalSectionData m) (m_kernel m) (words m) (events m) (inputs m).
Definition set_handles x (m : machine) := mk_machine (pcbs m) (tcbs m) (ports m) x (Tokens m) (m_cpu m) (mt m)
  (CurrentTaskingMode m) (MultitaskingSchedulerEnabled m) (CriticalSectionData m) (m_kernel m) (words m) (events m) (inputs m).
Definition set_Tokens x (m : machine) := mk_machine (pcbs m) (tcbs m) (ports m) (handles m) x (m_cpu m) (mt m)
  (CurrentTaskingMode m) (MultitaskingSchedulerEnabled m) (CriticalSectionData m) (m_kernel m) (words m) (events m) (inputs m).
Definition set_cpu x (m : machine) := mk_machine (pcbs m) (tcbs m) (ports m) (handles m) (Tokens m) x (mt m)
  (CurrentTaskingMode m) (MultitaskingSchedulerEnabled m) (CriticalSectionData m) (m_kernel m) (words m) (events m) (inputs m).
Definition set_mt x (m : machine) := mk_machine (pcbs m) (tcbs m) (ports m) (handles m) (Tokens m) (m_cpu m) x
  (CurrentTaskingMode m) (MultitaskingSchedulerEnabled m) (CriticalSectionData m) (m_kernel m) (words m) (events m) (inputs m).
Definition set_mode x e (m : machine) := mk_machine (pcbs m) (tcbs m) (ports m) (handles m) (Tokens m) (m_cpu m) (mt m)
  x e (CriticalSectionData m) (m_kernel m) (words m) (events m) (inputs m).
Definition set_critical x (m : machine) := mk_machine (pcbs m) (tcbs m) (ports m) (handles m) (Tokens m) (m_cpu m) (mt m)
  (CurrentTaskingMode m) (MultitaskingSchedulerEnabled m) x (m_kernel m) (words m) (events m) (inputs m).
Definition set_kernel x (m : machine) := mk_machine (pcbs m) (tcbs m) (ports m) (handles m) (Tokens m) (m_cpu m) (mt m)
  (CurrentTaskingMode m) (MultitaskingSchedulerEnabled m) (CriticalSectionData m) x (words m) (events m) (inputs m).
Definition set_words x (m : machine) := mk_machine (pcbs m) (tcbs m) (ports m) (handles m) (Tokens m) (m_cpu m) (mt m)
  (CurrentTaskingMode m) (MultitaskingSchedulerEnabled m) (CriticalSectionData m) (m_kernel m) x (events m) (inputs m).
Definition emit x (m : machine) := mk_machine (pcbs m) (tcbs m) (ports m) (handles m) (Tokens m) (m_cpu m) (mt m)
  (CurrentTaskingMode m) (MultitaskingSchedulerEnabled m) (CriticalSectionData m) (m_kernel m) (words m) (events m ++ [x]) (inputs m).
Definition next_input (m : machine) := mk_machine (pcbs m) (tcbs m) (ports m) (handles m) (Tokens m) (m_cpu m) (mt m)
  (CurrentTaskingMode m) (MultitaskingSchedulerEnabled m) (CriticalSectionData m) (m_kernel m) (words m) (events m) (S (inputs m)).

Definition set_IF b (m : machine) := let c := m_cpu m in
  set_cpu (mk_cpu (CurrentProcess c) (CurrentThread c) (FS_BASE c) (GS_BASE c) (SHADOW_GS_BASE c) (fpu c) b) m.
Definition set_current p t (m : machine) := let c := m_cpu m in
  set_cpu (mk_cpu p t (FS_BASE c) (GS_BASE c) (SHADOW_GS_BASE c) (fpu c) (IF_flag c)) m.
Definition set_cpu_context fs gs shadow fx (m : machine) := let c := m_cpu m in
  set_cpu (mk_cpu (CurrentProcess c) (CurrentThread c) fs gs shadow fx (IF_flag c)) m.

(** What the code takes from outside: the [n]-th value read from the time
    counter, from the clock registers and from the random number generator,
    the address that [new] returns beside the live objects, the addresses of
    two functions, and the bytes of the image from a string literal on. *)
Class Hardware := {
  counter : nat -> Z;
  cmos : nat -> Z -> Z;
  rand64 : nat -> Z;
  new_address : gset Z -> Z;
  address_ThreadDoExit : Z;
  address_IdleProcessLoop : Z;
  literal : string -> list Z
}.

(** What the theorems rely on: [new] gives an address that is not in use, and
    the image contains the text of a literal. *)
Class HardwareLaws (H : Hardware) := {
  new_fresh s : new_address s ∉ s;
  new_nonnull s : new_address s <> 0;
  literal_text s : exists rest, literal s = bytes_of s ++ 0 :: rest
}.

(** ** Memory *)

Definition live (m : machine) : gset Z := dom (pcbs m) ∪ dom (tcbs m) ∪ dom (ports m) ∪ handles m.

Definition pcb_at (m : machine) (p : Z) : res PCB :=
  if decide (p = 0) then Err NullDeref
  else match pcbs m !! p with Some b => Ok b | None => Err OutOfBounds end.

Definition tcb_at (m : machine) (t : Z) : res TCB :=
  if decide (t = 0) then Err NullDeref
  else match tcbs m !! t with Some b => Ok b | None => Err OutOfBounds end.

(** Assignments through a pointer. *)
Definition update_pcb (m : machine) (p : Z) (f : PCB -> PCB) : res machine :=
  let* b := pcb_at m p in Ok (set_pcbs (<[p := f b]> (pcbs m)) m).

Definition update_tcb (m : machine) (t : Z) (f : TCB -> TCB) : res machine :=
  let* b := tcb_at m t in Ok (set_tcbs (<[t := f b]> (tcbs m)) m).

(** [Parent->Threads.push_back(thread)], [Parent->Children.push_back(process)]
    and [ListProcess.push_back(process)]. *)
Definition push_thread (m : machine) (p t : Z) : res machine :=
  let* b := pcb_at m p in
  let* v := push_back 0 (p_Threads b) t in
  update_pcb m p (set_p_Threads v).

Definition push_child (m : machine) (p c : Z) : res machine :=
  let* b := pcb_at m p in
  let* v := push_back 0 (p_Children b) c in
  update_pcb m p (set_p_Children v).

Definition set_ListProcess v (m : machine) := let x := mt m in
  set_mt (mk_Multitasking v (NextPID x) (NextTID x) (IdleProcess x) (IdleThread x)) m.

Definition push_process (m : machine) (p : Z) : res machine :=
  let* v := push_back 0 (ListProcess (mt m)) p in Ok (set_ListProcess v m).

(** ** Critical sections *)

(** [Enter] makes a lock of its own, which is free; it returns the flag. *)
Definition Enter (m : machine) : machine * bool := (set_IF false m, IF_flag (m_cpu m)).
Definition Leave (m : machine) (enable : bool) : machine := if enable then set_IF true m else m.

(** ** Security tokens *)

Section hardware.
Context `{Hardware}.

Definition zero_token : TokenData := mk_TokenData 0 UnknownTrustLevel 0 false.

Definition CreateToken (m : machine) : res (machine * Z) :=
  let ret := rand64 (inputs m) in
  let* v := push_back zero_token (Tokens m) (mk_TokenData ret UnknownTrustLevel 0 false) in
  Ok (set_Tokens v (next_input m), ret).

(** The loop's [auto var] is a copy of the element, which is what it sets. *)
Fixpoint trust_loop (l : list TokenData) (token : Z) (process : bool) (id : Z) (level : TokenTrustLevel)
    : option TokenData :=
  match l with
  | [] => None
  | var :: l =>
      if decide (Token var = token) then Some (mk_TokenData (Token var) level id process)
      else trust_loop l token process id level
  end.

Definition TrustToken (m : machine) (token : Z) (process : bool) (id : Z) (level : TokenTrustLevel) : res machine :=
  let* l := Vector.elements (Tokens m) in
  let _ := trust_loop l token process id level in
  Ok m.

(** ** Creation *)

(** A number of the clock, in binary coded decimal. *)
Definition bcd (t : Z) : Z := Z.land t 0x0F + Z.shiftr t 4 * 10.

Definition SetInfo (m : machine) (i : GeneralProcessInfo) : machine * GeneralProcessInfo :=
  let n := inputs m in
  let reading k reg := bcd (u8 (cmos (n + k) reg)) in
  (next_input (next_input (next_input (next_input (next_input (next_input (next_input m)))))),
   mk_Info (counter n) (UsedTime i) (OldUsedTime i) (OldSystemTime i) (CurrentSystemTime i)
     (reading 6%nat 0x09) (reading 5%nat 0x08) (reading 4%nat 0x07) (reading 3%nat 0x04) (reading 2%nat 0x02)
     (reading 1%nat 0x00) (Usage i) (i_Architecture i) (i_Platform i) (Priority i) (Affinity i)).

(** The members of zeroed memory. *)
Definition zero_Info : GeneralProcessInfo :=
  mk_Info 0 0 0 0 0 0 0 0 0 0 0 (replicate 256 0) UnknownArchitecture UnknownPlatform 0 (replicate 256 false).
Definition zero_regs : ThreadRegisters := mk_regs 0 0 0 0 0 0 0 0 0 0 0 0 0 0 0 0 0 0 0 0 0 0 0.

Definition set_kind a p n (i : GeneralProcessInfo) :=
  mk_Info (SpawnTime i) (UsedTime i) (OldUsedTime i) (OldSystemTime i) (CurrentSystemTime i)
    (Year i) (Month i) (Day i) (Hour i) (Minute i) (Second i) (Usage i) a p n (Affinity i).

(** [this->NextPID++]. *)
Definition next_pid (m : machine) : machine * Z := let x := mt m in
  (set_mt (mk_Multitasking (ListProcess x) (u64 (NextPID x + 1)) (NextTID x) (IdleProcess x) (IdleThread x)) m, NextPID x).
Definition next_tid (m : machine) : machine * Z := let x := mt m in
  (set_mt (mk_Multitasking (ListProcess x) (NextPID x) (u64 (NextTID x + 1)) (IdleProcess x) (IdleThread x)) m, NextTID x).

Definition kernel_elevation (e : CBElevation) : bool :=
  match e with Idle | Kernel | System => true | _ => false end.

(** [Name] is the memory from the pointer on, of which the code copies as many
    bytes as the member has. *)
Definition CreateProcess (m : machine) (Parent : Z) (Name : list Z) (Elevation : CBElevation) (prio : Z)
    : res (machine * Z) :=
  let '(m, enable) := Enter m in
  let process := new_address (live m) in
  let '(m, info) := SetInfo m zero_Info in
  let '(m, id) := next_pid m in
  let* '(m, token) := CreateToken m in
  let* m := if kernel_elevation Elevation then TrustToken m token true id TrustedByKernel else Ok m in
  let handles := new_address ({[process]} ∪ live m) in
  let m := set_ports (<[handles := HashMap_new]> (ports m)) m in
  let* name := memcpy (replicate 256 0) Name 256 in
  let pt := CreatePageTable (m_kernel m) (bool_decide (Elevation = User)) in
  let b := mk_PCB id name Ready Elevation 0 0 Parent pt
             (set_kind UnknownArchitecture UnknownPlatform prio info) token handles Vector_new Vector_new PROCESS_CHECKSUM in
  let m := set_pcbs (<[process := b]> (pcbs m)) m in
  let* m := if decide (Parent = 0) then Ok m else push_child m Parent process in
  let* m := push_process m process in
  Ok (Leave m enable, process).

(** Selectors of the descriptor table, by eight bytes each. *)
Definition GDT_KERNEL_CODE : Z := 0x08.
Definition GDT_KERNEL_DATA : Z := 0x10.
Definition GDT_USER_CODE : Z := Z.lor 0x18 3.
Definition GDT_USER_DATA : Z := Z.lor 0x20 3.

(** [always_one], [IF] and [ID] of the flags. *)
Definition initial_flags : Z := Z.lor (Z.lor (Z.shiftl 1 1) (Z.shiftl 1 9)) (Z.shiftl 1 21).

(** Zeroed registers with the members that [CreateThread] sets. *)
Definition initial_regs (code data stack function arg0 arg1 : Z) : ThreadRegisters :=
  mk_regs data 0 0 0 0 0 0 0 0 0 arg0 arg1 0 0 0 0 0 0 function code initial_flags stack data.

Definition CreateThread (m : machine) (Parent InstructionPointer Arg0 Arg1 prio : Z) (arch : Architecture) (plat : Platform)
    : res (machine * Z) :=
  let '(m, enable) := Enter m in
  let* ok := if decide (Parent = 0) then Ok false
             else let* p := pcb_at m Parent in Ok (bool_decide (p_Checksum p = PROCESS_CHECKSUM)) in
  if negb ok then Ok (Leave m enable, 0)
  else
    let* p := pcb_at m Parent in
    let thread := new_address (live m) in
    let '(m, id) := next_tid m in
    let* '(m, token) := CreateToken m in
    let* name := cstring (p_Name p) in
    let* buf := strcpy (Some (replicate 256 0)) name in
    let* buf := nonnull buf in
    let fs := FS_BASE (m_cpu m) in
    let* r :=
      match p_Elevation p with
      | System | Idle | Kernel =>
          let* m := TrustToken m token false id TrustedByKernel in
          let* '(k, stack) := AllocateStack (m_kernel m) false in
          let m := set_words (<[stack := address_ThreadDoExit]> (words m)) (set_kernel k m) in
          Ok (Some (m, thread, GDT_KERNEL_CODE, GDT_KERNEL_DATA, stack))
      | User =>
          let* m := TrustToken m token false id Untrusted in
          let* '(k, stack) := AllocateStack (m_kernel m) true in
          Ok (Some (set_kernel k m, 0, GDT_USER_CODE, GDT_USER_DATA, stack))
      | UnknownElevation => Ok None
      end in
    match r with
    | None => Ok (Leave m enable, 0)
    | Some (m, gs, code, data, stack) =>
        let '(m, info) := SetInfo m zero_Info in
        let b := mk_TCB id buf Ready 0 Parent stack (replicate 512 0)
                   (initial_regs code data stack (u64 (InstructionPointer + p_Offset p)) Arg0 Arg1)
                   fs gs (s32 Arg0) Arg1 0 (set_kind arch plat prio info) token THREAD_CHECKSUM in
        let* m := push_thread (set_tcbs (<[thread := b]> (tcbs m)) m) Parent thread in
        Ok (Leave m enable, thread)
    end.

(** ** Validity of control blocks *)

Definition ADDRESS_LIMIT : Z := 0x10000000.

Definition InvalidPCB (m : machine) (pcb : Z) : res bool :=
  if decide (pcb = 0) then Ok true
  else if decide (ADDRESS_LIMIT <= pcb) then Ok true
  else
    let* p := pcb_at m pcb in
    if decide (p_Checksum p <> PROCESS_CHECKSUM) then Ok true
    else if decide (p_Elevation p = Idle) then Ok true
    else Ok false.

Definition InvalidTCB (m : machine) (tcb : Z) : res bool :=
  if decide (tcb = 0) then Ok true
  else if decide (ADDRESS_LIMIT <= tcb) then Ok true
  else
    let* t := tcb_at m tcb in
    if decide (t_Checksum t <> THREAD_CHECKSUM) then Ok true
    else
      let* p := pcb_at m (t_Parent t) in
      if decide (p_Elevation p = Idle) then Ok true
      else Ok false.

(** ** The scheduler *)

Definition SchedulerInterrupt : Z := 0x30.

Definition TriggerOneShot (ms : Z) (m : machine) : machine := emit (OneShot SchedulerInterrupt (u64 ms)) m.

Definition ThreadDoExit (m : machine) (Code : Z) : res machine :=
  let '(m, enable) := Enter m in
  let* m := update_tcb m (CurrentThread (m_cpu m)) (set_t_Status Terminated) in
  let* m := update_tcb m (CurrentThread (m_cpu m)) (set_t_ExitCode Code) in
  Ok (TriggerOneShot 100 (Leave m enable)).

Definition UpdateTimeUsed (now : Z) (i : GeneralProcessInfo) : GeneralProcessInfo :=
  let old := if decide (OldUsedTime i = 0) then SpawnTime i else OldUsedTime i in
  mk_Info (SpawnTime i) (u64 (UsedTime i + u64 (now - old))) now (CurrentSystemTime i) now
    (Year i) (Month i) (Day i) (Hour i) (Minute i) (Second i) (Usage i) (i_Architecture i) (i_Platform i)
    (Priority i) (Affinity i).

Definition set_CR3 (r : Z) (k : kernel) : kernel :=
  mk_kernel (k_vmm k) (KernelPML4 k) (ktm_PML4 k) (ktm_Initalized k) r (cpu_PageTable k) (KPML4Address k).

Definition UpdatePageTable (pt : Z) (m : machine) : machine :=
  if decide (pt = 0) then m
  else if decide (pt <> k_CR3 (m_kernel m)) then set_kernel (set_CR3 pt (m_kernel m)) m
  else m.

(** The first thread in a list that is valid and ready. *)
Fixpoint find_thread (m : machine) (l : list Z) : res (option Z) :=
  match l with
  | [] => Ok None
  | tcb :: l =>
      let* inv := InvalidTCB m tcb in
      if (inv : bool) then find_thread m l
      else
        let* t := tcb_at m tcb in
        if decide (t_Status t <> Ready) then find_thread m l
        else Ok (Some tcb)
  end.

(** The first process in a list that is valid and ready and has such a thread. *)
Fixpoint find_process (m : machine) (l : list Z) : res (option (Z * Z)) :=
  match l with
  | [] => Ok None
  | pcb :: l =>
      let* inv := InvalidPCB m pcb in
      if (inv : bool) then find_process m l
      else
        let* p := pcb_at m pcb in
        if decide (p_Status p <> Ready) then find_process m l
        else
          let* ts := Vector.elements (p_Threads p) in
          let* r := find_thread m ts in
          match r with
          | Some tcb => Ok (Some (pcb, tcb))
          | None => find_process m l
          end
  end.

(** The label [RetryAnotherThread]: [None] is the [break]. *)
Fixpoint RetryAnotherThread (m : machine) (Threads : Vector Z) (tmpidx : Z) (fuel : nat) : res (option Z) :=
  match fuel with
  | O => Err OutOfFuel
  | S f =>
      let* thread := index Threads (u64 (tmpidx + 1)) in
      let* inv := InvalidTCB m thread in
      if (inv : bool) then
        if decide (Vector.size Threads < tmpidx) then Ok None
        else RetryAnotherThread m Threads (u64 (tmpidx + 1)) f
      else
        let* t := tcb_at m thread in
        if decide (t_Status t <> Ready) then RetryAnotherThread m Threads tmpidx f
        else Ok (Some thread)
  end.

(** The search for the current thread in its process, from index [i] with [k]
    indices left, and for the one after it. *)
Fixpoint next_thread (m : machine) (Threads : Vector Z) (current i : Z) (k fuel : nat) : res (option Z) :=
  match k with
  | O => Ok None
  | S k' =>
      let* t := index Threads i in
      if decide (t = current) then RetryAnotherThread m Threads i fuel
      else next_thread m Threads current (i + 1) k' fuel
  end.

(** The label [RetryAnotherProcess]. *)
Fixpoint RetryAnotherProcess (m : machine) (tmpidx : Z) (fuel : nat) : res (option Z) :=
  match fuel with
  | O => Err OutOfFuel
  | S f =>
      let* pcb := index (ListProcess (mt m)) (u64 (tmpidx + 1)) in
      let* inv := InvalidPCB m pcb in
      if (inv : bool) then
        if decide (Vector.size (ListProcess (mt m)) < tmpidx) then Ok None
        else RetryAnotherProcess m (u64 (tmpidx + 1)) f
      else
        let* p := pcb_at m pcb in
        if decide (p_Status p <> Ready) then RetryAnotherProcess m tmpidx f
        else Ok (Some pcb)
  end.

(** The search for the current process in the list, and for a thread of the
    one after it; without one the loop goes on behind the current process. *)
Fixpoint next_process (m : machine) (current i : Z) (k fuel : nat) : res (option (Z * Z)) :=
  match k with
  | O => Ok None
  | S k' =>
      let* p := index (ListProcess (mt m)) i in
      if decide (p = current) then
        let* r := RetryAnotherProcess m i fuel in
        match r with
        | None => Ok None
        | Some pcb =>
            let* b := pcb_at m pcb in
            let* ts := Vector.elements (p_Threads b) in
            let* t := find_thread m ts in
            match t with
            | Some tcb => Ok (Some (pcb, tcb))
            | None => next_process m current (i + 1) k' fuel
            end
        end
      else next_process m current (i + 1) k' fuel
  end.

(** The loop that would remove what is terminated, whose body is disabled. *)
Fixpoint check_processes (m : machine) (l : list Z) : res unit :=
  match l with
  | [] => Ok tt
  | pcb :: l => let* _ := InvalidPCB m pcb in check_processes m l
  end.

(** The search when there is no valid current process or thread. *)
Definition choose_first (m : machine) : res (option (Z * Z)) :=
  let* l := Vector.elements (ListProcess (mt m)) in find_process m l.

(** The search after the current process and thread. *)
Definition choose_next (m : machine) (fuel : nat) : res (option (Z * Z)) :=
  let c := m_cpu m in
  let* p := pcb_at m (CurrentProcess c) in
  let* r := next_thread m (p_Threads p) (CurrentThread c) 0 (Z.to_nat (Vector.size (p_Threads p))) fuel in
  match r with
  | Some thread => Ok (Some (CurrentProcess c, thread))
  | None =>
      let* r := next_process m (CurrentProcess c) 0 (Z.to_nat (Vector.size (ListProcess (mt m)))) fuel in
      match r with
      | Some pt => Ok (Some pt)
      | None =>
          let* l := Vector.elements (ListProcess (mt m)) in
          let* _ := check_processes m l in
          find_process m l
      end
  end.

(** What the handler saves of the interrupted thread. *)
Definition save_current (m : machine) (regs : ThreadRegisters) : res machine :=
  let c := m_cpu m in
  let* m := update_tcb m (CurrentThread c) (set_t_context regs (SHADOW_GS_BASE c) (FS_BASE c) (fpu c)) in
  let* p := pcb_at m (CurrentProcess c) in
  let* m := if decide (p_Status p = Running) then update_pcb m (CurrentProcess c) (set_p_Status Ready) else Ok m in
  let* t := tcb_at m (CurrentThread c) in
  if decide (t_Status t = Running) then update_tcb m (CurrentThread c) (set_t_Status Ready) else Ok m.

(** The label [Idle]. *)
Definition go_idle (m : machine) : res (machine * ThreadRegisters) :=
  let* m :=
    if decide (IdleProcess (mt m) = 0) then
      let* '(m, p) := CreateProcess m 0 (literal "idle") Idle 1 in
      let m := set_mt (let x := mt m in mk_Multitasking (ListProcess x) (NextPID x) (NextTID x) p (IdleThread x)) m in
      let* '(m, t) := CreateThread m p address_IdleProcessLoop 0 0 1 x64 Native in
      Ok (set_mt (let x := mt m in mk_Multitasking (ListProcess x) (NextPID x) (NextTID x) (IdleProcess x) t) m)
    else Ok m in
  let m := set_current (IdleProcess (mt m)) (IdleThread (mt m)) m in
  let* t := tcb_at m (CurrentThread (m_cpu m)) in
  let m := UpdatePageTable (ktm_PML4 (m_kernel m)) m in
  Ok (set_cpu_context (t_fs t) (CurrentThread (m_cpu m)) (CurrentThread (m_cpu m)) (FXRegion t) m, t_Registers t).

(** The label [Success]. *)
Definition go_on (m : machine) (pcb tcb : Z) : res (machine * ThreadRegisters) :=
  let m := set_current pcb tcb m in
  let* m := update_pcb m pcb (set_p_Status Running) in
  let* m := update_tcb m tcb (set_t_Status Running) in
  let* t := tcb_at m tcb in
  let* p := pcb_at m pcb in
  let m := UpdatePageTable (p_PageTable p) m in
  let shadow := match p_Elevation p with
                | System | Idle | Kernel => tcb
                | User => t_gs t
                | UnknownElevation => SHADOW_GS_BASE (m_cpu m)
                end in
  Ok (set_cpu_context (t_fs t) tcb shadow (FXRegion t) m, t_Registers t).

(** The label [End]. *)
Definition finish (m : machine) (regs : ThreadRegisters) : res machine :=
  let c := m_cpu m in
  let n := inputs m in
  let* m := update_pcb (next_input m) (CurrentProcess c) (fun p => set_p_Info (UpdateTimeUsed (counter n) (p_Info p)) p) in
  let* m := update_tcb (next_input m) (CurrentThread c) (fun t => set_t_Info (UpdateTimeUsed (counter (S n)) (t_Info t)) t) in
  let* cs := nonnull (CriticalSectionData m) in
  let m := set_critical (Some (mk_Critical (EnableInterrupts cs) false)) m in
  let m := if EnableInterrupts cs then set_IF true m else m in
  let* t := tcb_at m (CurrentThread c) in
  let m := TriggerOneShot (Priority (t_Info t)) m in
  Ok (emit (EndOfInterrupt (int_num regs)) m).

Definition MultiTaskingSchedulerHandler (m : machine) (regs : ThreadRegisters) (fuel : nat)
    : res (machine * ThreadRegisters) :=
  if negb (MultitaskingSchedulerEnabled m) then
    Ok (emit (EndOfInterrupt (int_num regs)) (TriggerOneShot 100 m), regs)
  else
    let* cs := nonnull (CriticalSectionData m) in
    if CriticalLock cs then Err OutOfFuel
    else
      let m := set_critical (Some (mk_Critical (IF_flag (m_cpu m)) true)) m in
      let m := set_IF false m in
      let* invp := InvalidPCB m (CurrentProcess (m_cpu m)) in
      let* inv := if (invp : bool) then Ok true else InvalidTCB m (CurrentThread (m_cpu m)) in
      let* '(m, choice) :=
        if (inv : bool) then
          let* r := choose_first m in Ok (m, r)
        else
          let* m := save_current m regs in
          let* r := choose_next m fuel in Ok (m, r) in
      let* '(m, regs) := match choice with
                         | Some (pcb, tcb) => go_on m pcb tcb
                         | None => go_idle m
                         end in
      let* m := finish m regs in
      Ok (m, regs).

(** ** Removal *)

Definition free_tcb (m : machine) (t : Z) : machine := set_tcbs (delete t (tcbs m)) m.
Definition free_pcb (m : machine) (p : Z) : machine := set_pcbs (delete p (pcbs m)) m.

(** The loop over [i < tcb->Parent->Threads.size()], with [k] steps left. *)
Fixpoint remove_thread_loop (m : machine) (tcb i : Z) (k : nat) : res machine :=
  match k with
  | O => Ok m
  | S k' =>
      let* t := tcb_at m tcb in
      let* p := pcb_at m (t_Parent t) in
      let* ti := index (p_Threads p) i in
      if decide (ti = tcb) then
        let* b := tcb_at m ti in
        let* k := FreeStack (m_kernel m) (t_Stack b) in
        let* m := update_tcb (set_kernel k m) ti (set_t_Checksum badfennec) in
        let m := free_tcb m ti in
        let* t := tcb_at m tcb in
        let* p := pcb_at m (t_Parent t) in
        let* v := Vector.remove 0 (p_Threads p) i in
        update_pcb m (t_Parent t) (set_p_Threads v)
      else remove_thread_loop m tcb (i + 1) k'
  end.

Definition RemoveThread (m : machine) (tcb : Z) : res machine :=
  let* t := tcb_at m tcb in
  let* p := pcb_at m (t_Parent t) in
  remove_thread_loop m tcb 0 (Z.to_nat (Vector.size (p_Threads p))).

(** [foreach (x in v) body]: the bounds of the buffer are taken once, and the
    elements are read as the loop reaches them. *)
Fixpoint foreach_loop (vec : machine -> res (Vector Z)) (body : machine -> Z -> res machine)
    (m : machine) (i k : nat) : res machine :=
  match k with
  | O => Ok m
  | S k' =>
      let* v := vec m in
      let* b := buffer v in
      let* x := aget b i in
      let* m := body m x in
      foreach_loop vec body m (S i) k'
  end.

Definition foreach (vec : machine -> res (Vector Z)) (body : machine -> Z -> res machine) (m : machine) : res machine :=
  let* v := vec m in foreach_loop vec body m 0 (Z.to_nat (Vector.size v)).

Definition threads_of (p : Z) (m : machine) : res (Vector Z) := let* b := pcb_at m p in Ok (p_Threads b).
Definition children_of (p : Z) (m : machine) : res (Vector Z) := let* b := pcb_at m p in Ok (p_Children b).

(** [for (i < mt->ListProcess.size())] of [RemoveProcess]. *)
Fixpoint unlist_process (m : machine) (pcb i : Z) (k : nat) : res machine :=
  match k with
  | O => Ok m
  | S k' =>
      let* p := index (ListProcess (mt m)) i in
      if decide (p = pcb) then
        let* b := pcb_at m p in
        let m := set_ports (delete (p_IPCHandles b) (ports m)) m in
        let m := set_kernel (RemovePageTable (m_kernel m) (p_PageTable b)) m in
        let* m := update_pcb m p (set_p_Checksum badfennec) in
        let m := free_pcb m p in
        let* v := Vector.remove 0 (ListProcess (mt m)) i in
        Ok (set_ListProcess v m)
      else unlist_process m pcb (i + 1) k'
  end.

(** [fuel] bounds the depth of the tree of processes. *)
Fixpoint RemoveProcess (m : machine) (pcb : Z) (fuel : nat) : res machine :=
  if decide (pcb = 0) then Ok m
  else
    match fuel with
    | O => Err OutOfFuel
    | S f =>
        let* b := pcb_at m pcb in
        if decide (p_Status b = Terminated) then
          let* m := foreach (threads_of pcb) RemoveThread m in
          let* m := foreach (children_of pcb) (fun m c => RemoveProcess m c f) m in
          unlist_process m pcb 0 (Z.to_nat (Vector.size (ListProcess (mt m))))
        else
          foreach (threads_of pcb)
            (fun m t => let* b := tcb_at m t in
                        if decide (t_Status b = Terminated) then RemoveThread m t else Ok m) m
    end.

(** [Multitasking()] and its destructor. *)
Definition Multitasking_new (m : machine) : machine :=
  let m := set_mode Multi (MultitaskingSchedulerEnabled m) m in
  let m := set_mt (mk_Multitasking Vector_new 0 0 0 0) m in
  let m := set_critical (Some (mk_Critical false false)) m in
  TriggerOneShot 100 m.

Definition Multitasking_delete (m : machine) (fuel : nat) : res machine :=
  let m := set_critical None (set_mode NoTasking false m) in
  foreach (fun m => Ok (ListProcess (mt m)))
    (fun m pcb =>
       let* inv := InvalidPCB m pcb in
       if (inv : bool) then Ok m
       else
         let* m := update_pcb m pcb (set_p_Status Terminated) in
         RemoveProcess m pcb fuel) m.

(** The multitasking case of [StartTasking]; the interrupts are off until its
    end. *)
Definition StartTasking (m : machine) (Address : Z) : res machine :=
  let m := Multitasking_new (set_IF false m) in
  let* '(m, p) := CreateProcess m 0 (literal "kernel") Kernel 1 in
  let* '(m, _) := CreateThread m p Address 0 0 1 x64 Native in
  Ok (set_IF true (set_mode (CurrentTaskingMode m) true m)).

(** ** The interface of the kernel *)

(** A pointer to a control block: none, an address, or the static block that
    stands for a task in mono-tasking. *)
Inductive block := NoBlock | At (address : Z) | StaticBlock.

Definition block_of (p : Z) : block := if decide (p = 0) then NoBlock else At p.

Fixpoint process_by_id (m : machine) (l : list Z) (ID : Z) : res block :=
  match l with
  | [] => Ok NoBlock
  | pcb :: l =>
      if decide (pcb = 0) then process_by_id m l ID
      else
        let* p := pcb_at m pcb in
        if decide (p_Checksum p <> PROCESS_CHECKSUM \/ p_Elevation p = Idle) then process_by_id m l ID
        else if decide (p_ID p = ID) then Ok (At pcb) else process_by_id m l ID
  end.

Fixpoint thread_in (m : machine) (l : list Z) (ID : Z) : res block :=
  match l with
  | [] => Ok NoBlock
  | tcb :: l => let* t := tcb_at m tcb in if decide (t_ID t = ID) then Ok (At tcb) else thread_in m l ID
  end.

Fixpoint thread_by_id (m : machine) (l : list Z) (ID : Z) : res block :=
  match l with
  | [] => Ok NoBlock
  | pcb :: l =>
      if decide (pcb = 0) then thread_by_id m l ID
      else
        let* p := pcb_at m pcb in
        if decide (p_Checksum p <> PROCESS_CHECKSUM \/ p_Elevation p = Idle) then thread_by_id m l ID
        else
          let* ts := Vector.elements (p_Threads p) in
          let* r := thread_in m ts ID in
          match r with
          | NoBlock => thread_by_id m l ID
          | r => Ok r
          end
  end.

Definition SysGetProcessByPID (m : machine) (ID : Z) : res block :=
  match CurrentTaskingMode m with
  | Mono => Ok StaticBlock
  | Multi => let* l := Vector.elements (ListProcess (mt m)) in process_by_id m l ID
  | NoTasking => Ok NoBlock
  end.

Definition SysGetThreadByTID (m : machine) (ID : Z) : res block :=
  match CurrentTaskingMode m with
  | Mono => Ok StaticBlock
  | Multi => let* l := Vector.elements (ListProcess (mt m)) in thread_by_id m l ID
  | NoTasking => Ok NoBlock
  end.

Definition SysGetCurrentProcess (m : machine) : block :=
  match CurrentTaskingMode m with
  | Mono => StaticBlock
  | Multi => block_of (CurrentProcess (m_cpu m))
  | NoTasking => NoBlock
  end.

Definition SysGetCurrentThread (m : machine) : block :=
  match CurrentTaskingMode m with
  | Mono => StaticBlock
  | Multi => block_of (CurrentThread (m_cpu m))
  | NoTasking => NoBlock
  end.

Definition SysSetProcessPriority (m : machine) (prio : Z) : res machine :=
  match CurrentTaskingMode m with
  | Multi => update_pcb m (CurrentProcess (m_cpu m)) (fun p => set_p_Info (set_Priority prio (p_Info p)) p)
  | _ => Ok m
  end.

Definition SysGetProcessPriority (m : machine) : res Z :=
  match CurrentTaskingMode m with
  | Multi => let* p := pcb_at m (CurrentProcess (m_cpu m)) in Ok (Priority (p_Info p))
  | _ => Ok 0
  end.

Definition SysSetThreadPriority (m : machine) (prio : Z) : res machine :=
  match CurrentTaskingMode m with
  | Multi => update_tcb m (CurrentThread (m_cpu m)) (fun t => set_t_Info (set_Priority prio (t_Info t)) t)
  | _ => Ok m
  end.

Definition SysGetThreadPriority (m : machine) : res Z :=
  match CurrentTaskingMode m with
  | Multi => let* t := tcb_at m (CurrentThread (m_cpu m)) in Ok (Priority (t_Info t))
  | _ => Ok 0
  end.

Definition SysCreateProcess (m : machine) (Name : list Z) (Elevation : CBElevation) : res (machine * block) :=
  match CurrentTaskingMode m with
  | Mono => Ok (m, StaticBlock)
  | Multi =>
      let* '(m, p) := CreateProcess m (CurrentProcess (m_cpu m)) Name Elevation 1 in Ok (m, At p)
  | NoTasking => Ok (m, NoBlock)
  end.

Definition SysCreateThread (m : machine) (Parent InstructionPointer arg0 arg1 : Z) : res (machine * block) :=
  match CurrentTaskingMode m with
  | Mono => Ok (m, StaticBlock)
  | Multi => let* '(m, t) := CreateThread m Parent InstructionPointer arg0 arg1 1 x64 Native in Ok (m, block_of t)
  | NoTasking => Ok (m, NoBlock)
  end.

(** ** Ports and system calls, in multitasking *)

Definition RegisterHandle (m : machine) (Port : Z) : res (machine * Z) :=
  if decide (Port = 0) then Ok (m, 0)
  else
    let* p := pcb_at m (CurrentProcess (m_cpu m)) in
    let* hm := nonnull (ports m !! p_IPCHandles p) in
    let* v := HashMap.Get hm (s32 Port) in
    if decide (v <> 0) then Ok (m, 0)
    else
      let handle := new_address (live m) in
      let* hm := AddNode hm Port handle 20 in
      Ok (set_handles ({[handle]} ∪ handles m) (set_ports (<[p_IPCHandles p := hm]> (ports m)) m), handle).

Definition internal_exit (m : machine) (code : Z) : res machine :=
  let* m := update_tcb m (CurrentThread (m_cpu m)) (set_t_ExitCode code) in
  update_tcb m (CurrentThread (m_cpu m)) (set_t_Status Terminated).

Definition internal_createthread (m : machine) (ip arg0 arg1 : Z) : res (machine * block) :=
  if CanSyscall then SysCreateThread m (CurrentProcess (m_cpu m)) ip arg0 arg1 else Ok (m, At deniedcall).

Definition internal_getcurrentprocess (m : machine) : block :=
  if CanSyscall then SysGetCurrentProcess m else At deniedcall.

Definition internal_getcurrentthread (m : machine) : block :=
  if CanSyscall then SysGetCurrentThread m else At deniedcall.

Definition internal_getcurrentprocessid (m : machine) : res Z :=
  if CanSyscall then let* p := pcb_at m (CurrentProcess (m_cpu m)) in Ok (p_ID p) else Ok deniedcall.

Definition internal_getcurrentthreadid (m : machine) : res Z :=
  if CanSyscall then let* t := tcb_at m (CurrentThread (m_cpu m)) in Ok (t_ID t) else Ok deniedcall.

Definition internal_getargc (m : machine) : res Z :=
  if CanSyscall then let* t := tcb_at m (CurrentThread (m_cpu m)) in Ok (u64 (t_argc t)) else Ok deniedcall.

Definition internal_getargv (m : machine) : res Z :=
  if CanSyscall then let* t := tcb_at m (CurrentThread (m_cpu m)) in Ok (t_argv t) else Ok deniedcall.

Definition internal_getenvp (m : machine) : res Z :=
  if CanSyscall then let* t := tcb_at m (CurrentThread (m_cpu m)) in Ok (t_envp t) else Ok deniedcall.
End hardware.
