(* ===== verification/TaskingInv.v ===== *)
(** * The invariant of the tasking code

    What the control blocks look like between two entries into the kernel
    ([sched_ok]), the lists of processes and threads that the vectors stand
    for, and a reference definition of the choice that the scheduler makes,
    on these lists. *)

From stdpp Require Import gmap.
From S2P Require Import Prelude CString Vector HashMap PageFrame PageTable KernelMemory Tasking.

Local Open Scope Z_scope.

(** ** Vectors with zeroed spare elements *)

(** The scheduler reads past the size of its vectors.  Vectors that only grow
    hold zeros there. *)
Definition padded (v : Vector Z) (l : list Z) : Prop :=
  VectorSize v = Z.of_nat (length l) /\ VectorCapacity v < 2 ^ 64 /\
  match VectorBuffer v with
  | None => l = [] /\ VectorCapacity v = 0
  | Some b => VectorCapacity v = Z.of_nat (length b) /\ exists n, b = l ++ replicate n 0
  end.

(** The elements of a vector, and how many spare ones follow. *)
Definition list_of (v : Vector Z) : list Z :=
  match Vector.elements v with Ok l => l | Err _ => [] end.
Definition room (v : Vector Z) : Z := VectorCapacity v - VectorSize v.

Lemma padded_represents v l : padded v l -> represents v l.
Proof. intros (Hs & _ & Hb). split; [done|]. destruct (VectorBuffer v); [|done]. destruct Hb as [? [n ->]]. eauto. Qed.

Lemma padded_elements v l : padded v l -> Vector.elements v = Ok l.
Proof.
  intros (Hs & _ & Hb). unfold Vector.elements. rewrite Hs. destruct (VectorBuffer v) as [b|].
  - destruct Hb as [_ [n ->]]. rewrite decide_True by (rewrite length_app; lia). by rewrite Nat2Z.id, take_app_length.
  - destruct Hb as [-> _]. by rewrite decide_True.
Qed.

Lemma padded_list_of v l : padded v l -> list_of v = l.
Proof. intros Hv. unfold list_of. by rewrite (padded_elements v l Hv). Qed.

Lemma padded_new : padded Vector_new [].
Proof. done. Qed.

Lemma padded_size v l : padded v l -> Vector.size v = Z.of_nat (length l).
Proof. by intros [? _]. Qed.

Lemma padded_index v l i x : padded v l -> l !! i = Some x -> index v (Z.of_nat i) = Ok x.
Proof.
  intros (Hs & _ & Hb) Hi. unfold index, buffer. destruct (VectorBuffer v) as [b|].
  - destruct Hb as [_ [n ->]]. cbn [bind]. rewrite Nat2Z.id. apply aget_Ok. by apply lookup_app_l_Some.
  - destruct Hb as [-> _]. done.
Qed.

Lemma padded_index_spare v l i : padded v l -> (length l <= i)%nat -> Z.of_nat i < VectorCapacity v ->
  index v (Z.of_nat i) = Ok 0.
Proof.
  intros (Hs & _ & Hb) Hi Hc. unfold index, buffer. destruct (VectorBuffer v) as [b|]; [|lia].
  destruct Hb as [Hcap [n ->]]. cbn [bind]. rewrite Nat2Z.id. apply aget_Ok.
  rewrite lookup_app_r by done. rewrite length_app, length_replicate in Hcap. apply lookup_replicate_2. lia.
Qed.

Lemma padded_index_end v l i : padded v l -> (0 < length l)%nat -> VectorCapacity v <= Z.of_nat i ->
  index v (Z.of_nat i) = Err OutOfBounds.
Proof.
  intros (Hs & _ & Hb) H0 Hc. unfold index, buffer. destruct (VectorBuffer v) as [b|].
  - destruct Hb as [Hcap _]. cbn [bind]. rewrite Nat2Z.id. apply aget_oob. lia.
  - destruct Hb as [-> _]. simpl in H0. lia.
Qed.

Lemma padded_capacity v l : padded v l -> Z.of_nat (length l) <= VectorCapacity v < 2 ^ 64.
Proof.
  intros (Hs & Hlt & Hb). destruct (VectorBuffer v) as [b|]; [|destruct Hb as [-> ->]; simpl; lia].
  destruct Hb as [Hcap [n ->]]. rewrite length_app in Hcap. lia.
Qed.

(** A push that returns has not wrapped around. *)
Lemma padded_push v l x v' : padded v l -> push_back 0 v x = Ok v' -> padded v' (l ++ [x]).
Proof.
  intros Hv E. pose proof (padded_capacity v l Hv) as Hcap. pose proof (padded_represents v l Hv) as Hr.
  pose proof Hv as (Hs & Hlt & Hb). unfold push_back in E. rewrite Hs in E. case_decide as D.
  - destruct (decide (VectorCapacity v + 5 < 2 ^ 64)) as [H5|H5].
    + rewrite (wrapu_small 64) in E by lia. rewrite (reserve_ok 0 v l _ Hr) in E by lia.
      rewrite take_ge in E by lia. destruct (Z.to_nat (VectorCapacity v + 5) - length l)%nat as [|k] eqn:Ek; [lia|].
      cbn [bind buffer VectorBuffer VectorSize VectorCapacity replicate] in E. rewrite Nat2Z.id, aset_app_r in E by done.
      cbn [bind] in E. injection E as <-. unfold padded. cbn [VectorSize VectorCapacity VectorBuffer].
      rewrite wrapu_small by lia. split_and!; [rewrite length_app; simpl; lia|lia| |exists k; by rewrite <- app_assoc].
      rewrite length_app. simpl. rewrite length_replicate. lia.
    + exfalso. assert (0 <= u64 (VectorCapacity v + 5) < 5) as Hw.
      { unfold wrapu. assert ((VectorCapacity v + 5) mod 2 ^ 64 = VectorCapacity v + 5 - 2 ^ 64) as ->; [|lia].
        symmetry. apply Z.mod_unique with 1; lia. }
      rewrite (reserve_ok 0 v l _ Hr) in E by lia. cbn [bind buffer VectorBuffer VectorSize VectorCapacity] in E.
      rewrite Nat2Z.id, aset_oob in E; [done|]. rewrite length_app, length_take, length_replicate. lia.
  - cbn [bind] in E. unfold buffer in E. destruct (VectorBuffer v) as [b|]; [|destruct Hb as [-> Hc]; simpl in D; lia].
    destruct Hb as [Hcapb [n ->]]. cbn [bind] in E. destruct n as [|n]; [rewrite app_nil_r in Hcapb; lia|].
    simpl replicate in E. rewrite Hs, Nat2Z.id, aset_app_r in E by done. cbn [bind] in E. injection E as <-.
    unfold padded. cbn [VectorSize VectorCapacity VectorBuffer]. rewrite wrapu_small by lia.
    split_and!; [rewrite length_app; simpl; lia|lia| |exists n; by rewrite <- app_assoc].
    rewrite Hcapb, !length_app. simpl. lia.
Qed.

(** ** Processes and threads as lists *)

Definition procs (m : machine) : list Z := list_of (ListProcess (mt m)).

Definition threads (m : machine) (p : Z) : list Z :=
  match pcbs m !! p with Some b => list_of (p_Threads b) | None => [] end.

Definition troom (m : machine) (p : Z) : Z :=
  match pcbs m !! p with Some b => room (p_Threads b) | None => 0 end.

Definition elevation (m : machine) (p : Z) : CBElevation :=
  match pcbs m !! p with Some b => p_Elevation b | None => UnknownElevation end.

Definition pstatus (m : machine) (p : Z) : CBStatus :=
  match pcbs m !! p with Some b => p_Status b | None => UnknownStatus end.

Definition tstatus (m : machine) (t : Z) : CBStatus :=
  match tcbs m !! t with Some b => t_Status b | None => UnknownStatus end.

(** What the scheduler accepts: below the limit of addresses, not idle. *)
Definition pvalid (m : machine) (p : Z) : bool :=
  bool_decide (p < ADDRESS_LIMIT) && bool_decide (elevation m p <> Idle).

Definition tvalid (m : machine) (p t : Z) : bool :=
  bool_decide (t < ADDRESS_LIMIT) && bool_decide (elevation m p <> Idle).

Definition pready (m : machine) (p : Z) : bool := bool_decide (pstatus m p = Ready).
Definition tready (m : machine) (t : Z) : bool := bool_decide (tstatus m t = Ready).

(** The threads that can run, in the order of the lists. *)
Definition ready_threads (m : machine) (p : Z) : list Z :=
  filter (fun t => tvalid m p t && tready m t = true) (threads m p).

Definition candidates (m : machine) : list (Z * Z) :=
  flat_map (fun p => if pvalid m p && pready m p then map (pair p) (ready_threads m p) else []) (procs m).

(** ** The invariant *)

Record struct_ok (m : machine) : Prop := {
  so_procs : padded (ListProcess (mt m)) (procs m);
  so_nodup : NoDup (procs m);
  so_pcb p : p ∈ procs m -> exists b, pcbs m !! p = Some b /\ p <> 0 /\ p_Checksum b = PROCESS_CHECKSUM /\
    padded (p_Threads b) (threads m p) /\ NoDup (threads m p);
  so_tcb p t : p ∈ procs m -> t ∈ threads m p ->
    exists b, tcbs m !! t = Some b /\ t <> 0 /\ t_Parent b = p /\ t_Checksum b = THREAD_CHECKSUM
}.

(** The idle process, once it is made. *)
Definition idle_ok (m : machine) : Prop :=
  IdleProcess (mt m) = 0 /\ IdleThread (mt m) = 0 \/
  IdleProcess (mt m) ∈ procs m /\ elevation m (IdleProcess (mt m)) = Idle /\
  (IdleThread (mt m) = 0 \/ IdleThread (mt m) ∈ threads m (IdleProcess (mt m))).

(** What the processor runs: nothing, the idle thread, or a valid thread. *)
Definition current_ok (m : machine) : Prop :=
  let p := CurrentProcess (m_cpu m) in
  let t := CurrentThread (m_cpu m) in
  p = 0 /\ t = 0 \/
  p ∈ procs m /\ t ∈ threads m p /\
  (pvalid m p = true /\ tvalid m p t = true \/ p = IdleProcess (mt m) /\ t = IdleThread (mt m) /\ p <> 0).

(** Nothing but the current thread and its process is running; processes are
    otherwise ready. *)
Definition running_ok (m : machine) : Prop :=
  (forall p, p ∈ procs m -> pstatus m p = Ready \/
     pstatus m p = Running /\ p = CurrentProcess (m_cpu m) /\ pvalid m p = true) /\
  (forall p t, p ∈ procs m -> t ∈ threads m p -> tstatus m t = Running ->
     p = CurrentProcess (m_cpu m) /\ t = CurrentThread (m_cpu m) /\ tvalid m p t = true).

Definition critical_ok (m : machine) : Prop :=
  exists e, CriticalSectionData m = Some (mk_Critical e false).

Record sched_ok (m : machine) : Prop := {
  ok_struct : struct_ok m;
  ok_idle : idle_ok m;
  ok_current : current_ok m;
  ok_running : running_ok m;
  ok_critical : critical_ok m
}.

(** ** Machines with the same lists *)

Definition pshape (b : PCB) := (p_Checksum b, p_Elevation b, p_Threads b).
Definition tshape (b : TCB) := (t_Checksum b, t_Parent b).

Record same_shape (m m' : machine) : Prop := {
  shape_list : ListProcess (mt m) = ListProcess (mt m');
  shape_idle : IdleProcess (mt m) = IdleProcess (mt m') /\ IdleThread (mt m) = IdleThread (mt m');
  shape_pcb p : pshape <$> pcbs m !! p = pshape <$> pcbs m' !! p;
  shape_tcb t : tshape <$> tcbs m !! t = tshape <$> tcbs m' !! t
}.

#[export] Instance same_shape_equiv : Equivalence same_shape.
Proof.
  split.
  - by intros m.
  - intros m m' [? [? ?] ? ?]. by split.
  - intros m1 m2 m3 [? [? ?] P1 T1] [? [? ?] P2 T2].
    split; [congruence|split; congruence|intros p; by rewrite P1|intros t; by rewrite T1].
Qed.

#[export] Instance procs_proper : Proper (same_shape ==> eq) procs.
Proof. intros m m' Hm. unfold procs. by rewrite (shape_list _ _ Hm). Qed.

#[export] Instance threads_proper : Proper (same_shape ==> eq ==> eq) threads.
Proof.
  intros m m' Hm p _ <-. unfold threads. pose proof (shape_pcb _ _ Hm p) as E.
  destruct (pcbs m !! p), (pcbs m' !! p); try done. by injection E as _ _ ->.
Qed.

#[export] Instance troom_proper : Proper (same_shape ==> eq ==> eq) troom.
Proof.
  intros m m' Hm p _ <-. unfold troom. pose proof (shape_pcb _ _ Hm p) as E.
  destruct (pcbs m !! p), (pcbs m' !! p); try done. by injection E as _ _ ->.
Qed.

#[export] Instance elevation_proper : Proper (same_shape ==> eq ==> eq) elevation.
Proof.
  intros m m' Hm p _ <-. unfold elevation. pose proof (shape_pcb _ _ Hm p) as E.
  destruct (pcbs m !! p), (pcbs m' !! p); try done. by injection E as _ -> _.
Qed.

#[export] Instance pvalid_proper : Proper (same_shape ==> eq ==> eq) pvalid.
Proof. intros m m' Hm p _ <-. unfold pvalid. by rewrite (elevation_proper m m' Hm p p eq_refl). Qed.

#[export] Instance tvalid_proper : Proper (same_shape ==> eq ==> eq ==> eq) tvalid.
Proof. intros m m' Hm p _ <- t _ <-. unfold tvalid. by rewrite (elevation_proper m m' Hm p p eq_refl). Qed.

#[export] Instance struct_ok_proper : Proper (same_shape ==> iff) struct_ok.
Proof.
  enough (forall m m', same_shape m m' -> struct_ok m -> struct_ok m') as Himp.
  { intros m m' Hm. split; apply Himp; [done|by symmetry]. }
  intros m m' Hm Hok. split.
  - rewrite <- (procs_proper m m' Hm), <- (shape_list _ _ Hm). apply (so_procs m Hok).
  - rewrite <- Hm. apply (so_nodup m Hok).
  - intros p. rewrite <- (procs_proper m m' Hm), <- (threads_proper m m' Hm p p eq_refl). intros Hp. destruct (so_pcb m Hok p Hp) as (b & Hb & ? & ? & ? & ?).
    pose proof (shape_pcb _ _ Hm p) as E. rewrite Hb in E. destruct (pcbs m' !! p) as [b'|]; [|done].
    injection E as E1 E2 E3. exists b'. by rewrite <- E1, <- E3.
  - intros p t. rewrite <- (procs_proper m m' Hm), <- (threads_proper m m' Hm p p eq_refl). intros Hp Ht. destruct (so_tcb m Hok p t Hp Ht) as (b & Hb & ? & ? & ?).
    pose proof (shape_tcb _ _ Hm t) as E. rewrite Hb in E. destruct (tcbs m' !! t) as [b'|]; [|done].
    injection E as E1 E2. exists b'. by rewrite <- E1, <- E2.
Qed.

#[export] Instance idle_ok_proper : Proper (same_shape ==> iff) idle_ok.
Proof.
  intros m m' Hm. unfold idle_ok. destruct (shape_idle _ _ Hm) as [<- <-].
  by rewrite (procs_proper m m' Hm), (threads_proper m m' Hm _ _ eq_refl), (elevation_proper m m' Hm _ _ eq_refl).
Qed.

(** ** The loops by [goto] *)

(** Both loops are this one. *)
Fixpoint retry (invalid : Z -> res bool) (status : Z -> res CBStatus) (v : Vector Z) (tmpidx : Z) (fuel : nat)
    : res (option Z) :=
  match fuel with
  | O => Err OutOfFuel
  | S f =>
      let* x := index v (u64 (tmpidx + 1)) in
      let* inv := invalid x in
      if (inv : bool) then
        if decide (Vector.size v < tmpidx) then Ok None
        else retry invalid status v (u64 (tmpidx + 1)) f
      else
        let* s := status x in
        if decide (s <> Ready) then retry invalid status v tmpidx f
        else Ok (Some x)
  end.

Definition status_of_tcb (m : machine) (t : Z) : res CBStatus := let* b := tcb_at m t in Ok (t_Status b).
Definition status_of_pcb (m : machine) (p : Z) : res CBStatus := let* b := pcb_at m p in Ok (p_Status b).

Lemma RetryAnotherThread_retry m v fuel : forall i,
  RetryAnotherThread m v i fuel = retry (InvalidTCB m) (status_of_tcb m) v i fuel.
Proof.
  induction fuel as [|f IH]; intros i; [done|]. cbn [RetryAnotherThread retry].
  destruct (index v (u64 (i + 1))) as [x|]; [|done]. cbn [bind]. destruct (InvalidTCB m x) as [[]|]; [|..|done]; cbn [bind].
  - by rewrite IH.
  - unfold status_of_tcb. destruct (tcb_at m x); [|done]. cbn [bind]. by rewrite IH.
Qed.

Lemma RetryAnotherProcess_retry m fuel : forall i,
  RetryAnotherProcess m i fuel = retry (InvalidPCB m) (status_of_pcb m) (ListProcess (mt m)) i fuel.
Proof.
  induction fuel as [|f IH]; intros i; [done|]. cbn [RetryAnotherProcess retry].
  destruct (index (ListProcess (mt m)) (u64 (i + 1))) as [x|]; [|done]. cbn [bind].
  destruct (InvalidPCB m x) as [[]|]; [|..|done]; cbn [bind].
  - by rewrite IH.
  - unfold status_of_pcb. destruct (pcb_at m x); [|done]. cbn [bind]. by rewrite IH.
Qed.

(** What the loop does, on the elements behind the current one: it takes the
    first valid one if that is ready and never ends if it is not; without a
    valid one it reads three elements past the size. *)
Definition search (valid : Z -> bool) (st : Z -> CBStatus) (spare : Z) (suf : list Z) : res (option Z) :=
  match List.find valid suf with
  | Some x => if decide (st x = Ready) then Ok (Some x) else Err OutOfFuel
  | None => if decide (3 <= spare) then Ok None else Err OutOfBounds
  end.

Section retry.
Context (invalid : Z -> res bool) (status : Z -> res CBStatus) (v : Vector Z) (l : list Z).
Context (valid : Z -> bool) (st : Z -> CBStatus).
Hypothesis Hv : padded v l.
Hypothesis Hnull : invalid 0 = Ok true.
Hypothesis Hinv : forall x, x ∈ l -> invalid x = Ok (negb (valid x)).
Hypothesis Hst : forall x, x ∈ l -> status x = Ok (st x).

Lemma retry_spare n : forall j fuel, (n = length l + 1 - j)%nat -> (length l <= j + 1)%nat -> (j <= length l + 1)%nat ->
  Z.of_nat j + 1 <= VectorCapacity v -> (0 < length l)%nat -> (n < fuel)%nat ->
  retry invalid status v (Z.of_nat j) fuel = if decide (3 <= room v) then Ok None else Err OutOfBounds.
Proof using Hv Hnull.
  pose proof (padded_capacity v l Hv) as Hcap. pose proof (padded_size v l Hv) as Hs.
  assert (room v = VectorCapacity v - Z.of_nat (length l)) as Hroom by (unfold room; fold (Vector.size v); lia).
  induction n as [|n IH]; intros j [|f] Hn H1 H2 H3 H0 Hf; try lia; cbn [retry].
  all: rewrite wrapu_small by lia; replace (Z.of_nat j + 1) with (Z.of_nat (S j)) by lia.
  all: destruct (decide (VectorCapacity v <= Z.of_nat (S j))) as [He|He];
         [rewrite (padded_index_end v l) by done; cbn [bind]; by rewrite decide_False by lia|].
  all: rewrite (padded_index_spare v l) by (done || lia); cbn [bind]; rewrite Hnull; cbn [bind]; rewrite Hs.
  - rewrite decide_True, decide_True by lia. done.
  - rewrite (decide_False (P := Z.of_nat (length l) < Z.of_nat j)) by lia. apply IH; lia.
Qed.

Lemma retry_ok suf : forall i fuel, drop (S i) l = suf -> (i < length l)%nat -> (length l + 3 <= i + fuel)%nat ->
  retry invalid status v (Z.of_nat i) fuel = search valid st (room v) suf \/
  search valid st (room v) suf = Err OutOfFuel.
Proof using Hv Hnull Hinv Hst.
  pose proof (padded_capacity v l Hv) as Hcap. pose proof (padded_size v l Hv) as Hs.
  induction suf as [|x suf IH]; intros i fuel Hsuf Hi Hf.
  - left. assert (S i = length l) as Hlen.
    { apply (f_equal length) in Hsuf. rewrite length_drop in Hsuf. simpl in Hsuf. lia. }
    rewrite (retry_spare 2 i) by lia. done.
  - destruct fuel as [|f]; [lia|]. cbn [retry].
    destruct (drop_cons_lookup l (S i) x suf Hsuf) as [Hlt Hsuf'].
    assert (l !! S i = Some x) as Hx.
    { replace (S i) with (S i + 0)%nat by lia. by rewrite <- lookup_drop, Hsuf. }
    assert (x ∈ l) as Hin by (by apply list_elem_of_lookup_2 with (S i)).
    rewrite wrapu_small by lia. replace (Z.of_nat i + 1) with (Z.of_nat (S i)) by lia.
    rewrite (padded_index v l _ x Hv Hx). cbn [bind]. rewrite (Hinv x Hin). cbn [bind]. unfold search. cbn [List.find].
    destruct (valid x); cbn [negb].
    + rewrite (Hst x Hin). cbn [bind]. destruct (decide (st x = Ready)) as [E|E]; [|by right].
      left. by rewrite decide_False by tauto.
    + rewrite decide_False by lia. apply IH; [done|lia..].
Qed.

(** However long the loop runs, it stays at a valid element that is not ready. *)
Lemma retry_hangs x : st x <> Ready -> forall fuel i, (i < length l)%nat ->
  List.find valid (drop (S i) l) = Some x -> retry invalid status v (Z.of_nat i) fuel = Err OutOfFuel.
Proof using Hv Hinv Hst.
  pose proof (padded_capacity v l Hv) as Hcap. pose proof (padded_size v l Hv) as Hs.
  intros Hx. induction fuel as [|f IH]; intros i Hi Hfind; [done|]. cbn [retry].
  destruct (drop (S i) l) as [|y suf] eqn:Hsuf; [done|]. destruct (drop_cons_lookup l (S i) y suf Hsuf) as [Hlt Hsuf'].
  assert (l !! S i = Some y) as Hy.
  { replace (S i) with (S i + 0)%nat by lia. by rewrite <- lookup_drop, Hsuf. }
  assert (y ∈ l) as Hin by (by apply list_elem_of_lookup_2 with (S i)).
  rewrite wrapu_small by lia. replace (Z.of_nat i + 1) with (Z.of_nat (S i)) by lia.
  rewrite (padded_index v l _ y Hv Hy). cbn [bind]. rewrite (Hinv y Hin). cbn [bind List.find] in *.
  destruct (valid y) eqn:Ey; cbn [negb].
  - injection Hfind as ->. rewrite (Hst x Hin). cbn [bind]. rewrite decide_True by done. apply IH; [done|].
    rewrite Hsuf. cbn [List.find]. by rewrite Ey.
  - rewrite decide_False by lia. apply IH; [done|]. by rewrite Hsuf'.
Qed.
End retry.

(** ** A reference definition of the choice *)

(** The elements behind [x]. *)
Fixpoint after (x : Z) (l : list Z) : list Z :=
  match l with
  | [] => []
  | y :: l => if decide (y = x) then l else after x l
  end.

(** The next thread of the current process; the first thread of the next
    process; the first thread that can run at all. *)
Definition reference_choice (m : machine) : res (option (Z * Z)) :=
  let p := CurrentProcess (m_cpu m) in
  let t := CurrentThread (m_cpu m) in
  let* r := search (tvalid m p) (tstatus m) (troom m p) (after t (threads m p)) in
  match r with
  | Some t' => Ok (Some (p, t'))
  | None =>
      let* r := search (pvalid m) (pstatus m) (room (ListProcess (mt m))) (after p (procs m)) in
      match r with
      | Some p' =>
          match head (ready_threads m p') with
          | Some t' => Ok (Some (p', t'))
          | None => Ok (head (candidates m))
          end
      | None => Ok (head (candidates m))
      end
  end.

(** Steps enough for both loops. *)
Definition sched_fuel (m : machine) : nat :=
  (length (procs m) + length (threads m (CurrentProcess (m_cpu m))) + 3)%nat.

Lemma after_spec x l : x ∈ l -> exists j, l !! j = Some x /\ (forall i, (i < j)%nat -> l !! i <> Some x) /\
  after x l = drop (S j) l.
Proof.
  induction l as [|y l IH]; intros Hx; [by apply elem_of_nil in Hx|]. simpl. destruct (decide (y = x)) as [->|Hne].
  - exists 0%nat. split_and!; [done|intros i ?; lia|done].
  - apply elem_of_cons in Hx as [->|Hx]; [done|]. destruct (IH Hx) as (j & Hj & Hb & E). exists (S j).
    split_and!; [done| |done]. intros [|i] Hi; [by intros [= ?]|]. apply Hb. lia.
Qed.

Lemma search_hang valid st n suf : search valid st n suf = Err OutOfFuel ->
  exists x, List.find valid suf = Some x /\ st x <> Ready.
Proof.
  unfold search. destruct (List.find valid suf) as [x|]; [case_decide|case_decide]; [done| |done..]. eauto.
Qed.

Lemma find_elem (f : Z -> bool) l x : List.find f l = Some x -> x ∈ l /\ f x = true.
Proof. intros E. apply List.find_some in E as [? ?]. by rewrite list_elem_of_In. Qed.

Section struct.
Context (m : machine) (Hok : struct_ok m).

Lemma pcb_at_ok p : p ∈ procs m -> exists b, pcb_at m p = Ok b /\ pcbs m !! p = Some b.
Proof.
  intros Hp. destruct (so_pcb m Hok p Hp) as (b & Hb & Hp0 & _). exists b. unfold pcb_at.
  by rewrite decide_False, Hb.
Qed.

Lemma tcb_at_ok p t : p ∈ procs m -> t ∈ threads m p -> exists b, tcb_at m t = Ok b /\ tcbs m !! t = Some b.
Proof.
  intros Hp Ht. destruct (so_tcb m Hok p t Hp Ht) as (b & Hb & Ht0 & _). exists b. unfold tcb_at.
  by rewrite decide_False, Hb.
Qed.

Lemma status_of_pcb_ok p : p ∈ procs m -> status_of_pcb m p = Ok (pstatus m p).
Proof. intros Hp. destruct (pcb_at_ok p Hp) as (b & E & Hb). unfold status_of_pcb, pstatus. by rewrite E, Hb. Qed.

Lemma status_of_tcb_ok p t : p ∈ procs m -> t ∈ threads m p -> status_of_tcb m t = Ok (tstatus m t).
Proof.
  intros Hp Ht. destruct (tcb_at_ok p t Hp Ht) as (b & E & Hb). unfold status_of_tcb, tstatus. by rewrite E, Hb.
Qed.

Lemma InvalidPCB_ok p : p ∈ procs m -> InvalidPCB m p = Ok (negb (pvalid m p)).
Proof.
  intros Hp. destruct (so_pcb m Hok p Hp) as (b & Hb & Hp0 & Hc & _). unfold InvalidPCB, pvalid, elevation, pcb_at.
  rewrite Hb, !(decide_False (P := p = 0)) by done. case_decide; [by rewrite bool_decide_eq_false_2 by lia|].
  rewrite bool_decide_eq_true_2 by lia. cbn [bind andb]. rewrite decide_False by (intros ?; done).
  destruct (decide (p_Elevation b = Idle)); [by rewrite bool_decide_eq_false_2 by tauto|].
  by rewrite bool_decide_eq_true_2.
Qed.

Lemma InvalidTCB_ok p t : p ∈ procs m -> t ∈ threads m p -> InvalidTCB m t = Ok (negb (tvalid m p t)).
Proof.
  intros Hp Ht. destruct (so_tcb m Hok p t Hp Ht) as (b & Hb & Ht0 & Hpar & Hc).
  destruct (pcb_at_ok p Hp) as (bp & Ep & Hbp). unfold InvalidTCB, tvalid, elevation, tcb_at.
  rewrite Hb, Hbp, !(decide_False (P := t = 0)) by done. case_decide; [by rewrite bool_decide_eq_false_2 by lia|].
  rewrite bool_decide_eq_true_2 by lia. cbn [bind andb]. rewrite decide_False by (intros ?; done). rewrite Hpar, Ep.
  cbn [bind]. destruct (decide (p_Elevation bp = Idle)); [by rewrite bool_decide_eq_false_2 by tauto|].
  by rewrite bool_decide_eq_true_2.
Qed.

Lemma threads_padded p b : p ∈ procs m -> pcbs m !! p = Some b -> padded (p_Threads b) (threads m p).
Proof. intros Hp Hb. destruct (so_pcb m Hok p Hp) as (b' & Hb' & _ & _ & Hpad & _). congruence. Qed.

Lemma find_thread_ok p l : p ∈ procs m -> l ⊆ threads m p ->
  find_thread m l = Ok (head (filter (fun t => tvalid m p t && tready m t = true) l)).
Proof.
  intros Hp. induction l as [|t l IH]; intros Hl; [done|]. cbn [find_thread].
  assert (t ∈ threads m p) as Ht by (apply Hl; left). assert (l ⊆ threads m p) as Hl' by (intros x Hx; apply Hl; by right).
  rewrite (InvalidTCB_ok p t Hp Ht), (IH Hl'). cbn [bind]. rewrite filter_cons.
  destruct (tvalid m p t); cbn [negb andb]; [|by rewrite decide_False].
  destruct (tcb_at_ok p t Hp Ht) as (b & -> & Hb). cbn [bind]. unfold tready, tstatus. rewrite Hb.
  destruct (decide (t_Status b <> Ready)).
  - rewrite bool_decide_eq_false_2 by done. by rewrite decide_False.
  - rewrite bool_decide_eq_true_2 by (by destruct (decide (t_Status b = Ready))). by rewrite decide_True.
Qed.

Lemma find_process_ok l : l ⊆ procs m ->
  find_process m l = Ok (head (flat_map (fun p => if pvalid m p && pready m p then map (pair p) (ready_threads m p) else []) l)).
Proof.
  induction l as [|p l IH]; intros Hl; [done|]. cbn [find_process flat_map].
  assert (p ∈ procs m) as Hp by (apply Hl; left). assert (l ⊆ procs m) as Hl' by (intros x Hx; apply Hl; by right).
  rewrite (InvalidPCB_ok p Hp), (IH Hl'). cbn [bind]. destruct (pvalid m p); cbn [negb andb]; [|done].
  destruct (pcb_at_ok p Hp) as (b & -> & Hb). cbn [bind].
  replace (pready m p) with (bool_decide (p_Status b = Ready)) by (unfold pready, pstatus; by rewrite Hb).
  destruct (decide (p_Status b <> Ready)); [by rewrite bool_decide_eq_false_2|].
  rewrite bool_decide_eq_true_2 by (by destruct (decide (p_Status b = Ready))).
  rewrite (padded_elements _ _ (threads_padded p b Hp Hb)). cbn [bind].
  rewrite (find_thread_ok p) by done. cbn [bind]. fold (ready_threads m p). by destruct (ready_threads m p).
Qed.

Lemma choose_first_ok : choose_first m = Ok (head (candidates m)).
Proof.
  unfold choose_first. rewrite (padded_elements _ _ (so_procs m Hok)). cbn [bind]. by apply find_process_ok.
Qed.

Lemma check_processes_ok l : l ⊆ procs m -> check_processes m l = Ok tt.
Proof.
  induction l as [|p l IH]; intros Hl; [done|]. simpl. rewrite InvalidPCB_ok by (apply Hl; left).
  apply IH. intros x Hx. apply Hl. by right.
Qed.

(** The two loops are the two searches. *)
Lemma retry_thread_ok p b j fuel : p ∈ procs m -> pcbs m !! p = Some b -> (j < length (threads m p))%nat ->
  let r := search (tvalid m p) (tstatus m) (troom m p) (drop (S j) (threads m p)) in
  ((length (threads m p) + 3 <= j + fuel)%nat \/ r = Err OutOfFuel) ->
  RetryAnotherThread m (p_Threads b) (Z.of_nat j) fuel = r.
Proof.
  intros Hp Hb Hj. assert (troom m p = room (p_Threads b)) as -> by (unfold troom; by rewrite Hb).
  intros r Hf. rewrite RetryAnotherThread_retry. pose proof (threads_padded p b Hp Hb) as Hv.
  assert (r = Err OutOfFuel -> retry (InvalidTCB m) (status_of_tcb m) (p_Threads b) (Z.of_nat j) fuel = r) as Hhang.
  { intros Hr. rewrite Hr. destruct (search_hang _ _ _ _ Hr) as (x & Hx & Hn).
    exact (retry_hangs (InvalidTCB m) (status_of_tcb m) (p_Threads b) (threads m p) (tvalid m p) (tstatus m) Hv
      (fun x Hx => InvalidTCB_ok p x Hp Hx) (fun x Hx => status_of_tcb_ok p x Hp Hx) x Hn fuel j Hj Hx). }
  destruct Hf as [Hf|Hr]; [|auto].
  destruct (retry_ok (InvalidTCB m) (status_of_tcb m) (p_Threads b) (threads m p) (tvalid m p) (tstatus m) Hv eq_refl
    (fun x Hx => InvalidTCB_ok p x Hp Hx) (fun x Hx => status_of_tcb_ok p x Hp Hx) _ j fuel eq_refl Hj Hf) as [E|Hr]; auto.
Qed.

Lemma retry_process_ok j fuel : (j < length (procs m))%nat ->
  let r := search (pvalid m) (pstatus m) (room (ListProcess (mt m))) (drop (S j) (procs m)) in
  ((length (procs m) + 3 <= j + fuel)%nat \/ r = Err OutOfFuel) ->
  RetryAnotherProcess m (Z.of_nat j) fuel = r.
Proof.
  intros Hj r Hf. rewrite RetryAnotherProcess_retry. pose proof (so_procs m Hok) as Hv.
  assert (r = Err OutOfFuel -> retry (InvalidPCB m) (status_of_pcb m) (ListProcess (mt m)) (Z.of_nat j) fuel = r) as Hhang.
  { intros Hr. rewrite Hr. destruct (search_hang _ _ _ _ Hr) as (x & Hx & Hn).
    exact (retry_hangs (InvalidPCB m) (status_of_pcb m) _ (procs m) (pvalid m) (pstatus m) Hv
      InvalidPCB_ok status_of_pcb_ok x Hn fuel j Hj Hx). }
  destruct Hf as [Hf|Hr]; [|auto].
  destruct (retry_ok (InvalidPCB m) (status_of_pcb m) _ (procs m) (pvalid m) (pstatus m) Hv eq_refl
    InvalidPCB_ok status_of_pcb_ok _ j fuel eq_refl Hj Hf) as [E|Hr]; auto.
Qed.
End struct.

Section choice.
Context (m : machine) (Hok : struct_ok m).

(** Finding an element by index. *)
Lemma next_thread_at v l t fuel j : padded v l -> l !! j = Some t -> (forall i, (i < j)%nat -> l !! i <> Some t) ->
  forall n i, (i + n = j)%nat -> next_thread m v t (Z.of_nat i) (length l - i) fuel = RetryAnotherThread m v (Z.of_nat j) fuel.
Proof.
  intros Hv Hj Hb. pose proof (lookup_lt_Some _ _ _ Hj). induction n as [|n IH]; intros i Hi.
  - replace i with j by lia. destruct (length l - j)%nat eqn:E; [lia|]. cbn [next_thread].
    rewrite (padded_index v l j t Hv Hj). cbn [bind]. by rewrite decide_True.
  - destruct (length l - i)%nat as [|k] eqn:E; [lia|]. cbn [next_thread].
    destruct (lookup_lt_is_Some_2 l i ltac:(lia)) as [x Hx]. rewrite (padded_index v l i x Hv Hx). cbn [bind].
    rewrite decide_False by (intros ->; by apply (Hb i); [lia|]).
    replace (Z.of_nat i + 1) with (Z.of_nat (S i)) by lia. replace k with (length l - S i)%nat by lia. apply IH. lia.
Qed.

Lemma next_thread_ok p t b fuel : p ∈ procs m -> t ∈ threads m p -> pcbs m !! p = Some b ->
  let r := search (tvalid m p) (tstatus m) (troom m p) (after t (threads m p)) in
  ((length (threads m p) + 3 <= fuel)%nat \/ r = Err OutOfFuel) ->
  next_thread m (p_Threads b) t 0 (Z.to_nat (Vector.size (p_Threads b))) fuel = r.
Proof using Hok.
  intros Hp Ht Hb r Hf. pose proof (threads_padded m Hok p b Hp Hb) as Hv.
  destruct (after_spec t (threads m p) Ht) as (j & Hj & Hbefore & Ea). unfold r in *. rewrite Ea in *.
  rewrite (padded_size _ _ Hv), Nat2Z.id.
  pose proof (next_thread_at _ _ t fuel j Hv Hj Hbefore j 0 eq_refl) as E. rewrite Nat.sub_0_r in E.
  change (Z.of_nat 0) with 0 in E. rewrite E.
  apply (retry_thread_ok m Hok); [done..|by eapply lookup_lt_Some|]. destruct Hf; [left; lia|by right].
Qed.

(** Behind its only occurrence, the search for the current process ends. *)
Lemma next_process_none cur fuel : forall k i, (forall i', (i <= i')%nat -> procs m !! i' <> Some cur) -> (k = length (procs m) - i)%nat ->
  next_process m cur (Z.of_nat i) k fuel = Ok None.
Proof using Hok.
  pose proof (so_procs m Hok) as Hv. induction k as [|k IH]; intros i Hno Hk; [done|]. cbn [next_process].
  destruct (lookup_lt_is_Some_2 (procs m) i ltac:(lia)) as [x Hx]. rewrite (padded_index _ _ i x Hv Hx). cbn [bind].
  rewrite decide_False by (intros ->; by apply (Hno i)). replace (Z.of_nat i + 1) with (Z.of_nat (S i)) by lia.
  apply IH; [|lia]. intros i' Hi'. apply Hno. lia.
Qed.

Definition process_choice (cur : Z) : res (option (Z * Z)) :=
  let* r := search (pvalid m) (pstatus m) (room (ListProcess (mt m))) (after cur (procs m)) in
  match r with
  | Some p' => Ok (option_map (pair p') (head (ready_threads m p')))
  | None => Ok None
  end.

Lemma next_process_at cur fuel j : procs m !! j = Some cur ->
  let r := search (pvalid m) (pstatus m) (room (ListProcess (mt m))) (drop (S j) (procs m)) in
  ((length (procs m) + 3 <= j + fuel)%nat \/ r = Err OutOfFuel) ->
  next_process m cur (Z.of_nat j) (length (procs m) - j) fuel =
    (let* r := r in match r with Some p' => Ok (option_map (pair p') (head (ready_threads m p'))) | None => Ok None end).
Proof using Hok.
  intros Hj r Hf. pose proof (so_procs m Hok) as Hv. pose proof (lookup_lt_Some _ _ _ Hj) as Hlt.
  destruct (length (procs m) - j)%nat as [|k] eqn:Ek; [lia|]. cbn [next_process].
  rewrite (padded_index _ _ j cur Hv Hj). cbn [bind]. rewrite decide_True by done.
  rewrite (retry_process_ok m Hok j fuel Hlt Hf). fold r. destruct r as [[p'|]|e] eqn:Er; cbn [bind]; [|done..].
  assert (p' ∈ procs m) as Hp'.
  { unfold r, search in Er. destruct (List.find _ _) as [x|] eqn:Ef; [|by case_decide]. case_decide; [|done].
    injection Er as ->. apply find_elem in Ef as [Hin _]. apply list_elem_of_lookup in Hin as [i Hi].
    rewrite lookup_drop in Hi. by apply list_elem_of_lookup_2 in Hi. }
  destruct (pcb_at_ok m Hok p' Hp') as (b & -> & Hb). cbn [bind].
  rewrite (padded_elements _ _ (threads_padded m Hok p' b Hp' Hb)). cbn [bind].
  rewrite (find_thread_ok m Hok p') by done. cbn [bind]. fold (ready_threads m p').
  destruct (ready_threads m p') as [|t' l]; [|done]. cbn [head option_map].
  replace (Z.of_nat j + 1) with (Z.of_nat (S j)) by lia. apply next_process_none; [|lia].
  intros i' Hi' E. pose proof (NoDup_lookup _ i' j cur (so_nodup m Hok) E Hj). lia.
Qed.

Lemma next_process_ok cur fuel : cur ∈ procs m ->
  (length (procs m) + 3 <= fuel)%nat \/ process_choice cur = Err OutOfFuel ->
  next_process m cur 0 (Z.to_nat (Vector.size (ListProcess (mt m)))) fuel = process_choice cur.
Proof using Hok.
  intros Hc Hf. pose proof (so_procs m Hok) as Hv. destruct (after_spec cur (procs m) Hc) as (j & Hj & Hb & Ea).
  unfold process_choice in *. rewrite Ea in *. rewrite (padded_size _ _ Hv), Nat2Z.id.
  pose proof (lookup_lt_Some _ _ _ Hj) as Hlt.
  assert (forall n i, (i + n = j)%nat -> next_process m cur (Z.of_nat i) (length (procs m) - i) fuel =
    next_process m cur (Z.of_nat j) (length (procs m) - j) fuel) as Hskip.
  { induction n as [|n IH]; intros i Hi; [by replace i with j by lia|].
    destruct (length (procs m) - i)%nat as [|k] eqn:E; [lia|]. cbn [next_process].
    destruct (lookup_lt_is_Some_2 (procs m) i ltac:(lia)) as [x Hx]. rewrite (padded_index _ _ i x Hv Hx). cbn [bind].
    rewrite decide_False by (intros ->; by apply (Hb i); [lia|]).
    replace (Z.of_nat i + 1) with (Z.of_nat (S i)) by lia. replace k with (length (procs m) - S i)%nat by lia.
    apply IH. lia. }
  specialize (Hskip j 0%nat ltac:(lia)). rewrite Nat.sub_0_r in Hskip. change (Z.of_nat 0) with 0 in Hskip.
  rewrite Hskip. apply next_process_at; [done|].
  destruct Hf as [Hf|Hf]; [left; lia|]. right. destruct (search _ _ _ _) as [[?|]|]; cbn [bind] in Hf; [done..|by injection Hf as ->].
Qed.
End choice.

(** The code's choice is the reference's, with enough fuel, or with any fuel
    where the reference has no end. *)
Lemma choose_next_ok m fuel : struct_ok m ->
  CurrentProcess (m_cpu m) ∈ procs m -> CurrentThread (m_cpu m) ∈ threads m (CurrentProcess (m_cpu m)) ->
  (sched_fuel m <= fuel)%nat -> choose_next m fuel = reference_choice m.
Proof.
  intros Hok Hp Ht Hf. unfold choose_next, reference_choice, sched_fuel in *.
  destruct (pcb_at_ok m Hok _ Hp) as (b & -> & Hb). cbn [bind].
  rewrite (next_thread_ok m Hok _ _ b) by (try done; left; lia).
  destruct (search (tvalid m (CurrentProcess (m_cpu m))) _ _ _) as [[t'|]|]; cbn [bind]; [done| |done].
  rewrite (next_process_ok m Hok) by (try done; left; lia). unfold process_choice.
  destruct (search (pvalid m) _ _ _) as [[p'|]|]; cbn [bind]; [|..|done].
  - destruct (ready_threads m p') as [|t' l] eqn:E; cbn [head option_map]; [|done].
    rewrite (padded_elements _ _ (so_procs m Hok)). cbn [bind]. rewrite (check_processes_ok m Hok) by done. cbn [bind].
    by rewrite (find_process_ok m Hok).
  - rewrite (padded_elements _ _ (so_procs m Hok)). cbn [bind]. rewrite (check_processes_ok m Hok) by done. cbn [bind].
    by rewrite (find_process_ok m Hok).
Qed.

Lemma choose_next_hangs m fuel : struct_ok m ->
  CurrentProcess (m_cpu m) ∈ procs m -> CurrentThread (m_cpu m) ∈ threads m (CurrentProcess (m_cpu m)) ->
  search (tvalid m (CurrentProcess (m_cpu m))) (tstatus m) (troom m (CurrentProcess (m_cpu m)))
    (after (CurrentThread (m_cpu m)) (threads m (CurrentProcess (m_cpu m)))) = Err OutOfFuel ->
  choose_next m fuel = Err OutOfFuel.
Proof.
  intros Hok Hp Ht Hr. unfold choose_next. destruct (pcb_at_ok m Hok _ Hp) as (b & -> & Hb). cbn [bind].
  rewrite (next_thread_ok m Hok _ _ b) by (try done; by right). by rewrite Hr.
Qed.
