(* ===== verification/TaskingSpec.v ===== *)
(** * Theorems about the scheduler

    The handler of the scheduling interrupt does what the reference choice
    says; the invariant holds in every state that the kernel reaches; threads
    that are ready take turns and find their registers again; and the states
    in which the handler does not return. *)

From stdpp Require Import gmap relations.
From S2P Require Import Prelude CString Vector HashMap PageFrame PageTable KernelMemory Tasking TaskingInv.

Local Open Scope Z_scope.

(** ** Machines that agree on what the scheduler looks at *)

Definition pview (b : PCB) := (pshape b, p_Status b).
Definition tview (b : TCB) := (tshape b, t_Status b).

Record same_sched (m m' : machine) : Prop := {
  view_list : ListProcess (mt m) = ListProcess (mt m');
  view_idle : IdleProcess (mt m) = IdleProcess (mt m') /\ IdleThread (mt m) = IdleThread (mt m');
  view_pcb p : pview <$> pcbs m !! p = pview <$> pcbs m' !! p;
  view_tcb t : tview <$> tcbs m !! t = tview <$> tcbs m' !! t;
  view_process : CurrentProcess (m_cpu m) = CurrentProcess (m_cpu m');
  view_thread : CurrentThread (m_cpu m) = CurrentThread (m_cpu m')
}.

#[export] Instance same_sched_equiv : Equivalence same_sched.
Proof.
  split.
  - by intros m.
  - intros m m' [? [? ?] ? ? ? ?]. by split.
  - intros m1 m2 m3 [? [? ?] P1 T1 ? ?] [? [? ?] P2 T2 ? ?].
    split; [congruence|split; congruence|intros p; by rewrite P1|intros t; by rewrite T1|congruence..].
Qed.

#[export] Instance same_sched_shape : subrelation same_sched same_shape.
Proof.
  intros m m' Hm. split; [apply (view_list _ _ Hm)|apply (view_idle _ _ Hm)|intros p|intros t].
  - pose proof (view_pcb _ _ Hm p) as E. destruct (pcbs m !! p), (pcbs m' !! p); try done. injection E as E1 E2 E3 _.
    unfold pshape. simpl. by rewrite E1, E2, E3.
  - pose proof (view_tcb _ _ Hm t) as E. destruct (tcbs m !! t), (tcbs m' !! t); try done. injection E as E1 E2 _.
    unfold tshape. simpl. by rewrite E1, E2.
Qed.

#[export] Instance pstatus_proper : Proper (same_sched ==> eq ==> eq) pstatus.
Proof.
  intros m m' Hm p _ <-. unfold pstatus. pose proof (view_pcb _ _ Hm p) as E.
  destruct (pcbs m !! p), (pcbs m' !! p); try done. by injection E.
Qed.

#[export] Instance tstatus_proper : Proper (same_sched ==> eq ==> eq) tstatus.
Proof.
  intros m m' Hm t _ <-. unfold tstatus. pose proof (view_tcb _ _ Hm t) as E.
  destruct (tcbs m !! t), (tcbs m' !! t); try done. by injection E.
Qed.

(** The parts of the invariant other than the lock. *)
Definition core_ok (m : machine) : Prop := struct_ok m /\ idle_ok m /\ current_ok m /\ running_ok m.

Lemma sched_core m : sched_ok m <-> core_ok m /\ critical_ok m.
Proof. split; [by intros []|]. by intros [(? & ? & ? & ?) ?]. Qed.

Lemma core_ok_same m m' : same_sched m m' -> core_ok m -> core_ok m'.
Proof.
  intros Hm (Hs & Hi & Hc & Hr). pose proof (same_sched_shape _ _ Hm) as Hsh.
  split_and!; [by rewrite <- Hsh|by rewrite <- Hsh|..].
  - unfold current_ok in *. destruct (shape_idle _ _ Hsh) as [<- <-].
    rewrite <- (view_process _ _ Hm), <- (view_thread _ _ Hm), <- (procs_proper _ _ Hsh),
      <- (threads_proper _ _ Hsh _ _ eq_refl), <- (pvalid_proper _ _ Hsh _ _ eq_refl), <- (tvalid_proper _ _ Hsh _ _ eq_refl _ _ eq_refl).
    done.
  - destruct Hr as [Hp Ht]. split.
    + intros p. rewrite <- (view_process _ _ Hm), <- (procs_proper _ _ Hsh), <- (pstatus_proper _ _ Hm _ _ eq_refl),
        <- (pvalid_proper _ _ Hsh _ _ eq_refl). apply Hp.
    + intros p t. rewrite <- (view_process _ _ Hm), <- (view_thread _ _ Hm), <- (procs_proper _ _ Hsh),
        <- (threads_proper _ _ Hsh _ _ eq_refl), <- (tstatus_proper _ _ Hm _ _ eq_refl),
        <- (tvalid_proper _ _ Hsh _ _ eq_refl _ _ eq_refl). apply Ht.
Qed.

(** ** Updates in place *)

Lemma insert_alter {A} (M : gmap Z A) k b f : M !! k = Some b -> <[k := f b]> M = alter f k M.
Proof.
  intros Hb. apply map_eq. intros i. destruct (decide (i = k)) as [->|Hne].
  - by rewrite lookup_insert_eq, lookup_alter_eq, Hb.
  - by rewrite lookup_insert_ne, lookup_alter_ne.
Qed.

Lemma fmap_alter {A B} (g : A -> B) f (M : gmap Z A) k i :
  (forall b, M !! k = Some b -> g (f b) = g b) -> g <$> alter f k M !! i = g <$> M !! i.
Proof.
  intros Hg. destruct (decide (i = k)) as [->|Hne]; [|by rewrite lookup_alter_ne].
  rewrite lookup_alter_eq. destruct (M !! k) as [b|] eqn:E; [|done]. simpl. by rewrite Hg.
Qed.

Lemma update_pcb_eq m p b f : p <> 0 -> pcbs m !! p = Some b -> update_pcb m p f = Ok (set_pcbs (alter f p (pcbs m)) m).
Proof. intros Hp Hb. unfold update_pcb, pcb_at. rewrite decide_False, Hb by done. simpl. by rewrite (insert_alter _ _ _ _ Hb). Qed.

Lemma update_tcb_eq m t b f : t <> 0 -> tcbs m !! t = Some b -> update_tcb m t f = Ok (set_tcbs (alter f t (tcbs m)) m).
Proof. intros Ht Hb. unfold update_tcb, tcb_at. rewrite decide_False, Hb by done. simpl. by rewrite (insert_alter _ _ _ _ Hb). Qed.

Lemma update_pcb_inv m p f m' : update_pcb m p f = Ok m' ->
  exists b, p <> 0 /\ pcbs m !! p = Some b /\ m' = set_pcbs (alter f p (pcbs m)) m.
Proof.
  unfold update_pcb, pcb_at. case_decide; [done|]. destruct (pcbs m !! p) as [b|] eqn:E; [|done]. intros [= <-].
  exists b. by rewrite (insert_alter _ _ _ _ E).
Qed.

Lemma update_tcb_inv m t f m' : update_tcb m t f = Ok m' ->
  exists b, t <> 0 /\ tcbs m !! t = Some b /\ m' = set_tcbs (alter f t (tcbs m)) m.
Proof.
  unfold update_tcb, tcb_at. case_decide; [done|]. destruct (tcbs m !! t) as [b|] eqn:E; [|done]. intros [= <-].
  exists b. by rewrite (insert_alter _ _ _ _ E).
Qed.

(** An update that keeps the view of a block. *)
Lemma same_sched_pcb m p f : (forall b, pview (f b) = pview b) -> same_sched m (set_pcbs (alter f p (pcbs m)) m).
Proof. intros Hf. split; simpl; try done. intros q. symmetry. apply fmap_alter. auto. Qed.

Lemma same_sched_tcb m t f : (forall b, tview (f b) = tview b) -> same_sched m (set_tcbs (alter f t (tcbs m)) m).
Proof. intros Hf. split; simpl; try done. intros q. symmetry. apply fmap_alter. auto. Qed.

(** ** The parts of the handler *)

Definition relax_p (b : PCB) : PCB := if decide (p_Status b = Running) then set_p_Status Ready b else b.
Definition relax_t (b : TCB) : TCB := if decide (t_Status b = Running) then set_t_Status Ready b else b.

(** The state after the current thread was saved. *)
Definition saved (m : machine) (regs : ThreadRegisters) : machine :=
  let c := m_cpu m in
  set_tcbs (alter (fun b => relax_t (set_t_context regs (SHADOW_GS_BASE c) (FS_BASE c) (fpu c) b)) (CurrentThread c) (tcbs m))
    (set_pcbs (alter relax_p (CurrentProcess c) (pcbs m)) m).

Lemma alter_same {A} (M : gmap Z A) k f : (forall b, M !! k = Some b -> f b = b) -> alter f k M = M.
Proof.
  intros Hf. apply map_eq. intros i. destruct (decide (i = k)) as [->|Hne]; [|by rewrite lookup_alter_ne].
  rewrite lookup_alter_eq. destruct (M !! k) as [b|]; [|done]. simpl. by rewrite Hf.
Qed.

Lemma save_current_eq m regs bp bt :
  CurrentProcess (m_cpu m) <> 0 -> CurrentThread (m_cpu m) <> 0 ->
  pcbs m !! CurrentProcess (m_cpu m) = Some bp -> tcbs m !! CurrentThread (m_cpu m) = Some bt ->
  save_current m regs = Ok (saved m regs).
Proof.
  intros Hp Ht Hbp Hbt. unfold save_current, saved. rewrite (update_tcb_eq _ _ bt) by done. cbn [bind].
  unfold pcb_at at 1. rewrite (decide_False (P := CurrentProcess (m_cpu m) = 0)) by done.
  cbn [pcbs set_tcbs]. rewrite Hbp. cbn [bind].
  set (f := set_t_context _ _ _ _). set (m1 := set_tcbs _ m).
  assert ((if decide (p_Status bp = Running) then update_pcb m1 (CurrentProcess (m_cpu m)) (set_p_Status Ready) else Ok m1)
    = Ok (set_pcbs (alter relax_p (CurrentProcess (m_cpu m)) (pcbs m)) m1)) as ->.
  { unfold relax_p. case_decide as D.
    - rewrite (update_pcb_eq _ _ bp) by done. unfold m1. cbn [pcbs set_tcbs]. do 2 f_equal. apply alter_ext. intros b Hb.
      rewrite Hbp in Hb. injection Hb as <-. by rewrite decide_True.
    - rewrite (alter_same (pcbs m)); [by destruct m|]. intros b Hb. rewrite Hbp in Hb. injection Hb as <-. by rewrite decide_False. }
  cbn [bind]. unfold tcb_at. rewrite decide_False by done. unfold m1. cbn [tcbs set_tcbs set_pcbs].
  rewrite lookup_alter_eq, Hbt. cbn [fmap option_fmap option_map bind].
  unfold relax_t. case_decide as D.
  - rewrite (update_tcb_eq _ _ (f bt)); [|done|cbn [tcbs set_tcbs set_pcbs]; by rewrite lookup_alter_eq, Hbt].
    unfold set_tcbs, set_pcbs. simpl. do 2 f_equal. apply map_eq. intros i.
    destruct (decide (i = CurrentThread (m_cpu m))) as [->|Hne]; [|by rewrite !lookup_alter_ne].
    rewrite !lookup_alter_eq, Hbt. simpl. by rewrite decide_True.
  - unfold set_tcbs, set_pcbs. simpl. do 2 f_equal. apply map_eq. intros i.
    destruct (decide (i = CurrentThread (m_cpu m))) as [->|Hne]; [|by rewrite !lookup_alter_ne].
    rewrite !lookup_alter_eq, Hbt. simpl. by rewrite decide_False.
Qed.

Lemma saved_shape m regs : same_shape m (saved m regs).
Proof.
  split; simpl; [done..|intros p|intros t]; symmetry; apply fmap_alter; intros b _.
  - unfold relax_p. by case_decide.
  - unfold relax_t. by case_decide.
Qed.

Lemma saved_pstatus m regs p : pstatus (saved m regs) p =
  if decide (p = CurrentProcess (m_cpu m) /\ pstatus m p = Running) then Ready else pstatus m p.
Proof.
  unfold pstatus, saved. cbn [pcbs set_tcbs set_pcbs]. destruct (decide (p = CurrentProcess (m_cpu m))) as [->|Hne].
  - rewrite lookup_alter_eq. destruct (pcbs m !! CurrentProcess (m_cpu m)) as [b|]; cbn [fmap option_fmap option_map];
      [|by rewrite decide_False by naive_solver].
    unfold relax_p. destruct (decide (p_Status b = Running)); [by rewrite decide_True|by rewrite decide_False by tauto].
  - rewrite lookup_alter_ne by done. by rewrite decide_False by tauto.
Qed.

Lemma saved_tstatus m regs t : tstatus (saved m regs) t =
  if decide (t = CurrentThread (m_cpu m) /\ tstatus m t = Running) then Ready else tstatus m t.
Proof.
  unfold tstatus, saved. cbn [tcbs set_tcbs set_pcbs]. destruct (decide (t = CurrentThread (m_cpu m))) as [->|Hne].
  - rewrite lookup_alter_eq. destruct (tcbs m !! CurrentThread (m_cpu m)) as [b|]; cbn [fmap option_fmap option_map];
      [|by rewrite decide_False by naive_solver].
    unfold relax_t. cbn [t_Status set_t_context].
    destruct (decide (t_Status b = Running)); [by rewrite decide_True|by rewrite decide_False by tauto].
  - rewrite lookup_alter_ne by done. by rewrite decide_False by tauto.
Qed.

(** The shadow register for a process. *)
Definition shadow_for (p : PCB) (b : TCB) (t old : Z) : Z :=
  match p_Elevation p with
  | System | Idle | Kernel => t
  | User => t_gs b
  | UnknownElevation => old
  end.

(** The state after a thread was resumed. *)
Definition resumed (m : machine) (p t : Z) (bp : PCB) (bt : TCB) : machine :=
  let m := set_tcbs (alter (set_t_Status Running) t (tcbs m)) (set_pcbs (alter (set_p_Status Running) p (pcbs m)) (set_current p t m)) in
  set_cpu_context (t_fs bt) t (shadow_for bp bt t (SHADOW_GS_BASE (m_cpu m))) (FXRegion bt) (UpdatePageTable (p_PageTable bp) m).

Lemma UpdatePageTable_frame pt m : pcbs (UpdatePageTable pt m) = pcbs m /\ tcbs (UpdatePageTable pt m) = tcbs m /\
  mt (UpdatePageTable pt m) = mt m /\ m_cpu (UpdatePageTable pt m) = m_cpu m /\
  CriticalSectionData (UpdatePageTable pt m) = CriticalSectionData m.
Proof. unfold UpdatePageTable. by repeat case_decide. Qed.

Lemma go_on_eq m p t bp bt : p <> 0 -> t <> 0 -> pcbs m !! p = Some bp -> tcbs m !! t = Some bt ->
  go_on m p t = Ok (resumed m p t bp bt, t_Registers bt).
Proof.
  intros Hp Ht Hbp Hbt. unfold go_on, resumed.
  rewrite (update_pcb_eq _ _ bp) by done. cbn [bind]. rewrite (update_tcb_eq _ _ bt) by done. cbn [bind].
  unfold tcb_at, pcb_at. rewrite !decide_False by done. cbn [tcbs pcbs set_tcbs set_pcbs set_current set_cpu].
  rewrite !lookup_alter_eq, Hbp, Hbt. cbn [fmap option_fmap option_map bind t_fs t_gs FXRegion t_Registers p_PageTable p_Elevation set_t_Status set_p_Status].
  do 3 f_equal. unfold shadow_for. destruct (p_Elevation bp); try done.
  match goal with |- context [UpdatePageTable ?a ?b] => destruct (UpdatePageTable_frame a b) as (_ & _ & _ & -> & _) end. done.
Qed.

Section hardware.
Context `{Hardware}.

(** The state after [End], for an entry with the flag [enable]. *)
Definition finished (m : machine) (regs : ThreadRegisters) (enable : bool) (prio : Z) : machine :=
  let c := m_cpu m in
  let n := inputs m in
  let m := set_pcbs (alter (fun p => set_p_Info (UpdateTimeUsed (counter n) (p_Info p)) p) (CurrentProcess c) (pcbs m)) (next_input m) in
  let m := set_tcbs (alter (fun t => set_t_Info (UpdateTimeUsed (counter (S n)) (t_Info t)) t) (CurrentThread c) (tcbs m)) (next_input m) in
  let m := set_critical (Some (mk_Critical enable false)) m in
  emit (EndOfInterrupt (int_num regs)) (TriggerOneShot prio (if enable then set_IF true m else m)).

Lemma finish_eq m regs bp bt e l : CurrentProcess (m_cpu m) <> 0 -> CurrentThread (m_cpu m) <> 0 ->
  pcbs m !! CurrentProcess (m_cpu m) = Some bp -> tcbs m !! CurrentThread (m_cpu m) = Some bt ->
  CriticalSectionData m = Some (mk_Critical e l) ->
  finish m regs = Ok (finished m regs e (Priority (t_Info bt))).
Proof.
  intros Hp Ht Hbp Hbt Hc. unfold finish, finished.
  rewrite (update_pcb_eq _ _ bp) by done. cbn [bind]. rewrite (update_tcb_eq _ _ bt) by done. cbn [bind].
  cbn [CriticalSectionData set_tcbs set_pcbs next_input]. rewrite Hc. cbn [nonnull bind EnableInterrupts].
  assert (forall m0 : machine, tcbs (if e then set_IF true m0 else m0) = tcbs m0) as Etcb by (by destruct e).
  unfold tcb_at. rewrite decide_False by done. rewrite Etcb. cbn [tcbs set_tcbs set_pcbs set_critical next_input].
  rewrite lookup_alter_eq, Hbt. done.
Qed.

Lemma finished_same m regs e prio : same_sched m (finished m regs e prio).
Proof.
  unfold finished. assert (forall m0, same_sched m0 (if e then set_IF true m0 else m0)) as He by (intros; by destruct e).
  transitivity (set_pcbs (alter (fun p => set_p_Info (UpdateTimeUsed (counter (inputs m)) (p_Info p)) p) (CurrentProcess (m_cpu m)) (pcbs m)) m);
    [by apply same_sched_pcb|].
  etrans; [apply (same_sched_tcb _ (CurrentThread (m_cpu m))
    (fun t => set_t_Info (UpdateTimeUsed (counter (S (inputs m))) (t_Info t)) t)); done|].
  etrans; [|match goal with |- same_sched _ (emit _ (TriggerOneShot _ ?x)) => transitivity x; [apply He|done] end]. done.
Qed.

Lemma finished_critical m regs e prio : critical_ok (finished m regs e prio).
Proof. unfold finished, critical_ok. exists e. by destruct e. Qed.
End hardware.

(** ** The handler *)

(** The state in which the handler searches: interrupts off, the lock taken,
    and the current thread, when there is one to save, saved. *)
Definition entry (m : machine) : machine :=
  set_IF false (set_critical (Some (mk_Critical (IF_flag (m_cpu m)) true)) m).

Definition runs (m : machine) : bool :=
  let p := CurrentProcess (m_cpu m) in
  bool_decide (p <> 0) && pvalid m p && tvalid m p (CurrentThread (m_cpu m)).

Definition prepared (m : machine) (regs : ThreadRegisters) : machine :=
  if runs m then saved (entry m) regs else entry m.

(** The choice that the handler has to make. *)
Definition scheduled (m : machine) (regs : ThreadRegisters) : res (option (Z * Z)) :=
  if runs m then reference_choice (prepared m regs) else Ok (head (candidates (prepared m regs))).

(** No thread is running. *)
Definition quiet (m : machine) : Prop :=
  (forall p, p ∈ procs m -> pstatus m p = Ready) /\
  (forall p t, p ∈ procs m -> t ∈ threads m p -> tstatus m t <> Running).

Lemma entry_same m : same_sched m (entry m).
Proof. done. Qed.

Lemma current_runs m : core_ok m -> runs m = true ->
  let p := CurrentProcess (m_cpu m) in let t := CurrentThread (m_cpu m) in
  p ∈ procs m /\ t ∈ threads m p /\ pvalid m p = true /\ tvalid m p t = true.
Proof.
  intros (Hs & Hi & Hc & Hr) Hruns. unfold runs in Hruns. apply andb_true_iff in Hruns as [[Hp0 Hpv]%andb_true_iff Htv].
  apply bool_decide_eq_true in Hp0. destruct Hc as [[? _]|(? & ? & _)]; [done|]. by split_and!.
Qed.

(** What the test at the start of the handler finds. *)
Lemma current_invalid m : core_ok m ->
  (let* invp := InvalidPCB m (CurrentProcess (m_cpu m)) in
   if (invp : bool) then Ok true else InvalidTCB m (CurrentThread (m_cpu m))) = Ok (negb (runs m)).
Proof.
  intros (Hs & Hi & Hc & Hr). unfold runs. destruct Hc as [[-> ->]|(Hp & Ht & Hv)]; [done|].
  destruct (so_pcb m Hs _ Hp) as (b & _ & Hp0 & _). rewrite (InvalidPCB_ok m Hs _ Hp). cbn [bind].
  rewrite (bool_decide_eq_true_2 _ Hp0). cbn [andb]. destruct Hv as [[Epv Etv]|(E & E' & Hi0)].
  - rewrite Epv. cbn [negb andb]. by rewrite (InvalidTCB_ok m Hs _ _ Hp Ht), Etv.
  - destruct Hi as [[Hi _]|(_ & He & _)]; [congruence|]. unfold pvalid. rewrite <- E in He. rewrite He. by rewrite andb_false_r.
Qed.

Lemma candidates_elem m p t : (p, t) ∈ candidates m <->
  p ∈ procs m /\ pvalid m p = true /\ pready m p = true /\ t ∈ threads m p /\ tvalid m p t = true /\ tready m t = true.
Proof.
  unfold candidates. rewrite list_elem_of_In, in_flat_map. split.
  - intros (q & Hq & Hin). rewrite <- list_elem_of_In in Hq.
    destruct (pvalid m q && pready m q) eqn:E; [|done]. apply andb_true_iff in E as [? ?].
    apply in_map_iff in Hin as (t' & [= -> ->] & Ht'). rewrite <- list_elem_of_In in Ht'. unfold ready_threads in Ht'.
    apply list_elem_of_filter in Ht' as [[? ?]%andb_true_iff ?]. done.
  - intros (Hp & Hv & Hr & Ht & Htv & Htr). exists p. rewrite <- list_elem_of_In. split; [done|]. rewrite Hv, Hr. simpl.
    apply in_map. rewrite <- list_elem_of_In. unfold ready_threads. apply list_elem_of_filter. by rewrite Htv, Htr.
Qed.

Lemma head_elem {A} (l : list A) x : head l = Some x -> x ∈ l.
Proof. destruct l; intros [= ->]. left. Qed.

(** The reference takes a thread that can run, and none only if there is none. *)
Lemma reference_choice_sound m r : struct_ok m -> (forall p, p ∈ procs m -> pstatus m p = Ready) ->
  CurrentProcess (m_cpu m) ∈ procs m -> pvalid m (CurrentProcess (m_cpu m)) = true ->
  reference_choice m = Ok r -> match r with Some x => x ∈ candidates m | None => candidates m = [] end.
Proof.
  intros Hs Hready Hp Hv. unfold reference_choice. set (p := CurrentProcess (m_cpu m)) in *.
  assert (forall suf l x, suf ⊆ l -> forall valid st n, search valid st n suf = Ok (Some x) -> x ∈ l /\ valid x = true /\ st x = Ready) as Hsome.
  { intros suf l x Hsub valid st n. unfold search. destruct (List.find valid suf) as [y|] eqn:E; [|by case_decide].
    case_decide; [|done]. intros [= ->]. apply find_elem in E as [Hin ?]. split_and!; [by apply Hsub|done..]. }
  assert (forall x l, after x l ⊆ l) as Hafter.
  { intros x l y. induction l as [|z l IH]; simpl; [done|]. case_decide; intros ?; right; auto. }
  assert (forall r, Ok (head (candidates m)) = Ok r -> match r with Some x => x ∈ candidates m | None => candidates m = [] end) as Hhead.
  { intros r' [= <-]. by destruct (candidates m); [|left]. }
  destruct (search (tvalid m p) _ _ _) as [[t|]|] eqn:E1; cbn [bind]; [| |done].
  - intros [= <-]. apply (Hsome _ (threads m p)) in E1 as (? & ? & ?); [|apply Hafter].
    apply candidates_elem. unfold pready, tready. by rewrite !bool_decide_eq_true_2 by auto.
  - destruct (search (pvalid m) _ _ _) as [[p'|]|] eqn:E2; cbn [bind]; [|apply Hhead|done].
    apply (Hsome _ (procs m)) in E2 as (? & ? & ?); [|apply Hafter].
    destruct (head (ready_threads m p')) as [t'|] eqn:E3; [|apply Hhead]. intros [= <-].
    apply head_elem in E3. unfold ready_threads in E3. apply list_elem_of_filter in E3 as [[? ?]%andb_true_iff ?].
    apply candidates_elem. unfold pready. by rewrite !bool_decide_eq_true_2.
Qed.

Section handler.
Context `{Hardware}.

Lemma prepared_shape m regs : same_shape m (prepared m regs).
Proof.
  unfold prepared. pose proof (same_sched_shape _ _ (entry_same m)) as He. destruct (runs m); [|done].
  etrans; [exact He|apply saved_shape].
Qed.

Lemma prepared_current m regs : CurrentProcess (m_cpu (prepared m regs)) = CurrentProcess (m_cpu m) /\
  CurrentThread (m_cpu (prepared m regs)) = CurrentThread (m_cpu m) /\
  CriticalSectionData (prepared m regs) = Some (mk_Critical (IF_flag (m_cpu m)) true).
Proof. unfold prepared. by destruct (runs m). Qed.

Lemma prepared_quiet m regs : core_ok m -> quiet (prepared m regs).
Proof.
  intros Hok. pose proof (prepared_shape m regs) as Hsh. pose proof Hok as (Hs & Hi & Hc & Hrp & Hrt). split.
  - intros p Hp. rewrite <- (procs_proper _ _ Hsh) in Hp. unfold prepared. destruct (runs m) eqn:Er.
    + rewrite saved_pstatus. change (pstatus (entry m) p) with (pstatus m p). destruct (Hrp p Hp) as [->|(-> & -> & _)].
      * by rewrite decide_False by naive_solver.
      * by rewrite decide_True.
    + change (pstatus (entry m) p) with (pstatus m p). destruct (Hrp p Hp) as [|(_ & -> & Hv)]; [done|].
      exfalso. unfold runs in Er. rewrite Hv in Er. destruct (so_pcb m Hs _ Hp) as (_ & _ & Hp0 & _).
      rewrite (bool_decide_eq_true_2 _ Hp0) in Er. simpl in Er. destruct Hc as [[? _]|(_ & _ & [[_ ?]|(E & _ & E0)])]; [done|congruence|].
      destruct Hi as [[? _]|(_ & He & _)]; [congruence|]. unfold pvalid in Hv. rewrite <- E in He. rewrite He in Hv.
      by rewrite andb_false_r in Hv.
  - intros p t Hp Ht. rewrite <- (procs_proper _ _ Hsh) in Hp. rewrite <- (threads_proper _ _ Hsh _ _ eq_refl) in Ht.
    unfold prepared. destruct (runs m) eqn:Er.
    + rewrite saved_tstatus. change (tstatus (entry m) t) with (tstatus m t).
      destruct (decide (tstatus m t = Running)) as [E|E].
      * destruct (Hrt p t Hp Ht E) as (_ & -> & _). by rewrite decide_True.
      * rewrite decide_False by tauto. done.
    + change (tstatus (entry m) t) with (tstatus m t). intros E. destruct (Hrt p t Hp Ht E) as (-> & -> & Hv).
      unfold runs in Er. rewrite Hv, andb_true_r in Er. destruct (so_pcb m Hs _ Hp) as (_ & _ & Hp0 & _).
      rewrite (bool_decide_eq_true_2 _ Hp0) in Er. simpl in Er.
      destruct Hc as [[? _]|(_ & _ & [[? _]|(E1 & _ & E0)])]; [done|congruence|].
      destruct Hi as [[? _]|(_ & He & _)]; [congruence|]. unfold tvalid in Hv. rewrite <- E1 in He. rewrite He in Hv.
      by rewrite andb_false_r in Hv.
Qed.

Lemma quiet_running m : quiet m -> running_ok m.
Proof. intros [Hp Ht]. split; [intros p ?; left; auto|]. intros p t Hpp Htt E. by destruct (Ht p t Hpp Htt). Qed.

Lemma prepared_core m regs : core_ok m -> core_ok (prepared m regs).
Proof.
  intros Hok. pose proof (prepared_shape m regs) as Hsh. pose proof Hok as (Hs & Hi & Hc & _).
  destruct (prepared_current m regs) as (Ep & Et & _).
  split_and!; [by rewrite <- Hsh|by rewrite <- Hsh| |by apply quiet_running, prepared_quiet].
  unfold current_ok in *. destruct (shape_idle _ _ Hsh) as [<- <-].
  by rewrite Ep, Et, <- (procs_proper _ _ Hsh), <- (threads_proper _ _ Hsh _ _ eq_refl),
    <- (pvalid_proper _ _ Hsh _ _ eq_refl), <- (tvalid_proper _ _ Hsh _ _ eq_refl _ _ eq_refl).
Qed.

(** What the handler does with a choice. *)
Definition switch (m : machine) (choice : option (Z * Z)) : res (machine * ThreadRegisters) :=
  let* '(m, regs) := match choice with Some (p, t) => go_on m p t | None => go_idle m end in
  let* m := finish m regs in Ok (m, regs).

Lemma handler_eq m regs fuel : core_ok m -> critical_ok m -> MultitaskingSchedulerEnabled m = true ->
  MultiTaskingSchedulerHandler m regs fuel =
    (let* choice := if runs m then choose_next (prepared m regs) fuel else Ok (head (candidates (prepared m regs))) in
     switch (prepared m regs) choice).
Proof.
  intros Hok [e Hc] He. unfold MultiTaskingSchedulerHandler. rewrite He, Hc. cbn [negb nonnull bind CriticalLock].
  change (set_IF false _) with (entry m).
  pose proof (current_invalid (entry m) (core_ok_same _ _ (entry_same m) Hok)) as Hinv.
  change (runs (entry m)) with (runs m) in Hinv.
  destruct (InvalidPCB (entry m) (CurrentProcess (m_cpu (entry m)))) as [invp|]; [|done]. cbn [bind] in Hinv |- *.
  rewrite Hinv. cbn [bind]. unfold prepared, switch. destruct (runs m) eqn:Er; cbn [negb].
  - destruct (current_runs m Hok Er) as (Hp & Ht & _ & _). destruct Hok as [Hs _].
    destruct (so_pcb m Hs _ Hp) as (bp & Hbp & Hp0 & _). destruct (so_tcb m Hs _ _ Hp Ht) as (bt & Hbt & Ht0 & _).
    rewrite (save_current_eq (entry m) regs bp bt) by done. cbn [bind].
    by destruct (choose_next (saved (entry m) regs) fuel) as [[[p t]|]|].
  - rewrite (choose_first_ok (entry m)) by exact (proj1 (core_ok_same _ _ (entry_same m) Hok)). cbn [bind]. by destruct (head (candidates (entry m))) as [[p t]|].
Qed.

Lemma prepared_fuel m regs : sched_fuel (prepared m regs) = sched_fuel m.
Proof.
  unfold sched_fuel. pose proof (prepared_shape m regs) as Hsh. destruct (prepared_current m regs) as (-> & _).
  by rewrite <- (procs_proper _ _ Hsh), <- (threads_proper _ _ Hsh _ _ eq_refl).
Qed.

Lemma handler_choice m regs fuel : sched_ok m -> MultitaskingSchedulerEnabled m = true -> (sched_fuel m <= fuel)%nat ->
  MultiTaskingSchedulerHandler m regs fuel = (let* choice := scheduled m regs in switch (prepared m regs) choice).
Proof.
  intros [Hok Hc]%sched_core He Hf. rewrite handler_eq by done. unfold scheduled. destruct (runs m) eqn:Er; [|done].
  pose proof (prepared_core m regs Hok) as (Hs & _). pose proof (prepared_shape m regs) as Hsh.
  destruct (prepared_current m regs) as (Ep & Et & _). destruct (current_runs m Hok Er) as (Hp & Ht & _ & _).
  rewrite choose_next_ok; [done|done| | |by rewrite prepared_fuel].
  - by rewrite Ep, <- (procs_proper _ _ Hsh).
  - by rewrite Ep, Et, <- (threads_proper _ _ Hsh _ _ eq_refl).
Qed.

(** The choice is a thread that can run, or there is none. *)
Lemma scheduled_sound m regs r : core_ok m -> scheduled m regs = Ok r ->
  match r with Some x => x ∈ candidates (prepared m regs) | None => candidates (prepared m regs) = [] end.
Proof.
  intros Hok. unfold scheduled. destruct (runs m) eqn:Er.
  - pose proof (prepared_core m regs Hok) as (Hs & _). pose proof (prepared_shape m regs) as Hsh.
    destruct (prepared_current m regs) as (Ep & Et & _). destruct (current_runs m Hok Er) as (Hp & _ & Hv & _).
    apply reference_choice_sound; [done|apply (proj1 (prepared_quiet m regs Hok))| |].
    + by rewrite Ep, <- (procs_proper _ _ Hsh).
    + by rewrite Ep, <- (pvalid_proper _ _ Hsh _ _ eq_refl).
  - intros [= <-]. by destruct (candidates _); [|left].
Qed.
End handler.

(** ** Switching to a thread *)

Section switching.
Context (m : machine) (p t : Z) (bp : PCB) (bt : TCB).
Context (Hbp : pcbs m !! p = Some bp) (Hbt : tcbs m !! t = Some bt).

Abbreviation m' := (resumed m p t bp bt).

Lemma resumed_pcbs : pcbs m' = alter (set_p_Status Running) p (pcbs m).
Proof.
  unfold resumed. cbn [pcbs set_cpu_context set_cpu].
  match goal with |- pcbs (UpdatePageTable ?a ?b) = _ => destruct (UpdatePageTable_frame a b) as (-> & _) end. done.
Qed.

Lemma resumed_tcbs : tcbs m' = alter (set_t_Status Running) t (tcbs m).
Proof.
  unfold resumed. cbn [tcbs set_cpu_context set_cpu].
  match goal with |- tcbs (UpdatePageTable ?a ?b) = _ => destruct (UpdatePageTable_frame a b) as (_ & -> & _) end. done.
Qed.

Lemma resumed_frame : mt m' = mt m /\ CriticalSectionData m' = CriticalSectionData m /\
  CurrentProcess (m_cpu m') = p /\ CurrentThread (m_cpu m') = t.
Proof.
  unfold resumed. cbn [mt CriticalSectionData m_cpu set_cpu_context set_cpu CurrentProcess CurrentThread].
  match goal with |- context [UpdatePageTable ?a ?b] => destruct (UpdatePageTable_frame a b) as (_ & _ & -> & -> & ->) end. done.
Qed.

Lemma resumed_shape : same_shape m m'.
Proof.
  destruct resumed_frame as (E & _). split; rewrite ?E; try done.
  - intros q. rewrite resumed_pcbs. symmetry. by apply fmap_alter.
  - intros q. rewrite resumed_tcbs. symmetry. by apply fmap_alter.
Qed.

Lemma resumed_pstatus q : pstatus m' q = if decide (q = p) then Running else pstatus m q.
Proof using Hbp.
  unfold pstatus. rewrite resumed_pcbs. case_decide as D; [subst q; by rewrite lookup_alter_eq, Hbp|].
  by rewrite lookup_alter_ne.
Qed.

Lemma resumed_tstatus q : tstatus m' q = if decide (q = t) then Running else tstatus m q.
Proof using Hbt.
  unfold tstatus. rewrite resumed_tcbs. case_decide as D; [subst q; by rewrite lookup_alter_eq, Hbt|].
  by rewrite lookup_alter_ne.
Qed.

Lemma resumed_core : core_ok m -> quiet m -> (p, t) ∈ candidates m -> core_ok m'.
Proof using Hbp Hbt.
  intros (Hs & Hi & _ & _) [Hqp Hqt] (Hp & Hpv & _ & Ht & Htv & _)%candidates_elem.
  pose proof resumed_shape as Hsh. destruct resumed_frame as (_ & _ & Ep & Et).
  split_and!; [by rewrite <- Hsh|by rewrite <- Hsh| |split].
  - right. rewrite Ep, Et, <- (procs_proper _ _ Hsh), <- (threads_proper _ _ Hsh _ _ eq_refl),
      <- (pvalid_proper _ _ Hsh _ _ eq_refl), <- (tvalid_proper _ _ Hsh _ _ eq_refl _ _ eq_refl). auto.
  - intros q Hq. rewrite <- (procs_proper _ _ Hsh) in Hq. rewrite resumed_pstatus, Ep, <- (pvalid_proper _ _ Hsh _ _ eq_refl).
    case_decide; [subst q; by right|left; auto].
  - intros q u Hq Hu. rewrite <- (procs_proper _ _ Hsh) in Hq. rewrite <- (threads_proper _ _ Hsh _ _ eq_refl) in Hu.
    rewrite resumed_tstatus, Ep, Et, <- (tvalid_proper _ _ Hsh _ _ eq_refl _ _ eq_refl).
    case_decide; [subst u|intros E; by destruct (Hqt q u Hq Hu)].
    intros _. destruct (so_tcb m Hs q t Hq Hu) as (b1 & E1 & _ & <- & _). destruct (so_tcb m Hs p t Hp Ht) as (b2 & E2 & _ & <- & _).
    rewrite E1 in E2. by injection E2 as <-.
Qed.
End switching.

Section hardware2.
Context `{Hardware}.

(** Going on with a thread that can run. *)
Lemma switch_some m p t e l : core_ok m -> quiet m -> (p, t) ∈ candidates m ->
  CriticalSectionData m = Some (mk_Critical e l) ->
  exists bp bt, pcbs m !! p = Some bp /\ tcbs m !! t = Some bt /\
    switch m (Some (p, t)) = Ok (finished (resumed m p t bp bt) (t_Registers bt) e (Priority (t_Info bt)), t_Registers bt).
Proof.
  intros Hok Hq Hc Hcr. pose proof Hc as (Hp & _ & _ & Ht & _)%candidates_elem. pose proof Hok as [Hs _].
  destruct (so_pcb m Hs _ Hp) as (bp & Hbp & Hp0 & _). destruct (so_tcb m Hs _ _ Hp Ht) as (bt & Hbt & Ht0 & _).
  exists bp, bt. split_and!; [done..|]. unfold switch. rewrite (go_on_eq m p t bp bt) by done. cbn [bind].
  destruct (resumed_frame m p t bp bt) as (_ & Ecr & Ep & Et).
  erewrite (finish_eq _ _ (set_p_Status Running bp) (set_t_Status Running bt)); [done|..].
  - by rewrite Ep.
  - by rewrite Et.
  - by rewrite Ep, resumed_pcbs, lookup_alter_eq, Hbp.
  - by rewrite Et, resumed_tcbs, lookup_alter_eq, Hbt.
  - by rewrite Ecr.
Qed.

Lemma switch_some_ok m p t e l m' regs : core_ok m -> quiet m -> (p, t) ∈ candidates m ->
  CriticalSectionData m = Some (mk_Critical e l) -> switch m (Some (p, t)) = Ok (m', regs) -> sched_ok m'.
Proof.
  intros Hok Hq Hc Hcr E. destruct (switch_some m p t e l Hok Hq Hc Hcr) as (bp & bt & Hbp & Hbt & E').
  rewrite E' in E. injection E as <- <-. apply sched_core. split; [|apply finished_critical].
  eapply core_ok_same; [apply finished_same|]. by apply resumed_core.
Qed.
End hardware2.

(** ** Creation *)

Definition add_process (m : machine) (p : Z) (b : PCB) (v : Vector Z) : machine :=
  set_ListProcess v (set_pcbs (<[p := b]> (pcbs m)) m).

Definition add_thread (m : machine) (p t : Z) (b : TCB) (v : Vector Z) : machine :=
  set_pcbs (alter (set_p_Threads v) p (pcbs m)) (set_tcbs (<[t := b]> (tcbs m)) m).

(** What is saved of a thread. *)
Definition tctx (b : TCB) := (t_Registers b, t_fs b, t_gs b, FXRegion b).

(** Changes that the scheduler does not see. *)
Definition inert (m m' : machine) : Prop :=
  same_sched m m' /\ CriticalSectionData m' = CriticalSectionData m /\
  MultitaskingSchedulerEnabled m' = MultitaskingSchedulerEnabled m /\
  forall t, tctx <$> tcbs m' !! t = tctx <$> tcbs m !! t.

Lemma inert_refl m : inert m m.
Proof. done. Qed.
Lemma inert_trans m1 m2 m3 : inert m1 m2 -> inert m2 m3 -> inert m1 m3.
Proof.
  intros (? & ? & ? & T1) (? & ? & ? & T2). split_and!; [by etrans|congruence..|]. intros t. by rewrite T2.
Qed.
Lemma inert_Tokens v m m' : inert m m' -> inert m (set_Tokens v m').
Proof. intros Hm. apply (inert_trans _ m'); [exact Hm|by repeat split]. Qed.
Lemma inert_input m m' : inert m m' -> inert m (next_input m').
Proof. intros Hm. apply (inert_trans _ m'); [exact Hm|by repeat split]. Qed.
Lemma inert_IF b m m' : inert m m' -> inert m (set_IF b m').
Proof. intros Hm. apply (inert_trans _ m'); [exact Hm|by repeat split]. Qed.
Lemma inert_ports x m m' : inert m m' -> inert m (set_ports x m').
Proof. intros Hm. apply (inert_trans _ m'); [exact Hm|by repeat split]. Qed.
Lemma inert_handles x m m' : inert m m' -> inert m (set_handles x m').
Proof. intros Hm. apply (inert_trans _ m'); [exact Hm|by repeat split]. Qed.
Lemma inert_kernel x m m' : inert m m' -> inert m (set_kernel x m').
Proof. intros Hm. apply (inert_trans _ m'); [exact Hm|by repeat split]. Qed.
Lemma inert_words x m m' : inert m m' -> inert m (set_words x m').
Proof. intros Hm. apply (inert_trans _ m'); [exact Hm|by repeat split]. Qed.
Lemma inert_emit x m m' : inert m m' -> inert m (emit x m').
Proof. intros Hm. apply (inert_trans _ m'); [exact Hm|by repeat split]. Qed.
Lemma inert_ids a b m m' : inert m m' ->
  inert m (set_mt (mk_Multitasking (ListProcess (mt m')) a b (IdleProcess (mt m')) (IdleThread (mt m'))) m').
Proof. intros Hm. apply (inert_trans _ m'); [exact Hm|by repeat split]. Qed.
Lemma inert_context a b c d m m' : inert m m' -> inert m (set_cpu_context a b c d m').
Proof. intros Hm. apply (inert_trans _ m'); [exact Hm|by repeat split]. Qed.
Lemma inert_Leave e m m' : inert m m' -> inert m (Leave m' e).
Proof. intros Hm. destruct e; [by apply inert_IF|done]. Qed.
Lemma inert_pcb p f m m' : (forall b, pview (f b) = pview b) -> inert m m' -> inert m (set_pcbs (alter f p (pcbs m')) m').
Proof. intros Hf Hm. apply (inert_trans _ m'); [done|]. split_and!; [by apply same_sched_pcb|done..]. Qed.
Lemma inert_tcb t f m m' : (forall b, tview (f b) = tview b) -> (forall b, tctx (f b) = tctx b) -> inert m m' ->
  inert m (set_tcbs (alter f t (tcbs m')) m').
Proof.
  intros Hf Hg Hm. apply (inert_trans _ m'); [done|]. split_and!; [by apply same_sched_tcb|done..|].
  intros u. by apply fmap_alter.
Qed.

Create HintDb inert.
#[export] Hint Resolve inert_refl inert_Tokens inert_input inert_IF inert_ports inert_handles inert_kernel inert_words
  inert_emit inert_ids inert_context inert_Leave : inert.

Section creation.
Context `{HL : HardwareLaws}.

Lemma CreateToken_inv m m' k : CreateToken m = Ok (m', k) ->
  exists v, m' = set_Tokens v (next_input m) /\ k = rand64 (inputs m).
Proof. unfold CreateToken. intros E. inv_bind. eauto. Qed.

Lemma TrustToken_inv m a b c d m' : TrustToken m a b c d = Ok m' -> m' = m.
Proof. unfold TrustToken. intros E. by inv_bind. Qed.

Lemma push_child_inv m p c m' : push_child m p c = Ok m' -> same_sched m m' /\ CriticalSectionData m' = CriticalSectionData m /\
  tcbs m' = tcbs m /\ m_kernel m' = m_kernel m.
Proof.
  unfold push_child. intros E. inv_bind. apply update_pcb_inv in E as (b & _ & _ & ->).
  split_and!; [by apply same_sched_pcb|done..].
Qed.

Lemma Leave_same m e : same_sched m (Leave m e) /\ CriticalSectionData (Leave m e) = CriticalSectionData m /\
  m_kernel (Leave m e) = m_kernel m.
Proof. by destruct e. Qed.

Lemma add_process_same m1 m2 p b v : same_sched m1 m2 -> same_sched (add_process m1 p b v) (add_process m2 p b v).
Proof.
  intros [? [? ?] P ? ? ?]. split; simpl; try done. intros q.
  destruct (decide (q = p)) as [->|?]; [by rewrite !lookup_insert_eq|by rewrite !lookup_insert_ne].
Qed.

Lemma inert_push_child m m1 p c m' : inert m m1 -> push_child m1 p c = Ok m' -> inert m m'.
Proof.
  unfold push_child. intros Hm E. inv_bind. apply update_pcb_inv in E as (b & _ & _ & ->). by apply inert_pcb.
Qed.

Lemma CreateProcess_inv m P N e prio m' p : CreateProcess m P N e prio = Ok (m', p) ->
  exists b v, p = new_address (live m) /\ push_back 0 (ListProcess (mt m)) p = Ok v /\
    p_Checksum b = PROCESS_CHECKSUM /\ p_Elevation b = e /\ p_Threads b = Vector_new /\ p_Status b = Ready /\
    inert (add_process m p b v) m'.
Proof.
  unfold CreateProcess, Enter, SetInfo, next_pid. intros E.
  apply bind_inv in E as ([m1 token] & E1 & E). apply CreateToken_inv in E1 as (tv & E1 & _).
  apply bind_inv in E as (m2 & E2 & E).
  assert (inert m m2) as H2.
  { assert (m2 = m1) as -> by (destruct (kernel_elevation e); [exact (TrustToken_inv _ _ _ _ _ _ E2)|by injection E2]).
    rewrite E1. auto 20 with inert. }
  clear E1 E2. apply bind_inv in E as (name & _ & E). cbn zeta in E.
  match type of E with context [set_pcbs (<[_ := ?b0]> (pcbs ?x)) ?x] => set (mm := x) in *; set (b := b0) in * end.
  assert (inert m mm) as Hmm by (unfold mm; auto with inert).
  apply bind_inv in E as (m4 & E4 & E). apply bind_inv in E as (m5 & E5 & E). injection E as <- <-.
  change (new_address (live (set_IF false m))) with (new_address (live m)) in *. set (p := new_address (live m)) in *.
  assert (inert (set_pcbs (<[p := b]> (pcbs mm)) mm) m4) as H4.
  { case_decide; [injection E4 as <-; apply inert_refl|]. exact (inert_push_child _ _ _ _ _ (inert_refl _) E4). }
  unfold push_process in E5. rewrite <- (view_list _ _ (proj1 H4)) in E5. apply bind_inv in E5 as (v & Ev & E5). injection E5 as <-.
  exists b, v. change (ListProcess (mt (set_pcbs (<[p := b]> (pcbs mm)) mm))) with (ListProcess (mt mm)) in Ev.
  rewrite <- (view_list _ _ (proj1 Hmm)) in Ev. split_and!; [done..|].
  apply inert_Leave. destruct Hmm as (Hs & Hc & He & Hx), H4 as (Hs' & Hc' & He' & Hx').
  split_and!; [|by etrans..|intros u; exact (eq_trans (Hx' u) (Hx u))].
  transitivity (add_process mm p b v); [by apply add_process_same|].
  destruct Hs' as [? [? ?] ? ? ? ?]. split; [done|split; assumption|assumption..].
Qed.

Lemma add_thread_same m1 m2 p t b v : same_sched m1 m2 -> same_sched (add_thread m1 p t b v) (add_thread m2 p t b v).
Proof.
  intros [? [? ?] P T ? ?]. split; simpl; try done.
  - intros q. specialize (P q). destruct (decide (q = p)) as [->|?]; [|by rewrite !lookup_alter_ne].
    rewrite !lookup_alter_eq. destruct (pcbs m1 !! p), (pcbs m2 !! p); try done. simpl.
    injection P as E1 E2 _ E3. unfold pview, pshape. simpl. by rewrite E1, E2, E3.
  - intros q. destruct (decide (q = t)) as [->|?]; [by rewrite !lookup_insert_eq|by rewrite !lookup_insert_ne].
Qed.

Lemma inert_pcb_threads m m' p b : inert m m' -> pcbs m' !! p = Some b ->
  exists b', pcbs m !! p = Some b' /\ p_Threads b' = p_Threads b.
Proof.
  intros [Hs _] Hb. pose proof (view_pcb _ _ Hs p) as E. rewrite Hb in E. destruct (pcbs m !! p) as [b'|]; [|done].
  exists b'. by injection E as _ _ -> _.
Qed.

Lemma SetInfo_inert m0 m i m' i' : inert m0 m -> SetInfo m i = (m', i') -> inert m0 m'.
Proof. intros Hm E. injection E as <- _. auto 20 with inert. Qed.

Lemma CreateThread_inv m P ip a0 a1 prio ar pl m' t : CreateThread m P ip a0 a1 prio ar pl = Ok (m', t) ->
  t = 0 /\ inert m m' \/
  exists bp v b, P <> 0 /\ pcbs m !! P = Some bp /\ t = new_address (live m) /\ push_back 0 (p_Threads bp) t = Ok v /\
    t_Parent b = P /\ t_Checksum b = THREAD_CHECKSUM /\ t_Status b = Ready /\ inert (add_thread m P t b v) m'.
Proof.
  unfold CreateThread, Enter, next_tid. intros E. apply bind_inv in E as (ok & Eok & E).
  destruct ok; cbn [negb] in E; [|injection E as <- <-; left; split; [done|auto with inert]].
  assert (P <> 0) as HP by (intros ->; done). clear Eok.
  apply bind_inv in E as (p & Ep & E). apply bind_inv in E as ([m1 token] & E1 & E).
  apply CreateToken_inv in E1 as (tv & E1 & _). assert (inert m m1) as H1 by (rewrite E1; auto 20 with inert). clear E1.
  apply bind_inv in E as (name & _ & E). apply bind_inv in E as (buf0 & _ & E). apply bind_inv in E as (buf & _ & E).
  apply bind_inv in E as (r & Er & E).
  destruct r as [[[[[m2 gs] code] data] stack]|]; [|injection E as <- <-; left; split; [done|auto with inert]].
  assert (inert m m2) as H2.
  { destruct (p_Elevation p); [done|..].
    1-3: apply bind_inv in Er as (m3 & E3 & Er); apply TrustToken_inv in E3 as ->;
      apply bind_inv in Er as ([k st] & _ & Er); injection Er as <- _ _ _ _; auto with inert.
    apply bind_inv in Er as (m3 & E3 & Er); apply TrustToken_inv in E3 as ->;
      apply bind_inv in Er as ([k st] & _ & Er); injection Er as <- _ _ _ _; auto with inert. }
  clear Er. destruct (SetInfo m2 zero_Info) as [mm info] eqn:Ei. apply (SetInfo_inert m) in Ei as Hmm; [|done]. clear Ei. right. cbn zeta in E.
  match type of E with context [set_tcbs (<[_ := ?b0]> (tcbs mm)) mm] => set (b := b0) in * end.
  assert (t_Parent b = P /\ t_Checksum b = THREAD_CHECKSUM /\ t_Status b = Ready) as (Hb1 & Hb2 & Hb3) by (split_and!; reflexivity).
  clearbody b.
  change (new_address (live (set_IF false m))) with (new_address (live m)) in *. set (t' := new_address (live m)) in *.
  apply bind_inv in E as (m5 & E5 & E). injection E as <- <-. unfold push_thread in E5.
  apply bind_inv in E5 as (b5 & Eb5 & E5). apply bind_inv in E5 as (v & Ev & E5).
  apply update_pcb_inv in E5 as (b6 & _ & Hb6 & ->). change (pcbs mm !! P = Some b6) in Hb6.
  assert (b5 = b6) as -> by (unfold pcb_at in Eb5; rewrite decide_False in Eb5 by done;
    change (pcbs (set_tcbs (<[t' := b]> (tcbs mm)) mm)) with (pcbs mm) in Eb5; rewrite Hb6 in Eb5; by injection Eb5).
  destruct (inert_pcb_threads m mm P b6 Hmm Hb6) as (bp & Hbp & Et). rewrite <- Et in Ev.
  exists bp, v, b. split_and!; [done..|]. apply inert_Leave. destruct Hmm as (Hs & Hc & He & Hx). split_and!; [|done..|].
  - exact (add_thread_same m mm P t' b v Hs).
  - intros u. cbn [tcbs set_pcbs set_tcbs add_thread].
    destruct (decide (u = t')) as [->|?]; [by rewrite !lookup_insert_eq|by rewrite !lookup_insert_ne].
Qed.
End creation.

(** ** The invariant under creation *)

(** A quiet machine is one that could have no current thread. *)
Lemma quiet_core m : struct_ok m -> idle_ok m -> quiet m <-> core_ok (set_current 0 0 m).
Proof.
  intros Hs Hi. split.
  - intros Hq. pose proof (quiet_running m Hq) as _. destruct Hs as [H1 H2 H3 H4], Hq as [Hqp Hqt].
    split_and!; [by split|done|by left|]. split; [intros p Hp; left; by apply Hqp|].
    intros p t Hp Ht E. by destruct (Hqt p t Hp Ht).
  - intros (_ & _ & _ & Hrp & Hrt). split.
    + intros p Hp. destruct (Hrp p Hp) as [?|(_ & E & _)]; [done|]. destruct (so_pcb m Hs p Hp) as (_ & _ & ? & _). done.
    + intros p t Hp Ht E. destruct (Hrt p t Hp Ht E) as (E0 & _). by destruct (so_pcb m Hs p Hp) as (_ & _ & ? & _).
Qed.

Lemma quiet_same m m' : same_sched m m' -> quiet m -> quiet m'.
Proof.
  intros Hm [Hqp Hqt]. pose proof (same_sched_shape _ _ Hm) as Hsh. split.
  - intros p. rewrite <- (procs_proper _ _ Hsh), <- (pstatus_proper _ _ Hm _ _ eq_refl). apply Hqp.
  - intros p t. rewrite <- (procs_proper _ _ Hsh), <- (threads_proper _ _ Hsh _ _ eq_refl), <- (tstatus_proper _ _ Hm _ _ eq_refl).
    apply Hqt.
Qed.

Section grow.
Context (m : machine) (Hok : core_ok m).

Lemma procs_dom p : p ∈ procs m -> p ∈ dom (pcbs m).
Proof. intros Hp. destruct (so_pcb m (proj1 Hok) p Hp) as (b & Hb & _). by apply elem_of_dom_2 in Hb. Qed.

Lemma threads_dom p t : p ∈ procs m -> t ∈ threads m p -> t ∈ dom (tcbs m).
Proof. intros Hp Ht. destruct (so_tcb m (proj1 Hok) p t Hp Ht) as (b & Hb & _). by apply elem_of_dom_2 in Hb. Qed.

Lemma core_ok_add_process p b v : p ∉ dom (pcbs m) -> p <> 0 -> push_back 0 (ListProcess (mt m)) p = Ok v ->
  p_Checksum b = PROCESS_CHECKSUM -> p_Threads b = Vector_new -> p_Status b = Ready ->
  core_ok (add_process m p b v) /\ procs (add_process m p b v) = procs m ++ [p].
Proof using Hok.
  intros Hp Hp0 Hv Hc Ht Hst. pose proof Hok as (Hs & Hi & Hcur & Hrp & Hrt).
  pose proof (padded_push _ _ _ _ (so_procs m Hs) Hv) as Hpad.
  set (m' := add_process m p b v).
  assert (procs m' = procs m ++ [p]) as Eprocs by (exact (padded_list_of _ _ Hpad)).
  assert (forall q, q ∈ procs m -> q <> p) as Hne by (intros q Hq ->; by apply Hp, procs_dom).
  assert (forall q, q <> p -> pcbs m' !! q = pcbs m !! q) as Elook by (intros q Hq; by apply lookup_insert_ne).
  assert (pcbs m' !! p = Some b) as Ep by apply lookup_insert_eq.
  assert (threads m' p = []) as Ethreads by (unfold threads; by rewrite Ep, Ht).
  assert (forall q, q <> p -> threads m' q = threads m q) as Ethreads' by (intros q Hq; unfold threads; by rewrite Elook).
  assert (forall q, q <> p -> elevation m' q = elevation m q) as Eel by (intros q Hq; unfold elevation; by rewrite Elook).
  assert (forall q, q <> p -> pvalid m' q = pvalid m q) as Epv by (intros q Hq; unfold pvalid; by rewrite Eel).
  assert (forall q u, q <> p -> tvalid m' q u = tvalid m q u) as Etv by (intros q u Hq; unfold tvalid; by rewrite Eel).
  split; [|done]. split_and!.
  - split.
    + by rewrite Eprocs.
    + rewrite Eprocs. apply NoDup_app. split_and!; [apply (so_nodup m Hs)|intros q Hq ->%list_elem_of_singleton; by apply (Hne p)|apply NoDup_singleton].
    + intros q. rewrite Eprocs. intros [Hq| ->%list_elem_of_singleton]%elem_of_app.
      * rewrite (Elook q), (Ethreads' q) by auto. by apply (so_pcb m Hs).
      * exists b. rewrite Ethreads, Ht. split_and!; [done..|apply padded_new|apply NoDup_nil_2].
    + intros q u. rewrite Eprocs. intros [Hq| ->%list_elem_of_singleton]%elem_of_app.
      * rewrite Ethreads' by auto. by apply (so_tcb m Hs).
      * rewrite Ethreads. by intros ?%elem_of_nil.
  - destruct Hi as [?|(Hip & Hie & Hit)]; [by left|right]. change (mt m') with (mt (set_ListProcess v m)). simpl.
    rewrite Eprocs, Ethreads', Eel by auto. split_and!; [by apply elem_of_app; left|done..].
  - destruct Hcur as [?|(Hcp & Hct & Hcv)]; [by left|right]. change (m_cpu m') with (m_cpu m).
    change (IdleProcess (mt m')) with (IdleProcess (mt m)). change (IdleThread (mt m')) with (IdleThread (mt m)).
    rewrite Eprocs, Ethreads', Epv, Etv by auto. split_and!; [by apply elem_of_app; left|done..].
  - split.
    + intros q. rewrite Eprocs. intros [Hq| ->%list_elem_of_singleton]%elem_of_app.
      * unfold pstatus. rewrite Elook, Epv by auto. exact (Hrp q Hq).
      * left. unfold pstatus. by rewrite Ep.
    + intros q u. rewrite Eprocs. intros [Hq| ->%list_elem_of_singleton]%elem_of_app.
      * rewrite Ethreads', Etv by auto. exact (Hrt q u Hq).
      * rewrite Ethreads. by intros ?%elem_of_nil.
Qed.

Lemma core_ok_add_thread P t b v bp : t ∉ dom (tcbs m) -> t <> 0 -> pcbs m !! P = Some bp -> push_back 0 (p_Threads bp) t = Ok v ->
  t_Parent b = P -> t_Checksum b = THREAD_CHECKSUM -> t_Status b = Ready ->
  core_ok (add_thread m P t b v) /\ (P ∈ procs m -> threads (add_thread m P t b v) P = threads m P ++ [t]).
Proof using Hok.
  intros Ht Ht0 Hbp Hv Hpar Hc Hst. pose proof Hok as (Hs & Hi & Hcur & Hrp & Hrt). set (m' := add_thread m P t b v).
  assert (forall q, q <> P -> pcbs m' !! q = pcbs m !! q) as Elook by (intros q Hq; by apply lookup_alter_ne).
  assert (pcbs m' !! P = Some (set_p_Threads v bp)) as EP by (unfold m', add_thread; simpl; by rewrite lookup_alter_eq, Hbp).
  assert (forall q u, q ∈ procs m -> u ∈ threads m q -> u <> t) as Hne by (intros q u Hq Hu ->; by apply Ht, (threads_dom q)).
  assert (forall u, u <> t -> tcbs m' !! u = tcbs m !! u) as Etook by (intros u Hu; by apply lookup_insert_ne).
  assert (tcbs m' !! t = Some b) as Et by apply lookup_insert_eq.
  assert (P ∈ procs m -> padded v (threads m P ++ [t])) as Hpad.
  { intros HP. exact (padded_push _ _ _ _ (threads_padded m Hs P bp HP Hbp) Hv). }
  assert (forall q, q <> P -> threads m' q = threads m q) as Ethreads' by (intros q Hq; unfold threads; by rewrite Elook).
  assert (P ∈ procs m -> threads m' P = threads m P ++ [t]) as EthreadsP.
  { intros HP. unfold threads at 1. rewrite EP. by apply padded_list_of, Hpad. }
  assert (forall q u, q ∈ procs m -> u ∈ threads m' q -> u ∈ threads m q \/ q = P /\ u = t) as Hinv.
  { intros q u Hq. destruct (decide (q = P)) as [->|Hq']; [|rewrite Ethreads' by done; by left].
    rewrite EthreadsP by done. intros [?| ->%list_elem_of_singleton]%elem_of_app; auto. }
  assert (forall q u, q ∈ procs m -> u ∈ threads m q -> u ∈ threads m' q) as Hmono.
  { intros q u Hq Hu. destruct (decide (q = P)) as [->|Hq']; [|by rewrite Ethreads']. rewrite EthreadsP by done.
    apply elem_of_app. by left. }
  assert (forall q, elevation m' q = elevation m q) as Eel.
  { intros q. unfold elevation. destruct (decide (q = P)) as [->|Hq]; [by rewrite EP, Hbp|by rewrite Elook]. }
  assert (forall q, pvalid m' q = pvalid m q) as Epv by (intros q; unfold pvalid; by rewrite Eel).
  assert (forall q u, tvalid m' q u = tvalid m q u) as Etv by (intros q u; unfold tvalid; by rewrite Eel).
  split; [|done]. change (procs m') with (procs m) in *. split_and!.
  - split; change (procs m') with (procs m); [apply (so_procs m Hs)|apply (so_nodup m Hs)|..].
    + intros q Hq. destruct (so_pcb m Hs q Hq) as (bq & Hbq & Hq0 & Hqc & Hqp & Hqn).
      destruct (decide (q = P)) as [->|Hq']; [|rewrite Elook, Ethreads' by done; eauto 10].
      rewrite Hbp in Hbq. injection Hbq as <-. exists (set_p_Threads v bp). rewrite EthreadsP by done.
      split_and!; [done..|by apply Hpad|]. apply NoDup_app. split_and!; [done|intros u Hu ->%list_elem_of_singleton; by eapply Hne|apply NoDup_singleton].
    + intros q u Hq [Hu|[-> ->]]%Hinv; [|by exists b|done]. rewrite Etook by eauto. by apply (so_tcb m Hs).
  - destruct Hi as [?|(Hip & Hie & Hit)]; [by left|right]. change (mt m') with (mt m). change (procs m') with (procs m).
    rewrite Eel. split_and!; [done..|]. destruct Hit; [by left|right; by apply Hmono].
  - destruct Hcur as [?|(Hcp & Hct & Hcv)]; [by left|right]. change (m_cpu m') with (m_cpu m). change (mt m') with (mt m).
    change (procs m') with (procs m). rewrite Epv, Etv. split_and!; [done|by apply Hmono|done].
  - split; change (m_cpu m') with (m_cpu m); change (procs m') with (procs m).
    + intros q Hq. rewrite Epv. unfold pstatus. destruct (decide (q = P)) as [->|Hq'].
      * rewrite EP. cbn [p_Status set_p_Threads]. specialize (Hrp P Hq). unfold pstatus in Hrp. by rewrite Hbp in Hrp.
      * rewrite Elook by done. exact (Hrp q Hq).
    + intros q u Hq [Hu|[-> ->]]%Hinv; [|unfold tstatus; by rewrite Et, Hst|done].
      rewrite Etv. unfold tstatus. rewrite Etook by eauto. exact (Hrt q u Hq Hu).
Qed.
End grow.
