(* ===== verification/TaskingSteps.v ===== *)
(** * Steps of the tasking code

    The invariant of [TaskingInv] under everything the kernel does between two
    states: interrupts of the scheduler, creation and end of processes and
    threads, priorities and ports; and what each step leaves of the saved
    registers of a thread. *)

From stdpp Require Import gmap relations.
From S2P Require Import Prelude CString Vector HashMap PageFrame PageTable KernelMemory Tasking TaskingInv TaskingSpec.

Local Open Scope Z_scope.

Section laws.
Context `{HL : HardwareLaws}.

Lemma new_not_pcb m : new_address (live m) ∉ dom (pcbs m).
Proof. intros Hin. apply (new_fresh (live m)). unfold live at 2. set_solver. Qed.

Lemma new_not_tcb m : new_address (live m) ∉ dom (tcbs m).
Proof. intros Hin. apply (new_fresh (live m)). unfold live at 2. set_solver. Qed.

(** Creation keeps the invariant and adds to the lists. *)
Lemma CreateProcess_core m P N e prio m' p : core_ok m -> CreateProcess m P N e prio = Ok (m', p) ->
  core_ok m' /\ (quiet m -> quiet m') /\ p ∈ procs m' /\ elevation m' p = e /\ CriticalSectionData m' = CriticalSectionData m /\
  MultitaskingSchedulerEnabled m' = MultitaskingSchedulerEnabled m /\
  IdleProcess (mt m') = IdleProcess (mt m) /\ IdleThread (mt m') = IdleThread (mt m).
Proof.
  intros Hok E. apply CreateProcess_inv in E as (b & v & -> & Hv & Hc & He & Ht & Hs & Hin & Hcr & Hen & Hctx).
  destruct (core_ok_add_process m Hok _ b v (new_not_pcb m) (new_nonnull _) Hv Hc Ht Hs) as [Hok' Ep].
  destruct (view_idle _ _ Hin) as [E1 E2]. pose proof (same_sched_shape _ _ Hin) as Hsh.
  split_and!; [by eapply core_ok_same| | | |done..].
  - intros Hq. eapply quiet_same; [exact Hin|]. pose proof Hok as (Hst & Hi & _). apply quiet_core; [apply Hok'..|].
    apply (quiet_core m Hst Hi) in Hq.
    by destruct (core_ok_add_process _ Hq _ b v (new_not_pcb m) (new_nonnull _) Hv Hc Ht Hs) as [? _].
  - rewrite <- (procs_proper _ _ Hsh), Ep. apply elem_of_app. right. by apply list_elem_of_singleton.
  - rewrite <- (elevation_proper _ _ Hsh _ _ eq_refl). unfold elevation, add_process. simpl. by rewrite lookup_insert_eq.
Qed.

Lemma CreateThread_core m P ip a0 a1 prio ar pl m' t : core_ok m -> CreateThread m P ip a0 a1 prio ar pl = Ok (m', t) ->
  core_ok m' /\ (quiet m -> quiet m') /\ (forall q, elevation m' q = elevation m q) /\ procs m' = procs m /\
  (P ∈ procs m -> t <> 0 -> t ∈ threads m' P) /\ CriticalSectionData m' = CriticalSectionData m /\
  MultitaskingSchedulerEnabled m' = MultitaskingSchedulerEnabled m /\
  IdleProcess (mt m') = IdleProcess (mt m) /\ IdleThread (mt m') = IdleThread (mt m).
Proof.
  intros Hok E. apply CreateThread_inv in E as [(-> & Hin & Hcr & Hen & Hctx)|(bp & v & b & HP & Hbp & -> & Hv & Hpar & Hc & Hs & Hin & Hcr & Hen & Hctx)].
  - pose proof (same_sched_shape _ _ Hin) as Hsh. destruct (view_idle _ _ Hin) as [E1 E2].
    split_and!; [by eapply core_ok_same|by apply quiet_same|intros q; by rewrite (elevation_proper _ _ Hsh _ _ eq_refl)|by rewrite (procs_proper _ _ Hsh)|done..].
  - destruct (core_ok_add_thread m Hok P _ b v bp (new_not_tcb m) (new_nonnull _) Hbp Hv Hpar Hc Hs) as [Hok' Et].
    pose proof (same_sched_shape _ _ Hin) as Hsh. destruct (view_idle _ _ Hin) as [E1 E2].
    split_and!; [by eapply core_ok_same| | |by rewrite <- (procs_proper _ _ Hsh)| |done..].
    + intros Hq. eapply quiet_same; [exact Hin|]. pose proof Hok as (Hst & Hi & _). apply quiet_core; [apply Hok'..|].
      apply (quiet_core m Hst Hi) in Hq.
      by destruct (core_ok_add_thread _ Hq P _ b v bp (new_not_tcb m) (new_nonnull _) Hbp Hv Hpar Hc Hs) as [? _].
    + intros q. rewrite <- (elevation_proper _ _ Hsh _ _ eq_refl). unfold elevation, add_thread. simpl.
      destruct (decide (q = P)) as [->|?]; [by rewrite lookup_alter_eq, Hbp|by rewrite lookup_alter_ne].
    + intros HPp _. rewrite <- (threads_proper _ _ Hsh _ _ eq_refl), Et by done. apply elem_of_app. right. by apply list_elem_of_singleton.
Qed.

(** Setting the idle process, or its thread. *)
Lemma core_ok_set_idle m p t : core_ok m -> p ∈ procs m -> elevation m p = Idle -> t = 0 \/ t ∈ threads m p ->
  IdleProcess (mt m) = 0 \/ IdleProcess (mt m) = p /\ IdleThread (mt m) = 0 ->
  let x := mt m in core_ok (set_mt (mk_Multitasking (ListProcess x) (NextPID x) (NextTID x) p t) m).
Proof.
  intros (Hs & Hi & Hc & Hr) Hp He Ht Hidle x. set (m' := set_mt _ m).
  assert (procs m' = procs m) as Ep by done.
  split_and!.
  - destruct Hs as [H1 H2 H3 H4]. by split.
  - right. by split_and!.
  - destruct Hc as [?|(Hcp & Hct & [Hv|(E1 & E2 & E3)])]; [by left|right; split_and!; [done..|by left]|].
    exfalso. destruct Hidle as [?|[_ E0]]; [congruence|]. rewrite E0 in E2. rewrite E2 in Hct.
    by destruct (so_tcb m Hs _ _ Hcp Hct) as (_ & _ & ? & _).
  - done.
Qed.

(** Switching to the idle thread, made on the first occasion. *)
Lemma go_idle_core m m' regs : core_ok m -> quiet m -> go_idle m = Ok (m', regs) ->
  core_ok m' /\ CriticalSectionData m' = CriticalSectionData m /\ MultitaskingSchedulerEnabled m' = MultitaskingSchedulerEnabled m /\
  CurrentProcess (m_cpu m') = IdleProcess (mt m') /\ CurrentThread (m_cpu m') = IdleThread (mt m') /\
  IdleProcess (mt m') <> 0 /\ IdleThread (mt m') <> 0 /\
  exists b, tcbs m' !! IdleThread (mt m') = Some b /\ regs = t_Registers b.
Proof.
  intros Hok Hq E. unfold go_idle in E. apply bind_inv in E as (m1 & E1 & E).
  assert (core_ok m1 /\ quiet m1 /\ CriticalSectionData m1 = CriticalSectionData m /\ MultitaskingSchedulerEnabled m1 = MultitaskingSchedulerEnabled m /\
    IdleProcess (mt m1) <> 0) as (Hok1 & Hq1 & Hcr1 & Hen1 & Hid1).
  { case_decide as D; [|injection E1 as <-; done].
    apply bind_inv in E1 as ([m2 p] & E2 & E1). apply CreateProcess_core in E2 as (Hok2 & Hq2 & Hp2 & He2 & Hcr2 & Hen2 & Hip2 & Hit2); [|done].
    assert (IdleThread (mt m) = 0) as Hit0.
    { pose proof Hok as (Hs & [[_ ?]|(Hin & _)] & _); [done|]. rewrite D in Hin. by destruct (so_pcb m Hs _ Hin) as (_ & _ & ? & _). }
    cbn zeta in E1. apply bind_inv in E1 as ([m3 t] & E3 & E1). injection E1 as <-.
    apply CreateThread_core in E3 as (Hok3 & Hq3 & He3 & Hp3 & Ht3 & Hcr3 & Hen3 & Hip3 & Hit3);
      [|apply (core_ok_set_idle m2 p (IdleThread (mt m2))); [done..|left; congruence|left; congruence]].
    pose proof Hok2 as (Hs2 & _). destruct (so_pcb m2 Hs2 p Hp2) as (_ & _ & Hp0 & _).
    cbn [mt set_mt IdleProcess IdleThread CriticalSectionData MultitaskingSchedulerEnabled] in *.
    split_and!; [|by apply Hq3, Hq2|congruence..].
    cbn [mt set_mt ListProcess NextPID NextTID IdleProcess IdleThread]. rewrite Hip3.
    apply (core_ok_set_idle m3 p t); [done|by rewrite Hp3|by rewrite He3| |right; split; congruence].
    destruct (decide (t = 0)); [by left|right; by apply Ht3]. }
  clear E1. cbn zeta in E. apply bind_inv in E as (t & Et & E). injection E as <- <-.
  set (m2 := set_current _ _ m1) in *. unfold tcb_at in Et. case_decide as D; [done|].
  change (CurrentThread (m_cpu m2)) with (IdleThread (mt m1)) in *. change (tcbs m2) with (tcbs m1) in Et.
  destruct (tcbs m1 !! IdleThread (mt m1)) as [bt|] eqn:Ebt; [|done]. injection Et as ->.
  destruct (UpdatePageTable_frame (ktm_PML4 (m_kernel m2)) m2) as (Ep & Et & Em & Ec & Ecr).
  set (m3 := UpdatePageTable _ m2) in *.
  assert (MultitaskingSchedulerEnabled m3 = MultitaskingSchedulerEnabled m1) as Een by (unfold m3, UpdatePageTable; by repeat case_decide).
  cbn [mt m_cpu tcbs CriticalSectionData MultitaskingSchedulerEnabled set_cpu_context set_cpu CurrentProcess CurrentThread].
  rewrite Em, Ec, Ecr, Et, Een. change (mt m2) with (mt m1). change (tcbs m2) with (tcbs m1).
  split_and!; [|done..|by exists t].
  eapply (core_ok_same m2); [split; [by rewrite <- Em|by rewrite <- Em|intros q; by rewrite <- Ep|intros q; by rewrite <- Et|by rewrite <- Ec..]|].
  pose proof Hok1 as (Hs1 & Hi1 & Hc1 & Hr1). destruct Hi1 as [[? _]|(Hip & Hie & Hit)]; [done|].
  destruct Hit as [?|Hit]; [done|].
  split_and!; [by destruct Hs1; split|by right; split_and!; [..|right]|right; split_and!; [done..|by right]|].
  by apply quiet_running.
Qed.
End laws.

(** ** One interrupt *)

Section ticks.
Context `{HL : HardwareLaws}.

(** What one interrupt does: it goes on with a thread that can run, or idles. *)
Lemma handler_sound m regs m' regs' : sched_ok m -> MultitaskingSchedulerEnabled m = true ->
  MultiTaskingSchedulerHandler m regs (sched_fuel m) = Ok (m', regs') ->
  sched_ok m' /\ MultitaskingSchedulerEnabled m' = true /\
  ((exists p t bp bt, scheduled m regs = Ok (Some (p, t)) /\ (p, t) ∈ candidates (prepared m regs) /\
      pcbs (prepared m regs) !! p = Some bp /\ tcbs (prepared m regs) !! t = Some bt /\ regs' = t_Registers bt /\
      m' = finished (resumed (prepared m regs) p t bp bt) (t_Registers bt) (IF_flag (m_cpu m)) (Priority (t_Info bt))) \/
   (candidates (prepared m regs) = [] /\ CurrentProcess (m_cpu m') = IdleProcess (mt m') /\
    CurrentThread (m_cpu m') = IdleThread (mt m') /\ CurrentThread (m_cpu m') <> 0)).
Proof.
  intros Hok Hen E. rewrite handler_choice in E by done. pose proof Hok as [Hcore Hcr]%sched_core.
  apply bind_inv in E as (r & Er & E). pose proof (scheduled_sound m regs r Hcore Er) as Hr.
  pose proof (prepared_core m regs Hcore) as Hcore'. pose proof (prepared_quiet m regs Hcore) as Hq.
  destruct (prepared_current m regs) as (_ & _ & Hc').
  assert (MultitaskingSchedulerEnabled (prepared m regs) = true) as Hen' by (unfold prepared; by destruct (runs m)).
  destruct r as [[p t]|].
  - pose proof (switch_some_ok _ _ _ _ _ _ _ Hcore' Hq Hr Hc' E) as Hok'.
    destruct (switch_some _ p t _ _ Hcore' Hq Hr Hc') as (bp & bt & Hbp & Hbt & E'). rewrite E' in E. injection E as <- <-.
    split_and!; [done| |left; exists p, t, bp, bt; by split_and!].
    unfold finished, resumed, UpdatePageTable. destruct (IF_flag (m_cpu m)); repeat case_decide; done.
  - unfold switch in E. apply bind_inv in E as ([m1 r1] & E1 & E). apply bind_inv in E as (m2 & E2 & E). injection E as <- <-.
    destruct (go_idle_core _ _ _ Hcore' Hq E1) as (Hok1 & Hcr1 & Hen1 & Ep & Et & Hp0 & Ht0 & bt & Hbt & _).
    rewrite Hc' in Hcr1. pose proof Hok1 as (Hs1 & _ & [[? _]|(Hp1 & Ht1 & _)] & _); [congruence|].
    destruct (so_pcb m1 Hs1 _ Hp1) as (bp & Hbp & _).
    rewrite (finish_eq m1 r1 bp bt (IF_flag (m_cpu m)) true) in E2;
      [|by rewrite Ep|by rewrite Et|done|by rewrite Et|done]. injection E2 as <-.
    pose proof (finished_same m1 r1 (IF_flag (m_cpu m)) (Priority (t_Info bt))) as Hsame.
    split_and!.
    + apply sched_core. split; [by eapply core_ok_same|apply finished_critical].
    + unfold finished. destruct (IF_flag (m_cpu m)); simpl; congruence.
    + right. destruct (view_idle _ _ Hsame) as [<- <-]. rewrite <- (view_process _ _ Hsame), <- (view_thread _ _ Hsame), Et.
      by split_and!.
Qed.
End ticks.

(** ** Steps of the kernel *)

Section steps.
Context `{HL : HardwareLaws}.

(** What can happen between two states of a running kernel: an interrupt of
    the scheduler, the functions that create and end processes and threads,
    set priorities and register ports, a program that runs and changes the
    registers, and other use of memory. *)
Inductive step : machine -> machine -> Prop :=
| step_tick m regs m' regs' : MultiTaskingSchedulerHandler m regs (sched_fuel m) = Ok (m', regs') -> step m m'
| step_process m P N e prio m' p : CreateProcess m P N e prio = Ok (m', p) -> step m m'
| step_thread m P ip a0 a1 prio ar pl m' t : CreateThread m P ip a0 a1 prio ar pl = Ok (m', t) -> step m m'
| step_exit m code m' : ThreadDoExit m code = Ok m' -> step m m'
| step_internal_exit m code m' : internal_exit m code = Ok m' -> step m m'
| step_process_priority m prio m' : SysSetProcessPriority m prio = Ok m' -> step m m'
| step_thread_priority m prio m' : SysSetThreadPriority m prio = Ok m' -> step m m'
| step_port m port m' h : RegisterHandle m port = Ok (m', h) -> step m m'
| step_run m fs gs shadow fx flag : step m (set_IF flag (set_cpu_context fs gs shadow fx m))
| step_memory m k w : step m (set_words w (set_kernel k m)).

Lemma core_ok_alter_status m t s : s <> Running -> core_ok m ->
  core_ok (set_tcbs (alter (set_t_Status s) t (tcbs m)) m).
Proof.
  intros Hsr (Hs & Hi & Hc & Hrp & Hrt). set (m' := set_tcbs _ m).
  assert (same_shape m m') as Hsh by (split; try done; intros q; symmetry; by apply fmap_alter).
  split_and!; [by rewrite <- Hsh|done..|]. split; [done|]. intros p u Hp Hu.
  unfold tstatus, m'. cbn [tcbs set_tcbs]. destruct (decide (u = t)) as [->|Hne].
  - rewrite lookup_alter_eq. by destruct (tcbs m !! t).
  - rewrite lookup_alter_ne by done. exact (Hrt p u Hp Hu).
Qed.

Lemma core_ok_inert m m' : inert m m' -> core_ok m -> core_ok m'.
Proof. intros [Hs _]. by apply core_ok_same. Qed.

(** The critical parts of the state that steps other than interrupts keep. *)
Definition keeps (m m' : machine) : Prop :=
  CriticalSectionData m' = CriticalSectionData m /\ MultitaskingSchedulerEnabled m' = MultitaskingSchedulerEnabled m.

Lemma exit_core m code m' : core_ok m -> ThreadDoExit m code = Ok m' -> core_ok m' /\ keeps m m'.
Proof.
  intros Hok E. unfold ThreadDoExit, Enter in E. apply bind_inv in E as (m1 & E1 & E). apply bind_inv in E as (m2 & E2 & E).
  injection E as <-. apply update_tcb_inv in E1 as (b1 & _ & _ & ->). apply update_tcb_inv in E2 as (b2 & _ & _ & ->).
  set (m0 := set_IF false m) in *.
  assert (core_ok m0) as Hok0 by exact (core_ok_inert m m0 (inert_IF false m m (inert_refl m)) Hok).
  set (t := CurrentThread (m_cpu m0)) in *.
  pose proof (core_ok_alter_status m0 t Terminated ltac:(done) Hok0) as Hok1.
  set (m1 := set_tcbs (alter (set_t_Status Terminated) t (tcbs m0)) m0) in *.
  change (CurrentThread (m_cpu m1)) with t in *.
  assert (inert m1 (TriggerOneShot 100 (Leave (set_tcbs (alter (set_t_ExitCode code) t (tcbs m1)) m1) (IF_flag (m_cpu m))))) as Hin.
  { apply inert_emit, inert_Leave. apply (inert_tcb t (set_t_ExitCode code) m1 m1); [done..|apply inert_refl]. }
  destruct Hin as (Hin & Ec & Ee & _). split; [by apply (core_ok_same m1)|]. split; [exact Ec|exact Ee].
Qed.

Lemma internal_exit_core m code m' : core_ok m -> internal_exit m code = Ok m' -> core_ok m' /\ keeps m m'.
Proof.
  intros Hok E. unfold internal_exit in E. apply bind_inv in E as (m1 & E1 & E).
  apply update_tcb_inv in E1 as (b1 & _ & _ & ->). apply update_tcb_inv in E as (b2 & _ & _ & ->).
  split; [|done]. apply core_ok_alter_status; [done|]. eapply core_ok_inert; [|exact Hok].
  apply inert_tcb; [done..|apply inert_refl].
Qed.

Lemma priority_inert m prio m' : SysSetProcessPriority m prio = Ok m' \/ SysSetThreadPriority m prio = Ok m' -> inert m m'.
Proof.
  unfold SysSetProcessPriority, SysSetThreadPriority. intros [E|E]; destruct (CurrentTaskingMode m);
    try (injection E as <-; apply inert_refl).
  - apply update_pcb_inv in E as (b & _ & _ & ->). apply inert_pcb; [done|apply inert_refl].
  - apply update_tcb_inv in E as (b & _ & _ & ->). apply inert_tcb; [done..|apply inert_refl].
Qed.

Lemma port_inert m port m' h : RegisterHandle m port = Ok (m', h) -> inert m m'.
Proof.
  unfold RegisterHandle. case_decide; [by intros [= <- _]|]. intros E. inv_bind. case_decide; [by injection E as <- _|].
  inv_bind. auto using inert_handles, inert_ports, inert_refl.
Qed.

(** Every step keeps the invariant. *)
Lemma step_ok m m' : step m m' -> sched_ok m /\ MultitaskingSchedulerEnabled m = true ->
  sched_ok m' /\ MultitaskingSchedulerEnabled m' = true.
Proof.
  intros Hst [Hok Hen]. pose proof Hok as [Hcore Hcr]%sched_core.
  enough (step m m' -> (sched_ok m' /\ MultitaskingSchedulerEnabled m' = true) \/ core_ok m' /\ keeps m m') as Hgen.
  { destruct (Hgen Hst) as [?|(? & Ec & Ee)]; [done|]. rewrite Ee. split; [|done]. apply sched_core. split; [done|].
    unfold critical_ok in *. by rewrite Ec. }
  clear Hst. intros Hst.
  assert (forall m', inert m m' -> core_ok m' /\ keeps m m') as Hinert.
  { intros m2 Hin. split; [by eapply core_ok_inert|]. by destruct Hin as (_ & ? & ? & _). }
  destruct Hst.
  - left. destruct (handler_sound _ _ _ _ Hok Hen H0) as (? & ? & _). done.
  - right. apply CreateProcess_core in H0 as (? & _ & _ & _ & ? & ? & _); [|done]. done.
  - right. apply CreateThread_core in H0 as (? & _ & _ & _ & _ & ? & ? & _); [|done]. done.
  - right. by eapply exit_core.
  - right. by eapply internal_exit_core.
  - right. apply Hinert. eapply priority_inert; eauto.
  - right. apply Hinert. eapply priority_inert; eauto.
  - right. apply Hinert. by eapply port_inert.
  - right. apply Hinert. auto using inert_IF, inert_context, inert_refl.
  - right. apply Hinert. auto using inert_words, inert_kernel, inert_refl.
Qed.
End steps.

(** ** What is saved of a thread *)

Section contexts.
Context `{HL : HardwareLaws}.

Definition ctx (m : machine) (t : Z) := tctx <$> tcbs m !! t.

Lemma CreateProcess_ctx m P N e prio m' p u : CreateProcess m P N e prio = Ok (m', p) -> ctx m' u = ctx m u.
Proof. intros E. apply CreateProcess_inv in E as (b & v & _ & _ & _ & _ & _ & _ & _ & _ & _ & Hx). exact (Hx u). Qed.

Lemma CreateThread_ctx m P ip a0 a1 prio ar pl m' t u : CreateThread m P ip a0 a1 prio ar pl = Ok (m', t) ->
  u ∈ dom (tcbs m) -> ctx m' u = ctx m u.
Proof.
  intros E Hu. apply CreateThread_inv in E as [(_ & _ & _ & _ & Hx)|(bp & v & b & _ & _ & Et & _ & _ & _ & _ & _ & _ & _ & Hx)]; [apply Hx|].
  unfold ctx. rewrite Hx. unfold add_thread. cbn [tcbs set_pcbs set_tcbs]. rewrite lookup_insert_ne; [done|].
  intros E'. rewrite Et in E'. apply (new_not_tcb m). by rewrite E'.
Qed.

Lemma ctx_dom m m' u : ctx m' u = ctx m u -> u ∈ dom (tcbs m) -> u ∈ dom (tcbs m').
Proof. unfold ctx. intros E. rewrite !elem_of_dom. destruct (tcbs m !! u), (tcbs m' !! u); simpl in E; naive_solver. Qed.

Lemma go_idle_ctx m m' regs u : go_idle m = Ok (m', regs) -> u ∈ dom (tcbs m) -> ctx m' u = ctx m u.
Proof.
  intros E Hu. unfold go_idle in E. apply bind_inv in E as (m1 & E1 & E).
  assert (ctx m1 u = ctx m u) as <-.
  { case_decide; [|by injection E1 as <-]. apply bind_inv in E1 as ([m2 p] & E2 & E1). cbn zeta in E1.
    apply bind_inv in E1 as ([m3 t] & E3 & E1). injection E1 as <-. pose proof (CreateProcess_ctx _ _ _ _ _ _ _ u E2) as Ex2.
    pose proof (CreateThread_ctx _ _ _ _ _ _ _ _ _ _ u E3) as Ex3. change (ctx m3 u = ctx m u). rewrite Ex3; [exact Ex2|].
    exact (ctx_dom _ _ _ Ex2 Hu). }
  cbn zeta in E. apply bind_inv in E as (t & _ & E). injection E as <- <-. unfold ctx. cbn [tcbs set_cpu_context set_cpu].
  match goal with |- context [UpdatePageTable ?a ?b] => destruct (UpdatePageTable_frame a b) as (_ & -> & _) end. done.
Qed.

Lemma finish_ctx m regs m' u : finish m regs = Ok m' -> ctx m' u = ctx m u.
Proof.
  unfold finish. intros E. apply bind_inv in E as (m1 & E1 & E). apply bind_inv in E as (m2 & E2 & E).
  apply bind_inv in E as (cs & _ & E). cbn zeta in E. apply bind_inv in E as (t & _ & E). injection E as <-.
  apply update_pcb_inv in E1 as (b1 & _ & _ & ->). apply update_tcb_inv in E2 as (b2 & _ & _ & ->).
  transitivity (ctx (set_tcbs (alter (fun t => set_t_Info (UpdateTimeUsed (counter (S (inputs m))) (t_Info t)) t)
    (CurrentThread (m_cpu m)) (tcbs m)) m) u); [by destruct (EnableInterrupts cs)|].
  unfold ctx. cbn [tcbs set_tcbs]. by apply fmap_alter.
Qed.

Lemma saved_ctx m regs u : u <> CurrentThread (m_cpu m) -> ctx (saved m regs) u = ctx m u.
Proof. intros Hu. unfold ctx, saved. cbn [tcbs set_tcbs]. by rewrite lookup_alter_ne. Qed.

Lemma prepared_ctx m regs u : runs m = false \/ u <> CurrentThread (m_cpu m) -> ctx (prepared m regs) u = ctx m u.
Proof. unfold prepared. destruct (runs m); intros [?|?]; try done. by rewrite saved_ctx. Qed.

(** The registers of the interrupted thread, as saved. *)
Lemma prepared_saves m regs b : runs m = true -> tcbs m !! CurrentThread (m_cpu m) = Some b ->
  ctx (prepared m regs) (CurrentThread (m_cpu m)) =
    Some (regs, FS_BASE (m_cpu m), SHADOW_GS_BASE (m_cpu m), fpu (m_cpu m)).
Proof.
  intros Hr Hb. unfold prepared. rewrite Hr. unfold ctx, saved. cbn [tcbs set_tcbs set_pcbs].
  change (CurrentThread (m_cpu (entry m))) with (CurrentThread (m_cpu m)). rewrite lookup_alter_eq.
  change (tcbs (entry m)) with (tcbs m). rewrite Hb. simpl. unfold relax_t. by case_decide.
Qed.

Lemma go_on_ctx m p t m' regs u : go_on m p t = Ok (m', regs) -> ctx m' u = ctx m u.
Proof.
  unfold go_on. intros E. apply bind_inv in E as (m1 & E1 & E). apply bind_inv in E as (m2 & E2 & E).
  apply bind_inv in E as (bt & _ & E). apply bind_inv in E as (bp & _ & E). injection E as <- _.
  apply update_pcb_inv in E1 as (b1 & _ & _ & ->). apply update_tcb_inv in E2 as (b2 & _ & _ & ->).
  unfold ctx. cbn [tcbs set_cpu_context set_cpu].
  match goal with |- context [UpdatePageTable ?a ?b] => destruct (UpdatePageTable_frame a b) as (_ & -> & _) end.
  cbn [tcbs set_tcbs set_pcbs set_current set_cpu]. by apply fmap_alter.
Qed.

(** An interrupt changes what is saved of the current thread only. *)
Lemma handler_ctx m regs fuel m' regs' u : core_ok m -> critical_ok m ->
  MultiTaskingSchedulerHandler m regs fuel = Ok (m', regs') -> u ∈ dom (tcbs m) ->
  ctx m' u = if MultitaskingSchedulerEnabled m then ctx (prepared m regs) u else ctx m u.
Proof.
  intros Hok Hcr E Hu. destruct (MultitaskingSchedulerEnabled m) eqn:Hen.
  - rewrite handler_eq in E by done. apply bind_inv in E as (r & _ & E). unfold switch in E.
    apply bind_inv in E as ([m1 r1] & E1 & E). apply bind_inv in E as (m2 & E2 & E). injection E as <- <-.
    rewrite (finish_ctx _ _ _ u E2). destruct r as [[p t]|]; [by eapply go_on_ctx|]. eapply go_idle_ctx; [done|].
    unfold prepared. destruct (runs m); [|done]. unfold saved. cbn [tcbs set_tcbs]. by rewrite dom_alter_L.
  - unfold MultiTaskingSchedulerHandler in E. rewrite Hen in E. by injection E as <- <-.
Qed.

Lemma step_ctx m m' u : step m m' -> core_ok m -> critical_ok m -> u <> CurrentThread (m_cpu m) -> u ∈ dom (tcbs m) ->
  ctx m' u = ctx m u.
Proof.
  intros Hst Hok Hcr Hne Hu.
  assert (forall m1 m2, inert m1 m2 -> ctx m2 u = ctx m1 u) as Hin by (intros m1 m2 (_ & _ & _ & Hx); apply Hx).
  assert (forall m1 t f m2, (forall b, tctx (f b) = tctx b) -> update_tcb m1 t f = Ok m2 -> ctx m2 u = ctx m1 u) as Hup.
  { intros m1 t f m2 Hf E. apply update_tcb_inv in E as (b & _ & _ & ->). unfold ctx. cbn [tcbs set_tcbs]. by apply fmap_alter. }
  destruct Hst as [m regs m' regs' E|m P N e prio m' p E|m P ip a0 a1 prio ar pl m' t E|m code m' E|m code m' E|m prio m' E|m prio m' E|m port m' h E|m|m].
  - rewrite (handler_ctx _ _ _ _ _ u Hok Hcr E Hu). destruct (MultitaskingSchedulerEnabled m); [|done]. apply prepared_ctx. by right.
  - by eapply CreateProcess_ctx.
  - by eapply CreateThread_ctx.
  - unfold ThreadDoExit, Enter in E. apply bind_inv in E as (m1 & E1 & E). apply bind_inv in E as (m2 & E2 & E). injection E as <-.
    transitivity (ctx m2 u); [by destruct (IF_flag (m_cpu m))|]. rewrite (Hup _ _ (set_t_ExitCode code) _ ltac:(done) E2). by apply (Hup _ _ (set_t_Status Terminated) _ ltac:(done) E1).
  - unfold internal_exit in E. apply bind_inv in E as (m1 & E1 & E). rewrite (Hup _ _ (set_t_Status Terminated) _ ltac:(done) E). by apply (Hup _ _ (set_t_ExitCode code) _ ltac:(done) E1).
  - apply Hin. eapply priority_inert; eauto.
  - apply Hin. eapply priority_inert; eauto.
  - apply Hin. by eapply port_inert.
  - done.
  - done.
Qed.
End contexts.
