(* ===== verification/TaskingTurns.v ===== *)
(** * Turns

    When all threads can run, the scheduler gives each its turn, in the order
    of the lists. *)

From stdpp Require Import gmap relations.
From S2P Require Import Prelude CString Vector HashMap PageFrame PageTable KernelMemory Tasking TaskingInv TaskingSpec TaskingSteps.

Local Open Scope Z_scope.

(** All threads of valid processes, in the order of the lists. *)
Definition all_threads (m : machine) : list (Z * Z) :=
  flat_map (fun p => if pvalid m p then map (pair p) (threads m p) else []) (procs m).

(** All of them can run, the current one is among them, and the vectors have
    the spare elements that the scheduler reads. *)
Record turns_ok (m : machine) : Prop := {
  turn_runs : runs m = true;
  turn_some p : p ∈ procs m -> pvalid m p = true -> threads m p <> [];
  turn_valid p t : p ∈ procs m -> pvalid m p = true -> t ∈ threads m p -> tvalid m p t = true;
  turn_ready p t : p ∈ procs m -> pvalid m p = true -> t ∈ threads m p ->
    tstatus m t = Ready \/ tstatus m t = Running /\ t = CurrentThread (m_cpu m);
  turn_room : 3 <= room (ListProcess (mt m));
  turn_troom p : p ∈ procs m -> pvalid m p = true -> 3 <= troom m p
}.

(** ** Lists *)

Lemma filter_true {A} (P : A -> Prop) `{!forall x, Decision (P x)} (l : list A) : Forall P l -> filter P l = l.
Proof. induction 1 as [|x l Hx _ IH]; [done|]. rewrite filter_cons, decide_True by done. by rewrite IH. Qed.

Lemma find_true (f : Z -> bool) l : Forall (fun x => f x = true) l -> List.find f l = head l.
Proof. intros Hl. destruct Hl as [|x l Hx _]; [done|]. simpl. by rewrite Hx. Qed.

Lemma after_app x l1 l2 : x ∉ l1 -> after x (l1 ++ x :: l2) = l2.
Proof.
  induction l1 as [|y l1 IH]; simpl; intros Hx; [by rewrite decide_True|].
  rewrite decide_False by (intros ->; apply Hx; left). apply IH. intros ?. apply Hx. by right.
Qed.

(** Where an element of the flattened list comes from. *)
Lemma flat_lookup (v : Z -> bool) (ts : Z -> list Z) : forall ps k p t,
  flat_map (fun p => if v p then map (pair p) (ts p) else []) ps !! k = Some (p, t) ->
  exists ps1 ps2 l1 l2, ps = ps1 ++ p :: ps2 /\ v p = true /\ ts p = l1 ++ t :: l2 /\
    drop (S k) (flat_map (fun p => if v p then map (pair p) (ts p) else []) ps) =
      map (pair p) l2 ++ flat_map (fun p => if v p then map (pair p) (ts p) else []) ps2.
Proof.
  induction ps as [|q ps IH]; intros k p t Hk; [done|]. cbn [flat_map] in *.
  set (F := fun p => if v p then map (pair p) (ts p) else []) in *.
  change (if v q then map (pair q) (ts q) else []) with (F q) in *.
  destruct (decide (k < length (F q))%nat) as [Hlt|Hge].
  - rewrite lookup_app_l in Hk by done. unfold F at 1. unfold F in Hk, Hlt. destruct (v q) eqn:Ev; [|done].
    change (map (pair q) (ts q)) with (pair q <$> ts q) in *. rewrite list_lookup_fmap in Hk.
    destruct (ts q !! k) as [t'|] eqn:Et; [|done]. injection Hk as -> ->.
    exists [], ps, (take k (ts p)), (drop (S k) (ts p)). split_and!; [done..|by rewrite take_drop_middle|].
    rewrite drop_app_le by exact Hlt. by rewrite <- fmap_drop.
  - rewrite lookup_app_r in Hk by lia. destruct (IH _ _ _ Hk) as (ps1 & ps2 & l1 & l2 & -> & Hv & Hts & Hd).
    exists (q :: ps1), ps2, l1, l2. split_and!; [done..|]. rewrite drop_app_ge by lia.
    replace (S k - length (F q))%nat with (S (k - length (F q))) by lia. done.
Qed.

(** ** The next thread *)

Section turns.
Context (m : machine) (regs : ThreadRegisters).
Hypothesis Hok : core_ok m.
Hypothesis Ht : turns_ok m.

Abbreviation m1 := (prepared m regs).

Lemma turns_ready p t : p ∈ procs m -> pvalid m p = true -> t ∈ threads m p -> tstatus m1 t = Ready.
Proof using Ht.
  intros Hp Hv Htt. unfold prepared. rewrite (turn_runs m Ht), saved_tstatus.
  change (tstatus (entry m) t) with (tstatus m t). change (CurrentThread (m_cpu (entry m))) with (CurrentThread (m_cpu m)).
  destruct (turn_ready m Ht p t Hp Hv Htt) as [E|[E ->]]; rewrite E; [by rewrite decide_False by naive_solver|by rewrite decide_True].
Qed.

Lemma turns_ready_threads p : p ∈ procs m -> pvalid m p = true -> ready_threads m1 p = threads m p.
Proof using Ht.
  intros Hp Hv. pose proof (prepared_shape m regs) as Hsh. unfold ready_threads.
  rewrite <- (threads_proper _ _ Hsh _ _ eq_refl). apply filter_true, Forall_forall. intros t Htt.
  rewrite <- (tvalid_proper _ _ Hsh _ _ eq_refl _ _ eq_refl), (turn_valid m Ht p t Hp Hv Htt). unfold tready.
  by rewrite (turns_ready p t Hp Hv Htt).
Qed.

Lemma turns_candidates : candidates m1 = all_threads m.
Proof using Hok Ht.
  pose proof (prepared_shape m regs) as Hsh. destruct (prepared_quiet m regs Hok) as [Hq _].
  unfold candidates, all_threads. rewrite <- (procs_proper _ _ Hsh).
  assert (forall l, l ⊆ procs m ->
    flat_map (fun p => if pvalid m1 p && pready m1 p then map (pair p) (ready_threads m1 p) else []) l =
    flat_map (fun p => if pvalid m p then map (pair p) (threads m p) else []) l) as Hgen; [|by apply Hgen].
  induction l as [|p l IH]; intros Hl; [done|]. assert (p ∈ procs m) as Hp by (apply Hl; left). cbn [flat_map].
  rewrite IH by (intros x Hx; apply Hl; by right). f_equal. rewrite <- (pvalid_proper _ _ Hsh _ _ eq_refl).
  destruct (pvalid m p) eqn:Hv; [|done]. unfold pready. rewrite (Hq p) by (by rewrite <- (procs_proper _ _ Hsh)). simpl.
  by rewrite turns_ready_threads.
Qed.

(** The choice is the next of all threads, and the first after the last. *)
Lemma turns_choice k : all_threads m !! k = Some (CurrentProcess (m_cpu m), CurrentThread (m_cpu m)) ->
  scheduled m regs = Ok (all_threads m !! (S k mod length (all_threads m))%nat).
Proof using Hok Ht.
  intros Hk. unfold scheduled. rewrite (turn_runs m Ht). unfold reference_choice.
  pose proof (prepared_shape m regs) as Hsh. destruct (prepared_current m regs) as (-> & -> & _).
  destruct (prepared_quiet m regs Hok) as [Hq _]. pose proof Hok as [Hs _].
  destruct (current_runs m Hok (turn_runs m Ht)) as (Hp & Htt & Hv & _).
  set (p := CurrentProcess (m_cpu m)) in *. set (t := CurrentThread (m_cpu m)) in *.
  destruct (flat_lookup (pvalid m) (threads m) (procs m) k p t Hk) as (ps1 & ps2 & l1 & l2 & Eps & _ & Ets & Hd).
  fold (all_threads m) in Hd. pose proof (lookup_lt_Some _ _ _ Hk) as Hlt.
  rewrite <- (threads_proper _ _ Hsh _ _ eq_refl), <- (procs_proper _ _ Hsh), <- (troom_proper _ _ Hsh _ _ eq_refl),
    <- (shape_list _ _ Hsh).
  destruct (so_pcb m Hs p Hp) as (_ & _ & _ & _ & _ & Hnd).
  assert (after t (threads m p) = l2) as ->.
  { rewrite Ets in *. apply after_app. apply NoDup_app in Hnd as (_ & Hnd & _). intros Hin. apply (Hnd t Hin). left. }
  assert (after p (procs m) = ps2) as ->.
  { pose proof (so_nodup m Hs) as Hndp. rewrite Eps in *. apply after_app. apply NoDup_app in Hndp as (_ & Hndp & _).
    intros Hin. apply (Hndp p Hin). left. }
  assert (forall x, x ∈ l2 -> x ∈ threads m p) as Hl2 by (intros x Hx; rewrite Ets; apply elem_of_app; right; by right).
  assert (forall x, x ∈ ps2 -> x ∈ procs m) as Hps2 by (intros x Hx; rewrite Eps; apply elem_of_app; right; by right).
  unfold search at 1. rewrite (find_true (tvalid m1 p) l2).
  2: { apply Forall_forall. intros x Hx. rewrite <- (tvalid_proper _ _ Hsh _ _ eq_refl _ _ eq_refl). apply (turn_valid m Ht); auto. }
  destruct l2 as [|t' l2]; cbn [head].
  2: { rewrite (turns_ready p t') by (auto; apply Hl2; left). rewrite decide_True by done. cbn [bind]. f_equal.
       assert (all_threads m !! S k = Some (p, t')) as E.
       { replace (S k) with (S k + 0)%nat by lia. by rewrite <- lookup_drop, Hd. }
       pose proof (lookup_lt_Some _ _ _ E). by rewrite Nat.mod_small. }
  rewrite decide_True by (by apply (turn_troom m Ht)). cbn [bind map app] in *.
  unfold search. destruct (List.find (pvalid m1) ps2) as [p'|] eqn:Ef.
  - apply List.find_some in Ef as Hf. destruct Hf as [Hin Hv']. rewrite <- list_elem_of_In in Hin.
    rewrite <- (pvalid_proper _ _ Hsh _ _ eq_refl) in Hv'.
    rewrite (Hq p') by (rewrite <- (procs_proper _ _ Hsh); auto). rewrite decide_True by done. cbn [bind].
    rewrite turns_ready_threads by auto. destruct (threads m p') as [|t' l'] eqn:Et'; [by destruct (turn_some m Ht p' (Hps2 _ Hin) Hv')|].
    cbn [head]. f_equal. assert (all_threads m !! S k = Some (p', t')) as E.
    { replace (S k) with (S k + 0)%nat by lia. rewrite <- lookup_drop, Hd. clear -Ef Et' Hsh Hv'.
      induction ps2 as [|q ps2 IH]; [done|]. cbn [List.find flat_map] in *. rewrite <- (pvalid_proper _ _ Hsh _ _ eq_refl) in Ef.
      destruct (pvalid m q) eqn:Eq; [injection Ef as ->; by rewrite Et'|]. by apply IH. }
    pose proof (lookup_lt_Some _ _ _ E). by rewrite Nat.mod_small.
  - rewrite decide_True by apply (turn_room m Ht). cbn [bind]. rewrite turns_candidates.
    assert (flat_map (fun p => if pvalid m p then map (pair p) (threads m p) else []) ps2 = []) as Hnil.
    { clear -Ef Hsh. induction ps2 as [|q ps2 IH]; [done|]. cbn [List.find flat_map] in *.
      rewrite <- (pvalid_proper _ _ Hsh _ _ eq_refl) in Ef. destruct (pvalid m q); [done|]. by apply IH. }
    rewrite Hnil in Hd. apply (f_equal length) in Hd. rewrite length_drop in Hd. simpl in Hd.
    replace (length (all_threads m)) with (S k) by lia. rewrite Nat.Div0.mod_same. by destruct (all_threads m).
Qed.
End turns.

(** ** Sequences of interrupts *)

(** The registers that a program leaves when it is interrupted. *)
Record interval := mk_interval {
  r_regs : ThreadRegisters; r_fs : Z; r_gs : Z; r_shadow : Z; r_fpu : list Z; r_IF : bool
}.

Definition run_program (r : interval) (m : machine) : machine :=
  set_IF (r_IF r) (set_cpu_context (r_fs r) (r_gs r) (r_shadow r) (r_fpu r) m).

Section sequences.
Context `{HL : HardwareLaws}.

(** Programs run and are interrupted. *)
Fixpoint ticks (m : machine) (rs : list interval) : res machine :=
  match rs with
  | [] => Ok m
  | r :: rs =>
      let* '(m', _) := MultiTaskingSchedulerHandler (run_program r m) (r_regs r) (sched_fuel m) in
      ticks m' rs
  end.

Lemma turns_tick m regs k : sched_ok m -> MultitaskingSchedulerEnabled m = true -> turns_ok m ->
  all_threads m !! k = Some (CurrentProcess (m_cpu m), CurrentThread (m_cpu m)) ->
  exists m' regs', MultiTaskingSchedulerHandler m regs (sched_fuel m) = Ok (m', regs') /\
    sched_ok m' /\ MultitaskingSchedulerEnabled m' = true /\ turns_ok m' /\ all_threads m' = all_threads m /\
    all_threads m !! (S k mod length (all_threads m))%nat = Some (CurrentProcess (m_cpu m'), CurrentThread (m_cpu m')).
Proof.
  intros Hok Hen Ht Hk. pose proof Hok as [Hcore _]%sched_core. pose proof (lookup_lt_Some _ _ _ Hk) as Hlt.
  pose proof (turns_choice m regs Hcore Ht k Hk) as Hsch.
  destruct (lookup_lt_is_Some_2 (all_threads m) (S k mod length (all_threads m))) as [[p t] Hpt]; [apply Nat.mod_upper_bound; lia|].
  rewrite Hpt in *. pose proof (scheduled_sound m regs _ Hcore Hsch) as Hc.
  pose proof (prepared_core m regs Hcore) as Hcore'. pose proof (prepared_quiet m regs Hcore) as Hq.
  destruct (prepared_current m regs) as (_ & _ & Hcr).
  destruct (switch_some _ p t _ _ Hcore' Hq Hc Hcr) as (bp & bt & Hbp & Hbt & Esw).
  set (m2 := resumed (prepared m regs) p t bp bt) in *. set (m' := finished m2 _ _ _) in *.
  assert (MultiTaskingSchedulerHandler m regs (sched_fuel m) = Ok (m', t_Registers bt)) as E
    by (rewrite handler_choice by done; by rewrite Hsch).
  destruct (handler_sound m regs m' _ Hok Hen E) as (Hok' & Hen' & _).
  pose proof (finished_same m2 (t_Registers bt) (IF_flag (m_cpu m)) (Priority (t_Info bt))) as Hsame. fold m' in Hsame.
  assert (same_shape m m') as Hsh.
  { etrans; [apply (prepared_shape m regs)|]. etrans; [apply resumed_shape|]. by apply same_sched_shape. }
  destruct (resumed_frame (prepared m regs) p t bp bt) as (_ & _ & Ep & Et). fold m2 in Ep, Et.
  rewrite (view_process _ _ Hsame) in Ep. rewrite (view_thread _ _ Hsame) in Et.
  exists m', (t_Registers bt). split_and!; [done..| | |by rewrite Ep, Et].
  - pose proof Hc as (Hp & Hv & _ & Htt & Htv & _)%candidates_elem.
    rewrite <- (pvalid_proper _ _ (prepared_shape m regs) _ _ eq_refl), (pvalid_proper _ _ Hsh _ _ eq_refl) in Hv.
    rewrite <- (tvalid_proper _ _ (prepared_shape m regs) _ _ eq_refl _ _ eq_refl), (tvalid_proper _ _ Hsh _ _ eq_refl _ _ eq_refl) in Htv.
    destruct (so_pcb _ (proj1 Hcore') p Hp) as (_ & _ & Hp0 & _).
    split.
    + unfold runs. rewrite Ep, Et, Hv, Htv. by rewrite bool_decide_eq_true_2.
    + intros q. rewrite <- (procs_proper _ _ Hsh), <- (pvalid_proper _ _ Hsh _ _ eq_refl), <- (threads_proper _ _ Hsh _ _ eq_refl).
      apply (turn_some m Ht).
    + intros q u. rewrite <- (procs_proper _ _ Hsh), <- (pvalid_proper _ _ Hsh _ _ eq_refl), <- (threads_proper _ _ Hsh _ _ eq_refl),
        <- (tvalid_proper _ _ Hsh _ _ eq_refl _ _ eq_refl). apply (turn_valid m Ht).
    + intros q u. rewrite <- (procs_proper _ _ Hsh), <- (pvalid_proper _ _ Hsh _ _ eq_refl), <- (threads_proper _ _ Hsh _ _ eq_refl).
      intros Hq' Hv' Hu. rewrite <- (tstatus_proper _ _ Hsame _ _ eq_refl), Et.
      unfold m2. rewrite resumed_tstatus by done. case_decide; [by right|left]. by apply (turns_ready m regs Ht q).
    + rewrite <- (shape_list _ _ Hsh). apply (turn_room m Ht).
    + intros q. rewrite <- (procs_proper _ _ Hsh), <- (pvalid_proper _ _ Hsh _ _ eq_refl), <- (troom_proper _ _ Hsh _ _ eq_refl).
      apply (turn_troom m Ht).
  - unfold all_threads. rewrite <- (procs_proper _ _ Hsh). apply flat_map_ext. intros q.
    by rewrite <- (pvalid_proper _ _ Hsh _ _ eq_refl), <- (threads_proper _ _ Hsh _ _ eq_refl).
Qed.

Lemma run_program_ok r m : sched_ok m -> sched_ok (run_program r m).
Proof.
  intros [Hc Hcr]%sched_core. apply sched_core. split; [|done]. by apply (core_ok_same m).
Qed.

Lemma run_program_turns r m : turns_ok m -> turns_ok (run_program r m).
Proof. intros [? ? ? ? ? ?]. by split. Qed.

Lemma ticks_turn rs : forall m k, sched_ok m -> MultitaskingSchedulerEnabled m = true -> turns_ok m ->
  all_threads m !! k = Some (CurrentProcess (m_cpu m), CurrentThread (m_cpu m)) ->
  exists m', ticks m rs = Ok m' /\ all_threads m' = all_threads m /\
    all_threads m !! ((k + length rs) mod length (all_threads m))%nat = Some (CurrentProcess (m_cpu m'), CurrentThread (m_cpu m')).
Proof.
  induction rs as [|r rs IH]; intros m k Hok Hen Ht Hk.
  - exists m. split_and!; [done..|]. rewrite Nat.add_0_r, Nat.mod_small; [done|by eapply lookup_lt_Some].
  - cbn [ticks]. destruct (turns_tick (run_program r m) (r_regs r) k (run_program_ok r m Hok) Hen (run_program_turns r m Ht) Hk)
      as (m1 & regs1 & E & Hok1 & Hen1 & Ht1 & Ea & Hk1).
    change (sched_fuel (run_program r m)) with (sched_fuel m) in E. rewrite E. cbn [bind].
    change (all_threads (run_program r m)) with (all_threads m) in *. rewrite <- Ea in Hk1.
    destruct (IH m1 _ Hok1 Hen1 Ht1 Hk1) as (m' & Et & Ea' & Hk'). exists m'. rewrite Ea in *.
    split_and!; [done..|]. rewrite <- Hk'. f_equal. rewrite Nat.Div0.add_mod_idemp_l. simpl. f_equal. lia.
Qed.
End sequences.
