(* ===== verification/TaskingTheorems.v ===== *)
(** * What holds of the tasking code

    The theorems about [Tasking]: the choice of the scheduler, the invariant
    of the control blocks in all reachable states, turns and registers of
    threads, the start of the system, and the states in which the scheduler
    does not return. *)

From stdpp Require Import gmap relations.
From S2P Require Import Prelude CString Vector HashMap PageFrame PageTable PageTableSpec KernelMemory KernelMemorySpec Tasking TaskingInv TaskingSpec TaskingSteps TaskingTurns.

Local Open Scope Z_scope.

(** ** A sample machine *)

(** Hardware whose [new] takes the address behind the highest one in use, and
    an image with 256 zero bytes behind every literal. *)
Definition highest (l : list Z) : Z := foldr Z.max 0 l.

Definition sample_hardware : Hardware := {|
  counter n := Z.of_nat n;
  cmos _ _ := 0x12;
  rand64 n := Z.of_nat n;
  new_address s := 1 + highest (elements s);
  address_ThreadDoExit := 0xE117;
  address_IdleProcessLoop := 0x1D1E;
  literal s := bytes_of s ++ replicate 256 0
|}.

Lemma highest_ge l x : x ∈ l -> x <= highest l.
Proof. induction l as [|y l IH]; [by intros ?%elem_of_nil|]. intros [->|?]%elem_of_cons; simpl; [lia|]. pose proof (IH ltac:(done)). lia. Qed.

Lemma highest_pos l : 0 <= highest l.
Proof. induction l as [|y l IH]; simpl; lia. Qed.

#[local] Existing Instance sample_hardware.

#[local] Instance sample_laws : HardwareLaws sample_hardware.
Proof.
  split; simpl; intros s.
  - intros Hin. apply elem_of_elements, highest_ge in Hin. lia.
  - pose proof (highest_pos (elements s)). lia.
  - exists (replicate 255 0). change (replicate 256 0) with (0 :: replicate 255 0). done.
Qed.

(** The machine before [StartTasking]. *)
Definition sample_boot : machine :=
  mk_machine ∅ ∅ ∅ ∅ Vector_new (mk_cpu 0 0 0 0 0 (replicate 512 0) true)
    (mk_Multitasking Vector_new 0 0 0 0) NoTasking false None sample_kernel ∅ [] 0.

(** ** Helper lemmas *)

Section helpers.
Context `{HL : HardwareLaws}.

Lemma core_ok_empty m : ListProcess (mt m) = Vector_new -> IdleProcess (mt m) = 0 -> IdleThread (mt m) = 0 ->
  CurrentProcess (m_cpu m) = 0 -> CurrentThread (m_cpu m) = 0 -> core_ok m.
Proof.
  intros Hl Hi Hi' Hp Ht. assert (forall p, p ∉ procs m) as Hno by (intros p; unfold procs; rewrite Hl; apply not_elem_of_nil).
  split_and!; [split|by left|by left|split].
  - unfold procs. rewrite Hl. exact padded_new.
  - unfold procs. rewrite Hl. apply NoDup_nil_2.
  - intros p Hin. by destruct (Hno p).
  - intros p t Hin. by destruct (Hno p).
  - intros p Hin. by destruct (Hno p).
  - intros p t Hin. by destruct (Hno p).
Qed.

Lemma Multitasking_new_core m : CurrentProcess (m_cpu m) = 0 -> CurrentThread (m_cpu m) = 0 ->
  core_ok (Multitasking_new (set_IF false m)).
Proof.
  intros Hp Ht. destruct m as [? ? ? ? ? [] ? ? ? ? ? ? ? ?]. cbn in Hp, Ht. subst. apply core_ok_empty; reflexivity.
Qed.

Lemma new_critical m : CriticalSectionData (Multitasking_new m) = Some (mk_Critical false false).
Proof. reflexivity. Qed.

Lemma enable_same m : same_sched m (set_IF true (set_mode (CurrentTaskingMode m) true m)).
Proof. by split. Qed.

Lemma enable_critical m :
  CriticalSectionData (set_IF true (set_mode (CurrentTaskingMode m) true m)) = CriticalSectionData m /\
  MultitaskingSchedulerEnabled (set_IF true (set_mode (CurrentTaskingMode m) true m)) = true.
Proof. by split. Qed.

Lemma StartTasking_inv m a m' : StartTasking m a = Ok m' ->
  exists m1 p m2 t, CreateProcess (Multitasking_new (set_IF false m)) 0 (literal "kernel") Kernel 1 = Ok (m1, p) /\
    CreateThread m1 p a 0 0 1 x64 Native = Ok (m2, t) /\ m' = set_IF true (set_mode (CurrentTaskingMode m2) true m2).
Proof.
  unfold StartTasking. intros E. apply bind_inv in E as ([m1 p] & E1 & E). apply bind_inv in E as ([m2 t] & E2 & E).
  injection E as <-. exists m1, p, m2, t. split_and!; [exact E1|exact E2|reflexivity].
Qed.

Lemma StartTasking_ok m a m' : CurrentProcess (m_cpu m) = 0 -> CurrentThread (m_cpu m) = 0 ->
  StartTasking m a = Ok m' -> sched_ok m' /\ MultitaskingSchedulerEnabled m' = true.
Proof.
  intros Hp Ht E. apply StartTasking_inv in E as (m1 & p & m2 & t & E1 & E2 & ->).
  pose proof (Multitasking_new_core m Hp Ht) as Hok.
  apply CreateProcess_core in E1 as (Hok1 & _ & _ & _ & Hcr1 & _); [|exact Hok].
  apply CreateThread_core in E2 as (Hok2 & _ & _ & _ & _ & Hcr2 & _); [|exact Hok1].
  destruct (enable_critical m2) as [Ec Ee]. split; [|exact Ee]. apply sched_core.
  split; [exact (core_ok_same _ _ (enable_same m2) Hok2)|]. exists false.
  rewrite Ec, Hcr2, Hcr1. apply new_critical.
Qed.

Lemma after_incl x l : after x l ⊆ l.
Proof. intros y. induction l as [|z l IH]; simpl; [done|]. case_decide; intros ?; right; auto. Qed.

Lemma after_nodup x l : NoDup l -> x ∉ after x l.
Proof.
  induction l as [|y l IH]; simpl; [intros _ ?%elem_of_nil; done|]. intros [Hy Hl]%NoDup_cons.
  case_decide as D; [by subst|auto].
Qed.

(** A thread that was created: its block, its stack and its registers. *)
Lemma CreateThread_block m P ip a0 a1 prio ar pl m' t bp : CreateThread m P ip a0 a1 prio ar pl = Ok (m', t) ->
  pcbs m !! P = Some bp -> t <> 0 ->
  let user := bool_decide (p_Elevation bp = User) in
  exists b k stack, tcbs m' !! t = Some b /\ AllocateStack (m_kernel m) user = Ok (k, stack) /\
    t_Status b = Ready /\ t_Parent b = P /\ t_ID b = NextTID (mt m) /\ NextTID (mt m') = u64 (NextTID (mt m) + 1) /\
    t_Stack b = stack /\
    t_Registers b = initial_regs (if user then GDT_USER_CODE else GDT_KERNEL_CODE) (if user then GDT_USER_DATA else GDT_KERNEL_DATA)
      stack (u64 (ip + p_Offset bp)) a0 a1 /\
    t_gs b = (if user then 0 else t) /\
    (user = false -> words m' !! stack = Some address_ThreadDoExit).
Proof.
  intros E Hbp Ht0. unfold CreateThread, Enter, next_tid in E. apply bind_inv in E as (ok & Eok & E).
  destruct ok; cbn [negb] in E; [|by injection E as _ <-].
  assert (P <> 0) as HP by (intros ->; done). clear Eok.
  apply bind_inv in E as (p & Ep & E). unfold pcb_at in Ep. rewrite decide_False in Ep by done.
  change (pcbs (set_IF false m)) with (pcbs m) in Ep. rewrite Hbp in Ep. injection Ep as <-.
  apply bind_inv in E as ([m1 token] & E1 & E). apply CreateToken_inv in E1 as (tv & E1 & _).
  assert (m_kernel m1 = m_kernel m /\ NextTID (mt m1) = u64 (NextTID (mt m) + 1)) as [Ek Etid] by (rewrite E1; done). clear E1.
  apply bind_inv in E as (name & _ & E). apply bind_inv in E as (buf0 & _ & E). apply bind_inv in E as (buf & _ & E).
  apply bind_inv in E as (r & Er & E). destruct r as [[[[[m2 gs] code] data] stack]|]; [|by injection E as _ <-].
  assert (exists k, let user := bool_decide (p_Elevation bp = User) in AllocateStack (m_kernel m) user = Ok (k, stack) /\
    code = (if user then GDT_USER_CODE else GDT_KERNEL_CODE) /\ data = (if user then GDT_USER_DATA else GDT_KERNEL_DATA) /\
    gs = (if user then 0 else new_address (live m)) /\ NextTID (mt m2) = NextTID (mt m1) /\
    (user = false -> words m2 !! stack = Some address_ThreadDoExit)) as (k & Ea & Ec & Ed & Eg & Em & Ew).
  { rewrite <- Ek. destruct (p_Elevation bp); [done|..]; apply bind_inv in Er as (m3 & E3 & Er); apply TrustToken_inv in E3 as ->;
      apply bind_inv in Er as ([k st] & E4 & Er); injection Er as <- <- <- <- <-; exists k; split_and!; try done;
      intros _; apply lookup_insert_eq. }
  clear Er. unfold SetInfo in E. cbn zeta in E.
  match type of E with context [set_tcbs (<[_ := ?b0]> (tcbs ?x)) ?x] => set (mm := x) in *; set (b := b0) in * end.
  change (new_address (live (set_IF false m))) with (new_address (live m)) in *. set (t' := new_address (live m)) in *.
  apply bind_inv in E as (m5 & E5 & E). injection E as <- <-. unfold push_thread in E5.
  apply bind_inv in E5 as (b5 & Eb5 & E5). apply bind_inv in E5 as (v & Ev & E5).
  apply update_pcb_inv in E5 as (b6 & _ & Hb6 & ->).
  set (m6 := set_pcbs _ _).
  assert (tcbs (Leave m6 (IF_flag (m_cpu m))) = <[t' := b]> (tcbs mm) /\ mt (Leave m6 (IF_flag (m_cpu m))) = mt m2 /\
    words (Leave m6 (IF_flag (m_cpu m))) = words m2) as (-> & -> & ->) by (by destruct (IF_flag (m_cpu m))).
  exists b, k, stack. rewrite lookup_insert_eq, Em, Etid. subst code data gs. by split_and!.
Qed.
Lemma find_ext (f g : Z -> bool) l : (forall x, f x = g x) -> List.find f l = List.find g l.
Proof. intros E. induction l as [|x l IH]; simpl; [done|]. by rewrite E, IH. Qed.

(** The lists after a thread was created. *)
Lemma CreateThread_listed m P ip a0 a1 prio ar pl m' t bp : core_ok m -> P ∈ procs m -> pcbs m !! P = Some bp ->
  CreateThread m P ip a0 a1 prio ar pl = Ok (m', t) -> p_Elevation bp <> UnknownElevation ->
  t <> 0 /\ t ∉ live m /\ forall q, threads m' q = if decide (q = P) then threads m P ++ [t] else threads m q.
Proof.
  intros Hok HP Hbp E He. assert (t <> 0) as Ht.
  { intros ->. destruct (so_pcb m (proj1 Hok) P HP) as (b & Hb & HP0 & Hck & _). rewrite Hbp in Hb. injection Hb as <-.
    unfold CreateThread, Enter, next_tid in E. unfold pcb_at in E.
    change (pcbs (set_IF false m)) with (pcbs m) in E. rewrite !(decide_False (P := P = 0)), Hbp in E by done.
    cbn [bind] in E. rewrite bool_decide_eq_true_2 in E by done. cbn [negb] in E.
    apply bind_inv in E as ([m1 token] & _ & E).
    apply bind_inv in E as (name & _ & E). apply bind_inv in E as (buf0 & _ & E). apply bind_inv in E as (buf & _ & E).
    apply bind_inv in E as (r & Er & E). destruct r as [[[[[m2 gs] code] data] stack]|].
    - unfold SetInfo in E. cbn zeta in E. apply bind_inv in E as (m5 & _ & E). injection E as _ E. by apply new_nonnull in E.
    - destruct (p_Elevation bp); [done|..]; apply bind_inv in Er as (? & _ & Er); apply bind_inv in Er as ([? ?] & _ & Er); done. }
  split; [done|]. apply CreateThread_inv in E as [[? _]|(bp' & v & b & HP0 & Hbp' & -> & Hv & Hpar & Hc & Hs & Hin & _)]; [done|].
  split; [apply new_fresh|]. intros q. rewrite <- (threads_proper _ _ (same_sched_shape _ _ Hin) _ _ eq_refl).
  destruct (core_ok_add_thread m Hok P _ b v bp' (new_not_tcb m) (new_nonnull _) Hbp' Hv Hpar Hc Hs) as [_ Et].
  case_decide as D; [subst; by apply Et|]. unfold threads, add_thread. simpl. by rewrite lookup_alter_ne.
Qed.
End helpers.

(** ** Theorems *)

Section theorems.
Context `{HL : HardwareLaws}.

(** C5 Equivalence: for every state that satisfies the invariant, the handler
    of the scheduling interrupt chooses what the reference definition on lists
    chooses (the next thread of the process, else the first thread of the next
    process, else the first thread that can run at all), it resumes that
    thread with the registers saved in it, it idles if the reference finds
    none, and it fails exactly when and how the reference says. *)
Theorem scheduler_choice m regs fuel :
  sched_ok m -> MultitaskingSchedulerEnabled m = true -> (sched_fuel m <= fuel)%nat ->
  match scheduled m regs with
  | Ok (Some (p, t)) => exists m' b, tcbs (prepared m regs) !! t = Some b /\
      MultiTaskingSchedulerHandler m regs fuel = Ok (m', t_Registers b) /\
      CurrentProcess (m_cpu m') = p /\ CurrentThread (m_cpu m') = t
  | Ok None => MultiTaskingSchedulerHandler m regs fuel = switch (prepared m regs) None
  | Err e => MultiTaskingSchedulerHandler m regs fuel = Err e
  end.
Proof.
  intros Hok Hen Hf. rewrite handler_choice by done. pose proof Hok as [Hcore _]%sched_core.
  destruct (scheduled m regs) as [[[p t]|]|e] eqn:Er; [|done..]. cbn [bind].
  pose proof (scheduled_sound m regs _ Hcore Er) as Hc. destruct (prepared_current m regs) as (_ & _ & Hcr).
  destruct (switch_some _ p t _ _ (prepared_core m regs Hcore) (prepared_quiet m regs Hcore) Hc Hcr) as (bp & bt & Hbp & Hbt & Esw).
  eexists _, bt. split_and!; [exact Hbt|exact Esw|..].
  - rewrite <- (view_process _ _ (finished_same _ _ _ _)). apply (resumed_frame (prepared m regs) p t bp bt).
  - rewrite <- (view_thread _ _ (finished_same _ _ _ _)). apply (resumed_frame (prepared m regs) p t bp bt).
Qed.

(** C8 Safety: after an interrupt the processor runs a thread that was valid and
    ready, of a process that was, with that thread's registers, segment bases
    and floating point state; the thread and its process are marked running,
    and no other thread is.  It runs the idle thread only if no thread could
    run. *)
Theorem scheduler_safe m regs m' regs' :
  sched_ok m -> MultitaskingSchedulerEnabled m = true ->
  MultiTaskingSchedulerHandler m regs (sched_fuel m) = Ok (m', regs') ->
  let p := CurrentProcess (m_cpu m') in
  let t := CurrentThread (m_cpu m') in
  ((p, t) ∈ candidates (prepared m regs) /\
   (exists b, tcbs (prepared m regs) !! t = Some b /\ regs' = t_Registers b /\ FS_BASE (m_cpu m') = t_fs b /\
      GS_BASE (m_cpu m') = t /\ fpu (m_cpu m') = FXRegion b) /\
   pstatus m' p = Running /\ tstatus m' t = Running /\
   forall q u, q ∈ procs m' -> u ∈ threads m' q -> u <> t -> tstatus m' u <> Running) \/
  (candidates (prepared m regs) = [] /\ p = IdleProcess (mt m') /\ t = IdleThread (mt m')).
Proof.
  intros Hok Hen E. destruct (handler_sound _ _ _ _ Hok Hen E) as (Hok' & _ & Hcase).
  destruct Hcase as [(p & t & bp & bt & _ & Hc & Hbp & Hbt & -> & Em)|(Hc & Ep & Et & _)]; [left|by right].
  set (m2 := resumed (prepared m regs) p t bp bt) in *.
  pose proof (finished_same m2 (t_Registers bt) (IF_flag (m_cpu m)) (Priority (t_Info bt))) as Hsame. rewrite <- Em in Hsame.
  destruct (resumed_frame (prepared m regs) p t bp bt) as (_ & _ & Ep & Et). fold m2 in Ep, Et.
  rewrite (view_process _ _ Hsame) in Ep. rewrite (view_thread _ _ Hsame) in Et. rewrite Ep, Et.
  split_and!; [done| | | |].
  - exists bt. rewrite Em. unfold finished. by destruct (IF_flag (m_cpu m)).
  - rewrite <- (pstatus_proper _ _ Hsame _ _ eq_refl). unfold m2. rewrite resumed_pstatus by done. by rewrite decide_True.
  - rewrite <- (tstatus_proper _ _ Hsame _ _ eq_refl). unfold m2. rewrite resumed_tstatus by done. by rewrite decide_True.
  - intros q u Hq Hu Hne E'. destruct (proj2 (ok_running m' Hok') q u Hq Hu E') as (_ & ? & _). congruence.
Qed.

(** C4 Invariant: from the start of tasking on, through any sequence of
    interrupts, creations, exits, priority changes, port registrations and
    running programs, the control blocks stay well formed: the lists hold live
    blocks with their checksums, each thread is in the list of its parent
    only, the processor runs a listed thread, at most the current thread is
    marked running, and the lock is free. *)
Theorem scheduler_invariant m0 a m1 m :
  CurrentProcess (m_cpu m0) = 0 -> CurrentThread (m_cpu m0) = 0 ->
  StartTasking m0 a = Ok m1 -> rtc step m1 m ->
  sched_ok m /\ MultitaskingSchedulerEnabled m = true.
Proof.
  intros Hp Ht E Hsteps. pose proof (StartTasking_ok m0 a m1 Hp Ht E) as Hok. clear E.
  induction Hsteps as [|m1 m2 m3 Hst _ IH]; [done|]. apply IH. by apply (step_ok m1).
Qed.

(** C6 Liveness.  Scheduling is on, a thread is running, every valid process has
    threads, and all of these are valid and, but for the running one, ready; the
    vector of processes and those of threads have three spare elements (without
    them the handler reads past one: [scheduler_overrun]).  Then every thread of a
    valid process, the running one included, is resumed within as many interrupts
    as there are such threads, whatever registers, segment bases, floating point
    state and interrupt flag the programs leave in between: the interrupts
    return, and the turns go around in the order of the lists.  Threads that are
    created or end, and system calls, in between are not covered. *)
Theorem round_robin m p t :
  sched_ok m -> MultitaskingSchedulerEnabled m = true -> turns_ok m -> (p, t) ∈ all_threads m ->
  exists j, (1 <= j <= length (all_threads m))%nat /\
    forall rs, length rs = j -> exists m', ticks m rs = Ok m' /\
      CurrentProcess (m_cpu m') = p /\ CurrentThread (m_cpu m') = t.
Proof.
  intros Hok Hen Ht Hin. pose proof Hok as [Hcore _]%sched_core. set (n := length (all_threads m)).
  assert (exists k, all_threads m !! k = Some (CurrentProcess (m_cpu m), CurrentThread (m_cpu m))) as [k Hk].
  { apply list_elem_of_lookup. rewrite <- (turns_candidates m zero_regs Hcore Ht). apply candidates_elem.
    pose proof (prepared_shape m zero_regs) as Hsh. destruct (current_runs m Hcore (turn_runs m Ht)) as (Hp & Htt & Hv & Htv).
    destruct (prepared_quiet m zero_regs Hcore) as [Hq _].
    rewrite <- (procs_proper _ _ Hsh), <- (pvalid_proper _ _ Hsh _ _ eq_refl), <- (threads_proper _ _ Hsh _ _ eq_refl),
      <- (tvalid_proper _ _ Hsh _ _ eq_refl _ _ eq_refl). unfold pready, tready.
    rewrite (Hq _) by (by rewrite <- (procs_proper _ _ Hsh)). by rewrite (turns_ready m zero_regs Ht _ _ Hp Hv Htt). }
  apply list_elem_of_lookup in Hin as [i Hi]. pose proof (lookup_lt_Some _ _ _ Hk). pose proof (lookup_lt_Some _ _ _ Hi).
  fold n in H0, H1. exists (if decide (k < i)%nat then (i - k)%nat else (n + i - k)%nat). split; [case_decide; lia|].
  intros rs Hrs. destruct (ticks_turn rs m k Hok Hen Ht Hk) as (m' & E & _ & Hk'). exists m'. split; [done|].
  fold n in Hk'. replace ((k + length rs) mod n)%nat with i in Hk'; [rewrite Hi in Hk'; by injection Hk' as <- <-|].
  rewrite Hrs. case_decide.
  - rewrite Nat.mod_small; lia.
  - replace (k + (n + i - k))%nat with (i + 1 * n)%nat by lia. rewrite Nat.Div0.mod_add, Nat.mod_small; lia.
Qed.

(** C7 Round trip: a thread that was interrupted with some registers, and that
    is resumed at a later interrupt, after any steps of the kernel in which it
    is not the current thread, gets back exactly these registers, its segment
    base and its floating point state. *)
Theorem context_restored m regs m1 regs1 m2 regs2 m3 regs3 :
  sched_ok m -> MultitaskingSchedulerEnabled m = true -> runs m = true ->
  let t := CurrentThread (m_cpu m) in
  MultiTaskingSchedulerHandler m regs (sched_fuel m) = Ok (m1, regs1) ->
  rtc (fun a b => step a b /\ CurrentThread (m_cpu a) <> t) m1 m2 ->
  CurrentThread (m_cpu m2) <> t ->
  MultiTaskingSchedulerHandler m2 regs2 (sched_fuel m2) = Ok (m3, regs3) ->
  CurrentThread (m_cpu m3) = t -> IdleThread (mt m3) <> t ->
  regs3 = regs /\ FS_BASE (m_cpu m3) = FS_BASE (m_cpu m) /\ fpu (m_cpu m3) = fpu (m_cpu m).
Proof.
  intros Hok Hen Hr t E1 Hsteps Hne2 E2 Hcur Hidle. pose proof Hok as [Hcore Hcr]%sched_core.
  destruct (current_runs m Hcore Hr) as (Hp & Htt & _). destruct (so_tcb m (proj1 Hcore) _ _ Hp Htt) as (b & Hb & _).
  assert (t ∈ dom (tcbs m)) as Hdom by (by apply elem_of_dom_2 in Hb).
  pose proof (handler_ctx _ _ _ _ _ t Hcore Hcr E1 Hdom) as Hx1. rewrite Hen in Hx1.
  change (ctx (prepared m regs) t) with (ctx (prepared m regs) (CurrentThread (m_cpu m))) in Hx1.
  rewrite (prepared_saves m regs b Hr Hb) in Hx1.
  destruct (handler_sound _ _ _ _ Hok Hen E1) as (Hok1 & Hen1 & _).
  set (x := (regs, FS_BASE (m_cpu m), SHADOW_GS_BASE (m_cpu m), fpu (m_cpu m))) in *.
  assert (sched_ok m2 /\ MultitaskingSchedulerEnabled m2 = true /\ ctx m2 t = Some x) as (Hok2 & Hen2 & Hx2).
  { clear E1 E2 Hne2. induction Hsteps as [|m1 m' m2 [Hst Hne] _ IH]; [done|].
    pose proof Hok1 as [Hcore1 Hcr1]%sched_core. destruct (step_ok _ _ Hst (conj Hok1 Hen1)) as [? ?].
    apply IH; [|done..]. rewrite (step_ctx _ _ t Hst Hcore1 Hcr1 (not_eq_sym Hne)); [done|].
    unfold ctx in Hx1. apply elem_of_dom. destruct (tcbs m1 !! t); [eauto|done]. }
  pose proof Hok2 as [Hcore2 Hcr2]%sched_core.
  assert (t ∈ dom (tcbs m2)) as Hdom2 by (unfold ctx in Hx2; apply elem_of_dom; destruct (tcbs m2 !! t); [eauto|done]).
  destruct (handler_sound _ _ _ _ Hok2 Hen2 E2) as (_ & _ & [(p' & t' & bp & bt & _ & _ & Hbp & Hbt & -> & Em)|(_ & _ & Ei & _)]); [|congruence].
  set (mm := resumed (prepared m2 regs2) p' t' bp bt) in *.
  pose proof (finished_same mm (t_Registers bt) (IF_flag (m_cpu m2)) (Priority (t_Info bt))) as Hsame. rewrite <- Em in Hsame.
  destruct (resumed_frame (prepared m2 regs2) p' t' bp bt) as (_ & _ & _ & Et). fold mm in Et.
  rewrite (view_thread _ _ Hsame), Hcur in Et. subst t'.
  pose proof (prepared_ctx m2 regs2 t (or_intror (not_eq_sym Hne2))) as Hx. rewrite Hx2 in Hx. unfold ctx in Hx. rewrite Hbt in Hx.
  injection Hx as E3 E4 E5 E6. rewrite E3. split; [done|]. rewrite Em. unfold finished, mm, resumed.
  destruct (IF_flag (m_cpu m2)); simpl; by rewrite E4, E6.
Qed.

(** C39 Error: when the next valid thread of the current process is not ready,
    for instance because it has ended, the handler never returns, however long
    it runs: the code looks at the same thread again. *)
Theorem scheduler_hangs m regs x :
  sched_ok m -> MultitaskingSchedulerEnabled m = true -> runs m = true ->
  let p := CurrentProcess (m_cpu m) in
  List.find (tvalid m p) (after (CurrentThread (m_cpu m)) (threads m p)) = Some x ->
  tstatus m x <> Ready ->
  forall fuel, MultiTaskingSchedulerHandler m regs fuel = Err OutOfFuel.
Proof.
  intros Hok Hen Hr p Hx Hst fuel. pose proof Hok as [Hcore Hcr]%sched_core. rewrite handler_eq by done. rewrite Hr.
  destruct (current_runs m Hcore Hr) as (Hp & Ht & _). pose proof (prepared_shape m regs) as Hsh.
  destruct (prepared_current m regs) as (Ep & Et & _). pose proof (prepared_core m regs Hcore) as (Hs1 & _).
  apply find_elem in Hx as Hx'. destruct Hx' as [Hin _].
  destruct (so_pcb m (proj1 Hcore) _ Hp) as (_ & _ & _ & _ & _ & Hnd).
  rewrite (choose_next_hangs _ fuel Hs1); [done|..].
  - by rewrite Ep, <- (procs_proper _ _ Hsh).
  - by rewrite Ep, Et, <- (threads_proper _ _ Hsh _ _ eq_refl).
  - rewrite Ep, Et, <- (threads_proper _ _ Hsh _ _ eq_refl). unfold search. fold p.
    rewrite (find_ext _ (tvalid m p)), Hx by (intros y; symmetry; exact (tvalid_proper _ _ Hsh _ _ eq_refl _ _ eq_refl)).
    rewrite decide_False; [done|]. unfold prepared. rewrite Hr, saved_tstatus. rewrite decide_False; [done|].
    intros [-> _]. by apply (after_nodup _ _ Hnd) in Hin.
Qed.

(** Error: when no valid thread follows the current one in its process, the
    handler reads the vector of threads three elements past its size; with
    fewer spare elements than that it reads outside the allocation, although
    every pointer in the vector is good and other processes may be ready. *)
Theorem scheduler_overrun m regs fuel :
  sched_ok m -> MultitaskingSchedulerEnabled m = true -> runs m = true -> (sched_fuel m <= fuel)%nat ->
  let p := CurrentProcess (m_cpu m) in
  List.find (tvalid m p) (after (CurrentThread (m_cpu m)) (threads m p)) = None -> troom m p < 3 ->
  MultiTaskingSchedulerHandler m regs fuel = Err OutOfBounds.
Proof.
  intros Hok Hen Hr Hf p Hx Hroom. rewrite handler_choice by done. pose proof (prepared_shape m regs) as Hsh.
  destruct (prepared_current m regs) as (Ep & Et & _). unfold scheduled. rewrite Hr. unfold reference_choice.
  rewrite Ep, Et, <- (threads_proper _ _ Hsh _ _ eq_refl), <- (troom_proper _ _ Hsh _ _ eq_refl). fold p. unfold search at 1.
  rewrite (find_ext _ (tvalid m p)), Hx by (intros y; symmetry; exact (tvalid_proper _ _ Hsh _ _ eq_refl _ _ eq_refl)).
  by rewrite decide_False by lia.
Qed.

(** C21 Functional: a thread that is created in a process of the list is a new
    one at the end of that process's threads, ready, with the next identifier,
    a stack of its own, zeroed registers but for its entry point, arguments,
    flags with interrupts on and the selectors of its process's privilege: ring 3
    for user processes and ring 0 otherwise.  A kernel thread returns into
    [ThreadDoExit], and the rest of the lists is as before. *)
Theorem thread_created m P bp ip a0 a1 prio ar pl m' t :
  sched_ok m -> P ∈ procs m -> pcbs m !! P = Some bp ->
  CreateThread m P ip a0 a1 prio ar pl = Ok (m', t) -> p_Elevation bp <> UnknownElevation ->
  sched_ok m' /\ t ∉ live m /\ procs m' = procs m /\
  (forall q, threads m' q = if decide (q = P) then threads m P ++ [t] else threads m q) /\
  exists b k stack, let user := bool_decide (p_Elevation bp = User) in
    tcbs m' !! t = Some b /\ AllocateStack (m_kernel m) user = Ok (k, stack) /\
    t_Status b = Ready /\ t_Parent b = P /\ t_ID b = NextTID (mt m) /\ t_Stack b = stack /\
    rip (t_Registers b) = u64 (ip + p_Offset bp) /\ rsp (t_Registers b) = stack /\
    rdi (t_Registers b) = a0 /\ rsi (t_Registers b) = a1 /\
    Z.land (cs (t_Registers b)) 3 = (if user then 3 else 0) /\ Z.land (ss (t_Registers b)) 3 = (if user then 3 else 0) /\
    Z.testbit (rflags (t_Registers b)) 9 = true /\
    (user = false -> words m' !! stack = Some address_ThreadDoExit).
Proof.
  intros Hok HP Hbp E He. pose proof Hok as [Hcore Hcr]%sched_core.
  destruct (CreateThread_core _ _ _ _ _ _ _ _ _ _ Hcore E) as (Hcore' & _ & _ & Ep & _ & Ecr & _).
  destruct (CreateThread_listed _ _ _ _ _ _ _ _ _ _ bp Hcore HP Hbp E He) as (Ht & Hnew & Hts).
  destruct (CreateThread_block _ _ _ _ _ _ _ _ _ _ bp E Hbp Ht) as (b & k & stack & Hb & Hst & Es & Epar & Eid & _ & Estk & Er & _ & Hw).
  split_and!; [apply sched_core; split; [done|]; unfold critical_ok; by rewrite Ecr|done..|].
  exists b, k, stack. rewrite Er. split_and!; try done; by destruct (bool_decide (p_Elevation bp = User)).
Qed.

(** Error: removing a thread uses the control block after it was freed, to
    reach the vector it is in. *)
Theorem RemoveThread_use_after_free m p t b k :
  sched_ok m -> p ∈ procs m -> t ∈ threads m p -> tcbs m !! t = Some b ->
  FreeStack (m_kernel m) (t_Stack b) = Ok k ->
  RemoveThread m t = Err OutOfBounds.
Proof.
  intros Hok Hp Ht Hb Hk. pose proof Hok as [[Hs _] _]%sched_core.
  destruct (so_tcb m Hs p t Hp Ht) as (b' & Hb' & Ht0 & Hpar & _). rewrite Hb in Hb'. injection Hb' as <-.
  destruct (so_pcb m Hs p Hp) as (bp & Hbp & Hp0 & _ & Hv & _).
  assert (tcb_at m t = Ok b) as Eb by (unfold tcb_at; by rewrite decide_False, Hb).
  assert (pcb_at m (t_Parent b) = Ok bp) as Ebp by (unfold pcb_at; by rewrite Hpar, decide_False, Hbp).
  unfold RemoveThread. rewrite Eb. cbn [bind]. rewrite Ebp. cbn [bind].
  destruct (after_spec t (threads m p) Ht) as (j & Hj & Hbefore & _).
  rewrite (padded_size _ _ Hv), Nat2Z.id. pose proof (lookup_lt_Some _ _ _ Hj) as Hlt.
  enough (forall n i, (i + n = j)%nat -> remove_thread_loop m t (Z.of_nat i) (length (threads m p) - i) = Err OutOfBounds) as Hgen.
  { rewrite <- (Nat.sub_0_r (length _)). by apply (Hgen j 0%nat). }
  induction n as [|n IH]; intros i Hi; (destruct (length (threads m p) - i)%nat as [|r] eqn:Er; [lia|]); cbn [remove_thread_loop];
    rewrite Eb; cbn [bind]; rewrite Ebp; cbn [bind].
  - replace i with j by lia. rewrite (padded_index _ _ j t Hv Hj). cbn [bind]. rewrite decide_True by done.
    rewrite Eb. cbn [bind]. rewrite Hk. cbn [bind]. rewrite (update_tcb_eq _ _ b) by done. cbn [bind].
    unfold tcb_at. rewrite decide_False by done. unfold free_tcb. cbn [tcbs set_tcbs]. by rewrite lookup_delete_eq.
  - destruct (lookup_lt_is_Some_2 (threads m p) i ltac:(lia)) as [x Hx]. rewrite (padded_index _ _ i x Hv Hx). cbn [bind].
    rewrite decide_False by (intros ->; by apply (Hbefore i); [lia|]).
    replace (Z.of_nat i + 1) with (Z.of_nat (S i)) by lia. replace r with (length (threads m p) - S i)%nat by lia. apply IH. lia.
Qed.
End theorems.

(** ** The theorems on the sample machine *)

Definition got {A} (d : A) (r : res A) : A := match r with Ok x => x | Err _ => d end.
Definition is_ok {A} (r : res A) : bool := match r with Ok _ => true | Err _ => false end.

Lemma got_ok {A} (d : A) r : is_ok r = true -> r = Ok (got d r).
Proof. by destruct r. Qed.

Lemma option_test {A} (f : A -> bool) o x : o = Some x -> option_map f o = Some true -> f x = true.
Proof. intros ->. by injection 1. Qed.

Definition good (m : machine) : Prop := sched_ok m /\ MultitaskingSchedulerEnabled m = true.

(** An interrupt, a new thread of the first process, and the end of the
    current thread. *)
Definition tick (m : machine) : machine * ThreadRegisters :=
  got (m, zero_regs) (MultiTaskingSchedulerHandler m zero_regs (sched_fuel m)).
Definition spawn (m : machine) : machine * Z := got (m, 0) (CreateThread m 1 0x500000 7 8 1 x64 Native).
Definition leave (m : machine) : machine := got m (ThreadDoExit m 3).

(** The kernel process with one thread, two and three. *)
Definition sample_started : machine := got sample_boot (StartTasking sample_boot 0x400000).
Definition sample_one : machine := (tick sample_started).1.
Definition sample_two : machine := (spawn sample_one).1.
Definition sample_three : machine := (spawn sample_two).1.

(** The second thread has ended and the first one runs; and the third runs. *)
Definition sample_ended : machine := (tick (leave (tick sample_two).1)).1.
Definition sample_last : machine := (tick (tick sample_three).1).1.

Lemma started : StartTasking sample_boot 0x400000 = Ok sample_started.
Proof. apply got_ok. vm_compute. reflexivity. Qed.

Lemma good_started : good sample_started.
Proof. exact (StartTasking_ok sample_boot 0x400000 sample_started eq_refl eq_refl started). Qed.

Lemma tick_eq m : is_ok (MultiTaskingSchedulerHandler m zero_regs (sched_fuel m)) = true ->
  MultiTaskingSchedulerHandler m zero_regs (sched_fuel m) = Ok ((tick m).1, (tick m).2).
Proof. intros Hi. rewrite <- surjective_pairing. by apply got_ok. Qed.

Lemma spawn_eq m : is_ok (CreateThread m 1 0x500000 7 8 1 x64 Native) = true ->
  CreateThread m 1 0x500000 7 8 1 x64 Native = Ok ((spawn m).1, (spawn m).2).
Proof. intros Hi. rewrite <- surjective_pairing. by apply got_ok. Qed.

Lemma good_tick m : is_ok (MultiTaskingSchedulerHandler m zero_regs (sched_fuel m)) = true -> good m -> good (tick m).1.
Proof. intros Hi. by apply step_ok, (step_tick _ _ _ _ (tick_eq m Hi)). Qed.

Lemma good_spawn m : is_ok (CreateThread m 1 0x500000 7 8 1 x64 Native) = true -> good m -> good (spawn m).1.
Proof. intros Hi. by apply step_ok, (step_thread _ _ _ _ _ _ _ _ _ _ (spawn_eq m Hi)). Qed.

Lemma good_leave m : is_ok (ThreadDoExit m 3) = true -> good m -> good (leave m).
Proof. intros Hi. by apply step_ok, (step_exit _ 3), got_ok. Qed.

Lemma good_one : good sample_one.
Proof. apply good_tick; [vm_compute; reflexivity|exact good_started]. Qed.
Lemma good_two : good sample_two.
Proof. apply good_spawn; [vm_compute; reflexivity|exact good_one]. Qed.
Lemma good_three : good sample_three.
Proof. apply good_spawn; [vm_compute; reflexivity|exact good_two]. Qed.
Lemma good_ended : good sample_ended.
Proof.
  apply good_tick; [vm_compute; reflexivity|]. apply good_leave; [vm_compute; reflexivity|].
  apply good_tick; [vm_compute; reflexivity|exact good_two].
Qed.
Lemma good_last : good sample_last.
Proof. apply good_tick; [vm_compute; reflexivity|]. apply good_tick; [vm_compute; reflexivity|exact good_three]. Qed.

Lemma turns_two : turns_ok sample_two.
Proof.
  assert (procs sample_two = [1]) as Ep by (vm_compute; reflexivity).
  assert (threads sample_two 1 = [3; 4]) as Et by (vm_compute; reflexivity).
  split.
  - vm_compute; reflexivity.
  - intros p. rewrite Ep. intros ->%list_elem_of_singleton _. by rewrite Et.
  - intros p t. rewrite Ep. intros ->%list_elem_of_singleton _. rewrite Et.
    intros [->|[->|[]%elem_of_nil]%elem_of_cons]%elem_of_cons; vm_compute; reflexivity.
  - intros p t. rewrite Ep. intros ->%list_elem_of_singleton _. rewrite Et.
    intros [->|[->|[]%elem_of_nil]%elem_of_cons]%elem_of_cons; [right; split|left]; vm_compute; reflexivity.
  - vm_compute. discriminate.
  - intros p. rewrite Ep. intros ->%list_elem_of_singleton _. vm_compute. discriminate.
Qed.

Lemma scheduler_choice_witness : exists m' b, tcbs (prepared sample_two zero_regs) !! 4 = Some b /\
  MultiTaskingSchedulerHandler sample_two zero_regs (sched_fuel sample_two) = Ok (m', t_Registers b) /\
  CurrentProcess (m_cpu m') = 1 /\ CurrentThread (m_cpu m') = 4.
Proof.
  pose proof (scheduler_choice sample_two zero_regs (sched_fuel sample_two) (proj1 good_two) (proj2 good_two) (le_n _)) as E.
  replace (scheduled sample_two zero_regs) with (Ok (Some (1, 4)) : res (option (Z * Z))) in E by (vm_compute; reflexivity). exact E.
Defined.

Lemma scheduler_safe_witness : let m' := (tick sample_two).1 in
  tstatus m' (CurrentThread (m_cpu m')) = Running.
Proof.
  intros m'.
  destruct (scheduler_safe sample_two zero_regs m' (tick sample_two).2 (proj1 good_two) (proj2 good_two)) as [(_ & _ & _ & Hs & _)|(Hno & _)].
  - apply tick_eq. vm_compute. reflexivity.
  - exact Hs.
  - exfalso. assert (length (candidates (prepared sample_two zero_regs)) = 2%nat) as E by (vm_compute; reflexivity).
    rewrite Hno in E. discriminate.
Defined.

Lemma scheduler_invariant_witness : sched_ok sample_two.
Proof.
  apply (scheduler_invariant sample_boot 0x400000 sample_started sample_two eq_refl eq_refl started).
  apply rtc_l with sample_one; [eapply step_tick, tick_eq; vm_compute; reflexivity|].
  apply rtc_once. eapply step_thread, spawn_eq. vm_compute. reflexivity.
Defined.

Lemma round_robin_witness : exists j, (1 <= j <= 2)%nat /\
  forall rs, length rs = j -> exists m', ticks sample_two rs = Ok m' /\ CurrentProcess (m_cpu m') = 1 /\ CurrentThread (m_cpu m') = 4.
Proof.
  apply (round_robin sample_two 1 4 (proj1 good_two) (proj2 good_two) turns_two).
  replace (all_threads sample_two) with [(1, 3); (1, 4)] by (vm_compute; reflexivity). right. left.
Defined.

(** The first thread is interrupted, the second one runs, and the first one is
    resumed. *)
Lemma context_restored_witness : let m1 := (tick sample_two).1 in (tick m1).2 = zero_regs.
Proof.
  intros m1.
  apply (context_restored sample_two zero_regs m1 (tick sample_two).2 m1 zero_regs (tick m1).1 (tick m1).2 (proj1 good_two) (proj2 good_two)).
  - vm_compute. reflexivity.
  - apply tick_eq. vm_compute. reflexivity.
  - apply rtc_refl.
  - vm_compute. discriminate.
  - apply tick_eq. vm_compute. reflexivity.
  - vm_compute. reflexivity.
  - vm_compute. discriminate.
Defined.

Lemma scheduler_hangs_witness : MultiTaskingSchedulerHandler sample_ended zero_regs (1000 + sched_fuel sample_ended) = Err OutOfFuel.
Proof.
  apply (scheduler_hangs sample_ended zero_regs 4 (proj1 good_ended) (proj2 good_ended)); [vm_compute; reflexivity..|].
  vm_compute. discriminate.
Defined.

Lemma scheduler_overrun_witness :
  MultiTaskingSchedulerHandler sample_last zero_regs (sched_fuel sample_last) = Err OutOfBounds.
Proof.
  apply (scheduler_overrun sample_last zero_regs _ (proj1 good_last) (proj2 good_last)); [vm_compute; reflexivity|apply le_n|vm_compute; reflexivity..].
Defined.

Lemma thread_created_witness : threads sample_two 1 = [3; 4] /\
  exists b, tcbs sample_two !! 4 = Some b /\ rip (t_Registers b) = 0x500000 /\ Z.land (cs (t_Registers b)) 3 = 0.
Proof.
  destruct (pcbs sample_one !! 1) as [bp|] eqn:Eb; [|vm_compute in Eb; discriminate].
  assert (p_Elevation <$> pcbs sample_one !! 1 = Some Kernel) as Ee by (vm_compute; reflexivity).
  assert (p_Offset <$> pcbs sample_one !! 1 = Some 0) as Eo by (vm_compute; reflexivity).
  rewrite Eb in Ee, Eo. injection Ee as Ee. injection Eo as Eo.
  destruct (thread_created sample_one 1 bp 0x500000 7 8 1 x64 Native sample_two (spawn sample_one).2 (proj1 good_one)) as (_ & _ & _ & Hts & b & k & stack & Hb & H).
  - replace (procs sample_one) with [1] by (vm_compute; reflexivity). left.
  - exact Eb.
  - apply spawn_eq. vm_compute. reflexivity.
  - rewrite Ee. discriminate.
  - rewrite Hts, decide_True by reflexivity. split; [vm_compute; reflexivity|]. exists b.
    replace 4 with (spawn sample_one).2 by (vm_compute; reflexivity). rewrite Ee, Eo in H. split_and!; [exact Hb|apply H..].
Defined.

Lemma RemoveThread_use_after_free_witness : RemoveThread sample_one 3 = Err OutOfBounds.
Proof.
  destruct (tcbs sample_one !! 3) as [b|] eqn:Eb; [|vm_compute in Eb; discriminate].
  assert (is_ok (FreeStack (m_kernel sample_one) (t_Stack b)) = true) as Ef.
  { apply (option_test (fun b => is_ok (FreeStack (m_kernel sample_one) (t_Stack b))) _ b Eb). vm_compute. reflexivity. }
  apply (RemoveThread_use_after_free sample_one 1 3 b (got (m_kernel sample_one) (FreeStack (m_kernel sample_one) (t_Stack b))) (proj1 good_one)).
  - replace (procs sample_one) with [1] by (vm_compute; reflexivity). left.
  - replace (threads sample_one 1) with [3] by (vm_compute; reflexivity). left.
  - exact Eb.
  - apply got_ok. exact Ef.
Defined.
