(* ===== verification/Executables.v ===== *)
(** * Loading executables

    src/kernel/proc/Binary.cpp, the loaders of src/kernel/proc/exec and the
    loading of drivers of src/kernel/Driver.cpp.  They open a file, read it into
    pages of the allocator, map pages, copy the parts of the program to further
    pages and start a process: their state is the file system, what its operators
    work on, and the machine of [Tasking], with its memory.  The contents of the
    pages they read and write are lists of bytes. *)

From S2P Require Import Prelude CString Bytes Cwalk PageFrame PageTable KernelMemory Elf Vfs Tasking.

Local Open Scope Z_scope.

(** ** The formats of src/kernel/include/msexec.h *)

Definition IMAGE_DOS_SIGNATURE : Z := 0x5A4D.
Definition IMAGE_OS2_SIGNATURE : Z := 0x454E.
Definition IMAGE_NT_SIGNATURE : Z := 0x00004550.
Definition IMAGE_FILE_MACHINE_I386 : Z := 0x14C.
Definition IMAGE_FILE_MACHINE_AMD64 : Z := 0x8664.

(** [IMAGE_DOS_HEADER], at the start; the last member has two bytes. *)
Definition sizeof_DOS_HEADER : Z := 62.
Definition e_magic (b : list Z) : res Z := field 2 b 0 0.
Definition e_ip (b : list Z) : res Z := field 2 b 0 20.
Definition e_lfanew (b : list Z) : res Z := field 2 b 0 60.

(** [IMAGE_OS2_HEADER] at [o]. *)
Definition sizeof_OS2_HEADER : Z := 64.
Definition ne_magic (b : list Z) (o : Z) : res Z := field 2 b o 0.
Definition ne_enttab (b : list Z) (o : Z) : res Z := field 2 b o 4.
Definition ne_exetyp (b : list Z) (o : Z) : res Z := field 1 b o 54.

(** [IMAGE_NT_HEADERS] at [o], with the optional header of 32-bit files. *)
Definition sizeof_NT_HEADERS : Z := 248.
Definition nt_Signature (b : list Z) (o : Z) : res Z := field 4 b o 0.
Definition Machine (b : list Z) (o : Z) : res Z := field 2 b o 4.
Definition NumberOfSections (b : list Z) (o : Z) : res Z := field 2 b o 6.
Definition AddressOfEntryPoint (b : list Z) (o : Z) : res Z := field 4 b o 40.

(** [IMAGE_SECTION_HEADER] at [o]. *)
Definition sizeof_SECTION_HEADER : Z := 40.
Definition VirtualAddress (b : list Z) (o : Z) : res Z := field 4 b o 12.
Definition SizeOfRawData (b : list Z) (o : Z) : res Z := field 4 b o 16.
Definition PointerToRawData (b : list Z) (o : Z) : res Z := field 4 b o 20.

Inductive BinType := BIN_TYPE_UNKNOWN | BIN_TYPE_ELF | BIN_TYPE_PE | BIN_TYPE_NE | BIN_TYPE_MZ.

#[export] Instance BinType_eq : EqDecision BinType.
Proof. solve_decision. Defined.

(** The type of a file from its bytes. *)
Definition binary_type (b : list Z) : res BinType :=
  let* m0 := e_ident b 0 in
  let* m1 := e_ident b 1 in
  let* m2 := e_ident b 2 in
  let* m3 := e_ident b 3 in
  if decide ([m0; m1; m2; m3] = ELFMAG) then Ok BIN_TYPE_ELF
  else
    let* magic := e_magic b in
    if decide (magic = IMAGE_DOS_SIGNATURE) then
      let* new := e_lfanew b in
      let* ne := ne_magic b new in
      if decide (ne = IMAGE_OS2_SIGNATURE) then Ok BIN_TYPE_NE
      else
        let* pe := nt_Signature b new in
        if decide (pe = IMAGE_NT_SIGNATURE) then Ok BIN_TYPE_PE else Ok BIN_TYPE_MZ
    else Ok BIN_TYPE_UNKNOWN.

(** ** Segments *)

(** [f] applied to the memory from index [i] of [m] on. *)
Definition write_at (m : list Z) (i : Z) (f : list Z -> res (list Z)) : res (list Z) :=
  if decide (0 <= i) then let* d := f (drop (Z.to_nat i) m) in Ok (take (Z.to_nat i) m ++ d)
  else let* _ := f [] in Ok m.

(** The local [addr] after the loop over [n] program headers from [o] on: the
    end of the last segment to load; it has no value before the first. *)
Fixpoint image_end (b : list Z) (o : Z) (n : nat) (addr : option Z) : res (option Z) :=
  match n with
  | O => Ok addr
  | S n =>
      let* type := p_type b o in
      let* addr :=
        if decide (type <> PT_LOAD) then Ok addr
        else let* vaddr := p_vaddr b o in let* memsz := p_memsz b o in Ok (Some (u64 (vaddr + memsz))) in
      image_end b (o + sizeof_Phdr) n addr
  end.

(** The loop that copies the segments to the pages [image], which are at [offset]. *)
Fixpoint load_segments (b : list Z) (o : Z) (n : nat) (offset : Z) (image : list Z) : res (list Z) :=
  match n with
  | O => Ok image
  | S n =>
      let* type := p_type b o in
      let* image :=
        if decide (type <> PT_LOAD) then Ok image
        else
          let* vaddr := p_vaddr b o in
          let* memsz := p_memsz b o in
          let* poffset := p_offset b o in
          let* filesz := p_filesz b o in
          let dst := u64 (vaddr + offset) - offset in
          let* image := write_at image dst (fun d => memset d 0 memsz) in
          write_at image dst (fun d => memcpy d (drop (Z.to_nat poffset) b) filesz) in
      load_segments b (o + sizeof_Phdr) n offset image
  end.

(** [RetStructData] *)
Record RetStructData := mk_Ret { Offset : Z; Entry : Z }.
Definition no_program : RetStructData := mk_Ret 0 0.

(** ** The state *)

(** What freshly requested pages hold, and the bytes of the heap after a name. *)
Class PageContents := {
  residue : Z -> nat -> list Z;
  after_name : list Z
}.

Class PageContentsLaws (P : PageContents) := {
  length_residue a n : length (residue a n) = n;
  residue_bytes a n : bytes_ok (residue a n)
}.

Section loaders.
Context {W : Type} (operators : Z -> FileSystemOpeations W) `{Hardware} `{PageContents}.

Record system := mk_system {
  s_vfs : Virtual;
  s_world : W;
  s_machine : machine
}.

Definition with_vfs (s : system) v := mk_system v (s_world s) (s_machine s).
Definition with_machine (s : system) m := mk_system (s_vfs s) (s_world s) m.
Definition s_vmm (s : system) : vmm := k_vmm (m_kernel (s_machine s)).
Definition with_vmm (s : system) v := with_machine s (set_kernel (set_vmm (m_kernel (s_machine s)) v) (s_machine s)).

(** [KernelAllocator.RequestPages(n)], [FreePages(a, n)], [RequestPage()] and [FreePage(a)]. *)
Definition request_pages (s : system) (n : Z) : res (system * Z) :=
  let* '(p, a) := RequestPages (v_pfa (s_vmm s)) n in Ok (with_vmm s (mk_vmm (v_ram (s_vmm s)) p), a).
Definition free_pages (s : system) (a n : Z) : res system :=
  let* p := FreePages (v_pfa (s_vmm s)) a n in Ok (with_vmm s (mk_vmm (v_ram (s_vmm s)) p)).
Definition sys_request_page (s : system) : res (system * Z) :=
  let* '(v, a) := request_page (s_vmm s) in Ok (with_vmm s v, a).
Definition sys_free_page (s : system) (a : Z) : res system :=
  let* v := free_page (s_vmm s) a in Ok (with_vmm s v).

(** [KernelPageTableManager.MapMemory(a, a, Flags)] for [n] pages from [a] on. *)
Fixpoint map_pages (PML4 : Z) (v : vmm) (a : Z) (n : nat) (Flags : Z) : res vmm :=
  match n with
  | O => Ok v
  | S n =>
      let* v := MapMemory PML4 v a a Flags 0 in
      map_pages PML4 v (u64 (a + PAGE_SIZE)) n Flags
  end.

Definition sys_map_pages (s : system) (a n Flags : Z) : res system :=
  let* v := map_pages (ktm_PML4 (m_kernel (s_machine s))) (s_vmm s) a (Z.to_nat n) Flags in Ok (with_vmm s v).

(** [x / 0x1000 + 1] *)
Definition pages_for (x : Z) : Z := u64 (x / PAGE_SIZE + 1).

(** ** Reading the file *)

(** [file], [file->Node->Length], [FileBuffer] and what is there. *)
Record loaded := mk_loaded {
  ld_file : FILE;
  ld_length : Z;
  ld_address : Z;
  ld_bytes : list Z
}.

(** What all loaders begin with; [None] when the path is not that of a file. *)
Definition read_file (s : system) (Path : cstr) : res (system * option loaded) :=
  let* '(v, file) := Open (s_vfs s) Path 0 in
  let* ok :=
    if decide (f_Status file <> OK) then Ok None
    else
      let* n := deref v (f_Node file) in
      if decide (Flags n <> FS_FILE) then Ok None else Ok (Some n) in
  match ok with
  | None => let* '(v, _) := Close v (Some file) in Ok (with_vfs s v, None)
  | Some n =>
      let* '(s, a) := request_pages (with_vfs s v) (pages_for (Length n)) in
      if decide (a = 0) then Err NullDeref
      else
        let* '(v, (w, _, _, b)) := Read operators (s_vfs s) (s_world s) (Some file) 0
            (residue a (Z.to_nat (pages_for (Length n) * PAGE_SIZE))) (Length n) in
        Ok (mk_system v w (s_machine s), Some (mk_loaded file (Length n) a b))
  end.

(** The label [Cleanup] of the loaders. *)
Definition release_file (s : system) (l : loaded) : res system :=
  let* s := free_pages s (ld_address l) (pages_for (ld_length l)) in
  let* '(v, _) := Close (s_vfs s) (Some (ld_file l)) in
  Ok (with_vfs s v).

Definition refuse (s : system) (l : loaded) : res (system * RetStructData) :=
  let* s := release_file s l in Ok (s, no_program).

(** The file's pages, as the loaders of DOS and Windows files map them. *)
Definition map_file (s : system) (l : loaded) (Elevation : CBElevation) : res system :=
  match Elevation with
  | User => sys_map_pages s (ld_address l) (pages_for (ld_length l)) (Z.lor PT_RW PT_US)
  | Kernel => sys_map_pages s (ld_address l) (pages_for (ld_length l)) PT_RW
  | _ => Ok s
  end.

(** ** The loaders *)

(** Two switches on [Elevation]: that on the file's pages falls from the elevations
    of the kernel through to the default, that on the pages of the program does not.
    [None] is a jump to [Cleanup]. *)
Definition elf_map_file (s : system) (l : loaded) (Elevation : CBElevation) : res (system * bool) :=
  match Elevation with
  | User =>
      let* s := sys_map_pages s (ld_address l) (pages_for (ld_length l)) (Z.lor PT_RW PT_US) in Ok (s, true)
  | Idle | System | Kernel =>
      let* s := sys_map_pages s (ld_address l) (pages_for (ld_length l)) PT_RW in Ok (s, false)
  | UnknownElevation => Ok (s, false)
  end.

Definition elf_map_program (s : system) (offset n : Z) (Elevation : CBElevation) : res (system * bool) :=
  match Elevation with
  | User => let* s := sys_map_pages s offset n (Z.lor PT_RW PT_US) in Ok (s, true)
  | Idle | System | Kernel => let* s := sys_map_pages s offset n PT_RW in Ok (s, true)
  | UnknownElevation => Ok (s, false)
  end.

(** Also gives the pages of the program as the loader leaves them. *)
Definition elf_load (s : system) (l : loaded) (Elevation : CBElevation) : res (system * RetStructData * list Z) :=
  let b := ld_bytes l in
  let* '(s, go) := elf_map_file s l Elevation in
  if negb go then let* '(s, r) := refuse s l in Ok (s, r, [])
  else
    let* phoff := e_phoff b in
    let* phnum := e_phnum b in
    let* addr := image_end b phoff (Z.to_nat phnum) None in
    match addr with
    | None => Err Undefined
    | Some addr =>
        let* '(s, offset) := request_pages s (pages_for addr) in
        let* '(s, go) := elf_map_program s offset (pages_for addr) Elevation in
        if negb go then let* '(s, r) := refuse s l in Ok (s, r, [])
        else if decide (offset = 0) then Err NullDeref
        else
          let* image := load_segments b phoff (Z.to_nat phnum) offset (residue offset (Z.to_nat (pages_for addr * PAGE_SIZE))) in
          let* '(v, _) := Close (s_vfs s) (Some (ld_file l)) in
          let* entry := e_entry b in
          Ok (with_vfs s v, mk_Ret offset entry, image)
    end.

Definition ExecuteELF (s : system) (Path : cstr) (Elevation : CBElevation) : res (system * RetStructData * list Z) :=
  let* '(s, file) := read_file s Path in
  match file with
  | None => Ok (s, no_program, [])
  | Some l =>
      let* class := e_ident (ld_bytes l) EI_CLASS in
      let* type := e_type (ld_bytes l) in
      if decide (class = ELFCLASS64 /\ (type = ET_EXEC \/ type = ET_DYN \/ type = ET_REL)) then elf_load s l Elevation
      else let* '(s, r) := refuse s l in Ok (s, r, [])
  end.

(** The sections of a PE file, [n] from [o] on; the bytes of the file's pages
    change, as sections are copied into them. *)
Fixpoint pe_sections (s : system) (a : Z) (b : list Z) (o : Z) (n : nat) (Elevation : CBElevation) : res (system * list Z) :=
  match n with
  | O => Ok (s, b)
  | S n =>
      let* size := SizeOfRawData b o in
      if decide (size = 0) then pe_sections s a b (o + sizeof_SECTION_HEADER) n Elevation
      else
        let* va := VirtualAddress b o in
        let addr := u64 (va + a) in
        let* '(s, offset) := request_pages s (pages_for addr) in
        let* s :=
          match Elevation with
          | User => sys_map_pages s offset (pages_for addr) (Z.lor PT_RW PT_US)
          | Kernel => sys_map_pages s offset (pages_for addr) PT_RW
          | _ => Ok s
          end in
        let* raw := PointerToRawData b o in
        let* b := memmove_up b (Z.to_nat va) (Z.to_nat raw) 0 (Z.to_nat size) in
        pe_sections s a b (o + sizeof_SECTION_HEADER) n Elevation
  end.

Definition ExecutePE (s : system) (Path : cstr) (Elevation : CBElevation) : res (system * RetStructData * list Z) :=
  let* '(s, file) := read_file s Path in
  match file with
  | None => Ok (s, no_program, [])
  | Some l =>
      let b := ld_bytes l in
      let* header := e_lfanew b in
      let* machine := Machine b header in
      if decide (machine = IMAGE_FILE_MACHINE_AMD64) then
        let* s := map_file s l Elevation in
        let* count := NumberOfSections b header in
        let* '(s, b) := pe_sections s (ld_address l) b (header + sizeof_NT_HEADERS) (Z.to_nat count) Elevation in
        let* entry := AddressOfEntryPoint b header in
        Ok (s, mk_Ret (ld_address l) entry, b)
      else let* '(s, r) := refuse s l in Ok (s, r, [])
  end.

(** The end of the loaders of NE and DOS files: pages for all memory up to the
    address of the first section, at [o]. *)
Definition map_section_pages (s : system) (l : loaded) (o : Z) (Elevation : CBElevation) : res (system * Z) :=
  let* va := VirtualAddress (ld_bytes l) o in
  let addr := u64 (va + ld_address l) in
  let* '(s, offset) := request_pages s (pages_for addr) in
  let* s := sys_map_pages s offset (pages_for addr) (if decide (Elevation = User) then Z.lor PT_RW PT_US else PT_RW) in
  Ok (s, offset).

Definition ExecuteNE (s : system) (Path : cstr) (Elevation : CBElevation) : res (system * RetStructData * list Z) :=
  let* '(s, file) := read_file s Path in
  match file with
  | None => Ok (s, no_program, [])
  | Some l =>
      let b := ld_bytes l in
      let* header := e_lfanew b in
      let* exetyp := ne_exetyp b header in
      if decide (exetyp = 2 \/ exetyp = 5) then
        let* s := map_file s l Elevation in
        let* '(s, offset) := map_section_pages s l (header + sizeof_OS2_HEADER) Elevation in
        let* entry := ne_enttab b header in
        Ok (s, mk_Ret offset entry, [])
      else let* '(s, r) := refuse s l in Ok (s, r, [])
  end.

Definition ExecuteMZ (s : system) (Path : cstr) (Elevation : CBElevation) : res (system * RetStructData * list Z) :=
  let* '(s, file) := read_file s Path in
  match file with
  | None => Ok (s, no_program, [])
  | Some l =>
      let* s := map_file s l Elevation in
      let* '(s, offset) := map_section_pages s l sizeof_DOS_HEADER Elevation in
      let* entry := e_ip (ld_bytes l) in
      Ok (s, mk_Ret offset entry, [])
  end.

(** ** Starting a program *)

(** The section that the function enters is not left. *)
Definition GetBinaryType (s : system) (Path : cstr) : res (system * BinType) :=
  let s := with_machine s (fst (Enter (s_machine s))) in
  let* '(s, file) := read_file s Path in
  match file with
  | None => Ok (s, BIN_TYPE_UNKNOWN)
  | Some l =>
      let* type := binary_type (ld_bytes l) in
      let* s := release_file s l in
      Ok (s, type)
  end.

Definition execute_type (s : system) (type : BinType) (Path : cstr) (Elevation : CBElevation) : res (system * RetStructData * list Z) :=
  match type with
  | BIN_TYPE_ELF => ExecuteELF s Path Elevation
  | BIN_TYPE_PE => ExecutePE s Path Elevation
  | BIN_TYPE_NE => ExecuteNE s Path Elevation
  | BIN_TYPE_MZ => ExecuteMZ s Path Elevation
  | BIN_TYPE_UNKNOWN => Ok (s, no_program, [])
  end.

(** [ExecuteBinary] up to the label [Success]: the program, if there is one. *)
Definition load_binary (s : system) (Path : cstr) (Elevation : CBElevation) : res (system * option (RetStructData * list Z)) :=
  let enable := snd (Enter (s_machine s)) in
  let s := with_machine s (fst (Enter (s_machine s))) in
  let* '(s, type) := GetBinaryType s Path in
  let* '(s, pml4) := sys_request_page s in
  let* '(s, ret, image) := execute_type s type Path Elevation in
  if decide (Entry ret = 0) then
    let* s := sys_free_page s pml4 in
    Ok (with_machine s (Leave (s_machine s) enable), None)
  else Ok (with_machine s (Leave (s_machine s) enable), Some (ret, image)).

(** The rest of it outside monotasking: a process with one thread. *)
Definition start_process (s : system) (Path : cstr) (Arg0 Arg1 : Z) (Elevation : CBElevation) (ret : RetStructData)
    : res (system * Z) :=
  let* '(v, file) := Open (s_vfs s) Path 0 in
  let* name := nonnull (f_Name file) in
  let* '(m, pcb) := SysCreateProcess (s_machine s) (name ++ 0 :: after_name) Elevation in
  let* '(v, _) := Close v (Some file) in
  match pcb with
  | At p =>
      let* m := update_pcb m p (set_p_Offset (Offset ret)) in
      let* '(m, t) := SysCreateThread m p (Entry ret) Arg0 Arg1 in
      match t with
      | At t => let* b := tcb_at m t in Ok (mk_system v (s_world s) m, t_Parent b)
      | _ => Err NullDeref
      end
  | _ => Err NullDeref
  end.

(** In multitasking; the address of the new control block or NULL. *)
Definition ExecuteBinary (s : system) (Path : cstr) (Arg0 Arg1 : Z) (Elevation : CBElevation) : res (system * Z) :=
  let* '(s, program) := load_binary s Path Elevation in
  match program with
  | None => Ok (s, 0)
  | Some (ret, _) => start_process s Path Arg0 Arg1 Elevation ret
  end.

(** ** Drivers *)

(** [DriverDefinition]: a name of 256 bytes, a type and what the driver binds to. *)
Definition sizeof_DriverDefinition : nat := 272.

(** The global, which is never set. *)
Definition DriverNode : Z := 0.

(** The loop over the sections, [n] of them from [i] on, until that of the
    driver's data, which is copied to [def].  [names] is the table of their names. *)
Fixpoint find_driverdata (b names : list Z) (shoff shentsize i : Z) (n : nat) : res bool :=
  match n with
  | O => Ok false
  | S n =>
      let* section := get_bytes 64 b (u64 (shoff + u64 (i * shentsize))) in
      let* nm := sh_name section 0 in
      let* text := cstring (drop (Z.to_nat nm) names) in
      let* r := strcmp text (bytes_of ".driverdata") in
      if decide (r = 0) then
        let* offset := sh_offset section 0 in
        let* size := sh_size section 0 in
        let* _ := memcpy (replicate sizeof_DriverDefinition 0) (drop (Z.to_nat offset) b) size in
        Ok true
      else find_driverdata b names shoff shentsize (i + 1) n
  end.

(** The node of a driver in the file system. *)
Definition driver_node (s : system) (name : cstr) (address : Z) : res system :=
  let* '(v, drvnode) := Create (s_vfs s) DriverNode name in
  let* v := update v drvnode (set_Mode 0) in
  let* n := deref v drvnode in
  let* v := update v drvnode (set_Contents address (Length n)) in
  let* v := update v drvnode (set_Flags FS_PIPE) in
  Ok (with_vfs s v).

(** The segments in pages of their own: their address. *)
Definition load_driver_segments (s : system) (b : list Z) : res (system * Z) :=
  let* phoff := e_phoff b in
  let* phnum := e_phnum b in
  let* addr := image_end b phoff (Z.to_nat phnum) None in
  match addr with
  | None => Err Undefined
  | Some addr =>
      let* '(s, offset) := request_pages s (pages_for addr) in
      if decide (offset = 0) then Err NullDeref
      else
        let* _ := load_segments b phoff (Z.to_nat phnum) offset (residue offset (Z.to_nat (pages_for addr * PAGE_SIZE))) in
        Ok (s, offset)
  end.

(** The sections of a 64-bit driver whose segments are at [offset]. *)
Definition driver_sections (s : system) (node : FileSystemNode) (a : Z) (b : list Z) (offset : Z) : res (system * Z) :=
  let* shoff := e_shoff b in
  let* shentsize := e_shentsize b in
  let* shnum := e_shnum b in
  let* shstrndx := e_shstrndx b in
  let* shstrtab := get_bytes 64 b (u64 (shoff + u64 (shstrndx * shentsize))) in
  let* size := sh_size shstrtab 0 in
  let* start := sh_offset shstrtab 0 in
  let* names := memcpy (replicate (Z.to_nat size) 0) (drop (Z.to_nat start) b) size in
  let* found := find_driverdata b names shoff shentsize 0 (Z.to_nat shnum) in
  if found then
    let* entry := e_entry b in
    let* name := cstring (Name node) in
    let* s := driver_node s name (u64 (entry + offset)) in
    Ok (s, 0)
  else
    let* s := free_pages s a (pages_for (Length node)) in
    Ok (s, 0xDEC64).

(** The code of the first byte that is not as [ELFMAG] and of 32-bit files. *)
Definition driver_error (b : list Z) : res (option Z) :=
  let* m0 := e_ident b 0 in
  let* m1 := e_ident b 1 in
  let* m2 := e_ident b 2 in
  let* m3 := e_ident b 3 in
  let* class := e_ident b EI_CLASS in
  Ok (if decide (m0 <> 0x7F) then Some 0xDE0
      else if decide (m1 <> 69) then Some 0xDE1
      else if decide (m2 <> 76) then Some 0xDE2
      else if decide (m3 <> 70) then Some 0xDE3
      else if decide (class = ELFCLASS32) then Some 0xDEC32 else None).

Definition LoadKernelDriverFromFile (s : system) (Node : Z) : res (system * Z) :=
  let* node := deref (s_vfs s) Node in
  let* '(s, a) := request_pages s (pages_for (Length node)) in
  let* driverfile := ConvertNodeToFILE (s_vfs s) Node in
  if decide (a = 0) then Err NullDeref
  else
    let* '(v, (w, _, _, b)) := Read operators (s_vfs s) (s_world s) (Some driverfile) 0
        (residue a (Z.to_nat (pages_for (Length node) * PAGE_SIZE))) (Length node) in
    let s := mk_system v w (s_machine s) in
    let* error := driver_error b in
    match error with
    | Some e => let* s := free_pages s a (pages_for (Length node)) in Ok (s, e)
    | None =>
        let* class := e_ident b EI_CLASS in
        if decide (class = ELFCLASS64) then
          let* '(s, offset) := load_driver_segments s b in
          driver_sections s node a b offset
        else Ok (s, 0)
    end.
End loaders.
