(* ===== verification/ExecutablesSpec.v ===== *)
(** * Programs are loaded as their files say

    Mapping where no table is missing, whatever the allocator is; the segments
    of a program as pieces of its file; and the theorems on the loader of ELF
    files, on the types of files and on what is refused. *)

From S2P Require Import Prelude CString Bytes Cwalk PageFrame PageFrameSpec PageTable PageTableSpec AddressSpace KernelMemory KernelMemorySpec Elf ElfSpec Vfs Tasking Executables.

Local Open Scope Z_scope.

(** ** Mapping where no table is missing *)

Lemma absent_walk m root p g es : walk m root p = Some (g, es) -> absent m root p = [].
Proof.
  intros Hw. destruct (absent m root p) as [|q l] eqn:E; [done|]. assert (q ∈ absent m root p) as Hq by (rewrite E; left).
  unfold absent in Hq. apply list_elem_of_filter in Hq as [Hn Hq%elem_prefixes].
  destruct (walk_prefix _ _ _ _ _ _ Hq Hw) as (g' & es1 & es2 & Hq' & _). congruence.
Qed.

Section mapping.
Context (root : Z) (p0 : PageFrameAllocator).

Definition has_tables (m : ram) (a : Z) : Prop := is_Some (walk m root (take 3 (path a))).

Lemma next_table_there (m : ram) p f i e Flags stored : 0 < f -> get m f i = Some e -> present e = true ->
  next_table (mk_vmm m p) (f * 4096) i Flags stored = Ok (mk_vmm m p, GetAddress e * 4096).
Proof.
  intros Hf He Hp. unfold next_table. rewrite (read_entry_ok _ f i e) by done. cbn [bind].
  by rewrite present_bit, Hp, address_of.
Qed.

(** The allocator is not asked, and memory changes in the same way for all. *)
Lemma map_any m a pa Flags : tables_ok (mk_vmm m p0) root -> flags_ok Flags -> has_tables m a ->
  exists m', (forall p, MapMemory (root * 4096) (mk_vmm m p) a pa Flags 0 = Ok (mk_vmm m' p)) /\
    mapped (mk_vmm m p0) (mk_vmm m' p0) root a (wrapu 40 (Z.shiftr pa 12)) Flags.
Proof.
  intros Hok HF [[g es] Hw].
  destruct (map_page (mk_vmm m p0) root a pa Flags Hok HF) as (v' & E & Hm); [cbn [v_ram]; rewrite (absent_walk _ _ _ _ _ Hw); cbn; lia|].
  enough (exists m', forall p, MapMemory (root * 4096) (mk_vmm m p) a pa Flags 0 = Ok (mk_vmm m' p)) as (m' & Hall).
  { exists m'. split; [done|]. rewrite Hall in E. injection E as <-. exact Hm. }
  clear E Hm. pose proof (path_index_ok a) as Hpath. unfold MapMemory. unfold path in *. set (ix := indexer a) in *. cbn [take] in *.
  apply Forall_cons in Hpath as [H1 Hpath]. apply Forall_cons in Hpath as [H2 Hpath].
  apply Forall_cons in Hpath as [H3 Hpath]. apply Forall_cons in Hpath as [H4 _].
  pose proof (tk_table _ _ Hok [PDP_i ix; PD_i ix; PT_i ix] g es ltac:(cbn; lia) ltac:(by auto using Forall_cons_2, Forall_nil_2) Hw) as T3.
  destruct (tk_table _ _ Hok [] root [] ltac:(cbn; lia) ltac:(done) eq_refl) as (T0 & _).
  cbn [walk] in Hw. destruct (get m root (PDP_i ix)) as [e1|] eqn:G1; [|done]. destruct (present e1) eqn:P1; [|done].
  destruct (get m (GetAddress e1) (PD_i ix)) as [e2|] eqn:G2; [|done]. destruct (present e2) eqn:P2; [|done].
  destruct (get m (GetAddress e2) (PT_i ix)) as [e3|] eqn:G3; [|done]. destruct (present e3) eqn:P3; [|done].
  assert (walk m root [PDP_i ix] = Some (GetAddress e1, [e1])) as W1 by (cbn [walk]; by rewrite G1, P1).
  assert (walk m root [PDP_i ix; PD_i ix] = Some (GetAddress e2, [e1; e2])) as W2 by (cbn [walk]; by rewrite G1, P1, G2, P2).
  destruct (tk_table _ _ Hok [PDP_i ix] _ _ ltac:(cbn; lia) ltac:(by auto using Forall_cons_2, Forall_nil_2) W1) as (T1 & _).
  destruct (tk_table _ _ Hok [PDP_i ix; PD_i ix] _ _ ltac:(cbn; lia) ltac:(by auto using Forall_cons_2, Forall_nil_2) W2) as (T2 & _).
  injection Hw as <- _. pose proof T3 as (T3' & _ & ws & Hws & _). destruct (get_Some _ _ (P_i ix) T3 H4) as [e4 G4].
  eexists. intros p. rewrite decide_False by lia. rewrite decide_True by done.
  rewrite (next_table_there m p root _ e1) by (done || lia). cbn [bind].
  rewrite (next_table_there m p _ _ e2) by (done || lia). cbn [bind].
  rewrite (next_table_there m p _ _ e3) by (done || lia). cbn [bind].
  rewrite (read_entry_ok _ _ _ e4) by (done || (cbn [v_ram]; lia)). cbn [bind].
  unfold write_entry. rewrite (table_at_ok _ _ ws) by (done || lia). cbn [bind]. rewrite aset_Ok.
  2:{ cbn in G4. unfold get in G4. cbn in Hws. rewrite Hws in G4. by apply lookup_lt_Some in G4. }
  cbn [bind v_ram v_pfa]. reflexivity.
Qed.

(** Memory [m'] after mapping the pages from [k] on at their own addresses for
    user mode, when the tables are there in [m]. *)
Record pages_mapped (m m' : ram) (Flags k n : Z) : Prop := {
  pm_ok : tables_ok (mk_vmm m' p0) root;
  pm_in : forall x, k * 4096 <= x < (k + n) * 4096 -> translate m' root x = Some (mk_tr x (access m root Flags 1 x) (access m root Flags 2 x));
  pm_out : forall x, 0 <= x < 2 ^ 47 -> ~ (k * 4096 <= x < (k + n) * 4096) -> walk m' root (path x) = walk m root (path x);
  pm_short : forall q, (length q <= 3)%nat -> Forall index_ok q -> walk m' root q = walk m root q
}.

Lemma take_path_index a : Forall index_ok (take 3 (path a)).
Proof. apply Forall_take, path_index_ok. Qed.

Lemma mapped_short m m' a fr Flags : mapped (mk_vmm m p0) (mk_vmm m' p0) root a fr Flags -> has_tables m a ->
  forall q, (length q <= 3)%nat -> Forall index_ok q -> walk m' root q = walk m root q.
Proof.
  intros Hm [[g es] Hw] q Hq Hi. apply (mp_same _ _ _ _ _ _ Hm); [lia|done|intros ->; cbn in Hq; lia|].
  cbn [v_ram]. rewrite (absent_walk _ _ _ _ _ Hw). by apply not_elem_of_nil.
Qed.

(** The tables of an address are those of its page. *)
Lemma take_path_page a b : page_of a = page_of b -> path a = path b.
Proof. apply path_page. Qed.

Lemma dirs_same m m' a : has_tables m a -> (forall q, (length q <= 3)%nat -> Forall index_ok q -> walk m' root q = walk m root q) ->
  forall b, dirs_grant m' root b a = dirs_grant m root b a.
Proof.
  intros [[g es] Hw] Hs b. unfold dirs_grant. rewrite (dirs_walk _ _ _ _ _ Hw).
  rewrite <- (Hs (take 3 (path a))) in Hw; [|by cbn|apply take_path_index]. by rewrite (dirs_walk _ _ _ _ _ Hw).
Qed.

Lemma map_pages_ok Flags n : flags_ok Flags -> forall m k, tables_ok (mk_vmm m p0) root -> 0 <= k -> (k + Z.of_nat n) <= 2 ^ 35 ->
  (forall x, k * 4096 <= x < (k + Z.of_nat n) * 4096 -> has_tables m x) ->
  exists m', (forall p, map_pages (root * 4096) (mk_vmm m p) (k * 4096) n Flags = Ok (mk_vmm m' p)) /\
    pages_mapped m m' Flags k (Z.of_nat n).
Proof.
  intros HF. induction n as [|n IH]; intros m k Hok Hk Hn Ht; cbn [map_pages].
  { exists m. split; [done|]. split; [done| |done|done]. intros x Hx. lia. }
  destruct (map_any m (k * 4096) (k * 4096) Flags Hok HF (Ht (k * 4096) ltac:(lia))) as (m1 & E & Hm).
  pose proof (mapped_short _ _ _ _ _ Hm (Ht (k * 4096) ltac:(lia))) as Hs.
  assert (forall x, has_tables m x -> has_tables m1 x) as Hts.
  { intros x [y Hx]. exists y. by rewrite Hs; [|by cbn|apply take_path_index]. }
  destruct (IH m1 (k + 1)) as (m' & E' & [A1 A2 A3 A4]); [apply Hm|lia|lia|intros x Hx; apply Hts, Ht; lia|].
  exists m'. split.
  { intros p. rewrite E. cbn [bind]. unfold PAGE_SIZE. rewrite wrapu_small by lia. replace (k * 4096 + 4096) with ((k + 1) * 4096) by lia. apply E'. }
  assert (forall x, 0 <= x < 2 ^ 47 -> page_of x = page_of (k * 4096) <-> k * 4096 <= x < (k + 1) * 4096) as Hpg.
  { intros x Hx. rewrite !page_of_low by lia. rewrite Z.div_mul by lia. pose proof (Z.div_mod x 4096). pose proof (Z.mod_pos_bound x 4096). lia. }
  split; [done| | |].
  - intros x Hx. destruct (decide (k * 4096 <= x < (k + 1) * 4096)) as [Hin|Hout].
    + assert (translate m' root x = translate m1 root x) as -> by (unfold translate; rewrite A3; [done|lia|lia]).
      assert (page_of x = page_of (k * 4096)) as Hp by (apply Hpg; [lia|done]).
      pose proof (mapped_page _ _ _ _ _ _ x Hm Hp) as Htr. cbn [v_ram] in Htr. rewrite Htr, frame_small by lia.
      unfold access, dirs_grant, granted. rewrite (take_path_page _ _ Hp). do 2 f_equal. pose proof (Z.div_mod x 4096).
      assert (x / 4096 = k); [|lia]. symmetry. apply (Z.div_unique x 4096 k (x - k * 4096)); lia.
    + rewrite A2 by lia. unfold access. do 2 f_equal.
      * destruct (Z.testbit Flags 1); [apply dirs_same; [apply Ht; lia|done]|]. unfold granted.
        pose proof (mapped_other _ _ _ _ _ _ x Hm) as Ho. cbn [v_ram] in Ho. rewrite Ho; [done|]. rewrite Hpg by lia. done.
      * destruct (Z.testbit Flags 2); [apply dirs_same; [apply Ht; lia|done]|]. unfold granted.
        pose proof (mapped_other _ _ _ _ _ _ x Hm) as Ho. cbn [v_ram] in Ho. rewrite Ho; [done|]. rewrite Hpg by lia. done.
  - intros x Hx Hout. rewrite A3 by lia. apply (mapped_other _ _ _ _ _ _ x Hm). rewrite Hpg by done. lia.
  - intros q Hq Hi. rewrite A4 by done. by apply Hs.
Qed.
End mapping.

(** ** Segments *)

(** The members of a program header that the loader reads. *)
Record segment := mk_segment { sg_type : Z; sg_offset : Z; sg_vaddr : Z; sg_filesz : Z; sg_memsz : Z }.

Definition header_at (b : list Z) (o : nat) : segment :=
  mk_segment (le_value (slice o 4 b)) (le_value (slice (o + 8) 8 b)) (le_value (slice (o + 16) 8 b))
    (le_value (slice (o + 32) 8 b)) (le_value (slice (o + 40) 8 b)).

Definition headers (b : list Z) (o n : nat) : list segment := (fun i => header_at b (o + 56 * i)) <$> seq 0 n.

(** The segments to load. *)
Definition loads (b : list Z) (o n : nat) : list segment := filter (fun s => sg_type s = PT_LOAD) (headers b o n).

(** A segment that is in the file and in the pages of the program. *)
Definition segment_ok (b : list Z) (limit : Z) (s : segment) : Prop :=
  sg_offset s + sg_filesz s <= Z.of_nat (length b) /\ sg_filesz s <= sg_memsz s /\ sg_vaddr s + sg_memsz s <= limit.

Definition apart (s t : segment) : Prop :=
  sg_vaddr s + sg_memsz s <= sg_vaddr t \/ sg_vaddr t + sg_memsz t <= sg_vaddr s.

(** Byte [k] of a segment: of the file, then zero. *)
Definition segment_byte (b : list Z) (s : segment) (k : Z) : option Z :=
  if decide (k < sg_filesz s) then b !! Z.to_nat (sg_offset s + k) else Some 0.

Definition segment_bytes (b : list Z) (s : segment) : list Z :=
  slice (Z.to_nat (sg_offset s)) (Z.to_nat (sg_filesz s)) b ++ replicate (Z.to_nat (sg_memsz s - sg_filesz s)) 0.

Definition place_segment (b image : list Z) (s : segment) : list Z := splice (Z.to_nat (sg_vaddr s)) (segment_bytes b s) image.

Lemma lookup_splice {A} i (w l : list A) k : (i + length w <= length l)%nat ->
  splice i w l !! k = if decide (i <= k < i + length w)%nat then w !! (k - i)%nat else l !! k.
Proof.
  intros H. unfold splice. case_decide as Hd.
  - rewrite lookup_app_r by (rewrite length_take; lia). rewrite lookup_app_l by (rewrite length_take; lia). f_equal. rewrite length_take. lia.
  - destruct (decide (k < i)%nat).
    + rewrite lookup_app_l by (rewrite length_take; lia). by apply lookup_take_lt.
    + rewrite lookup_app_r by (rewrite length_take; lia). rewrite lookup_app_r by (rewrite length_take; lia).
      rewrite lookup_drop. f_equal. rewrite length_take. lia.
Qed.

Lemma write_at_ok m i f d : 0 <= i -> f (drop (Z.to_nat i) m) = Ok d -> write_at m i f = Ok (take (Z.to_nat i) m ++ d).
Proof. intros Hi E. unfold write_at. rewrite decide_True by done. by rewrite E. Qed.

(** Zeroing and copying at the address of a segment. *)
Lemma place_segment_ok b image s : 0 <= sg_offset s -> 0 <= sg_vaddr s -> 0 <= sg_filesz s -> segment_ok b (Z.of_nat (length image)) s ->
  (let* image := write_at image (sg_vaddr s) (fun d => memset d 0 (sg_memsz s)) in
   write_at image (sg_vaddr s) (fun d => memcpy d (drop (Z.to_nat (sg_offset s)) b) (sg_filesz s))) = Ok (place_segment b image s).
Proof.
  intros Ho Hv Hf (H1 & H2 & H3). set (v := Z.to_nat (sg_vaddr s)).
  rewrite (write_at_ok _ _ _ (replicate (Z.to_nat (sg_memsz s)) 0 ++ drop (Z.to_nat (sg_memsz s)) (drop v image))) by
    (lia || (apply memset_ok; rewrite length_drop; lia)).
  cbn [bind]. fold v. assert (length (take v image) = v) as Hv' by (rewrite length_take; lia).
  erewrite write_at_ok; [|done|fold v; rewrite drop_app_length' by done; apply memcpy_ok; rewrite ?length_app, ?length_replicate, !length_drop; lia].
  fold v. rewrite take_app_length' by done. f_equal. unfold place_segment, splice, segment_bytes, slice. fold v. f_equal.
  rewrite length_app, length_take, length_drop, length_replicate, drop_app_le by (rewrite length_replicate; lia).
  rewrite drop_replicate, drop_drop, app_assoc. do 2 f_equal; [|f_equal; lia]. f_equal; f_equal; lia.
Qed.

Lemma length_place b image s : 0 <= sg_offset s -> 0 <= sg_vaddr s -> 0 <= sg_filesz s -> segment_ok b (Z.of_nat (length image)) s ->
  length (segment_bytes b s) = Z.to_nat (sg_memsz s) /\ length (place_segment b image s) = length image.
Proof.
  intros Ho Hv Hf (H1 & H2 & H3). assert (length (segment_bytes b s) = Z.to_nat (sg_memsz s)) as E.
  { unfold segment_bytes, slice. rewrite length_app, length_take, length_drop, length_replicate. lia. }
  split; [done|]. unfold place_segment, splice. rewrite !length_app, length_take, length_drop, E. lia.
Qed.

Lemma lookup_segment b s k : 0 <= sg_offset s -> 0 <= sg_filesz s <= sg_memsz s -> sg_offset s + sg_filesz s <= Z.of_nat (length b) ->
  0 <= k < sg_memsz s -> segment_bytes b s !! Z.to_nat k = segment_byte b s k.
Proof.
  intros Ho Hf Hb Hk. unfold segment_bytes, segment_byte, slice. case_decide.
  - rewrite lookup_app_l by (rewrite length_take, length_drop; lia). rewrite lookup_take_lt, lookup_drop by lia. f_equal. lia.
  - rewrite lookup_app_r by (rewrite length_take, length_drop; lia). apply lookup_replicate_2. rewrite length_take, length_drop. lia.
Qed.

Lemma header_range b o : bytes_ok b -> 0 <= sg_offset (header_at b o) /\ 0 <= sg_vaddr (header_at b o) < 2 ^ 64 /\
  0 <= sg_filesz (header_at b o) /\ 0 <= sg_memsz (header_at b o).
Proof.
  intros Hb. assert (forall i, 0 <= le_value (slice i 8 b) < 2 ^ 64) as H; [|split_and!; apply H].
  intros i. pose proof (le_value_range (slice i 8 b) (slice_bytes _ _ _ Hb)).
  assert (256 ^ Z.of_nat (length (slice i 8 b)) <= 256 ^ 8); [|lia]. apply Z.pow_le_mono_r; [lia|].
  unfold slice. rewrite length_take. lia.
Qed.

Lemma headers_S b o n : headers b o (S n) = header_at b o :: headers b (o + 56) n.
Proof.
  unfold headers. cbn [seq fmap list_fmap]. rewrite Nat.mul_0_r, Nat.add_0_r. f_equal. rewrite <- (fmap_S_seq 0 n), <- list_fmap_compose.
  apply list_fmap_ext. intros i x _. cbn. f_equal. lia.
Qed.

Lemma phdr_fields b o : (o + 56 <= length b)%nat ->
  p_type b (Z.of_nat o) = Ok (sg_type (header_at b o)) /\ p_offset b (Z.of_nat o) = Ok (sg_offset (header_at b o)) /\
  p_vaddr b (Z.of_nat o) = Ok (sg_vaddr (header_at b o)) /\ p_filesz b (Z.of_nat o) = Ok (sg_filesz (header_at b o)) /\
  p_memsz b (Z.of_nat o) = Ok (sg_memsz (header_at b o)).
Proof.
  intros H. unfold p_type, p_offset, p_vaddr, p_filesz, p_memsz, header_at. cbn.
  split_and!; (rewrite field_ok by lia; do 3 f_equal; lia).
Qed.

(** The end of the last segment to load. *)
Definition last_end (l : list segment) : option Z := (fun s => u64 (sg_vaddr s + sg_memsz s)) <$> last l.

Lemma image_end_ok b n : forall o addr, (o + 56 * n <= length b)%nat ->
  image_end b (Z.of_nat o) n addr = Ok (match last_end (loads b o n) with Some e => Some e | None => addr end).
Proof.
  induction n as [|n IH]; intros o addr Ho; [done|]. cbn [image_end].
  destruct (phdr_fields b o ltac:(lia)) as (-> & _ & Ev & _ & Em). cbn [bind]. unfold loads. rewrite headers_S.
  replace (Z.of_nat o + sizeof_Phdr) with (Z.of_nat (o + 56)) by (unfold sizeof_Phdr; lia).
  case_decide as Hd; cbn [bind].
  - rewrite IH, filter_cons_False by (done || lia). done.
  - rewrite Ev, Em. cbn [bind].
    rewrite IH, filter_cons_True by (done || lia). fold (loads b (o + 56) n). unfold last_end.
    rewrite last_cons. by destruct (last (loads b (o + 56) n)).
Qed.

Lemma load_segments_ok b n offset : bytes_ok b -> 0 <= offset -> forall o image, (o + 56 * n <= length b)%nat -> offset + Z.of_nat (length image) <= 2 ^ 64 ->
  Forall (segment_ok b (Z.of_nat (length image))) (loads b o n) ->
  (forall s, s ∈ loads b o n -> sg_vaddr s + offset < 2 ^ 64) ->
  load_segments b (Z.of_nat o) n offset image = Ok (foldl (place_segment b) image (loads b o n)).
Proof.
  intros Hb Hof. induction n as [|n IH]; intros o image Ho Hi Hs Hv; [done|]. cbn [load_segments].
  destruct (phdr_fields b o ltac:(lia)) as (-> & Eo & Ev & Ef & Em). cbn [bind]. unfold loads in *. rewrite headers_S in *.
  replace (Z.of_nat o + sizeof_Phdr) with (Z.of_nat (o + 56)) by (unfold sizeof_Phdr; lia). case_decide as Hd; cbn [bind].
  - rewrite filter_cons_False in * by done. by apply IH; [lia| | |].
  - rewrite filter_cons_True in * by done. rewrite Eo, Ev, Ef, Em. cbn [bind]. apply Forall_cons in Hs as [Hs Hs'].
    destruct (header_range b o Hb) as (R1 & R2 & R3 & R4). pose proof (Hv _ ltac:(left)) as Hv1.
    rewrite wrapu_small by lia. replace (sg_vaddr (header_at b o) + offset - offset) with (sg_vaddr (header_at b o)) by lia.
    pose proof (place_segment_ok b image (header_at b o) R1 ltac:(lia) R3 Hs) as E. rewrite bind_assoc, E || (cbn [bind]; rewrite E). cbn [bind foldl].
    destruct (length_place b image (header_at b o) R1 ltac:(lia) R3 Hs) as [_ El].
    apply IH; [lia|by rewrite El|by rewrite El|]. intros s H. apply Hv. by right.
Qed.

(** Segments that are apart keep their bytes; the rest of the pages is as it was. *)
Lemma placed_ok b (l : list segment) : (forall s, s ∈ l -> 0 <= sg_offset s /\ 0 <= sg_vaddr s /\ 0 <= sg_filesz s) -> forall image,
  Forall (segment_ok b (Z.of_nat (length image))) l -> let image' := foldl (place_segment b) image l in
  length image' = length image /\
  (forall k, 0 <= k -> (forall s, s ∈ l -> ~ (sg_vaddr s <= k < sg_vaddr s + sg_memsz s)) -> image' !! Z.to_nat k = image !! Z.to_nat k) /\
  (ForallOrdPairs apart l -> forall s k, s ∈ l -> 0 <= k < sg_memsz s -> image' !! Z.to_nat (sg_vaddr s + k) = segment_byte b s k).
Proof.
  induction l as [|s l IH]; intros Hr image Hs; cbn [foldl].
  { split_and!; [done|done|]. intros _ s k Hk. by apply elem_of_nil in Hk. }
  apply Forall_cons in Hs as [Hs Hs']. destruct (Hr s ltac:(left)) as (R1 & R2 & R3).
  destruct (length_place b image s R1 R2 R3 Hs) as [Eb El]. pose proof Hs as (S1 & S2 & S3).
  destruct (IH (fun t H => Hr t (list_elem_of_further _ _ _ H)) (place_segment b image s)) as (I1 & I2 & I3); [by rewrite El|].
  cbn zeta in *. split_and!; [lia| |].
  - intros k Hk Hout. rewrite I2; [|done|intros t Ht; apply Hout; by right].
    unfold place_segment. rewrite lookup_splice by lia. rewrite decide_False; [done|]. pose proof (Hout s ltac:(left)). lia.
  - intros Hap t k Ht Hk. inversion Hap as [|? ? Hfst Htl]; subst. apply elem_of_cons in Ht as [->|Ht]; [|by apply I3].
    rewrite I2; [|lia|].
    + unfold place_segment. rewrite lookup_splice by lia. rewrite decide_True by lia. rewrite <- lookup_segment by lia. f_equal. lia.
    + intros t Ht Hin. pose proof (proj1 (Forall_forall _ _) Hfst t Ht) as Ha. unfold apart in Ha. lia.
Qed.

(** ** Files *)

Lemma slice_app {A} i n (l r : list A) : (i + n <= length l)%nat -> slice i n (l ++ r) = slice i n l.
Proof. intros H. unfold slice. rewrite drop_app_le, take_app_le by (rewrite ?length_drop; lia). done. Qed.

Lemma load_app n l r : forall i x, load n l i = Ok x -> load n (l ++ r) i = Ok x.
Proof.
  induction n as [|n IH]; intros i x E; cbn [load] in *; [done|]. apply bind_inv in E as (y & Hy%aget_Ok & E).
  apply bind_inv in E as (z & Hz & E). rewrite (proj2 (aget_Ok _ _ y)) by (by apply lookup_app_l_Some). cbn [bind]. by rewrite (IH _ _ Hz).
Qed.

Lemma field_app n l r o k x : field n l o k = Ok x -> field n (l ++ r) o k = Ok x.
Proof. unfold field. case_decide; [|done]. intros E. rewrite decide_True by (rewrite length_app; lia). by apply load_app. Qed.

(** The path is that of a file with node [n] and bytes [data]. *)
Section files.
Context {W : Type} (operators : Z -> FileSystemOpeations W) `{HW : Hardware} `{PL : PageContentsLaws}.

Record opens_file (s : system (W := W)) (Path : cstr) (file : FILE) (n : FileSystemNode) (v : Virtual) (w : W) (data : list Z) : Prop := {
  of_open : Open (s_vfs s) Path 0 = Ok (v, file);
  of_status : f_Status file = OK;
  of_node : deref v (f_Node file) = Ok n;
  of_flags : Flags n = FS_FILE;
  of_lock : VFSLock v = false;
  of_length : Z.of_nat (length data) = Length n /\ Length n < 2 ^ 47;
  of_bytes : bytes_ok data;
  of_read : forall buf, (length data <= length buf)%nat ->
    exists file' r, Read operators v (s_world s) (Some file) 0 buf (Length n) = Ok (v, (w, file', r, data ++ drop (length data) buf))
}.

(** [Close] of a valid handle changes nothing. *)
Lemma Close_ok v f : VFSLock v = false -> Close v (Some f) = Ok (v, OK).
Proof. intros Hl. unfold Close, SMART_LOCK. rewrite Hl. cbn. destruct v. cbn in *. by subst. Qed.

(** The rest of the file's pages. *)
Definition file_rest (n : FileSystemNode) (a : Z) (data : list Z) : list Z :=
  drop (length data) (residue a (Z.to_nat (pages_for (Length n) * PAGE_SIZE))).

Lemma pages_for_small x : 0 <= x < 2 ^ 64 -> pages_for x = x / 4096 + 1 /\ 0 < pages_for x < 2 ^ 63 /\ x < pages_for x * 4096.
Proof.
  intros Hx. unfold pages_for, PAGE_SIZE. pose proof (Z.div_pos x 4096). pose proof (Z.div_lt_upper_bound x 4096 (2 ^ 52)).
  rewrite wrapu_small by lia. pose proof (Z.div_mod x 4096). pose proof (Z.mod_pos_bound x 4096). lia.
Qed.

Lemma read_file_ok s Path file n v w data p1 a1 : opens_file s Path file n v w data ->
  RequestPages (v_pfa (s_vmm s)) (pages_for (Length n)) = Ok (p1, a1) -> a1 <> 0 ->
  read_file operators s Path = Ok (mk_system v w (s_machine (with_vmm s (mk_vmm (v_ram (s_vmm s)) p1))),
    Some (mk_loaded file (Length n) a1 (data ++ file_rest n a1 data))).
Proof.
  intros [H1 H2 H3 H4 H5 [H6 H7] H8 H9] Hr Ha. unfold read_file. rewrite H1. cbn [bind]. rewrite decide_False by (rewrite H2; auto).
  rewrite H3. cbn [bind]. rewrite decide_False by auto. cbn [bind]. unfold request_pages. change (s_vmm (with_vfs s v)) with (s_vmm s).
  rewrite Hr. cbn [bind]. rewrite decide_False by done.
  pose proof (pages_for_small (Length n) ltac:(lia)) as (_ & _ & Hlt).
  destruct (H9 (residue a1 (Z.to_nat (pages_for (Length n) * PAGE_SIZE)))) as (file' & r & E).
  { rewrite length_residue. unfold PAGE_SIZE. lia. }
  change (s_vfs (with_vmm (with_vfs s v) _)) with v. change (s_world (with_vmm (with_vfs s v) _)) with (s_world s).
  rewrite E. done.
Qed.

(** ** ELF files *)

(** A 64-bit ELF file that can be loaded: [phnum] program headers at [phoff], the
    segments to load in the file and in [npages] pages, apart. *)
Record elf_file (data : list Z) (phoff phnum : nat) (entry npages : Z) : Prop := {
  ef_class : e_ident data EI_CLASS = Ok ELFCLASS64;
  ef_type : exists t, e_type data = Ok t /\ (t = ET_EXEC \/ t = ET_DYN \/ t = ET_REL);
  ef_phoff : e_phoff data = Ok (Z.of_nat phoff);
  ef_phnum : e_phnum data = Ok (Z.of_nat phnum);
  ef_entry : e_entry data = Ok entry;
  ef_headers : (phoff + 56 * phnum <= length data)%nat;
  ef_pages : exists e, last_end (loads data phoff phnum) = Some e /\ npages = pages_for e;
  ef_segments : Forall (segment_ok data (npages * 4096)) (loads data phoff phnum);
  ef_apart : ForallOrdPairs apart (loads data phoff phnum)
}.

(** The memory of the machine: the tables of the address space below [root] are
    there for all frames, and the allocator is sound. *)
Record memory_ok (s : system (W := W)) (root : Z) : Prop := {
  mo_tables : tables_ok (s_vmm s) root;
  mo_root : ktm_PML4 (m_kernel (s_machine s)) = root * 4096;
  mo_sealed : sealed (v_pfa (s_vmm s));
  mo_pages : pages (v_pfa (s_vmm s)) <= 2 ^ 35;
  mo_mapped : forall x, 0 <= x < pages (v_pfa (s_vmm s)) * 4096 -> has_tables root (v_ram (s_vmm s)) x
}.

Lemma loads_app data r o n : (o + 56 * n <= length data)%nat -> loads (data ++ r) o n = loads data o n.
Proof.
  intros H. unfold loads. f_equal. unfold headers. apply list_fmap_ext. intros i x Hi. apply lookup_seq in Hi as [-> Hi].
  unfold header_at. rewrite !slice_app by lia. done.
Qed.

Lemma requested s n p a : pfa_ok s -> sealed s -> 0 < n < 2 ^ 63 -> RequestPages s n = Ok (p, a) -> a <> 0 ->
  exists k, a = k * 4096 /\ 0 < k /\ free_run s k n /\ marked s p k n true /\ sealed p.
Proof.
  intros Hs Hsl Hn E Ha. destruct (RequestPages_correct s n Hs Hsl Hn) as [(k & s' & E' & Hk & _ & Hr & Hm)|(_ & s' & E' & _)];
    rewrite E in E'; injection E' as <- ->; [|done].
  exists k. split_and!; try done. destruct Hsl as (S1 & S2 & S3). unfold sealed. rewrite (mk_pages _ _ _ _ _ Hm), !(mk_bits _ _ _ _ _ Hm) by lia.
  split_and!; [done|case_decide; done|case_decide; done].
Qed.

(** Mapping pages of a run, with any allocator [p] in place of the one the tables
    are known to be right with. *)
Lemma sys_map_pages_ok (s : system (W := W)) root p0 m p k n Flags : s_vmm s = mk_vmm m p -> ktm_PML4 (m_kernel (s_machine s)) = root * 4096 ->
  tables_ok (mk_vmm m p0) root -> flags_ok Flags -> 0 <= k -> 0 <= n -> k + n <= 2 ^ 35 ->
  (forall x, k * 4096 <= x < (k + n) * 4096 -> has_tables root m x) ->
  exists m', sys_map_pages s (k * 4096) n Flags = Ok (with_vmm s (mk_vmm m' p)) /\ pages_mapped root p0 m m' Flags k n.
Proof.
  intros Hs Hr Hok HF Hk Hn Hkn Ht.
  destruct (map_pages_ok root p0 Flags (Z.to_nat n) HF m k Hok Hk) as (m' & E & Hm); [lia|intros x Hx; apply Ht; lia|].
  rewrite Z2Nat.id in Hm by lia. exists m'. split; [|done]. unfold sys_map_pages. by rewrite Hs, Hr, E.
Qed.

Lemma mapped_tables root p0 m m' Flags k n x : pages_mapped root p0 m m' Flags k n -> has_tables root m x -> has_tables root m' x.
Proof. intros Hm [y Hx]. exists y. by rewrite (pm_short _ _ _ _ _ _ _ Hm); [|by cbn|apply take_path_index]. Qed.

Lemma vmm_eta (v : vmm) : mk_vmm (v_ram v) (v_pfa v) = v.
Proof. by destruct v. Qed.

(** The fields of the header, in the pages of the file. *)
Lemma header_ok data rest phoff phnum entry npages : elf_file data phoff phnum entry npages ->
  let b := data ++ rest in
  (exists t, e_ident b EI_CLASS = Ok ELFCLASS64 /\ e_type b = Ok t /\ (ELFCLASS64 = ELFCLASS64 /\ (t = ET_EXEC \/ t = ET_DYN \/ t = ET_REL))) /\
  e_phoff b = Ok (Z.of_nat phoff) /\ e_phnum b = Ok (Z.of_nat phnum) /\ e_entry b = Ok entry /\
  (phoff + 56 * phnum <= length b)%nat /\ loads b phoff phnum = loads data phoff phnum.
Proof.
  intros [H1 (t & H2 & H3) H4 H5 H6 H7 _ _ _]. cbn zeta. split_and!.
  - exists t. split_and!; [by apply field_app|by apply field_app|done|done].
  - by apply field_app.
  - by apply field_app.
  - by apply field_app.
  - rewrite length_app. lia.
  - by apply loads_app.
Qed.

Lemma last_end_range l e : last_end l = Some e -> 0 <= e < 2 ^ 64.
Proof. unfold last_end. destruct (last l); [|done]. intros [= <-]. apply wrapu_range. lia. Qed.

Lemma segment_byte_app data rest s k : 0 <= sg_offset s -> 0 <= k -> sg_offset s + sg_filesz s <= Z.of_nat (length data) ->
  segment_byte (data ++ rest) s k = segment_byte data s k.
Proof. intros Ho Hk Hs. unfold segment_byte. case_decide; [|done]. apply lookup_app_l. lia. Qed.

(** The program that [image_end] and [load_segments] make of the file's pages. *)
Lemma segments_loaded data rest phoff phnum entry npages offset image : elf_file data phoff phnum entry npages -> bytes_ok (data ++ rest) ->
  0 <= offset -> offset + npages * 4096 < 2 ^ 64 -> 0 <= npages -> length image = Z.to_nat (npages * 4096) ->
  exists image', load_segments (data ++ rest) (Z.of_nat phoff) phnum offset image = Ok image' /\
    length image' = Z.to_nat (npages * 4096) /\
    (forall s k, s ∈ loads data phoff phnum -> 0 <= k < sg_memsz s -> image' !! Z.to_nat (sg_vaddr s + k) = segment_byte data s k) /\
    (forall k, 0 <= k -> (forall s, s ∈ loads data phoff phnum -> ~ (sg_vaddr s <= k < sg_vaddr s + sg_memsz s)) -> image' !! Z.to_nat k = image !! Z.to_nat k).
Proof.
  intros Hef Hb Ho Hlim Hn Hl. destruct (header_ok data rest _ _ _ _ Hef) as (_ & _ & _ & _ & Hh & Hlo).
  pose proof (ef_segments _ _ _ _ _ Hef) as Hseg. pose proof (ef_apart _ _ _ _ _ Hef) as Hap. rewrite <- Hlo in *.
  assert (forall s, s ∈ loads (data ++ rest) phoff phnum -> 0 <= sg_offset s /\ 0 <= sg_vaddr s /\ 0 <= sg_filesz s) as Hr.
  { intros s Hs. unfold loads, headers in Hs. apply list_elem_of_filter in Hs as [_ (i & -> & _)%list_elem_of_fmap].
    pose proof (header_range (data ++ rest) (phoff + 56 * i) Hb). intuition lia. }
  assert (Forall (segment_ok (data ++ rest) (Z.of_nat (length image))) (loads (data ++ rest) phoff phnum)) as Hseg'.
  { eapply Forall_impl; [exact Hseg|]. intros s (S1 & S2 & S3). unfold segment_ok. rewrite length_app, Hl. lia. }
  destruct (placed_ok (data ++ rest) _ Hr image Hseg') as (P1 & P2 & P3).
  eexists. split; [|split_and!].
  - apply load_segments_ok; try done; [lia|]. intros s Hs. pose proof (proj1 (Forall_forall _ _) Hseg s Hs) as (S1 & S2 & S3).
    pose proof (Hr s Hs). lia.
  - lia.
  - intros s k Hs Hk. pose proof (proj1 (Forall_forall _ _) Hseg s Hs) as (S1 & S2 & S3). rewrite P3 by done.
    apply segment_byte_app; [by apply Hr|lia|done].
  - done.
Qed.

(** The state with the file open and another memory. *)
Definition opened_with (v : Virtual) (w : W) (s : system (W := W)) (m : ram) (p : PageFrameAllocator) : system :=
  mk_system v w (s_machine (with_vmm s (mk_vmm m p))).

(** The pages of the file, and mapping them. *)
Lemma file_pages s root v w n p1 a1 : memory_ok s root -> 0 <= n < 2 ^ 64 ->
  RequestPages (v_pfa (s_vmm s)) (pages_for n) = Ok (p1, a1) -> a1 <> 0 ->
  exists k, a1 = k * 4096 /\ 0 < k /\ free_run (v_pfa (s_vmm s)) k (pages_for n) /\ marked (v_pfa (s_vmm s)) p1 k (pages_for n) true /\ sealed p1 /\
    forall Flags, flags_ok Flags -> exists m1,
      sys_map_pages (opened_with v w s (v_ram (s_vmm s)) p1) (k * 4096) (pages_for n) Flags = Ok (opened_with v w s m1 p1) /\
      pages_mapped root (v_pfa (s_vmm s)) (v_ram (s_vmm s)) m1 Flags k (pages_for n).
Proof.
  intros [M1 M2 M3 M4 M5] Hn Hr Ha. destruct (pages_for_small n Hn) as (_ & N1 & _).
  destruct (requested _ _ _ _ (fk_pfa _ (tk_frames _ _ M1)) M3 N1 Hr Ha) as (k & -> & K & F & Mk & Sl).
  exists k. split_and!; try done. intros Flags HF. destruct F as (F1 & F2 & F3).
  destruct (sys_map_pages_ok (opened_with v w s (v_ram (s_vmm s)) p1) root (v_pfa (s_vmm s)) (v_ram (s_vmm s)) p1 k (pages_for n) Flags)
    as (m1 & E & Hm); [done|done|by rewrite vmm_eta|done|lia|lia|lia|intros x Hx; apply M5; lia|].
  exists m1. by split.
Qed.

(** The pages of the program, when those of the file are mapped. *)
Lemma program_pages s root v w n p1 p2 k1 m1 npages a2 : memory_ok s root -> 0 < npages < 2 ^ 63 ->
  marked (v_pfa (s_vmm s)) p1 k1 (pages_for n) true -> sealed p1 -> pages_mapped root (v_pfa (s_vmm s)) (v_ram (s_vmm s)) m1 RWUS k1 (pages_for n) ->
  RequestPages p1 npages = Ok (p2, a2) -> a2 <> 0 ->
  exists k, a2 = k * 4096 /\ 0 < k /\ k + npages <= 2 ^ 35 /\ free_run (v_pfa (s_vmm s)) k npages /\
    (exists m2, sys_map_pages (opened_with v w s m1 p2) (k * 4096) npages RWUS = Ok (opened_with v w s m2 p2) /\
       forall x, k * 4096 <= x < (k + npages) * 4096 ->
         translate m2 root x = Some (mk_tr x (dirs_grant (v_ram (s_vmm s)) root 1 x) (dirs_grant (v_ram (s_vmm s)) root 2 x))) /\
    forall j, 0 <= j < pages (v_pfa (s_vmm s)) ->
      in_use p2 j = (in_use (v_pfa (s_vmm s)) j || bool_decide (k1 <= j < k1 + pages_for n) || bool_decide (k <= j < k + npages)).
Proof.
  intros [M1 M2 M3 M4 M5] Hn Mk1 Sl1 Hm1 Hr Ha.
  destruct (requested _ _ _ _ (mk_ok _ _ _ _ _ Mk1) Sl1 Hn Hr Ha) as (k & -> & K & (F1 & F2 & F3) & Mk2 & _).
  pose proof (mk_pages _ _ _ _ _ Mk1) as Hpg. rewrite Hpg in F2. exists k. split_and!; [done|done|lia| | |].
  - split_and!; [lia|lia|]. intros j Hj. specialize (F3 j Hj). rewrite (mk_bits _ _ _ _ _ Mk1) in F3 by lia. by case_decide.
  - destruct (sys_map_pages_ok (opened_with v w s m1 p2) root (v_pfa (s_vmm s)) m1 p2 k npages RWUS) as (m2 & E & Hm2);
      [done|done|apply Hm1|done|lia|lia|lia|intros x Hx; eapply mapped_tables; [exact Hm1|apply M5; lia]|].
    exists m2. split; [done|]. intros x Hx. rewrite (pm_in _ _ _ _ _ _ _ Hm2) by done. unfold access.
    change (Z.testbit RWUS 1) with true. change (Z.testbit RWUS 2) with true.
    by rewrite !(dirs_same root (v_ram (s_vmm s)) m1 x) by (apply M5 || apply (pm_short _ _ _ _ _ _ _ Hm1); lia).
  - intros j Hj. rewrite (mk_bits _ _ _ _ _ Mk2), (mk_bits _ _ _ _ _ Mk1) by lia.
    repeat case_decide; repeat case_bool_decide; rewrite ?orb_true_r, ?orb_false_r; (done || lia).
Qed.

(** What a loaded program is: its pages, [npages] from [offset] on, hold each
    segment, and are mapped at their own addresses. *)
Record program_loaded (s s' : system (W := W)) (root : Z) (data : list Z) (phoff phnum : nat) (npages k : Z) (image : list Z) : Prop := {
  pl_length : length image = Z.to_nat (npages * 4096);
  pl_segments t i : t ∈ loads data phoff phnum -> 0 <= i < sg_memsz t -> image !! Z.to_nat (sg_vaddr t + i) = segment_byte data t i;
  pl_access x : k * 4096 <= x < (k + npages) * 4096 ->
    translate (v_ram (s_vmm s')) root x = Some (mk_tr x (dirs_grant (v_ram (s_vmm s)) root 1 x) (dirs_grant (v_ram (s_vmm s)) root 2 x))
}.

(** C22 The ELF loader, for a program of user mode whose segments are in the file
    and in the pages that it computes from the last one, and apart: it ends without
    leaving the file and these pages, gives their address and the entry of the file; the pages
    were free, hold the bytes of every segment and zeros behind them, and are mapped
    at their own addresses with the access the directories allow.  The pages of the file are
    never released. *)
Theorem elf_loaded s Path file n v w data root phoff phnum entry npages p1 a1 p2 a2 :
  opens_file s Path file n v w data -> elf_file data phoff phnum entry npages -> memory_ok s root ->
  RequestPages (v_pfa (s_vmm s)) (pages_for (Length n)) = Ok (p1, a1) -> a1 <> 0 ->
  RequestPages p1 npages = Ok (p2, a2) -> a2 <> 0 ->
  exists s' image k1 k2, ExecuteELF operators s Path User = Ok (s', mk_Ret a2 entry, image) /\
    a1 = k1 * 4096 /\ a2 = k2 * 4096 /\ free_run (v_pfa (s_vmm s)) k1 (pages_for (Length n)) /\ free_run (v_pfa (s_vmm s)) k2 npages /\
    program_loaded s s' root data phoff phnum npages k2 image /\
    (forall j, 0 <= j < pages (v_pfa (s_vmm s)) -> in_use (v_pfa (s_vmm s')) j =
       (in_use (v_pfa (s_vmm s)) j || bool_decide (k1 <= j < k1 + pages_for (Length n)) || bool_decide (k2 <= j < k2 + npages))).
Proof.
  intros Hop Hef Hmem Hr1 Ha1 Hr2 Ha2. destruct (of_length _ _ _ _ _ _ _ Hop) as [L1 L2].
  destruct (ef_pages _ _ _ _ _ Hef) as (e & He & En). destruct (pages_for_small e (last_end_range _ _ He)) as (_ & N2 & _). rewrite <- En in N2.
  destruct (file_pages s root v w (Length n) p1 a1 Hmem ltac:(lia) Hr1 Ha1) as (k1 & -> & K1 & F1 & Mk1 & Sl1 & Hmap).
  destruct (Hmap RWUS flags_ok_RWUS) as (m1 & Em1 & Hm1).
  destruct (program_pages s root v w (Length n) p1 p2 k1 m1 npages a2 Hmem N2 Mk1 Sl1 Hm1 Hr2 Ha2) as (k2 & -> & K2 & K3 & F2 & (m2 & Em2 & Htr) & Hmk).
  set (rest := file_rest n (k1 * 4096) data). destruct (header_ok data rest _ _ _ _ Hef) as ((t & E1 & E2 & E3) & E4 & E5 & E6 & E7 & E8).
  assert (bytes_ok (data ++ rest)) as Hb.
  { apply Forall_app. split; [apply (of_bytes _ _ _ _ _ _ _ Hop)|]. apply Forall_drop, residue_bytes. }
  destruct (segments_loaded data rest phoff phnum entry npages (k2 * 4096) (residue (k2 * 4096) (Z.to_nat (npages * PAGE_SIZE))) Hef Hb)
    as (image & Ei & I1 & I2 & _); [lia|lia|lia|by rewrite length_residue|].
  exists (opened_with v w s m2 p2), image, k1, k2. split_and!; try done.
  unfold ExecuteELF. rewrite (read_file_ok _ _ _ _ _ _ _ _ _ Hop Hr1 Ha1). cbn [bind ld_bytes]. fold rest.
  rewrite E1, E2. cbn [bind]. rewrite decide_True by done. unfold elf_load, elf_map_file. cbn [ld_bytes ld_address ld_length].
  fold RWUS. fold (opened_with v w s (v_ram (s_vmm s)) p1). rewrite Em1. cbn [bind negb].
  rewrite E4, E5. cbn [bind]. rewrite Nat2Z.id, image_end_ok, E8, He by done. cbn [bind]. rewrite <- En. unfold request_pages.
  change (v_pfa (s_vmm (opened_with v w s m1 p1))) with p1. rewrite Hr2. cbn [bind]. unfold elf_map_program. fold RWUS.
  change (with_vmm (opened_with v w s m1 p1) _) with (opened_with v w s m1 p2). rewrite Em2. cbn [bind negb].
  rewrite decide_False by lia. rewrite Ei. cbn [bind]. change (s_vfs (opened_with v w s m2 p2)) with v.
  rewrite (Close_ok v) by apply (of_lock _ _ _ _ _ _ _ Hop). cbn [bind]. by rewrite E6.
Qed.

(** ** What is refused *)

(** The pages of the file are given back. *)
Lemma release_file_ok s v w file n k m p1 : pfa_ok (v_pfa (s_vmm s)) -> VFSLock v = false -> 0 <= Length n < 2 ^ 64 ->
  free_run (v_pfa (s_vmm s)) k (pages_for (Length n)) -> marked (v_pfa (s_vmm s)) p1 k (pages_for (Length n)) true ->
  forall data, exists p3, release_file (opened_with v w s m p1) (mk_loaded file (Length n) (k * 4096) data) = Ok (opened_with v w s m p3) /\
    pfa_ok p3 /\ pages p3 = pages (v_pfa (s_vmm s)) /\
    forall j, 0 <= j < pages (v_pfa (s_vmm s)) -> in_use p3 j = in_use (v_pfa (s_vmm s)) j.
Proof.
  intros Hpfa Hl Hn (F1 & F2 & F3) Mk data. destruct (pages_for_small (Length n) Hn) as (_ & N1 & _). pose proof (mk_pages _ _ _ _ _ Mk) as Hp.
  destruct (FreePages_ok p1 k (pages_for (Length n)) (mk_ok _ _ _ _ _ Mk) F1 ltac:(lia) ltac:(lia)) as (p3 & E & Mk3 & _).
  exists p3. unfold release_file, free_pages. cbn [ld_address ld_length ld_file]. change (v_pfa (s_vmm (opened_with v w s m p1))) with p1.
  rewrite E. cbn [bind]. change (with_vmm (opened_with v w s m p1) _) with (opened_with v w s m p3).
  change (s_vfs (opened_with v w s m p3)) with v. rewrite Close_ok by done. split_and!; [done|apply Mk3|by rewrite (mk_pages _ _ _ _ _ Mk3)|].
  intros j Hj. rewrite (mk_bits _ _ _ _ _ Mk3) by lia. case_decide; [symmetry; by apply F3|]. rewrite (mk_bits _ _ _ _ _ Mk), decide_False by done. done.
Qed.

(** C40 The ELF loader refuses every program that is not for user mode: for the
    elevations of the kernel its first switch falls through to the error.  It refuses as
    well what is not a 64-bit file or not of a type to execute.  Then the answer is zero, no memory
    is kept, and the marks of the allocator are those of before. *)
Theorem elf_refused s Path file n v w data root Elevation class type p1 a1 :
  opens_file s Path file n v w data -> memory_ok s root ->
  e_ident data EI_CLASS = Ok class -> e_type data = Ok type ->
  Elevation <> User \/ class <> ELFCLASS64 \/ ~ (type = ET_EXEC \/ type = ET_DYN \/ type = ET_REL) ->
  RequestPages (v_pfa (s_vmm s)) (pages_for (Length n)) = Ok (p1, a1) -> a1 <> 0 ->
  exists s', ExecuteELF operators s Path Elevation = Ok (s', no_program, []) /\
    forall j, 0 <= j < pages (v_pfa (s_vmm s)) -> in_use (v_pfa (s_vmm s')) j = in_use (v_pfa (s_vmm s)) j.
Proof.
  intros Hop Hmem Hc Ht Hno Hr Ha. destruct (of_length _ _ _ _ _ _ _ Hop) as [L1 L2].
  destruct (file_pages s root v w (Length n) p1 a1 Hmem ltac:(lia) Hr Ha) as (k & -> & K & F & Mk & Sl & Hmap).
  pose proof (fk_pfa _ (tk_frames _ _ (mo_tables _ _ Hmem))) as Hpfa. pose proof (of_lock _ _ _ _ _ _ _ Hop) as Hl.
  unfold ExecuteELF. rewrite (read_file_ok _ _ _ _ _ _ _ _ _ Hop Hr Ha). cbn [bind ld_bytes].
  unfold e_ident, e_type in *. rewrite !(field_app _ _ _ _ _ _ Hc), !(field_app _ _ _ _ _ _ Ht). cbn [bind].
  fold (opened_with v w s (v_ram (s_vmm s)) p1). set (b := data ++ _).
  pose proof (fun m => release_file_ok s v w file n k m p1 Hpfa Hl ltac:(lia) F Mk b) as Hrel.
  assert (forall m, exists s', (let* '(s, r) := refuse (opened_with v w s m p1) (mk_loaded file (Length n) (k * 4096) b) in Ok (s, r, [])) = Ok (s', no_program, @nil Z) /\
    forall j, 0 <= j < pages (v_pfa (s_vmm s)) -> in_use (v_pfa (s_vmm s')) j = in_use (v_pfa (s_vmm s)) j) as Href.
  { intros m. destruct (Hrel m) as (p3 & E & _ & _ & Hm). exists (opened_with v w s m p3). unfold refuse. rewrite E. by split. }
  case_decide as Hd; [|apply Href]. destruct Hno as [He|[?|?]]; [|tauto|tauto].
  destruct (Hmap PT_RW flags_ok_RW) as (m1 & Em & _). unfold elf_load, elf_map_file. cbn [ld_bytes ld_address ld_length].
  destruct Elevation; try done; try apply Href; rewrite Em; cbn [bind negb]; apply Href.
Qed.

End files.

(** ** The type of a file *)

(** [w] at offset [o]. *)
Definition has_at (b : list Z) (o : nat) (w : list Z) : Prop := slice o (length w) b = w.

#[export] Instance has_at_dec b o w : Decision (has_at b o w).
Proof. unfold has_at. apply _. Defined.







Section types.
Context {W : Type} (operators : Z -> FileSystemOpeations W) `{HW : Hardware} `{PL : PageContentsLaws}.

End types.

(** ** A sample system *)

(** Sixteen frames with the tables for the first 2 MiB of addresses. *)
Definition sample_space : vmm :=
  match MapMemory (2 * 4096) sample_vmm 0x5000 0x5000 RWUS 0 with Ok v => v | Err _ => sample_vmm end.

Lemma sample_space_mapped : MapMemory (2 * 4096) sample_vmm 0x5000 0x5000 RWUS 0 = Ok sample_space /\
  mapped sample_vmm sample_space 2 0x5000 (wrapu 40 (Z.shiftr 0x5000 12)) RWUS.
Proof.
  destruct (map_page sample_vmm 2 0x5000 0x5000 RWUS) as (v & E & Hm); [apply sample_tables|done|vm_compute; lia|].
  unfold sample_space. rewrite E. exact (conj eq_refl Hm).
Qed.

Definition sample_machine (k : kernel) : machine :=
  mk_machine ∅ ∅ ∅ ∅ Vector.Vector_new (mk_cpu 0 0 0 0 0 (replicate 512 0) true)
    (mk_Multitasking Vector.Vector_new 0 0 0 0) NoTasking false None k ∅ [] 0.

(** A file system with a single file, whose contents are the world. *)
Definition plain_file (_ : Z) : FileSystemOpeations (list Z) :=
  mk_operations (Some (fun w _ Offset Size Buffer => let* b := memcpy Buffer (drop (Z.to_nat Offset) w) Size in Ok (w, Size, b))) None.

Definition sample_files (length : Z) : Virtual :=
  match (let* v := boot ["/prog"%string] in let* v := update v 3 (set_Flags FS_FILE) in update v 3 (set_Contents 0 length)) with
  | Ok v => v
  | Err _ => mk_Virtual ∅ 0 0 false
  end.

Definition sample_system (data : list Z) : system (W := list Z) :=
  mk_system (sample_files (Z.of_nat (length data))) data (sample_machine (mk_kernel sample_space (2 * 4096) (2 * 4096) true (2 * 4096) (2 * 4096) (2 * 4096))).

#[local] Instance sample_contents : PageContents := {| residue := fun _ n => replicate n 0xAA; after_name := replicate 256 0 |}.

#[local] Instance sample_contents_laws : PageContentsLaws sample_contents.
Proof.
  split; intros a n; cbn; [by rewrite length_replicate|]. apply Forall_forall. intros x Hx. apply elem_of_replicate in Hx as [-> _]. lia.
Qed.

Lemma read_plain v w file n buf : VFSLock v = false -> f_Node file <> 0 -> deref v (f_Node file) = Ok n -> Operator n <> 0 ->
  Length n = Z.of_nat (length w) -> (length w <= length buf)%nat ->
  exists file' r, Read plain_file v w (Some file) 0 buf (Length n) = Ok (v, (w, file', r, w ++ drop (length w) buf)).
Proof.
  intros Hl Hf Hn Ho Hlen Hb. do 2 eexists. unfold Read, SMART_LOCK, checked. rewrite Hl. cbn [set_Status f_Node]. rewrite decide_False by done.
  change (deref (set_lock v true) (f_Node file)) with (deref v (f_Node file)). rewrite Hn. cbn [bind]. rewrite decide_False by done. cbn [bind nonnull op_Read plain_file].
  change (Z.to_nat 0) with 0%nat. rewrite drop_0, Hlen, memcpy_ok by lia. cbn [bind]. rewrite Nat2Z.id, take_ge by lia.
  destruct v. cbn in *. subst. reflexivity.
Qed.

Lemma sample_memory data : memory_ok (sample_system data) 2.
Proof.
  destruct sample_space_mapped as [E Hm]. split.
  - exact (mp_ok _ _ _ _ _ _ Hm).
  - reflexivity.
  - change (s_vmm (sample_system data)) with sample_space. unfold sealed. clear. vm_compute. done.
  - change (s_vmm (sample_system data)) with sample_space. clear. vm_compute. discriminate.
  - change (s_vmm (sample_system data)) with sample_space. intros x Hx.
    assert (pages (v_pfa sample_space) = 16) as Ep by (vm_compute; reflexivity). rewrite Ep in Hx. unfold has_tables. rewrite (path_region x 0x5000) by (rewrite Z.div_small by lia; done).
    destruct (mp_page _ _ _ _ _ _ Hm) as (es & Hw & _). rewrite <- (take_drop 3 (path 0x5000)) in Hw.
    destruct (walk_prefix _ 2 (take 3 (path 0x5000)) _ _ _ ltac:(by apply prefix_app_r) Hw) as (g & es1 & es2 & -> & _). by eexists.
Qed.

(** A program with one segment of 8 bytes and 24 zeros at 0x10. *)
Definition sample_elf (class : Z) : list Z :=
  ELFMAG ++ [class] ++ Bytes.le 11 0 ++ Bytes.le 2 ET_EXEC ++ Bytes.le 6 0 ++ Bytes.le 8 0x10 ++ Bytes.le 8 64 ++ Bytes.le 16 0 ++ Bytes.le 2 1 ++ Bytes.le 6 0 ++
  Bytes.le 4 PT_LOAD ++ Bytes.le 4 5 ++ Bytes.le 8 120 ++ Bytes.le 8 0x10 ++ Bytes.le 8 0x10 ++ Bytes.le 8 8 ++ Bytes.le 8 32 ++ Bytes.le 8 4096 ++ [1; 2; 3; 4; 5; 6; 7; 8].

Lemma sample_loads : loads (sample_elf 2) 64 1 = [mk_segment 1 120 0x10 8 32].
Proof. vm_compute. reflexivity. Qed.

Lemma sample_elf_ok : elf_file (sample_elf 2) 64 1 0x10 1.
Proof.
  split; rewrite ?sample_loads.
  - vm_compute. reflexivity.
  - exists ET_EXEC. split; [vm_compute; reflexivity|by left].
  - vm_compute. reflexivity.
  - vm_compute. reflexivity.
  - vm_compute. reflexivity.
  - vm_compute. lia.
  - exists 0x30. split; vm_compute; reflexivity.
  - constructor; [|by constructor]. unfold segment_ok. change (length (sample_elf 2)) with 128%nat. cbn. lia.
  - repeat constructor.
Qed.

Definition sample_handle : FILE := mk_FILE (Some (bytes_of "prog")) OK 3.
Definition sample_node : FileSystemNode := match deref (sample_files 128) 3 with Ok n => n | Err _ => new_node end.

Lemma sample_open : Open (sample_files 128) (bytes_of "/prog") 0 = Ok (sample_files 128, sample_handle).
Proof. vm_compute. reflexivity. Qed.

Lemma sample_deref : deref (sample_files 128) 3 = Ok sample_node.
Proof. vm_compute. reflexivity. Qed.

Lemma sample_node_ok : Flags sample_node = FS_FILE /\ Length sample_node = 128 /\ Operator sample_node = 1 /\ VFSLock (sample_files 128) = false.
Proof. vm_compute. done. Qed.

Lemma sample_opens data : length data = 128%nat -> bytes_ok data ->
  opens_file plain_file (sample_system data) (bytes_of "/prog") sample_handle sample_node (sample_files 128) data data.
Proof.
  intros Hl Hb. destruct sample_node_ok as (H1 & H2 & H3 & H4). unfold sample_system. rewrite Hl. change (Z.of_nat 128) with 128. split.
  - exact sample_open.
  - reflexivity.
  - exact sample_deref.
  - exact H1.
  - exact H4.
  - rewrite Hl, H2. split; [reflexivity|lia].
  - exact Hb.
  - intros buf Hbuf. apply read_plain; [exact H4|discriminate|exact sample_deref|by rewrite H3|by rewrite H2, Hl|exact Hbuf].
Qed.

(** The allocator after the pages of the file, and after those of the program. *)
Definition sample_p1 : PageFrameAllocator :=
  match RequestPages (v_pfa sample_space) (pages_for 128) with Ok (p, _) => p | Err _ => v_pfa sample_space end.
Definition sample_p2 : PageFrameAllocator := match RequestPages sample_p1 1 with Ok (p, _) => p | Err _ => sample_p1 end.

Lemma sample_request1 data : RequestPages (v_pfa (s_vmm (sample_system data))) (pages_for (Length sample_node)) = Ok (sample_p1, 0x5000).
Proof. change (s_vmm (sample_system data)) with sample_space. vm_compute. reflexivity. Qed.

Lemma sample_request2 : RequestPages sample_p1 1 = Ok (sample_p2, 0x6000).
Proof. vm_compute. reflexivity. Qed.

Lemma elf_loaded_witness : exists s' image, ExecuteELF plain_file (sample_system (sample_elf 2)) (bytes_of "/prog") User = Ok (s', mk_Ret 0x6000 0x10, image) /\
  image !! 0x13%nat = Some 4 /\ image !! 0x1F%nat = Some 0.
Proof.
  destruct (elf_loaded plain_file (sample_system (sample_elf 2)) (bytes_of "/prog") sample_handle sample_node (sample_files 128) (sample_elf 2) (sample_elf 2) 2 64 1 0x10 1 sample_p1 0x5000 sample_p2 0x6000)
    as (s' & image & k1 & k2 & E & _ & _ & _ & _ & Hp & _).
  - apply sample_opens; [reflexivity|apply (bool_decide_unpack _); vm_compute; exact I].
  - exact sample_elf_ok.
  - apply sample_memory.
  - apply sample_request1.
  - discriminate.
  - exact sample_request2.
  - discriminate.
  - exists s', image. split; [exact E|]. 
    set (t := mk_segment 1 120 0x10 8 32). assert (t ∈ loads (sample_elf 2) 64 1) as Ht by (rewrite sample_loads; left).
    split; [exact (pl_segments _ _ _ _ _ _ _ _ _ Hp t 3 Ht ltac:(cbn; lia))|exact (pl_segments _ _ _ _ _ _ _ _ _ Hp t 15 Ht ltac:(cbn; lia))].
Defined.

Lemma elf_refused_witness : exists s', ExecuteELF plain_file (sample_system (sample_elf 2)) (bytes_of "/prog") System = Ok (s', no_program, []).
Proof.
  destruct (elf_refused plain_file (sample_system (sample_elf 2)) (bytes_of "/prog") sample_handle sample_node (sample_files 128) (sample_elf 2) (sample_elf 2) 2
    System ELFCLASS64 ET_EXEC sample_p1 0x5000) as (s' & E & _).
  - apply sample_opens; [reflexivity|apply (bool_decide_unpack _); vm_compute; exact I].
  - apply sample_memory.
  - vm_compute. reflexivity.
  - vm_compute. reflexivity.
  - left. discriminate.
  - apply sample_request1.
  - discriminate.
  - exists s'. exact E.
Defined.

