(* ===== verification/Disk.v ===== *)
(** * Disks, partitions and the detection of file systems

    src/kernel/drivers/storage/ahci.cpp (the detection of drives and the transfer
    of sectors), src/kernel/drivers/disk.cpp (partition tables) and
    src/kernel/filesystem/fs/fat.cpp and ext2.cpp (which file system a partition
    has).  The controller is the class of its registers; a transfer is the
    command it is given, and the controller writes to memory.  The buffer of a
    drive is the null pointer, which is an address like others here, as the
    kernel maps all memory from 0 on. *)

From S2P Require Import Prelude CString Bytes Printf PageFrame Cwalk Vfs Ustar Elf.

Local Open Scope Z_scope.

(** ** Loops with a bound in binary *)

(** At most [n] steps of [f], until it gives a result. *)
Fixpoint loop {S A} (n : positive) (f : S -> S + A) (s : S) : S + A :=
  match n with
  | xH => f s
  | xO n => match loop n f s with inl s => loop n f s | r => r end
  | xI n => match f s with
            | inl s => match loop n f s with inl s => loop n f s | r => r end
            | r => r
            end
  end.

Definition result {S A} (r : S + A) : res A := match r with inl _ => Err OutOfFuel | inr a => Ok a end.

(** ** The controller *)

(** A command: the header in slot 0, the entry of its table and the frame. *)
Record command := mk_command {
  CommandFISLength : Z;
  c_Write : bool;
  PRDTLength : Z;
  DataBaseAddress : Z;
  DataBaseAddressUpper : Z;
  ByteCount : Z;
  InterruptOnCompletion : Z;
  FISType : Z;
  CommandControl : Z;
  Command : Z;
  LBA0 : Z; LBA1 : Z; LBA2 : Z; LBA3 : Z; LBA4 : Z; LBA5 : Z;
  DeviceRegister : Z;
  CountLow : Z;
  CountHigh : Z
}.

(** The registers of a port that the code reads and writes: [poll] is what
    happens until the next read, [issue] stores 1 to [CommandIssue] with the
    command in slot 0.  [memory d a n] are [n] bytes of memory at [a]. *)
Class Controller (D : Type) := {
  TaskFileData : D -> Z;
  CommandIssue : D -> Z;
  InterruptStatus : D -> Z;
  poll : D -> D;
  set_InterruptStatus : D -> Z -> D;
  issue : D -> command -> D;
  memory : D -> Z -> nat -> list Z
}.

Definition ATA_DEV_BUSY : Z := 0x80.
Definition ATA_DEV_DRQ : Z := 0x08.
Definition ATA_CMD_WRITE_DMA_EX : Z := 0x35.
Definition ATA_CMD_READ_DMA_EX : Z := 0x25.
Definition HBA_PxIS_TFES : Z := Z.shiftl 1 30.
Definition FIS_TYPE_REG_H2D : Z := 0x27.

Inductive PortType := NoPort | SATA | SEMB | PM | SATAPI.

#[export] Instance PortType_eq : EqDecision PortType.
Proof. solve_decision. Defined.

(** [SATAPI] as the number that the enumeration gives it. *)
Definition SATAPI_number : Z := 4.

(** [class Port]: whether [HBAPortPtr] is set, the type and the number. *)
Record Port := mk_Port { HBAPortPtr : bool; AHCIPortType : PortType; PortNumber : Z }.

(** ** Detection of drives *)

Definition SATA_SIG_ATAPI : Z := 0xEB140101.
Definition SATA_SIG_ATA : Z := 0x00000101.
Definition SATA_SIG_SEMB : Z := 0xC33C0101.
Definition SATA_SIG_PM : Z := 0x96690101.
Definition HBA_PORT_DEV_PRESENT : Z := 3.
Definition HBA_PORT_IPM_ACTIVE : Z := 1.

(** From the registers [SataStatus] and [Signature]. *)
Definition CheckPortType (SataStatus Signature : Z) : PortType :=
  if decide (Z.land SataStatus 7 <> HBA_PORT_DEV_PRESENT) then NoPort
  else if decide (Z.land (u8 (Z.shiftr SataStatus 8)) 7 <> HBA_PORT_IPM_ACTIVE) then NoPort
  else if decide (Signature = SATA_SIG_ATAPI) then SATAPI
  else if decide (Signature = SATA_SIG_ATA) then SATA
  else if decide (Signature = SATA_SIG_PM) then PM
  else if decide (Signature = SATA_SIG_SEMB) then SEMB
  else NoPort.

(** The loop of [ProbePorts] from bit [i] on; [ports] has the two registers of
    each port, and the result is [Ports], of length [PortCount]. *)
Fixpoint probe_ports (implemented : Z) (ports : list (Z * Z)) (i : Z) (found : list Port) (n : nat) : list Port :=
  match n with
  | O => found
  | S n =>
      let found :=
        if Z.testbit implemented i then
          let '(status, signature) := nth (Z.to_nat i) ports (0, 0) in
          match CheckPortType status signature with
          | (SATA | SATAPI) as t => found ++ [mk_Port true t (u8 (Z.of_nat (length found)))]
          | _ => found
          end
        else found in
      probe_ports implemented ports (i + 1) found n
  end.

Definition ProbePorts (PortsImplemented : Z) (ports : list (Z * Z)) : list Port := probe_ports PortsImplemented ports 0 [] 32.

(** ** Transfers *)

Section controller.
Context {D : Type} `{Controller D}.

(** [while ((TaskFileData & (BUSY | DRQ)) && Spin < 1000000) Spin++]: [Spin]. *)
Definition ready_step (s : D * Z) : D * Z + D * Z :=
  let '(d, Spin) := s in
  if decide (Z.land (TaskFileData d) (Z.lor ATA_DEV_BUSY ATA_DEV_DRQ) <> 0 /\ Spin < 1000000) then inl (poll d, Spin + 1)
  else inr (poll d, Spin).

(** One turn of the loop that waits for the end of the command. *)
Definition done_step (s : D * Z * Z) : D * Z * Z + D * bool :=
  let '(d, Spin, TryCount) := s in
  let late := bool_decide (100000000 < Spin) in
  let Spin := if late then 0 else Spin in
  let TryCount := if late then TryCount + 1 else TryCount in
  if late && bool_decide (10 < TryCount) then inr (d, false)
  else if decide (CommandIssue d = 0) then inr (poll d, true)
  else
    let d := poll d in
    if decide (Z.land (InterruptStatus d) HBA_PxIS_TFES <> 0) then inr (poll d, false)
    else inl (poll d, Spin + 1, TryCount).

(** The command for a transfer. *)
Definition transfer (Sector SectorCount Buffer : Z) (Write : bool) : command :=
  let SectorL := u32 Sector in
  let SectorH := u32 (Z.shiftr Sector 32) in
  mk_command (20 / 4) Write 1 (u32 Buffer) (u32 (Z.shiftr Buffer 32)) (wrapu 22 (u32 (u32 (Z.shiftl SectorCount 9) - 1))) 1
    FIS_TYPE_REG_H2D 1 (if Write then ATA_CMD_WRITE_DMA_EX else ATA_CMD_READ_DMA_EX)
    (u8 SectorL) (u8 (Z.shiftr SectorL 8)) (u8 (Z.shiftr SectorL 16))
    (u8 SectorH) (u8 (Z.shiftr SectorH 8)) (u8 (Z.shiftr SectorH 16))
    (Z.shiftl 1 6) (Z.land SectorCount 0xFF) (Z.land (Z.shiftr SectorCount 8) 0xFF).

(** [SectorCount] has 32 bits. *)
Definition ReadWrite (p : Port) (d : D) (Sector SectorCount Buffer : Z) (Write : bool) : res (D * bool) :=
  if bool_decide (PortNumber p = SATAPI_number) && Write then Ok (d, false)
  else if negb (HBAPortPtr p) then Err NullDeref
  else
    let d := set_InterruptStatus d (u32 (-1)) in
    let* '(d, Spin) := result (loop 1000001 ready_step (d, 0)) in
    if decide (Spin = 1000000) then Ok (d, false)
    else result (loop 1300000000 done_step (issue d (transfer Sector SectorCount Buffer Write), 0, 0)).

(** ** Partitions *)

Inductive PartitionStyle := UnknownStyle | MBR | GPT.

Definition Present : Z := 0.
Definition EFISystemPartition : Z := 2.

Record Part := mk_Part {
  Label : list Z;
  StartLBA : Z;
  EndLBA : Z;
  Sectors : Z;
  Part_Flags : Z;
  Part_Style : PartitionStyle;
  Index : Z;
  Part_Port : Port
}.

Definition part_read_write (write : bool) (q : Part) (d : D) (Offset Count Buffer : Z) : res (D * Z) :=
  if negb (HBAPortPtr (Part_Port q)) then Ok (d, 0)
  else if decide (Sectors q < u64 (Offset + Count)) then Ok (d, 0)
  else
    let* '(d, _) := ReadWrite (Part_Port q) d (u64 (StartLBA q + Offset)) (u32 Count) Buffer write in
    Ok (d, Count).

(** [Part::Read] and [Part::Write]. *)
Definition Part_Read := part_read_write false.
Definition Part_Write := part_read_write true.

Definition MBR_MAGIC : list Z := [0x55; 0xAA].
Definition GPT_MAGIC : Z := 0x5452415020494645.
Definition sizeof_PartitionTable : nat := 604.

(** The members of [MasterBootRecordPartition] [p] of the table. *)
Definition mbr_LBAFirst (t : list Z) (p : Z) : res Z := field 4 t (446 + 16 * p) 8.
Definition mbr_Sectors (t : list Z) (p : Z) : res Z := field 4 t (446 + 16 * p) 12.
Definition mbr_Signature (t : list Z) (i : Z) : res Z := field 1 t 510 i.

(** Those of [GUIDPartitionTable], behind the first sector, and of an entry. *)
Definition gpt_Signature (t : list Z) : res Z := field 8 t 512 0.
Definition gpt_PartCount (t : list Z) : res Z := field 4 t 512 80.
Definition gpt_EntrySize (t : list Z) : res Z := field 4 t 512 84.
Definition sizeof_GPTPartition : Z := 128.
Definition g_TypeLow (b : list Z) : res Z := field 8 b 0 0.
Definition g_TypeHigh (b : list Z) : res Z := field 8 b 0 8.
Definition g_StartLBA (b : list Z) : res Z := field 8 b 0 32.
Definition g_EndLBA (b : list Z) : res Z := field 8 b 0 40.
Definition g_Attributes (b : list Z) : res Z := field 8 b 0 48.
Definition g_Label (b : list Z) : list Z := slice 56 72 b.

(** A partition from its entry; [None] where the entry is not used. *)
Definition gpt_part (port : Port) (index : Z) (b : list Z) : res (option Part) :=
  let* low := g_TypeLow b in
  let* high := g_TypeHigh b in
  if decide (low = 0 /\ high = 0) then Ok None
  else
    let* start := g_StartLBA b in
    let* end_ := g_EndLBA b in
    let* attributes := g_Attributes b in
    Ok (Some (mk_Part (g_Label b) start end_ (u64 (end_ - start))
      (if decide (Z.land attributes 1 <> 0) then Z.lor Present EFISystemPartition else Present) GPT index port)).

Definition mbr_part (port : Port) (index : Z) (t : list Z) (p : Z) : res (option Part) :=
  let* first := mbr_LBAFirst t p in
  if decide (first = 0) then Ok None
  else
    let* n := mbr_Sectors t p in
    Ok (Some (mk_Part (bytes_of "Unidentified Partition") first (u32 (first + n)) n Present MBR index port)).

(** ** The state of the disk manager *)

(** The controller, the file system with the directories for devices and
    mounted file systems, the page allocator, and the number of drives. *)
Record disks := mk_disks {
  k_dev : D;
  k_vfs : Virtual;
  k_devfs : mountpoint;
  k_mountfs : mountpoint;
  k_pfa : PageFrameAllocator;
  drives : Z
}.

Definition with_dev (s : disks) d := mk_disks d (k_vfs s) (k_devfs s) (k_mountfs s) (k_pfa s) (drives s).
Definition with_pfa (s : disks) p := mk_disks (k_dev s) (k_vfs s) (k_devfs s) (k_mountfs s) p (drives s).
Definition with_devfs (s : disks) v mp := mk_disks (k_dev s) v mp (k_mountfs s) (k_pfa s) (drives s).
Definition with_mountfs (s : disks) v mp := mk_disks (k_dev s) v (k_devfs s) mp (k_pfa s) (drives s).

(** Operators of block devices and of the two file systems. *)
Definition sata_disk : Z := 10.
Definition fat : Z := 11.
Definition ext2 : Z := 12.

(** [sprintf_] to a buffer, and the text there. *)
Definition sprintf_to (buffer : list Z) (format : cstr) (args : list va_arg) : res (list Z) :=
  let* '(g, _, _) := sprintf_ (replicate 32 0) (Some buffer) format args in nonnull (g_buffer g).

Definition add_device (s : disks) (name : list Z) : res disks :=
  let* text := cstring name in
  let* '(v, mp, _) := AddFileSystem (k_vfs s) (k_devfs s) sata_disk 438 text FS_BLOCKDEVICE in
  Ok (with_devfs s v mp).

(** The device of partition [index] of the drive just added. *)
Definition add_partition_device (s : disks) (index : Z) : res disks :=
  let* name := sprintf_to (replicate 64 0) (bytes_of "sd%ldp%ld") [ALong (drives s - 1); ALong index] in
  add_device s name.

(** A partition that was found, or not, put behind the others. *)
Definition add_part (s : disks) (parts : list Part) (q : option Part) : res (disks * list Part) :=
  match q with
  | None => Ok (s, parts)
  | Some q => let* s := add_partition_device s (Index q) in Ok (s, parts ++ [q])
  end.

Fixpoint gpt_block (s : disks) (port : Port) (e : Z) (n : nat) (parts : list Part) : res (disks * list Part) :=
  match n with
  | O => Ok (s, parts)
  | S n =>
      let* q := gpt_part port (Z.of_nat (length parts)) (memory (k_dev s) (sizeof_GPTPartition * e) 128) in
      let* '(s, parts) := add_part s parts q in
      gpt_block s port (e + 1) n parts
  end.

Fixpoint gpt_blocks (s : disks) (port : Port) (Entries Block : Z) (n : nat) (parts : list Part) : res (disks * list Part) :=
  match n with
  | O => Ok (s, parts)
  | S n =>
      let* '(d, _) := ReadWrite port (k_dev s) (u32 (2 + Block)) 1 0 false in
      let* '(s, parts) := gpt_block (with_dev s d) port 0 (Z.to_nat Entries) parts in
      gpt_blocks s port Entries (Block + 1) n parts
  end.

Fixpoint mbr_parts (s : disks) (port : Port) (t : list Z) (p : Z) (n : nat) (parts : list Part) : res (disks * list Part) :=
  match n with
  | O => Ok (s, parts)
  | S n =>
      let* q := mbr_part port (Z.of_nat (length parts)) t p in
      let* '(s, parts) := add_part s parts q in
      mbr_parts s port t (p + 1) n parts
  end.

(** The partitions of a drive whose table is [t]. *)
Definition find_partitions (s : disks) (port : Port) (t : list Z) : res (disks * list Part * PartitionStyle) :=
  let* signature := gpt_Signature t in
  if decide (signature = GPT_MAGIC) then
    let* size := gpt_EntrySize t in
    let* count := gpt_PartCount t in
    if decide (size = 0) then Err DivByZero
    else
      let Entries := 512 / size in
      if decide (Entries = 0) then Err DivByZero
      else
        let* '(s, parts) := gpt_blocks s port Entries 0 (Z.to_nat (count / Entries)) [] in
        Ok (s, parts, GPT)
  else
    let* m0 := mbr_Signature t 0 in
    let* m1 := mbr_Signature t 1 in
    if decide ([m0; m1] = MBR_MAGIC) then
      let* '(s, parts) := mbr_parts s port t 0 4 [] in
      Ok (s, parts, MBR)
    else Ok (s, [], UnknownStyle).

(** ** Which file system a partition has *)

(** [BIOSParameterBlock] *)
Definition JumpBoot (b : list Z) (i : Z) : res Z := field 1 b 0 i.
Definition OEM (b : list Z) : list Z := slice 3 8 b.
Definition BytesPerSector (b : list Z) : res Z := field 2 b 0 11.
Definition SectorsPerCluster (b : list Z) : res Z := field 1 b 0 13.
Definition ReservedSectors (b : list Z) : res Z := field 2 b 0 14.
Definition NumberOfFATs (b : list Z) : res Z := field 1 b 0 16.
Definition RootDirectoryEntries (b : list Z) : res Z := field 2 b 0 17.
Definition Sectors16 (b : list Z) : res Z := field 2 b 0 19.
Definition Media (b : list Z) : res Z := field 1 b 0 21.
Definition Sectors32 (b : list Z) : res Z := field 4 b 0 32.

Inductive FatType := UnknownFat | FAT12 | FAT16 | FAT32.

(** [GetFATType] from the members of the block. *)
Definition fat_type (jump0 jump2 bytes cluster reserved fats root sectors16 media sectors32 : Z) : FatType :=
  if decide (bytes = 0) then UnknownFat
  else if decide (cluster = 0) then UnknownFat
  else if decide (jump0 = 0xEB /\ jump2 <> 0x90) then UnknownFat
  else if decide (jump0 <> 0xEB /\ jump0 <> 0xE9) then UnknownFat
  else if decide (media <> 0xF0 /\ media < 0xF8) then UnknownFat
  else
    let Size := if decide (sectors16 <> 0) then sectors16 else sectors32 in
    let Sectors := if decide (sectors16 <> 0) then sectors16 else sectors32 in
    if decide (bytes <> 512 /\ bytes <> 1024 /\ bytes <> 2048 /\ bytes <> 4096) then UnknownFat
    else if decide (32 * 1024 < cluster * bytes) then UnknownFat
    else if decide (reserved = 0) then UnknownFat
    else if decide (fats < 2) then UnknownFat
    else
      let Clusters := u32 (Sectors - u32 (u32 (reserved + u32 (fats * Size)) + (root * 32 + (bytes - 1)) / bytes)) / cluster in
      if decide (Clusters < 4085) then FAT12
      else if decide (Clusters < 65525) then FAT16
      else if decide (root <> 0) then UnknownFat
      else if decide (sectors16 <> 0) then UnknownFat
      else if decide (sectors32 = 0) then UnknownFat
      else FAT32.

Definition GetFATType (b : list Z) : res FatType :=
  let* jump0 := JumpBoot b 0 in
  let* jump2 := JumpBoot b 2 in
  let* bytes := BytesPerSector b in
  let* cluster := SectorsPerCluster b in
  let* reserved := ReservedSectors b in
  let* fats := NumberOfFATs b in
  let* root := RootDirectoryEntries b in
  let* sectors16 := Sectors16 b in
  let* media := Media b in
  let* sectors32 := Sectors32 b in
  Ok (fat_type jump0 jump2 bytes cluster reserved fats root sectors16 media sectors32).

(** [Mount::MountFileSystem]; [Name] is the array that holds the name. *)
Definition MountFileSystem (s : disks) (Operator Mode : Z) (Name : list Z) : res disks :=
  let* text := cstring Name in
  let* empty := isempty text in
  let* Name := if decide (empty <> 0) then sprintf_to Name (bytes_of "mount%lu") [ALong (mp_count (k_mountfs s))] else Ok Name in
  let* text := cstring Name in
  let* '(v, mp, _) := AddFileSystem (k_vfs s) (k_mountfs s) Operator Mode text FS_MOUNTPOINT in
  Ok (with_mountfs s v mp).

(** A new page with [count] sectors of the partition, and what it holds. *)
Definition read_sectors (s : disks) (q : Part) (first count : Z) : res (disks * Z * list Z) :=
  let* '(p, buffer) := RequestPage (k_pfa s) in
  let* '(d, _) := Part_Read q (k_dev s) first count buffer in
  Ok (with_dev (with_pfa s p) d, buffer, memory d buffer 4096).

Definition release_buffer (s : disks) (buffer : Z) : res disks :=
  let* p := FreePage (k_pfa s) buffer in Ok (with_pfa s p).

(** The constructor [FAT::FAT]: [namebuf] has eight bytes. *)
Definition FAT_new (s : disks) (q : Part) : res disks :=
  let* '(s, buffer, b) := read_sectors s q 0 1 in
  let* type := GetFATType b in
  let* s :=
    match type with
    | UnknownFat => Ok s
    | _ => let* namebuf := memcpy (replicate 8 0) (OEM b) 8 in MountFileSystem s fat 438 namebuf
    end in
  release_buffer s buffer.

Definition EXT2_MAGIC : Z := 0xEF53.
Definition sizeof_SuperBlock : nat := 1024.
Definition Magic (sb : list Z) : res Z := field 2 sb 0 56.
Definition off_VolumeName : nat := 120.

(** The loop over the name: a slash becomes an underscore. *)
Fixpoint clean_name (name : cstr) (i : nat) (Cleand : list Z) : res (list Z) :=
  match name with
  | [] => Ok Cleand
  | c :: name => let* Cleand := aset Cleand i (if decide (c = 47) then 95 else c) in clean_name name (S i) Cleand
  end.

Definition EXT2_new (s : disks) (q : Part) : res disks :=
  let* '(s, buffer, b) := read_sectors s q 2 2 in
  let sb := take sizeof_SuperBlock b in
  let* s := release_buffer s buffer in
  let* magic := Magic sb in
  if decide (magic = EXT2_MAGIC) then
    let* name := cstring (drop off_VolumeName sb) in
    let* Cleand := clean_name name 0 (replicate 16 0) in
    MountFileSystem s ext2 438 Cleand
  else Ok s.

Fixpoint DetectAndMountFS (s : disks) (parts : list Part) : res disks :=
  match parts with
  | [] => Ok s
  | q :: parts =>
      let* s := EXT2_new s q in
      let* s := FAT_new s q in
      DetectAndMountFS s parts
  end.

(** ** Adding a drive *)

(** The drive's name, [Style] and [Partitions] with the new state; [None] for a
    null pointer. *)
Definition AddPartition (s : disks) (port : option Port) : res (disks * option (list Z * PartitionStyle * list Part)) :=
  match port with
  | None => Ok (s, None)
  | Some port =>
      let s := mk_disks (k_dev s) (k_vfs s) (k_devfs s) (k_mountfs s) (k_pfa s) (drives s + 1) in
      let* name := sprintf_to (replicate 64 0) (bytes_of "sd%ld") [ALong 64] in
      let* '(d, _) := ReadWrite port (k_dev s) 0 2 0 false in
      let table := memory d 0 sizeof_PartitionTable in
      let* s := add_device (with_dev s d) name in
      let* '(s, parts, how) := find_partitions s port table in
      let* s := DetectAndMountFS s parts in
      Ok (s, Some (name, how, parts))
  end.

(** The constructor of [Partition], for the ports of the controllers. *)
Fixpoint add_ports (s : disks) (ports : list Port) : res disks :=
  match ports with
  | [] => Ok s
  | p :: ports => let* '(s, _) := AddPartition s (Some p) in add_ports s ports
  end.
End controller.
