(* ===== verification/DiskTheorems.v ===== *)
(** * Transfers end, and where sectors and partitions are

    The waits for the controller end whatever it does; which sector a command
    is for; the bounds of partitions; the partitions of a table; and the file
    systems that are recognised. *)

From S2P Require Import Prelude CString Bytes Printf PageFrame PageFrameSpec Cwalk Vfs VfsTheorems Ustar Elf ElfSpec Disk.

Local Open Scope Z_scope.

(** ** Loops with a bound in binary *)

Section loops.
Context {S A : Type} (f : S -> S + A).

(** At most [k] steps. *)
Fixpoint run (k : nat) (s : S) : S + A :=
  match k with
  | O => inl s
  | Datatypes.S k => match f s with inl s => run k s | r => r end
  end.

Lemma run_add a b s : run (a + b) s = match run a s with inl s => run b s | r => r end.
Proof. revert s. induction a as [|a IH]; intros s; [done|]. cbn. destruct (f s); [apply IH|done]. Qed.

Lemma loop_run n : forall s, loop n f s = run (Pos.to_nat n) s.
Proof.
  induction n as [n IH|n IH|]; intros s; cbn [loop].
  - rewrite Pos2Nat.inj_xI. cbn [run]. destruct (f s) as [s1|]; [|done]. rewrite IH.
    replace (2 * Pos.to_nat n)%nat with (Pos.to_nat n + Pos.to_nat n)%nat by lia. rewrite run_add. destruct (run _ s1); [apply IH|done].
  - rewrite Pos2Nat.inj_xO. replace (2 * Pos.to_nat n)%nat with (Pos.to_nat n + Pos.to_nat n)%nat by lia. rewrite run_add, IH.
    destruct (run _ s); [apply IH|done].
  - change (Pos.to_nat 1) with 1%nat. cbn [run]. by destruct (f s).
Qed.

(** A measure that every step decreases bounds the steps. *)
Lemma run_ends (inv : S -> Prop) (mu : S -> Z) : (forall s s', inv s -> f s = inl s' -> inv s' /\ mu s' < mu s) -> (forall s, inv s -> 0 <= mu s) ->
  forall k s, inv s -> mu s < Z.of_nat k -> exists a, run k s = inr a.
Proof.
  intros Hstep Hpos. induction k as [|k IH]; intros s Hs Hk; [pose proof (Hpos s Hs); lia|]. cbn [run].
  destruct (f s) as [s1|a] eqn:E; [|by exists a]. destruct (Hstep s s1 Hs E) as [H1 H2]. apply IH; [done|lia].
Qed.

Lemma loop_ends (inv : S -> Prop) (mu : S -> Z) n s : (forall s s', inv s -> f s = inl s' -> inv s' /\ mu s' < mu s) ->
  (forall s, inv s -> 0 <= mu s) -> inv s -> mu s < Z.pos n -> exists a, result (loop n f s) = Ok a.
Proof.
  intros Hstep Hpos Hs Hn. destruct (run_ends inv mu Hstep Hpos (Pos.to_nat n) s Hs) as [a E]; [lia|].
  exists a. by rewrite loop_run, E.
Qed.
End loops.

(** ** Transfers *)

Section transfers.
Context {D : Type} `{C : Controller D}.

Lemma ready_ends d : exists r, result (loop 1000001 ready_step (d, 0)) = Ok r.
Proof.
  apply (loop_ends _ (fun s => 0 <= snd s <= 1000000) (fun s => 1000000 - snd s)); cbn [snd]; try lia.
  intros [d0 Spin] [d1 Spin']. unfold ready_step. cbn [snd]. intros Hi. case_decide as Hd; [|done]. intros [= <- <-]. lia.
Qed.

Lemma done_ends d : exists r, result (loop 1300000000 done_step (d, 0, 0)) = Ok r.
Proof.
  apply (loop_ends _ (fun s => 0 <= snd (fst s) <= 100000001 /\ 0 <= snd s <= 10) (fun s => (11 - snd s) * 100000001 + (100000001 - snd (fst s))));
    cbn [fst snd]; try lia.
  intros [[d0 Spin] Try] [[d1 Spin'] Try']. unfold done_step. cbn [fst snd]. intros Hi.
    destruct (bool_decide_reflect (100000000 < Spin)) as [H1|H1]; cbn [andb].
    + destruct (bool_decide_reflect (10 < Try + 1)) as [H2|H2]; [done|]. case_decide; [done|]. case_decide; [done|]. intros [= <- <- <-]. lia.
    + case_decide; [done|]. case_decide; [done|]. intros [= <- <- <-]. lia.
Qed.

Lemma ReadWrite_ends p d Sector SectorCount Buffer Write : HBAPortPtr p = true ->
  exists r, ReadWrite p d Sector SectorCount Buffer Write = Ok r.
Proof.
  intros Hp. unfold ReadWrite. case_match; [by eexists|]. rewrite Hp. cbn [negb].
  destruct (ready_ends (set_InterruptStatus d (u32 (-1)))) as [[d1 Spin] ->]. cbn [bind]. destruct (decide (Spin = 1000000)); [by eexists|].
  apply done_ends.
Qed.

(** C29 A transfer ends, whatever the controller does: both waits are bounded, and
    so are those of a partition. *)
Theorem transfer_ends p q d Sector SectorCount Buffer Write : HBAPortPtr p = true ->
  (exists d' r, ReadWrite p d Sector SectorCount Buffer Write = Ok (d', r)) /\
  exists d' n, part_read_write Write q d Sector SectorCount Buffer = Ok (d', n).
Proof.
  intros Hp. split; [destruct (ReadWrite_ends p d Sector SectorCount Buffer Write Hp) as [[d' r] ->]; by do 2 eexists|].
  unfold part_read_write. destruct (HBAPortPtr (Part_Port q)) eqn:Hq; cbn [negb]; [|by do 2 eexists]. destruct (decide _); [by do 2 eexists|].
  destruct (ReadWrite_ends (Part_Port q) d (u64 (StartLBA q + Sector)) (u32 SectorCount) Buffer Write Hq) as [[d' r] ->]. by do 2 eexists.
Qed.
End transfers.

(** The sector that a command is for. *)
Definition lba (c : command) : Z :=
  LBA0 c + 2 ^ 8 * LBA1 c + 2 ^ 16 * LBA2 c + 2 ^ 24 * LBA3 c + 2 ^ 32 * LBA4 c + 2 ^ 40 * LBA5 c.

Lemma three_bytes x : u8 x + 2 ^ 8 * u8 (Z.shiftr x 8) + 2 ^ 16 * u8 (Z.shiftr x 16) = x mod 2 ^ 24.
Proof.
  unfold wrapu. rewrite !Z.shiftr_div_pow2 by lia. change (2 ^ 24) with (2 ^ 8 * (2 ^ 8 * 2 ^ 8)).
  rewrite (Z.rem_mul_r x), (Z.rem_mul_r (x / 2 ^ 8)) by lia. rewrite Z.div_div by lia. change (2 ^ 8 * 2 ^ 8) with (2 ^ 16). lia.
Qed.

Lemma lba_transfer Sector n b w : 0 <= Sector < 2 ^ 48 ->
  lba (transfer Sector n b w) = Sector mod 2 ^ 24 + 2 ^ 24 * (Sector / 2 ^ 32).
Proof.
  intros Hs. unfold lba, transfer. cbn [LBA0 LBA1 LBA2 LBA3 LBA4 LBA5].
  pose proof (three_bytes (u32 Sector)) as H1. pose proof (three_bytes (u32 (Z.shiftr Sector 32))) as H2.
  assert (u32 Sector mod 2 ^ 24 = Sector mod 2 ^ 24) as E1.
  { unfold wrapu. symmetry. change (2 ^ 32) with (2 ^ 24 * 2 ^ 8). rewrite Z.rem_mul_r by lia. rewrite (Z.mul_comm (2 ^ 24)), Z.mod_add by lia.
    by rewrite Z.mod_mod by lia. }
  rewrite (Z.shiftr_div_pow2 Sector) in * by lia. pose proof (Z.div_lt_upper_bound Sector (2 ^ 32) (2 ^ 16)). pose proof (Z.div_pos Sector (2 ^ 32)).
  rewrite (wrapu_small 32 (Sector / 2 ^ 32)) in * by lia. rewrite (Z.mod_small (Sector / 2 ^ 32)) in H2 by lia. lia.
Qed.

(** The command for a transfer is for the sector asked for only below sector 2^24,
    8 GiB: the fourth byte of the number is left out, and the sectors behind
    are taken for others. *)
Theorem transfer_sector Sector n b w : 0 <= Sector < 2 ^ 48 ->
  (lba (transfer Sector n b w) = Sector <-> Sector < 2 ^ 24) /\
  (Sector < 2 ^ 32 -> lba (transfer Sector n b w) = Sector mod 2 ^ 24).
Proof.
  intros Hs. rewrite lba_transfer by done. pose proof (Z.div_mod Sector (2 ^ 32)). pose proof (Z.mod_pos_bound Sector (2 ^ 32)).
  pose proof (Z.div_pos Sector (2 ^ 32)). pose proof (Z.div_mod Sector (2 ^ 24)). pose proof (Z.mod_pos_bound Sector (2 ^ 24)).
  split; [split|].
  - intros E. assert (Sector / 2 ^ 32 = 0) by lia. lia.
  - intros Hlt. rewrite (Z.mod_small Sector), (Z.div_small Sector) by lia. lia.
  - intros Hlt. rewrite (Z.div_small Sector (2 ^ 32)) by lia. lia.
Qed.

(** ** Partitions *)

Section parts.
Context {D : Type} `{C : Controller D}.

Definition kept {S A} (inv : D -> Prop) (fs : S -> D) (fa : A -> D) (r : S + A) : Prop :=
  match r with inl s => inv (fs s) | inr a => inv (fa a) end.

Lemma loop_keeps {S A} (f : S -> S + A) (inv : D -> Prop) (fs : S -> D) (fa : A -> D) n : (forall s, inv (fs s) -> kept inv fs fa (f s)) ->
  forall s, inv (fs s) -> kept inv fs fa (loop n f s).
Proof.
  intros Hf. induction n as [n IH|n IH|]; intros s Hs; cbn [loop]; [| |by apply Hf].
  - pose proof (Hf s Hs) as H1. destruct (f s) as [s1|]; [|done]. pose proof (IH s1 H1) as H2. destruct (loop n f s1); [by apply IH|done].
  - pose proof (IH s Hs) as H2. destruct (loop n f s); [by apply IH|done].
Qed.

(** What polling and the register for interrupts leave alone stays, through a
    transfer whose command leaves it alone. *)
Lemma ReadWrite_keeps (inv : D -> Prop) p d Sector n b w d' r :
  (forall d, inv d -> inv (poll d)) -> (forall d v, inv d -> inv (set_InterruptStatus d v)) ->
  (forall d, inv d -> inv (issue d (transfer Sector n b w))) ->
  inv d -> ReadWrite p d Sector n b w = Ok (d', r) -> inv d'.
Proof.
  intros Hp Hs Hi Hd. unfold ReadWrite. destruct (_ && w); [congruence|]. destruct (negb _); [done|].
  assert (kept inv fst fst (loop 1000001 ready_step (set_InterruptStatus d (u32 (-1)), 0))) as H1.
  { apply loop_keeps; [|by apply Hs]. intros [d0 s] H1. unfold ready_step. destruct (decide (_ /\ _)); by apply Hp. }
  destruct (loop 1000001 _ _) as [|[d1 Spin]]; [done|]. cbn in H1. cbn [result bind]. case_decide; [congruence|].
  assert (kept inv (fun s => fst (fst s)) fst (loop 1300000000 done_step (issue d1 (transfer Sector n b w), 0, 0))) as H2.
  { apply loop_keeps; [|by apply Hi]. intros [[d0 s] t] H2. cbn [fst] in H2. unfold done_step.
    destruct (bool_decide _ && _); [done|].
    destruct (decide (CommandIssue d0 = 0)); [by apply Hp|]. destruct (decide (_ <> 0)); cbn [kept fst snd]; auto. }
  destruct (loop 1300000000 _ _) as [|[d2 r2]]; [done|]. cbn in H2. cbn [result]. congruence.
Qed.

(** How many sectors a command is for: the count 0 stands for 65536. *)
Definition sector_count (c : command) : Z :=
  let n := CountLow c + 2 ^ 8 * CountHigh c in if decide (n = 0) then 2 ^ 16 else n.

Lemma count_transfer Sector n b w : 0 <= n -> sector_count (transfer Sector n b w) = if decide (n mod 2 ^ 16 = 0) then 2 ^ 16 else n mod 2 ^ 16.
Proof.
  intros Hn. unfold sector_count, transfer. cbn [CountLow CountHigh]. change 0xFF with (Z.ones 8). rewrite !Z.land_ones by lia.
  rewrite Z.shiftr_div_pow2 by lia. change (2 ^ 16) with (2 ^ 8 * 2 ^ 8). by rewrite Z.rem_mul_r by lia.
Qed.

Lemma count_le Sector n b w : 0 < n -> sector_count (transfer Sector (u32 n) b w) <= n.
Proof.
  intros Hn. unfold wrapu. rewrite count_transfer by (apply Z.mod_pos_bound; lia). change (2 ^ 32) with (2 ^ 16 * 2 ^ 16).
  rewrite Z.rem_mul_r by lia. rewrite (Z.mul_comm (2 ^ 16)), Z.mod_add, Z.mod_mod by lia.
  pose proof (Z.div_mod n (2 ^ 16)). pose proof (Z.mod_pos_bound n (2 ^ 16)). pose proof (Z.div_pos n (2 ^ 16)). case_decide; nia.
Qed.

Definition part_ok (q : Part) : Prop := 0 <= StartLBA q /\ 0 <= Sectors q /\ StartLBA q + Sectors q <= 2 ^ 24.

(** C28 Reading and writing any number of sectors but 0 of a partition below sector
    2^24, where the sum of offset and number does not reach 2^64, ends and gives
    the controller commands for sectors of this partition only, so that what such
    commands leave alone, for example another partition, stays as it is.  (For a
    sum that wraps around see [previous_sector], for the number 0 [no_count].) *)
Theorem partition_isolated (inv : D -> Prop) write q d Offset Count Buffer : part_ok q ->
  0 <= Offset -> 0 < Count -> Offset + Count < 2 ^ 64 ->
  (forall d, inv d -> inv (poll d)) -> (forall d v, inv d -> inv (set_InterruptStatus d v)) ->
  (forall d c, StartLBA q <= lba c -> lba c + sector_count c <= StartLBA q + Sectors q -> inv d -> inv (issue d c)) ->
  inv d -> exists d' r, part_read_write write q d Offset Count Buffer = Ok (d', r) /\ inv d'.
Proof.
  intros (Q1 & Q2 & Q3) HO HC Hsum Hp Hs Hi Hd. unfold part_read_write. destruct (HBAPortPtr (Part_Port q)) eqn:Hq; cbn [negb]; [|by do 2 eexists].
  rewrite (wrapu_small 64) by lia. case_decide as Hle; [by do 2 eexists|]. rewrite (wrapu_small 64) by lia.
  destruct (ReadWrite_ends (Part_Port q) d (StartLBA q + Offset) (u32 Count) Buffer write Hq) as [[d1 r1] E]. rewrite E. cbn [bind].
  do 2 eexists. split; [reflexivity|].
  revert E. apply ReadWrite_keeps; [done..| |done]. intros d0 Hd0.
  assert (lba (transfer (StartLBA q + Offset) (u32 Count) Buffer write) = StartLBA q + Offset) as El.
  { rewrite lba_transfer by lia. rewrite Z.mod_small, Z.div_small by lia. lia. }
  pose proof (count_le (StartLBA q + Offset) Count Buffer write HC).
  apply Hi; rewrite ?El; lia || done.
Qed.

End parts.

(** ** File systems *)

(** What a boot sector must have to be taken for FAT at all. *)
Definition fat_header (jump0 jump2 bytes cluster reserved media : Z) : Prop :=
  (jump0 = 0xEB /\ jump2 = 0x90 \/ jump0 = 0xE9) /\ (media = 0xF0 \/ 0xF8 <= media) /\
  (bytes = 512 \/ bytes = 1024 \/ bytes = 2048 \/ bytes = 4096) /\ cluster <> 0 /\ cluster * bytes <= 32768 /\ reserved <> 0.

#[export] Instance fat_header_dec jump0 jump2 bytes cluster reserved media : Decision (fat_header jump0 jump2 bytes cluster reserved media).
Proof. unfold fat_header. solve_decision. Defined.

(** The size of the tables is taken to be that of the partition, so the number
    of clusters is negative, and stored without a sign. *)
Lemma clusters_wrap bytes cluster reserved root Size : 512 <= bytes <= 4096 -> 0 < cluster -> cluster * bytes <= 32768 -> 0 < reserved < 2 ^ 16 ->
  0 <= root < 2 ^ 16 -> 0 <= Size < 2 ^ 31 ->
  65525 <= u32 (Size - u32 (u32 (reserved + u32 (2 * Size)) + (root * 32 + (bytes - 1)) / bytes)) / cluster.
Proof.
  intros Hb Hc Hcb Hr Hroot HS. set (X := (root * 32 + (bytes - 1)) / bytes).
  assert (0 <= X <= 8192) as HX.
  { split; [apply Z.div_pos; lia|]. apply Z.div_le_upper_bound; [lia|]. nia. }
  assert (u32 (Size - u32 (u32 (reserved + u32 (2 * Size)) + X)) = 2 ^ 32 - (reserved + Size + X)) as ->.
  { unfold wrapu. rewrite Zminus_mod_idemp_r. replace (Size - (_ + X)) with (Size - X - (reserved + (2 * Size) mod 2 ^ 32) mod 2 ^ 32) by lia.
    rewrite Zminus_mod_idemp_r. replace (Size - X - (reserved + (2 * Size) mod 2 ^ 32)) with (Size - X - reserved - (2 * Size) mod 2 ^ 32) by lia.
    rewrite Zminus_mod_idemp_r. symmetry. apply (Z.mod_unique _ _ (-1)); [|lia]. left. lia. }
  apply Z.div_le_lower_bound; [done|]. assert (cluster <= 64) by nia. nia.
Qed.

Lemma load_range n : forall b off v, bytes_ok b -> load n b off = Ok v -> 0 <= v < 256 ^ Z.of_nat n.
Proof.
  induction n as [|n IH]; intros b off v Hb E; cbn [load] in E; [injection E as <-; simpl; lia|].
  destruct (aget b off) as [x|] eqn:Ex; [|done]. cbn [bind] in E. destruct (load n b (S off)) as [y|] eqn:Ey; [|done]. cbn [bind] in E.
  injection E as <-. apply aget_Ok in Ex. pose proof (proj1 (Forall_lookup _ _) Hb _ _ Ex) as Hx. cbn in Hx. apply IH in Ey; [|done].
  rewrite Nat2Z.inj_succ, Z.pow_succ_r by lia. lia.
Qed.

Lemma field_range n b o k v : bytes_ok b -> field n b o k = Ok v -> 0 <= v < 256 ^ Z.of_nat n.
Proof. intros Hb. unfold field. case_decide; [|done]. by apply load_range. Qed.

(** A test that makes the type unknown, and the rest of them. *)
Local Ltac refused :=
  match goal with
  | |- (if decide ?P then UnknownFat else _) = _ =>
      destruct (decide P) as [?|?]; [rewrite decide_False by (unfold fat_header; lia); reflexivity|]
  end.

(** A boot sector of a file system with two tables is taken for FAT32 when
    its header is plausible, it has no root directory and a size of 32 bits that is not
    0, and for none otherwise: never for FAT12 or FAT16. *)
Theorem fat_detection b jump0 jump2 bytes cluster reserved root sectors16 media sectors32 : bytes_ok b ->
  JumpBoot b 0 = Ok jump0 -> JumpBoot b 2 = Ok jump2 -> BytesPerSector b = Ok bytes -> SectorsPerCluster b = Ok cluster ->
  ReservedSectors b = Ok reserved -> NumberOfFATs b = Ok 2 -> RootDirectoryEntries b = Ok root -> Sectors16 b = Ok sectors16 ->
  Media b = Ok media -> Sectors32 b = Ok sectors32 -> sectors32 < 2 ^ 31 ->
  GetFATType b = Ok (if decide (fat_header jump0 jump2 bytes cluster reserved media /\ root = 0 /\ sectors16 = 0 /\ sectors32 <> 0)
                     then FAT32 else UnknownFat).
Proof.
  intros Hb E1 E2 E3 E4 E5 E6 E7 E8 E9 E10 H31. unfold GetFATType. rewrite E1, E2, E3, E4, E5, E6, E7, E8, E9, E10. cbn [bind]. f_equal.
  apply field_range in E3, E4, E5, E7, E8, E9, E10; [|done..]. cbn in *. clear E1 E2 E6 Hb b. unfold fat_type, fat_header.
  repeat (rewrite decide_False by lia || (case_decide; [rewrite decide_False by lia; done|])).
  set (Size := if decide (sectors16 <> 0) then _ else _). assert (0 <= Size < 2 ^ 31) as HS by (subst Size; case_decide; lia).
  do 9 refused.
  pose proof (clusters_wrap bytes cluster reserved root Size ltac:(lia) ltac:(lia) ltac:(lia) ltac:(lia) E7 HS) as Hc.
  do 2 (rewrite decide_False by lia). do 3 refused. rewrite decide_True by (unfold fat_header; lia). done.
Qed.

(** ** A sample drive *)

(** The bytes of a drive and of memory, and the commands so far; a command is
    done when the registers are read next. *)
Record sample_drive := mk_drive { image : list Z; sample_ram : list Z; commands : list command }.

Definition run_command (d : sample_drive) (c : command) : sample_drive :=
  let n := Z.to_nat (512 * sector_count c) in
  let at_disk := Z.to_nat (512 * lba c) in
  let at_ram := Z.to_nat (DataBaseAddress c) in
  let log := commands d ++ [c] in
  if c_Write c then mk_drive (splice at_disk (slice at_ram n (sample_ram d)) (image d)) (sample_ram d) log
  else mk_drive (image d) (splice at_ram (slice at_disk n (image d)) (sample_ram d)) log.

#[local] Instance sample_controller : Controller sample_drive := {|
  TaskFileData _ := 0; CommandIssue _ := 0; InterruptStatus _ := 0;
  poll d := d; set_InterruptStatus d _ := d; issue := run_command;
  memory d a n := slice (Z.to_nat a) n (sample_ram d)
|}.

Definition sample_port : Port := mk_Port true SATA 0.

(** A FAT32 boot sector, and an EXT2 super block with a volume name. *)
Definition sample_fat (oem : list Z) : list Z :=
  [0xEB; 0x58; 0x90] ++ oem ++ le 2 512 ++ [1] ++ le 2 32 ++ [2] ++ le 2 0 ++ le 2 0 ++ [0xF8] ++ replicate 10 0 ++ le 4 0x100000.
Definition sample_super : list Z := replicate 56 0 ++ le 2 EXT2_MAGIC ++ replicate 62 0 ++ bytes_of "my/data".
Definition sample_entry (first n : Z) : list Z := replicate 8 0 ++ le 4 first ++ le 4 n.
Definition sample_mbr : list Z := replicate 446 0 ++ sample_entry 2 2 ++ sample_entry 0 0 ++ sample_entry 4 6 ++ sample_entry 0 0 ++ [0x55; 0xAA].

Definition sectors (n : nat) (l : list Z) : list Z := l ++ replicate (512 * n - length l) 0.
Definition sample_image (oem : list Z) : list Z := sectors 2 sample_mbr ++ sectors 4 (sample_fat oem) ++ sectors 4 sample_super.

Definition sample_disks (oem : list Z) : disks :=
  mk_disks (mk_drive (sample_image oem) (replicate 16384 0) []) (tree [call_create (bytes_of "/system/dev"); call_create (bytes_of "/system/mnt")])
    (mk_mountpoint 4 0) (mk_mountpoint 5 0) (mk_pfa (mk_bitmap 1 0 [0x80]) 0x8000 0x7000 0x1000 0 0 true) 0.

(** The names in a directory. *)
Definition entries (v : Virtual) (p : Z) : res (list cstr) :=
  let* l := children v p in
  foldr (fun c r => let* n := deref v c in let* name := cstring (Name n) in let* r := r in Ok (name :: r)) (Ok []) l.

(** The drive, the first sectors and sizes of its partitions, the devices and
    what is mounted, and the sectors that were read. *)
Definition detected (oem : list Z) : res (cstr * list (Z * Z) * list cstr * list cstr * list (Z * Z)) :=
  let* '(s, r) := AddPartition (sample_disks oem) (Some sample_port) in
  let* '(name, how, parts) := nonnull r in
  let* name := cstring name in
  let* devices := entries (k_vfs s) 4 in
  let* mounts := entries (k_vfs s) 5 in
  Ok (name, (fun q => (StartLBA q, Sectors q)) <$> parts, devices, mounts, (fun c => (lba c, sector_count c)) <$> commands (k_dev s)).

Example detected_1 : detected (bytes_of "MSDOS50" ++ [0]) =
  Ok (bytes_of "sd64", [(2, 2); (4, 6)], bytes_of <$> ["sd64"; "sd0p0"; "sd0p1"]%string, bytes_of <$> ["MSDOS50"; "my_data"]%string,
    [(0, 2); (2, 1); (6, 2); (4, 1)]).
Proof. vm_compute. reflexivity. Qed.

(** A name of eight characters leaves no room for the terminator in [namebuf]. *)
Example detected_2 : detected (bytes_of "MSWIN4.1") = Err OutOfBounds.
Proof. vm_compute. reflexivity. Qed.

Definition sample_part : Part := mk_Part (bytes_of "data") 4 10 6 Present MBR 1 sample_port.

(** The sum of offset and count wraps around, and the sector in front of the
    partition is written. *)
Example previous_sector :
  (let* '(d, n) := Part_Write sample_part (mk_drive (sample_image []) (replicate 512 7) []) (2 ^ 64 - 1) 1 0 in
  Ok (n, lba <$> commands d, slice 1536 2 (image d))) = Ok (1, [3], [7; 7]).
Proof. vm_compute. reflexivity. Qed.

(** A request for no sectors at the end of the partition is not refused, and its
    command is for 65536 sectors from there on. *)
Example no_count :
  (let* '(d, n) := Part_Read sample_part (mk_drive (sample_image []) [] []) 6 0 0 in
  Ok (n, (fun c => (lba c, sector_count c)) <$> commands d)) = Ok (0, [(10, 2 ^ 16)]).
Proof. vm_compute. reflexivity. Qed.

(** The last sector of a partition of a GPT table, where [EndLBA] counts, is
    refused. *)
Lemma gpt_last_sector {D : Type} `{Controller D} port index b q (d : D) Buffer : bytes_ok b -> gpt_part port index b = Ok (Some q) ->
  StartLBA q <= EndLBA q < 2 ^ 63 -> Part_Read q d (EndLBA q - StartLBA q) 1 Buffer = Ok (d, 0).
Proof.
  intros Hb. unfold gpt_part.
  destruct (g_TypeLow b); [|done]. destruct (g_TypeHigh b); [|done]. cbn [bind]. case_decide; [done|].
  destruct (g_StartLBA b) as [start|] eqn:E1; [|done]. destruct (g_EndLBA b) as [last|] eqn:E2; [|done]. destruct (g_Attributes b); [|done].
  cbn [bind]. intros [= <-]. cbn [StartLBA EndLBA]. intros Hr. apply field_range in E1, E2; [|done..].
  unfold Part_Read, part_read_write. cbn [Part_Port Sectors]. destruct (negb _); [done|].
  rewrite !(wrapu_small 64) by lia. rewrite decide_True by lia. done.
Qed.

(** ** Witnesses *)

Lemma transfer_ends_witness :
  (exists d' r, ReadWrite sample_port (mk_drive [] [] []) 5 1 0 false = Ok (d', r)) /\
  exists d' n, part_read_write false sample_part (mk_drive [] [] []) 5 1 0 = Ok (d', n).
Proof. apply transfer_ends. reflexivity. Defined.

Lemma transfer_sector_witness : (lba (transfer 0x1234567 8 0 false) = 0x1234567 <-> 0x1234567 < 2 ^ 24) /\
  (0x1234567 < 2 ^ 32 -> lba (transfer 0x1234567 8 0 false) = 0x1234567 mod 2 ^ 24).
Proof. apply transfer_sector. lia. Defined.

Lemma command_keeps d c : 4 <= lba c -> take 2048 (image d) = take 2048 (sample_image []) ->
  take 2048 (image (run_command d c)) = take 2048 (sample_image []).
Proof.
  intros Hlo Hd. unfold run_command. destruct (c_Write c); cbn [image]; [|done]. rewrite <- Hd. unfold splice.
  apply (f_equal length) in Hd. rewrite !length_take in Hd. assert (Z.of_nat (length (sample_image [])) = 5120) as Hl by (vm_compute; reflexivity).
  rewrite take_app_le, take_take by (rewrite length_take; lia). f_equal. lia.
Qed.

(** The sectors in front of the sample partition stay. *)
Lemma partition_isolated_witness : exists d' r,
  part_read_write true sample_part (mk_drive (sample_image []) (replicate 512 7) []) 5 1 0 = Ok (d', r) /\
  take 2048 (image d') = take 2048 (sample_image []).
Proof.
  apply (partition_isolated (fun d => take 2048 (image d) = take 2048 (sample_image [])) true sample_part).
  - unfold part_ok. cbn. lia.
  - lia.
  - lia.
  - lia.
  - intros d Hd. exact Hd.
  - intros d v Hd. exact Hd.
  - intros d c Hlo _. apply command_keeps. exact Hlo.
  - reflexivity.
Defined.

Lemma fat_detection_witness : GetFATType (sectors 1 (sample_fat (bytes_of "MSWIN4.1"))) = Ok FAT32.
Proof.
  rewrite (fat_detection _ 0xEB 0x90 512 1 32 0 0 0xF8 0x100000); [vm_compute; reflexivity| |reflexivity..|lia].
  apply (bool_decide_unpack _). vm_compute. exact I.
Defined.
